(* ===== verification/_CoqProject ===== *)
-Q . S2P
Prelude.v
Float64.v
FloatSigns.v
SafeMath.v
Allocation.v
ListingFees.v
MarketMath.v
StateErrors.v
DecisionTypes.v
Periods.v
Pricing.v
DecisionsDb.v
DecisionsDbFacts.v
Markets.v
MarketsFacts.v
Transactions.v
TransactionsFacts.v
UtxoValue.v
TwoWayPeg.v
TwoWayPegFacts.v
TwoWayPegBlock.v
WithdrawalBundles.v
TwoWayPegSamples.v
Bodies.v
Archive.v
ArchiveStore.v
ArchiveFacts.v
ArchiveStoreFacts.v
ArchiveInvalidation.v
ArchiveReach.v
ArchiveLinks.v
ArchiveQueries.v
ArchiveTips.v
ArchiveLoops.v
ArchiveSamples.v
Voting.v
VotingFacts.v
Oracle.v
OracleFacts.v
OracleConsensus.v
OracleSamples.v
MarketsDb.v
MarketsDbFacts.v
SettlementFacts.v
TxPow.v
Authorization.v
StateModel.v
Validation.v
BlockUpdate.v
ValidationFacts.v
Consolidation.v
ConsolidationFacts.v
ConsolidationUndo.v
BlockConnect.v
BlockFacts.v
BlockSupply.v
Dimensions.v
Wallet.v
WalletFacts.v
Mempool.v
MempoolFacts.v
Node.v
NodeTxs.v
NodeFacts.v
Addresses.v
Proto.v
MainTask.v
MainTaskFacts.v
MainFetch.v
Peer.v
PeerFacts.v
Net.v
NetTask.v
NetTaskFacts.v
NetSync.v
Submit.v
BlockSamples.v
WalletSamples.v
NodeSamples.v
NetSamples.v
