(* ===== verification/Prelude.v ===== *)
(** * Truthcoin drivechain: a verification library

    Truthcoin is a sidechain that runs prediction markets.  Users claim
    _decisions_ (questions about the future, each tied to a voting period),
    open _markets_ over combinations of decisions, trade shares against an
    automated market maker, and _vote_ on the outcome of every decision.  The
    consensus of the voters resolves the decisions of a period; the markets
    over them are then settled, their treasury is paid out to the holders of
    shares and their fees to the authors and the voters who were right.  All of
    this happens while blocks are connected, and has to be undone exactly when
    a block is disconnected in a reorganisation.

    ** The parts and how they interact

    The node (src/lib/node) keeps an archive of headers and bodies, a state, the
    tables of the two-way peg and a pool of transactions.  A wallet builds and
    signs transactions, the pool collects them, the node chooses some for a
    block, and a block is validated (src/lib/validation), then applied
    (src/lib/state/block.rs).  Application changes the UTXO set and calls the
    components of the state: the decisions database mints the slots of a new
    period and records claims; the markets database records markets, trades and
    settlements; the voting databases record votes and, when a period closes,
    compute and commit its consensus, which moves reputation, resolves
    decisions and makes markets settle.  Every such change leaves an undo
    record (src/lib/state/undo.rs) from which disconnection restores the
    tables.  When the archive learns of a better tip the node disconnects and
    connects blocks until it is there.  Two tasks feed the archive: the mainchain
    task (src/lib/node/mainchain_task.rs) asks the mainchain node for blocks and
    follows its tip, and the network task (src/lib/node/net_task.rs) stores the
    headers and bodies that peers send (src/lib/net) and starts re-orgs.  A miner
    bids for a block on the mainchain and submits it when a mainchain block
    commits to it.  The arithmetic below (src/lib/math) is on [f64] and on [u64]
    satoshis.

    ** Files

    Foundations:
    - [Prelude]: the error monad [result], machine integers, the fold with
      early exit [try_fold] that models the source's loops with [?], lemmas
      on lists, sorting and maps, tactics and the hint database.
    - [Float64]: [f64] as IEEE 754 binary64 on the executable specification of
      the Standard Library, with the casts and rounding functions of Rust;
      [FloatSigns] the signs of its results.
    - [SafeMath] (src/lib/math/safe_math.rs): conversions between [f64] and
      satoshis, basis points.  [Allocation] (src/lib/math/allocation.rs): the
      proportional division of a pool.  [ListingFees]
      (src/lib/math/decisions.rs): tiers, unlocking, the reprice curve.
      [MarketMath] (src/lib/math/markets.rs, lmsr.rs, trading.rs): outcome
      spaces, the LMSR cost function, the rounding of trades.

    The state:
    - [StateErrors] (src/lib/state/error.rs, parts of markets/types.rs and
      types/transaction/mod.rs): identifiers and error values.
    - [DecisionTypes] (src/lib/state/decisions/types.rs): ids, decisions,
      their life cycle and history.  [Periods]
      (src/lib/state/voting/period_calculator.rs): the clock.  [Pricing]
      (src/lib/state/decisions/pricing.rs).  [DecisionsDb]
      (src/lib/state/decisions/database.rs): the tables of [Dbs] and their
      operations; [DecisionsDbFacts] their theorems.
    - [Markets] (src/lib/state/markets/types.rs, market.rs): states, share
      accounts, the market record; [MarketsFacts] their theorems.
      [Dimensions] (markets/types.rs): the notation of market dimensions and
      its parser.
    - [Transactions] (src/lib/types/transaction, src/lib/state/mod.rs, the UTXO
      part of block.rs): outpoint keys, outputs, filled transactions, the UTXO
      tables with their address index; [TransactionsFacts] their theorems;
      [UtxoValue] the value of the whole table.
    - [TwoWayPeg] (src/lib/state/two_way_peg_data.rs, rollback.rs): deposits and
      withdrawal bundles; [TwoWayPegFacts] the reversal of each event,
      [TwoWayPegBlock] that of a block of events, [WithdrawalBundles] the
      abstract bundle a collected one refines, [TwoWayPegSamples] concrete runs.
    - [Voting] (src/lib/state/voting, src/lib/state/reputation.rs,
      src/lib/math/voting/mod.rs, undo of consensus in block.rs): votes,
      reputation, the vote matrix, consensus; [VotingFacts] their theorems.
    - [Oracle] (src/lib/math/voting/oracle.rs): the computation of outcomes and
      reputations from the vote matrix; [OracleFacts] its shapes and ranges,
      [OracleConsensus] what it gives the consensus, [OracleSamples] runs of it.
    - [MarketsDb] (src/lib/state/markets/database.rs, payouts.rs, undo of
      settlement in block.rs): the market tables with their three indexes,
      share accounts, fee distribution, settlement; [MarketsDbFacts] their
      theorems; [SettlementFacts] the reversal of a settlement.

    Blocks:
    - [Bodies] (src/lib/types/mod.rs): bodies, their flattened authorizations,
      the merkle root.  [TxPow] (src/lib/types/tx_pow.rs): the proof of work of
      a trade.  [Authorization] (src/lib/authorization.rs): signing, batch
      verification, actor proofs.
    - [StateModel] (src/lib/state/mod.rs, undo.rs, types/transaction/mod.rs):
      the record [State] of all tables and the views of transaction data.
      [Validation] (src/lib/validation): every guard, with the trait
      [DecisionValidationInterface] as a type class and its two instances;
      [ValidationFacts] their theorems.
    - [BlockUpdate] (src/lib/state/block.rs): the handlers of transactions and
      the effects they collect.  [Consolidation] (block.rs): the money of the
      markets at the end of a block; [ConsolidationFacts] its conservation,
      [ConsolidationUndo] its reversal.  [BlockConnect] (block.rs, mod.rs):
      connecting and disconnecting a block; [BlockFacts] what it commits and
      takes back, [BlockSupply] that it creates no satoshis, [BlockSamples] a
      concrete block.

    The node:
    - [Archive], [ArchiveStore] (src/lib/archive/mod.rs, iter.rs,
      side_tips/mod.rs): queries and writes; [ArchiveFacts],
      [ArchiveStoreFacts], [ArchiveInvalidation], [ArchiveReach],
      [ArchiveLinks], [ArchiveQueries], [ArchiveTips], [ArchiveLoops] their
      theorems on every archive the operations can produce; [ArchiveSamples] a
      concrete one.
    - [Wallet] (src/lib/wallet.rs): key tables, coin selection, every
      transaction the wallet builds, signing; [WalletFacts] its theorems.
    - [Mempool] (src/lib/mempool.rs): the pool and its four indexes;
      [MempoolFacts] its theorems.  [WalletSamples] a concrete wallet and pool.
    - [Node] (src/lib/node/net_task.rs, mod.rs): connecting and disconnecting
      the tip, the re-org with its single commit, the loops that follow the
      mainchain.  [NodeTxs] (src/lib/node/mod.rs, src/app/app.rs): submission,
      the choice of transactions for a block, the block built from it, the
      queries.  [NodeFacts] their theorems, [NodeSamples] a concrete node.

    The tasks:
    - [Addresses] (src/lib/types/address.rs): addresses and their deposit form.
      [Proto] (src/lib/types/proto.rs): the messages of the mainchain node, their
      conversions and the clients, with their theorems.
    - [MainTask] (src/lib/node/mainchain_task.rs): fetching ancestors, moving the
      mainchain tip, events and requests; [MainTaskFacts] the move from one tip
      to another, [MainFetch] the fetching, against the interface [InfoSource]
      that the client of [Proto] implements.
    - [Peer] (src/lib/net/peer): messages, the queue of requests, the check of a
      peer's tip, the answers to a peer; [PeerFacts] its theorems.  [Net]
      (src/lib/net/mod.rs, src/lib/types/net.rs): the tables of peers.
    - [NetTask] (src/lib/node/net_task.rs): the handlers of the network task and
      its loop, in a state and error monad; [NetTaskFacts] what every handler
      keeps, the node's use of the archive first, [NetSync] two nodes that
      synchronise their headers.
    - [Submit] (src/lib/miner.rs, src/lib/node/mod.rs): the bid for a block, its
      confirmation, and the submission of the block, where miner, mainchain task,
      archive and network task meet.
    - [NetSamples]: concrete codecs, a mainchain node and two nodes.

    ** How code is rendered

    A database table is a finite map from keys to values; where the source
    relies on the order in which a cursor visits keys, the encoding of the key
    is modelled and the entries are visited in the order of their bytes.  A
    write transaction is aborted by the caller when an operation fails, so a
    failing operation returns an error and no state; the wallet, whose methods
    commit on their own, and the node's loops return an error beside what they
    leave.  Integers are [Z] or [N] with the width of the source's type checked
    or wrapped where the source does so; a panic is an error value of its own.  A
    [reason] string is a short tag naming the guard that produced it.

    Code outside the repository is a parameter, most of it a field of a type
    class: [BitcoinAmount] (the maximal amount), [MainchainTx] (scripts, sizes
    and ids of mainchain transactions), [BodyHashes], [ArchiveEnv] (header
    hashes, work), [PowHashes], [SignatureScheme] (the curve, the keyed hash and
    the batch verifier), [ValidationEnv] (market ids, encoded sizes), [BlockEnv]
    ([libm]'s [exp] and [log], the array crate's summation, payout hashes),
    [LinearAlgebra] (the sums, products and singular value decomposition of the
    linear algebra crate, of which only shapes and the sign of a sum are known),
    [ColumnOrder], [WalletEnv] (key derivation, encryption, mnemonics, hexadecimal
    decoding), [TextCodecs] (base 58, hexadecimal, SHA-256), [ConsensusCodecs]
    (the encoding of hashes), [MainchainService] (the answers of the mainchain
    node), [PeerHashes] (hashes of requests and peer states), [NetEnv].  The order
    in which a hash table is traversed and an unstable sort arranges equal keys is
    a field too, of which only the permutation is known.  A theorem that relies on
    the documented behaviour of these (signatures that verify, hashes of a fixed
    length) has it as a hypothesis with a witness.

    A task is a loop over its mailbox: a list of items in the order they arrive,
    each with what the world answers to it (whether a connection starts, what a
    peer sent), so a theorem about every list of items holds for every
    interleaving.  The connection of [Peer] sees the archive and the state that
    are there when an item is handled.

    ** What the theorems show

    - Arithmetic: a value is rounded to satoshis exactly as documented, a basis
      point split loses nothing, an allocation hands out exactly the pool, the
      reprice curve is monotone and bounded by the factors one half and two,
      the cost of a buy is rounded up and the proceeds of a sell down.
    - Decisions: ids survive their packing and their hexadecimal form; the
      history of a decision follows the life cycle and rolling it back undoes
      it; minting, pricing and claims at any clock keep the invariant of the
      priced periods, and the whole active window is priced while no claim runs
      ahead of the pricing step, which is shown to be needed; a claim is
      recorded once, found again, and undone by its reversal; the pricing undo
      log restores what it recorded.
    - Markets: the outcomes are exactly the combinations of the tradeable
      ranges and the index of a combination is its position; the state
      machine; volumes and positions are restored by their reversals; the
      three indexes agree with the market table after any sequence of
      operations; a settlement pays out and refunds exactly the treasury, and
      reverting it gives back the tables it started from; the notation of
      dimensions is parsed back.
    - Transactions: outpoint keys round trip, the address index is exact, no
      transaction creates value, disconnecting a block's transactions restores
      the tables; batch verification accepts a body exactly when every
      transaction is accepted alone, and what is signed verifies.
    - The peg: connecting and disconnecting the events of a block is a round
      trip, under conditions each of which has a counterexample; a collected
      bundle refines the abstract bundle.
    - Votes: the early-terminating scan by period is the full filter while
      period numbers fit in one byte; the vote matrix returns what was put in;
      a validated ballot records one vote per decision, within the range of the
      decision; the consensus of a period resolves every decision of it; its
      commit conserves reputation up to the tolerance of the check, and what its
      reversal restores is stated table by table.
    - Blocks: double spends and double claims are found exactly; a block that
      settles no market does not increase the value of the unspent outputs; a
      trade is priced at the state the block commits; consolidation and
      reputation transfers are undone exactly.
    - The archive: every reachable archive is well formed; the skipping searches
      agree with following parents; invalidation and the queues of bodies end.
    - Wallet and pool: selection uses the fewest coins; a transfer the wallet
      makes is accepted with the fee asked for; every key given out is found
      again; spent outputs and claims are exact in every pool the operations can
      produce, and the other indexes when every transaction spends something; a
      deletion removes exactly the dependents.
    - The node: a re-org happens as a whole or not at all, and discards the body
      of exactly the block the state refused; the transactions chosen for a
      block do not conflict and their fee passes the check, but for the two
      kinds of transaction for which it is proved not to; a rival in the pool
      keeps a tip from being disconnected; a submitted block becomes
      the tip or leaves state, peg and pool alone.
    - The oracle: it answers or fails for one of the stated reasons and reads
      nothing out of range; outcomes are of the kind their decision has;
      categorical decisions are decided by plurality; no reputation gets a minus
      sign but the one that takes the rounding.
    - The mainchain task: ancestors are fetched and stored within as many batches
      as the block is high; the tip moves along the fork and the events tell the
      path; a block that commits to a side block that was never connected stops
      every run once it is left.  A deposit that can be read is credited to the
      address it names, or to nobody.
    - The network: a connection compares tips above height 0 as the archive does
      and sends no request twice; the headers one node serves are stored by the
      node that asked, when it knows the mainchain blocks they build on; whatever peers send, the archive stays well formed and the tables of
      the task bounded; a header on an unknown mainchain block ends the task.

    ** Bounds and fuel

    Loops over a collection are structural recursions or folds.  The others take
    fuel that is enough by a theorem or by construction: the skipping searches
    of the archive the bits of the height, its ancestor walks and queues the
    number of headers ([ArchiveLoops], [ArchiveInvalidation]); the deletion from
    the pool one more than the outputs of its transactions ([MempoolFacts]);
    the parser of dimensions the length of its text ([Dimensions]); the loops
    that leave lost tips the height of the tip, since each turn disconnects one
    block; the addresses of a peer their number ([Net]); the request for mainchain
    ancestors takes its fuel as an argument, and the height of the block is enough
    ([MainFetch]); the loops that move the mainchain tip the number of mainchain
    headers ([MainTaskFacts]); the search for a nonce of a trade has the bound the
    caller gives and reports when it runs out.  In [Node] a loop that would exceed its bound is
    the error [NodePanicked], apart from those of the source.  The fixed-point
    series of [ListingFees] and the precision of [Float64] are the constants of
    the source and of binary64.  Where a theorem needs a range (an amount that
    fits in [u64], a mantissa below [2^53], a period below 256) the range is a
    hypothesis with a witness.

    ** What is not modelled

    What the sources only call: the linear algebra crate, the database, the QUIC
    endpoint with its streams, certificates, rate limits and time-outs
    (src/lib/net/mod.rs, src/lib/net/peer/channel_pool.rs), name resolution and the
    transport to the mainchain node.  The start-up of the node and of its tasks,
    the restart of the mainchain task after an error, and the notifications of
    subscribers are left out: they run the modelled loops and pass on their
    results.  The user interface, command line and RPC (src/app, src/cli,
    src/rpc-api) dispatch to the modelled operations and format what they return;
    generated wire types, serialisation glue, display and listings for display
    carry no logic of their own; tests are not modelled. *)

From stdpp Require Import base list sorting numbers.

(** ** Fallible computations

    Rust's [Result<A, E>].  The error comes first so that [result E] is a
    monad for stdpp's notations: [x ← c; k] is the source's [let x = c?; k]. *)

Inductive result (E A : Type) : Type :=
| Ok (a : A)
| Err (e : E).
Arguments Ok {E A} a.
Arguments Err {E A} e.

#[export] Instance result_ret {E} : MRet (result E) := fun A a => Ok a.
#[export] Instance result_bind {E} : MBind (result E) := fun A B f c =>
  match c with Ok a => f a | Err e => Err e end.
#[export] Instance result_fmap {E} : FMap (result E) := fun A B f c =>
  match c with Ok a => Ok (f a) | Err e => Err e end.

#[export] Instance Ok_inj {E A} : Inj (=) (=) (@Ok E A).
Proof. by intros ?? [=]. Qed.

(** [Result::map_err]. *)
Definition map_err {E F A} (f : E → F) (c : result E A) : result F A :=
  match c with Ok a => Ok a | Err e => Err (f e) end.

(** [Option::ok_or]. *)
Definition ok_or {E A} (o : option A) (e : E) : result E A :=
  match o with Some a => Ok a | None => Err e end.

(** The early return [if b { return Err(e) }]. *)
Definition bail_if {E} (b : bool) (e : E) : result E unit :=
  if b then Err e else Ok tt.

Definition is_ok {E A} (c : result E A) : bool :=
  match c with Ok _ => true | Err _ => false end.

(** [Result::unwrap_or]. *)
Definition run {E A} (c : result E A) (a : A) : A :=
  match c with Ok x => x | Err _ => a end.

(** A [for] loop whose body may return early with an error. *)
Fixpoint try_fold {E A B} (f : B → A → result E B) (b : B) (l : list A)
  : result E B :=
  match l with
  | [] => Ok b
  | a :: l => match f b a with Ok b' => try_fold f b' l | Err e => Err e end
  end.

(** [iter().map(f).collect::<Result<Vec<_>, _>>()]. *)
Fixpoint try_map {E A B} (f : A → result E B) (l : list A) : result E (list B) :=
  match l with
  | [] => Ok []
  | a :: l => match f a with
              | Ok b => match try_map f l with Ok bs => Ok (b :: bs) | Err e => Err e end
              | Err e => Err e
              end
  end.

(** ** Machine integers

    A [w]-bit integer is a [Z].  The release profile of the workspace leaves
    overflow checks off, so plain [+], [-], [*] and the [as] casts wrap. *)

Open Scope Z_scope.

Definition wrap_unsigned (w z : Z) : Z := z mod 2 ^ w.
Definition wrap_signed (w z : Z) : Z := (z + 2 ^ (w - 1)) mod 2 ^ w - 2 ^ (w - 1).

Abbreviation U8_MAX := (255).
Abbreviation U16_MAX := (65535).
Abbreviation U32_MAX := (4294967295).
Abbreviation U64_MAX := (18446744073709551615).
Abbreviation I64_MAX := (9223372036854775807).
Abbreviation I64_MIN := (-9223372036854775808).

Definition as_u8 (z : Z) : Z := wrap_unsigned 8 z.
Definition as_u16 (z : Z) : Z := wrap_unsigned 16 z.
Definition as_u32 (z : Z) : Z := wrap_unsigned 32 z.
Definition as_u64 (z : Z) : Z := wrap_unsigned 64 z.
Definition as_u128 (z : Z) : Z := wrap_unsigned 128 z.
Definition as_i64 (z : Z) : Z := wrap_signed 64 z.
Definition as_i128 (z : Z) : Z := wrap_signed 128 z.

Definition is_u8 (z : Z) : Prop := 0 ≤ z ≤ U8_MAX.
Definition is_u16 (z : Z) : Prop := 0 ≤ z ≤ U16_MAX.
Definition is_u32 (z : Z) : Prop := 0 ≤ z ≤ U32_MAX.
Definition is_u64 (z : Z) : Prop := 0 ≤ z ≤ U64_MAX.
Definition is_i64 (z : Z) : Prop := I64_MIN ≤ z ≤ I64_MAX.

#[export] Instance is_u32_dec z : Decision (is_u32 z).
Proof. unfold is_u32. apply _. Defined.
#[export] Instance is_u64_dec z : Decision (is_u64 z).
Proof. unfold is_u64. apply _. Defined.
#[export] Instance is_i64_dec z : Decision (is_i64 z).
Proof. unfold is_i64. apply _. Defined.

(** [saturating_*] and [checked_*] on [u32] and [u64]. *)
Definition sat_add_u32 (a b : Z) : Z := Z.min (a + b) U32_MAX.
Definition sat_sub (a b : Z) : Z := Z.max (a - b) 0.
Definition sat_add_u64 (a b : Z) : Z := Z.min (a + b) U64_MAX.
Definition sat_mul_u64 (a b : Z) : Z := Z.min (a * b) U64_MAX.
Definition checked_add_u64 (a b : Z) : option Z :=
  if a + b <=? U64_MAX then Some (a + b) else None.
Definition checked_sub (a b : Z) : option Z :=
  if b <=? a then Some (a - b) else None.
Definition checked_mul_u64 (a b : Z) : option Z :=
  if a * b <=? U64_MAX then Some (a * b) else None.
Definition checked_div (a b : Z) : option Z :=
  if b =? 0 then None else Some (a / b).
Definition checked_add_i64 (a b : Z) : option Z :=
  if bool_decide (is_i64 (a + b)) then Some (a + b) else None.

(** ** Tactics *)

(** Invert a successful monadic computation: each [?] in the source leaves an
    equation [c = Ok x] behind. *)
Ltac inv_ok :=
  repeat match goal with
  | H : Ok _ = Ok _ |- _ => injection H as H; try subst
  | H : Err _ = Err _ |- _ => injection H as H; try subst
  | H : Ok _ = Err _ |- _ => discriminate H
  | H : Err _ = Ok _ |- _ => discriminate H
  | H : mret _ = _ |- _ => unfold mret, result_ret in H
  | H : mbind _ ?c = Ok _ |- _ =>
      unfold mbind, result_bind in H;
      let E := fresh "E" in destruct c eqn:E; [ | discriminate H]
  | H : match ?c with Ok _ => _ | Err _ => _ end = Ok _ |- _ =>
      let E := fresh "E" in destruct c eqn:E; [ | discriminate H]
  | H : map_err _ ?c = Ok _ |- _ =>
      unfold map_err in H;
      let E := fresh "E" in destruct c eqn:E; [ | discriminate H]
  | H : ok_or ?o _ = Ok _ |- _ =>
      unfold ok_or in H;
      let E := fresh "E" in destruct o eqn:E; [ | discriminate H]
  | H : bail_if ?b _ = Ok _ |- _ =>
      unfold bail_if in H;
      let E := fresh "E" in destruct b eqn:E; [discriminate H | clear H]
  end.

(** Turn boolean comparisons into propositions. *)
Ltac to_prop :=
  repeat match goal with
  | H : _ && _ = true |- _ => apply andb_true_iff in H as [? ?]
  | H : _ || _ = false |- _ => apply orb_false_iff in H as [? ?]
  | H : negb _ = true |- _ => apply negb_true_iff in H
  | H : negb _ = false |- _ => apply negb_false_iff in H
  | H : bool_decide _ = true |- _ => apply bool_decide_eq_true in H
  | H : bool_decide _ = false |- _ => apply bool_decide_eq_false in H
  end.

(** Integer goals with constant-width division, modulus and case splits. *)
Ltac zify_div := Z.to_euclidean_division_equations; (lia || nia).

Create HintDb machine.

Lemma wrap_unsigned_range w z : 0 ≤ w → 0 ≤ wrap_unsigned w z < 2 ^ w.
Proof. intros. apply Z.mod_pos_bound. lia. Qed.

Lemma wrap_unsigned_small w z : 0 ≤ z < 2 ^ w → wrap_unsigned w z = z.
Proof. apply Z.mod_small. Qed.

Lemma wrap_unsigned_add_l w a b :
  wrap_unsigned w (wrap_unsigned w a + b) = wrap_unsigned w (a + b).
Proof. unfold wrap_unsigned. by rewrite Zplus_mod_idemp_l. Qed.

Lemma wrap_signed_small w z :
  0 < w → - 2 ^ (w - 1) ≤ z < 2 ^ (w - 1) → wrap_signed w z = z.
Proof.
  intros Hw Hz. unfold wrap_signed.
  assert (2 ^ w = 2 * 2 ^ (w - 1)) as ->.
  { rewrite <- Z.pow_succ_r by lia. f_equal. lia. }
  rewrite Z.mod_small; lia.
Qed.

Lemma as_u64_small z : is_u64 z → as_u64 z = z.
Proof. unfold is_u64. intros. apply wrap_unsigned_small. lia. Qed.
Lemma as_u32_small z : is_u32 z → as_u32 z = z.
Proof. unfold is_u32. intros. apply wrap_unsigned_small. lia. Qed.
Lemma as_i64_small z : is_i64 z → as_i64 z = z.
Proof. unfold is_i64. intros. apply wrap_signed_small; lia. Qed.
Lemma as_u64_range z : is_u64 (as_u64 z).
Proof. pose proof (wrap_unsigned_range 64 z). unfold is_u64, as_u64. lia. Qed.
Lemma as_u32_range z : is_u32 (as_u32 z).
Proof. pose proof (wrap_unsigned_range 32 z). unfold is_u32, as_u32. lia. Qed.

#[export] Hint Resolve as_u64_range as_u32_range : machine.

(** The loop rule: what holds before a body that succeeds holds after it. *)
Lemma try_fold_inv {E A B} (P : list A → B → Prop) (f : B → A → result E B) b l b' :
  P [] b →
  (∀ seen c a c', P seen c → a ∈ l → f c a = Ok c' → P (seen ++ [a]) c') →
  try_fold f b l = Ok b' → P l b'.
Proof.
  intros H0 Hstep.
  enough (∀ seen c, P seen c → try_fold f c l = Ok b' → P (seen ++ l) b') as H
    by exact (H [] b H0).
  induction l as [|a l IH]; simpl; intros seen c Hc Hf.
  - injection Hf as <-. by rewrite app_nil_r.
  - destruct (f c a) as [c'|] eqn:Ef; [|discriminate].
    replace (seen ++ a :: l) with ((seen ++ [a]) ++ l) by by rewrite <- app_assoc.
    apply (IH ltac:(intros; eapply Hstep; [done|by apply elem_of_cons; right|done])
              (seen ++ [a]) c'); [|done].
    eapply Hstep; [done|by apply elem_of_cons; left|done].
Qed.

Lemma try_fold_app {E A B} (f : B → A → result E B) b l k :
  try_fold f b (l ++ k) = (b' ← try_fold f b l; try_fold f b' k).
Proof.
  revert b. induction l as [|a l IH]; intros b; simpl; [done|]. by destruct (f b a); simpl.
Qed.

Lemma try_fold_map {E A B C} (f : B → A → result E B) (g : C → A) b l :
  try_fold f b (map g l) = try_fold (fun b c => f b (g c)) b l.
Proof.
  revert b. induction l as [|a l IH]; intros b; simpl; [done|]. by destruct (f b (g a)).
Qed.

Lemma try_fold_total {E A B} (f : B → A → B) b l :
  try_fold (E := E) (fun b a => Ok (f b a)) b l = Ok (foldl f b l).
Proof. revert b. induction l as [|a l IH]; intros b; simpl; done. Qed.

(** The undo rule: when every step of a loop is undone by [g], the loop is
    undone by the loop of [g] over the reversed list. *)
Lemma try_fold_revert {E A B} (P : list A → B → Prop) (f g : B → A → result E B) :
  (∀ a l b b', P (a :: l) b → f b a = Ok b' → g b' a = Ok b ∧ P l b') →
  ∀ l b b', P l b → try_fold f b l = Ok b' → try_fold g b' (rev l) = Ok b ∧ P [] b'.
Proof.
  intros Hstep. induction l as [|a l IH]; simpl; intros b b' HP Hf.
  - injection Hf as <-. done.
  - destruct (f b a) as [c|] eqn:Ef; [|discriminate].
    destruct (Hstep a l b c HP Ef) as [Hg HP']. destruct (IH c b' HP' Hf) as [Hr Hnil].
    split; [|done]. rewrite try_fold_app, Hr. simpl. by rewrite Hg.
Qed.

(** ** Orderings

    [Ordering::then] and the lexicographic order of slices. *)

Definition then_cmp (a b : comparison) : comparison :=
  match a with Eq => b | _ => a end.

Fixpoint lex_cmp {A} (cmp : A → A → comparison) (l k : list A) : comparison :=
  match l, k with
  | [], [] => Eq
  | [], _ :: _ => Lt
  | _ :: _, [] => Gt
  | a :: l, b :: k => then_cmp (cmp a b) (lex_cmp cmp l k)
  end.

(** [Option<T>]'s order: [None] first. *)
Definition option_cmp {A} (cmp : A → A → comparison) (a b : option A) : comparison :=
  match a, b with
  | None, None => Eq
  | None, Some _ => Lt
  | Some _, None => Gt
  | Some a, Some b => cmp a b
  end.

Definition is_gt (c : comparison) : bool := match c with Gt => true | _ => false end.
Definition is_lt (c : comparison) : bool := match c with Lt => true | _ => false end.
Definition is_eq (c : comparison) : bool := match c with Eq => true | _ => false end.

(** ** Lists *)

(** The mathematical sum of a list of integers. *)
Definition sumZ (l : list Z) : Z := foldr Z.add 0 l.

(** [iter().sum::<u64>()]: addition from the left, wrapping. *)
Definition sum_u64 (l : list Z) : Z := foldl (fun a b => as_u64 (a + b)) 0 l.

(** [slice::sort_by]: a stable sort. *)
Fixpoint insert_by {A} (cmp : A → A → comparison) (x : A) (l : list A) : list A :=
  match l with
  | [] => [x]
  | y :: l => if is_gt (cmp x y) then y :: insert_by cmp x l else x :: y :: l
  end.
Definition sort_by {A} (cmp : A → A → comparison) (l : list A) : list A :=
  foldr (insert_by cmp) [] l.

(** [slice::sort_by_key] with an integer key. *)
Definition key_cmp {A} (key : A → Z) (a b : A) : comparison := (key a ?= key b).
Definition sort_by_key {A} (key : A → Z) (l : list A) : list A := sort_by (key_cmp key) l.

(** [iter().enumerate().max_by_key(..).map(|(i, _)| i)]: the last maximum. *)
Fixpoint max_index_from (i : nat) (best : nat * Z) (l : list Z) : nat :=
  match l with
  | [] => best.1
  | z :: l => max_index_from (S i) (if best.2 <=? z then (i, z) else best) l
  end.
Definition max_index (l : list Z) : option nat :=
  match l with [] => None | z :: l => Some (max_index_from 1 (0%nat, z) l) end.

(** [iter().enumerate().min_by_key(..).map(|(i, _)| i)]: the first minimum. *)
Fixpoint min_index_from (i : nat) (best : nat * Z) (l : list Z) : nat :=
  match l with
  | [] => best.1
  | z :: l => min_index_from (S i) (if z <? best.2 then (i, z) else best) l
  end.
Definition min_index (l : list Z) : option nat :=
  match l with [] => None | z :: l => Some (min_index_from 1 (0%nat, z) l) end.

Fixpoint enumerate {A} (i : Z) (l : list A) : list (Z * A) :=
  match l with [] => [] | a :: l => (i, a) :: enumerate (i + 1) l end.

(** The integers [a, a+1, ..., b-1] of a [for] loop over [a..b]. *)
Definition range (a b : Z) : list Z := map (fun n => a + Z.of_nat n) (seq 0 (Z.to_nat (b - a))).
(** [a..=b]. *)
Definition range_incl (a b : Z) : list Z := range a (b + 1).

Section SumZ.

Lemma sumZ_app l k : sumZ (l ++ k) = sumZ l + sumZ k.
Proof. induction l; simpl; lia. Qed.

#[export] Instance sumZ_perm : Proper ((≡ₚ) ==> (=)) sumZ.
Proof. induction 1; simpl in *; lia. Qed.

Lemma sumZ_nonneg l : Forall (fun z => 0 ≤ z) l → 0 ≤ sumZ l.
Proof. induction 1; simpl; lia. Qed.

Lemma sumZ_elem_le l z : Forall (fun z => 0 ≤ z) l → z ∈ l → z ≤ sumZ l.
Proof.
  induction 1 as [|y l Hy Hl IH]; intros Hz; [by apply not_elem_of_nil in Hz|].
  apply elem_of_cons in Hz as [->|Hz]; simpl.
  - pose proof (sumZ_nonneg l Hl). lia.
  - specialize (IH Hz). lia.
Qed.

Lemma sumZ_alter {A} (f : A → Z) (g : A → A) d i (l : list A) x :
  l !! i = Some x → f (g x) = f x + d →
  sumZ (map f (alter g i l)) = sumZ (map f l) + d.
Proof.
  revert i. induction l as [|y l IH]; intros [|i] Hi Hd; simplify_eq/=.
  - lia.
  - rewrite (IH i); [lia|done|done].
Qed.

Lemma foldl_as_u64 l a :
  foldl (fun a b => as_u64 (a + b)) (as_u64 a) l = as_u64 (a + sumZ l).
Proof.
  revert a. induction l as [|x l IH]; intros a; simpl.
  - by rewrite Z.add_0_r.
  - unfold as_u64 at 2. rewrite wrap_unsigned_add_l. fold (as_u64 (a + x)).
    rewrite IH. f_equal. lia.
Qed.

Lemma sum_u64_sumZ l : sum_u64 l = as_u64 (sumZ l).
Proof. unfold sum_u64. exact (foldl_as_u64 l 0). Qed.

End SumZ.

Section Sorting.
Context {A : Type} (cmp : A → A → comparison).

Lemma insert_by_perm x l : insert_by cmp x l ≡ₚ x :: l.
Proof.
  induction l as [|y l IH]; simpl; [done|].
  destruct (is_gt (cmp x y)); [|done]. rewrite IH. apply perm_swap.
Qed.

Lemma sort_by_perm l : sort_by cmp l ≡ₚ l.
Proof. induction l as [|x l IH]; simpl; [done|]. by rewrite insert_by_perm, IH. Qed.

(** What a sort needs from its comparison. *)
Class TotalCmp : Prop := {
  cmp_trans_le x y z : cmp x y ≠ Gt → cmp y z ≠ Gt → cmp x z ≠ Gt;
  cmp_total x y : cmp x y = Gt → cmp y x ≠ Gt
}.

Definition le_cmp (x y : A) : Prop := cmp x y ≠ Gt.

Lemma is_gt_false c : is_gt c = false ↔ c ≠ Gt.
Proof. by destruct c. Qed.

Lemma insert_by_sorted `{!TotalCmp} x l :
  StronglySorted le_cmp l → StronglySorted le_cmp (insert_by cmp x l).
Proof.
  induction 1 as [|y l Hl IH Hy]; simpl; [repeat constructor|].
  destruct (is_gt (cmp x y)) eqn:E.
  - constructor; [done|]. rewrite insert_by_perm. constructor; [|done].
    apply cmp_total. by destruct (cmp x y).
  - apply is_gt_false in E. constructor; [by constructor|].
    constructor; [done|]. eapply Forall_impl; [|exact Hy].
    intros z Hz. by eapply cmp_trans_le.
Qed.

Lemma sort_by_sorted `{!TotalCmp} l : StronglySorted le_cmp (sort_by cmp l).
Proof. induction l; simpl; [constructor|by apply insert_by_sorted]. Qed.

End Sorting.
Arguments TotalCmp {A} cmp.

#[export] Instance key_cmp_total {A} (key : A → Z) : TotalCmp (key_cmp key).
Proof.
  unfold key_cmp. split.
  - intros x y z. rewrite !Z.compare_gt_iff. lia.
  - intros x y. rewrite !Z.compare_gt_iff. lia.
Qed.

Section Extrema.

Lemma max_index_from_spec l i bi bz pre :
  pre !! bi = Some bz → Forall (fun z => z ≤ bz) pre → length pre = i →
  ∃ z, (pre ++ l) !! max_index_from i (bi, bz) l = Some z ∧
       Forall (fun x => x ≤ z) (pre ++ l).
Proof.
  revert i bi bz pre. induction l as [|x l IH]; intros i bi bz pre Hb Hall Hi; simpl.
  - rewrite app_nil_r. eauto.
  - replace (pre ++ x :: l) with ((pre ++ [x]) ++ l) by by rewrite <- app_assoc.
    destruct (bz <=? x) eqn:E; apply IH.
    + subst i. rewrite lookup_app_r, Nat.sub_diag by lia. done.
    + apply Forall_app. split; [|repeat constructor; lia].
      eapply Forall_impl; [|exact Hall]. simpl. lia.
    + rewrite length_app. simpl. lia.
    + by apply lookup_app_l_Some.
    + apply Forall_app. split; [done|]. repeat constructor. lia.
    + rewrite length_app. simpl. lia.
Qed.

Lemma max_index_spec l i :
  max_index l = Some i → ∃ z, l !! i = Some z ∧ Forall (fun x => x ≤ z) l.
Proof.
  destruct l as [|x l]; simpl; intros [= <-].
  apply (max_index_from_spec l 1 0 x [x]); [done|repeat constructor; lia|done].
Qed.

Lemma min_index_from_spec l i bi bz pre :
  pre !! bi = Some bz → Forall (fun z => bz ≤ z) pre → length pre = i →
  ∃ z, (pre ++ l) !! min_index_from i (bi, bz) l = Some z ∧
       Forall (fun x => z ≤ x) (pre ++ l).
Proof.
  revert i bi bz pre. induction l as [|x l IH]; intros i bi bz pre Hb Hall Hi; simpl.
  - rewrite app_nil_r. eauto.
  - replace (pre ++ x :: l) with ((pre ++ [x]) ++ l) by by rewrite <- app_assoc.
    destruct (x <? bz) eqn:E; apply IH.
    + subst i. rewrite lookup_app_r, Nat.sub_diag by lia. done.
    + apply Forall_app. split; [|repeat constructor; lia].
      eapply Forall_impl; [|exact Hall]. simpl. lia.
    + rewrite length_app. simpl. lia.
    + by apply lookup_app_l_Some.
    + apply Forall_app. split; [done|]. repeat constructor. lia.
    + rewrite length_app. simpl. lia.
Qed.

Lemma min_index_spec l i :
  min_index l = Some i → ∃ z, l !! i = Some z ∧ Forall (fun x => z ≤ x) l.
Proof.
  destruct l as [|x l]; simpl; intros [= <-].
  apply (min_index_from_spec l 1 0 x [x]); [done|repeat constructor; lia|done].
Qed.

End Extrema.

Section Ranges.

Lemma elem_of_range a b z : z ∈ range a b ↔ a ≤ z < b.
Proof.
  unfold range. rewrite list_elem_of_fmap. setoid_rewrite elem_of_seq. split.
  - intros (n & -> & ?). lia.
  - intros. exists (Z.to_nat (z - a)). lia.
Qed.

Lemma elem_of_range_incl a b z : z ∈ range_incl a b ↔ a ≤ z ≤ b.
Proof. unfold range_incl. rewrite elem_of_range. lia. Qed.

Lemma range_NoDup a b : NoDup (range a b).
Proof. unfold range. apply NoDup_fmap_2; [intros ??; lia|apply NoDup_seq]. Qed.

Lemma range_snoc a b : a ≤ b → range a (b + 1) = range a b ++ [b].
Proof.
  intros. unfold range. replace (Z.to_nat (b + 1 - a)) with (S (Z.to_nat (b - a))) by lia.
  rewrite seq_S, map_app. simpl. do 2 f_equal. lia.
Qed.

Lemma range_split a b c : a ≤ b → b ≤ c → range a c = range a b ++ range b c.
Proof.
  intros Hab Hbc. replace c with (b + Z.of_nat (Z.to_nat (c - b))) by lia.
  induction (Z.to_nat (c - b)) as [|n IH].
  - unfold range at 3. by rewrite Z.add_0_r, Z.sub_diag, app_nil_r.
  - replace (b + Z.of_nat (S n)) with (b + Z.of_nat n + 1) by lia.
    rewrite !range_snoc by lia. by rewrite IH, app_assoc.
Qed.

Lemma range_cons a b : a < b → range a b = a :: range (a + 1) b.
Proof.
  intros H. rewrite (range_split a (a + 1) b) by lia. f_equal. unfold range.
  replace (a + 1 - a) with 1 by lia. simpl. by rewrite Z.add_0_r.
Qed.

Lemma range_empty a b : b ≤ a → range a b = [].
Proof. intros H. unfold range. by replace (Z.to_nat (b - a)) with 0%nat by lia. Qed.

Lemma range_length a b : length (range a b) = Z.to_nat (b - a).
Proof. unfold range. by rewrite length_map, length_seq. Qed.

End Ranges.

Section Filters.
Context {A : Type} (P : A → Prop) `{!∀ x, Decision (P x)}.

Lemma list_filter_all l : Forall P l → filter P l = l.
Proof. induction 1 as [|x l Hx _ IH]; [done|]. by rewrite filter_cons_True, IH. Qed.

Lemma list_filter_none l : Forall (fun x => ¬ P x) l → filter P l = [].
Proof. induction 1 as [|x l Hx _ IH]; [done|]. by rewrite filter_cons_False. Qed.

End Filters.

Section Bits.

Lemma lor_shiftl_add a n b : 0 ≤ n → 0 ≤ b < 2 ^ n → Z.lor (Z.shiftl a n) b = a * 2 ^ n + b.
Proof.
  intros Hn Hb. rewrite <- Z.shiftl_mul_pow2 by done.
  assert (Z.land (Z.shiftl a n) b = 0) as Hd.
  { apply Z.bits_inj'. intros i Hi. rewrite Z.land_spec, Z.bits_0.
    destruct (decide (i < n)) as [Hlt|Hge].
    - by rewrite Z.shiftl_spec_low.
    - rewrite <- (Z.mod_small b (2 ^ n)), Z.mod_pow2_bits_high by lia. by rewrite andb_false_r. }
  rewrite <- Z.lxor_lor by done. symmetry. by apply Z.add_nocarry_lxor.
Qed.

Lemma land_ones_mod a n : 0 ≤ n → Z.land a (2 ^ n - 1) = a mod 2 ^ n.
Proof. intros. rewrite <- Z.land_ones by done. by rewrite Z.ones_equiv, <- Z.sub_1_r. Qed.

End Bits.
