(* ===== verification/Float64.v ===== *)
(** * IEEE 754 binary64

    The [f64] type of the source on the Standard Library's executable
    specification of floating point ([SpecFloat], radix 2, precision 53,
    maximal exponent 1024): arithmetic rounds to nearest even, [floor], [ceil],
    [round] and the [as] casts are those of Rust's core library.  NaN payloads
    are not represented.  The second half shows that every integer of at most
    53 bits is represented exactly, which makes the rounding functions and the
    casts agree with integer arithmetic. *)

From stdpp Require Import base list numbers.
From Stdlib Require Import SpecFloat.
From S2P Require Import Prelude.

Abbreviation f64 := spec_float.

Definition f64_valid (x : f64) : bool := valid_binary 53 1024 x.

Definition f64_add : f64 → f64 → f64 := SFadd 53 1024.
Definition f64_sub : f64 → f64 → f64 := SFsub 53 1024.
Definition f64_mul : f64 → f64 → f64 := SFmul 53 1024.
Definition f64_div : f64 → f64 → f64 := SFdiv 53 1024.
Definition f64_neg : f64 → f64 := SFopp.
Definition f64_abs : f64 → f64 := SFabs.

Definition f64_lt (x y : f64) : bool := SFltb x y.
Definition f64_le (x y : f64) : bool := SFleb x y.
Definition f64_gt (x y : f64) : bool := SFltb y x.
Definition f64_ge (x y : f64) : bool := SFleb y x.
Definition f64_eq (x y : f64) : bool := SFeqb x y.

Definition is_nan (x : f64) : bool := match x with S754_nan => true | _ => false end.
Definition is_finite (x : f64) : bool :=
  match x with S754_zero _ | S754_finite _ _ _ => true | _ => false end.

(** No minus sign; NaN carries none. *)
Definition plus_signed (x : f64) : bool :=
  match x with
  | S754_zero s | S754_infinity s | S754_finite s _ _ => negb s
  | S754_nan => true
  end.

(** [z as f64] for an integer [z]. *)
Definition f64_of_Z (z : Z) : f64 := binary_normalize 53 1024 z 0 false.

(** A decimal literal [m / 10^k], correctly rounded for the literals used. *)
Definition f64_dec (m k : Z) : f64 := f64_div (f64_of_Z m) (f64_of_Z (10 ^ k)).

Definition f64_zero : f64 := S754_zero false.
Definition f64_one : f64 := f64_of_Z 1.
Definition f64_half : f64 := f64_div f64_one (f64_of_Z 2).
Definition f64_EPSILON : f64 := S754_finite false (Z.to_pos (2 ^ 52)) (-104).

(** [f64::max] and [f64::clamp]: NaN is ignored by [max], kept by [clamp]. *)
Definition f64_max (x y : f64) : f64 :=
  if is_nan x then y else if is_nan y then x else if f64_lt x y then y else x.
Definition f64_clamp (x lo hi : f64) : f64 :=
  if f64_lt x lo then lo else if f64_gt x hi then hi else x.

(** [f64::partial_cmp] and [f64::total_cmp]. *)
Definition f64_partial_cmp (x y : f64) : option comparison := SFcompare x y.
Definition f64_rank (x : f64) : Z * Z * Z :=
  match x with
  | S754_infinity true => (-2, 0, 0)
  | S754_finite true m e => (-1, - e, Z.neg m)
  | S754_zero true => (0, 0, 0)
  | S754_zero false => (1, 0, 0)
  | S754_finite false m e => (2, e, Z.pos m)
  | S754_infinity false => (3, 0, 0)
  | S754_nan => (4, 0, 0)
  end.
Definition f64_total_cmp (x y : f64) : comparison :=
  let '(a, b, c) := f64_rank x in
  let '(a', b', c') := f64_rank y in
  then_cmp (a ?= a') (then_cmp (b ?= b') (c ?= c')).

(** [iter().sum::<f64>()] and [iter().fold(0.0, |a, x| a + x)]. *)
Definition f64_sum (l : list f64) : f64 := foldl f64_add (S754_zero true) l.
Definition f64_fold_sum (l : list f64) : f64 := foldl f64_add f64_zero l.

(** The integer nearest to [± m * 2^e] in the three directions the source
    uses.  [roundZ] rounds halves away from zero, as [f64::round] does. *)
Definition signed (s : bool) (z : Z) : Z := if s then - z else z.
Definition truncZ (s : bool) (m : positive) (e : Z) : Z :=
  signed s (if 0 <=? e then Z.pos m * 2 ^ e else Z.pos m / 2 ^ (- e)).
Definition floorZ (s : bool) (m : positive) (e : Z) : Z :=
  if 0 <=? e then signed s (Z.pos m * 2 ^ e) else signed s (Z.pos m) / 2 ^ (- e).
Definition ceilZ (s : bool) (m : positive) (e : Z) : Z := - floorZ (negb s) m e.
Definition roundZ (s : bool) (m : positive) (e : Z) : Z :=
  signed s (if 0 <=? e then Z.pos m * 2 ^ e
            else (2 * Z.pos m + 2 ^ (- e)) / (2 * 2 ^ (- e))).

(** [f64::floor], [f64::ceil], [f64::round]: a float whose exponent is
    non-negative is already an integer; the sign of a zero result is kept. *)
Definition f64_to_integer (r : bool → positive → Z → Z) (x : f64) : f64 :=
  match x with
  | S754_finite s m e =>
      if 0 <=? e then x else binary_normalize 53 1024 (r s m e) 0 s
  | _ => x
  end.
Definition f64_floor : f64 → f64 := f64_to_integer floorZ.
Definition f64_ceil : f64 → f64 := f64_to_integer ceilZ.
Definition f64_round : f64 → f64 := f64_to_integer roundZ.

(** [x as uN] and [x as iN]: truncation toward zero, saturating, NaN to 0. *)
Definition f64_cast (lo hi : Z) (x : f64) : Z :=
  match x with
  | S754_nan | S754_zero _ => 0
  | S754_infinity s => if s then lo else hi
  | S754_finite s m e => Z.max lo (Z.min hi (truncZ s m e))
  end.
Definition f64_as_u64 : f64 → Z := f64_cast 0 U64_MAX.
Definition f64_as_u32 : f64 → Z := f64_cast 0 U32_MAX.
Definition f64_as_u16 : f64 → Z := f64_cast 0 U16_MAX.
Definition f64_as_i64 : f64 → Z := f64_cast I64_MIN I64_MAX.
(** [usize] is 64 bits wide. *)
Definition f64_as_usize : f64 → Z := f64_as_u64.

(** The exact integer value of a float that holds an integer. *)
Definition f64_intval (x : f64) : Z :=
  match x with S754_finite s m e => truncZ s m e | _ => 0 end.

(** ** Exactness *)

Section Digits.

Lemma digits2_pos_bounds m :
  2 ^ (Z.pos (digits2_pos m) - 1) ≤ Z.pos m < 2 ^ Z.pos (digits2_pos m).
Proof.
  induction m as [m IH|m IH|]; [| |simpl; lia]; simpl digits2_pos;
    rewrite Pos2Z.inj_succ; replace (Z.succ (Z.pos (digits2_pos m)) - 1)
      with (Z.succ (Z.pos (digits2_pos m) - 1)) by lia;
    rewrite !Z.pow_succ_r by lia; lia.
Qed.

Lemma digits2_pos_unique m d :
  0 < d → 2 ^ (d - 1) ≤ Z.pos m < 2 ^ d → Z.pos (digits2_pos m) = d.
Proof.
  intros Hd Hm. pose proof (digits2_pos_bounds m) as Hb.
  destruct (Z.lt_trichotomy (Z.pos (digits2_pos m)) d) as [Hlt|[|Hgt]]; [|done|].
  - assert (2 ^ Z.pos (digits2_pos m) ≤ 2 ^ (d - 1)) by (apply Z.pow_le_mono_r; lia). lia.
  - assert (2 ^ d ≤ 2 ^ (Z.pos (digits2_pos m) - 1)) by (apply Z.pow_le_mono_r; lia). lia.
Qed.

Lemma iter_xO m d : Z.pos (Pos.iter xO m d) = Z.pos m * 2 ^ Z.pos d.
Proof.
  induction d as [|d IH] using Pos.peano_ind; [simpl; lia|].
  rewrite Pos.iter_succ, Pos2Z.inj_xO, IH, Pos2Z.inj_succ, Z.pow_succ_r by lia. lia.
Qed.

Lemma digits_le_53 m : Z.pos m < 2 ^ 53 → Z.pos (digits2_pos m) ≤ 53.
Proof.
  intros Hm. pose proof (digits2_pos_bounds m) as [Hb _].
  destruct (Z_le_gt_dec (Z.pos (digits2_pos m)) 53) as [|Hgt]; [done|].
  assert (2 ^ 53 ≤ 2 ^ (Z.pos (digits2_pos m) - 1)) by (apply Z.pow_le_mono_r; lia). lia.
Qed.

End Digits.

Lemma binary_round_aux_exact s m e :
  Z.pos (digits2_pos m) = 53 → -1074 ≤ e ≤ 971 →
  binary_round_aux 53 1024 s (Z.pos m) e loc_Exact = S754_finite s m e.
Proof.
  intros Hd He. unfold binary_round_aux, shr_fexp. simpl Zdigits2.
  unfold fexp, emin. rewrite Hd.
  replace (Z.max (53 + e - 53) (3 - 1024 - 53) - e) with 0 by lia. simpl.
  rewrite Hd. replace (Z.max (53 + e - 53) (3 - 1024 - 53) - e) with 0 by lia. simpl.
  destruct (Z.leb_spec e (1024 - 53)); [done|lia].
Qed.

Lemma digits2_pos_shift m k :
  Z.pos (digits2_pos (Pos.iter xO m k)) = Z.pos (digits2_pos m) + Z.pos k.
Proof.
  apply digits2_pos_unique; [lia|]. rewrite iter_xO.
  pose proof (digits2_pos_bounds m) as [Hl Hu].
  replace (Z.pos (digits2_pos m) + Z.pos k - 1)
    with ((Z.pos (digits2_pos m) - 1) + Z.pos k) by lia.
  rewrite !Z.pow_add_r by lia. nia.
Qed.

(** An integer of at most 53 bits is represented exactly. *)
Lemma normalize_exact s m :
  Z.pos m < 2 ^ 53 →
  ∃ m' e', binary_round 53 1024 s m 0 = S754_finite s m' e' ∧ -53 ≤ e' ≤ 0 ∧
           Z.pos m' = Z.pos m * 2 ^ (- e') ∧ Z.pos (digits2_pos m') = 53.
Proof.
  intros Hm. pose proof (digits_le_53 m Hm) as Hd.
  unfold binary_round, shl_align, fexp, emin.
  replace (Z.max (Z.pos (digits2_pos m) + 0 - 53) (3 - 1024 - 53) - 0)
    with (Z.pos (digits2_pos m) - 53) by lia.
  destruct (Z.pos (digits2_pos m) - 53) as [|k|k] eqn:Ek; [|lia|].
  - rewrite binary_round_aux_exact by lia. exists m, 0. split; [done|]. lia.
  - replace (Z.max (Z.pos (digits2_pos m) + 0 - 53) (3 - 1024 - 53)) with (Z.neg k) by lia.
    pose proof (digits2_pos_shift m k) as Hs.
    rewrite binary_round_aux_exact by lia.
    exists (Pos.iter xO m k), (Z.neg k). split; [done|].
    rewrite iter_xO. split; [lia|]. split; [done|lia].
Qed.

(** [int_repr x z]: the float [x] holds exactly the integer [z]. *)
Inductive int_repr : f64 → Z → Prop :=
| int_repr_zero s : int_repr (S754_zero s) 0
| int_repr_small s m e z :
    Z.pos (digits2_pos m) = 53 → -53 ≤ e ≤ 0 → Z.pos m = z * 2 ^ (- e) →
    int_repr (S754_finite s m e) (signed s z)
| int_repr_big s m e :
    Z.pos (digits2_pos m) = 53 → 0 ≤ e ≤ 971 →
    int_repr (S754_finite s m e) (signed s (Z.pos m * 2 ^ e)).

Lemma digits_53_range m : Z.pos (digits2_pos m) = 53 → 2 ^ 52 ≤ Z.pos m < 2 ^ 53.
Proof. intros Hd. pose proof (digits2_pos_bounds m) as Hb. rewrite Hd in Hb. exact Hb. Qed.

Lemma normalize_int_repr s z :
  - 2 ^ 53 < z < 2 ^ 53 → int_repr (binary_normalize 53 1024 z 0 s) z.
Proof.
  intros Hz. destruct z as [|p|p]; simpl; [constructor| |].
  - destruct (normalize_exact false p) as (m & e & -> & He & Hm & Hd); [lia|].
    by apply (int_repr_small false m e (Z.pos p)).
  - destruct (normalize_exact true p) as (m & e & -> & He & Hm & Hd); [lia|].
    by apply (int_repr_small true m e (Z.pos p)).
Qed.

Lemma f64_of_Z_int_repr z : - 2 ^ 53 < z < 2 ^ 53 → int_repr (f64_of_Z z) z.
Proof. apply normalize_int_repr. Qed.

Lemma f64_cast_int_repr lo hi x z :
  int_repr x z → lo ≤ 0 ≤ hi → f64_cast lo hi x = Z.max lo (Z.min hi z).
Proof.
  intros Hx Hlo. destruct Hx as [s|s m e z Hd He Hm|s m e Hd He]; simpl; [lia| |].
  - unfold truncZ. do 3 f_equal. case_match eqn:E.
    + assert (e = 0) as -> by lia. simpl in *. lia.
    + rewrite Hm, Z.div_mul; [done|]. assert (0 < 2 ^ (- e)) by lia. lia.
  - unfold truncZ. assert ((0 <=? e) = true) as -> by lia. done.
Qed.

Lemma f64_cast_range lo hi x : lo ≤ 0 ≤ hi → lo ≤ f64_cast lo hi x ≤ hi.
Proof. intros. destruct x as [|[]| |]; simpl; lia. Qed.

(** The powers of two the source compares against. *)
Definition pow2_bound (s : bool) (k : Z) : f64 := S754_finite s (Z.to_pos (2 ^ 52)) (k - 52).

Lemma small_int_lt m e z :
  Z.pos (digits2_pos m) = 53 → -53 ≤ e ≤ 0 → Z.pos m = z * 2 ^ (- e) → 0 < z < 2 ^ 53.
Proof.
  intros Hd He Hm. apply digits_53_range in Hd. assert (0 < 2 ^ (- e)) by lia. nia.
Qed.

Lemma pow2_split m e k :
  Z.pos (digits2_pos m) = 53 → 0 ≤ e → 52 < k →
  (Z.pos m * 2 ^ e < 2 ^ k ↔ e < k - 52) ∧
  (Z.pos m * 2 ^ e ≤ 2 ^ k ↔ e < k - 52 ∨ (e = k - 52 ∧ Z.pos m = 2 ^ 52)).
Proof.
  intros Hd He Hk. apply digits_53_range in Hd. assert (0 < 2 ^ e) by lia.
  destruct (Z.lt_trichotomy e (k - 52)) as [Hlt|[Heq|Hgt]].
  - assert (Z.pos m * 2 ^ e < 2 ^ k); [|lia].
    apply Z.lt_le_trans with (2 ^ 53 * 2 ^ e); [nia|].
    rewrite <- Z.pow_add_r by lia. apply Z.pow_le_mono_r; lia.
  - assert (2 ^ k = 2 ^ 52 * 2 ^ e) as ->.
    { rewrite <- Z.pow_add_r by lia. f_equal. lia. }
    nia.
  - assert (2 ^ k < Z.pos m * 2 ^ e); [|lia].
    apply Z.lt_le_trans with (2 ^ 52 * 2 ^ e); [|nia].
    rewrite <- Z.pow_add_r by lia. apply Z.pow_lt_mono_r; lia.
Qed.

Lemma int_repr_lt_pow2 x z k :
  int_repr x z → 53 ≤ k → f64_lt x (pow2_bound false k) = (z <? 2 ^ k).
Proof.
  intros Hx Hk. assert (2 ^ 53 ≤ 2 ^ k) by (apply Z.pow_le_mono_r; lia).
  unfold f64_lt, SFltb, pow2_bound, SFcompare.
  assert (HB : Z.pos (Z.to_pos (2 ^ 52)) = 2 ^ 52) by reflexivity.
  generalize dependent (Z.to_pos (2 ^ 52)). intros B HB.
  destruct Hx as [s|s m e z Hd He Hm|s m e Hd He].
  - cbv beta iota delta [signed]. lia.
  - pose proof (small_int_lt m e z Hd He Hm).
    destruct s; cbv beta iota delta [signed].
    + lia.
    + rewrite (proj2 (Z.compare_lt_iff e (k - 52))) by lia. lia.
  - assert (0 < Z.pos m * 2 ^ e) by lia.
    destruct s; cbv beta iota delta [signed]; [lia|].
    pose proof (pow2_split m e k Hd) as [Hs _]; [lia|lia|].
    pose proof (digits_53_range m Hd).
    destruct (Z.compare_spec e (k - 52)) as [Heq|Hlt|Hgt]; [|lia|lia].
    fold (Pos.compare m B). destruct (Pos.compare_spec m B); lia.
Qed.

Lemma int_repr_ge_neg_pow2 x z k :
  int_repr x z → 53 ≤ k → f64_ge x (pow2_bound true k) = (- 2 ^ k <=? z).
Proof.
  intros Hx Hk. assert (2 ^ 53 ≤ 2 ^ k) by (apply Z.pow_le_mono_r; lia).
  unfold f64_ge, SFleb, pow2_bound, SFcompare.
  assert (HB : Z.pos (Z.to_pos (2 ^ 52)) = 2 ^ 52) by reflexivity.
  generalize dependent (Z.to_pos (2 ^ 52)). intros B HB.
  destruct Hx as [s|s m e z Hd He Hm|s m e Hd He].
  - cbv beta iota delta [signed]. lia.
  - pose proof (small_int_lt m e z Hd He Hm).
    destruct s; cbv beta iota delta [signed]; [|lia].
    rewrite (proj2 (Z.compare_gt_iff (k - 52) e)) by lia. lia.
  - assert (0 < Z.pos m * 2 ^ e) by lia.
    destruct s; cbv beta iota delta [signed]; [|lia].
    pose proof (pow2_split m e k Hd) as [_ Hs]; [lia|lia|].
    pose proof (digits_53_range m Hd).
    destruct (Z.compare_spec (k - 52) e) as [Heq|Hlt|Hgt]; [|lia|lia].
    fold (Pos.compare B m). destruct (Pos.compare_spec B m); simpl; lia.
Qed.

Lemma valid_digits s m e :
  f64_valid (S754_finite s m e) = true →
  Z.pos (digits2_pos m) ≤ 53 ∧ e ≤ 971 ∧ (0 ≤ e → Z.pos (digits2_pos m) = 53).
Proof.
  unfold f64_valid, valid_binary, bounded, canonical_mantissa, fexp, emin.
  rewrite andb_true_iff, Z.eqb_eq, Z.leb_le. lia.
Qed.

(** [r] rounds to an integer: it is exact on integers and moves a fraction by
    less than one. *)
Definition integer_rounding (r : bool → positive → Z → Z) : Prop :=
  ∀ s m e,
    (0 ≤ e → r s m e = signed s (Z.pos m * 2 ^ e)) ∧
    (e < 0 → Z.abs (r s m e * 2 ^ (- e) - signed s (Z.pos m)) < 2 ^ (- e)).

Lemma pow2_half e : e < 0 → 2 ^ (- e) = 2 * 2 ^ (- e - 1) ∧ 0 < 2 ^ (- e - 1).
Proof.
  intros He. split; [|lia].
  replace (- e) with (Z.succ (- e - 1)) at 1 by lia. by rewrite Z.pow_succ_r by lia.
Qed.

Lemma floorZ_rounding : integer_rounding floorZ.
Proof.
  intros s m e. unfold floorZ. split; intros He.
  - assert ((0 <=? e) = true) as -> by lia. done.
  - assert ((0 <=? e) = false) as -> by lia.
    destruct (pow2_half e He). pose proof (Z.mod_pos_bound (signed s (Z.pos m)) (2 ^ (- e))).
    pose proof (Z.div_mod (signed s (Z.pos m)) (2 ^ (- e))). lia.
Qed.

Lemma ceilZ_rounding : integer_rounding ceilZ.
Proof.
  intros s m e. unfold ceilZ. destruct (floorZ_rounding (negb s) m e) as [H1 H2].
  split; intros He; [rewrite (H1 He)|specialize (H2 He)]; destruct s; simpl in *; lia.
Qed.

Lemma roundZ_rounding : integer_rounding roundZ.
Proof.
  intros s m e. unfold roundZ. split; intros He.
  - assert ((0 <=? e) = true) as -> by lia. done.
  - assert ((0 <=? e) = false) as -> by lia.
    destruct (pow2_half e He) as [Hp Hq]. remember (2 ^ (- e)) as P eqn:HP.
    pose proof (Z.mod_pos_bound (2 * Z.pos m + P) (2 * P)).
    pose proof (Z.div_mod (2 * Z.pos m + P) (2 * P)). destruct s; simpl; lia.
Qed.

#[export] Hint Resolve floorZ_rounding ceilZ_rounding roundZ_rounding : machine.

Lemma rounding_bound r s m e :
  integer_rounding r → e < 0 → Z.pos m < 2 ^ 53 → - 2 ^ 53 < r s m e < 2 ^ 53.
Proof.
  intros Hr He Hm. destruct (Hr s m e) as [_ H]. specialize (H He).
  destruct (pow2_half e He) as [Hp Hq]. destruct s; simpl in *; nia.
Qed.

(** The rounding functions return the float of the rounded integer. *)
Lemma to_integer_int_repr r s m e :
  integer_rounding r → f64_valid (S754_finite s m e) = true →
  int_repr (f64_to_integer r (S754_finite s m e)) (r s m e).
Proof.
  intros Hr Hv. destruct (valid_digits s m e Hv) as (Hd & He & Hd'). simpl.
  case_match eqn:E.
  - destruct (Hr s m e) as [-> _]; [|lia]. apply int_repr_big; lia.
  - apply normalize_int_repr. apply rounding_bound; [done|lia|].
    pose proof (digits2_pos_bounds m) as [_ Hb].
    apply Z.lt_le_trans with (1 := Hb). apply Z.pow_le_mono_r; lia.
Qed.

(** ** Comparisons *)

Lemma SFcompare_swap x y :
  SFcompare y x = match SFcompare x y with Some c => Some (CompOpp c) | None => None end.
Proof.
  destruct x as [sx|sx| |sx mx ex], y as [sy|sy| |sy my ey]; simpl; try done;
    try (by destruct sx); try (by destruct sy); try (by destruct sx, sy).
  fold (Pos.compare my mx). fold (Pos.compare mx my).
  rewrite (Z.compare_antisym ex ey), (Pos.compare_antisym mx my).
  destruct sx, sy; try done; destruct (ex ?= ey); simpl; try done; by destruct (Pos.compare mx my).
Qed.

Lemma SFcompare_some x y : is_nan x = false → is_nan y = false → is_Some (SFcompare x y).
Proof. destruct x, y; simpl; intros; try discriminate; eauto. Qed.

Lemma f64_ge_negb_lt x y :
  is_nan x = false → is_nan y = false → f64_ge x y = negb (f64_lt x y).
Proof.
  intros Hx Hy. destruct (SFcompare_some x y Hx Hy) as [c Hc].
  unfold f64_ge, f64_lt, SFleb, SFltb. rewrite SFcompare_swap, Hc. by destruct c.
Qed.

Lemma int_repr_not_nan x z : int_repr x z → is_nan x = false.
Proof. by destruct 1. Qed.

Lemma int_repr_ge_pow2 x z k :
  int_repr x z → 53 ≤ k → f64_ge x (pow2_bound false k) = (2 ^ k <=? z).
Proof.
  intros Hx Hk. rewrite f64_ge_negb_lt; [|by eapply int_repr_not_nan|done].
  rewrite (int_repr_lt_pow2 x z k Hx Hk). lia.
Qed.

(** A float equal to one that holds an integer holds it too. *)
Lemma int_repr_eq x y z : f64_eq x y = true → int_repr y z → int_repr x z.
Proof.
  unfold f64_eq, SFeqb. intros He Hy. destruct Hy as [s|s m e z Hd He' Hm|s m e Hd He'].
  - destruct x as [sx|[]| |[] mx ex]; simpl in He; try done. apply int_repr_zero.
  - assert (x = S754_finite s m e) as ->; [|by apply int_repr_small].
    destruct x as [[]|[]| |[] mx ex], s; simpl in He; try done; fold (Pos.compare mx m) in He;
      destruct (Z.compare_spec ex e); try done; destruct (Pos.compare_spec mx m); try done; by subst.
  - assert (x = S754_finite s m e) as ->; [|by apply int_repr_big].
    destruct x as [[]|[]| |[] mx ex], s; simpl in He; try done; fold (Pos.compare mx m) in He;
      destruct (Z.compare_spec ex e); try done; destruct (Pos.compare_spec mx m); try done; by subst.
Qed.

(** The integer part of a float that is not above an integer is not above it. *)
Lemma cast_le_int x c :
  f64_valid x = true → f64_le f64_zero x = true → f64_le x (f64_of_Z c) = true → 0 ≤ c < 2 ^ 53 →
  f64_cast 0 U64_MAX x ≤ c.
Proof.
  intros Hv H0 Hle Hc. pose proof (f64_of_Z_int_repr c ltac:(lia)) as Hy.
  destruct x as [sx|[]| |[] m e]; try done; [simpl; lia|by destruct Hy as [[]|[]|[]]|].
  destruct (valid_digits _ _ _ Hv) as (Hd & _ & _).
  assert (Z.pos m < 2 ^ 53) as Hm.
  { pose proof (digits2_pos_bounds m) as [_ Hb]. apply Z.lt_le_trans with (1 := Hb). apply Z.pow_le_mono_r; lia. }
  assert (∃ m' e', e' ≤ 0 ∧ 2 ^ 52 ≤ Z.pos m' ∧ Z.pos m' = c * 2 ^ (- e') ∧ (e < e' ∨ e = e' ∧ Z.pos m ≤ Z.pos m'))
    as (m' & e' & He' & Hm' & Hcm & Hcase).
  { unfold f64_le, SFleb in Hle. destruct Hy as [s|s m' e' z Hd' He' Hm'|s m' e' Hd' He']; simpl in Hle; [done| |].
    - pose proof (small_int_lt m' e' z Hd' He' Hm'). pose proof (digits_53_range m' Hd').
      destruct s; simpl in Hc; [lia|]. exists m', e'. fold (Pos.compare m m') in Hle.
      destruct (Z.compare_spec e e'), (Pos.compare_spec m m'); simpl in *; try done; lia.
    - pose proof (digits_53_range m' Hd'). destruct s; simpl in Hc; [lia|]. fold (Pos.compare m m') in Hle.
      assert (e' = 0) as ->. { destruct (decide (e' = 0)); [done|]. assert (2 ^ 1 ≤ 2 ^ e') by (apply Z.pow_le_mono_r; lia). nia. }
      exists m', 0. destruct (Z.compare_spec e 0), (Pos.compare_spec m m'); simpl in *; try done; lia. }
  simpl. unfold truncZ. simpl signed. apply Z.max_lub; [lia|]. etrans; [apply Z.le_min_r|].
  destruct (Z.leb_spec 0 e).
  - assert (e = 0 ∧ e' = 0) as [-> ->] by lia. simpl in *. lia.
  - apply Z.div_le_upper_bound; [lia|]. destruct Hcase as [Hlt|[-> ?]]; [|lia].
    replace (2 ^ (- e)) with (2 ^ (e' - e) * 2 ^ (- e')) by (rewrite <- Z.pow_add_r by lia; f_equal; lia).
    assert (2 ^ 1 ≤ 2 ^ (e' - e)) by (apply Z.pow_le_mono_r; lia). nia.
Qed.

(** Rounding an integer gives that integer. *)
Lemma cast_round_int lo hi x z :
  f64_valid x = true → int_repr x z → lo ≤ 0 ≤ hi → f64_cast lo hi (f64_round x) = Z.max lo (Z.min hi z).
Proof.
  intros Hv Hx Hlo. assert (int_repr (f64_round x) z) as Hr; [|by apply f64_cast_int_repr].
  destruct Hx as [s|s m e z Hd He Hm|s m e Hd He]; [apply int_repr_zero|..];
    (replace (signed s _) with (roundZ s m e); [by apply to_integer_int_repr; auto with machine|]);
    destruct (roundZ_rounding s m e) as [H1 H2]; (destruct (Z.leb_spec 0 e); [rewrite H1 by lia; f_equal|specialize (H2 ltac:(lia))]).
  - assert (e = 0) as -> by lia. simpl in *. lia.
  - rewrite Hm in H2. assert (0 < 2 ^ (- e)) by lia. destruct s; simpl in *; nia.
  - lia.
Qed.
