(* ===== verification/FloatSigns.v ===== *)
(** * Signs of floating-point results

    Sums, products and quotients of floats without a minus sign have none, a
    quotient of two counts is at most one and taking it from one leaves no
    minus sign. *)

From stdpp Require Import base list numbers.
From Stdlib Require Import SpecFloat.
From S2P Require Import Prelude Float64.

Section Signs.

Lemma round_aux_plus m e l : plus_signed (binary_round_aux 53 1024 false m e l) = true.
Proof.
  unfold binary_round_aux. destruct (shr_fexp 53 1024 m e l) as [mrs e'].
  destruct (shr_fexp 53 1024 _ e' loc_Exact) as [mrs' e'']. destruct (shr_m mrs'); [done| |done]. by destruct (e'' <=? _).
Qed.

Lemma round_plus m e : plus_signed (binary_round 53 1024 false m e) = true.
Proof. unfold binary_round. destruct (shl_align _ _ _). apply round_aux_plus. Qed.

Lemma normalize_plus z e : 0 ≤ z → plus_signed (binary_normalize 53 1024 z e false) = true.
Proof. destruct z; [done|intros _; apply round_plus|lia]. Qed.

Lemma f64_of_Z_plus z : 0 ≤ z → plus_signed (f64_of_Z z) = true.
Proof. apply normalize_plus. Qed.

Lemma add_plus x y : plus_signed x = true → plus_signed y = true → plus_signed (f64_add x y) = true.
Proof.
  destruct x as [[]|[]| |[] mx ex], y as [[]|[]| |[] my ey]; try done. intros _ _. unfold f64_add, SFadd.
  apply normalize_plus. simpl. lia.
Qed.

Lemma mul_plus x y : plus_signed x = true → plus_signed y = true → plus_signed (f64_mul x y) = true.
Proof. destruct x as [[]|[]| |[] mx ex], y as [[]|[]| |[] my ey]; try done. intros _ _. apply round_aux_plus. Qed.

Lemma div_plus x y : plus_signed x = true → plus_signed y = true → plus_signed (f64_div x y) = true.
Proof.
  destruct x as [[]|[]| |[] mx ex], y as [[]|[]| |[] my ey]; try done. intros _ _. unfold f64_div, SFdiv.
  destruct (SFdiv_core_binary _ _ _ _ _ _) as [[mz ez] lz]. apply round_aux_plus.
Qed.

Lemma abs_plus x : plus_signed (f64_abs x) = true.
Proof. by destruct x. Qed.

Lemma gt_zero_plus x : f64_gt x f64_zero = true → plus_signed x = true.
Proof. by destruct x as [|[]| |[]]. Qed.

Lemma clamp_plus x hi : f64_gt x f64_zero = true → plus_signed hi = true → plus_signed (f64_clamp x f64_zero hi) = true.
Proof.
  intros Hx Hh. unfold f64_clamp. destruct (f64_lt x f64_zero); [done|]. destruct (f64_gt x hi); [done|by apply gt_zero_plus].
Qed.

Lemma round_int_plus x : plus_signed x = true → plus_signed (f64_round x) = true.
Proof.
  destruct x as [[]|[]| |[] m e]; try done. intros _. unfold f64_round, f64_to_integer. destruct (0 <=? e) eqn:E; [done|].
  apply normalize_plus. unfold roundZ. rewrite E. simpl. apply Z.div_pos; lia.
Qed.

Lemma sum_plus l : Forall (fun x => plus_signed x = true) l → ∀ acc, plus_signed acc = true → plus_signed (foldl f64_add acc l) = true.
Proof. induction 1 as [|x l Hx _ IH]; intros acc Ha; simpl; [done|]. apply IH. by apply add_plus. Qed.

(** ** A ratio of counts *)

(** What is still to be rounded is at most [2^n] ulps, exactly so only when
    nothing was cut off. *)
Definition below_pow2 (n : Z) (mrs : shr_record) : Prop :=
  0 ≤ shr_m mrs ∧ (shr_m mrs < 2 ^ n ∨ (shr_m mrs = 2 ^ n ∧ shr_r mrs = false ∧ shr_s mrs = false)).

Lemma shr_1_div mrs : 0 ≤ shr_m mrs →
  shr_m (shr_1 mrs) = shr_m mrs / 2 ∧ shr_r (shr_1 mrs) = Z.odd (shr_m mrs) ∧ shr_s (shr_1 mrs) = shr_r mrs || shr_s mrs.
Proof.
  destruct mrs as [m r s]. simpl. destruct m as [|[p|p|]|p]; intros H; try done; simpl; split_and!; try done; try lia.
  - rewrite Pos2Z.inj_xI. apply (Z.div_unique _ _ _ 1); lia.
  - rewrite Pos2Z.inj_xO. apply (Z.div_unique _ _ _ 0); lia.
Qed.

Lemma shr_1_below n mrs : 1 ≤ n → below_pow2 n mrs → below_pow2 (n - 1) (shr_1 mrs).
Proof.
  intros Hn [H0 H]. destruct (shr_1_div mrs H0) as (Hm & Hr & Hs). unfold below_pow2. rewrite Hm, Hr, Hs.
  assert (2 ^ n = 2 * 2 ^ (n - 1)) as Hp by (rewrite <- Z.pow_succ_r by lia; f_equal; lia).
  split; [apply Z.div_pos; lia|]. destruct H as [H|(H & -> & ->)].
  - left. apply Z.div_lt_upper_bound; lia.
  - right. rewrite H, Hp, (Z.mul_comm 2), Z.div_mul by lia. by rewrite Z.mul_comm, Z.odd_mul.
Qed.

Lemma iter_pos_nat {A} (f : A → A) p x : iter_pos f p x = Nat.iter (Pos.to_nat p) f x.
Proof.
  revert x. induction p as [p IH|p IH|]; intros x; cbn [iter_pos]; [| |done].
  - rewrite !IH, <- Nat.iter_add, Pos2Nat.inj_xI, <- Nat.iter_succ_r. f_equal. lia.
  - rewrite !IH, <- Nat.iter_add, Pos2Nat.inj_xO. f_equal. lia.
Qed.

Lemma shr_below n mrs e k : e = - n → k < n → 1 ≤ n → below_pow2 n mrs →
  let r := shr mrs e k in below_pow2 (- snd r) (fst r) ∧ snd r = e + Z.max 0 k.
Proof.
  intros -> Hk Hn H. destruct k as [|p|p]; simpl; [split; [|lia]|split; [|lia]|split; [|lia]]; try by rewrite Z.opp_involutive.
  rewrite iter_pos_nat. replace (- (- n + Z.pos p)) with (n - Z.of_nat (Pos.to_nat p)) by lia.
  assert (Z.of_nat (Pos.to_nat p) < n) as Hlt by lia. clear Hk. induction (Pos.to_nat p) as [|i IH]; simpl.
  - by rewrite Z.sub_0_r.
  - replace (n - Z.of_nat (S i)) with (n - Z.of_nat i - 1) by lia. apply shr_1_below; [lia|]. apply IH. lia.
Qed.

Lemma digits_le_pow2 m n : 0 ≤ m ≤ 2 ^ n → 0 ≤ n → Zdigits2 m ≤ n + 1.
Proof.
  intros Hm Hn. destruct m as [|p|p]; simpl; [lia| |lia]. pose proof (digits2_pos_bounds p) as [Hb _].
  destruct (Z_le_gt_dec (Z.pos (digits2_pos p)) (n + 1)) as [|Hgt]; [done|].
  assert (2 ^ (n + 1) ≤ 2 ^ (Z.pos (digits2_pos p) - 1)) by (apply Z.pow_le_mono_r; lia).
  rewrite Z.pow_add_r in * by lia. lia.
Qed.

Lemma record_of_loc_m m l : shr_m (shr_record_of_loc m l) = m.
Proof. by destruct l as [|[]]. Qed.

Lemma shr_fexp_below n m l : 1 ≤ n → below_pow2 n (shr_record_of_loc m l) →
  let r := shr_fexp 53 1024 m (- n) l in below_pow2 (- snd r) (fst r) ∧ snd r < 0.
Proof.
  intros Hn H. assert (0 ≤ m ≤ 2 ^ n) as Hm by (destruct H as [H0 H]; rewrite record_of_loc_m in *; lia).
  pose proof (digits_le_pow2 m n Hm ltac:(lia)) as Hd. unfold shr_fexp.
  edestruct (shr_below n (shr_record_of_loc m l) (- n) (fexp 53 1024 (Zdigits2 m + - n) - - n)) as [H1 H2];
    [done| |done|done|split; [exact H1|]].
  - unfold fexp, emin. lia.
  - rewrite H2. unfold fexp, emin. lia.
Qed.

Lemma round_below n mrs : 0 ≤ n → below_pow2 n mrs →
  below_pow2 n (shr_record_of_loc (round_nearest_even (shr_m mrs) (loc_of_shr_record mrs)) loc_Exact).
Proof.
  intros Hn [H0 H]. assert (0 < 2 ^ n) by lia. unfold below_pow2. simpl.
  destruct H as [H|(H & Hr & Hs)].
  - assert (0 ≤ round_nearest_even (shr_m mrs) (loc_of_shr_record mrs) ≤ shr_m mrs + 1) as Hr.
    { destruct mrs as [m [] []]; simpl in *; try lia. destruct (Z.even m); lia. }
    destruct (Z.lt_ge_cases (round_nearest_even (shr_m mrs) (loc_of_shr_record mrs)) (2 ^ n));
      (split; [lia|]); [by left|right; split; [lia|done]].
  - destruct mrs as [m r s]. simpl in *. subst. simpl. split; [lia|by right].
Qed.

(** A quotient that is at most one is rounded to at most one. *)
Definition at_most_one (x : f64) : Prop :=
  match x with
  | S754_zero s => s = false
  | S754_finite s m e => s = false ∧ e < 0 ∧ Z.pos m ≤ 2 ^ (- e)
  | S754_infinity _ => False
  | S754_nan => True
  end.

Lemma round_aux_at_most_one n m l : 1 ≤ n → below_pow2 n (shr_record_of_loc m l) →
  at_most_one (binary_round_aux 53 1024 false m (- n) l).
Proof.
  intros Hn H. unfold binary_round_aux. destruct (shr_fexp_below n m l Hn H) as [H1 He1].
  destruct (shr_fexp 53 1024 m (- n) l) as [mrs e]. simpl in *.
  pose proof (round_below (- e) mrs ltac:(lia) H1) as H2.
  destruct (shr_fexp_below (- e) _ loc_Exact ltac:(lia) H2) as [H3 He2]. rewrite Z.opp_involutive in *.
  destruct (shr_fexp 53 1024 _ e loc_Exact) as [mrs' e']. simpl in *. destruct H3 as [H0 H3].
  destruct (shr_m mrs') as [|p|p]; simpl in *; [done| |lia].
  destruct (Z.leb_spec e' (1024 - 53)); simpl; [|lia]. split_and!; [done|done|lia].
Qed.

Lemma div_counts_at_most_one a b : 0 ≤ a ≤ b → 0 < b < 2 ^ 53 → at_most_one (f64_div (f64_of_Z a) (f64_of_Z b)).
Proof.
  intros Ha Hb. unfold f64_of_Z. destruct b as [|b|b]; [lia| |lia].
  destruct (normalize_exact false b) as (m2 & e2 & E2 & He2 & Hm2 & Hd2); [lia|]. simpl binary_normalize at 2. rewrite E2.
  destruct a as [|a|a]; [done| |lia].
  destruct (normalize_exact false a) as (m1 & e1 & E1 & He1 & Hm1 & Hd1); [lia|]. simpl binary_normalize. rewrite E1.
  pose proof (digits_53_range _ Hd1). pose proof (digits_53_range _ Hd2).
  assert (e1 ≤ e2) as Hle.
  { destruct (Z_le_gt_dec e1 e2) as [|Hgt]; [done|]. exfalso.
    assert (2 ^ (- e2) = 2 ^ (- e1) * 2 ^ (e1 - e2)) as Hp by (rewrite <- Z.pow_add_r by lia; f_equal; lia).
    assert (2 ^ 1 ≤ 2 ^ (e1 - e2)) by (apply Z.pow_le_mono_r; lia). nia. }
  assert (2 ^ (- e1) = 2 ^ (- e2) * 2 ^ (e2 - e1)) as Hp by (rewrite <- Z.pow_add_r by lia; f_equal; lia).
  assert (Z.pos m1 ≤ Z.pos m2 * 2 ^ (e2 - e1)) as Hm by (rewrite Hm1, Hm2, Hp; assert (0 < 2 ^ (- e2)) by lia; assert (0 < 2 ^ (e2 - e1)) by lia; nia).
  unfold f64_div, SFdiv, SFdiv_core_binary, fexp, emin. simpl Zdigits2. rewrite Hd1, Hd2.
  replace (Z.min (Z.max (53 + e1 - (53 + e2) - 53) (3 - 1024 - 53)) (e1 - e2)) with (- (53 + (e2 - e1))) by lia.
  replace (e1 - e2 - - (53 + (e2 - e1))) with 53 by lia. rewrite Z.shiftl_mul_pow2 by lia.
  pose proof (Z_div_mod (Z.pos m1 * 2 ^ 53) (Z.pos m2) ltac:(lia)) as Hdm.
  destruct (Z.div_eucl (Z.pos m1 * 2 ^ 53) (Z.pos m2)) as [q r]. destruct Hdm as [Hdm Hr].
  simpl xorb. apply round_aux_at_most_one; [lia|]. unfold below_pow2. rewrite record_of_loc_m.
  assert (2 ^ (53 + (e2 - e1)) = 2 ^ 53 * 2 ^ (e2 - e1)) as Hpp by (rewrite Z.pow_add_r by lia; done).
  assert (Z.pos m2 * q + r ≤ Z.pos m2 * 2 ^ (53 + (e2 - e1))) by (rewrite Hpp; nia).
  split; [nia|]. destruct (Z.lt_ge_cases q (2 ^ (53 + (e2 - e1)))) as [|Hge]; [by left|right].
  assert (q = 2 ^ (53 + (e2 - e1)) ∧ r = 0) as [-> ->] by nia. split; [done|].
  unfold new_location, new_location_even, new_location_odd. by destruct (Z.even _).
Qed.

Lemma shl_align_val m e e' : e' ≤ e → Z.pos (fst (shl_align m e e')) = Z.pos m * 2 ^ (e - e').
Proof.
  intros He. unfold shl_align. destruct (e' - e) as [|p|p] eqn:E; simpl; [|lia|].
  - replace (e - e') with 0 by lia. lia.
  - rewrite iter_xO. do 2 f_equal. lia.
Qed.

Lemma one_minus_plus x : at_most_one x → plus_signed (f64_sub f64_one x) = true.
Proof.
  change f64_one with (S754_finite false (2 ^ 52) (-52)). destruct x as [s|s| |s m e]; simpl; intros H; [done|done|done|].
  destruct H as (-> & He & Hm). unfold f64_sub, SFsub. apply normalize_plus.
  unfold cond_Zopp. rewrite !shl_align_val by lia. rewrite Pos2Z.inj_pow.
  remember (Z.min (-52) e) as ez eqn:Hz.
  rewrite <- Z.pow_add_r by lia. replace (52 + (-52 - ez)) with (- e + (e - ez)) by lia. rewrite Z.pow_add_r by lia.
  assert (0 < 2 ^ (e - ez)) by lia. nia.
Qed.

Lemma one_minus_ratio_plus a b : 0 ≤ a ≤ b → 0 < b < 2 ^ 53 →
  plus_signed (f64_sub f64_one (f64_div (f64_of_Z a) (f64_of_Z b))) = true.
Proof. intros. by apply one_minus_plus, div_counts_at_most_one. Qed.

End Signs.
