(* ===== verification/SafeMath.v ===== *)
(** * Satoshi conversion and basis points (src/lib/math/safe_math.rs) *)

From stdpp Require Import base list numbers.
From Stdlib Require Import SpecFloat.
From S2P Require Import Prelude Float64.

Inductive SatoshiError : Type :=
| NonFinite (v : f64)
| Negative (v : f64)
| Overflow (v : f64).

Inductive Rounding : Type := Up | Down | Nearest.

Definition U64_MAX_F64_BOUND : f64 := pow2_bound false 64.
Definition I64_MAX_F64_BOUND : f64 := pow2_bound false 63.
Definition I64_MIN_F64_BOUND : f64 := pow2_bound true 63.

Definition to_sats (value : f64) (mode : Rounding) : result SatoshiError Z :=
  if negb (is_finite value) then Err (NonFinite value) else
  if f64_lt value f64_zero then Err (Negative value) else
  let rounded := match mode with
                 | Up => f64_ceil value
                 | Down => f64_floor value
                 | Nearest => f64_round value
                 end in
  if f64_ge rounded U64_MAX_F64_BOUND then Err (Overflow value) else
  Ok (f64_as_u64 rounded).

Definition to_sats_signed (value : f64) (mode : Rounding) : result SatoshiError Z :=
  if negb (is_finite value) then Err (NonFinite value) else
  let rounded := match mode with
                 | Up => if f64_ge value f64_zero then f64_ceil value else f64_floor value
                 | Down => if f64_ge value f64_zero then f64_floor value else f64_ceil value
                 | Nearest => f64_round value
                 end in
  if negb (f64_ge rounded I64_MIN_F64_BOUND && f64_lt rounded I64_MAX_F64_BOUND)
  then Err (Overflow value) else
  Ok (f64_as_i64 rounded).

(** [NaN] sorts first and equal to itself. *)
Definition safe_cmp_f64 (a b : f64) : comparison :=
  match is_nan a, is_nan b with
  | true, true => Eq
  | true, false => Lt
  | false, true => Gt
  | false, false => default Eq (f64_partial_cmp a b)
  end.

(** [10f64.powi(d)]; exact for every [d] the source passes (6, 8, 10). *)
Definition pow10 (decimals : Z) : f64 := f64_of_Z (10 ^ decimals).

Definition round_to_precision (value : f64) (decimals : Z) : f64 :=
  if negb (is_finite value) then value else
  let multiplier := pow10 decimals in
  f64_div (f64_round (f64_mul value multiplier)) multiplier.

Module BasisPoints.

Record t : Type := { raw : Z }.

Definition ZERO : t := {| raw := 0 |}.
Definition MAX : Z := 10000.
Definition ONE_HUNDRED_PERCENT : t := {| raw := 10000 |}.

Definition new (value : Z) : result SatoshiError t :=
  if MAX <? value then Err (Overflow (f64_of_Z value)) else Ok {| raw := value |}.

Definition from_f64 (rate : f64) : result SatoshiError t :=
  if negb (is_finite rate) then Err (NonFinite rate) else
  if negb (f64_ge rate f64_zero && f64_le rate f64_one) then Err (Overflow rate) else
  new (f64_as_u32 (f64_round (f64_mul rate (f64_of_Z 10000)))).

(** Floor division: for payouts. *)
Definition apply_to_u64 (bp : t) (amount : Z) : Z :=
  as_u64 (as_u128 (amount * raw bp) / 10000).

(** Ceiling division: for fees. *)
Definition apply_to_u64_ceil (bp : t) (amount : Z) : Z :=
  let numerator := as_u128 (amount * raw bp) in
  as_u64 (let d := numerator / 10000 in
          if 0 <? numerator mod 10000 then d + 1 else d).

(** Signed: division truncates toward zero. *)
Definition apply_to_i64 (bp : t) (amount : Z) : Z :=
  as_i64 (Z.quot (as_i128 (amount * raw bp)) 10000).

Definition checked_apply_to_u64_as_i64 (bp : t) (amount : Z) : option Z :=
  let r := as_u128 (amount * raw bp) / 10000 in
  if I64_MAX <? r then None else Some (as_i64 r).

Definition from_ratio (numerator denominator : Z) : option t :=
  if denominator =? 0 then None else
  let r := as_u128 (numerator * 10000) / denominator in
  if 10000 <? r then None else Some {| raw := as_u32 r |}.

Definition value (bp : t) : Z := raw bp.

Definition to_f64 (bp : t) : f64 := f64_div (f64_of_Z (raw bp)) (f64_of_Z 10000).

(** The range the constructors establish. *)
Definition wf (bp : t) : Prop := 0 ≤ raw bp ≤ MAX.

End BasisPoints.

(** ** Conversion *)

(** The exact integer a mode asks for. *)
Definition spec_round (mode : Rounding) (s : bool) (m : positive) (e : Z) : Z :=
  match mode with Up => ceilZ s m e | Down => floorZ s m e | Nearest => roundZ s m e end.

Lemma spec_round_nonneg mode m e : 0 ≤ spec_round mode false m e.
Proof.
  assert (0 < 2 ^ (- e) ∨ 0 ≤ e) as [Hp|He] by lia; cycle 1.
  - assert (0 < 2 ^ e) by lia.
    destruct mode; simpl; unfold ceilZ, floorZ, roundZ;
      assert ((0 <=? e) = true) as -> by lia; simpl; lia.
  - destruct mode; simpl; unfold ceilZ, floorZ, roundZ; case_match; simpl;
      try (assert (0 < 2 ^ e) by lia; lia).
    + assert (- Z.pos m / 2 ^ (- e) ≤ 0); [|lia].
      apply Z.div_le_upper_bound; lia.
    + apply Z.div_pos; lia.
    + apply Z.div_pos; lia.
Qed.

Definition rounded_by (mode : Rounding) (x : f64) : f64 :=
  match mode with Up => f64_ceil x | Down => f64_floor x | Nearest => f64_round x end.

Definition spec_round_f64 (mode : Rounding) (x : f64) : Z :=
  match x with S754_finite s m e => spec_round mode s m e | _ => 0 end.

Lemma rounded_int_repr mode x :
  is_finite x = true → f64_valid x = true →
  int_repr (rounded_by mode x) (spec_round_f64 mode x).
Proof.
  intros Hf Hv. destruct x as [s|s| |s m e]; try discriminate Hf.
  - destruct mode; constructor.
  - destruct mode; apply to_integer_int_repr; auto with machine.
Qed.

(** [rounds_to mode m e n]: [n] is the real number [m * 2^e] rounded in the
    direction of [mode] (halves go up), stated without division. *)
Definition rounds_to (mode : Rounding) (m : positive) (e n : Z) : Prop :=
  let num := Z.pos m * 2 ^ Z.max e 0 in
  let den := 2 ^ Z.max (- e) 0 in
  match mode with
  | Down => n * den ≤ num < (n + 1) * den
  | Up => (n - 1) * den < num ≤ n * den
  | Nearest => 2 * num - den < 2 * n * den ≤ 2 * num + den
  end.

Lemma spec_round_rounds_to mode m e : rounds_to mode m e (spec_round mode false m e).
Proof.
  unfold rounds_to. destruct (Z_le_gt_dec 0 e) as [He|He].
  - replace (Z.max e 0) with e by lia. replace (Z.max (- e) 0) with 0 by lia.
    destruct mode; simpl; unfold ceilZ, floorZ, roundZ;
      assert ((0 <=? e) = true) as -> by lia; simpl; lia.
  - replace (Z.max e 0) with 0 by lia. replace (Z.max (- e) 0) with (- e) by lia.
    assert (0 < 2 ^ (- e)) as HP by lia. remember (2 ^ (- e)) as P eqn:EP.
    destruct mode; simpl; unfold ceilZ, floorZ, roundZ;
      assert ((0 <=? e) = false) as -> by lia; simpl; rewrite <- ?EP;
      Z.to_euclidean_division_equations; nia.
Qed.

Lemma rounds_to_unique mode m e n k : rounds_to mode m e n → rounds_to mode m e k → n = k.
Proof.
  unfold rounds_to. assert (0 < 2 ^ Z.max (- e) 0) as HP by lia.
  remember (2 ^ Z.max (- e) 0) as P eqn:EP. remember (Z.pos m * 2 ^ Z.max e 0) as N eqn:EN.
  destruct mode; intros H1 H2; nia.
Qed.

(** [to_sats] on every branch, with the rounding done on integers. *)
Lemma to_sats_eq x mode :
  f64_valid x = true →
  to_sats x mode =
    if negb (is_finite x) then Err (NonFinite x) else
    if f64_lt x f64_zero then Err (Negative x) else
    if spec_round_f64 mode x <=? U64_MAX then Ok (spec_round_f64 mode x) else Err (Overflow x).
Proof.
  intros Hv. unfold to_sats.
  destruct (is_finite x) eqn:Hf; simpl; [|done].
  destruct (f64_lt x f64_zero) eqn:Hlt; [done|].
  pose proof (rounded_int_repr mode x Hf Hv) as Hr.
  assert (0 ≤ spec_round_f64 mode x) as H0.
  { destruct x as [| | |[] m e]; simpl; try lia; [discriminate Hlt|apply spec_round_nonneg]. }
  change (match mode with Up => _ | _ => _ end) with (rounded_by mode x).
  unfold U64_MAX_F64_BOUND. rewrite (int_repr_ge_pow2 _ _ 64 Hr) by lia.
  replace (2 ^ 64 <=? spec_round_f64 mode x)
    with (negb (spec_round_f64 mode x <=? U64_MAX)) by lia.
  destruct (spec_round_f64 mode x <=? U64_MAX) eqn:E; simpl; [|done].
  f_equal. unfold f64_as_u64. rewrite (f64_cast_int_repr _ _ _ _ Hr); lia.
Qed.

Lemma to_sats_range x mode n : to_sats x mode = Ok n → is_u64 n.
Proof.
  unfold to_sats, is_u64. repeat case_match; intros [= <-]; apply f64_cast_range; lia.
Qed.

Lemma to_sats_signed_range x mode n : to_sats_signed x mode = Ok n → is_i64 n.
Proof.
  unfold to_sats_signed, is_i64.
  destruct (negb (is_finite x)); [discriminate|]. intros H. case_match; [discriminate|].
  injection H as <-. apply f64_cast_range. lia.
Qed.

(** [to_sats] succeeds on a non-negative finite [f64] exactly when the real
    value, rounded in the direction the mode names, fits in a [u64], and then
    returns that integer. *)
Theorem to_sats_correct mode m e n :
  f64_valid (S754_finite false m e) = true →
  to_sats (S754_finite false m e) mode = Ok n ↔ rounds_to mode m e n ∧ n ≤ U64_MAX.
Proof.
  intros Hv. rewrite to_sats_eq by done. simpl.
  change (f64_lt (S754_finite false m e) f64_zero) with false. cbv iota.
  pose proof (spec_round_rounds_to mode m e) as Hr.
  destruct (spec_round mode false m e <=? U64_MAX) eqn:E; split.
  - intros [= <-]. split; [done|lia].
  - intros [Hn _]. f_equal. by eapply rounds_to_unique.
  - discriminate.
  - intros [Hn Hle]. rewrite (rounds_to_unique _ _ _ _ _ Hn Hr) in Hle. lia.
Qed.

(** [123.5] is [247 * 2^-1]. *)
Lemma to_sats_correct_witness :
  to_sats (f64_div (f64_of_Z 247) (f64_of_Z 2)) Nearest = Ok 124
  ∧ rounds_to Nearest (Z.to_pos (247 * 2 ^ 45)) (-46) 124.
Proof.
  split; [vm_compute; reflexivity|].
  apply (to_sats_correct Nearest (Z.to_pos (247 * 2 ^ 45)) (-46) 124);
    vm_compute; reflexivity.
Defined.

(** ** Basis points *)

Section BasisPointFacts.
Import BasisPoints.

Lemma bp_product_u128 bp a : wf bp → is_u64 a → as_u128 (a * raw bp) = a * raw bp.
Proof.
  unfold wf, MAX, is_u64, as_u128. intros. apply wrap_unsigned_small.
  split; [nia|]. apply Z.le_lt_trans with (U64_MAX * 10000); [nia|done].
Qed.

Lemma bp_apply_floor bp a : wf bp → is_u64 a → apply_to_u64 bp a = a * raw bp / 10000.
Proof.
  intros Hb Ha. unfold apply_to_u64. rewrite bp_product_u128 by done.
  unfold wf, MAX, is_u64 in *. apply as_u64_small. unfold is_u64.
  split; [apply Z.div_pos; nia|]. apply Z.div_le_upper_bound; nia.
Qed.

Lemma bp_apply_ceil bp a :
  wf bp → is_u64 a → apply_to_u64_ceil bp a = (a * raw bp + 9999) / 10000.
Proof.
  intros Hb Ha. unfold apply_to_u64_ceil. rewrite bp_product_u128 by done.
  unfold wf, MAX, is_u64 in *. rewrite as_u64_small; unfold is_u64;
    destruct (0 <? _) eqn:E; Z.to_euclidean_division_equations; nia.
Qed.

End BasisPointFacts.

(** Splitting an amount with complementary rates never creates or loses a
    satoshi: the share rounded up and the complementary share rounded down add
    up to the amount, and neither computation overflows. *)
Theorem basis_points_split bp amount :
  BasisPoints.wf bp → is_u64 amount →
  BasisPoints.apply_to_u64_ceil bp amount
    + BasisPoints.apply_to_u64 {| BasisPoints.raw := 10000 - BasisPoints.raw bp |} amount
  = amount
  ∧ BasisPoints.apply_to_u64 bp amount ≤ BasisPoints.apply_to_u64_ceil bp amount ≤ amount.
Proof.
  intros Hb Ha.
  assert (BasisPoints.wf {| BasisPoints.raw := 10000 - BasisPoints.raw bp |}) as Hb'
    by (unfold BasisPoints.wf, BasisPoints.MAX in *; simpl; lia).
  rewrite !bp_apply_ceil, !bp_apply_floor by done. simpl.
  unfold BasisPoints.wf, BasisPoints.MAX, is_u64 in *.
  Z.to_euclidean_division_equations. nia.
Qed.

Lemma basis_points_split_witness :
  BasisPoints.apply_to_u64_ceil {| BasisPoints.raw := 333 |} 1001
    + BasisPoints.apply_to_u64 {| BasisPoints.raw := 9667 |} 1001 = 1001.
Proof.
  apply (basis_points_split {| BasisPoints.raw := 333 |} 1001);
    unfold BasisPoints.wf, BasisPoints.MAX, is_u64; simpl; lia.
Defined.

(** The 10001 rates, checked one by one. *)
Definition bp_roundtrip_ok (r : Z) : bool :=
  match BasisPoints.from_f64 (BasisPoints.to_f64 {| BasisPoints.raw := r |}) with
  | Ok bp => BasisPoints.raw bp =? r
  | Err _ => false
  end.

Lemma bp_roundtrip_all : forallb bp_roundtrip_ok (range 0 10001) = true.
Proof. vm_compute. reflexivity. Qed.

(** Every rate survives the trip through its [f64] form: reading back
    [to_f64] with [from_f64] yields the same number of basis points. *)
Theorem basis_points_f64_roundtrip bp :
  BasisPoints.wf bp → BasisPoints.from_f64 (BasisPoints.to_f64 bp) = Ok bp.
Proof.
  destruct bp as [r]. unfold BasisPoints.wf, BasisPoints.MAX. simpl. intros Hr.
  pose proof bp_roundtrip_all as H. rewrite forallb_forall in H.
  specialize (H r). rewrite <- list_elem_of_In, elem_of_range in H.
  specialize (H ltac:(lia)). unfold bp_roundtrip_ok in H.
  destruct (BasisPoints.from_f64 _) as [[r']|]; [|done].
  simpl in H. apply Z.eqb_eq in H. by subst.
Qed.

Lemma basis_points_f64_roundtrip_witness :
  BasisPoints.from_f64 (BasisPoints.to_f64 {| BasisPoints.raw := 2500 |})
  = Ok {| BasisPoints.raw := 2500 |}.
Proof. apply basis_points_f64_roundtrip. unfold BasisPoints.wf, BasisPoints.MAX. simpl. lia. Defined.
