(* ===== verification/Allocation.v ===== *)
(** * Proportional allocation (src/lib/math/allocation.rs)

    A pool is divided among weighted participants: phase 1 rounds each share
    to the nearest satoshi, phase 2 hands the remainder to the largest share or
    takes the excess from the smallest ones.  The theorems show that phase 2
    restores the pool exactly. *)

From stdpp Require Import base list sets numbers sorting.
From Stdlib Require Import SpecFloat.
From S2P Require Import Prelude Float64 SafeMath.

Record AllocationResult (K : Type) : Type := {
  allocations : list (K * Z);
  total_allocated : Z
}.
Arguments allocations {K} _.
Arguments total_allocated {K} _.

(** The variables of the phase-1 loop. *)
Record Phase1 (K : Type) : Type := {
  p1_allocations : list (K * Z);
  p1_total : Z;
  p1_fallback : option (K * f64)
}.
Arguments p1_allocations {K} _.
Arguments p1_total {K} _.
Arguments p1_fallback {K} _.
Arguments Build_Phase1 {K} _ _ _.
Arguments Build_AllocationResult {K} _ _.

Section Definitions.
Context {K : Type}.

Definition phase1_init : Phase1 K := Build_Phase1 [] 0 None.

(** The participant with the largest weight so far; the first one on ties. *)
Definition update_fallback (fallback : option (K * f64)) (key : K) (weight : f64)
  : option (K * f64) :=
  match fallback with
  | Some (k, best) => if f64_ge best weight then Some (k, best) else Some (key, weight)
  | None => Some (key, weight)
  end.

Definition phase1_step_u64 (total_weight : f64) (total_pool : Z)
  (st : Phase1 K) (p : K * f64) : result SatoshiError (Phase1 K) :=
  let '(key, weight) := p in
  if f64_lt weight f64_EPSILON then Ok st else
  let fallback := update_fallback (p1_fallback st) key weight in
  let proportion := f64_div weight total_weight in
  let allocation_f64 := f64_mul proportion (f64_of_Z total_pool) in
  allocation_sats ← to_sats allocation_f64 Nearest;
  if 0 <? allocation_sats
  then Ok (Build_Phase1 (p1_allocations st ++ [(key, allocation_sats)])
                        (as_u64 (p1_total st + allocation_sats)) fallback)
  else Ok (Build_Phase1 (p1_allocations st) (p1_total st) fallback).

(** The loop that takes the excess from the smallest allocations. *)
Fixpoint take_excess (remaining : Z) (l : list (K * Z)) : list (K * Z) * Z :=
  match l with
  | [] => ([], remaining)
  | (k, amt) :: l =>
      if remaining =? 0 then ((k, amt) :: l, remaining) else
      let take := Z.min amt remaining in
      let '(l', r) := take_excess (remaining - take) l in
      ((k, amt - take) :: l', r)
  end.

Definition phase2_u64 (total_pool : Z) (st : Phase1 K)
  : result SatoshiError (list (K * Z) * Z) :=
  let allocs := p1_allocations st in
  match p1_total st ?= total_pool with
  | Lt =>
      let remainder := total_pool - p1_total st in
      match max_index (map snd allocs) with
      | Some largest_idx =>
          Ok (alter (fun '(k, a) => (k, as_u64 (a + remainder))) largest_idx allocs,
              as_u64 (p1_total st + remainder))
      | None =>
          '(key, _) ← ok_or (p1_fallback st) (Overflow (f64_of_Z remainder));
          Ok (allocs ++ [(key, remainder)], as_u64 (p1_total st + remainder))
      end
  | Gt =>
      let excess := p1_total st - total_pool in
      let '(taken, remaining) := take_excess excess (sort_by_key snd allocs) in
      if negb (remaining =? 0) then Err (Overflow (f64_of_Z remaining)) else
      Ok (taken, sum_u64 (map snd taken))
  | Eq => Ok (allocs, p1_total st)
  end.

Definition allocate_proportionally_u64 (participants : list (K * f64)) (total_pool : Z)
  : result SatoshiError (AllocationResult K) :=
  if (match participants with [] => true | _ => false end) || (total_pool =? 0)
  then Ok (Build_AllocationResult [] 0) else
  let total_weight := f64_sum (map snd participants) in
  if f64_le total_weight f64_zero then Ok (Build_AllocationResult [] 0) else
  st ← try_fold (phase1_step_u64 total_weight total_pool) phase1_init participants;
  '(allocs, total) ← phase2_u64 total_pool st;
  if negb (total =? total_pool) then Err (Overflow (f64_of_Z total_pool)) else
  Ok (Build_AllocationResult allocs total).

(** The signed variant used for reputation deltas. *)
Definition phase1_step_i64 (total_weight : f64) (total_pool : Z)
  (st : Phase1 K) (p : K * f64) : result SatoshiError (Phase1 K) :=
  let '(key, weight) := p in
  if f64_lt (f64_abs weight) f64_EPSILON then Ok st else
  let fallback := update_fallback (p1_fallback st) key (f64_abs weight) in
  let proportion := f64_div (f64_abs weight) total_weight in
  let allocation_f64 := f64_mul proportion (f64_of_Z total_pool) in
  allocation ← to_sats_signed allocation_f64 Nearest;
  if negb (allocation =? 0)
  then Ok (Build_Phase1 (p1_allocations st ++ [(key, allocation)])
                        (as_i64 (p1_total st + allocation)) fallback)
  else Ok (Build_Phase1 (p1_allocations st) (p1_total st) fallback).

(** [iter().sum::<i64>()]. *)
Definition sum_i64 (l : list Z) : Z := foldl (fun a b => as_i64 (a + b)) 0 l.

Definition phase2_i64 (total_pool : Z) (st : Phase1 K)
  : result SatoshiError (list (K * Z) * Z) :=
  let allocs := p1_allocations st in
  let diff := as_i64 (total_pool - p1_total st) in
  if diff =? 0 then Ok (allocs, p1_total st) else
  match allocs with
  | [] =>
      '(key, _) ← ok_or (p1_fallback st) (Overflow (f64_of_Z diff));
      Ok ([(key, diff)], diff)
  | _ =>
      idx ← ok_or (if 0 <? diff then max_index (map snd allocs)
                   else min_index (map snd allocs)) (Overflow (f64_of_Z diff));
      amt ← ok_or (snd <$> allocs !! idx) (Overflow (f64_of_Z diff));
      amt' ← ok_or (checked_add_i64 amt diff) (Overflow (f64_of_Z diff));
      let allocs' := alter (fun '(k, _) => (k, amt')) idx allocs in
      Ok (allocs', sum_i64 (map snd allocs'))
  end.

Definition allocate_proportionally_i64 (participants : list (K * f64)) (total_pool : Z)
  : result SatoshiError (AllocationResult K) :=
  if (match participants with [] => true | _ => false end) || (total_pool =? 0)
  then Ok (Build_AllocationResult [] 0) else
  let total_weight := f64_sum (map (fun p => f64_abs p.2) participants) in
  if f64_le total_weight f64_zero then Ok (Build_AllocationResult [] 0) else
  st ← try_fold (phase1_step_i64 total_weight total_pool) phase1_init participants;
  '(allocs, total) ← phase2_i64 total_pool st;
  if negb (total =? total_pool) then Err (Overflow (f64_of_Z total_pool)) else
  Ok (Build_AllocationResult allocs total).

End Definitions.

(** The tests of the source. *)
Example alloc_thirds :
  allocate_proportionally_u64 [(1, f64_one); (2, f64_one); (3, f64_one)] 100
  = Ok (Build_AllocationResult [(1, 33); (2, 33); (3, 34)] 100).
Proof. vm_compute. reflexivity. Qed.

Example alloc_over :
  allocate_proportionally_u64 [(1, f64_half); (2, f64_half)] 101
  = Ok (Build_AllocationResult [(1, 50); (2, 51)] 101).
Proof. vm_compute. reflexivity. Qed.

Example alloc_all_zero :
  allocate_proportionally_u64 [(1, f64_one); (2, f64_one); (3, f64_one)] 1
  = Ok (Build_AllocationResult [(1, 1)] 1).
Proof. vm_compute. reflexivity. Qed.

(** ** Conservation *)

Section Conservation.
Context {K : Type}.
Implicit Types (st : Phase1 K) (l : list (K * Z)).

Definition amounts l : list Z := map snd l.
Definition keys {A} (l : list (K * A)) : list K := map fst l.

(** What phase 1 establishes for the participants already seen. *)
Record phase1_inv (seen : list (K * f64)) st : Prop := {
  inv_total : p1_total st = as_u64 (sumZ (amounts (p1_allocations st)));
  inv_amounts : Forall (fun a => 0 < a.2 ≤ U64_MAX) (p1_allocations st);
  inv_keys : ∀ k, k ∈ keys (p1_allocations st) → k ∈ keys seen;
  inv_fallback : ∀ k w, p1_fallback st = Some (k, w) → k ∈ keys seen;
  inv_fallback_some :
    Exists (fun p => f64_lt p.2 f64_EPSILON = false) seen → is_Some (p1_fallback st)
}.

Lemma update_fallback_key (fb : option (K * f64)) key w k w' :
  update_fallback fb key w = Some (k, w') → k = key ∨ ∃ w'', fb = Some (k, w'').
Proof.
  unfold update_fallback. destruct fb as [[k0 best]|]; [|intros [= -> _]; eauto].
  case_match; intros [= -> ->]; eauto.
Qed.

Lemma update_fallback_some (fb : option (K * f64)) key w : is_Some (update_fallback fb key w).
Proof. unfold update_fallback. destruct fb as [[]|]; [case_match|]; eauto. Qed.

Lemma keys_snoc {A} (l : list (K * A)) k a : keys (l ++ [(k, a)]) = keys l ++ [k].
Proof. unfold keys. by rewrite map_app. Qed.

Lemma phase1_step_inv tw pool seen st p st' :
  phase1_inv seen st → phase1_step_u64 tw pool st p = Ok st' → phase1_inv (seen ++ [p]) st'.
Proof.
  destruct p as [key w]. intros [Ht Ha Hk Hf Hs] Hstep. unfold phase1_step_u64 in Hstep.
  assert (∀ k, k ∈ keys seen → k ∈ keys (seen ++ [(key, w)])) as Hseen
    by (intros k; rewrite keys_snoc; set_solver).
  assert (key ∈ keys (seen ++ [(key, w)])) as Hkey by (rewrite keys_snoc; set_solver).
  destruct (f64_lt w f64_EPSILON) eqn:Ew; inv_ok.
  - split; [done|done|eauto|eauto|].
    rewrite Exists_app, Exists_cons, Exists_nil. simpl. rewrite Ew. intuition congruence.
  - pose proof (to_sats_range _ _ _ E) as Hr.
    assert (∀ k w', update_fallback (p1_fallback st) key w = Some (k, w') →
                    k ∈ keys (seen ++ [(key, w)])) as Hfb.
    { intros k w' [->|[w'' Hw]]%update_fallback_key; eauto. }
    pose proof (update_fallback_some (p1_fallback st) key w).
    case_match; inv_ok; split; simpl; try done; eauto.
    + unfold amounts. rewrite map_app, sumZ_app. simpl. rewrite Ht, Z.add_0_r.
      unfold as_u64. by rewrite wrap_unsigned_add_l.
    + apply Forall_app. split; [done|]. unfold is_u64 in Hr. repeat constructor; simpl; lia.
    + intros k. rewrite keys_snoc, elem_of_app, list_elem_of_singleton. intros [?| ->]; eauto.
Qed.

Lemma phase1_inv_holds tw pool ps st :
  try_fold (phase1_step_u64 tw pool) phase1_init ps = Ok st → phase1_inv ps st.
Proof.
  apply (try_fold_inv phase1_inv).
  - split; simpl; [done|done|done|done|by intros ?%Exists_nil].
  - intros seen c a c' Hc _. by apply phase1_step_inv.
Qed.

Lemma take_excess_spec r l l' r' :
  Forall (fun a => 0 ≤ a.2) l → 0 ≤ r ≤ sumZ (amounts l) →
  take_excess r l = (l', r') →
  r' = 0 ∧ sumZ (amounts l') = sumZ (amounts l) - r ∧
  Forall (fun a => 0 ≤ a.2) l' ∧ keys l' = keys l.
Proof.
  revert r l' r'. induction l as [|[k a] l IH]; simpl; intros r l' r' Hl Hr H.
  - injection H as <- <-. simpl in *. split_and!; [lia|lia|constructor|done].
  - inversion Hl as [|?? Ha Hl']; subst. simpl in *. destruct (r =? 0) eqn:E.
    + injection H as <- <-. unfold amounts, keys in *. simpl.
      split_and!; [lia|lia|by constructor|done].
    + destruct (take_excess (r - Z.min a r) l) as [l'' r''] eqn:Et. injection H as <- <-.
      unfold amounts, keys in *. simpl in *.
      pose proof (sumZ_nonneg (map snd l) ltac:(by apply Forall_map)).
      destruct (IH (r - Z.min a r) l'' r'' Hl' ltac:(lia) Et) as (-> & Hsum & Hpos & Hkeys).
      split_and!; [done|lia|constructor; [simpl; lia|done]|by rewrite Hkeys].
Qed.

Lemma map_fst_alter (f : Z → Z) i l :
  map fst (alter (fun '(k, a) => (k, f a)) i l) = map fst l.
Proof.
  revert i. induction l as [|[k a] l IH]; intros [|i]; simpl; [done..|].
  f_equal. apply IH.
Qed.

Lemma sort_by_key_facts l :
  sumZ (amounts (sort_by_key snd l)) = sumZ (amounts l)
  ∧ (∀ k, k ∈ keys (sort_by_key snd l) ↔ k ∈ keys l).
Proof.
  unfold sort_by_key. pose proof (sort_by_perm (key_cmp (@snd K Z)) l) as Hp.
  unfold amounts, keys. split; [by rewrite Hp|intros k; by rewrite Hp].
Qed.

(** Phase 2 restores the pool exactly once phase 1 did not overflow. *)
Lemma phase2_conserves ps pool st :
  phase1_inv ps st → is_u64 pool → is_Some (p1_fallback st) →
  sumZ (amounts (p1_allocations st)) ≤ U64_MAX →
  ∃ l, phase2_u64 pool st = Ok (l, pool) ∧ sumZ (amounts l) = pool ∧
       Forall (fun a => 0 ≤ a.2) l ∧ ∀ k, k ∈ keys l → k ∈ keys ps.
Proof.
  intros [Ht Ha Hk Hf _] Hpool [[fk fw] Hfb] Hmax. unfold is_u64 in *.
  assert (Forall (fun a => 0 ≤ a.2) (p1_allocations st)) as Hnn
    by (eapply Forall_impl; [exact Ha|]; simpl; lia).
  assert (0 ≤ sumZ (amounts (p1_allocations st))) as H0
    by (apply sumZ_nonneg, Forall_map; done).
  rewrite as_u64_small in Ht by (unfold is_u64; lia).
  unfold phase2_u64. destruct (Z.compare_spec (p1_total st) pool) as [Heq|Hlt|Hgt].
  - exists (p1_allocations st). rewrite Heq in Ht. rewrite Heq. eauto.
  - rewrite as_u64_small by (unfold is_u64; lia).
    replace (p1_total st + (pool - p1_total st)) with pool by lia.
    destruct (max_index _) as [i|] eqn:Ei.
    + destruct (max_index_spec _ _ Ei) as (z & Hz & _).
      rewrite list_lookup_fmap in Hz.
      destruct (p1_allocations st !! i) as [[k a]|] eqn:Ek; [|discriminate].
      assert (0 < a ≤ sumZ (amounts (p1_allocations st))).
      { rewrite Forall_lookup in Ha. specialize (Ha i _ Ek). simpl in Ha. split; [lia|].
        apply sumZ_elem_le; [by apply Forall_map|].
        apply list_elem_of_lookup. exists i. unfold amounts. by rewrite list_lookup_fmap, Ek. }
      eexists. split; [done|]. split_and!.
      * unfold amounts. rewrite (sumZ_alter snd _ (pool - p1_total st) i _ (k, a));
          [unfold amounts in *; lia|done|]. simpl. apply as_u64_small. unfold is_u64. lia.
      * apply Forall_alter; [done|]. intros [k' a'] Hl Hx. simpl. apply as_u64_range.
      * intros k' Hk'. apply Hk. unfold keys in *.
        rewrite (map_fst_alter (fun a => as_u64 (a + (pool - p1_total st)))) in Hk'. done.
    + assert (p1_allocations st = []) as Hnil
        by (destruct (p1_allocations st) as [|[] ?]; [done|discriminate Ei]).
      rewrite Hfb, Hnil in *. simpl in *. eexists. split; [done|]. simpl.
      split_and!; [lia|repeat constructor; simpl; lia|set_solver].
  - destruct (sort_by_key_facts (p1_allocations st)) as [Hs Hks].
    destruct (take_excess _ _) as [taken rem] eqn:Et.
    apply take_excess_spec in Et; cycle 1.
    { unfold sort_by_key. by rewrite sort_by_perm. }
    { rewrite Hs. lia. }
    destruct Et as (-> & Hsum & Hpos & Hkeys). simpl.
    exists taken. rewrite sum_u64_sumZ. unfold amounts in *.
    rewrite as_u64_small by (unfold is_u64; lia).
    split_and!; [do 2 f_equal; lia|lia|done|].
    intros k Hk'. rewrite Hkeys in Hk'. by apply Hk, Hks.
Qed.

(** Proportional allocation of a pool among weighted participants is
    conservative.  When every share is a valid amount, the rounded shares do
    not overflow [u64] and some participant has a weight that counts, the call
    succeeds, the amounts add up to the pool exactly (as integers, not modulo
    the word size), none is negative, and only participants receive one. *)
Theorem allocate_u64_conserves (ps : list (K * f64)) pool st :
  0 < pool ≤ U64_MAX →
  f64_le (f64_sum (map snd ps)) f64_zero = false →
  try_fold (phase1_step_u64 (f64_sum (map snd ps)) pool) phase1_init ps = Ok st →
  sumZ (map snd (p1_allocations st)) ≤ U64_MAX →
  Exists (fun p => f64_lt p.2 f64_EPSILON = false) ps →
  ∃ r, allocate_proportionally_u64 ps pool = Ok r ∧
       total_allocated r = pool ∧ sumZ (map snd (allocations r)) = pool ∧
       Forall (fun a => 0 ≤ a.2) (allocations r) ∧
       ∀ k, k ∈ map fst (allocations r) → k ∈ map fst ps.
Proof.
  intros Hpool Hw Hst Hmax Hex. pose proof (phase1_inv_holds _ _ _ _ Hst) as Hinv.
  destruct (phase2_conserves ps pool st Hinv ltac:(unfold is_u64; lia)
              (inv_fallback_some _ _ Hinv Hex) Hmax) as (l & Hl & Hsum & Hnn & Hkeys).
  exists (Build_AllocationResult l pool). unfold allocate_proportionally_u64.
  destruct ps as [|p ps]; [by apply Exists_nil in Hex|].
  replace (pool =? 0) with false by lia. cbn [orb]. rewrite Hw, Hst. simpl. rewrite Hl. simpl.
  rewrite Z.eqb_refl. eauto.
Qed.

End Conservation.

Lemma allocate_u64_conserves_witness :
  ∃ r, allocate_proportionally_u64 [(1, f64_one); (2, f64_one); (3, f64_half)] 101 = Ok r ∧
       total_allocated r = 101 ∧ sumZ (map snd (allocations r)) = 101 ∧
       Forall (fun a => 0 ≤ a.2) (allocations r) ∧
       ∀ k, k ∈ map fst (allocations r) → k ∈ [1; 2; 3].
Proof.
  apply (allocate_u64_conserves [(1, f64_one); (2, f64_one); (3, f64_half)] 101
           (Build_Phase1 [(1, 40); (2, 40); (3, 20)] 100 (Some (1, f64_one)))).
  - lia.
  - vm_compute. reflexivity.
  - vm_compute. reflexivity.
  - vm_compute. discriminate.
  - constructor. vm_compute. reflexivity.
Defined.
