(* ===== verification/ListingFees.v ===== *)
(** * Listing fees (src/lib/math/decisions.rs)

    The tier of a decision index, the unlocking of slots by mints, the price of
    a tier, and the fixed-point reprice curve [p * 2^(2*sales/available - 1)].
    The theorems give the exact set of fees, the number of unlocked slots, and
    that the reprice curve is monotone in the sales and bounded by the factors
    one half and two. *)

From stdpp Require Import base numbers list.
From S2P Require Import Prelude.

Definition TIER_COUNT : Z := 5.
Definition SLOTS_PER_TIER_PER_MINT : Z := 5.
Definition SLOTS_PER_TIER : Z := 100.
Definition SLOTS_PER_PERIOD_MAX : Z := SLOTS_PER_TIER * TIER_COUNT.
Definition MID_PERIOD_REPRICES : Z := 5.
Definition TIER_MULTIPLIERS_NUM : list Z := [1; 2; 4; 8; 16].
Definition TIER_MULTIPLIERS_DEN : Z := 4.
Definition GENESIS_P_PERIOD_SATS : Z := 10000.
Definition SECONDS_PER_BLOCK : Z := 600.

Inductive ListingFeeError : Type :=
| IndexOutOfRange (decision_index : Z)
| SlotNotUnlocked (decision_index mints : Z)
| ListingOverflow.

Definition reprice_interval (blocks_per_period : Z) : Z :=
  Z.max (blocks_per_period / MID_PERIOD_REPRICES) 1.

Definition blocks_per_period (is_blocks : bool) (quantity : Z) : Z :=
  if is_blocks then quantity else as_u32 (quantity / SECONDS_PER_BLOCK).

Definition tier_for_index (decision_index : Z) : result ListingFeeError nat :=
  if SLOTS_PER_PERIOD_MAX <=? decision_index then Err (IndexOutOfRange decision_index)
  else Ok (Z.to_nat (decision_index / SLOTS_PER_TIER)).

Definition position_in_tier (decision_index : Z) : Z := decision_index mod SLOTS_PER_TIER.

Definition slot_unlocked (decision_index mints : Z) : bool :=
  if SLOTS_PER_PERIOD_MAX <=? decision_index then false
  else position_in_tier decision_index <? as_u64 (mints * SLOTS_PER_TIER_PER_MINT).

(** [TIER_MULTIPLIERS_NUM[tier]] panics out of range; [None] is the panic. *)
Definition slot_price (p_period : Z) (tier : nat) : option Z :=
  num ← TIER_MULTIPLIERS_NUM !! tier;
  Some (default U64_MAX (checked_div (sat_mul_u64 p_period num) TIER_MULTIPLIERS_DEN)).

Definition tier_prices (p_period : Z) : list (option Z) :=
  map (slot_price p_period) (seq 0 (Z.to_nat TIER_COUNT)).

(** The index passed to [slot_price] is a tier, so it does not panic
    ([tier_in_range] below); the model of the panic is never taken. *)
Definition fee_for_index (p_period mints decision_index : Z) : result ListingFeeError Z :=
  tier ← tier_for_index decision_index;
  if negb (slot_unlocked decision_index mints)
  then Err (SlotNotUnlocked decision_index mints)
  else ok_or (slot_price p_period tier) ListingOverflow.

Definition LN2_Q62 : Z := 0x2C5C85FDF473DE6B.

(** One iteration of the Taylor loop: [term = ((term * x) >> 62) / k]. *)
Definition pow2_frac_step (x_q62 : Z) (ts : Z * Z) (k : Z) : Z * Z :=
  let term := Z.shiftr (as_u128 (ts.1 * x_q62)) 62 / k in
  (term, as_u128 (ts.2 + term)).

Definition pow2_frac_q62 (frac_q32 : Z) : Z :=
  let q62 := Z.shiftl 1 62 in
  let frac_q62 := as_u128 (Z.shiftl frac_q32 30) in
  let x_q62 := Z.shiftr (as_u128 (frac_q62 * LN2_Q62)) 62 in
  (foldl (pow2_frac_step x_q62) (q62, q62) (range 1 12)).2.

Definition U128_MAX : Z := 2 ^ 128 - 1.

Definition pow2_fixed_q32 (e_fp : Z) : Z :=
  let q32 := Z.shiftl 1 32 in
  let exp_int := e_fp / q32 in
  let frac := e_fp mod q32 in
  let result_q32 := Z.shiftr (pow2_frac_q62 frac) 30 in
  if 0 <=? exp_int then
    if 64 <=? exp_int then U128_MAX else as_u128 (Z.shiftl result_q32 exp_int)
  else
    let shift := as_u32 (- exp_int) in
    if 64 <=? shift then 0 else Z.shiftr result_q32 shift.

Definition reprice (p_old sales available_at_open : Z) : Z :=
  if available_at_open =? 0 then p_old
  else if sales =? 0 then p_old / 2
  else if sales =? available_at_open then sat_mul_u64 p_old 2
  else if sat_mul_u64 sales 2 =? available_at_open then p_old
  else
    let q32 := Z.shiftl 1 32 in
    let e_fp := as_i128 (Z.quot (sales * 2 * q32) available_at_open - q32) in
    let factor_fp := pow2_fixed_q32 e_fp in
    as_u64 (Z.shiftr (as_u128 (p_old * factor_fp)) 32).

(** The tests of the source. *)
Example reprice_tests :
  reprice 10000 0 25 = 5000 ∧ reprice 7 0 100 = 3 ∧ reprice 10000 12 24 = 10000 ∧
  reprice 10000 25 25 = 20000 ∧ reprice 1000000 25 100 = 707106 ∧
  reprice 1000000 75 100 = 1414213.
Proof. vm_compute. repeat split; reflexivity. Qed.

Example fee_tests :
  fee_for_index 10000 1 400 = Ok 40000 ∧ fee_for_index 10000 1 5 = Err (SlotNotUnlocked 5 1) ∧
  fee_for_index 10000 20 500 = Err (IndexOutOfRange 500) ∧
  reprice_interval (blocks_per_period false (3600 * 24 * 91)) = 2620.
Proof. vm_compute. repeat split; reflexivity. Qed.

(** ** Tiers and unlocking *)

Section Tiers.

Lemma tier_price_num tier :
  (tier < 5)%nat → TIER_MULTIPLIERS_NUM !! tier = Some (2 ^ Z.of_nat tier).
Proof. intros. do 5 (destruct tier as [|tier]; [reflexivity|]). lia. Qed.

Lemma tier_in_range decision_index tier :
  0 ≤ decision_index → tier_for_index decision_index = Ok tier →
  tier = Z.to_nat (decision_index / 100) ∧ (tier < 5)%nat.
Proof.
  unfold tier_for_index. intros Hi H.
  destruct (SLOTS_PER_PERIOD_MAX <=? decision_index) eqn:E; inv_ok.
  unfold SLOTS_PER_PERIOD_MAX, SLOTS_PER_TIER, TIER_COUNT in *. split; [done|zify_div].
Qed.

(** The listing fee of every decision index, on every branch: an index at
    or beyond 500 is out of range, a position the mints have not reached is
    locked, and any other index costs a quarter of the period price times two
    to the power of its tier (the product saturating at [u64::MAX]). *)
Theorem fee_for_index_spec p mints idx :
  0 ≤ idx → 0 ≤ mints → mints * 5 ≤ U64_MAX →
  fee_for_index p mints idx =
    if 500 <=? idx then Err (IndexOutOfRange idx)
    else if mints * 5 <=? idx mod 100 then Err (SlotNotUnlocked idx mints)
    else Ok (Z.min (p * 2 ^ (idx / 100)) U64_MAX / 4).
Proof.
  intros Hi Hm Hw. unfold fee_for_index.
  destruct (tier_for_index idx) as [tier|e] eqn:Et.
  - pose proof (tier_in_range _ _ Hi Et) as [Htier Hlt]. unfold mbind, result_bind.
    unfold tier_for_index, SLOTS_PER_PERIOD_MAX, SLOTS_PER_TIER, TIER_COUNT in Et.
    unfold slot_unlocked, position_in_tier, SLOTS_PER_PERIOD_MAX, SLOTS_PER_TIER, TIER_COUNT,
      SLOTS_PER_TIER_PER_MINT. rewrite as_u64_small by (unfold is_u64; lia).
    destruct (100 * 5 <=? idx) eqn:E; [discriminate|].
    replace (500 <=? idx) with false by lia.
    rewrite <- Z.leb_antisym. destruct (mints * 5 <=? idx mod 100); [done|].
    unfold slot_price. rewrite tier_price_num by done. simpl.
    unfold sat_mul_u64. do 5 f_equal. subst tier. rewrite Z2Nat.id; [done|zify_div].
  - unfold tier_for_index in Et. unfold SLOTS_PER_PERIOD_MAX, SLOTS_PER_TIER, TIER_COUNT in Et.
    destruct (100 * 5 <=? idx) eqn:E; inv_ok. replace (500 <=? idx) with true by lia. done.
Qed.

Lemma fee_for_index_spec_witness :
  fee_for_index 10000 2 307 =
    if 500 <=? 307 then Err (IndexOutOfRange 307)
    else if 2 * 5 <=? 307 mod 100 then Err (SlotNotUnlocked 307 2)
    else Ok (Z.min (10000 * 2 ^ (307 / 100)) U64_MAX / 4).
Proof. apply (fee_for_index_spec 10000 2 307); lia. Defined.

Lemma all_unlocked mints :
  20 ≤ mints → mints * 5 ≤ U64_MAX →
  filter (fun i => slot_unlocked i mints = true) (range 0 500) = range 0 500.
Proof.
  intros Hm Hw. apply list_filter_all, Forall_forall. intros i Hi%elem_of_range.
  unfold slot_unlocked, position_in_tier, SLOTS_PER_PERIOD_MAX, SLOTS_PER_TIER, TIER_COUNT,
    SLOTS_PER_TIER_PER_MINT. rewrite as_u64_small by (unfold is_u64; lia).
  replace (100 * 5 <=? i) with false by lia.
  pose proof (Z.mod_pos_bound i 100). lia.
Qed.

Lemma unlocked_count mints :
  0 ≤ mints → mints * 5 ≤ U64_MAX →
  length (filter (fun i => slot_unlocked i mints = true) (range 0 SLOTS_PER_PERIOD_MAX))
  = Z.to_nat (25 * Z.min mints 20).
Proof.
  intros Hm Hw. change SLOTS_PER_PERIOD_MAX with 500.
  destruct (decide (20 ≤ mints)) as [Hge|Hlt].
  - rewrite all_unlocked by lia. rewrite range_length. lia.
  - assert (mints ∈ range 0 20) as Hin by (apply elem_of_range; lia).
    assert (Forall (fun m => length (filter (fun i => slot_unlocked i m = true) (range 0 500))
                             = Z.to_nat (25 * Z.min m 20)) (range 0 20)) as Hall
      by (repeat (constructor; [vm_compute; reflexivity|]); constructor).
    rewrite Forall_forall in Hall. by apply Hall.
Qed.

(** Every mint unlocks exactly 25 slots of the period, five in each tier,
    until the 500 slots of the period are all unlocked. *)
Theorem unlocked_slots_count mints :
  0 ≤ mints → mints * 5 ≤ U64_MAX →
  length (filter (fun i => slot_unlocked i mints = true) (range 0 SLOTS_PER_PERIOD_MAX))
  = Z.to_nat (25 * Z.min mints 20).
Proof. apply unlocked_count. Qed.

Lemma unlocked_slots_count_witness :
  length (filter (fun i => slot_unlocked i 3 = true) (range 0 SLOTS_PER_PERIOD_MAX)) = 75%nat.
Proof. apply (unlocked_slots_count 3); lia. Defined.

End Tiers.

(** ** The reprice curve *)

Section Reprice.

Lemma as_u128_small z : 0 ≤ z < 2 ^ 128 → as_u128 z = z.
Proof. apply wrap_unsigned_small. Qed.

Lemma pow2_frac_step_eq x t s k :
  0 ≤ x ≤ 2 ^ 62 → 0 ≤ t ≤ 2 ^ 62 → 0 ≤ s ≤ 2 ^ 127 → 0 < k →
  pow2_frac_step x (t, s) k = (t * x / 2 ^ 62 / k, s + t * x / 2 ^ 62 / k)
  ∧ 0 ≤ t * x / 2 ^ 62 / k ≤ 2 ^ 62.
Proof.
  intros Hx Ht Hs Hk. unfold pow2_frac_step. simpl fst. simpl snd.
  assert (0 ≤ t * x ≤ 2 ^ 62 * 2 ^ 62) by nia.
  rewrite (as_u128_small (t * x)), Z.shiftr_div_pow2 by lia.
  assert (0 ≤ t * x / 2 ^ 62 ≤ 2 ^ 62) by zify_div.
  assert (0 ≤ t * x / 2 ^ 62 / k ≤ 2 ^ 62).
  { split; [apply Z.div_pos; lia|]. etrans; [|apply H0]. apply Z.div_le_upper_bound; nia. }
  rewrite as_u128_small by lia. done.
Qed.

(** The Taylor loop is monotone in the argument and only adds. *)
Lemma pow2_frac_loop_mono x x' l :
  0 ≤ x ≤ x' → x' ≤ 2 ^ 62 → Forall (fun k => 0 < k) l →
  ∀ t s t' s', 0 ≤ t ≤ t' → t' ≤ 2 ^ 62 →
  0 ≤ s ≤ s' → s' + Z.of_nat (length l) * 2 ^ 62 ≤ 2 ^ 127 →
  s ≤ (foldl (pow2_frac_step x) (t, s) l).2
    ≤ (foldl (pow2_frac_step x') (t', s') l).2.
Proof.
  intros Hx Hx'. induction 1 as [|k l Hk Hl IH]; intros t s t' s' Ht Ht' Hs Hs'.
  { simpl. lia. }
  cbn [foldl length] in *.
  destruct (pow2_frac_step_eq x t s k) as [-> Hb]; [lia..|].
  destruct (pow2_frac_step_eq x' t' s' k) as [-> Hb']; [lia..|].
  assert (t * x / 2 ^ 62 / k ≤ t' * x' / 2 ^ 62 / k).
  { apply Z.div_le_mono; [done|]. apply Z.div_le_mono; [done|]. nia. }
  specialize (IH (t * x / 2 ^ 62 / k) (s + t * x / 2 ^ 62 / k)
                 (t' * x' / 2 ^ 62 / k) (s' + t' * x' / 2 ^ 62 / k)).
  lia.
Qed.

Lemma pow2_frac_arg frac :
  0 ≤ frac < 2 ^ 32 →
  Z.shiftr (as_u128 (as_u128 (Z.shiftl frac 30) * LN2_Q62)) 62
  = frac * 2 ^ 30 * LN2_Q62 / 2 ^ 62.
Proof.
  intros Hf. unfold LN2_Q62. rewrite Z.shiftl_mul_pow2 by done.
  rewrite (as_u128_small (frac * 2 ^ 30)), as_u128_small, Z.shiftr_div_pow2 by lia. done.
Qed.

Lemma pow2_frac_mono f f' :
  0 ≤ f ≤ f' → f' < 2 ^ 32 → 2 ^ 62 ≤ pow2_frac_q62 f ≤ pow2_frac_q62 f'.
Proof.
  intros Hf Hf'. unfold pow2_frac_q62. cbv zeta.
  rewrite !pow2_frac_arg by lia. apply pow2_frac_loop_mono.
  - unfold LN2_Q62. split; [apply Z.div_pos; lia|apply Z.div_le_mono; lia].
  - unfold LN2_Q62. zify_div.
  - apply Forall_forall. intros k Hk%elem_of_range. lia.
  - split; [vm_compute; discriminate|done].
  - vm_compute. discriminate.
  - split; [vm_compute; discriminate|done].
  - vm_compute. discriminate.
Qed.

Lemma pow2_frac_upper f : 0 ≤ f < 2 ^ 32 → pow2_frac_q62 f ≤ 2 ^ 63.
Proof.
  intros Hf. destruct (pow2_frac_mono f (2 ^ 32 - 1)) as [_ H]; [lia..|].
  etrans; [exact H|]. vm_compute. discriminate.
Qed.

(** The three branches of [pow2_fixed_q32] that [reprice] reaches. *)
Lemma pow2_fixed_neg e :
  - 2 ^ 32 ≤ e < 0 → pow2_fixed_q32 e = pow2_frac_q62 (e + 2 ^ 32) / 2 ^ 30 / 2.
Proof.
  intros He. unfold pow2_fixed_q32. change (Z.shiftl 1 32) with (2 ^ 32).
  replace (e / 2 ^ 32) with (-1) by zify_div.
  replace (e mod 2 ^ 32) with (e + 2 ^ 32) by zify_div. simpl (0 <=? -1).
  change (as_u32 (- -1)) with 1. simpl (64 <=? 1). by rewrite !Z.shiftr_div_pow2.
Qed.

Lemma pow2_fixed_nonneg e :
  0 ≤ e < 2 ^ 32 → pow2_fixed_q32 e = pow2_frac_q62 e / 2 ^ 30.
Proof.
  intros He. unfold pow2_fixed_q32. change (Z.shiftl 1 32) with (2 ^ 32).
  replace (e / 2 ^ 32) with 0 by zify_div. rewrite Z.mod_small by lia. simpl (0 <=? 0).
  simpl (64 <=? 0). rewrite Z.shiftl_0_r, Z.shiftr_div_pow2 by done.
  pose proof (pow2_frac_mono e e). pose proof (pow2_frac_upper e).
  apply as_u128_small. zify_div.
Qed.

Lemma pow2_fixed_top : pow2_fixed_q32 (2 ^ 32) = 2 ^ 33.
Proof. vm_compute. reflexivity. Qed.

Lemma pow2_fixed_bounds e :
  (- 2 ^ 32 ≤ e < 0 → 2 ^ 31 ≤ pow2_fixed_q32 e ≤ 2 ^ 32) ∧
  (0 ≤ e < 2 ^ 32 → 2 ^ 32 ≤ pow2_fixed_q32 e ≤ 2 ^ 33).
Proof.
  split; intros He.
  - rewrite pow2_fixed_neg by done.
    pose proof (pow2_frac_mono (e + 2 ^ 32) (e + 2 ^ 32)).
    pose proof (pow2_frac_upper (e + 2 ^ 32)). zify_div.
  - rewrite pow2_fixed_nonneg by done.
    pose proof (pow2_frac_mono e e). pose proof (pow2_frac_upper e). zify_div.
Qed.

Lemma pow2_fixed_mono e e' :
  - 2 ^ 32 ≤ e ≤ e' → e' ≤ 2 ^ 32 → pow2_fixed_q32 e ≤ pow2_fixed_q32 e'.
Proof.
  intros He He'. destruct (decide (e' = 2 ^ 32)) as [->|Hne].
  - rewrite pow2_fixed_top. destruct (decide (e = 2 ^ 32)) as [->|]; [by rewrite pow2_fixed_top|].
    pose proof (pow2_fixed_bounds e). destruct (decide (e < 0)); lia.
  - pose proof (pow2_fixed_bounds e). pose proof (pow2_fixed_bounds e').
    destruct (decide (e < 0)), (decide (e' < 0)); [|lia|lia|].
    + rewrite !pow2_fixed_neg by lia. do 2 (apply Z.div_le_mono; [lia|]).
      apply pow2_frac_mono; lia.
    + rewrite !pow2_fixed_nonneg by lia. apply Z.div_le_mono; [lia|].
      apply pow2_frac_mono; lia.
Qed.

(** The exponent [reprice] computes, and the curve it follows. *)
Definition reprice_exponent (s a : Z) : Z := s * 2 ^ 33 / a - 2 ^ 32.

Lemma reprice_exponent_range s a :
  0 ≤ s ≤ a → 0 < a → - 2 ^ 32 ≤ reprice_exponent s a ≤ 2 ^ 32.
Proof.
  intros Hs Ha. unfold reprice_exponent.
  pose proof (Z.div_pos (s * 2 ^ 33) a).
  pose proof (Z.div_le_upper_bound (s * 2 ^ 33) a (2 ^ 33)). lia.
Qed.

Lemma reprice_exponent_mono s s' a :
  0 ≤ s ≤ s' → 0 < a → reprice_exponent s a ≤ reprice_exponent s' a.
Proof.
  intros. unfold reprice_exponent. apply Z.sub_le_mono_r, Z.div_le_mono; lia.
Qed.

Lemma reprice_curve p s a :
  0 ≤ p < 2 ^ 63 → 0 ≤ s ≤ a → 0 < a < U64_MAX →
  reprice p s a = p * pow2_fixed_q32 (reprice_exponent s a) / 2 ^ 32.
Proof.
  intros Hp Hs Ha. unfold reprice. replace (a =? 0) with false by lia.
  destruct (Z.eqb_spec s 0) as [->|Hs0].
  { unfold reprice_exponent. rewrite Z.mul_0_l, Z.div_0_l by lia.
    change (pow2_fixed_q32 (0 - 2 ^ 32)) with (2 ^ 31). zify_div. }
  destruct (Z.eqb_spec s a) as [->|Hsa].
  { unfold reprice_exponent. rewrite (Z.mul_comm a), Z.div_mul by lia.
    change (2 ^ 33 - 2 ^ 32) with (2 ^ 32). rewrite pow2_fixed_top.
    unfold sat_mul_u64. zify_div. }
  destruct (Z.eqb_spec (sat_mul_u64 s 2) a) as [Hh|Hh].
  { unfold sat_mul_u64 in Hh. assert (s * 2 = a) as <- by lia. unfold reprice_exponent.
    replace (s * 2 ^ 33) with (2 ^ 32 * (s * 2)) by lia. rewrite Z.div_mul, Z.sub_diag by lia.
    change (pow2_fixed_q32 0) with (2 ^ 32). rewrite Z.div_mul by lia. done. }
  change (Z.shiftl 1 32) with (2 ^ 32). rewrite Z.quot_div_nonneg by lia.
  replace (s * 2 * 2 ^ 32) with (s * 2 ^ 33) by lia.
  pose proof (reprice_exponent_range s a ltac:(lia) ltac:(lia)) as He.
  fold (reprice_exponent s a). unfold as_i128. rewrite wrap_signed_small by lia.
  pose proof (pow2_fixed_bounds (reprice_exponent s a)) as Hb.
  assert (0 ≤ pow2_fixed_q32 (reprice_exponent s a) ≤ 2 ^ 33).
  { destruct (decide (reprice_exponent s a = 2 ^ 32)) as [->|];
      [rewrite pow2_fixed_top|]; lia. }
  rewrite as_u128_small by nia. rewrite Z.shiftr_div_pow2 by lia.
  apply as_u64_small. unfold is_u64. zify_div.
Qed.

Lemma reprice_bounds p s s' a :
  0 ≤ p < 2 ^ 63 → 0 ≤ s ≤ s' → s' ≤ a → 0 < a < U64_MAX →
  p / 2 ≤ reprice p s a ∧ reprice p s a ≤ reprice p s' a ∧ reprice p s' a ≤ 2 * p.
Proof.
  intros Hp Hs Hs' Ha. rewrite !reprice_curve by lia.
  pose proof (reprice_exponent_range s a ltac:(lia) ltac:(lia)) as He.
  pose proof (reprice_exponent_range s' a ltac:(lia) ltac:(lia)) as He'.
  pose proof (reprice_exponent_mono s s' a ltac:(lia) ltac:(lia)) as Hm.
  pose proof (pow2_fixed_mono _ _ ltac:(split; [apply He|exact Hm]) ltac:(lia)) as Hf.
  pose proof (pow2_fixed_mono (- 2 ^ 32) (reprice_exponent s a) ltac:(lia) ltac:(lia)) as Hlo.
  pose proof (pow2_fixed_mono (reprice_exponent s' a) (2 ^ 32) ltac:(lia) ltac:(lia)) as Hhi.
  change (pow2_fixed_q32 (- 2 ^ 32)) with (2 ^ 31) in Hlo. rewrite pow2_fixed_top in Hhi.
  split_and!.
  - transitivity (p * 2 ^ 31 / 2 ^ 32); [zify_div|apply Z.div_le_mono; nia].
  - apply Z.div_le_mono; nia.
  - transitivity (p * 2 ^ 33 / 2 ^ 32); [apply Z.div_le_mono; nia|zify_div].
Qed.

(** The mid-period price follows the sales.  Between two outcomes of the
    same window with no fewer sales in the second, the new price is never
    lower in the second; and whatever the sales, the new price is between half
    the old one (rounded down) and twice the old one. *)
Theorem reprice_monotone_bounded p s s' a :
  0 ≤ p < 2 ^ 63 → 0 ≤ s ≤ s' → s' ≤ a → 0 < a < U64_MAX →
  p / 2 ≤ reprice p s a ∧ reprice p s a ≤ reprice p s' a ∧ reprice p s' a ≤ 2 * p.
Proof. apply reprice_bounds. Qed.

Lemma reprice_monotone_bounded_witness :
  10000 / 2 ≤ reprice 10000 7 25 ∧ reprice 10000 7 25 ≤ reprice 10000 19 25 ∧
  reprice 10000 19 25 ≤ 2 * 10000.
Proof. apply (reprice_monotone_bounded 10000 7 19 25); lia. Defined.

End Reprice.
