(* ===== verification/MarketMath.v ===== *)
(** * Market mathematics

    - [OutcomeSpace] (src/lib/math/markets.rs): the Cartesian product of the
      decision dimensions, its size, the storage fee.
    - [Lmsr] (src/lib/math/lmsr.rs): the LMSR cost function and prices, over
      [libm]'s [exp] and [log], which are parameters.
    - [Trading] (src/lib/math/trading.rs): cost of a buy, proceeds of a sell. *)

From stdpp Require Import base numbers list.
From Stdlib Require Import SpecFloat.
From S2P Require Import Prelude Float64 SafeMath.

Module OutcomeSpace.

Definition BASE_MARKET_STORAGE_COST_SATS : Z := 1000.
Definition L2_STORAGE_RATE_SATS_PER_BYTE : Z := 1.

(** One iteration of the outer loop: every combination extended by every value. *)
Definition extend_combos (result : list (list Z)) (dim_size : Z) : list (list Z) :=
  flat_map (fun combo => map (fun value => combo ++ [value]) (range 0 dim_size)) result.

Definition cartesian_product (dimensions : list Z) : list (list Z) :=
  match dimensions with
  | [] => [[]]
  | _ => foldl extend_combos [[]] dimensions
  end.

Fixpoint checked_product (acc : Z) (dimensions : list Z) : option Z :=
  match dimensions with
  | [] => Some acc
  | dim :: rest => acc' ← checked_mul_u64 acc dim; checked_product acc' rest
  end.

Definition outcome_space_size (dimensions : list Z) : option Z :=
  checked_product 1 dimensions.

Definition market_storage_fee (tradeable_outcomes : Z) : Z :=
  let quadratic := as_u64 (as_u64 (tradeable_outcomes ^ 2) * L2_STORAGE_RATE_SATS_PER_BYTE) in
  as_u64 (BASE_MARKET_STORAGE_COST_SATS + quadratic).

End OutcomeSpace.

Module Lmsr.

Inductive LmsrError : Type :=
| InvalidBeta (beta min max : f64)
| ShareQuantityOverflow
| InvalidCostCalculation
| InsufficientTreasury (required available : Z)
| InvalidOutcomeCount (count min max : Z)
| PrecisionLoss
| DimensionMismatch (expected actual : Z)
| InvalidFeeRate (rate : f64).

Definition LMSR_PRECISION : f64 := f64_dec 1 8.
Definition MAX_BETA : f64 := f64_of_Z (10 ^ 12).
Definition MIN_BETA : f64 := f64_dec 1 6.
Definition MIN_OUTCOMES : Z := 2.
Definition MAX_OUTCOMES : Z := 256.
Definition NEG_INFINITY : f64 := S754_infinity true.

Section Lmsr.
(** [libm::exp] and [libm::log]. *)
Context (exp log : f64 → f64).

Definition beta_out_of_range (beta : f64) : bool :=
  f64_le beta MIN_BETA || f64_ge beta MAX_BETA.

Definition calculate_core_exp_ln (beta : f64) (shares : list f64)
  : result LmsrError (f64 * f64 * list f64) :=
  if beta_out_of_range beta then Err (InvalidBeta beta MIN_BETA MAX_BETA) else
  match shares with
  | [] => Ok (f64_zero, f64_zero, [])
  | _ =>
      let max_share := foldl f64_max NEG_INFINITY shares in
      let shifted_shares := map (fun q => f64_div (f64_sub q max_share) beta) shares in
      let exp_shares := map exp shifted_shares in
      if negb (forallb is_finite exp_shares) then Err ShareQuantityOverflow else
      let sum_exp := f64_fold_sum exp_shares in
      if f64_le sum_exp f64_zero || negb (is_finite sum_exp)
      then Err InvalidCostCalculation else
      let cost := f64_mul beta (f64_add (log sum_exp) (f64_div max_share beta)) in
      if negb (is_finite cost) then Err InvalidCostCalculation else
      Ok (cost, sum_exp, exp_shares)
  end.

Definition cost_function (beta : f64) (shares : list f64) : result LmsrError f64 :=
  '(cost, _, _) ← calculate_core_exp_ln beta shares; Ok cost.

Definition price_sum_off (prices : list f64) : bool :=
  f64_gt (f64_abs (f64_sub (f64_fold_sum prices) f64_one)) LMSR_PRECISION.

Definition service_calculate_prices (beta : f64) (shares : list f64) : result LmsrError (list f64) :=
  '(_, sum_exp, exp_shares) ← calculate_core_exp_ln beta shares;
  if f64_eq sum_exp f64_zero then Ok [] else
  let prices := map (fun x => f64_div x sum_exp) exp_shares in
  if price_sum_off prices then Err PrecisionLoss else Ok prices.

Definition validate_params (max_outcomes : Z) (beta : f64) (shares : list f64)
  : result LmsrError (list f64) :=
  if beta_out_of_range beta then Err (InvalidBeta beta MIN_BETA MAX_BETA) else
  if negb (forallb (fun x => f64_ge x f64_zero && is_finite x) shares)
  then Err ShareQuantityOverflow else
  let count := Z.of_nat (length shares) in
  if (count <? MIN_OUTCOMES) || (max_outcomes <? count)
  then Err (InvalidOutcomeCount count MIN_OUTCOMES max_outcomes) else
  prices ← service_calculate_prices beta shares;
  if price_sum_off prices then Err PrecisionLoss else Ok prices.

(** [LmsrService]. *)
Definition service_calculate_treasury (shares : list f64) (beta : f64) : result LmsrError f64 :=
  cost_function beta shares.

Definition service_validate_lmsr_parameters (beta : f64) (shares : list f64) : result LmsrError unit :=
  _ ← validate_params (Z.of_nat (length shares)) beta shares; Ok tt.

Definition service_calculate_update_cost (current_shares new_shares : list f64) (beta : f64)
  : result LmsrError f64 :=
  if negb (length current_shares =? length new_shares)%nat
  then Err (DimensionMismatch (Z.of_nat (length current_shares)) (Z.of_nat (length new_shares)))
  else
  current_cost ← cost_function beta current_shares;
  new_cost ← cost_function beta new_shares;
  Ok (f64_sub new_cost current_cost).

End Lmsr.
End Lmsr.

Module Trading.

Definition MIN_TRADING_FEE_SATS : Z := 1000.
Definition TRADE_MINER_FEE_SATS : Z := 1000.
(** [crate::state::markets::DEFAULT_MARKET_BETA]. *)
Definition DEFAULT_MARKET_BETA : f64 := f64_of_Z 7.

Definition shares_to_f64 (shares : list Z) : list f64 := map f64_of_Z shares.

Record BuyCost : Type := {
  base_cost_sats : Z;
  buy_trading_fee_sats : Z;
  total_cost_sats : Z
}.

Record SellProceeds : Type := {
  gross_proceeds_sats : Z;
  sell_trading_fee_sats : Z;
  net_proceeds_sats : Z
}.

Definition calculate_buy_cost (base_cost_f64 trading_fee_pct : f64)
  : result SatoshiError BuyCost :=
  base ← to_sats base_cost_f64 Up;
  let fee_f64 := f64_mul base_cost_f64 trading_fee_pct in
  calculated_fee_sats ← to_sats fee_f64 Nearest;
  let fee := Z.max calculated_fee_sats MIN_TRADING_FEE_SATS in
  Ok {| base_cost_sats := base; buy_trading_fee_sats := fee;
        total_cost_sats := as_u64 (base + fee) |}.

Definition calculate_sell_proceeds (gross_proceeds_f64 trading_fee_pct : f64)
  : result SatoshiError SellProceeds :=
  gross ← to_sats gross_proceeds_f64 Down;
  let fee_f64 := f64_mul gross_proceeds_f64 trading_fee_pct in
  calculated_fee_sats ← to_sats fee_f64 Nearest;
  let fee := Z.max calculated_fee_sats MIN_TRADING_FEE_SATS in
  if gross <? fee then Err (Overflow gross_proceeds_f64) else
  Ok {| gross_proceeds_sats := gross; sell_trading_fee_sats := fee;
        net_proceeds_sats := gross - fee |}.

Section Lmsr.
Context (exp log : f64 → f64).

Definition calculate_update_cost (current_shares new_shares : list Z) (beta : f64)
  : result Lmsr.LmsrError f64 :=
  Lmsr.service_calculate_update_cost exp log (shares_to_f64 current_shares) (shares_to_f64 new_shares) beta.

Definition calculate_prices (shares : list Z) (beta : f64) : result Lmsr.LmsrError (list f64) :=
  Lmsr.service_calculate_prices exp log beta (shares_to_f64 shares).

Definition calculate_treasury (shares : list Z) (beta : f64) : result Lmsr.LmsrError f64 :=
  Lmsr.service_calculate_treasury exp log (shares_to_f64 shares) beta.

Definition validate_lmsr_parameters (beta : f64) (shares : list Z) : result Lmsr.LmsrError unit :=
  Lmsr.service_validate_lmsr_parameters exp log beta (shares_to_f64 shares).

Definition calculate_lmsr_liquidity (beta : f64) (num_outcomes : Z) : f64 :=
  if num_outcomes <=? 1 then f64_zero else f64_mul beta (log (f64_of_Z num_outcomes)).

Definition derive_beta_from_liquidity (liquidity_sats num_outcomes : Z) : f64 :=
  if num_outcomes <=? 1 then DEFAULT_MARKET_BETA else
  let ln_outcomes := log (f64_of_Z num_outcomes) in
  if f64_le ln_outcomes f64_zero then DEFAULT_MARKET_BETA else
  f64_div (f64_of_Z liquidity_sats) ln_outcomes.

End Lmsr.
End Trading.

(** ** The outcome space *)

Section OutcomeSpaceFacts.
Import OutcomeSpace.

(** A combination picks one value in every dimension. *)
Definition in_dims (combo dims : list Z) : Prop :=
  Forall2 (fun v d => 0 ≤ v < d) combo dims.

Lemma elem_of_extend_combos acc d c :
  c ∈ extend_combos acc d ↔ ∃ c0 v, c = c0 ++ [v] ∧ c0 ∈ acc ∧ 0 ≤ v < d.
Proof.
  unfold extend_combos. rewrite list_elem_of_In, in_flat_map. split.
  - intros (c0 & Hc0 & (v & <- & Hv)%in_map_iff). exists c0, v.
    apply list_elem_of_In in Hc0, Hv. by rewrite elem_of_range in Hv.
  - intros (c0 & v & -> & Hc0 & Hv). exists c0. split; [by apply list_elem_of_In|].
    apply in_map_iff. exists v. rewrite <- list_elem_of_In. by rewrite elem_of_range.
Qed.

Lemma in_dims_snoc c v dims d :
  in_dims (c ++ [v]) (dims ++ [d]) ↔ in_dims c dims ∧ 0 ≤ v < d.
Proof.
  unfold in_dims. split.
  - intros H. assert (length c = length dims) as Hl
      by (apply Forall2_length in H; rewrite !length_app in H; simpl in H; lia).
    apply Forall2_app_inv in H as [? Hv]; [|done]. by inversion Hv.
  - intros [H Hv]. apply Forall2_app; [done|]. constructor; [done|constructor].
Qed.

Lemma cartesian_product_foldl dims : cartesian_product dims = foldl extend_combos [[]] dims.
Proof. by destruct dims. Qed.

Lemma elem_of_cartesian dims c : c ∈ cartesian_product dims ↔ in_dims c dims.
Proof.
  rewrite cartesian_product_foldl. revert c.
  induction dims as [|d dims IH] using rev_ind; intros c.
  - simpl. rewrite list_elem_of_singleton. unfold in_dims. split; [intros ->; constructor|].
    by inversion 1.
  - rewrite foldl_snoc, elem_of_extend_combos. split.
    + intros (c0 & v & -> & ?%IH & ?). by apply in_dims_snoc.
    + intros H. destruct c as [|v c _] using rev_ind.
      { apply Forall2_length in H. rewrite length_app in H. simpl in H. lia. }
      apply in_dims_snoc in H as [? ?]. exists c, v. by rewrite IH.
Qed.

Lemma extend_combos_NoDup acc d : NoDup acc → NoDup (extend_combos acc d).
Proof.
  unfold extend_combos. induction 1 as [|c acc Hc Hacc IH]; simpl; [constructor|].
  apply NoDup_app. split_and!; [|intros x Hx Hin|done].
  - apply NoDup_fmap_2; [|apply range_NoDup]. intros v v' [_ ?]%app_inj_2; [congruence|done].
  - apply list_elem_of_fmap in Hx as (v & -> & _).
    apply (elem_of_extend_combos acc d) in Hin as (c0 & v0 & [-> _]%app_inj_2 & ? & _); done.
Qed.

Lemma extend_combos_length acc d :
  length (extend_combos acc d) = (length acc * Z.to_nat d)%nat.
Proof.
  unfold extend_combos. induction acc as [|c acc IH]; [done|]. simpl.
  by rewrite length_app, IH, length_map, range_length, Z.sub_0_r.
Qed.

Lemma foldl_extend_length dims acc n :
  Forall (fun d => 0 ≤ d) dims →
  checked_product (Z.of_nat (length acc)) dims = Some n →
  Z.of_nat (length (foldl extend_combos acc dims)) = n.
Proof.
  intros Hd. revert acc. induction Hd as [|d dims Hd _ IH]; intros acc; simpl; [by intros [= ->]|].
  intros H. destruct (checked_mul_u64 _ d) as [m|] eqn:Em; [|discriminate]. simpl in H.
  unfold checked_mul_u64 in Em. case_match; [|discriminate]. injection Em as <-.
  apply IH. rewrite extend_combos_length. by rewrite Nat2Z.inj_mul, Z2Nat.id.
Qed.

Lemma cartesian_NoDup dims : NoDup (cartesian_product dims).
Proof.
  rewrite cartesian_product_foldl. induction dims as [|d dims IH] using rev_ind.
  - apply NoDup_singleton.
  - rewrite foldl_snoc. by apply extend_combos_NoDup.
Qed.

Lemma cartesian_length dims n :
  Forall (fun d => 0 ≤ d) dims → outcome_space_size dims = Some n →
  Z.of_nat (length (cartesian_product dims)) = n.
Proof. intros. rewrite cartesian_product_foldl. by apply foldl_extend_length. Qed.

(** The outcome combinations of a market.  The product enumerates exactly
    the combinations that pick a value below the size of each dimension, each
    once, and where the checked size does not overflow it is their number. *)
Theorem cartesian_product_spec dims n :
  Forall (fun d => 0 ≤ d) dims → outcome_space_size dims = Some n →
  (∀ combo, combo ∈ cartesian_product dims ↔ in_dims combo dims) ∧
  NoDup (cartesian_product dims) ∧ Z.of_nat (length (cartesian_product dims)) = n.
Proof.
  intros Hd Hn.
  split_and!; [apply elem_of_cartesian|apply cartesian_NoDup|by apply cartesian_length].
Qed.

Lemma cartesian_product_spec_witness :
  (∀ combo, combo ∈ cartesian_product [3; 2; 4] ↔ in_dims combo [3; 2; 4]) ∧
  NoDup (cartesian_product [3; 2; 4]) ∧
  Z.of_nat (length (cartesian_product [3; 2; 4])) = 24.
Proof.
  apply (cartesian_product_spec [3; 2; 4] 24); [repeat constructor; lia|vm_compute; reflexivity].
Defined.

End OutcomeSpaceFacts.

(** ** Trades *)

Section TradingFacts.
Import Trading.

Lemma buy_cost_facts x pct c :
  calculate_buy_cost x pct = Ok c →
  to_sats x Up = Ok (base_cost_sats c) ∧ MIN_TRADING_FEE_SATS ≤ buy_trading_fee_sats c ∧
  total_cost_sats c = as_u64 (base_cost_sats c + buy_trading_fee_sats c).
Proof. unfold calculate_buy_cost. intros H. inv_ok. simpl. split_and!; [done|lia|done]. Qed.

Lemma sell_proceeds_facts x pct p :
  calculate_sell_proceeds x pct = Ok p →
  to_sats x Down = Ok (gross_proceeds_sats p) ∧ MIN_TRADING_FEE_SATS ≤ sell_trading_fee_sats p ∧
  gross_proceeds_sats p = net_proceeds_sats p + sell_trading_fee_sats p ∧
  0 ≤ net_proceeds_sats p.
Proof.
  unfold calculate_sell_proceeds. intros H. inv_ok. case_match; inv_ok. simpl.
  split_and!; [done|lia..].
Qed.

Lemma to_sats_down_up x n k :
  f64_valid x = true → to_sats x Down = Ok n → to_sats x Up = Ok k → n ≤ k ≤ n + 1.
Proof.
  intros Hv. rewrite !to_sats_eq by done.
  destruct (negb (is_finite x)); [discriminate|]. destruct (f64_lt x f64_zero) eqn:Hlt; [discriminate|].
  repeat case_match; try discriminate. intros [= <-] [= <-].
  destruct x as [| | |[] m e]; simpl; [lia..|discriminate Hlt|].
  pose proof (spec_round_rounds_to Down m e) as Hd.
  pose proof (spec_round_rounds_to Up m e) as Hu. unfold rounds_to in Hd, Hu. simpl in Hd, Hu.
  assert (0 < 2 ^ Z.max (- e) 0) as HP by lia. nia.
Qed.

(** A trade never creates satoshis by rounding.  For the same LMSR amount
    the buyer pays the rounded-up base plus the fee, the seller gets the
    rounded-down gross less the same fee, the base and the gross are at most
    one satoshi apart with the base above, and a buy followed by a sell of the
    same amount costs the trader at least two minimum fees. *)
Theorem trade_rounding_favours_market x pct c p :
  f64_valid x = true →
  calculate_buy_cost x pct = Ok c → calculate_sell_proceeds x pct = Ok p →
  base_cost_sats c + buy_trading_fee_sats c ≤ U64_MAX →
  total_cost_sats c = base_cost_sats c + buy_trading_fee_sats c ∧
  gross_proceeds_sats p = net_proceeds_sats p + sell_trading_fee_sats p ∧
  buy_trading_fee_sats c = sell_trading_fee_sats p ∧
  gross_proceeds_sats p ≤ base_cost_sats c ≤ gross_proceeds_sats p + 1 ∧
  0 ≤ net_proceeds_sats p ∧
  2 * MIN_TRADING_FEE_SATS ≤ total_cost_sats c - net_proceeds_sats p.
Proof.
  intros Hv Hc Hp Hov.
  pose proof (buy_cost_facts _ _ _ Hc) as (Hb & Hbf & Ht).
  pose proof (sell_proceeds_facts _ _ _ Hp) as (Hg & Hsf & Hn & Hn0).
  pose proof (to_sats_down_up _ _ _ Hv Hg Hb) as Hle.
  pose proof (to_sats_range _ _ _ Hb) as Hr. unfold is_u64 in Hr.
  rewrite as_u64_small in Ht by (unfold is_u64, MIN_TRADING_FEE_SATS in *; lia).
  assert (buy_trading_fee_sats c = sell_trading_fee_sats p) as Hfee.
  { unfold calculate_buy_cost in Hc. unfold calculate_sell_proceeds in Hp. inv_ok.
    case_match; inv_ok. by rewrite <- Hc, <- Hp. }
  lia.
Qed.

(** An LMSR amount of [100000.5] satoshis and a fee of 2%. *)
Lemma trade_rounding_favours_market_witness :
  let x := f64_dec 1000005 1 in
  let pct := f64_dec 2 2 in
  let c := {| base_cost_sats := 100001; buy_trading_fee_sats := 2000; total_cost_sats := 102001 |} in
  let p := {| gross_proceeds_sats := 100000; sell_trading_fee_sats := 2000;
              net_proceeds_sats := 98000 |} in
  calculate_buy_cost x pct = Ok c ∧ calculate_sell_proceeds x pct = Ok p ∧
  2 * MIN_TRADING_FEE_SATS ≤ total_cost_sats c - net_proceeds_sats p.
Proof.
  intros x pct c p.
  assert (calculate_buy_cost x pct = Ok c) as Hc by (vm_compute; reflexivity).
  assert (calculate_sell_proceeds x pct = Ok p) as Hp by (vm_compute; reflexivity).
  split_and!; [exact Hc|exact Hp|].
  apply (trade_rounding_favours_market x pct c p);
    [vm_compute; reflexivity|exact Hc|exact Hp|vm_compute; discriminate].
Defined.

End TradingFacts.
