(* ===== verification/StateErrors.v ===== *)
(** * Identifiers and errors of the state

    The byte identifiers that key the databases and the error values the state
    functions return (src/lib/state/error.rs, src/lib/state/markets/types.rs,
    src/lib/types/transaction/mod.rs).
    A [reason: String] is carried as a short tag: the prose of a message is not
    modelled, only which guard produced it. *)

From stdpp Require Import base numbers list strings gmap countable.
From S2P Require Import Prelude Float64 SafeMath.

(** A byte is a [Z]; fixed-size arrays are lists of bytes. *)
Definition bytes : Type := list Z.
#[export] Instance bytes_eq_dec : EqDecision bytes.
Proof. unfold bytes. apply _. Defined.
#[export] Instance bytes_countable : Countable bytes.
Proof. unfold bytes. apply _. Defined.

Definition bytes_cmp (a b : bytes) : comparison := lex_cmp Z.compare a b.

Abbreviation Address := bytes (only parsing).
Abbreviation Txid := bytes (only parsing).
Abbreviation MarketId := bytes (only parsing).

(** [DecisionId([u8; 3])]. *)
Record DecisionId : Type := { byte0 : Z; byte1 : Z; byte2 : Z }.

#[export] Instance DecisionId_eq_dec : EqDecision DecisionId.
Proof. solve_decision. Defined.
#[export] Instance DecisionId_countable : Countable DecisionId.
Proof.
  apply (inj_countable' (fun d => (byte0 d, byte1 d, byte2 d))
           (fun '(a, b, c) => {| byte0 := a; byte1 := b; byte2 := c |})).
  by intros [].
Defined.

(** The derived order: the bytes, most significant first. *)
Definition DecisionId_cmp (a b : DecisionId) : comparison :=
  then_cmp (byte0 a ?= byte0 b) (then_cmp (byte1 a ?= byte1 b) (byte2 a ?= byte2 b)).

(** [OutPoint], with its fields in the order of the source. *)
Inductive OutPoint : Type :=
| OpRegular (txid : Txid) (vout : Z)
| OpCoinbase (txid : bytes) (vout : Z)
| OpDeposit (txid : bytes) (vout : Z)
| OpMarketFunds (market_id : MarketId) (block_height : Z) (is_fee : bool)
| OpPayout (hash : bytes) (vout : Z).

#[export] Instance OutPoint_eq_dec : EqDecision OutPoint.
Proof. solve_decision. Defined.
#[export] Instance OutPoint_countable : Countable OutPoint.
Proof.
  apply (inj_countable'
    (fun o => match o with
       | OpRegular t v => (0, t, v, false)
       | OpCoinbase t v => (1, t, v, false)
       | OpDeposit t v => (2, t, v, false)
       | OpMarketFunds m h f => (3, m, h, f)
       | OpPayout t v => (4, t, v, false)
       end)
    (fun '(k, t, v, f) => match k with
       | 0 => OpRegular t v
       | 1 => OpCoinbase t v
       | 2 => OpDeposit t v
       | 3 => OpMarketFunds t v f
       | _ => OpPayout t v
       end)).
  by intros [].
Defined.

Inductive MarketState : Type := Trading | Cancelled | MarketInvalid | Settled.
#[export] Instance MarketState_eq_dec : EqDecision MarketState.
Proof. solve_decision. Defined.
#[export] Instance MarketState_countable : Countable MarketState.
Proof.
  apply (inj_countable'
    (fun s => match s with Trading => 0 | Cancelled => 1 | MarketInvalid => 2 | Settled => 3 end)
    (fun z => match z with 0 => Trading | 1 => Cancelled | 2 => MarketInvalid | _ => Settled end)).
  by intros [].
Defined.

Inductive MarketError : Type :=
| InvalidDimensions
| TooManyStates (n : Z)
| InvalidOutcomeIndex (n : Z)
| InvalidStateTransition (from to : MarketState)
| MarketNotFound (id : MarketId)
| DecisionNotFound (decision_id : DecisionId)
| DecisionValidationFailed (decision_id : DecisionId)
| InvalidOutcomeCombination
| DuplicateDecision (decision_id : DecisionId)
| MarketDatabaseError (reason : string).

(** The constructors of [state::Error] the modelled code returns; [Panicked] is
    not one of them but the end of a thread that panics. *)
Inductive Error : Type :=
| Market (e : MarketError)
| InvalidScaled (reason : string)
| InvalidDecisionId (reason : string)
| InvalidDecisionState (reason : string)
| InvalidTransaction (reason : string)
| InvalidVoteValue (reason : string)
| DecisionAlreadyClaimed (decision_id : DecisionId)
| DecisionNotAvailable (decision_id : DecisionId) (reason : string)
| DatabaseError (reason : string)
| NotEnoughFees
| NotEnoughValueIn
| NoTip
| NoUtxo (outpoint : OutPoint)
| NoStxo (outpoint : OutPoint)
| UtxoDoubleSpent
| FillTxOutputContents
| BadCoinbaseOutputContent
| DuplicateDecisionClaim (id : bytes)
| ConsensusNotYetCalculated (period : Z)
| ConsensusConservationViolation (pre_sum post_sum drift : f64)
| ReputationAnchorViolation (total anchor drift : f64)
| UnknownWithdrawalBundle (m6id : bytes)
| UnknownWithdrawalBundleConfirmed (event_block_hash m6id : bytes)
| UnknownWithdrawalBundleReconfirmed (event_block_hash m6id : bytes)
| UnexpectedWithdrawalBundleInsolvency (event_block_hash m6id : bytes) (outpoint : OutPoint)
| BundleTooHeavy (weight max_weight : Z)
| NoWithdrawalBundleEventBlock
| NoDepositBlock
| AmountOverflowed
| AuthorizationError
| WrongPubKeyForAddress
| BodyTooLarge
| InvalidHeaderPrevSideHash (expected received : option bytes)
| InvalidHeaderBlockHash (expected computed : bytes)
| InvalidBody (expected computed : bytes)
| SpendWithdrawalOutput (outpoint : OutPoint)
| ArchiveFailed
| Panicked (what : string).

(** ** Tables

    An LMDB table is a finite map.  A cursor visits the keys in the byte order
    of their encoding: [u32] keys are little-endian, the other keys are byte
    arrays. *)

(** The little-endian bytes of a [u32]. *)
Definition le_bytes (z : Z) : bytes :=
  [z mod 256; z / 256 mod 256; z / 65536 mod 256; z / 16777216 mod 256].
Definition u32_key_cmp (a b : Z) : comparison := bytes_cmp (le_bytes a) (le_bytes b).

Definition db_iter {K V} `{Countable K} (cmp : K → K → comparison) (m : gmap K V)
  : list (K * V) :=
  sort_by (fun a b => cmp a.1 b.1) (map_to_list m).

(** Loops that delete the keys of a list, or write one value under them. *)
Lemma foldl_delete_lookup {K V} `{Countable K} (l : list K) (m : gmap K V) k :
  foldl (fun m p => delete p m) m l !! k = if bool_decide (k ∈ l) then None else m !! k.
Proof.
  revert m. induction l as [|p l IH]; intros m; simpl; [done|]. rewrite IH.
  destruct (decide (k = p)) as [->|Hne].
  - rewrite lookup_delete_eq. by repeat case_bool_decide; set_solver.
  - rewrite lookup_delete_ne by done. repeat case_bool_decide; set_solver.
Qed.

Lemma foldl_insert_const_lookup {K V} `{Countable K} (v : V) (l : list K) (m : gmap K V) k :
  foldl (fun m p => <[p := v]> m) m l !! k = if bool_decide (k ∈ l) then Some v else m !! k.
Proof.
  revert m. induction l as [|p l IH]; intros m; simpl; [done|]. rewrite IH.
  destruct (decide (k = p)) as [->|Hne].
  - rewrite lookup_insert_eq. repeat case_bool_decide; set_solver.
  - rewrite lookup_insert_ne by done. repeat case_bool_decide; set_solver.
Qed.

Lemma elem_of_db_iter {K V} `{Countable K} cmp (m : gmap K V) k v :
  (k, v) ∈ db_iter cmp m ↔ m !! k = Some v.
Proof. unfold db_iter. rewrite sort_by_perm. apply elem_of_map_to_list. Qed.

Lemma db_iter_keys_NoDup {K V} `{Countable K} cmp (m : gmap K V) :
  NoDup (db_iter cmp m).*1.
Proof. unfold db_iter. rewrite sort_by_perm. apply NoDup_fst_map_to_list. Qed.

Lemma list_to_map_db_iter {K V} `{Countable K} cmp (m : gmap K V) :
  list_to_map (db_iter cmp m) = m.
Proof.
  rewrite <- (list_to_map_to_list m) at 2. apply list_to_map_proper.
  - apply db_iter_keys_NoDup.
  - unfold db_iter. apply sort_by_perm.
Qed.

(** The byte order is total. *)
Lemma lex_cmp_gt (l k : list Z) : lex_cmp Z.compare l k = Gt → lex_cmp Z.compare k l = Lt.
Proof.
  revert k. induction l as [|a l IH]; intros [|b k]; simpl; try done.
  unfold then_cmp. destruct (Z.compare_spec a b), (Z.compare_spec b a); try done; try lia. apply IH.
Qed.

Lemma lex_cmp_trans (l k m : list Z) :
  lex_cmp Z.compare l k ≠ Gt → lex_cmp Z.compare k m ≠ Gt → lex_cmp Z.compare l m ≠ Gt.
Proof.
  revert k m. induction l as [|a l IH]; intros [|b k] [|c m]; simpl; try done.
  unfold then_cmp.
  destruct (Z.compare_spec a b), (Z.compare_spec b c), (Z.compare_spec a c); try done; try lia.
  apply IH.
Qed.

#[export] Instance bytes_cmp_total {A} (f : A → bytes) : TotalCmp (fun a b => bytes_cmp (f a) (f b)).
Proof.
  unfold bytes_cmp. split.
  - intros x y z. apply lex_cmp_trans.
  - intros x y H. by rewrite (lex_cmp_gt _ _ H).
Qed.
