(* ===== verification/DecisionTypes.v ===== *)
(** * Decisions (src/lib/state/decisions/types.rs)

    The packed three-byte decision id, the decision with its type and the
    normalisation of votes, the life cycle of a decision and the history that
    a reorganisation rolls back. *)

From stdpp Require Import base numbers list strings gmap sorting.
From Stdlib Require Import Ascii.
From S2P Require Import Prelude Float64 SafeMath StateErrors.

(** ** Decision ids *)

Definition MAX_PERIOD_INDEX : Z := Z.shiftl 1 7 - 1.
Definition MAX_DECISION_INDEX : Z := Z.shiftl 1 16 - 1.
Definition STANDARD_BIT : Z := 23.
Definition PERIOD_SHIFT : Z := 16.
Definition PERIOD_MASK : Z := 0x7F.
Definition DECISION_MASK : Z := MAX_DECISION_INDEX.

Definition validate_decision_bounds (period index : Z) : result Error unit :=
  if MAX_PERIOD_INDEX <? period then Err (InvalidDecisionId "period exceeds maximum")
  else if MAX_DECISION_INDEX <? index then Err (InvalidDecisionId "index exceeds maximum")
  else Ok tt.

Definition DecisionId_as_u32 (id : DecisionId) : Z :=
  Z.lor (Z.lor (Z.shiftl (byte0 id) 16) (Z.shiftl (byte1 id) 8)) (byte2 id).

Definition DecisionId_new (is_standard : bool) (period index : Z) : result Error DecisionId :=
  _ ← validate_decision_bounds period index;
  let standard_bit := if is_standard then 1 else 0 in
  let combined := Z.lor (Z.lor (as_u32 (Z.shiftl standard_bit STANDARD_BIT))
                               (as_u32 (Z.shiftl period PERIOD_SHIFT))) index in
  Ok {| byte0 := as_u8 (Z.shiftr combined 16);
        byte1 := as_u8 (Z.shiftr combined 8);
        byte2 := as_u8 combined |}.

Definition is_standard (id : DecisionId) : bool :=
  Z.land (Z.shiftr (DecisionId_as_u32 id) STANDARD_BIT) 1 =? 1.

Definition period_index (id : DecisionId) : Z :=
  Z.land (Z.shiftr (DecisionId_as_u32 id) PERIOD_SHIFT) PERIOD_MASK.

Definition decision_index (id : DecisionId) : Z :=
  Z.land (DecisionId_as_u32 id) DECISION_MASK.

Definition as_bytes (id : DecisionId) : bytes := [byte0 id; byte1 id; byte2 id].

(** The argument has type [[u8; 3]]. *)
Definition from_bytes (b0 b1 b2 : Z) : result Error DecisionId :=
  let id := {| byte0 := b0; byte1 := b1; byte2 := b2 |} in
  _ ← validate_decision_bounds (period_index id) (decision_index id);
  Ok id.

Definition voting_period (id : DecisionId) : Z := period_index id + 1.

(** [char::to_digit(16)]. *)
Definition hex_digit_value (c : ascii) : option Z :=
  let n := Z.of_N (N_of_ascii c) in
  if (48 <=? n) && (n <=? 57) then Some (n - 48)
  else if (97 <=? n) && (n <=? 102) then Some (n - 87)
  else if (65 <=? n) && (n <=? 70) then Some (n - 55)
  else None.

(** [u8::from_str_radix(s, 16)] on a two-character string: a leading plus sign
    is accepted. *)
Definition parse_hex_pair (c d : ascii) : option Z :=
  if Ascii.eqb c "+"%char then hex_digit_value d
  else hi ← hex_digit_value c; lo ← hex_digit_value d; Some (16 * hi + lo).

Definition from_hex (hex_str : string) : result Error DecisionId :=
  match String.list_ascii_of_string hex_str with
  | [c0; c1; c2; c3; c4; c5] =>
      b0 ← ok_or (parse_hex_pair c0 c1) (InvalidDecisionId "hex format");
      b1 ← ok_or (parse_hex_pair c2 c3) (InvalidDecisionId "hex format");
      b2 ← ok_or (parse_hex_pair c4 c5) (InvalidDecisionId "hex format");
      from_bytes b0 b1 b2
  | _ => Err (InvalidDecisionId "hex length")
  end.

(** [const_hex::encode] is a parameter of [to_hex]. *)
Definition to_hex (hex_encode : bytes → string) (id : DecisionId) : string :=
  hex_encode (as_bytes id).

(** ** Decisions *)

Inductive DecisionType : Type :=
| Binary
| Scaled (min max increment : f64)
| Category (options : list string).

Definition is_step_aligned (delta step : f64) : bool :=
  let k := f64_round (f64_div delta step) in
  let tolerance := f64_max (f64_mul (f64_abs step) (f64_dec 1 9)) (f64_dec 1 12) in
  f64_le (f64_abs (f64_sub delta (f64_mul k step))) tolerance.

Definition DecisionType_cmp (a b : DecisionType) : comparison :=
  match a, b with
  | Binary, Binary => Eq
  | Scaled a b c, Scaled d e f =>
      then_cmp (then_cmp (f64_total_cmp a d) (f64_total_cmp b e)) (f64_total_cmp c f)
  | Category a, Category b => lex_cmp String.compare a b
  | Binary, _ => Lt
  | _, Binary => Gt
  | Scaled _ _ _, _ => Lt
  | _, Scaled _ _ _ => Gt
  end.

Record Decision : Type := {
  market_maker_pubkey_hash : bytes;
  decision_type : DecisionType;
  header : string;
  description : string;
  option_0_label : option string;
  option_1_label : option string;
  tags : list string
}.

(** The derived order of [Decision]: field by field. *)
Definition Decision_cmp (a b : Decision) : comparison :=
  then_cmp (bytes_cmp (market_maker_pubkey_hash a) (market_maker_pubkey_hash b))
  (then_cmp (DecisionType_cmp (decision_type a) (decision_type b))
  (then_cmp (String.compare (header a) (header b))
  (then_cmp (String.compare (description a) (description b))
  (then_cmp (option_cmp String.compare (option_0_label a) (option_0_label b))
  (then_cmp (option_cmp String.compare (option_1_label a) (option_1_label b))
            (lex_cmp String.compare (tags a) (tags b))))))).

Definition str_len (s : string) : Z := Z.of_nat (String.length s).

Definition validate_decision_type (t : DecisionType) : result Error unit :=
  match t with
  | Binary => Ok tt
  | Scaled min max increment =>
      if negb (is_finite min) || negb (is_finite max) || negb (is_finite increment)
         || f64_ge min max || f64_le increment f64_zero
      then Err (InvalidScaled "invalid bounds")
      else if negb (is_step_aligned (f64_sub max min) increment)
      then Err (InvalidScaled "not an integer multiple")
      else Ok tt
  | Category options =>
      if Z.of_nat (length options) <? 2
      then Err (InvalidDecisionId "Category decisions require at least 2 options")
      else Ok tt
  end.

Definition Decision_new (hash : bytes) (t : DecisionType) (header description : string)
  (label0 label1 : option string) (tags : list string) : result Error Decision :=
  _ ← bail_if (100 <? str_len header) (InvalidDecisionId "header");
  _ ← bail_if (2000 <? str_len description) (InvalidDecisionId "description");
  _ ← bail_if (10 <? Z.of_nat (length tags)) (InvalidDecisionId "tags");
  _ ← bail_if (existsb (fun tag => 50 <? str_len tag) tags) (InvalidDecisionId "tag");
  _ ← validate_decision_type t;
  Ok {| market_maker_pubkey_hash := hash; decision_type := t; header := header;
        description := description; option_0_label := label0; option_1_label := label1;
        tags := tags |}.

Definition is_scaled (d : Decision) : bool :=
  match decision_type d with Scaled _ _ _ => true | _ => false end.
Definition is_categorical (d : Decision) : bool :=
  match decision_type d with Category _ => true | _ => false end.
Definition option_count (d : Decision) : option Z :=
  match decision_type d with
  | Category options => Some (Z.of_nat (length options))
  | _ => None
  end.
Definition inconclusive_index (d : Decision) : option Z := as_u16 <$> option_count d.

Definition normalize_value (d : Decision) (user_value : f64) : f64 :=
  if is_nan user_value then user_value else
  match decision_type d with
  | Scaled min max _ =>
      let range := f64_sub max min in
      if f64_eq range f64_zero then f64_half
      else f64_div (f64_sub user_value min) range
  | Binary | Category _ => user_value
  end.

Definition denormalize_value (d : Decision) (internal_value : f64) : f64 :=
  if is_nan internal_value then internal_value else
  match decision_type d with
  | Scaled min max _ =>
      let range := f64_sub max min in
      f64_add (f64_mul internal_value range) min
  | Binary | Category _ => internal_value
  end.

Definition validate_and_normalize (d : Decision) (user_value : f64) : result Error f64 :=
  if is_nan user_value then Ok user_value else
  _ ← match decision_type d with
      | Scaled min max increment =>
          if f64_lt user_value min || f64_gt user_value max
          then Err (InvalidVoteValue "outside allowed range")
          else if negb (is_step_aligned (f64_sub user_value min) increment)
          then Err (InvalidVoteValue "not a multiple of increment")
          else Ok tt
      | Binary =>
          if negb (f64_le f64_zero user_value && f64_le user_value f64_one)
          then Err (InvalidVoteValue "binary range") else Ok tt
      | Category options =>
          let idx := f64_as_usize user_value in
          if f64_lt user_value f64_zero || negb (f64_eq user_value (f64_of_Z idx))
             || (Z.of_nat (length options) <? idx)
          then Err (InvalidVoteValue "category range") else Ok tt
      end;
  Ok (normalize_value d user_value).

Definition get_display_range (d : Decision) : f64 * f64 :=
  match decision_type d with
  | Scaled min max _ => (min, max)
  | Binary => (f64_zero, f64_one)
  | Category options => (f64_zero, f64_of_Z (Z.of_nat (length options)))
  end.

(** ** Life cycle *)

Inductive DecisionState : Type := Created | Claimed | Voting | Resolved | Invalid.
#[export] Instance DecisionState_eq_dec : EqDecision DecisionState.
Proof. solve_decision. Defined.

Definition can_transition_to (s new_state : DecisionState) : bool :=
  match s, new_state with
  | Claimed, Voting | Voting, Resolved | _, Invalid => true
  | _, _ => false
  end.

(** [state_history: Vec<(DecisionState, u32, Option<f64>)>]. *)
Abbreviation DecisionStateHistory := (list (DecisionState * Z * option f64)) (only parsing).

Definition new_claimed (height : Z) : DecisionStateHistory := [(Claimed, height, None)].

Definition current_state (h : DecisionStateHistory) : DecisionState :=
  match last h with Some (s, _, _) => s | None => Created end.

Definition transition_to_voting (h : DecisionStateHistory) (height : Z)
  : result Error DecisionStateHistory :=
  if negb (can_transition_to (current_state h) Voting)
  then Err (InvalidDecisionState "Cannot transition to Voting")
  else Ok (h ++ [(Voting, height, None)]).

Definition transition_to_resolved (h : DecisionStateHistory) (consensus_outcome : f64) (height : Z)
  : result Error DecisionStateHistory :=
  if negb (can_transition_to (current_state h) Resolved)
  then Err (InvalidDecisionState "Cannot transition to Resolved")
  else if f64_lt consensus_outcome (f64_neg f64_one)
  then Err (InvalidDecisionState "Consensus outcome is invalid")
  else Ok (h ++ [(Resolved, height, Some consensus_outcome)]).

Definition history_can_accept_votes (h : DecisionStateHistory) : bool :=
  bool_decide (current_state h = Voting).

Definition history_has_consensus (h : DecisionStateHistory) : bool :=
  bool_decide (current_state h = Resolved).

Definition consensus_outcome (h : DecisionStateHistory) : option f64 :=
  e ← List.find (fun e => bool_decide (e.1.1 = Resolved)) h; e.2.

Definition has_reached_state (h : DecisionStateHistory) (s : DecisionState) : bool :=
  existsb (fun e => bool_decide (e.1.1 = s)) h.

Definition state_at_height (h : DecisionStateHistory) (height : Z) : DecisionState :=
  match List.find (fun e => e.1.2 <=? height) (rev h) with
  | Some (s, _, _) => s
  | None => Created
  end.

Definition rollback_to_height (h : DecisionStateHistory) (height : Z) : DecisionStateHistory :=
  filter (fun e => e.1.2 <=? height = true) h.

Definition get_state_height (h : DecisionStateHistory) (s : DecisionState) : option Z :=
  e ← List.find (fun e => bool_decide (e.1.1 = s)) h; Some e.1.2.

(** ** Entries and configuration *)

Record DecisionEntry : Type := {
  decision_id : DecisionId;
  decision : option Decision;
  claiming_txid : Txid
}.

Definition DecisionEntry_cmp (a b : DecisionEntry) : comparison :=
  then_cmp (DecisionId_cmp (decision_id a) (decision_id b))
  (then_cmp (option_cmp Decision_cmp (decision a) (decision b))
            (bytes_cmp (claiming_txid a) (claiming_txid b))).

Definition FUTURE_PERIODS : Z := 20.
Definition INITIAL_DECISIONS_PER_PERIOD : Z := 500.

Record DecisionConfig : Type := { is_blocks : bool; quantity : Z }.

Definition SECONDS_PER_QUARTER : Z := 3600 * 24 * 91.
Definition config_default : DecisionConfig := {| is_blocks := false; quantity := 86400 |}.
Definition config_production : DecisionConfig :=
  {| is_blocks := false; quantity := as_u32 SECONDS_PER_QUARTER |}.
Definition config_testing (blocks_per_period : Z) : DecisionConfig :=
  {| is_blocks := true; quantity := blocks_per_period |}.

(** ** Packing *)

Section Packing.

Definition wf_id (id : DecisionId) : Prop :=
  is_u8 (byte0 id) ∧ is_u8 (byte1 id) ∧ is_u8 (byte2 id).

Lemma DecisionId_as_u32_eq id :
  wf_id id → DecisionId_as_u32 id = byte0 id * 65536 + byte1 id * 256 + byte2 id.
Proof.
  intros (H0 & H1 & H2). unfold is_u8 in *. unfold DecisionId_as_u32.
  rewrite (Z.shiftl_mul_pow2 (byte1 id)) by lia.
  rewrite (lor_shiftl_add (byte0 id) 16 (byte1 id * 2 ^ 8)) by lia.
  replace (byte0 id * 2 ^ 16 + byte1 id * 2 ^ 8)
    with (Z.shiftl (byte0 id * 256 + byte1 id) 8) by (rewrite Z.shiftl_mul_pow2; lia).
  rewrite lor_shiftl_add by lia. lia.
Qed.

Lemma period_index_eq id :
  wf_id id → period_index id = byte0 id mod 128.
Proof.
  intros H. unfold period_index, PERIOD_SHIFT. change PERIOD_MASK with (2 ^ 7 - 1).
  rewrite land_ones_mod, DecisionId_as_u32_eq, Z.shiftr_div_pow2 by (done || lia).
  destruct H as (H0 & H1 & H2). unfold is_u8 in *. zify_div.
Qed.

Lemma decision_index_eq id :
  wf_id id → decision_index id = byte1 id * 256 + byte2 id.
Proof.
  intros H. unfold decision_index, DECISION_MASK. change MAX_DECISION_INDEX with (2 ^ 16 - 1).
  rewrite land_ones_mod, DecisionId_as_u32_eq by (done || lia).
  destruct H as (H0 & H1 & H2). unfold is_u8 in *. zify_div.
Qed.

Lemma is_standard_eq id : wf_id id → is_standard id = (128 <=? byte0 id).
Proof.
  intros H. unfold is_standard, STANDARD_BIT. change 1 with (2 ^ 1 - 1) at 1.
  rewrite land_ones_mod, DecisionId_as_u32_eq, Z.shiftr_div_pow2 by (done || lia).
  destruct H as (H0 & H1 & H2). unfold is_u8 in *.
  destruct (128 <=? byte0 id) eqn:E; [apply Z.eqb_eq|apply Z.eqb_neq]; zify_div.
Qed.

Lemma DecisionId_new_eq (s : bool) p i :
  0 ≤ p ≤ 127 → 0 ≤ i ≤ 65535 →
  DecisionId_new s p i =
    Ok {| byte0 := (if s then 128 else 0) + p; byte1 := i / 256; byte2 := i mod 256 |}.
Proof.
  intros Hp Hi. unfold DecisionId_new, validate_decision_bounds.
  change MAX_PERIOD_INDEX with 127. change MAX_DECISION_INDEX with 65535.
  replace (127 <? p) with false by lia. replace (65535 <? i) with false by lia. simpl mbind.
  unfold STANDARD_BIT, PERIOD_SHIFT. set (b := if s then 1 else 0).
  assert (0 ≤ b ≤ 1) by (subst b; destruct s; lia).
  rewrite !as_u32_small by (unfold is_u32; rewrite Z.shiftl_mul_pow2 by lia; lia).
  rewrite (Z.shiftl_mul_pow2 p) by lia. rewrite lor_shiftl_add by lia.
  replace (b * 2 ^ 23 + p * 2 ^ 16) with (Z.shiftl (b * 128 + p) 16)
    by (rewrite Z.shiftl_mul_pow2; lia).
  rewrite lor_shiftl_add by lia. rewrite !Z.shiftr_div_pow2 by lia.
  unfold as_u8, wrap_unsigned.
  do 2 f_equal; [|zify_div|zify_div].
  replace (if s then 128 else 0) with (b * 128) by (subst b; by destruct s). zify_div.
Qed.

(** A decision id packs a standard flag, a period below 128 and an index
    below 65536 into three bytes without loss: the accessors give the fields
    back, the bytes are accepted by [from_bytes], and two ids compare like the
    triples (flag, period, index). *)
Theorem decision_id_roundtrip s p i s' p' i' :
  0 ≤ p ≤ 127 → 0 ≤ i ≤ 65535 → 0 ≤ p' ≤ 127 → 0 ≤ i' ≤ 65535 →
  ∃ id id', DecisionId_new s p i = Ok id ∧ DecisionId_new s' p' i' = Ok id' ∧
    is_standard id = s ∧ period_index id = p ∧ decision_index id = i ∧
    from_bytes (byte0 id) (byte1 id) (byte2 id) = Ok id ∧
    DecisionId_cmp id id' =
      then_cmp (Bool.compare s s') (then_cmp (p ?= p') (i ?= i')).
Proof.
  intros Hp Hi Hp' Hi'. rewrite !DecisionId_new_eq by done.
  do 2 eexists. split; [reflexivity|]. split; [reflexivity|].
  assert (∀ (s : bool) p i, 0 ≤ p ≤ 127 → 0 ≤ i ≤ 65535 →
    wf_id {| byte0 := (if s then 128 else 0) + p; byte1 := i / 256; byte2 := i mod 256 |}) as Hwf.
  { intros [] ????; unfold wf_id, is_u8; simpl; zify_div. }
  pose proof (Hwf s p i Hp Hi) as W. unfold from_bytes. cbn [byte0 byte1 byte2].
  rewrite is_standard_eq, period_index_eq, decision_index_eq by done.
  cbn [byte0 byte1 byte2].
  unfold validate_decision_bounds. change MAX_PERIOD_INDEX with 127.
  change MAX_DECISION_INDEX with 65535.
  assert (((if s then 128 else 0) + p) mod 128 = p) as -> by (destruct s; zify_div).
  assert (i / 256 * 256 + i mod 256 = i) as -> by zify_div.
  replace (127 <? p) with false by lia. replace (65535 <? i) with false by lia.
  split_and!; [destruct s; lia|done|done|done|].
  unfold DecisionId_cmp. cbn [byte0 byte1 byte2].
  destruct s, s'; cbn [Bool.compare then_cmp]; destruct (Z.compare_spec p p');
    destruct (Z.compare_spec i i');
    repeat match goal with |- context [?a ?= ?b] => destruct (Z.compare_spec a b) end;
    cbn [then_cmp]; try reflexivity; exfalso; zify_div.
Qed.

Lemma decision_id_roundtrip_witness :
  ∃ id id', DecisionId_new true 5 307 = Ok id ∧ DecisionId_new true 6 2 = Ok id' ∧
    is_standard id = true ∧ period_index id = 5 ∧ decision_index id = 307 ∧
    from_bytes (byte0 id) (byte1 id) (byte2 id) = Ok id ∧ DecisionId_cmp id id' = Lt.
Proof. apply (decision_id_roundtrip true 5 307 true 6 2); lia. Defined.

(** The bounds [from_bytes] tests hold of every three bytes. *)
Lemma from_bytes_total b0 b1 b2 :
  is_u8 b0 → is_u8 b1 → is_u8 b2 →
  from_bytes b0 b1 b2 = Ok {| byte0 := b0; byte1 := b1; byte2 := b2 |}.
Proof.
  intros H0 H1 H2. unfold from_bytes.
  rewrite period_index_eq, decision_index_eq by done.
  cbn [byte0 byte1 byte2]. unfold is_u8 in *.
  unfold validate_decision_bounds. change MAX_PERIOD_INDEX with 127.
  change MAX_DECISION_INDEX with 65535.
  pose proof (Z.mod_pos_bound b0 128).
  replace (127 <? b0 mod 128) with false by lia.
  replace (65535 <? b1 * 256 + b2) with false by lia. done.
Qed.

Lemma period_index_range id : wf_id id → 0 ≤ period_index id ≤ 127.
Proof. intros H. rewrite period_index_eq by done. pose proof (Z.mod_pos_bound (byte0 id) 128). lia. Qed.

End Packing.

(** ** Hexadecimal *)

(** Lowercase hexadecimal, two digits per byte: what [const_hex::encode] is
    documented to produce. *)
Definition hex_digit (n : Z) : ascii :=
  ascii_of_N (Z.to_N (if n <? 10 then n + 48 else n + 87)).
Definition lower_hex (bs : bytes) : string :=
  String.string_of_list_ascii (flat_map (fun b => [hex_digit (b / 16); hex_digit (b mod 16)]) bs).

Section Hex.
Context (hex_encode : bytes → string).
Context (hex_encode_spec : ∀ bs, Forall is_u8 bs → hex_encode bs = lower_hex bs).

Lemma hex_digit_facts n :
  0 ≤ n < 16 → hex_digit_value (hex_digit n) = Some n ∧ Ascii.eqb (hex_digit n) "+" = false.
Proof.
  intros Hn. assert (n ∈ range 0 16) as Hin by (by apply elem_of_range).
  assert (Forall (fun n => hex_digit_value (hex_digit n) = Some n ∧
                           Ascii.eqb (hex_digit n) "+" = false) (range 0 16)) as Hall
    by (repeat (constructor; [split; vm_compute; reflexivity|]); constructor).
  rewrite Forall_forall in Hall. by apply Hall.
Qed.

Lemma parse_hex_pair_digits b :
  is_u8 b → parse_hex_pair (hex_digit (b / 16)) (hex_digit (b mod 16)) = Some b.
Proof.
  unfold is_u8. intros Hb.
  destruct (hex_digit_facts (b / 16)) as [H1 H1']; [zify_div|].
  destruct (hex_digit_facts (b mod 16)) as [H2 _]; [zify_div|].
  unfold parse_hex_pair. rewrite H1', H1, H2. simpl. f_equal. zify_div.
Qed.

(** Writing a decision id as hexadecimal and parsing it back gives the id,
    for every three bytes. *)
Theorem decision_id_hex_roundtrip id :
  wf_id id → from_hex (to_hex hex_encode id) = Ok id.
Proof.
  intros (H0 & H1 & H2). unfold to_hex, as_bytes. rewrite hex_encode_spec by (do 3 (constructor; [done|]); constructor).
  unfold from_hex, lower_hex. rewrite String.list_ascii_of_string_of_list_ascii.
  cbn [flat_map app]. rewrite !parse_hex_pair_digits by done. cbn [ok_or].
  unfold mbind, result_bind. rewrite from_bytes_total by done. by destruct id.
Qed.

End Hex.

Lemma decision_id_hex_roundtrip_witness :
  from_hex (to_hex lower_hex {| byte0 := 133; byte1 := 1; byte2 := 51 |})
  = Ok {| byte0 := 133; byte1 := 1; byte2 := 51 |} ∧
  to_hex lower_hex {| byte0 := 133; byte1 := 1; byte2 := 51 |} = "850133"%string.
Proof.
  split; [|vm_compute; reflexivity].
  apply (decision_id_hex_roundtrip lower_hex); [done|]. repeat split; simpl; lia.
Defined.

(** A string that is not hexadecimal is accepted: [from_str_radix] takes a
    leading plus sign in every byte. *)
Example from_hex_accepts_plus :
  from_hex "+1+2+3" = Ok {| byte0 := 1; byte1 := 2; byte2 := 3 |}.
Proof. vm_compute. reflexivity. Qed.

(** ** The life cycle *)

Section LifeCycle.

(** The transitions the block processing applies: heights only grow. *)
Inductive history_step : DecisionStateHistory → DecisionStateHistory → Prop :=
| step_voting h height h' :
    Forall (fun e => e.1.2 ≤ height) h →
    transition_to_voting h height = Ok h' → history_step h h'
| step_resolved h outcome height h' :
    Forall (fun e => e.1.2 ≤ height) h →
    transition_to_resolved h outcome height = Ok h' → history_step h h'.

Inductive reachable_history : DecisionStateHistory → Prop :=
| reach_claimed height : reachable_history (new_claimed height)
| reach_step h h' : reachable_history h → history_step h h' → reachable_history h'.

Lemma current_state_snoc h s height o : current_state (h ++ [(s, height, o)]) = s.
Proof. unfold current_state. by rewrite last_snoc. Qed.

(** A reachable history is one of three shapes. *)
Lemma reachable_shape h :
  reachable_history h →
  (∃ a, h = [(Claimed, a, None)]) ∨
  (∃ a b, a ≤ b ∧ h = [(Claimed, a, None); (Voting, b, None)]) ∨
  (∃ a b c o, a ≤ b ∧ b ≤ c ∧ f64_lt o (f64_neg f64_one) = false ∧
     h = [(Claimed, a, None); (Voting, b, None); (Resolved, c, Some o)]).
Proof.
  induction 1 as [a|h h' Hr IH Hs]; [by left; exists a|].
  destruct IH as [(a & ->)|[(a & b & Hab & ->)|(a & b & c & o & Hab & Hbc & Ho & ->)]];
    inversion Hs as [? height ? Hh Ht|? outcome height ? Hh Ht]; subst;
    unfold transition_to_voting, transition_to_resolved in Ht; simpl in Ht;
    try discriminate Ht.
  - injection Ht as <-. right. left. exists a, height. rewrite Forall_singleton in Hh. done.
  - destruct (f64_lt outcome _) eqn:Ho; [discriminate|]. injection Ht as <-.
    right. right. exists a, b, height, outcome.
    rewrite !Forall_cons in Hh. simpl in Hh. by destruct Hh as (_ & ? & _).
Qed.

(** The life cycle of a decision.  From its claim on, whatever transitions
    the blocks apply, a decision is claimed, then in voting, then resolved, in
    that order and each at most once, at heights that do not decrease; an
    outcome is recorded exactly when the decision is resolved, and it is never
    below -1. *)
Theorem history_lifecycle h :
  reachable_history h →
  (map (fun e => e.1.1) h) `prefix_of` [Claimed; Voting; Resolved] ∧ h ≠ [] ∧
  StronglySorted Z.le (map (fun e => e.1.2) h) ∧
  (history_has_consensus h = true ↔ is_Some (consensus_outcome h)) ∧
  (∀ o, consensus_outcome h = Some o → f64_lt o (f64_neg f64_one) = false) ∧
  (history_can_accept_votes h = true ↔ has_reached_state h Voting = true ∧
                                       has_reached_state h Resolved = false).
Proof.
  intros [(a & ->)|[(a & b & Hab & ->)|(a & b & c & o & Hab & Hbc & Ho & ->)]]%reachable_shape.
  - split_and!; [by exists [Voting; Resolved]|done|repeat constructor|..].
    + split; [done|intros [? [=]]].
    + intros o [=].
    + split; [done|by intros [? _]].
  - split_and!; [by exists [Resolved]|done|repeat constructor; simpl; lia|..].
    + split; [done|intros [? [=]]].
    + intros o [=].
    + done.
  - split_and!; [by exists []|done|repeat constructor; simpl; lia|..].
    + split; [intros _; by exists o|done].
    + by intros o' [= <-].
    + split; [done|by intros [_ ?]].
Qed.

Lemma history_lifecycle_witness :
  let h := [(Claimed, 3, None); (Voting, 7, None); (Resolved, 9, Some f64_one)] in
  reachable_history h ∧ history_has_consensus h = true ∧ is_Some (consensus_outcome h).
Proof.
  intros h.
  assert (reachable_history h) as Hr.
  { eapply reach_step; [eapply reach_step; [apply (reach_claimed 3)|]|].
    - eapply (step_voting _ 7); [repeat constructor; simpl; lia|vm_compute; reflexivity].
    - eapply (step_resolved _ f64_one 9);
        [repeat constructor; simpl; lia|vm_compute; reflexivity]. }
  split_and!; [exact Hr|vm_compute; reflexivity|].
  apply (history_lifecycle h Hr). vm_compute. reflexivity.
Defined.

Lemma find_last {A} (f : A → bool) (l : list A) :
  List.find f (rev l) = last (filter (fun x => f x = true) l).
Proof.
  induction l as [|x l IH] using rev_ind; [done|].
  rewrite rev_app_distr, filter_app. simpl. destruct (f x) eqn:E.
  - rewrite filter_cons_True, filter_nil by done. by rewrite last_snoc.
  - rewrite filter_cons_False, filter_nil by congruence. by rewrite app_nil_r.
Qed.

Lemma current_after_rollback h height :
  current_state (rollback_to_height h height) = state_at_height h height.
Proof.
  unfold state_at_height, rollback_to_height, current_state.
  by rewrite (find_last (fun e => e.1.2 <=? height)).
Qed.

Lemma rollback_rollback h a b :
  rollback_to_height (rollback_to_height h a) b = rollback_to_height h (Z.min a b).
Proof.
  unfold rollback_to_height. etrans; [apply list_filter_filter|]. apply list_filter_iff.
  intros e. rewrite !Z.leb_le. lia.
Qed.

(** A sequence of transitions, all above a height. *)
Inductive steps_above (height : Z) : DecisionStateHistory → DecisionStateHistory → Prop :=
| above_refl h : steps_above height h h
| above_voting h k h1 h2 :
    height < k → transition_to_voting h k = Ok h1 → steps_above height h1 h2 →
    steps_above height h h2
| above_resolved h o k h1 h2 :
    height < k → transition_to_resolved h o k = Ok h1 → steps_above height h1 h2 →
    steps_above height h h2.

Lemma rollback_snoc_above h s k o height :
  height < k → rollback_to_height (h ++ [(s, k, o)]) height = rollback_to_height h height.
Proof.
  intros Hk. unfold rollback_to_height. rewrite filter_app, filter_cons_False, app_nil_r; [done|].
  simpl. rewrite Z.leb_le. lia.
Qed.

(** A reorganisation restores a decision.  Rolling a history back to a
    height removes exactly the transitions applied above it, whatever they
    were; the state after the rollback is the one [state_at_height] reports;
    and rolling back block by block is rolling back at once. *)
Theorem rollback_undoes_transitions h h' height :
  Forall (fun e => e.1.2 ≤ height) h → steps_above height h h' →
  rollback_to_height h' height = h ∧
  current_state (rollback_to_height h' height) = state_at_height h' height ∧
  ∀ k, rollback_to_height (rollback_to_height h' (height + k)) height
       = rollback_to_height h' (Z.min (height + k) height).
Proof.
  intros Hh Hs. split; [|split; [apply current_after_rollback|intros; apply rollback_rollback]].
  assert (rollback_to_height h height = h) as Hid.
  { unfold rollback_to_height. apply list_filter_all.
    eapply Forall_impl; [exact Hh|]. intros e He. by apply Z.leb_le. }
  rewrite <- Hid. clear Hh Hid.
  induction Hs as [h|h k h1 h2 Hk Ht _ ->|h o k h1 h2 Hk Ht _ ->]; [done| |].
  - unfold transition_to_voting in Ht. case_match; inv_ok. by apply rollback_snoc_above.
  - unfold transition_to_resolved in Ht. repeat (case_match; inv_ok).
    by apply rollback_snoc_above.
Qed.

Lemma rollback_undoes_transitions_witness :
  let h := [(Claimed, 3, None)] in
  let h' := [(Claimed, 3, None); (Voting, 7, None); (Resolved, 9, Some f64_one)] in
  rollback_to_height h' 5 = h ∧ current_state (rollback_to_height h' 5) = state_at_height h' 5.
Proof.
  intros h h'.
  assert (Forall (fun e : DecisionState * Z * option f64 => e.1.2 ≤ 5) h) as Hh
    by (repeat constructor; simpl; lia).
  assert (steps_above 5 h h') as Hs.
  { eapply (above_voting _ _ 7); [lia|vm_compute; reflexivity|].
    eapply (above_resolved _ _ f64_one 9); [lia|vm_compute; reflexivity|]. apply above_refl. }
  destruct (rollback_undoes_transitions h h' 5 Hh Hs) as (H1 & H2 & _).
  split; [exact H1|exact H2].
Defined.

End LifeCycle.
