(* ===== verification/Periods.v ===== *)
(** * Periods (src/lib/state/voting/period_calculator.rs)

    The clock of the protocol: which period a block is in, the boundaries of a
    period and its status.  Time-mode configurations have a positive
    [quantity]; with a zero one the source panics on the division. *)

From stdpp Require Import base numbers list strings.
From S2P Require Import Prelude StateErrors DecisionTypes.

Definition get_current_period (timestamp : Z) (block_height : option Z) (genesis_ts : Z)
  (config : DecisionConfig) : result Error Z :=
  if is_blocks config then
    let height := default 0 block_height in
    Ok (default 0 ((fun v => as_u32 (v + 1)) <$> checked_div height (quantity config)))
  else if (genesis_ts =? 0) || (timestamp <? genesis_ts) then Ok 0
  else Ok (as_u32 (as_u32 ((timestamp - genesis_ts) / quantity config) + 1)).

Definition calculate_period_boundaries (period_index : Z) (config : DecisionConfig)
  (genesis_ts : Z) : Z * Z :=
  if is_blocks config then
    if period_index =? 0 then (0, 0)
    else (as_u32 ((period_index - 1) * quantity config), as_u32 (period_index * quantity config))
  else
    if period_index =? 0 then (0, 0)
    else
      let start := as_u64 (genesis_ts + as_u64 ((period_index - 1) * quantity config)) in
      (start, as_u64 (start + quantity config)).

Inductive VotingPeriodStatus : Type := Pending | Active | Closed | PeriodResolved.
#[export] Instance VotingPeriodStatus_eq_dec : EqDecision VotingPeriodStatus.
Proof. solve_decision. Defined.

Definition calculate_period_status (start_timestamp end_timestamp current_timestamp : Z)
  (has_outcomes : bool) : VotingPeriodStatus :=
  if has_outcomes then PeriodResolved
  else if end_timestamp <=? current_timestamp then Closed
  else if start_timestamp <=? current_timestamp then Active
  else Pending.

Record VotingPeriod : Type := {
  vp_id : Z;
  start_timestamp : Z;
  end_timestamp : Z;
  status : VotingPeriodStatus;
  decision_ids : list DecisionId
}.

Definition VotingPeriod_new (id start_ts end_ts : Z) (ids : list DecisionId) : VotingPeriod :=
  {| vp_id := id; start_timestamp := start_ts; end_timestamp := end_ts;
     status := Pending; decision_ids := ids |}.

Definition is_active (p : VotingPeriod) (current_timestamp : Z) : bool :=
  bool_decide (status p = Active) && (start_timestamp p <=? current_timestamp)
  && (current_timestamp <? end_timestamp p).

Definition validate_pending_to_active (p : VotingPeriod) (current_timestamp : Z)
  : result Error unit :=
  bail_if (current_timestamp <? start_timestamp p)
    (InvalidTransaction "Cannot activate period before start time").

Definition validate_active_to_closed (p : VotingPeriod) (current_timestamp : Z)
  : result Error unit :=
  bail_if (current_timestamp <? end_timestamp p)
    (InvalidTransaction "Cannot close period before end time").

Definition validate_transition (p : VotingPeriod) (new_status : VotingPeriodStatus)
  (current_timestamp : Z) : result Error unit :=
  match status p, new_status with
  | Pending, Active => validate_pending_to_active p current_timestamp
  | Active, Closed => validate_active_to_closed p current_timestamp
  | Closed, PeriodResolved => Ok tt
  | s, n => if bool_decide (s = n) then Ok tt
            else Err (InvalidTransaction "Invalid voting period state transition")
  end.

Definition can_accept_votes (p : VotingPeriod) : bool := bool_decide (status p = Active).

(** ** The clock *)

Section Clock.

(** What the clock reads in each mode, and when it has started. *)
Definition clock (config : DecisionConfig) (timestamp height : Z) : Z :=
  if is_blocks config then height else timestamp.
Definition origin (config : DecisionConfig) (genesis_ts : Z) : Z :=
  if is_blocks config then 0 else genesis_ts.

(** Inputs in the ranges of their types, with room for the products. *)
Record clock_ok (config : DecisionConfig) (ts height genesis : Z) : Prop := {
  ck_quantity : 0 < quantity config ≤ U32_MAX;
  ck_genesis : is_blocks config = false → 0 < genesis ≤ ts;
  ck_height : 0 ≤ height;
  ck_range : clock config ts height + quantity config
             ≤ if is_blocks config then U32_MAX else U64_MAX;
  ck_period : (clock config ts height - origin config genesis) / quantity config < U32_MAX
}.

Lemma current_period_eq config ts height genesis :
  clock_ok config ts height genesis →
  get_current_period ts (Some height) genesis config =
    Ok ((clock config ts height - origin config genesis) / quantity config + 1).
Proof.
  intros [Hq Hg Hh Hr Hp]. unfold get_current_period, clock, origin in *.
  destruct (is_blocks config); simpl in *.
  - unfold checked_div. replace (quantity config =? 0) with false by lia. simpl.
    rewrite Z.sub_0_r in *. rewrite as_u32_small; [done|].
    pose proof (Z.div_pos height (quantity config)). unfold is_u32. lia.
  - specialize (Hg eq_refl). replace (genesis =? 0) with false by lia.
    replace (ts <? genesis) with false by lia. simpl.
    pose proof (Z.div_pos (ts - genesis) (quantity config)).
    rewrite (as_u32_small ((ts - genesis) / quantity config)) by (unfold is_u32; lia).
    rewrite as_u32_small by (unfold is_u32; lia). done.
Qed.

Lemma boundaries_eq config ts height genesis p :
  clock_ok config ts height genesis → 1 ≤ p →
  origin config genesis + (p - 1) * quantity config ≤ clock config ts height →
  calculate_period_boundaries p config genesis =
    (origin config genesis + (p - 1) * quantity config,
     origin config genesis + p * quantity config).
Proof.
  intros [Hq Hg Hh Hr _] Hp Hle. unfold calculate_period_boundaries, clock, origin in *.
  replace (p =? 0) with false by lia.
  destruct (is_blocks config).
  - rewrite !as_u32_small by (unfold is_u32; nia). done.
  - specialize (Hg eq_refl). rewrite (as_u64_small ((p - 1) * _)) by (unfold is_u64; nia).
    rewrite (as_u64_small (genesis + _)) by (unfold is_u64; nia).
    rewrite as_u64_small by (unfold is_u64; nia). f_equal. lia.
Qed.

(** The clock and the boundaries agree.  In both modes, the period that
    [get_current_period] reports is the one whose boundaries enclose the
    current height or time (start included, end excluded), so the status
    computed for it is active, every earlier period is closed, and the periods
    tile the time line: each ends where the next starts. *)
Theorem current_period_in_boundaries config ts height genesis p :
  clock_ok config ts height genesis →
  get_current_period ts (Some height) genesis config = Ok p →
  let '(start_b, end_b) := calculate_period_boundaries p config genesis in
  start_b ≤ clock config ts height < end_b ∧
  calculate_period_status start_b end_b (clock config ts height) false = Active ∧
  ∀ q, 1 ≤ q < p →
    let '(start_q, end_q) := calculate_period_boundaries q config genesis in
    calculate_period_status start_q end_q (clock config ts height) false = Closed ∧
    (calculate_period_boundaries (q + 1) config genesis).1 = end_q.
Proof.
  intros Hok Hp. rewrite (current_period_eq _ _ _ _ Hok) in Hp. inv_ok.
  set (q0 := quantity config). set (c := clock config ts height).
  set (o := origin config genesis).
  assert (0 < q0) as Hq by (destruct Hok; subst q0; lia).
  assert (0 ≤ c - o) as Hpos.
  { destruct Hok as [_ Hg Hh _ _]. subst c o. unfold clock, origin.
    destruct (is_blocks config); [lia|]. specialize (Hg eq_refl). lia. }
  pose proof (Z.div_pos (c - o) q0 Hpos Hq).
  pose proof (Z.mul_div_le (c - o) q0 Hq). pose proof (Z.mul_succ_div_gt (c - o) q0 Hq).
  rewrite (boundaries_eq _ _ _ _ _ Hok) by (fold q0 c o; nia). fold q0 c o.
  unfold calculate_period_status. split_and!; [nia|nia| |].
  - replace (o + ((c - o) / q0 + 1) * q0 <=? c) with false by nia.
    replace (o + ((c - o) / q0 + 1 - 1) * q0 <=? c) with true by nia. done.
  - intros q Hqr.
    rewrite (boundaries_eq _ _ _ _ q Hok) by (fold q0 c o; nia).
    rewrite (boundaries_eq _ _ _ _ (q + 1) Hok) by (fold q0 c o; nia). fold q0 c o. simpl.
    replace (o + q * q0 <=? c) with true by nia. split; [done|nia].
Qed.

Lemma current_period_in_boundaries_witness :
  get_current_period 1700250000 (Some 5) 1700000000 config_default = Ok 3 ∧
  let '(start_b, end_b) := calculate_period_boundaries 3 config_default 1700000000 in
  start_b ≤ 1700250000 < end_b.
Proof.
  assert (clock_ok config_default 1700250000 5 1700000000) as Hok
    by (split; vm_compute; intuition discriminate).
  assert (get_current_period 1700250000 (Some 5) 1700000000 config_default = Ok 3) as Hp
    by (vm_compute; reflexivity).
  split; [exact Hp|].
  pose proof (current_period_in_boundaries config_default 1700250000 5 1700000000 3 Hok Hp) as H.
  destruct (calculate_period_boundaries 3 config_default 1700000000) as [s e].
  exact (proj1 H).
Defined.

End Clock.
