(* ===== verification/Pricing.v ===== *)
(** * Period pricing (src/lib/state/decisions/pricing.rs)

    The pricing record of a period and its scheduled reprice, clamped by a
    floor. *)

From stdpp Require Import base numbers list.
From S2P Require Import Prelude ListingFees DecisionTypes.

Record PeriodPricing : Type := {
  p_period : Z;
  p_floor : Z;
  mints : Z;
  claimed : Z;
  last_reprice_block : Z;
  window_open_claimed : Z;
  window_open_mints : Z
}.

Definition new_seeded (p_seed block_height : Z) : PeriodPricing :=
  {| p_period := p_seed; p_floor := p_seed / 16; mints := 1; claimed := 0;
     last_reprice_block := block_height; window_open_claimed := 0; window_open_mints := 1 |}.

Definition period_capacity (p : PeriodPricing) : Z :=
  as_u64 (as_u64 (mints p * SLOTS_PER_TIER_PER_MINT) * TIER_COUNT).

Definition config_reprice_interval (cfg : DecisionConfig) : Z :=
  reprice_interval (blocks_per_period (is_blocks cfg) (quantity cfg)).

Definition apply_reprice_with_floor (p : PeriodPricing) (block_height : Z) : PeriodPricing :=
  if last_reprice_block p =? block_height then p else
  let sales := sat_sub (claimed p) (window_open_claimed p) in
  let available_at_open :=
    sat_sub (sat_mul_u64 (window_open_mints p) (SLOTS_PER_TIER_PER_MINT * TIER_COUNT))
            (window_open_claimed p) in
  let new_p := Z.max (reprice (p_period p) sales available_at_open) (p_floor p) in
  {| p_period := new_p; p_floor := p_floor p; mints := mints p; claimed := claimed p;
     last_reprice_block := block_height;
     window_open_claimed := claimed p; window_open_mints := mints p |}.

(** [pricing.claimed.saturating_add(1)] and [pricing.mints.saturating_add(n)]. *)
Definition add_claimed (p : PeriodPricing) : PeriodPricing :=
  {| p_period := p_period p; p_floor := p_floor p; mints := mints p;
     claimed := sat_add_u64 (claimed p) 1; last_reprice_block := last_reprice_block p;
     window_open_claimed := window_open_claimed p; window_open_mints := window_open_mints p |}.
Definition add_mints (p : PeriodPricing) (n : Z) : PeriodPricing :=
  {| p_period := p_period p; p_floor := p_floor p; mints := sat_add_u64 (mints p) n;
     claimed := claimed p; last_reprice_block := last_reprice_block p;
     window_open_claimed := window_open_claimed p; window_open_mints := window_open_mints p |}.

Example floor_clamps_halving :
  p_period (foldl apply_reprice_with_floor
    {| p_period := 10000; p_floor := 1000; mints := 1; claimed := 0; last_reprice_block := 0;
       window_open_claimed := 0; window_open_mints := 1 |} (range_incl 1 10)) = 1000.
Proof. vm_compute. reflexivity. Qed.

Section PricingInvariant.

(** What holds of a pricing record while the mints stay within a bound: the
    price is not below its floor, the open window is a prefix of the claims,
    and no more slots are sold than the window offered. *)
Record pricing_wf (bound : Z) (p : PeriodPricing) : Prop := {
  wf_floor : 0 ≤ p_floor p ≤ p_period p;
  wf_mints : 1 ≤ mints p ≤ bound;
  wf_window : 0 ≤ window_open_claimed p ≤ claimed p;
  wf_window_mints : 1 ≤ window_open_mints p ≤ mints p;
  wf_sold : claimed p ≤ 25 * mints p
}.

Lemma new_seeded_wf bound p_seed h : 0 ≤ p_seed → 1 ≤ bound → pricing_wf bound (new_seeded p_seed h).
Proof. intros. split; simpl; zify_div. Qed.

Lemma reprice_wf bound p h : pricing_wf bound p → pricing_wf bound (apply_reprice_with_floor p h).
Proof.
  intros Hwf. unfold apply_reprice_with_floor. case_match; [done|].
  destruct Hwf. split; simpl; lia.
Qed.

Lemma add_mints_wf bound p n :
  bound + n ≤ U64_MAX → 0 ≤ n → pricing_wf bound p → pricing_wf (bound + n) (add_mints p n).
Proof. intros ?? []. split; simpl; unfold sat_add_u64; lia. Qed.

Lemma pricing_wf_weaken b b' p : b ≤ b' → pricing_wf b p → pricing_wf b' p.
Proof. intros ? []. split; lia. Qed.

Lemma reprice_keeps_mints p h : mints (apply_reprice_with_floor p h) = mints p.
Proof. unfold apply_reprice_with_floor. by case_match. Qed.

(** A scheduled reprice moves the price of a period within a factor of two
    and never below its floor, happens at most once per block, opens a new
    window at the current claims and mints, and moves nothing else. *)
Theorem apply_reprice_spec bound p h :
  pricing_wf bound p → p_period p < 2 ^ 63 → bound ≤ 20 →
  claimed p - window_open_claimed p ≤ 25 * window_open_mints p - window_open_claimed p →
  last_reprice_block p ≠ h →
  let p' := apply_reprice_with_floor p h in
  p_period p / 2 ≤ p_period p' ≤ 2 * p_period p ∧ p_floor p ≤ p_period p' ∧
  (claimed p = window_open_claimed p → window_open_claimed p < 25 * window_open_mints p →
   p_period p' = Z.max (p_period p / 2) (p_floor p)) ∧
  window_open_claimed p' = claimed p ∧ window_open_mints p' = mints p ∧
  mints p' = mints p ∧ claimed p' = claimed p ∧ p_floor p' = p_floor p ∧
  apply_reprice_with_floor p' h = p'.
Proof.
  intros [Hf Hm Hw Hwm Hs] Hp Hb Hsold Hne p'.
  set (s := Z.max (claimed p - window_open_claimed p) 0).
  set (a := Z.max (Z.min (window_open_mints p * 25) U64_MAX - window_open_claimed p) 0).
  assert (p' = {| p_period := Z.max (reprice (p_period p) s a) (p_floor p);
                  p_floor := p_floor p; mints := mints p; claimed := claimed p;
                  last_reprice_block := h; window_open_claimed := claimed p;
                  window_open_mints := mints p |}) as ->.
  { subst p'. unfold apply_reprice_with_floor. by rewrite (proj2 (Z.eqb_neq _ _) Hne). }
  assert (p_period p / 2 ≤ reprice (p_period p) s a ≤ 2 * p_period p) as Hr.
  { destruct (decide (a = 0)) as [->|Ha].
    - unfold reprice. simpl. zify_div.
    - pose proof (reprice_bounds (p_period p) s s a). lia. }
  cbn [p_period p_floor mints claimed window_open_claimed window_open_mints last_reprice_block].
  split_and!; [lia|lia|lia| |done..|].
  - intros Hc Hlt. f_equal. assert (s = 0) as -> by lia. unfold reprice.
    replace (a =? 0) with false by lia. done.
  - unfold apply_reprice_with_floor. cbn [last_reprice_block]. by rewrite Z.eqb_refl.
Qed.

Lemma apply_reprice_spec_witness :
  let p := {| p_period := 10000; p_floor := 625; mints := 3; claimed := 30;
              last_reprice_block := 100; window_open_claimed := 20; window_open_mints := 2 |} in
  p_period p / 2 ≤ p_period (apply_reprice_with_floor p 128) ≤ 2 * p_period p.
Proof.
  intros p.
  assert (pricing_wf 20 p) as Hwf by (split; simpl; lia).
  destruct (apply_reprice_spec 20 p 128 Hwf) as (H & _); [simpl; lia..|exact H].
Defined.

End PricingInvariant.
