(* ===== verification/DecisionsDb.v ===== *)
(** * The decisions database (src/lib/state/decisions/database.rs)

    The four tables of [Dbs] as finite maps and every operation on them as a
    state-passing function; a write transaction that fails leaves the state it
    started from, so a failed operation returns no state. *)

From stdpp Require Import base numbers list strings gmap sorting.
From S2P Require Import Prelude Float64 StateErrors ListingFees DecisionTypes Periods Pricing.

Record Dbs : Type := {
  period_decisions : gmap Z (list DecisionEntry);
  decision_state_histories : gmap DecisionId DecisionStateHistory;
  period_pricing : gmap Z PeriodPricing;
  period_pricing_undo : gmap Z (list (Z * option PeriodPricing));
  config : DecisionConfig
}.

Definition set_period_decisions (db : Dbs) m : Dbs :=
  {| period_decisions := m; decision_state_histories := decision_state_histories db;
     period_pricing := period_pricing db; period_pricing_undo := period_pricing_undo db;
     config := config db |}.
Definition set_histories (db : Dbs) m : Dbs :=
  {| period_decisions := period_decisions db; decision_state_histories := m;
     period_pricing := period_pricing db; period_pricing_undo := period_pricing_undo db;
     config := config db |}.
Definition set_pricing (db : Dbs) m : Dbs :=
  {| period_decisions := period_decisions db;
     decision_state_histories := decision_state_histories db;
     period_pricing := m; period_pricing_undo := period_pricing_undo db; config := config db |}.
Definition set_pricing_undo (db : Dbs) m : Dbs :=
  {| period_decisions := period_decisions db;
     decision_state_histories := decision_state_histories db;
     period_pricing := period_pricing db; period_pricing_undo := m; config := config db |}.

(** [BTreeSet<DecisionEntry>] is a sorted list: [insert], [remove], [get]. *)
Fixpoint btree_insert (e : DecisionEntry) (l : list DecisionEntry) : list DecisionEntry :=
  match l with
  | [] => [e]
  | x :: l => match DecisionEntry_cmp e x with
              | Lt => e :: x :: l
              | Eq => x :: l
              | Gt => x :: btree_insert e l
              end
  end.
Definition btree_remove (e : DecisionEntry) (l : list DecisionEntry) : list DecisionEntry :=
  filter (fun x => is_eq (DecisionEntry_cmp e x) = false) l.
Definition btree_get (e : DecisionEntry) (l : list DecisionEntry) : option DecisionEntry :=
  List.find (fun x => is_eq (DecisionEntry_cmp e x)) l.
(** [range(e..)]. *)
Definition btree_range (e : DecisionEntry) (l : list DecisionEntry) : list DecisionEntry :=
  filter (fun x => is_gt (DecisionEntry_cmp e x) = false) l.

Definition DECISIONS_DECLINING_RATE : Z := 25.

Definition entry_claimed (e : DecisionEntry) : bool :=
  match decision e with Some _ => true | None => false end.

(** Collected into a [BTreeSet]: an id counts once. *)
Definition get_claimed_decision_ids_for_period (db : Dbs) (p : Z) : list DecisionId :=
  remove_dups (map decision_id
    (filter (fun e => entry_claimed e = true) (default [] (period_decisions db !! p)))).

Definition dbs_get_current_period (db : Dbs) (ts : Z) (height : option Z) (genesis_ts : Z)
  : result Error Z :=
  get_current_period ts height genesis_ts (config db).

Definition get_active_window (db : Dbs) (ts : Z) (height : option Z) (genesis_ts : Z)
  : result Error (Z * Z) :=
  current ← dbs_get_current_period db ts height genesis_ts;
  Ok (current, as_u32 (current + FUTURE_PERIODS - 1)).

Definition calculate_available_decisions (period current_period : Z) : Z :=
  if period <? current_period then 0 else
  let offset := sat_sub period current_period in
  if FUTURE_PERIODS <=? offset then 0 else
  sat_sub INITIAL_DECISIONS_PER_PERIOD (offset * DECISIONS_DECLINING_RATE).

(** ** Minting and pricing *)

Definition highest_existing (db : Dbs) : Z :=
  foldl (fun h e => if h <? e.1 then e.1 else h) 0 (db_iter u32_key_cmp (period_decisions db)).

Definition mint_periods_up_to (db : Dbs) (target_period : Z) : Dbs :=
  set_period_decisions db
    (foldl (fun m p => <[p := []]> m) (period_decisions db)
       (range_incl (as_u32 (highest_existing db + 1)) target_period)).

Definition get_highest_minted_period (db : Dbs) : option Z :=
  foldl (fun h e => Some (match h with Some h => Z.max h e.1 | None => e.1 end)) None
    (db_iter u32_key_cmp (period_decisions db)).

Definition delete_periods_above (db : Dbs) (max_period : Z) : Dbs :=
  set_period_decisions db
    (foldl (fun m p => delete p m) (period_decisions db)
       (filter (fun p => max_period <? p = true)
          (map fst (db_iter u32_key_cmp (period_decisions db))))).

Definition genesis_pricing (mints block_height : Z) : PeriodPricing :=
  {| p_period := GENESIS_P_PERIOD_SATS; p_floor := GENESIS_P_PERIOD_SATS / 16; mints := mints;
     claimed := 0; last_reprice_block := block_height; window_open_claimed := 0;
     window_open_mints := mints |}.

Definition mint_genesis (db : Dbs) (ts block_height genesis_ts : Z) : result Error Dbs :=
  current_period ← dbs_get_current_period db ts (Some block_height) genesis_ts;
  let target := as_u32 (current_period + FUTURE_PERIODS - 1) in
  let db := mint_periods_up_to db target in
  Ok (set_pricing db
    (foldl (fun m period =>
              match m !! period with
              | Some _ => m
              | None =>
                  let offset := period - current_period in
                  <[period := genesis_pricing (sat_sub FUTURE_PERIODS offset) block_height]> m
              end)
       (period_pricing db) (range_incl current_period target))).

Definition snapshot_period_pricing (db : Dbs) (block_height : Z) : Dbs :=
  let snapshots := map (fun e => (e.1, Some e.2)) (db_iter u32_key_cmp (period_pricing db)) in
  set_pricing_undo db (<[block_height := snapshots]> (period_pricing_undo db)).

Definition restore_period_pricing_undo (db : Dbs) (block_height : Z) : Dbs :=
  match period_pricing_undo db !! block_height with
  | None => db
  | Some snapshots =>
      let snap_keys := map fst snapshots in
      let current_keys := map fst (db_iter u32_key_cmp (period_pricing db)) in
      let pricing := foldl (fun m k => if bool_decide (k ∈ snap_keys) then m else delete k m)
                       (period_pricing db) current_keys in
      let pricing := foldl (fun m e => match e.2 with Some pp => <[e.1 := pp]> m | None => m end)
                       pricing snapshots in
      set_pricing_undo (set_pricing db pricing) (delete block_height (period_pricing_undo db))
  end.

Definition any_period_due_for_reprice (db : Dbs) (block_height interval current_period : Z) : bool :=
  existsb (fun period =>
             match period_pricing db !! period with
             | Some p => interval <=? sat_sub block_height (last_reprice_block p)
             | None => false
             end)
    (range_incl current_period (as_u32 (current_period + FUTURE_PERIODS - 1))).

(** The accumulators are [u128]; twenty [u64] prices do not overflow them. *)
Definition compute_p_average (pricing : gmap Z PeriodPricing) (current_period : Z) : Z :=
  let '(sum, count) :=
    foldl (fun '(sum, count) offset =>
             match pricing !! (as_u32 (current_period + offset)) with
             | Some p => (sum + p_period p, count + 1)
             | None => (sum, count)
             end) (0, 0) (range 1 FUTURE_PERIODS) in
  match checked_div sum count with
  | Some avg => as_u64 avg
  | None => GENESIS_P_PERIOD_SATS
  end.

(** One step of the three loops of [process_block_pricing]. *)
Definition seed_period (new_current block_height : Z) (m : gmap Z PeriodPricing) (period : Z)
  : gmap Z PeriodPricing :=
  <[period := new_seeded (compute_p_average m new_current) block_height]> m.
Definition advance_period (transitions block_height : Z) (m : gmap Z PeriodPricing) (period : Z)
  : gmap Z PeriodPricing :=
  match m !! period with
  | Some p => <[period := apply_reprice_with_floor (add_mints p transitions) block_height]> m
  | None => m
  end.
Definition reprice_period (block_height : Z) (m : gmap Z PeriodPricing) (period : Z)
  : gmap Z PeriodPricing :=
  match m !! period with
  | Some p => <[period := apply_reprice_with_floor p block_height]> m
  | None => m
  end.

Definition process_block_pricing (db : Dbs) (block_height ts genesis_ts : Z) : result Error Dbs :=
  new_current ← dbs_get_current_period db ts (Some block_height) genesis_ts;
  let target := as_u32 (new_current + FUTURE_PERIODS - 1) in
  let prev_highest := default 0 (get_highest_minted_period db) in
  let prev_current := sat_sub (as_u32 (prev_highest + 1)) FUTURE_PERIODS in
  let db := mint_periods_up_to db target in
  if prev_current <? new_current then
    let m := foldl (seed_period new_current block_height) (period_pricing db)
               (range_incl (as_u32 (prev_highest + 1)) target) in
    let surviving_end := Z.min prev_highest target in
    let m := if new_current <=? surviving_end
             then foldl (advance_period (new_current - prev_current) block_height) m
                    (range_incl new_current surviving_end)
             else m in
    Ok (set_pricing db m)
  else
    let interval := config_reprice_interval (config db) in
    if any_period_due_for_reprice db block_height interval new_current then
      let active_end := as_u32 (new_current + FUTURE_PERIODS - 1) in
      Ok (set_pricing db (foldl (reprice_period block_height) (period_pricing db)
                            (range_incl new_current active_end)))
    else Ok db.

(** ** Claims *)

Definition get_decision_current_state (db : Dbs) (id : DecisionId) : DecisionState :=
  match decision_state_histories db !! id with
  | Some h => current_state h
  | None => Created
  end.

Definition is_period_settled (db : Dbs) (decision_period ts : Z) (height : option Z) (genesis_ts : Z)
  : bool :=
  let current_period :=
    match dbs_get_current_period db ts height genesis_ts with Ok p => p | Err _ => 0 end in
  sat_add_u32 decision_period 7 <? current_period.

Definition is_decision_in_voting (db : Dbs) (id : DecisionId) : bool :=
  bool_decide (get_decision_current_state db id = Voting).

Definition validate_decision_claim (db : Dbs) (id : DecisionId) (ts : Z) (height : option Z)
  (genesis_ts : Z) : result Error unit :=
  let p := period_index id in
  current_period ← dbs_get_current_period db ts height genesis_ts;
  _ ← bail_if (is_period_settled db p ts height genesis_ts)
        (DecisionNotAvailable id "period is settled");
  _ ← bail_if (is_decision_in_voting db id) (DecisionNotAvailable id "in voting state");
  _ ← bail_if (as_u32 (current_period + FUTURE_PERIODS - 1) <? p)
        (DecisionNotAvailable id "exceeds maximum allowed period");
  _ ← (if is_standard id then
         '(start_period, end_period) ← get_active_window db ts height genesis_ts;
         _ ← bail_if ((p <? start_period) || (end_period <? p))
               (DecisionNotAvailable id "not in active window");
         pricing ← ok_or (period_pricing db !! p) (DecisionNotAvailable id "no pricing record");
         bail_if (negb (slot_unlocked (decision_index id) (mints pricing)))
           (DecisionNotAvailable id "not yet unlocked")
       else Ok tt);
  bail_if (bool_decide (id ∈ get_claimed_decision_ids_for_period db p))
    (DecisionAlreadyClaimed id).

Definition claim_decision (db : Dbs) (id : DecisionId) (d : Decision) (txid : Txid)
  (height : option Z) : result Error Dbs :=
  let p := period_index id in
  let entries := default [] (period_decisions db !! p) in
  let new_entry := {| decision_id := id; decision := Some d; claiming_txid := txid |} in
  let db := set_period_decisions db (<[p := btree_insert new_entry entries]> (period_decisions db)) in
  let db := set_histories db
              (<[id := new_claimed (default 0 height)]> (decision_state_histories db)) in
  if is_standard id then
    pricing ← ok_or (period_pricing db !! p) (InvalidTransaction "no pricing record for period");
    Ok (set_pricing db (<[p := add_claimed pricing]> (period_pricing db)))
  else Ok db.

(** The search key of [get_decision_entry]: smallest among the entries of an id. *)
Definition search_entry (id : DecisionId) : DecisionEntry :=
  {| decision_id := id; decision := None; claiming_txid := replicate 32 0 |}.

(** The loop over [range(search_entry..)] stops at the first larger id. *)
Fixpoint scan_entries (id : DecisionId) (l : list DecisionEntry) : option DecisionEntry :=
  match l with
  | [] => None
  | e :: l =>
      if bool_decide (decision_id e = id) then Some e
      else if is_gt (DecisionId_cmp (decision_id e) id) then None
      else scan_entries id l
  end.

Definition get_decision_entry (db : Dbs) (id : DecisionId) : option DecisionEntry :=
  match period_decisions db !! period_index id with
  | Some entries =>
      match btree_get (search_entry id) entries with
      | Some found => Some found
      | None => scan_entries id (btree_range (search_entry id) entries)
      end
  | None => None
  end.

Definition revert_decision_claim (db : Dbs) (id : DecisionId) : Dbs :=
  let p := period_index id in
  let entries := default [] (period_decisions db !! p) in
  match List.find (fun e => bool_decide (decision_id e = id)) entries with
  | Some e =>
      let entries' := btree_remove e entries in
      match entries' with
      | [] => set_period_decisions db (delete p (period_decisions db))
      | _ => set_period_decisions db (<[p := entries']> (period_decisions db))
      end
  | None => db
  end.

(** ** Transitions *)

Definition decisions_needing_transition (db : Dbs) (from_state : DecisionState)
  (threshold_period : DecisionId → Z) (current_period : Z) : list DecisionId :=
  map fst (filter (fun e => bool_decide (current_state e.2 = from_state)
                            && (threshold_period e.1 <? current_period) = true)
             (db_iter DecisionId_cmp (decision_state_histories db))).

Definition get_claimed_decisions_needing_voting (db : Dbs) (current_period : Z) : list DecisionId :=
  decisions_needing_transition db Claimed period_index current_period.

Definition get_voting_decisions_needing_resolution (db : Dbs) (current_period : Z)
  : list DecisionId :=
  decisions_needing_transition db Voting voting_period current_period.

Definition transition_decision_to_voting (db : Dbs) (id : DecisionId) (block_height : Z)
  : result Error Dbs :=
  history ← ok_or (decision_state_histories db !! id) (InvalidDecisionId "no state history");
  history ← transition_to_voting history block_height;
  Ok (set_histories db (<[id := history]> (decision_state_histories db))).

Definition transition_decision_to_resolved (db : Dbs) (id : DecisionId) (block_height : Z)
  (outcome : f64) : result Error Dbs :=
  history ← ok_or (decision_state_histories db !! id) (InvalidDecisionId "no state history");
  history ← transition_to_resolved history outcome block_height;
  Ok (set_histories db (<[id := history]> (decision_state_histories db))).

Definition unclaim_entry (m : gmap Z (list DecisionEntry)) (id : DecisionId)
  : gmap Z (list DecisionEntry) :=
  match m !! period_index id with
  | Some entries =>
      match filter (fun e => decision_id e ≠ id) entries with
      | [] => delete (period_index id) m
      | entries' => <[period_index id := entries']> m
      end
  | None => m
  end.

Definition rollback_decision_states_to_height (db : Dbs) (height : Z) : Dbs :=
  let entries := db_iter DecisionId_cmp (decision_state_histories db) in
  let updates := map (fun e => (e.1, rollback_to_height e.2 height)) entries in
  let unclaim := map fst (filter (fun e =>
      bool_decide (current_state e.2 ≠ Created)
      && bool_decide (current_state (rollback_to_height e.2 height) = Created) = true) entries) in
  let db := set_histories db
              (foldl (fun m e => <[e.1 := e.2]> m) (decision_state_histories db) updates) in
  set_period_decisions db (foldl unclaim_entry (period_decisions db) unclaim).

(** ** Queries *)

Definition get_active_periods (db : Dbs) (ts : Z) (height : option Z) (genesis_ts : Z)
  : result Error (list (Z * Z)) :=
  current_period ← dbs_get_current_period db ts height genesis_ts;
  Ok (filter (fun e => 0 <? e.2 = true)
        (map (fun period => (period, calculate_available_decisions period current_period))
           (range_incl current_period (as_u32 (current_period + FUTURE_PERIODS - 1))))).

Definition get_settled_decisions (db : Dbs) (ts : Z) (height : option Z) (genesis_ts : Z)
  : list DecisionEntry :=
  flat_map (fun e => if is_period_settled db e.1 ts height genesis_ts then e.2 else [])
    (db_iter u32_key_cmp (period_decisions db)).

Definition get_available_decisions (db : Dbs) (period ts : Z) (height : option Z) (genesis_ts : Z)
  : result Error Z :=
  current_period ← dbs_get_current_period db ts height genesis_ts;
  Ok (calculate_available_decisions period current_period).

(** The candidate ids of [get_available_decisions_in_period], tier by tier. *)
Definition slot_indices (unlocked_per_tier : Z) : list Z :=
  flat_map (fun tier => map (fun pos => as_u32 (tier * SLOTS_PER_TIER + pos))
                          (range 0 unlocked_per_tier)) (range 0 TIER_COUNT).

Definition get_available_decisions_in_period (db : Dbs) (p ts : Z) (height : option Z)
  (genesis_ts : Z) : result Error (list DecisionId) :=
  total_decisions ← get_available_decisions db p ts height genesis_ts;
  if total_decisions =? 0 then Ok [] else
  match period_pricing db !! p with
  | None => Ok []
  | Some pricing =>
      let claimed_ids := get_claimed_decision_ids_for_period db p in
      ids ← try_map (fun idx => DecisionId_new true p idx)
              (slot_indices (as_u64 (mints pricing * SLOTS_PER_TIER_PER_MINT)));
      Ok (filter (fun id => id ∉ claimed_ids) ids)
  end.

Definition get_claimed_decisions_in_period (db : Dbs) (p : Z) : list DecisionEntry :=
  filter (fun e => entry_claimed e = true) (default [] (period_decisions db !! p)).

Definition claimed_count_in_period (db : Dbs) (p : Z) : Z :=
  Z.of_nat (length (get_claimed_decision_ids_for_period db p)).

Definition get_standard_claimed_count_in_period (db : Dbs) (p : Z) : Z :=
  Z.of_nat (length (filter (fun id => is_standard id = true)
                      (get_claimed_decision_ids_for_period db p))).

Definition fee_for_decision_id (db : Dbs) (id : DecisionId) : result Error Z :=
  pricing ← ok_or (period_pricing db !! period_index id)
              (InvalidTransaction "no pricing record for period");
  map_err (fun _ => InvalidTransaction "listing fee")
    (fee_for_index (p_period pricing) (mints pricing) (decision_index id)).

Definition get_all_claimed_decisions (db : Dbs) : list DecisionEntry :=
  flat_map (fun e => filter (fun x => entry_claimed x = true) e.2)
    (db_iter u32_key_cmp (period_decisions db)).

(** [get_decision_ids_for_period] of the period calculator. *)
Definition get_decision_ids_for_period (db : Dbs) (voting_period_id : Z)
  : result Error (list DecisionId) :=
  if voting_period_id =? 0 then Err (InvalidTransaction "Voting period 0 does not exist") else
  let claim_period := voting_period_id - 1 in
  Ok (map decision_id (filter (fun e => period_index (decision_id e) = claim_period)
                         (get_all_claimed_decisions db))).

Definition calculate_voting_period (db : Dbs) (period_id current_height current_timestamp : Z)
  (cfg : DecisionConfig) (has_outcomes : bool) (genesis_ts : Z) : result Error VotingPeriod :=
  let '(start_boundary, end_boundary) := calculate_period_boundaries period_id cfg genesis_ts in
  ids ← get_decision_ids_for_period db period_id;
  let effective_current := if is_blocks cfg then current_height else current_timestamp in
  let st := calculate_period_status start_boundary end_boundary effective_current has_outcomes in
  Ok {| vp_id := period_id; start_timestamp := start_boundary; end_timestamp := end_boundary;
        status := st; decision_ids := ids |}.
