(* ===== verification/DecisionsDbFacts.v ===== *)
(** * Correctness of the decisions database

    The undo log restores the pricing; minting, pricing and claims keep the
    invariant of the priced periods, at whatever clock they run, and price the
    whole active window while no claim runs ahead of the pricing step; a claim
    is recorded once and found again, and the ordered search of an entry is the
    search by id. *)

From stdpp Require Import base numbers list strings gmap sorting.
From S2P Require Import Prelude Float64 StateErrors ListingFees DecisionTypes Periods Pricing.
From S2P Require Import DecisionsDb.

(** ** Tables *)

Section Tables.
Context {V : Type}.
Implicit Types (m : gmap Z V) (l : list Z).

(** A loop that rewrites the keys of a list, each once, from its own value. *)
Lemma foldl_update_lookup (f : V → V) l m k :
  NoDup l →
  foldl (fun m p => match m !! p with Some v => <[p := f v]> m | None => m end) m l !! k
  = if bool_decide (k ∈ l) then f <$> m !! k else m !! k.
Proof.
  intros Hnd. revert m. induction Hnd as [|p l Hp Hnd IH]; intros m; simpl; [done|].
  rewrite IH. destruct (decide (k = p)) as [->|Hne].
  - rewrite !bool_decide_eq_false_2 by done. rewrite bool_decide_eq_true_2 by set_solver.
    destruct (m !! p) eqn:E; [by rewrite lookup_insert_eq|done].
  - assert (bool_decide (k ∈ p :: l) = bool_decide (k ∈ l)) as ->
      by (apply bool_decide_ext; set_solver).
    destruct (m !! p); [by rewrite lookup_insert_ne|done].
Qed.

Lemma map_fst_db_iter m : map fst (db_iter u32_key_cmp m) ≡ₚ map fst (map_to_list m).
Proof. unfold db_iter. by rewrite sort_by_perm. Qed.

Lemma elem_of_db_keys m k : k ∈ map fst (db_iter u32_key_cmp m) ↔ is_Some (m !! k).
Proof.
  rewrite list_elem_of_fmap. split.
  - intros ([k' v] & -> & H%elem_of_db_iter). eauto.
  - intros [v H]. exists (k, v). by rewrite elem_of_db_iter.
Qed.

End Tables.

Section Undo.

Lemma foldl_restore_lookup {V} (snaps : list (Z * option V)) (m : gmap Z V) k :
  Forall (fun e => is_Some e.2) snaps → NoDup snaps.*1 →
  foldl (fun m e => match e.2 with Some v => <[e.1 := v]> m | None => m end) m snaps !! k
  = match list_to_map (M:=gmap Z (option V)) snaps !! k with Some (Some v) => Some v | _ => m !! k end.
Proof.
  intros Hs. revert m. induction Hs as [|[p [v|]] snaps [v' Hv] _ IH]; intros m Hnd; simpl; [done| |done].
  inversion Hnd as [|?? Hp Hnd']; subst. rewrite (IH _ Hnd').
  destruct (decide (k = p)) as [->|Hne].
  - rewrite lookup_insert_eq, (not_elem_of_list_to_map_1 snaps p Hp). by rewrite lookup_insert_eq.
  - by rewrite !lookup_insert_ne by done.
Qed.

Lemma snapshot_lookup {V} (m : gmap Z V) k :
  list_to_map (M:=gmap Z (option V)) (map (fun e => (e.1, Some e.2)) (db_iter u32_key_cmp m)) !! k
  = Some <$> m !! k.
Proof.
  rewrite <- (list_to_map_db_iter u32_key_cmp m) at 2.
  assert (∀ l : list (Z * V), list_to_map (M:=gmap Z (option V)) (map (fun e => (e.1, Some e.2)) l)
            = Some <$> list_to_map (M:=gmap Z V) l) as ->.
  { induction l as [|[a b] l IHl]; simpl; [by rewrite fmap_empty|]. by rewrite IHl, fmap_insert. }
  by rewrite lookup_fmap.
Qed.

Lemma foldl_keep_delete {V} (keep l : list Z) (m : gmap Z V) :
  foldl (fun m k => if bool_decide (k ∈ keep) then m else delete k m) m l
  = foldl (fun m p => delete p m) m (filter (fun k => k ∉ keep) l).
Proof.
  revert m. induction l as [|p l IHl]; intros m; simpl; [done|].
  rewrite IHl, filter_cons. case_bool_decide; destruct (decide _); done.
Qed.

(** The undo log of the pricing table.  After a snapshot at a height,
    whatever a block then does to the pricing table (or to any other table),
    as long as the snapshot is still logged, restoring it gives the pricing
    table of the time of the snapshot back, exactly, and drops the log entry. *)
Theorem pricing_snapshot_restore db db' height :
  period_pricing_undo db' !! height
    = period_pricing_undo (snapshot_period_pricing db height) !! height →
  period_pricing (restore_period_pricing_undo db' height) = period_pricing db ∧
  period_pricing_undo (restore_period_pricing_undo db' height)
    = delete height (period_pricing_undo db').
Proof.
  unfold snapshot_period_pricing. simpl. rewrite lookup_insert_eq. intros Hu.
  unfold restore_period_pricing_undo. rewrite Hu. simpl. split; [|done].
  set (snaps := map (fun e => (e.1, Some e.2)) (db_iter u32_key_cmp (period_pricing db))). apply map_eq. intros k.
  assert (snaps.*1 = map fst (db_iter u32_key_cmp (period_pricing db))) as Hkeys
    by (unfold snaps; rewrite <- list_fmap_compose; done).
  rewrite foldl_restore_lookup; cycle 1.
  { unfold snaps. apply Forall_map, Forall_forall. simpl. eauto. }
  { rewrite Hkeys. apply db_iter_keys_NoDup. }
  unfold snaps at 1. rewrite snapshot_lookup.
  destruct (period_pricing db !! k) as [pr|] eqn:Ek; simpl; [done|].
  rewrite foldl_keep_delete, foldl_delete_lookup. case_bool_decide as Hin; [done|].
  destruct (period_pricing db' !! k) eqn:Ek'; [|done].
  exfalso. apply Hin. apply list_elem_of_filter. rewrite elem_of_db_keys.
  split; [|eauto]. change (map fst snaps) with (snaps.*1). rewrite Hkeys, elem_of_db_keys, Ek.
  by intros [? [=]].
Qed.

End Undo.

(** ** Minting *)

Section Minting.

Lemma foldl_max_opt (l : list (Z * list DecisionEntry)) acc h :
  (∀ a, acc = Some a → a ≤ h) → Forall (fun e => e.1 ≤ h) l → (acc = Some h ∨ h ∈ l.*1) →
  foldl (fun a e => Some (match a with Some a => Z.max a e.1 | None => e.1 end)) acc l = Some h.
Proof.
  revert acc. induction l as [|[k v] l IH]; intros acc Hacc Hall Hin; simpl.
  - destruct Hin as [|Hin]; [done|]. by apply not_elem_of_nil in Hin.
  - inversion Hall as [|?? Hk Hall']; subst. simpl in *. apply IH; [|done|].
    + intros a [= <-]. destruct acc as [a|]; [specialize (Hacc a eq_refl); lia|lia].
    + destruct Hin as [->|[->|Hin]%elem_of_cons]; [left; f_equal; lia| |by right].
      left. f_equal. destruct acc as [a|]; [specialize (Hacc a eq_refl); lia|done].
Qed.

Lemma foldl_max_from (l : list (Z * list DecisionEntry)) a h :
  a ≤ h → Forall (fun e => e.1 ≤ h) l → (a = h ∨ h ∈ l.*1) →
  foldl (fun a e => if a <? e.1 then e.1 else a) a l = h.
Proof.
  revert a. induction l as [|[k v] l IH]; intros a Ha Hall Hin; simpl.
  - destruct Hin as [|Hin]; [done|]. by apply not_elem_of_nil in Hin.
  - inversion Hall as [|?? Hk Hall']; subst. simpl in *.
    destruct (Z.ltb_spec a k); (apply IH; [lia|done|]).
    + destruct Hin as [->|[->|Hin]%elem_of_cons]; [lia|by left|by right].
    + destruct Hin as [->|[->|Hin]%elem_of_cons]; [by left|left; lia|by right].
Qed.

Lemma highest_minted_eq db h :
  is_Some (period_decisions db !! h) → 0 ≤ h →
  (∀ p, is_Some (period_decisions db !! p) → p ≤ h) →
  get_highest_minted_period db = Some h ∧ highest_existing db = h.
Proof.
  intros Hh H0 Hall.
  assert (Forall (fun e => e.1 ≤ h) (db_iter u32_key_cmp (period_decisions db))) as HF.
  { apply Forall_forall. intros [k v] Hk%elem_of_db_iter. apply Hall. eauto. }
  assert (h ∈ (db_iter u32_key_cmp (period_decisions db)).*1) as Hin by (by apply elem_of_db_keys).
  split.
  - apply foldl_max_opt; [done|done|by right].
  - apply foldl_max_from; [done|done|by right].
Qed.

Lemma mint_lookup db target k :
  0 ≤ highest_existing db < U32_MAX →
  period_decisions (mint_periods_up_to db target) !! k =
    if bool_decide (highest_existing db < k ≤ target) then Some [] else period_decisions db !! k.
Proof.
  intros Hh. unfold mint_periods_up_to. simpl. rewrite foldl_insert_const_lookup.
  rewrite as_u32_small by (unfold is_u32; lia).
  repeat case_bool_decide; try done; exfalso; rewrite elem_of_range_incl in *; lia.
Qed.

Lemma mint_other db target :
  period_pricing (mint_periods_up_to db target) = period_pricing db ∧
  decision_state_histories (mint_periods_up_to db target) = decision_state_histories db ∧
  config (mint_periods_up_to db target) = config db.
Proof. done. Qed.

End Minting.

(** ** The active window *)

Section Window.

(** The standard ids recorded in a period. *)
Definition standard_ids (db : Dbs) (p : Z) : list DecisionId :=
  filter (fun id => is_standard id = true)
    (map decision_id (default [] (period_decisions db !! p))).

(** The counter of a pricing record is the number of standard claims of its
    period, all of them in unlocked slots. *)
Definition claims_match (db : Dbs) (p : Z) (pr : PeriodPricing) : Prop :=
  Z.of_nat (length (standard_ids db p)) = claimed pr ∧
  Forall (fun id => slot_unlocked (decision_index id) (mints pr) = true) (standard_ids db p).

Definition entry_ok (p : Z) (e : DecisionEntry) : Prop :=
  wf_id (decision_id e) ∧ period_index (decision_id e) = p ∧ entry_claimed e = true.

(** Sets of entries are kept in the order of their ids, which are distinct. *)
Definition id_lt (a b : DecisionEntry) : Prop :=
  DecisionId_cmp (decision_id a) (decision_id b) = Lt.

(** The invariant of the window that starts at [cur], the one [process_block_pricing]
    reads off the highest minted period: periods are minted up to [cur + 19],
    a priced period has no more mints than the periods it has been in the
    window, entries are well formed and their ids distinct, and the counters
    agree with the entries. *)
Record window_inv (db : Dbs) (cur : Z) : Prop := {
  wi_cur : 0 ≤ cur ∧ cur + 20 ≤ U32_MAX;
  wi_keys : ∀ p, is_Some (period_decisions db !! p) → 0 ≤ p ≤ cur + 19;
  wi_top : is_Some (period_decisions db !! (cur + 19));
  wi_priced : ∀ p pr, period_pricing db !! p = Some pr →
    p ≤ cur + 19 ∧ pricing_wf (20 - Z.max 0 (p - cur)) pr;
  wi_entries : ∀ p es, period_decisions db !! p = Some es →
    Forall (entry_ok p) es ∧ StronglySorted id_lt es;
  wi_claims : ∀ p pr, period_pricing db !! p = Some pr → claims_match db p pr
}.

(** Every period of the window has a pricing record. *)
Definition window_full (db : Dbs) (cur : Z) : Prop :=
  ∀ p, cur ≤ p ≤ cur + 19 → is_Some (period_pricing db !! p).

(** The invariant is one of the two tables. *)
Lemma window_inv_tables db db' cur :
  period_decisions db' = period_decisions db → period_pricing db' = period_pricing db →
  window_inv db cur → window_inv db' cur.
Proof.
  intros Hd Hp [H0 Hk Ht Hpr He Hc]. split; rewrite ?Hd, ?Hp; try done.
  intros p pr Hl. unfold claims_match, standard_ids. rewrite Hd. by apply Hc.
Qed.

Lemma window_highest db cur :
  window_inv db cur →
  get_highest_minted_period db = Some (cur + 19) ∧ highest_existing db = cur + 19.
Proof.
  intros [H0 Hk Ht _ _ _]. apply highest_minted_eq; [done|lia|].
  intros p Hp. specialize (Hk p Hp). lia.
Qed.

Lemma slot_unlocked_mono idx m m' :
  0 ≤ m ≤ m' → m' * 5 ≤ U64_MAX → slot_unlocked idx m = true → slot_unlocked idx m' = true.
Proof.
  intros Hm Hw. unfold slot_unlocked. case_match; [done|].
  unfold SLOTS_PER_TIER_PER_MINT. rewrite !as_u64_small by (unfold is_u64; lia). lia.
Qed.

Lemma standard_ids_mint db target p :
  0 ≤ highest_existing db < U32_MAX →
  (∀ q, highest_existing db < q → period_decisions db !! q = None) →
  standard_ids (mint_periods_up_to db target) p = standard_ids db p.
Proof.
  intros Hh Hnone. unfold standard_ids. rewrite mint_lookup by done.
  case_bool_decide as Hp; [|done]. by rewrite Hnone by lia.
Qed.

Lemma claims_match_mints db p pr pr' :
  claims_match db p pr → claimed pr' = claimed pr → 0 ≤ mints pr ≤ mints pr' →
  mints pr' * 5 ≤ U64_MAX → claims_match db p pr'.
Proof.
  intros [Hlen Hall] Hc Hm Hw. split; [lia|].
  eapply Forall_impl; [exact Hall|]. intros id. by apply slot_unlocked_mono.
Qed.

Lemma compute_p_average_nonneg m cur : 0 ≤ compute_p_average m cur.
Proof.
  unfold compute_p_average. destruct (foldl _ _ _) as [s c]. unfold GENESIS_P_PERIOD_SATS.
  case_match; [apply as_u64_range|lia].
Qed.

(** The seeding loop: every period of the list gets a fresh record. *)
Lemma seed_lookup cur h l m k :
  (k ∉ l → foldl (seed_period cur h) m l !! k = m !! k) ∧
  (k ∈ l → ∃ p_seed, 0 ≤ p_seed ∧
     foldl (seed_period cur h) m l !! k = Some (new_seeded p_seed h)).
Proof.
  revert m. induction l as [|p l IH]; intros m; simpl; [set_solver|].
  destruct (IH (seed_period cur h m p)) as [IHn IHy]. unfold seed_period in *. split.
  - intros Hk. rewrite IHn by set_solver. rewrite lookup_insert_ne by set_solver. done.
  - intros Hk. destruct (decide (k ∈ l)) as [Hl|Hl]; [by apply IHy|].
    assert (k = p) as -> by set_solver. rewrite IHn by done. rewrite lookup_insert_eq.
    eexists. split; [|done]. apply compute_p_average_nonneg.
Qed.

Lemma advance_lookup t h l m k :
  NoDup l →
  foldl (advance_period t h) m l !! k =
    if bool_decide (k ∈ l)
    then (fun p => apply_reprice_with_floor (add_mints p t) h) <$> m !! k else m !! k.
Proof. apply (foldl_update_lookup (fun p => apply_reprice_with_floor (add_mints p t) h)). Qed.

Lemma reprice_lookup h l m k :
  NoDup l →
  foldl (reprice_period h) m l !! k =
    if bool_decide (k ∈ l) then (fun p => apply_reprice_with_floor p h) <$> m !! k else m !! k.
Proof. apply (foldl_update_lookup (fun p => apply_reprice_with_floor p h)). Qed.

Lemma range_incl_NoDup a b : NoDup (range_incl a b).
Proof. apply range_NoDup. Qed.

(** What the pricing step does to the table when the window moves from [cur]
    to [new]. *)
Definition moved (cur new h : Z) (m : gmap Z PeriodPricing) : gmap Z PeriodPricing :=
  let m := foldl (seed_period new h) m (range_incl (cur + 20) (new + 19)) in
  if new <=? cur + 19 then foldl (advance_period (new - cur) h) m (range_incl new (cur + 19)) else m.

Lemma process_moves db cur new h ts g :
  window_inv db cur → dbs_get_current_period db ts (Some h) g = Ok new → 0 ≤ new → new + 20 ≤ U32_MAX →
  ∃ m, process_block_pricing db h ts g = Ok (set_pricing (mint_periods_up_to db (new + 19)) m) ∧
       if cur <? new then m = moved cur new h (period_pricing db)
       else m = period_pricing db ∨
            m = foldl (reprice_period h) (period_pricing db) (range_incl new (new + 19)).
Proof.
  intros Hinv Hnew Hle Hmax. destruct (wi_cur _ _ Hinv).
  destruct (window_highest _ _ Hinv) as [Hhi Hex].
  unfold process_block_pricing. rewrite Hnew. simpl mbind. rewrite Hhi. simpl default.
  unfold FUTURE_PERIODS, sat_sub.
  rewrite !as_u32_small by (unfold is_u32; lia).
  replace (new + 20 - 1) with (new + 19) by lia.
  replace (Z.max (cur + 19 + 1 - 20) 0) with cur by lia.
  replace (cur + 19 + 1) with (cur + 20) by lia.
  destruct (cur <? new) eqn:E.
  - replace (Z.min (cur + 19) (new + 19)) with (cur + 19) by lia.
    eexists. split; [reflexivity|]. reflexivity.
  - destruct (any_period_due_for_reprice _ _ _ _).
    + eexists. split; [reflexivity|]. by right.
    + exists (period_pricing db). split; [|by left]. done.
Qed.

Lemma moved_lookup cur new h m k :
  cur < new →
  (new ≤ k ≤ cur + 19 → moved cur new h m !! k =
     (fun p => apply_reprice_with_floor (add_mints p (new - cur)) h) <$> m !! k) ∧
  (cur + 20 ≤ k ≤ new + 19 → ∃ s, 0 ≤ s ∧ moved cur new h m !! k = Some (new_seeded s h)) ∧
  ((k < new ∨ cur + 19 < k) → (k < cur + 20 ∨ new + 19 < k) → moved cur new h m !! k = m !! k).
Proof.
  intros Hlt. unfold moved. cbv zeta.
  destruct (seed_lookup new h (range_incl (cur + 20) (new + 19)) m k) as [Hn Hy].
  rewrite elem_of_range_incl in Hn, Hy.
  assert ((if new <=? cur + 19
           then foldl (advance_period (new - cur) h)
                  (foldl (seed_period new h) m (range_incl (cur + 20) (new + 19)))
                  (range_incl new (cur + 19))
           else foldl (seed_period new h) m (range_incl (cur + 20) (new + 19))) !! k =
          if bool_decide (new ≤ k ≤ cur + 19)
          then (fun p => apply_reprice_with_floor (add_mints p (new - cur)) h) <$>
               foldl (seed_period new h) m (range_incl (cur + 20) (new + 19)) !! k
          else foldl (seed_period new h) m (range_incl (cur + 20) (new + 19)) !! k) as ->.
  { destruct (Z.leb_spec new (cur + 19)).
    - rewrite advance_lookup by apply range_incl_NoDup.
      repeat case_bool_decide; try done; exfalso; rewrite elem_of_range_incl in *; lia.
    - case_bool_decide; [lia|done]. }
  split_and!.
  - intros Hk. rewrite bool_decide_eq_true_2 by done. by rewrite Hn by lia.
  - intros Hk. rewrite bool_decide_eq_false_2 by lia. by apply Hy.
  - intros Hk Hk'. rewrite bool_decide_eq_false_2 by lia. by rewrite Hn by lia.
Qed.

(** What the pricing step at the period [new] leaves in the table. *)
Definition priced_step (db : Dbs) (cur new h : Z) (m : gmap Z PeriodPricing) : Prop :=
  if cur <? new then m = moved cur new h (period_pricing db)
  else m = period_pricing db ∨
       m = foldl (reprice_period h) (period_pricing db) (range_incl new (new + 19)).

Lemma reprice_claims db p pr h : claims_match db p pr → claims_match db p (apply_reprice_with_floor pr h).
Proof.
  intros [Hlen Hall]. split; [|by rewrite reprice_keeps_mints].
  unfold apply_reprice_with_floor. by case_match.
Qed.

(** Every record of the table after the step comes from one of the old table
    with the same claims, or is a fresh one in a period without claims. *)
Lemma process_priced db cur new h m p pr :
  window_inv db cur → 0 ≤ new → new + 20 ≤ U32_MAX → priced_step db cur new h m → m !! p = Some pr →
  claims_match db p pr ∧ p ≤ Z.max cur new + 19 ∧ pricing_wf (20 - Z.max 0 (p - Z.max cur new)) pr.
Proof.
  intros Hinv Hle Hmax Hm Hp. destruct (wi_cur _ _ Hinv). unfold priced_step in Hm.
  assert (∀ pr0, period_pricing db !! p = Some pr0 → claims_match db p pr0 ∧ p ≤ cur + 19 ∧
            pricing_wf (20 - Z.max 0 (p - cur)) pr0) as Hold.
  { intros pr0 Hpr0. destruct (wi_priced _ _ Hinv p pr0 Hpr0). split_and!; [by apply (wi_claims _ _ Hinv)|done|done]. }
  destruct (Z.ltb_spec cur new) as [E|E].
  - subst m. replace (Z.max cur new) with new by lia.
    destruct (moved_lookup cur new h (period_pricing db) p ltac:(lia)) as (H1 & H2 & H3).
    destruct (decide (new ≤ p ≤ cur + 19)) as [Hr|Hr].
    { rewrite (H1 Hr) in Hp. destruct (period_pricing db !! p) as [pr0|]; [|done]. injection Hp as <-.
      destruct (Hold pr0 eq_refl) as (Hc & _ & Hwf). split_and!; [|lia|].
      - apply reprice_claims. destruct Hwf as [_ Hmi _ _ _].
        eapply claims_match_mints; [exact Hc|done|simpl; unfold sat_add_u64; lia..].
      - apply reprice_wf. replace (20 - Z.max 0 (p - new)) with ((20 - Z.max 0 (p - cur)) + (new - cur)) by lia.
        apply add_mints_wf; [lia|lia|done]. }
    destruct (decide (cur + 20 ≤ p ≤ new + 19)) as [Hr'|Hr'].
    { destruct (H2 Hr') as (sd & Hs0 & Hsd). rewrite Hsd in Hp. injection Hp as <-.
      split_and!; [|lia|apply new_seeded_wf; lia]. unfold claims_match, standard_ids.
      destruct (period_decisions db !! p) eqn:Ep; [|done].
      assert (0 ≤ p ≤ cur + 19) by (apply (wi_keys _ _ Hinv); eauto). lia. }
    rewrite H3 in Hp by lia. destruct (Hold pr Hp) as (? & ? & ?).
    split_and!; [done|lia|]. eapply pricing_wf_weaken; [|done]. lia.
  - replace (Z.max cur new) with cur by lia. destruct Hm as [->| ->]; [by apply Hold|].
    rewrite reprice_lookup in Hp by apply range_incl_NoDup.
    case_bool_decide; [|by apply Hold].
    destruct (period_pricing db !! p) as [pr0|] eqn:Ep; simpl in Hp; [|discriminate].
    injection Hp as <-. destruct (Hold pr0 eq_refl) as (? & ? & ?).
    split_and!; [by apply reprice_claims|done|by apply reprice_wf].
Qed.

(** The step prices what it mints. *)
Lemma process_full db cur new h m db' :
  window_full db cur → priced_step db cur new h m → period_pricing db' = m → window_full db' (Z.max cur new).
Proof.
  intros Hf Hm Hdb p Hp. rewrite Hdb. unfold priced_step in Hm. destruct (Z.ltb_spec cur new) as [E|E].
  - subst m. destruct (moved_lookup cur new h (period_pricing db) p ltac:(lia)) as (H1 & H2 & _).
    destruct (decide (p ≤ cur + 19)).
    + rewrite H1 by lia. destruct (Hf p ltac:(lia)) as [pr ->]. by eexists.
    + destruct (H2 ltac:(lia)) as (sd & _ & ->). by eexists.
  - destruct (Hf p ltac:(lia)) as [pr Hpr]. destruct Hm as [->| ->]; [by eexists|].
    rewrite reprice_lookup by apply range_incl_NoDup. rewrite Hpr. case_bool_decide; by eexists.
Qed.

(** The pricing step keeps the invariant, at whatever period it runs; a full
    window stays full. *)
Lemma process_preserves db cur new h ts g :
  window_inv db cur → dbs_get_current_period db ts (Some h) g = Ok new → 0 ≤ new → new + 20 ≤ U32_MAX →
  ∃ db', process_block_pricing db h ts g = Ok db' ∧ window_inv db' (Z.max cur new) ∧
         (window_full db cur → window_full db' (Z.max cur new)).
Proof.
  intros Hinv Hnew Hle Hmax. destruct (wi_cur _ _ Hinv).
  destruct (process_moves _ _ _ _ _ _ Hinv Hnew Hle Hmax) as (m & -> & Hm). fold (priced_step db cur new h m) in Hm.
  eexists. split; [done|]. split; [|intros Hf; by eapply process_full]. destruct (window_highest _ _ Hinv) as [_ Hex].
  assert (∀ k, period_decisions (mint_periods_up_to db (new + 19)) !! k =
            if bool_decide (cur + 19 < k ≤ new + 19) then Some [] else period_decisions db !! k)
    as Hlk by (intros k; rewrite mint_lookup; rewrite Hex; [done|lia]).
  split; cbn [set_pricing period_decisions period_pricing]; [lia| | | | |].
  - intros p. rewrite (Hlk p). case_bool_decide; [lia|]. intros Hp.
    apply (wi_keys _ _ Hinv) in Hp. lia.
  - rewrite (Hlk (Z.max cur new + 19)). case_bool_decide; [by eauto|].
    replace (Z.max cur new + 19) with (cur + 19) by lia. apply (wi_top _ _ Hinv).
  - intros p pr Hp. by apply (process_priced db cur new h m p pr).
  - intros p es. rewrite (Hlk p). case_bool_decide; [|apply (wi_entries _ _ Hinv)].
    intros [= <-]. split; constructor.
  - intros p pr Hp. destruct (process_priced _ _ _ _ _ _ _ Hinv Hle Hmax Hm Hp) as [Hc _].
    unfold claims_match in *. change (standard_ids (set_pricing ?a ?b) p) with (standard_ids a p).
    rewrite standard_ids_mint; [done|lia|]. intros q Hq.
    destruct (period_decisions db !! q) eqn:Eq; [|done].
    assert (0 ≤ q ≤ cur + 19) by (apply (wi_keys _ _ Hinv); eauto). lia.
Qed.

End Window.

(** ** Ordered sets of entries *)

Section Entries.

Lemma DecisionId_cmp_eq a b : DecisionId_cmp a b = Eq ↔ a = b.
Proof.
  unfold DecisionId_cmp. destruct a as [a0 a1 a2], b as [b0 b1 b2]; simpl. split.
  - destruct (Z.compare_spec a0 b0); simpl; [|done..].
    destruct (Z.compare_spec a1 b1); simpl; [|done..].
    intros ?%Z.compare_eq_iff. by subst.
  - intros [= -> -> ->]. by rewrite !Z.compare_refl.
Qed.

Lemma DecisionId_cmp_antisym a b : DecisionId_cmp b a = CompOpp (DecisionId_cmp a b).
Proof.
  unfold DecisionId_cmp.
  rewrite (Z.compare_antisym (byte0 a) (byte0 b)), (Z.compare_antisym (byte1 a) (byte1 b)),
    (Z.compare_antisym (byte2 a) (byte2 b)).
  destruct (byte0 a ?= byte0 b); simpl; [|done..]. by destruct (byte1 a ?= byte1 b).
Qed.

Lemma DecisionId_cmp_trans a b c :
  DecisionId_cmp a b = Lt → DecisionId_cmp b c = Lt → DecisionId_cmp a c = Lt.
Proof.
  unfold DecisionId_cmp.
  destruct (Z.compare_spec (byte0 a) (byte0 b)), (Z.compare_spec (byte0 b) (byte0 c)),
    (Z.compare_spec (byte0 a) (byte0 c)); simpl; try done; try lia;
  destruct (Z.compare_spec (byte1 a) (byte1 b)), (Z.compare_spec (byte1 b) (byte1 c)),
    (Z.compare_spec (byte1 a) (byte1 c)); simpl; try done; try lia;
  rewrite !Z.compare_lt_iff; lia.
Qed.

Lemma entry_cmp_id e x :
  decision_id e ≠ decision_id x → DecisionEntry_cmp e x = DecisionId_cmp (decision_id e) (decision_id x).
Proof.
  intros Hne. unfold DecisionEntry_cmp.
  destruct (DecisionId_cmp (decision_id e) (decision_id x)) eqn:E; simpl; [|done..].
  by apply DecisionId_cmp_eq in E.
Qed.

Lemma entry_cmp_eq_id e x : DecisionEntry_cmp e x = Eq → decision_id e = decision_id x.
Proof.
  unfold DecisionEntry_cmp.
  destruct (DecisionId_cmp (decision_id e) (decision_id x)) eqn:E; simpl; [|done..].
  intros _. by apply DecisionId_cmp_eq.
Qed.

Lemma btree_insert_fresh e l :
  Forall (fun x => decision_id x ≠ decision_id e) l → StronglySorted id_lt l →
  btree_insert e l ≡ₚ e :: l ∧ StronglySorted id_lt (btree_insert e l).
Proof.
  intros Hne. induction Hne as [|x l Hx Hne IH]; intros Hs; simpl; [by repeat constructor|].
  inversion Hs as [|?? Hs' Hall]; subst.
  rewrite (entry_cmp_id e x) by congruence.
  destruct (DecisionId_cmp (decision_id e) (decision_id x)) eqn:E.
  - apply DecisionId_cmp_eq in E. congruence.
  - split; [done|]. constructor; [done|]. constructor; [done|].
    eapply Forall_impl; [exact Hall|]. intros y. unfold id_lt. by apply DecisionId_cmp_trans.
  - destruct (IH Hs') as [Hp Hs'']. split; [by rewrite Hp, perm_swap|].
    constructor; [done|]. rewrite Hp. constructor; [|done].
    unfold id_lt. by rewrite DecisionId_cmp_antisym, E.
Qed.

Lemma sorted_ids_NoDup l : StronglySorted id_lt l → NoDup (map decision_id l).
Proof.
  induction 1 as [|e l Hs IH Hall]; simpl; constructor; [|done].
  intros (x & Hx & Hin)%list_elem_of_fmap. rewrite Forall_forall in Hall.
  specialize (Hall x Hin). unfold id_lt in Hall. rewrite Hx in Hall.
  by rewrite (proj2 (DecisionId_cmp_eq _ _) eq_refl) in Hall.
Qed.

(** The search by id that the ordered search implements. *)
Definition find_entry (id : DecisionId) (l : list DecisionEntry) : option DecisionEntry :=
  List.find (fun e => bool_decide (decision_id e = id)) l.

Lemma find_entry_cons id e l :
  find_entry id (e :: l) = if bool_decide (decision_id e = id) then Some e else find_entry id l.
Proof. done. Qed.

Lemma find_entry_none id l : Forall (fun e => decision_id e ≠ id) l → find_entry id l = None.
Proof.
  induction 1 as [|e l He _ IH]; [done|]. unfold find_entry in *. simpl.
  by rewrite bool_decide_eq_false_2.
Qed.

Lemma scan_entries_find id l : StronglySorted id_lt l → scan_entries id l = find_entry id l.
Proof.
  induction 1 as [|e l Hs IH Hall]; [done|]. unfold find_entry. simpl.
  case_bool_decide as He; [done|].
  destruct (DecisionId_cmp (decision_id e) id) eqn:E; simpl; try exact IH.
  symmetry. apply (find_entry_none id). eapply Forall_impl; [exact Hall|].
  intros x Hx Hid. unfold id_lt in Hx. by rewrite Hid, E in Hx.
Qed.

Lemma search_entry_cmp id e :
  entry_claimed e = true →
  DecisionEntry_cmp (search_entry id) e =
    if bool_decide (decision_id e = id) then Lt else DecisionId_cmp id (decision_id e).
Proof.
  intros Hc. unfold entry_claimed in Hc. case_bool_decide as Hid.
  - unfold DecisionEntry_cmp. simpl.
    rewrite (proj2 (DecisionId_cmp_eq id (decision_id e)) (eq_sym Hid)). simpl.
    by destruct (decision e).
  - by rewrite (entry_cmp_id (search_entry id) e) by (simpl; congruence).
Qed.

Lemma btree_get_search id l :
  Forall (fun e => entry_claimed e = true) l → btree_get (search_entry id) l = None.
Proof.
  induction 1 as [|e l He _ IH]; [done|]. unfold btree_get in *. simpl.
  rewrite search_entry_cmp by done. case_bool_decide as Hid; simpl; [done|].
  destruct (DecisionId_cmp id (decision_id e)) eqn:E; simpl; try done.
  by apply DecisionId_cmp_eq in E.
Qed.

Lemma find_range id l :
  Forall (fun e => entry_claimed e = true) l →
  find_entry id (btree_range (search_entry id) l) = find_entry id l.
Proof.
  induction 1 as [|e l He _ IH]; [done|]. unfold btree_range in *. rewrite filter_cons.
  unfold find_entry in *. simpl. rewrite search_entry_cmp by done.
  case_bool_decide as Hid; simpl.
  - by rewrite bool_decide_eq_true_2.
  - case_decide; simpl; [by rewrite bool_decide_eq_false_2|done].
Qed.

Lemma StronglySorted_filter {A} (R : A → A → Prop) (P : A → Prop) `{!∀ x, base.Decision (P x)} l :
  StronglySorted R l → StronglySorted R (filter P l).
Proof.
  induction 1 as [|x l Hs IH Hall]; [constructor|]. rewrite filter_cons.
  destruct (decide (P x)); [|done]. constructor; [done|].
  apply Forall_forall. intros y Hy. apply list_elem_of_filter in Hy as [_ Hy].
  rewrite Forall_forall in Hall. by apply Hall.
Qed.

Lemma get_entry_find db cur id :
  window_inv db cur →
  get_decision_entry db id = find_entry id (default [] (period_decisions db !! period_index id)).
Proof.
  intros Hinv. unfold get_decision_entry.
  destruct (period_decisions db !! period_index id) as [es|] eqn:Ee; [|done]. simpl.
  destruct (wi_entries _ _ Hinv _ _ Ee) as [Hok Hs].
  assert (Forall (fun e => entry_claimed e = true) es) as Hc
    by (eapply Forall_impl; [exact Hok|]; by intros e (_ & _ & ?)).
  rewrite btree_get_search by done. rewrite scan_entries_find; [by apply find_range|].
  by apply StronglySorted_filter.
Qed.

End Entries.

(** ** Claims *)

Section Claims.

Lemma standard_id_inj a b :
  wf_id a → wf_id b → is_standard a = is_standard b → period_index a = period_index b →
  decision_index a = decision_index b → a = b.
Proof.
  intros Ha Hb. rewrite !is_standard_eq, !period_index_eq, !decision_index_eq by done.
  destruct Ha as (A0 & A1 & A2), Hb as (B0 & B1 & B2). unfold is_u8 in *.
  destruct a as [a0 a1 a2], b as [b0 b1 b2]. simpl in *. intros Hs Hp Hi.
  assert (a0 = b0) by (destruct (128 <=? a0) eqn:?, (128 <=? b0) eqn:?; zify_div).
  assert (a1 = b1 ∧ a2 = b2) as [-> ->] by lia. by subst.
Qed.

(** The standard claims of a period fit in the slots its mints unlocked. *)
Lemma standard_claims_bounded p m ids :
  NoDup ids → 0 ≤ m ≤ 20 →
  Forall (fun id => wf_id id ∧ is_standard id = true ∧ period_index id = p ∧
                    slot_unlocked (decision_index id) m = true) ids →
  Z.of_nat (length ids) ≤ 25 * m.
Proof.
  intros Hnd Hm Hall. rewrite Forall_forall in Hall.
  assert (NoDup (map decision_index ids)) as Hnd'.
  { apply NoDup_fmap_2_strong; [|done]. intros a b Ha Hb Heq.
    destruct (Hall a Ha) as (? & ? & ? & _), (Hall b Hb) as (? & ? & ? & _).
    apply standard_id_inj; congruence. }
  assert (map decision_index ids ⊆+
          filter (fun i => slot_unlocked i m = true) (range 0 SLOTS_PER_PERIOD_MAX)) as Hsub.
  { apply NoDup_submseteq; [done|]. intros i (id & -> & Hid)%list_elem_of_fmap.
    destruct (Hall id Hid) as (Hwf & _ & _ & Hu). apply list_elem_of_filter. split; [done|].
    apply elem_of_range. split.
    - rewrite decision_index_eq by done. destruct Hwf as (_ & H1 & H2). unfold is_u8 in *. lia.
    - unfold slot_unlocked in Hu. case_match; [done|]. lia. }
  apply submseteq_length in Hsub. rewrite length_map, unlocked_count in Hsub by lia. lia.
Qed.

Lemma claimed_ids_spec db cur id :
  window_inv db cur → id ∈ get_claimed_decision_ids_for_period db (period_index id) ↔
  id ∈ map decision_id (default [] (period_decisions db !! period_index id)).
Proof.
  intros Hinv. unfold get_claimed_decision_ids_for_period. rewrite elem_of_remove_dups.
  rewrite list_filter_all; [done|].
  destruct (period_decisions db !! period_index id) as [es|] eqn:Ee; [|constructor].
  destruct (wi_entries _ _ Hinv _ _ Ee) as [Hok _].
  eapply Forall_impl; [exact Hok|]. by intros e (_ & _ & ?).
Qed.

Lemma current_period_u32 ts height g cfg p :
  get_current_period ts height g cfg = Ok p → is_u32 p.
Proof.
  unfold get_current_period. case_match.
  - intros [= <-]. destruct (checked_div _ _); simpl; [apply as_u32_range|done].
  - case_match; intros [= <-]; [done|apply as_u32_range].
Qed.

(** What a successful validation at the period [v] has checked, and what a claim
    relies on when it is applied. *)
Definition claim_ready (db : Dbs) (id : DecisionId) : Prop :=
  wf_id id ∧ id ∉ map decision_id (default [] (period_decisions db !! period_index id)) ∧
  (is_standard id = true → ∃ pr, period_pricing db !! period_index id = Some pr ∧
     slot_unlocked (decision_index id) (mints pr) = true).

Lemma validate_claim_inv db cur id ts height g v :
  window_inv db cur → wf_id id → v + 20 ≤ U32_MAX → dbs_get_current_period db ts height g = Ok v →
  validate_decision_claim db id ts height g = Ok tt →
  period_index id ≤ v + 19 ∧ claim_ready db id.
Proof.
  intros Hinv Hid Hmax Hcur Hv. pose proof (current_period_u32 _ _ _ _ _ Hcur) as [H0 _].
  unfold validate_decision_claim in Hv.
  rewrite Hcur in Hv. unfold get_active_window in Hv. rewrite Hcur in Hv. unfold FUTURE_PERIODS in Hv.
  unfold mbind, result_bind in Hv. cbv beta iota zeta in Hv.
  rewrite as_u32_small in Hv by (unfold is_u32; lia).
  inv_ok. to_prop.
  split; [lia|]. split_and!; [done|by rewrite <- (claimed_ids_spec db cur id Hinv)|].
  intros Hst. rewrite Hst in *. inv_ok. to_prop. eauto.
Qed.

Section Claim.
Context (db : Dbs) (cur : Z) (id : DecisionId) (d : Decision) (txid : Txid) (height : option Z).

Definition claimed_entry : DecisionEntry :=
  {| decision_id := id; decision := Some d; claiming_txid := txid |}.

Definition claim_entries : gmap Z (list DecisionEntry) :=
  <[period_index id := btree_insert claimed_entry (default [] (period_decisions db !! period_index id))]>
    (period_decisions db).

Definition claim_pricing (pr : PeriodPricing) : gmap Z PeriodPricing :=
  if is_standard id then <[period_index id := add_claimed pr]> (period_pricing db)
  else period_pricing db.

Lemma claim_decision_eq pr :
  (is_standard id = true → period_pricing db !! period_index id = Some pr) →
  claim_decision db id d txid height =
    Ok {| period_decisions := claim_entries;
          decision_state_histories :=
            <[id := new_claimed (default 0 height)]> (decision_state_histories db);
          period_pricing := claim_pricing pr;
          period_pricing_undo := period_pricing_undo db; config := config db |}.
Proof.
  intros Hp. unfold claim_decision, claim_pricing. cbn [set_histories set_period_decisions period_pricing].
  destruct (is_standard id); [|done]. by rewrite Hp.
Qed.

Context (Hinv : window_inv db cur) (Hid : wf_id id).
Context (Hfresh : id ∉ map decision_id (default [] (period_decisions db !! period_index id))).

Lemma old_entries_ok :
  Forall (entry_ok (period_index id)) (default [] (period_decisions db !! period_index id)) ∧
  StronglySorted id_lt (default [] (period_decisions db !! period_index id)).
Proof.
  destruct (period_decisions db !! period_index id) as [es|] eqn:E; [|split; constructor].
  by apply (wi_entries _ _ Hinv).
Qed.

Lemma new_entries :
  btree_insert claimed_entry (default [] (period_decisions db !! period_index id))
    ≡ₚ claimed_entry :: default [] (period_decisions db !! period_index id) ∧
  StronglySorted id_lt
    (btree_insert claimed_entry (default [] (period_decisions db !! period_index id))).
Proof.
  apply btree_insert_fresh; [|apply old_entries_ok].
  apply Forall_forall. intros x Hx Heq. apply Hfresh. apply list_elem_of_fmap. eauto.
Qed.

Lemma claim_entries_ok p es :
  claim_entries !! p = Some es → Forall (entry_ok p) es ∧ StronglySorted id_lt es.
Proof.
  unfold claim_entries. destruct (decide (p = period_index id)) as [->|Hne].
  - rewrite lookup_insert_eq. intros Heq%(inj Some). subst es.
    destruct new_entries as [Hp Hs].
    split; [|done]. rewrite Hp. constructor; [by split_and!|apply old_entries_ok].
  - rewrite lookup_insert_ne by done. apply (wi_entries _ _ Hinv).
Qed.

(** The standard ids of a period after the claim. *)
Lemma claim_standard_ids histories pricing undo p :
  standard_ids {| period_decisions := claim_entries; decision_state_histories := histories;
                  period_pricing := pricing; period_pricing_undo := undo; config := config db |} p
    ≡ₚ (if bool_decide (p = period_index id ∧ is_standard id = true)
        then id :: standard_ids db p else standard_ids db p).
Proof.
  unfold standard_ids, claim_entries. cbn [period_decisions].
  destruct (decide (p = period_index id)) as [->|Hne].
  - rewrite lookup_insert_eq. cbn [from_option Datatypes.id].
    rewrite (proj1 new_entries). cbn [map claimed_entry decision_id]. rewrite filter_cons.
    destruct (decide (is_standard id = true)) as [Hs|Hs].
    + by rewrite bool_decide_eq_true_2.
    + rewrite bool_decide_eq_false_2; [done|]. by intros [_ ?].
  - rewrite lookup_insert_ne by done. rewrite bool_decide_eq_false_2; [done|]. by intros [? _].
Qed.

(** The pricing record of the claimed slot stays well formed. *)
Lemma add_claimed_wf pr bound :
  is_standard id = true → period_pricing db !! period_index id = Some pr →
  slot_unlocked (decision_index id) (mints pr) = true →
  pricing_wf bound pr → bound ≤ 20 →
  pricing_wf bound (add_claimed pr) ∧ claimed (add_claimed pr) = claimed pr + 1.
Proof.
  intros Hst Hpr Hu [Hf Hm Hw Hwm Hs] Hb.
  destruct (wi_claims _ _ Hinv _ _ Hpr) as [Hlen Hall].
  assert (Z.of_nat (length (id :: standard_ids db (period_index id))) ≤ 25 * mints pr) as Hbound.
  { apply (standard_claims_bounded (period_index id)); [|lia|].
    - constructor.
      + unfold standard_ids. rewrite list_elem_of_filter. by intros [_ ?].
      + apply NoDup_filter, sorted_ids_NoDup, old_entries_ok.
    - constructor; [done|]. apply Forall_forall. intros x Hx.
      rewrite Forall_forall in Hall. specialize (Hall x Hx).
      apply list_elem_of_filter in Hx as [Hsx (e & -> & He)%list_elem_of_fmap].
      destruct old_entries_ok as [Hok _]. rewrite Forall_forall in Hok.
      destruct (Hok e He) as (? & ? & _). by split_and!. }
  simpl in Hbound. assert (claimed (add_claimed pr) = claimed pr + 1) as Hc
    by (simpl; unfold sat_add_u64; lia).
  split; [|done]. split; rewrite ?Hc; simpl; lia.
Qed.

(** A claim keeps the invariant; one of a period that is not minted yet moves the
    window. *)
Lemma claim_preserves pr histories undo :
  (is_standard id = true → period_pricing db !! period_index id = Some pr ∧
     slot_unlocked (decision_index id) (mints pr) = true) →
  window_inv {| period_decisions := claim_entries; decision_state_histories := histories;
                period_pricing := claim_pricing pr; period_pricing_undo := undo;
                config := config db |} (Z.max cur (period_index id - 19)).
Proof.
  intros Hst. destruct (wi_cur _ _ Hinv). pose proof (period_index_range id Hid).
  split; cbn [period_decisions period_pricing]; [lia| | | |apply claim_entries_ok|].
  - intros p. unfold claim_entries. destruct (decide (p = period_index id)) as [->|Hne]; [lia|].
    rewrite lookup_insert_ne by done. intros Hp%(wi_keys _ _ Hinv). lia.
  - unfold claim_entries. destruct (decide (Z.max cur (period_index id - 19) + 19 = period_index id)) as [->|Hne].
    + rewrite lookup_insert_eq. eauto.
    + rewrite lookup_insert_ne by done. replace (Z.max cur (period_index id - 19)) with cur by lia.
      apply (wi_top _ _ Hinv).
  - intros p pr' Hp. assert (∀ pr0, period_pricing db !! p = Some pr0 →
      p ≤ cur + 19 ∧ pricing_wf (20 - Z.max 0 (p - Z.max cur (period_index id - 19))) pr0) as Hold.
    { intros pr0 [Hle Hwf]%(wi_priced _ _ Hinv). split; [done|]. eapply pricing_wf_weaken; [|done]. lia. }
    split; unfold claim_pricing in Hp; (destruct (is_standard id) eqn:Es; [|destruct (Hold _ Hp); done || lia]);
      destruct (Hst eq_refl) as (Hpr & Hu); (destruct (decide (p = period_index id)) as [->|Hne];
        [|rewrite lookup_insert_ne in Hp by done; destruct (Hold _ Hp); done || lia]).
    + destruct (Hold _ Hpr). lia.
    + rewrite lookup_insert_eq in Hp. injection Hp as <-. apply add_claimed_wf; [done..|by apply Hold|lia].
  - intros p pr' Hp. unfold claims_match. rewrite !claim_standard_ids. unfold claim_pricing in Hp.
    case_bool_decide as Hcase.
    + destruct Hcase as [-> Es]. rewrite Es in Hp. destruct (Hst Es) as (Hpr & Hu).
      rewrite lookup_insert_eq in Hp. injection Hp as <-.
      destruct (wi_priced _ _ Hinv (period_index id) pr Hpr) as [_ Hwf].
      destruct (add_claimed_wf pr _ Es Hpr Hu Hwf ltac:(lia)) as [_ ->].
      destruct (wi_claims _ _ Hinv _ _ Hpr) as [Hlen Hall].
      split; [simpl length; lia|by constructor].
    + destruct (is_standard id) eqn:Es; [|by apply (wi_claims _ _ Hinv)].
      destruct (decide (p = period_index id)); [by destruct Hcase|].
      rewrite lookup_insert_ne in Hp by done. by apply (wi_claims _ _ Hinv).
Qed.

End Claim.
End Claims.

(** ** Reachable databases *)

Section Reachable.

(** A claim of a block: the decision, the transaction and the clock (timestamp,
    height and genesis timestamp) it was validated at, with the period that
    clock gives.  The claims inside market creations are validated at another
    clock than the others. *)
Record ClaimEvent : Type := {
  cl_id : DecisionId;
  cl_decision : Decision;
  cl_txid : Txid;
  cl_timestamp : Z;
  cl_height : option Z;
  cl_genesis : Z;
  cl_period : Z;
  cl_recorded : option Z
}.

Definition claim_valid (db : Dbs) (c : ClaimEvent) : Prop :=
  wf_id (cl_id c) ∧ cl_period c + 20 ≤ U32_MAX ∧
  dbs_get_current_period db (cl_timestamp c) (cl_height c) (cl_genesis c) = Ok (cl_period c) ∧
  validate_decision_claim db (cl_id c) (cl_timestamp c) (cl_height c) (cl_genesis c) = Ok tt.

Definition claim_one (db : Dbs) (c : ClaimEvent) : result Error Dbs :=
  claim_decision db (cl_id c) (cl_decision c) (cl_txid c) (cl_recorded c).

(** The operations blocks apply to the tables, in any order: minting at the
    genesis block, then snapshots, the claims of a block, transitions of
    decisions and the pricing step.  The claims of a block are of distinct
    decisions and all validated, each at a clock of its own, before the first
    is applied; snapshots and transitions in between leave the two tables
    alone.  The index is the period of the last pricing step, and whether no
    claim was validated ahead of that period and no step went back. *)
Inductive decisions_reach : Dbs → Z → bool → Prop :=
| reach_genesis db0 ts h g cur db :
    period_decisions db0 = ∅ → period_pricing db0 = ∅ →
    dbs_get_current_period db0 ts (Some h) g = Ok cur → cur + 20 ≤ U32_MAX →
    mint_genesis db0 ts h g = Ok db → decisions_reach db cur true
| reach_snapshot db cur timely h :
    decisions_reach db cur timely → decisions_reach (snapshot_period_pricing db h) cur timely
| reach_claims db0 db cur timely claims db' :
    decisions_reach db cur timely →
    period_decisions db0 = period_decisions db → period_pricing db0 = period_pricing db →
    Forall (claim_valid db0) claims → NoDup (map cl_id claims) →
    try_fold claim_one db claims = Ok db' →
    decisions_reach db' cur (timely && forallb (fun c => cl_period c <=? cur) claims)
| reach_voting db cur timely id h db' :
    decisions_reach db cur timely → transition_decision_to_voting db id h = Ok db' →
    decisions_reach db' cur timely
| reach_resolved db cur timely id h o db' :
    decisions_reach db cur timely → transition_decision_to_resolved db id h o = Ok db' →
    decisions_reach db' cur timely
| reach_pricing db cur timely new h ts g db' :
    decisions_reach db cur timely → dbs_get_current_period db ts (Some h) g = Ok new →
    new + 20 ≤ U32_MAX → process_block_pricing db h ts g = Ok db' →
    decisions_reach db' new (timely && (cur <=? new)).

Lemma genesis_fold_lookup (f : Z → PeriodPricing) l (m : gmap Z PeriodPricing) k :
  foldl (fun m p => match m !! p with Some _ => m | None => <[p := f p]> m end) m l !! k =
  match m !! k with Some v => Some v | None => if bool_decide (k ∈ l) then Some (f k) else None end.
Proof.
  revert m. induction l as [|p l IH]; intros m; simpl; [by destruct (m !! k)|].
  rewrite IH. destruct (m !! p) as [v|] eqn:Ep.
  - destruct (decide (k = p)) as [->|Hne]; [by rewrite Ep|].
    destruct (m !! k); [done|]. repeat case_bool_decide; set_solver.
  - destruct (decide (k = p)) as [->|Hne].
    + rewrite lookup_insert_eq, Ep. rewrite bool_decide_eq_true_2 by set_solver. done.
    + rewrite lookup_insert_ne by done. destruct (m !! k); [done|].
      repeat case_bool_decide; set_solver.
Qed.

Lemma genesis_window db0 ts h g cur db :
  period_decisions db0 = ∅ → period_pricing db0 = ∅ →
  dbs_get_current_period db0 ts (Some h) g = Ok cur → cur + 20 ≤ U32_MAX →
  mint_genesis db0 ts h g = Ok db → window_inv db cur ∧ window_full db cur.
Proof.
  intros He Hp Hcur Hmax Hg. pose proof (current_period_u32 _ _ _ _ _ Hcur) as [H0 _].
  unfold mint_genesis in Hg. rewrite Hcur in Hg. unfold mbind, result_bind, FUTURE_PERIODS in Hg.
  cbv beta iota zeta in Hg.
  rewrite as_u32_small in Hg by (unfold is_u32; lia).
  replace (cur + 20 - 1) with (cur + 19) in Hg by lia.
  rewrite (proj1 (mint_other _ _)), Hp in Hg. injection Hg as <-.
  assert (highest_existing db0 = 0) as Hh by (unfold highest_existing; by rewrite He).
  assert (∀ k, period_decisions (mint_periods_up_to db0 (cur + 19)) !! k =
            if bool_decide (0 < k ≤ cur + 19) then Some [] else None) as Hlk.
  { intros k. rewrite mint_lookup; rewrite Hh; [|lia]. by rewrite He, lookup_empty. }
  assert (∀ p, standard_ids (mint_periods_up_to db0 (cur + 19)) p = []) as Hstd
    by (intros p; unfold standard_ids; rewrite Hlk; by case_bool_decide).
  split.
  2: { intros p Hpr. cbn [set_pricing period_pricing]. rewrite genesis_fold_lookup, lookup_empty.
       rewrite bool_decide_eq_true_2 by (by apply elem_of_range_incl). by eexists. }
  split; cbn [set_pricing period_decisions period_pricing]; [lia| | | | |].
  - intros p. rewrite Hlk. case_bool_decide; [lia|]. by intros [? [=]].
  - rewrite Hlk. rewrite bool_decide_eq_true_2 by lia. eauto.
  - intros p pr. rewrite genesis_fold_lookup, lookup_empty. case_bool_decide as Hin; [|done].
    apply elem_of_range_incl in Hin. intros [= <-]. split; [lia|].
    split; simpl; unfold GENESIS_P_PERIOD_SATS, sat_sub; zify_div.
  - intros p es. rewrite Hlk. case_bool_decide; [|done]. intros [= <-]. split; constructor.
  - intros p pr. rewrite genesis_fold_lookup, lookup_empty. case_bool_decide; [|done].
    intros [= <-]. unfold claims_match.
    change (standard_ids (set_pricing ?a ?b) p) with (standard_ids a p). rewrite Hstd.
    by split; [|constructor].
Qed.

(** The database after a claim. *)
Definition claimed_db (db : Dbs) (id : DecisionId) (d : Decision) (txid : Txid) (height : option Z)
  (pr : PeriodPricing) : Dbs :=
  {| period_decisions := claim_entries db id d txid;
     decision_state_histories := <[id := new_claimed (default 0 height)]> (decision_state_histories db);
     period_pricing := claim_pricing db id pr;
     period_pricing_undo := period_pricing_undo db; config := config db |}.

Lemma claim_result db cur id d txid height :
  window_inv db cur → claim_ready db id →
  ∃ pr, (is_standard id = true → period_pricing db !! period_index id = Some pr) ∧
    claim_decision db id d txid height = Ok (claimed_db db id d txid height pr) ∧
    window_inv (claimed_db db id d txid height pr) (Z.max cur (period_index id - 19)) ∧
    (window_full db cur → period_index id ≤ cur + 19 → window_full (claimed_db db id d txid height pr) cur).
Proof.
  intros Hinv (Hid & Hfresh & Hst).
  assert (∃ pr, is_standard id = true → period_pricing db !! period_index id = Some pr ∧
            slot_unlocked (decision_index id) (mints pr) = true) as [pr Hpr].
  { destruct (is_standard id) eqn:Es; [|by exists (new_seeded 0 0)].
    destruct (Hst eq_refl) as (pr & ? & ?). by exists pr. }
  exists pr. split; [intros Es; by apply Hpr|].
  split; [apply claim_decision_eq; intros Es; by apply Hpr|]. split; [by apply claim_preserves|].
  intros Hf Hle p Hp. unfold claimed_db, claim_pricing. cbn [period_pricing].
  destruct (is_standard id); [|by apply Hf]. destruct (decide (p = period_index id)) as [->|];
    [rewrite lookup_insert_eq; by eexists|rewrite lookup_insert_ne by done; by apply Hf].
Qed.

(** A claim of another decision changes nothing a claim relies on. *)
Lemma claim_ready_stable db cur id d txid height pr id' :
  window_inv db cur → claim_ready db id → (is_standard id = true → period_pricing db !! period_index id = Some pr) →
  id' ≠ id → claim_ready db id' → claim_ready (claimed_db db id d txid height pr) id'.
Proof.
  intros Hinv (Hid & Hfresh & _) Hpr Hne (Hid' & Hn & Hst). split_and!; [done| |].
  - unfold claimed_db, claim_entries. cbn [period_decisions].
    destruct (decide (period_index id' = period_index id)) as [E|E]; [|by rewrite lookup_insert_ne].
    rewrite E, lookup_insert_eq. cbn [from_option Datatypes.id].
    rewrite (proj1 (new_entries db cur id d txid Hinv Hfresh)). cbn [map claimed_entry decision_id].
    apply not_elem_of_cons. split; [done|]. by rewrite <- E.
  - intros Es'. destruct (Hst Es') as (pr' & Hpr' & Hu). unfold claimed_db, claim_pricing. cbn [period_pricing].
    destruct (is_standard id) eqn:Es; [|by eauto].
    destruct (decide (period_index id' = period_index id)) as [E|E]; [|rewrite lookup_insert_ne by done; eauto].
    rewrite E, lookup_insert_eq. eexists. split; [done|]. rewrite E, (Hpr eq_refl) in Hpr'. by simplify_eq.
Qed.

Lemma claims_preserve db cur claims db' :
  window_inv db cur → Forall (fun c => claim_ready db (cl_id c)) claims → NoDup (map cl_id claims) →
  try_fold claim_one db claims = Ok db' →
  ∃ w, window_inv db' w ∧
    (window_full db cur → Forall (fun c => period_index (cl_id c) ≤ cur + 19) claims → w = cur ∧ window_full db' cur).
Proof.
  revert db cur. induction claims as [|c claims IH]; intros db cur Hinv Hr Hnd Hf; cbn [try_fold] in Hf.
  { injection Hf as <-. eauto. }
  apply Forall_cons in Hr as [Hc Hr]. apply NoDup_cons in Hnd as [Hnc Hnd].
  destruct (claim_result db cur (cl_id c) (cl_decision c) (cl_txid c) (cl_recorded c) Hinv Hc) as (pr & Hpr & Heq & Hw & Hfull).
  unfold claim_one at 1 in Hf. rewrite Heq in Hf.
  destruct (IH _ _ Hw) with (3 := Hf) as (w & Hw' & Hfull'); [|done|].
  { apply Forall_forall. intros c' Hc'. rewrite Forall_forall in Hr. eapply claim_ready_stable; eauto.
    intros E. apply Hnc. apply list_elem_of_fmap. eauto. }
  exists w. split; [done|]. intros Hdb [Hle Hall]%Forall_cons.
  assert (Z.max cur (period_index (cl_id c) - 19) = cur) as E by lia. rewrite E in *. by apply Hfull'; [apply Hfull|].
Qed.

Lemma reach_window db cur timely :
  decisions_reach db cur timely → 0 ≤ cur ∧
  ∃ w, window_inv db w ∧ (timely = true → w = cur ∧ window_full db cur).
Proof.
  induction 1 as [|db cur timely h _ (H0 & w & Hw & Hfull)|db0 db cur timely claims db' _ (H0 & w & IH & Hfull) Hd Hp Hv Hnd Hf
                 |? ? ? ? ? ? _ IH Ht|? ? ? ? ? ? ? _ IH Ht
                 |db cur timely new h ts g db' _ (H0 & w & IH & Hfull) Hnew Hmax Hp].
  - split; [by eapply current_period_u32|]. exists cur. by destruct (genesis_window db0 ts h g cur db).
  - split; [done|]. exists w. split; [by refine (window_inv_tables _ _ _ _ _ Hw)|done].
  - split; [done|]. assert (window_inv db0 w) as Hw0 by (by apply (window_inv_tables db)).
    assert (Forall (fun c => period_index (cl_id c) ≤ cl_period c + 19 ∧ claim_ready db (cl_id c)) claims) as Hall.
    { eapply Forall_impl; [exact Hv|]. intros c (Hid & Hmax & Hcur & Hval).
      destruct (validate_claim_inv _ _ _ _ _ _ _ Hw0 Hid Hmax Hcur Hval) as [Hle Hr]. split; [done|].
      unfold claim_ready in *. by rewrite Hd, Hp in Hr. }
    destruct (claims_preserve db w claims db' IH) with (3 := Hf) as (w' & Hw' & Hfull'); [|done|].
    { eapply Forall_impl; [exact Hall|]. by intros c [_ ?]. }
    exists w'. split; [done|]. intros [-> Hper]%andb_true_iff. destruct (Hfull eq_refl) as [-> Hfdb].
    apply Hfull'; [done|]. rewrite forallb_forall in Hper. rewrite Forall_forall in *. intros c Hc.
    destruct (Hall c Hc). apply list_elem_of_In, Hper, Z.leb_le in Hc. lia.
  - unfold transition_decision_to_voting in Ht. inv_ok. destruct IH as (? & w & Hw & ?).
    split; [done|]. exists w. split; [by refine (window_inv_tables _ _ _ _ _ Hw)|done].
  - unfold transition_decision_to_resolved in Ht. inv_ok. destruct IH as (? & w & Hw & ?).
    split; [done|]. exists w. split; [by refine (window_inv_tables _ _ _ _ _ Hw)|done].
  - pose proof (current_period_u32 _ _ _ _ _ Hnew) as [Hn0 _]. split; [done|].
    destruct (process_preserves _ _ _ _ _ _ IH Hnew Hn0 Hmax) as (db'' & Heq & Hw & Hf).
    rewrite Heq in Hp. injection Hp as <-. exists (Z.max w new). split; [done|].
    intros [-> Hle]%andb_true_iff. apply Z.leb_le in Hle. destruct (Hfull eq_refl) as [-> Hdb].
    replace (Z.max cur new) with new in * by lia. eauto.
Qed.

Lemma remove_dups_NoDup {A} `{EqDecision A} (l : list A) : NoDup l → remove_dups l = l.
Proof.
  induction 1 as [|x l Hx _ IH]; [done|]. simpl. rewrite IH.
  by case_decide.
Qed.

Lemma standard_count_eq db cur p :
  window_inv db cur →
  get_standard_claimed_count_in_period db p = Z.of_nat (length (standard_ids db p)).
Proof.
  intros Hinv. unfold get_standard_claimed_count_in_period, get_claimed_decision_ids_for_period,
    standard_ids.
  destruct (period_decisions db !! p) as [es|] eqn:E; [|done]. simpl default.
  destruct (wi_entries _ _ Hinv _ _ E) as [Hok Hs].
  rewrite (list_filter_all _ es), remove_dups_NoDup; [done|by apply sorted_ids_NoDup|].
  eapply Forall_impl; [exact Hok|]. by intros e (_ & _ & ?).
Qed.

(** C5: the pricing of the active window.  In every database the operations of
    blocks can produce, at whatever clock claims and pricing steps run, a priced
    period [p] is not above the highest minted period [w + 19] and has been
    minted at most 20 times and at most [20 - (p - w)] times (so it never has
    more than its 500 slots), its price is not below its floor, and its sales
    counter is the number of standard decisions claimed in it, which is never
    more than the slots its mints unlocked.  As long as no claim was validated
    ahead of the last pricing step and no step went back, [w] is the current
    period and all twenty periods from it on are priced. *)
Theorem active_window_invariant db cur timely :
  decisions_reach db cur timely →
  ∃ w, get_highest_minted_period db = Some (w + 19) ∧
  (∀ p pr, period_pricing db !! p = Some pr →
     p ≤ w + 19 ∧ 1 ≤ mints pr ≤ 20 ∧ mints pr ≤ 20 - (p - w) ∧ p_floor pr ≤ p_period pr ∧
     claimed pr = get_standard_claimed_count_in_period db p ∧ claimed pr ≤ period_capacity pr) ∧
  (timely = true → w = cur ∧ ∀ p, cur ≤ p ≤ cur + 19 → is_Some (period_pricing db !! p)).
Proof.
  intros (_ & w & Hinv & Hfull)%reach_window. exists w. split; [by apply window_highest|]. split; [|done].
  intros p pr Hpr. destruct (wi_priced _ _ Hinv p pr Hpr) as (Hp & [Hf Hm Hw Hwm Hs]).
  rewrite (standard_count_eq _ w) by done. destruct (wi_claims _ _ Hinv _ _ Hpr) as [Hlen _].
  unfold period_capacity, SLOTS_PER_TIER_PER_MINT, TIER_COUNT.
  rewrite (as_u64_small (mints pr * 5)), as_u64_small by (unfold is_u64; lia).
  split_and!; lia.
Qed.

(** The ordered search of [get_decision_entry] (a lookup of the smallest
    possible entry, then a scan from there that stops at the first larger id)
    finds the entry of the period whose id is the one asked for, whenever
    there is one, and nothing otherwise. *)
Theorem get_decision_entry_is_find db cur timely id :
  decisions_reach db cur timely →
  get_decision_entry db id = find_entry id (default [] (period_decisions db !! period_index id)).
Proof. intros (_ & w & Hr & _)%reach_window. by eapply get_entry_find. Qed.

Lemma find_entry_perm id l k :
  StronglySorted id_lt l → l ≡ₚ k → NoDup (map decision_id k) →
  find_entry id l = find_entry id k.
Proof.
  intros _ Hp. induction Hp as [|x l k Hp IH|x y l|l k k' H1 IH1 H2 IH2]; intros Hnd; [done|..].
  - inversion Hnd; subst. unfold find_entry in *. simpl. case_bool_decide; [done|]. by apply IH.
  - inversion Hnd as [|?? Hx Hnd']; subst. unfold find_entry. simpl.
    repeat case_bool_decide; try done. exfalso. apply Hx. simpl. set_solver.
  - rewrite IH1, IH2; [done|done|]. by rewrite H2.
Qed.

Lemma revalidate_claimed db w id d txid height ts g v pr :
  v + 20 ≤ U32_MAX → dbs_get_current_period db ts height g = Ok v →
  validate_decision_claim db id ts height g = Ok tt →
  (is_standard id = true → period_pricing db !! period_index id = Some pr) →
  let db' := claimed_db db id d txid height pr in
  window_inv db' w → id ∈ map decision_id (default [] (claim_entries db id d txid !! period_index id)) →
  validate_decision_claim db' id ts height g = Err (DecisionAlreadyClaimed id).
Proof.
  intros Hmax Hcur Hv Hpr db' Hinv' Hin.
  assert (dbs_get_current_period db' ts height g = Ok v) as Hcur' by exact Hcur.
  assert (is_period_settled db' (period_index id) ts height g
          = is_period_settled db (period_index id) ts height g) as Hset by done.
  assert (is_decision_in_voting db' id = false) as Hvot.
  { unfold is_decision_in_voting, get_decision_current_state, db', claimed_db.
    cbn [decision_state_histories]. rewrite lookup_insert_eq. done. }
  assert (bool_decide (id ∈ get_claimed_decision_ids_for_period db' (period_index id)) = true) as Hcl.
  { apply bool_decide_eq_true_2. by apply (claimed_ids_spec db' w id Hinv'). }
  unfold validate_decision_claim in *. rewrite Hcur', Hset, Hvot, Hcl. rewrite Hcur in Hv.
  unfold get_active_window in *. rewrite Hcur'. rewrite Hcur in Hv.
  unfold mbind, result_bind in *. cbv beta iota zeta in *.
  inv_ok. unfold bail_if at 1. unfold bail_if at 1. unfold bail_if at 1.
  destruct (is_standard id) eqn:Es; [|done]. inv_ok.
  specialize (Hpr eq_refl). simplify_eq. unfold db', claimed_db, claim_pricing. cbn [period_pricing].
  rewrite Es, lookup_insert_eq. cbn [ok_or add_claimed mints].
  match goal with H : negb (slot_unlocked _ _) = false |- _ => by rewrite H end.
Qed.

(** A validated claim is recorded, once, and only it.  The claim succeeds;
    the entry is then found with the claimed content and its transaction, the
    decision is in the claimed state, every other decision is found as before,
    and validating a second claim of the same id fails as already claimed. *)
Theorem claim_recorded_once db cur timely id d txid height ts g v :
  decisions_reach db cur timely → wf_id id → v + 20 ≤ U32_MAX →
  dbs_get_current_period db ts height g = Ok v →
  validate_decision_claim db id ts height g = Ok tt →
  ∃ db', claim_decision db id d txid height = Ok db' ∧
    get_decision_entry db' id
      = Some {| decision_id := id; decision := Some d; claiming_txid := txid |} ∧
    get_decision_current_state db' id = Claimed ∧
    (∀ id', id' ≠ id → get_decision_entry db' id' = get_decision_entry db id') ∧
    validate_decision_claim db' id ts height g = Err (DecisionAlreadyClaimed id).
Proof.
  intros (_ & w & Hinv & _)%reach_window Hid Hmax Hcur Hv.
  destruct (validate_claim_inv _ _ _ _ _ _ _ Hinv Hid Hmax Hcur Hv) as (_ & Hr). pose proof Hr as (_ & Hfresh & _).
  destruct (claim_result _ _ _ d txid height Hinv Hr) as (pr & Hpr & Heq & Hw & _).
  eexists. split; [exact Heq|].
  pose proof (new_entries db w id d txid Hinv Hfresh) as [Hp Hs].
  assert (∀ id', period_index id' = period_index id →
    find_entry id' (btree_insert (claimed_entry id d txid)
                      (default [] (period_decisions db !! period_index id)))
    = find_entry id' (claimed_entry id d txid
                      :: default [] (period_decisions db !! period_index id))) as Hfind.
  { intros id' _. apply find_entry_perm; [done|done|]. rewrite <- Hp. by apply sorted_ids_NoDup. }
  split_and!.
  - erewrite get_entry_find by exact Hw. unfold claimed_db, claim_entries. cbn [period_decisions].
    rewrite lookup_insert_eq. cbn [from_option Datatypes.id]. rewrite Hfind by done.
    by rewrite find_entry_cons, bool_decide_eq_true_2.
  - unfold get_decision_current_state, claimed_db. cbn [decision_state_histories].
    by rewrite lookup_insert_eq.
  - intros id' Hne. erewrite get_entry_find by exact Hw. erewrite get_entry_find by exact Hinv.
    unfold claimed_db, claim_entries. cbn [period_decisions].
    destruct (decide (period_index id' = period_index id)) as [He|He].
    + rewrite He, lookup_insert_eq. cbn [from_option Datatypes.id]. rewrite Hfind by done.
      rewrite find_entry_cons, bool_decide_eq_false_2; [done|]. cbn [claimed_entry decision_id]. congruence.
    + by rewrite lookup_insert_ne.
  - eapply (revalidate_claimed db _ id d txid height ts g v pr); try done.
    unfold claim_entries. rewrite lookup_insert_eq. cbn [from_option Datatypes.id].
    rewrite Hp. apply elem_of_cons. by left.
Qed.

End Reachable.

(** ** Witnesses

    A chain in blocks mode with ten blocks per period, at its genesis block, a
    claim in the current period and the pricing step that enters period 2. *)

Section Witnesses.

Definition empty_dbs (cfg : DecisionConfig) : Dbs :=
  {| period_decisions := ∅; decision_state_histories := ∅; period_pricing := ∅;
     period_pricing_undo := ∅; config := cfg |}.


Definition demo_cfg : DecisionConfig := config_testing 10.
Definition demo_genesis : Dbs := run (mint_genesis (empty_dbs demo_cfg) 0 0 0) (empty_dbs demo_cfg).
Definition demo_id : DecisionId := {| byte0 := 129; byte1 := 0; byte2 := 3 |}.
Definition demo_decision : Decision :=
  {| market_maker_pubkey_hash := replicate 20 7; decision_type := Binary; header := "rain";
     description := ""; option_0_label := None; option_1_label := None; tags := [] |}.
Definition demo_txid : bytes := replicate 32 1.

Lemma demo_genesis_reach : decisions_reach demo_genesis 1 true.
Proof.
  apply (reach_genesis (empty_dbs demo_cfg) 0 0 0 1); [done|done|reflexivity|lia|].
  vm_compute. reflexivity.
Qed.

Definition demo_claimed : Dbs :=
  run (claim_decision demo_genesis demo_id demo_decision demo_txid (Some 4)) demo_genesis.
Definition claim_at (id : DecisionId) (height period : Z) : ClaimEvent :=
  {| cl_id := id; cl_decision := demo_decision; cl_txid := demo_txid; cl_timestamp := 0;
     cl_height := Some height; cl_genesis := 0; cl_period := period; cl_recorded := Some height |}.

Lemma demo_claimed_reach : decisions_reach demo_claimed 1 true.
Proof.
  apply (reach_claims demo_genesis demo_genesis 1 true [claim_at demo_id 4 1]);
    [apply demo_genesis_reach|done|done| |apply NoDup_singleton|vm_compute; reflexivity].
  repeat constructor; simpl; lia || (vm_compute; reflexivity).
Qed.

Definition demo_next : Dbs :=
  run (process_block_pricing (snapshot_period_pricing demo_claimed 10) 10 0 0) demo_claimed.

Lemma demo_next_reach : decisions_reach demo_next 2 true.
Proof.
  apply (reach_pricing (snapshot_period_pricing demo_claimed 10) 1 true 2 10 0 0);
    [apply reach_snapshot, demo_claimed_reach|reflexivity|lia|].
  vm_compute. reflexivity.
Qed.

Lemma active_window_invariant_witness :
  get_highest_minted_period demo_next = Some 21 ∧
  ∃ pr, period_pricing demo_next !! 5 = Some pr ∧ 1 ≤ mints pr ≤ 17.
Proof.
  destruct (active_window_invariant demo_next 2 true demo_next_reach) as (w & Hh & Hp & Hw).
  destruct (Hw eq_refl) as [-> Hf]. split; [exact Hh|]. destruct (Hf 5 ltac:(lia)) as [pr H1].
  exists pr. split; [exact H1|]. destruct (Hp 5 pr H1) as (_ & H2 & H3 & _). lia.
Defined.

(** The first block of period 2 claims a non-standard decision of the last
    period of its window: validation, at the height of that block, accepts it. *)
Definition ahead_id : DecisionId := {| byte0 := 21; byte1 := 0; byte2 := 0 |}.
Definition ahead_claimed : Dbs :=
  run (claim_decision demo_genesis ahead_id demo_decision demo_txid (Some 10)) demo_genesis.
Definition ahead_next : Dbs := run (process_block_pricing ahead_claimed 10 0 0) demo_genesis.

Lemma ahead_next_reach : decisions_reach ahead_next 2 false.
Proof.
  apply (reach_pricing ahead_claimed 1 false 2 10 0 0); [|reflexivity|lia|vm_compute; reflexivity].
  apply (reach_claims demo_genesis demo_genesis 1 true [claim_at ahead_id 10 2]);
    [apply demo_genesis_reach|done|done| |apply NoDup_singleton|vm_compute; reflexivity].
  repeat constructor; simpl; lia || (vm_compute; reflexivity).
Qed.

(** A claim validated ahead of the last pricing step.  The claim mints period 21
    by itself, so that the pricing step of the block sees no change of period:
    period 21 stays without a price and the other periods get no new slots,
    while without the claim both would have happened. *)
Theorem claim_ahead_unpriced :
  validate_decision_claim demo_genesis ahead_id 0 (Some 10) 0 = Ok tt ∧
  dbs_get_current_period demo_genesis 0 (Some 10) 0 = Ok 2 ∧
  period_pricing ahead_next !! 21 = None ∧
  mints <$> (period_pricing ahead_next !! 5) = Some 16 ∧
  mints <$> (period_pricing demo_next !! 21) = Some 1 ∧
  mints <$> (period_pricing demo_next !! 5) = Some 17.
Proof. split_and!; vm_compute; reflexivity. Qed.

Lemma pricing_snapshot_restore_witness :
  period_pricing (restore_period_pricing_undo demo_next 10) = period_pricing demo_claimed ∧
  period_pricing demo_next ≠ period_pricing demo_claimed.
Proof.
  split; [|by vm_compute].
  apply (pricing_snapshot_restore demo_claimed demo_next 10). vm_compute. reflexivity.
Defined.

Lemma get_decision_entry_is_find_witness :
  get_decision_entry demo_claimed demo_id
  = Some {| decision_id := demo_id; decision := Some demo_decision; claiming_txid := demo_txid |}.
Proof.
  rewrite (get_decision_entry_is_find demo_claimed 1 true demo_id demo_claimed_reach).
  vm_compute. reflexivity.
Defined.

Lemma claim_recorded_once_witness :
  ∃ db', claim_decision demo_genesis demo_id demo_decision demo_txid (Some 4) = Ok db' ∧
    get_decision_entry db' demo_id
      = Some {| decision_id := demo_id; decision := Some demo_decision;
                claiming_txid := demo_txid |} ∧
    validate_decision_claim db' demo_id 0 (Some 4) 0 = Err (DecisionAlreadyClaimed demo_id).
Proof.
  destruct (claim_recorded_once demo_genesis 1 true demo_id demo_decision demo_txid (Some 4) 0 0 1)
    as (db' & H1 & H2 & _ & _ & H3);
    [apply demo_genesis_reach|repeat split; simpl; lia|lia|reflexivity|vm_compute; reflexivity|].
  exists db'. split; [exact H1|split; [exact H2|exact H3]].
Defined.

End Witnesses.

(** ** Disconnecting a block that claimed a decision *)

Section Revert.

Lemma f64_total_cmp_refl x : f64_total_cmp x x = Eq.
Proof. unfold f64_total_cmp. destruct (f64_rank x) as [[a b] c]. by rewrite !Z.compare_refl. Qed.

Lemma lex_cmp_refl {A} (cmp : A → A → comparison) l : (∀ x, cmp x x = Eq) → lex_cmp cmp l l = Eq.
Proof. intros H. induction l as [|x l IH]; simpl; [done|]. by rewrite H. Qed.

Lemma string_compare_refl s : String.compare s s = Eq.
Proof.
  induction s as [|c s IH]; simpl; [done|]. unfold Ascii.compare. by rewrite N.compare_refl.
Qed.

Lemma option_cmp_refl {A} (cmp : A → A → comparison) o : (∀ x, cmp x x = Eq) → option_cmp cmp o o = Eq.
Proof. intros H. by destruct o; simpl. Qed.

Lemma Decision_cmp_refl d : Decision_cmp d d = Eq.
Proof.
  unfold Decision_cmp, bytes_cmp. rewrite (lex_cmp_refl Z.compare) by apply Z.compare_refl.
  rewrite !string_compare_refl, !option_cmp_refl by apply string_compare_refl.
  rewrite (lex_cmp_refl String.compare) by apply string_compare_refl. simpl.
  destruct (decision_type d) as [| |o]; simpl; [done| |].
  - by rewrite !f64_total_cmp_refl.
  - by rewrite (lex_cmp_refl String.compare) by apply string_compare_refl.
Qed.

Lemma DecisionEntry_cmp_refl e : DecisionEntry_cmp e e = Eq.
Proof.
  unfold DecisionEntry_cmp, bytes_cmp. rewrite (proj2 (DecisionId_cmp_eq _ _) eq_refl).
  rewrite option_cmp_refl by apply Decision_cmp_refl.
  by rewrite (lex_cmp_refl Z.compare) by apply Z.compare_refl.
Qed.

Lemma remove_insert_fresh e l :
  Forall (fun x => decision_id x ≠ decision_id e) l → btree_remove e (btree_insert e l) = l.
Proof.
  unfold btree_remove. induction 1 as [|x l Hx Hl IH]; simpl.
  - rewrite filter_cons_False, filter_nil; [done|]. by rewrite DecisionEntry_cmp_refl.
  - assert (filter (fun y => is_eq (DecisionEntry_cmp e y) = false) (x :: l) = x :: l) as Hkeep.
    { apply list_filter_all. apply Forall_forall. intros y Hy.
      assert (decision_id y ≠ decision_id e) as Hne.
      { rewrite Forall_forall in Hl. apply elem_of_cons in Hy as [->|Hy]; [done|by apply Hl]. }
      destruct (DecisionEntry_cmp e y) eqn:E; [|done..].
      apply entry_cmp_eq_id in E. congruence. }
    destruct (DecisionEntry_cmp e x) eqn:E.
    + apply entry_cmp_eq_id in E. congruence.
    + rewrite filter_cons_False by (by rewrite DecisionEntry_cmp_refl). done.
    + rewrite filter_cons_True by (by rewrite E). by rewrite IH.
Qed.

(** Disconnecting a claim removes exactly its entry: every period holds the
    entries it held before the claim.  The table itself is not restored: a
    period that was minted and empty before the claim is deleted. *)
Theorem revert_claim_restores_entries db cur timely id d txid height ts g v db' :
  decisions_reach db cur timely → wf_id id → v + 20 ≤ U32_MAX →
  dbs_get_current_period db ts height g = Ok v →
  validate_decision_claim db id ts height g = Ok tt →
  claim_decision db id d txid height = Ok db' →
  (∀ q, default [] (period_decisions (revert_decision_claim db' id) !! q)
        = default [] (period_decisions db !! q)) ∧
  (period_decisions db !! period_index id = Some [] →
   period_decisions (revert_decision_claim db' id) = delete (period_index id) (period_decisions db)).
Proof.
  intros (_ & w & Hinv & _)%reach_window Hid Hmax Hcur Hv Hc.
  destruct (validate_claim_inv _ _ _ _ _ _ _ Hinv Hid Hmax Hcur Hv) as (_ & Hr). pose proof Hr as (_ & Hfresh & _).
  destruct (claim_result _ _ _ d txid height Hinv Hr) as (pr & _ & Heq & _).
  rewrite Heq in Hc. apply (inj Ok) in Hc. subst db'.
  set (es := default [] (period_decisions db !! period_index id)) in *.
  assert (Forall (fun x => decision_id x ≠ decision_id (claimed_entry id d txid)) es) as Hne.
  { apply Forall_forall. intros x Hx He. apply Hfresh. apply list_elem_of_fmap. eauto. }
  unfold revert_decision_claim, claimed_db. cbn [period_decisions]. unfold claim_entries.
  rewrite lookup_insert_eq. cbn [from_option Datatypes.id]. fold es.
  pose proof (new_entries db w id d txid Hinv Hfresh) as [Hp Hs]. fold es in Hp, Hs.
  assert (List.find (fun e => bool_decide (decision_id e = id))
            (btree_insert (claimed_entry id d txid) es) = Some (claimed_entry id d txid)) as Hf.
  { change (find_entry id (btree_insert (claimed_entry id d txid) es)
            = Some (claimed_entry id d txid)).
    rewrite (find_entry_perm id _ (claimed_entry id d txid :: es)); [|done|done|].
    - by rewrite find_entry_cons, bool_decide_eq_true_2.
    - rewrite <- Hp. by apply sorted_ids_NoDup. }
  rewrite Hf, remove_insert_fresh by done. clear Hf. split.
  - intros q. destruct (decide (q = period_index id)) as [->|Hq].
    + fold es. destruct es; cbn [set_period_decisions period_decisions];
        [by rewrite lookup_delete_eq|by rewrite lookup_insert_eq].
    + destruct es; cbn [set_period_decisions period_decisions];
        [rewrite lookup_delete_ne by done|rewrite lookup_insert_ne by done];
        by rewrite lookup_insert_ne.
  - intros Hnil. subst es. rewrite Hnil. cbn [from_option Datatypes.id set_period_decisions period_decisions].
    by rewrite delete_insert_eq.
Qed.

Lemma revert_claim_restores_entries_witness :
  default [] (period_decisions (revert_decision_claim demo_claimed demo_id) !! 1)
  = default [] (period_decisions demo_genesis !! 1).
Proof.
  apply (revert_claim_restores_entries demo_genesis 1 true demo_id demo_decision demo_txid (Some 4) 0 0 1
           demo_claimed);
    [apply demo_genesis_reach|repeat split; simpl; lia|lia|reflexivity|vm_compute; reflexivity|].
  vm_compute. reflexivity.
Defined.

(** A block at height 4 that claims a slot of the last minted period, and its
    disconnection, step by step as [connect_block] and [disconnect_tip] do. *)
Definition top_id : DecisionId := {| byte0 := 148; byte1 := 0; byte2 := 0 |}.
Definition fork_connected : Dbs :=
  run (process_block_pricing
         (run (claim_decision (snapshot_period_pricing demo_genesis 4) top_id demo_decision
                 demo_txid (Some 4)) demo_genesis) 4 0 0) demo_genesis.
Definition fork_disconnected : Dbs :=
  restore_period_pricing_undo
    (delete_periods_above
       (rollback_decision_states_to_height (revert_decision_claim fork_connected top_id) 3) 20) 4.

(** A node that connected and disconnected that block forgets the last minted
    period, so that the next block, in the same period, is taken for a period
    transition: the node unlocks five more slots per tier than a node that
    never saw the block. *)
Theorem reorg_of_claim_remints :
  period_pricing fork_disconnected = period_pricing demo_genesis ∧
  get_highest_minted_period demo_genesis = Some 20 ∧
  get_highest_minted_period fork_disconnected = Some 19 ∧
  mints <$> (period_pricing (run (process_block_pricing demo_genesis 4 0 0) demo_genesis) !! 1)
    = Some 20 ∧
  mints <$> (period_pricing (run (process_block_pricing fork_disconnected 4 0 0) demo_genesis) !! 1)
    = Some 21.
Proof. split_and!; vm_compute; reflexivity. Qed.

End Revert.
