(* ===== verification/Markets.v ===== *)
(** * Markets

    The market state machine and share accounts (src/lib/state/markets/types.rs)
    and the market with its outcome space, state updates, volumes and final
    prices (src/lib/state/markets/market.rs). *)

From stdpp Require Import base numbers list strings gmap.
From S2P Require Import Prelude Float64 SafeMath MarketMath StateErrors DecisionTypes.
Import OutcomeSpace.

(** ** Types *)

Definition market_can_transition_to (s new_state : MarketState) : bool :=
  match s, new_state with
  | Trading, Trading | Cancelled, Cancelled | MarketInvalid, MarketInvalid | Settled, Settled => true
  | Trading, (Cancelled | MarketInvalid | Settled) => true
  | MarketInvalid, Settled => true
  | _, _ => false
  end.

Definition allows_trading (s : MarketState) : bool := bool_decide (s = Trading).

Inductive DimensionSpec : Type :=
| Single (id : DecisionId)
| Categorical (id : DecisionId).

Definition spec_id (spec : DimensionSpec) : DecisionId :=
  match spec with Single id | Categorical id => id end.

Record ShareAccount : Type := {
  positions : gmap (MarketId * Z) Z;
  last_updated_height : Z
}.

Definition ShareAccount_new : ShareAccount := {| positions := ∅; last_updated_height := 0 |}.

Definition get_position (a : ShareAccount) (market_id : MarketId) (outcome_index : Z) : Z :=
  default 0 (positions a !! (market_id, outcome_index)).

Definition add_shares (a : ShareAccount) (market_id : MarketId) (outcome_index shares height : Z)
  : ShareAccount :=
  let key := (market_id, outcome_index) in
  let current := default 0 (positions a !! key) in
  {| positions := <[key := as_i64 (current + shares)]> (positions a);
     last_updated_height := height |}.

Definition remove_shares (a : ShareAccount) (market_id : MarketId) (outcome_index shares height : Z)
  : result MarketError ShareAccount :=
  let key := (market_id, outcome_index) in
  let current := default 0 (positions a !! key) in
  if current <? shares then Err InvalidOutcomeCombination else
  let new_amount := as_i64 (current - shares) in
  Ok {| positions := if 0 <? new_amount then <[key := new_amount]> (positions a)
                     else delete key (positions a);
        last_updated_height := height |}.

(** ** The market *)

Record Market : Type := {
  m_id : MarketId;
  m_title : string;
  m_description : string;
  m_tags : list string;
  m_creator_address : Address;
  m_dimension_specs : list DimensionSpec;
  m_decision_ids : list DecisionId;
  m_state_combos : list (list Z);
  m_created_at_height : Z;
  m_expires_at_height : option Z;
  m_tau_from_now : Z;
  m_storage_fee_sats : Z;
  m_market_state : MarketState;
  m_trading_fee : f64;
  m_liquidity_base_sats : Z;
  m_shares : list Z;
  m_final_prices : list f64;
  m_version : Z;
  m_last_updated_height : Z;
  m_total_volume_sats : Z;
  m_outcome_volumes_sats : list Z;
  m_tx_pow_hash_selector : Z;
  m_tx_pow_ordering : Z;
  m_tx_pow_difficulty : Z
}.

(** The first id that occurs twice, as the [HashSet] loop finds it. *)
Fixpoint first_duplicate (seen : list DecisionId) (specs : list DimensionSpec) : option DecisionId :=
  match specs with
  | [] => None
  | spec :: specs =>
      if bool_decide (spec_id spec ∈ seen) then Some (spec_id spec)
      else first_duplicate (spec_id spec :: seen) specs
  end.

(** The range of a dimension and its tradeable range. *)
Definition dimension_range (decisions : gmap DecisionId Decision) (spec : DimensionSpec)
  : result MarketError (Z * Z) :=
  match spec with
  | Single id =>
      _ ← ok_or (decisions !! id) (DecisionNotFound id);
      Ok (3, 2)
  | Categorical id =>
      decision ← ok_or (decisions !! id) (DecisionNotFound id);
      n ← ok_or (option_count decision) InvalidDimensions;
      if n <? 2 then Err InvalidDimensions else Ok (n, n)
  end.

Definition generate_state_combos (specs : list DimensionSpec) (decisions : gmap DecisionId Decision)
  : result MarketError (list (list Z)) :=
  if (match specs with [] => true | _ => false end) then Err InvalidDimensions else
  match first_duplicate [] specs with
  | Some id => Err (DuplicateDecision id)
  | None =>
      ranges ← try_map (dimension_range decisions) specs;
      tradeable_outcomes ← ok_or (outcome_space_size (map snd ranges)) (TooManyStates U64_MAX);
      if Lmsr.MAX_OUTCOMES <? tradeable_outcomes then Err (TooManyStates tradeable_outcomes)
      else Ok (cartesian_product (map fst ranges))
  end.

Definition calculate_max_tau (ids : list DecisionId) (decisions : gmap DecisionId Decision) : Z :=
  match map (fun _ => 5) (omap (fun id => decisions !! id) ids) with
  | [] => 5
  | tau :: taus => foldl Z.max tau taus
  end.

(** A combination without an abstaining binary or scaled dimension; [zip]
    stops at the shorter list. *)
Fixpoint valid_combo (combo : list Z) (specs : list DimensionSpec) : bool :=
  match combo, specs with
  | state :: combo, spec :: specs =>
      (match spec with Single _ => state <? 2 | Categorical _ => true end)
      && valid_combo combo specs
  | _, _ => true
  end.

Definition valid_state_combos (specs : list DimensionSpec) (combos : list (list Z))
  : list (Z * list Z) :=
  filter (fun e => valid_combo e.2 specs = true) (enumerate 0 combos).

Definition get_valid_state_combos (m : Market) : list (Z * list Z) :=
  valid_state_combos (m_dimension_specs m) (m_state_combos m).

Definition get_outcome_count (m : Market) : Z := Z.of_nat (length (get_valid_state_combos m)).

Definition update_state (m : Market) (height : Z) (new_market_state : option MarketState)
  (new_shares : option (list Z)) (new_final_prices : option (list f64)) : result MarketError Market :=
  s ← match new_market_state with
      | Some s => if market_can_transition_to (m_market_state m) s then Ok s
                  else Err (InvalidStateTransition (m_market_state m) s)
      | None => Ok (m_market_state m)
      end;
  shares ← match new_shares with
           | Some shares => if (length shares =? length (m_shares m))%nat then Ok shares
                            else Err InvalidDimensions
           | None => Ok (m_shares m)
           end;
  Ok {| m_id := m_id m; m_title := m_title m; m_description := m_description m;
        m_tags := m_tags m; m_creator_address := m_creator_address m;
        m_dimension_specs := m_dimension_specs m; m_decision_ids := m_decision_ids m;
        m_state_combos := m_state_combos m; m_created_at_height := m_created_at_height m;
        m_expires_at_height := m_expires_at_height m; m_tau_from_now := m_tau_from_now m;
        m_storage_fee_sats := m_storage_fee_sats m; m_market_state := s;
        m_trading_fee := m_trading_fee m; m_liquidity_base_sats := m_liquidity_base_sats m;
        m_shares := shares; m_final_prices := default (m_final_prices m) new_final_prices;
        m_version := as_u64 (m_version m + 1); m_last_updated_height := height;
        m_total_volume_sats := m_total_volume_sats m;
        m_outcome_volumes_sats := m_outcome_volumes_sats m;
        m_tx_pow_hash_selector := m_tx_pow_hash_selector m;
        m_tx_pow_ordering := m_tx_pow_ordering m; m_tx_pow_difficulty := m_tx_pow_difficulty m |}.

Definition update_shares (m : Market) (new_shares : list Z) (height : Z) : result MarketError Market :=
  update_state m height None (Some new_shares) None.

Definition market_cancel (m : Market) (height : Z) : result MarketError Market :=
  update_state m height (Some Cancelled) None None.

Definition market_invalidate (m : Market) (height : Z) : result MarketError Market :=
  update_state m height (Some MarketInvalid) None None.

(** The two volume fields of a market. *)
Definition set_volumes (m : Market) (total : Z) (volumes : list Z) : Market :=
  {| m_id := m_id m; m_title := m_title m; m_description := m_description m;
     m_tags := m_tags m; m_creator_address := m_creator_address m;
     m_dimension_specs := m_dimension_specs m; m_decision_ids := m_decision_ids m;
     m_state_combos := m_state_combos m; m_created_at_height := m_created_at_height m;
     m_expires_at_height := m_expires_at_height m; m_tau_from_now := m_tau_from_now m;
     m_storage_fee_sats := m_storage_fee_sats m; m_market_state := m_market_state m;
     m_trading_fee := m_trading_fee m; m_liquidity_base_sats := m_liquidity_base_sats m;
     m_shares := m_shares m; m_final_prices := m_final_prices m; m_version := m_version m;
     m_last_updated_height := m_last_updated_height m; m_total_volume_sats := total;
     m_outcome_volumes_sats := volumes; m_tx_pow_hash_selector := m_tx_pow_hash_selector m;
     m_tx_pow_ordering := m_tx_pow_ordering m; m_tx_pow_difficulty := m_tx_pow_difficulty m |}.

Definition update_trading_volume (m : Market) (outcome_index trade_cost_sats : Z)
  : result MarketError Market :=
  if Z.of_nat (length (m_outcome_volumes_sats m)) <=? outcome_index
  then Err (InvalidOutcomeIndex outcome_index) else
  Ok (set_volumes m (sat_add_u64 (m_total_volume_sats m) trade_cost_sats)
        (alter (fun v => sat_add_u64 v trade_cost_sats) (Z.to_nat outcome_index)
           (m_outcome_volumes_sats m))).

Definition revert_trading_volume (m : Market) (outcome_index trade_cost_sats : Z)
  : result MarketError Market :=
  if Z.of_nat (length (m_outcome_volumes_sats m)) <=? outcome_index
  then Err (InvalidOutcomeIndex outcome_index) else
  Ok (set_volumes m (sat_sub (m_total_volume_sats m) trade_cost_sats)
        (alter (fun v => sat_sub v trade_cost_sats) (Z.to_nat outcome_index)
           (m_outcome_volumes_sats m))).

(** The position of the first valid combination equal to the argument. *)
Fixpoint index_of_combo (i : Z) (l : list (Z * list Z)) (ps : list Z) : option Z :=
  match l with
  | [] => None
  | (_, combo) :: l => if bool_decide (combo = ps) then Some i else index_of_combo (i + 1) l ps
  end.

Definition tradeable_index_for_positions (m : Market) (ps : list Z) : result MarketError Z :=
  if negb (length ps =? length (m_decision_ids m))%nat then Err InvalidDimensions else
  ok_or (index_of_combo 0 (get_valid_state_combos m) ps) InvalidOutcomeCombination.

Section Hash.
(** [compute_market_id]: the first six bytes of the content hash; the hash
    crate is not part of the repository. *)
Context (compute_market_id : string → string → Address → list DimensionSpec → MarketId).

Definition Market_new (title description : string) (tags : list string) (creator : Address)
  (specs : list DimensionSpec) (ids : list DecisionId) (combos : list (list Z)) (fee : f64)
  (created : Z) (expires : option Z) (decisions : gmap DecisionId Decision)
  (hash_selector ordering difficulty : Z) : result MarketError Market :=
  if (match ids with [] => true | _ => false end) || (match combos with [] => true | _ => false end)
  then Err InvalidDimensions else
  let tradeable_outcomes := length (valid_state_combos specs combos) in
  Ok {| m_id := compute_market_id title description creator specs; m_title := title;
        m_description := description; m_tags := tags; m_creator_address := creator;
        m_dimension_specs := specs; m_decision_ids := ids; m_state_combos := combos;
        m_created_at_height := created; m_expires_at_height := expires;
        m_tau_from_now := calculate_max_tau ids decisions;
        m_storage_fee_sats := market_storage_fee (Z.of_nat tradeable_outcomes);
        m_market_state := Trading; m_trading_fee := fee; m_liquidity_base_sats := 0;
        m_shares := replicate tradeable_outcomes 0;
        m_final_prices := replicate tradeable_outcomes f64_zero;
        m_version := 0; m_last_updated_height := created; m_total_volume_sats := 0;
        m_outcome_volumes_sats := replicate tradeable_outcomes 0;
        m_tx_pow_hash_selector := hash_selector; m_tx_pow_ordering := ordering;
        m_tx_pow_difficulty := difficulty |}.

(** [MarketBuilder::build] with the fields the [with_*] methods set. *)
Definition build_market (title description : string) (tags : list string) (creator : Address)
  (dimension_specs : option (list DimensionSpec)) (fee : f64) (created : Z) (expires : option Z)
  (decisions : gmap DecisionId Decision) (hash_selector ordering difficulty : Z)
  : result MarketError Market :=
  specs ← ok_or dimension_specs InvalidDimensions;
  combos ← generate_state_combos specs decisions;
  Market_new title description tags creator specs (map spec_id specs) combos fee created expires
    decisions hash_selector ordering difficulty.

End Hash.

(** ** Final prices *)

Section FinalPrices.
(** [ndarray]'s [sum], whose order of additions is the crate's own. *)
Context (nd_sum : list f64 → f64).

Definition single_axis (outcome : f64) (scaled : bool) : list f64 :=
  if scaled then [f64_sub f64_one outcome; outcome]
  else if f64_gt outcome (f64_dec 7 1) then [f64_zero; f64_one]
  else if f64_lt outcome (f64_dec 3 1) then [f64_one; f64_zero]
  else [f64_half; f64_half].

(** The winning option a categorical outcome names, if it names one. *)
Definition categorical_winner (outcome : option f64) (n : Z) : option Z :=
  o ← outcome;
  if f64_eq o f64_half || negb (is_finite o) then None else
  let rounded := f64_round o in
  if f64_gt (f64_abs (f64_sub o rounded)) f64_EPSILON then None else
  let idx := f64_as_i64 rounded in
  if (0 <=? idx) && (idx <? n) then Some idx else None.

Definition categorical_axis (outcome : option f64) (n : Z) : list f64 :=
  match categorical_winner outcome n with
  | Some winner => map (fun k => if k =? winner then f64_one else f64_zero) (range 0 n)
  | None => replicate (Z.to_nat n) (f64_div f64_one (f64_of_Z n))
  end.

Definition spec_axis (outcomes : gmap DecisionId f64) (decisions : gmap DecisionId Decision)
  (spec : DimensionSpec) : list f64 :=
  match spec with
  | Single id =>
      single_axis (default f64_half (outcomes !! id))
        (match decisions !! id with Some d => is_scaled d | None => false end)
  | Categorical id =>
      categorical_axis (outcomes !! id)
        (default 2 (d ← decisions !! id; option_count d))
  end.

(** The product over the dimensions of a combination, in order. *)
Fixpoint joint_prob (p : f64) (axes : list (list f64)) (combo : list Z) : f64 :=
  match axes, combo with
  | axis :: axes, state :: combo =>
      joint_prob (match axis !! Z.to_nat state with Some x => f64_mul p x | None => p end) axes combo
  | _, _ => p
  end.

Definition calculate_final_prices (m : Market) (outcomes : gmap DecisionId f64)
  (decisions : gmap DecisionId Decision) : result MarketError (list f64) :=
  let axes := map (spec_axis outcomes decisions) (m_dimension_specs m) in
  let prices := map (fun e => joint_prob f64_one axes e.2) (get_valid_state_combos m) in
  let sum := nd_sum prices in
  Ok (if f64_gt sum f64_zero then map (fun p => f64_div p sum) prices else prices).

End FinalPrices.
