(* ===== verification/MarketsFacts.v ===== *)
(** * Correctness of markets

    The outcomes of a market are exactly the combinations of its tradeable
    ranges and the index of a combination is its position; the state machine
    and its shape invariant; volumes and share positions are restored by their
    reversals. *)

From stdpp Require Import base numbers list strings gmap sorting.
From S2P Require Import Prelude Float64 SafeMath MarketMath StateErrors DecisionTypes Markets.
Import OutcomeSpace.

(** ** The outcome space *)

Section Outcomes.

Lemma enumerate_snd {A} i (l : list A) : map snd (enumerate i l) = l.
Proof. revert i. induction l as [|x l IH]; intros i; simpl; [done|]. by rewrite IH. Qed.

Lemma filter_enumerate_snd {A} (P : A → Prop) `{!∀ x, base.Decision (P x)} i (l : list A) :
  map snd (filter (fun e => P e.2) (enumerate i l)) = filter P l.
Proof.
  revert i. induction l as [|x l IH]; intros i; simpl; [done|]. rewrite !filter_cons. simpl.
  destruct (decide (P x)); simpl; by rewrite IH.
Qed.

Lemma valid_combos_snd specs combos :
  map snd (valid_state_combos specs combos)
  = filter (fun c => valid_combo c specs = true) combos.
Proof.
  exact (filter_enumerate_snd (fun c => valid_combo c specs = true) 0 combos).
Qed.

Definition valid_value (spec : DimensionSpec) (v : Z) : bool :=
  match spec with Single _ => v <? 2 | Categorical _ => true end.

Lemma valid_combo_snoc c v specs spec :
  length c = length specs →
  valid_combo (c ++ [v]) (specs ++ [spec]) = valid_combo c specs && valid_value spec v.
Proof.
  revert specs. induction c as [|x c IH]; intros [|s specs] Hl; simplify_eq/=.
  - by rewrite andb_true_r.
  - rewrite IH by done. by rewrite andb_assoc.
Qed.

(** A dimension's full range restricted to the tradeable values. *)
Definition range_pair_ok (spec : DimensionSpec) (r : Z * Z) : Prop :=
  0 ≤ r.2 ∧ filter (fun v => valid_value spec v = true) (range 0 r.1) = range 0 r.2.

Lemma dimension_range_ok decisions spec r :
  dimension_range decisions spec = Ok r → range_pair_ok spec r ∧ 2 ≤ r.2.
Proof.
  unfold dimension_range, range_pair_ok. destruct spec as [id|id]; intros H; inv_ok.
  - split; [|simpl; lia]. split; [simpl; lia|reflexivity].
  - case_match; inv_ok. simpl. split; [|lia]. split; [lia|].
    apply list_filter_all, Forall_forall. done.
Qed.

Lemma filter_flat_map {A B} (P : B → Prop) `{!∀ x, base.Decision (P x)} (f : A → list B) l :
  filter P (flat_map f l) = flat_map (fun a => filter P (f a)) l.
Proof. induction l as [|a l IH]; simpl; [done|]. by rewrite filter_app, IH. Qed.

Lemma filter_map_comm {A B} (P : B → Prop) `{!∀ x, base.Decision (P x)} (f : A → B) l :
  filter P (map f l) = map f (filter (fun a => P (f a)) l).
Proof.
  induction l as [|a l IH]; simpl; [done|]. rewrite !filter_cons.
  destruct (decide (P (f a))); simpl; by rewrite IH.
Qed.

Lemma flat_map_filter {A B} (P : A → Prop) `{!∀ x, base.Decision (P x)} (f : A → list B) l :
  (∀ a, a ∈ l → ¬ P a → f a = []) → flat_map f l = flat_map f (filter P l).
Proof.
  induction l as [|a l IH]; intros Hnil; simpl; [done|]. rewrite filter_cons.
  rewrite IH by (intros; apply Hnil; [by apply elem_of_cons; right|done]).
  destruct (decide (P a)); simpl; [done|]. rewrite Hnil; [done|by apply elem_of_cons; left|done].
Qed.

Lemma flat_map_ext_in {A B} (f g : A → list B) l :
  (∀ a, a ∈ l → f a = g a) → flat_map f l = flat_map g l.
Proof.
  induction l as [|a l IH]; intros H; simpl; [done|].
  rewrite H by (by apply elem_of_cons; left). f_equal. apply IH.
  intros; apply H; by apply elem_of_cons; right.
Qed.

(** The combinations a market trades are the product of the tradeable ranges,
    in the same order. *)
Lemma valid_combos_product specs ranges :
  Forall2 range_pair_ok specs ranges →
  filter (fun c => valid_combo c specs = true) (cartesian_product (map fst ranges))
  = cartesian_product (map snd ranges).
Proof.
  rewrite !cartesian_product_foldl.
  revert specs. induction ranges as [|r ranges IH] using rev_ind; intros specs Hf.
  { inversion Hf; subst. done. }
  apply Forall2_app_inv_r in Hf as (specs' & l & Hf & Hr & ->).
  inversion Hr as [|spec ? l' ? [Hr0 Hrange] Hnil]; subst. inversion Hnil; subst.
  rewrite !map_app. simpl. rewrite !foldl_snoc. unfold extend_combos at 1 3.
  rewrite filter_flat_map, <- (IH specs' Hf).
  assert (∀ c, c ∈ foldl extend_combos [[]] (map fst ranges) → length c = length specs') as Hlen.
  { intros c Hc. rewrite <- cartesian_product_foldl in Hc. apply elem_of_cartesian in Hc.
    apply Forall2_length in Hc, Hf. rewrite length_map in Hc. lia. }
  rewrite (flat_map_filter (fun c => valid_combo c specs' = true)).
  - apply flat_map_ext_in. intros c [Hv Hc]%list_elem_of_filter. rewrite filter_map_comm. f_equal.
    rewrite <- Hrange. apply list_filter_iff. intros v.
    rewrite valid_combo_snoc by (by apply Hlen). by rewrite Hv.
  - intros c Hc Hv. rewrite filter_map_comm. rewrite list_filter_none; [done|].
    apply Forall_forall. intros v _. rewrite valid_combo_snoc by (by apply Hlen).
    destruct (valid_combo c specs'); [done|]. by simpl.
Qed.

Lemma try_map_Forall2 {E A B} (f : A → result E B) l l' :
  try_map f l = Ok l' → Forall2 (fun a b => f a = Ok b) l l'.
Proof.
  revert l'. induction l as [|a l IH]; simpl; intros l' H; [injection H as <-; constructor|].
  destruct (f a) eqn:Ea; [|discriminate]. destruct (try_map f l); [|discriminate].
  injection H as <-. constructor; auto.
Qed.

Lemma generate_combos_spec specs decisions combos :
  generate_state_combos specs decisions = Ok combos →
  ∃ tr, Forall (fun d => 2 ≤ d) tr ∧ length tr = length specs ∧
    filter (fun c => valid_combo c specs = true) combos = cartesian_product tr ∧
    ∃ n, outcome_space_size tr = Some n ∧ n ≤ 256.
Proof.
  unfold generate_state_combos. intros H. case_match; [discriminate|].
  case_match; [discriminate|]. inv_ok. case_match; inv_ok.
  apply try_map_Forall2 in E. exists (map snd a). rewrite length_map.
  assert (Forall2 (fun s r => range_pair_ok s r ∧ 2 ≤ r.2) specs a) as Hok.
  { eapply Forall2_impl; [exact E|]. apply dimension_range_ok. }
  split_and!.
  - clear -Hok. induction Hok as [|spec r specs a [_ Hr] _ IH]; simpl; by constructor.
  - symmetry. by eapply Forall2_length.
  - apply valid_combos_product. eapply Forall2_impl; [exact Hok|]. by intros ?? [].
  - exists a0. split; [done|]. unfold Lmsr.MAX_OUTCOMES in *. lia.
Qed.
Lemma index_of_combo_spec l i ps :
  NoDup (map snd l) →
  ∀ k, index_of_combo i l ps = Some k ↔ i ≤ k ∧ map snd l !! Z.to_nat (k - i) = Some ps.
Proof.
  revert i. induction l as [|[j c] l IH]; intros i Hnd k; simpl.
  - split; [done|]. by intros [_ ?].
  - inversion Hnd as [|?? Hc Hnd']; subst. case_bool_decide as Hps.
    + subst c. split.
      * intros [= <-]. split; [lia|]. by rewrite Z.sub_diag.
      * intros [Hk Hl]. destruct (decide (k = i)) as [->|Hne]; [done|].
        replace (Z.to_nat (k - i)) with (S (Z.to_nat (k - (i + 1)))) in Hl by lia.
        exfalso. apply Hc. exact (list_elem_of_lookup_2 (map snd l) _ ps Hl).
    + rewrite (IH (i + 1) Hnd' k). split.
      * intros [Hk Hl]. split; [lia|].
        replace (Z.to_nat (k - i)) with (S (Z.to_nat (k - (i + 1)))) by lia. done.
      * intros [Hk Hl]. destruct (decide (k = i)) as [->|Hne].
        { rewrite Z.sub_diag in Hl. simpl in Hl. congruence. }
        split; [lia|].
        by replace (Z.to_nat (k - i)) with (S (Z.to_nat (k - (i + 1)))) in Hl by lia.
Qed.

(** What building a market establishes. *)
Lemma build_market_facts cid title desc tags creator specs fee created expires decisions hs od df m :
  build_market cid title desc tags creator specs fee created expires decisions hs od df = Ok m →
  ∃ tr n, Forall (fun d => 2 ≤ d) tr ∧ length tr = length (m_decision_ids m) ∧
    map snd (get_valid_state_combos m) = cartesian_product tr ∧
    outcome_space_size tr = Some n ∧ n ≤ 256 ∧
    m_market_state m = Trading ∧
    m_shares m = replicate (length (get_valid_state_combos m)) 0 ∧
    length (m_final_prices m) = length (get_valid_state_combos m) ∧
    m_outcome_volumes_sats m = replicate (length (get_valid_state_combos m)) 0 ∧
    m_total_volume_sats m = 0.
Proof.
  unfold build_market. intros H. inv_ok. unfold Market_new in H. case_match; inv_ok.
  destruct (generate_combos_spec _ _ _ E0) as (tr & Htr & Hlen & Hcombos & n & Hn & Hle).
  exists tr, n. unfold get_valid_state_combos. simpl.
  rewrite valid_combos_snd, Hcombos, length_map, length_replicate. by split_and!.
Qed.

(** The outcomes of a new market.  There are at most 256, one share and
    one volume counter for each; a list of positions has an outcome index
    exactly when it picks a tradeable value in every dimension, the index is
    below the number of outcomes, and two lists never share an index. *)
Theorem tradeable_index_bijective cid title desc tags creator specs fee created expires decisions
  hs od df m :
  build_market cid title desc tags creator specs fee created expires decisions hs od df = Ok m →
  ∃ tr, outcome_space_size tr = Some (get_outcome_count m) ∧ get_outcome_count m ≤ 256 ∧
    Z.of_nat (length (m_shares m)) = get_outcome_count m ∧
    Z.of_nat (length (m_outcome_volumes_sats m)) = get_outcome_count m ∧
    (∀ ps, in_dims ps tr →
       ∃ i, tradeable_index_for_positions m ps = Ok i ∧ 0 ≤ i < get_outcome_count m) ∧
    (∀ ps i, tradeable_index_for_positions m ps = Ok i → in_dims ps tr) ∧
    (∀ ps ps' i, tradeable_index_for_positions m ps = Ok i →
       tradeable_index_for_positions m ps' = Ok i → ps = ps').
Proof.
  intros Hb. destruct (build_market_facts _ _ _ _ _ _ _ _ _ _ _ _ _ _ Hb)
    as (tr & n & Htr & Hlen & Hcombos & Hn & Hle & _ & Hsh & _ & Hvol & _).
  assert (Forall (fun d => 0 ≤ d) tr) as Htr0 by (eapply Forall_impl; [exact Htr|]; simpl; lia).
  assert (NoDup (cartesian_product tr)) as Hnd by apply cartesian_NoDup.
  assert (Z.of_nat (length (cartesian_product tr)) = n) as Hcount by (by apply cartesian_length).
  assert (get_outcome_count m = n) as Hgc.
  { unfold get_outcome_count. by rewrite <- Hcount, <- Hcombos, length_map. }
  assert (∀ ps i, tradeable_index_for_positions m ps = Ok i ↔
            length ps = length (m_decision_ids m) ∧ 0 ≤ i ∧
            cartesian_product tr !! Z.to_nat i = Some ps) as Hidx.
  { intros ps i. unfold tradeable_index_for_positions.
    destruct (Nat.eqb_spec (length ps) (length (m_decision_ids m))) as [He|He]; simpl;
      [|split; [done|by intros [? _]]].
    pose proof (index_of_combo_spec (get_valid_state_combos m) 0 ps) as Hspec.
    rewrite Hcombos in Hspec. specialize (Hspec Hnd i). rewrite Z.sub_0_r in Hspec.
    destruct (index_of_combo 0 (get_valid_state_combos m) ps) as [k|]; simpl.
    - split; [intros [= ->]; split; [done|by apply Hspec]|]. intros (_ & H1).
      f_equal. apply Hspec in H1. congruence.
    - split; [done|]. intros (_ & H1). by apply Hspec in H1. }
  exists tr. rewrite Hgc, Hsh, Hvol, !length_replicate. unfold get_outcome_count in Hgc.
  split_and!; [done|done|done|done| | |].
  - intros ps Hps. pose proof (proj2 (elem_of_cartesian tr ps) Hps) as Hin.
    apply list_elem_of_lookup in Hin as [k Hk]. exists (Z.of_nat k).
    rewrite Hidx, Nat2Z.id. apply lookup_lt_Some in Hk as Hlt.
    apply Forall2_length in Hps. split; [split_and!; [lia|lia|done]|lia].
  - intros ps i Hi%Hidx. destruct Hi as (_ & _ & Hl). apply elem_of_cartesian.
    by apply list_elem_of_lookup_2 in Hl.
  - intros ps ps' i (_ & _ & H1)%Hidx (_ & _ & H2)%Hidx. congruence.
Qed.

(** A market over a binary decision and a category of three options. *)
Definition sample_binary : DecisionId := {| byte0 := 128; byte1 := 0; byte2 := 7 |}.
Definition sample_category : DecisionId := {| byte0 := 128; byte1 := 0; byte2 := 9 |}.
Definition sample_decisions : gmap DecisionId Decision :=
  {[ sample_binary :=
       {| market_maker_pubkey_hash := replicate 20 1; decision_type := Binary; header := "Rain?";
          description := ""; option_0_label := None; option_1_label := None; tags := [] |};
     sample_category :=
       {| market_maker_pubkey_hash := replicate 20 2;
          decision_type := Category ["red"; "green"; "blue"]; header := "Colour";
          description := ""; option_0_label := None; option_1_label := None; tags := [] |} ]}.
Definition sample_build (difficulty : Z) : result MarketError Market :=
  build_market (fun _ _ _ _ => replicate 6 5) "Rain and colour" "" [] (replicate 20 3)
    (Some [Single sample_binary; Categorical sample_category]) f64_zero 12 None sample_decisions
    0 0 difficulty.
Definition sample_market (difficulty : Z) : Market :=
  match sample_build difficulty with Ok m => m | Err _ => Build_Market [] "" "" [] [] [] [] [] 0 None 0 0
    Trading f64_zero 0 [] [] 0 0 0 [] 0 0 0 end.

Example sample_indices :
  map (tradeable_index_for_positions (sample_market 0))
    [[0; 0]; [0; 2]; [1; 0]; [1; 2]; [2; 0]; [1; 3]; [1]]
  = [Ok 0; Ok 2; Ok 3; Ok 5; Err InvalidOutcomeCombination; Err InvalidOutcomeCombination;
     Err InvalidDimensions].
Proof. vm_compute. reflexivity. Qed.

Lemma tradeable_index_bijective_witness :
  sample_build 4 = Ok (sample_market 4) ∧ get_outcome_count (sample_market 4) ≤ 256.
Proof.
  assert (sample_build 4 = Ok (sample_market 4)) as Hb by (vm_compute; reflexivity).
  split; [exact Hb|].
  destruct (tradeable_index_bijective _ _ _ _ _ _ _ _ _ _ _ _ _ _ Hb) as (tr & _ & Hle & _).
  exact Hle.
Defined.

End Outcomes.

(** ** The life of a market *)

Section Lifecycle.

(** One operation on a market. *)
Inductive market_step : Market → Market → Prop :=
| step_update m m' height s shares prices :
    update_state m height s shares prices = Ok m' → market_step m m'
| step_volume m m' i cost : update_trading_volume m i cost = Ok m' → market_step m m'
| step_unvolume m m' i cost : revert_trading_volume m i cost = Ok m' → market_step m m'.

(** The fields that fix the outcome space and the identity of a market. *)
Definition same_market (m m' : Market) : Prop :=
  m_id m' = m_id m ∧ m_dimension_specs m' = m_dimension_specs m ∧
  m_decision_ids m' = m_decision_ids m ∧ m_state_combos m' = m_state_combos m ∧
  m_expires_at_height m' = m_expires_at_height m ∧
  m_creator_address m' = m_creator_address m ∧ m_trading_fee m' = m_trading_fee m.

Definition market_shape (m : Market) : Prop :=
  Z.of_nat (length (m_shares m)) = get_outcome_count m ∧
  Z.of_nat (length (m_outcome_volumes_sats m)) = get_outcome_count m.

Lemma can_transition_trans s1 s2 s3 :
  market_can_transition_to s1 s2 = true → market_can_transition_to s2 s3 = true →
  market_can_transition_to s1 s3 = true.
Proof. by destruct s1, s2, s3. Qed.

Lemma can_transition_refl s : market_can_transition_to s s = true.
Proof. by destruct s. Qed.

Lemma same_market_count m m' : same_market m m' → get_outcome_count m' = get_outcome_count m.
Proof.
  intros (_ & Hs & _ & Hc & _). unfold get_outcome_count, get_valid_state_combos. by rewrite Hs, Hc.
Qed.

Lemma update_state_facts m m' height s shares prices :
  update_state m height s shares prices = Ok m' →
  same_market m m' ∧ market_can_transition_to (m_market_state m) (m_market_state m') = true ∧
  length (m_shares m') = length (m_shares m) ∧
  m_outcome_volumes_sats m' = m_outcome_volumes_sats m ∧
  m_market_state m' = default (m_market_state m) s ∧ m_shares m' = default (m_shares m) shares ∧
  m_version m' = as_u64 (m_version m + 1) ∧ m_last_updated_height m' = height.
Proof.
  unfold update_state. intros H. inv_ok. unfold same_market. simpl.
  assert (market_can_transition_to (m_market_state m) a = true ∧ a = default (m_market_state m) s)
    as [??] by (repeat case_match; inv_ok; simplify_eq/=; by rewrite ?can_transition_refl).
  assert (length a0 = length (m_shares m) ∧ a0 = default (m_shares m) shares) as [??].
  { repeat case_match; inv_ok; simplify_eq/=; try done;
      (split; [by apply Nat.eqb_eq|done]). }
  by split_and!.
Qed.

Lemma market_step_facts m m' :
  market_step m m' →
  same_market m m' ∧ market_can_transition_to (m_market_state m) (m_market_state m') = true ∧
  length (m_shares m') = length (m_shares m) ∧
  length (m_outcome_volumes_sats m') = length (m_outcome_volumes_sats m).
Proof.
  destruct 1 as [m m' h s sh p H|m m' i c H|m m' i c H].
  - apply update_state_facts in H as (? & ? & ? & -> & _). by split_and!.
  - unfold update_trading_volume in H. case_match; inv_ok. simpl.
    unfold same_market. simpl. rewrite length_alter, can_transition_refl. by split_and!.
  - unfold revert_trading_volume in H. case_match; inv_ok. simpl.
    unfold same_market. simpl. rewrite length_alter, can_transition_refl. by split_and!.
Qed.

Lemma same_market_trans m1 m2 m3 : same_market m1 m2 → same_market m2 m3 → same_market m1 m3.
Proof. unfold same_market. intuition congruence. Qed.

Lemma market_steps_facts m m' :
  rtc market_step m m' →
  same_market m m' ∧ market_can_transition_to (m_market_state m) (m_market_state m') = true ∧
  length (m_shares m') = length (m_shares m) ∧
  length (m_outcome_volumes_sats m') = length (m_outcome_volumes_sats m).
Proof.
  induction 1 as [m|m1 m2 m3 H12 _ (IHs & IHt & IHl & IHv)].
  - unfold same_market. rewrite can_transition_refl. by split_and!.
  - apply market_step_facts in H12 as (Hs & Ht & Hl & Hv).
    split_and!; [by eapply same_market_trans|by eapply can_transition_trans| |]; congruence.
Qed.

(** Whatever operations a market goes through from its creation, it keeps
    its identity, its dimensions and one share and one volume counter per
    outcome; the state it is in was reachable from trading, and once it is
    cancelled or settled it stays so and never trades again. *)
Theorem market_lifecycle cid title desc tags creator specs fee created expires decisions hs od df
  m0 m m' :
  build_market cid title desc tags creator specs fee created expires decisions hs od df = Ok m0 →
  rtc market_step m0 m → rtc market_step m m' →
  same_market m0 m' ∧ market_shape m' ∧
  market_can_transition_to (m_market_state m) (m_market_state m') = true ∧
  (m_market_state m = Cancelled ∨ m_market_state m = Settled →
     m_market_state m' = m_market_state m ∧ allows_trading (m_market_state m') = false) ∧
  (allows_trading (m_market_state m') = true → m_market_state m = Trading).
Proof.
  intros Hb H1 H2. apply build_market_facts in Hb
    as (tr & n & _ & _ & _ & _ & _ & _ & Hsh & _ & Hvol & _).
  apply market_steps_facts in H1 as (Hs1 & Ht1 & Hl1 & Hv1).
  apply market_steps_facts in H2 as (Hs2 & Ht2 & Hl2 & Hv2).
  pose proof (same_market_trans _ _ _ Hs1 Hs2) as Hs.
  split; [done|]. split; [split|split; [done|split]].
  - rewrite Hl2, Hl1, Hsh, length_replicate. symmetry. by apply same_market_count.
  - rewrite Hv2, Hv1, Hvol, length_replicate. symmetry. by apply same_market_count.
  - unfold allows_trading. destruct (m_market_state m), (m_market_state m');
      intros [?|?]; try done.
  - unfold allows_trading. destruct (m_market_state m), (m_market_state m'); intros ?; done.
Qed.

(** The sample market cancelled, then asked to record a volume. *)
Definition sample_cancelled : Market := run (market_cancel (sample_market 5) 20) (sample_market 5).
Definition sample_late : Market :=
  run (update_trading_volume sample_cancelled 2 100) (sample_market 5).

Lemma market_lifecycle_witness :
  sample_build 5 = Ok (sample_market 5) ∧ market_shape sample_late ∧
  m_market_state sample_late = Cancelled.
Proof.
  assert (sample_build 5 = Ok (sample_market 5)) as Hb by (vm_compute; reflexivity).
  assert (rtc market_step (sample_market 5) sample_cancelled) as H1.
  { eapply rtc_l; [|apply rtc_refl].
    apply (step_update _ _ 20 (Some Cancelled) None None). vm_compute. reflexivity. }
  assert (rtc market_step sample_cancelled sample_late) as H2.
  { eapply rtc_l; [|apply rtc_refl]. apply (step_volume _ _ 2 100). vm_compute. reflexivity. }
  split; [exact Hb|].
  destruct (market_lifecycle _ _ _ _ _ _ _ _ _ _ _ _ _ _ _ _ Hb H1 H2) as (_ & Hshape & _ & Hst & _).
  split; [exact Hshape|]. apply Hst. left. vm_compute. reflexivity.
Defined.

End Lifecycle.

(** ** Volumes and positions *)

Section Accounting.

(** The total volume is the sum of the volumes of the outcomes. *)
Definition volume_ok (m : Market) : Prop :=
  m_total_volume_sats m = sumZ (m_outcome_volumes_sats m) ∧
  Forall (fun v => 0 ≤ v) (m_outcome_volumes_sats m) ∧ m_total_volume_sats m ≤ U64_MAX.

Lemma sumZ_list_alter (f : Z → Z) (l : list Z) i v : l !! i = Some v → sumZ (alter f i l) = sumZ l - v + f v.
Proof.
  revert i. induction l as [|x l IH]; intros [|i] H; simplify_eq/=; [lia|].
  change (alter f (S i) (x :: l)) with (x :: alter f i l). simpl. rewrite (IH i H). lia.
Qed.

Lemma sumZ_lookup_le (l : list Z) i v : Forall (fun v => 0 ≤ v) l → l !! i = Some v → 0 ≤ v ≤ sumZ l.
Proof.
  intros Hl. revert i. induction Hl as [|x l Hx Hl IH]; intros [|i] H; simplify_eq/=.
  - enough (0 ≤ sumZ l) by lia. clear -Hl. induction Hl; simpl; lia.
  - apply IH in H. lia.
Qed.

Lemma alter_alter_id (f g : Z → Z) (l : list Z) i v :
  l !! i = Some v → f (g v) = v → alter f i (alter g i l) = l.
Proof.
  intros Hl Hv. apply list_eq. intros j. destruct (decide (i = j)) as [<-|Hne].
  - rewrite !list_lookup_alter_eq, Hl. simpl. by rewrite Hv.
  - by rewrite !list_lookup_alter_ne.
Qed.

Lemma Forall_alter_nonneg (f : Z → Z) (l : list Z) i v :
  Forall (fun v => 0 ≤ v) l → l !! i = Some v → 0 ≤ f v → Forall (fun v => 0 ≤ v) (alter f i l).
Proof.
  intros Hl Hi Hf. apply Forall_alter; [done|]. intros x Hx _. by simplify_eq.
Qed.

(** The volume of a market.  A trade on an outcome of the market is
    recorded, an outcome it does not have is refused; as long as the total
    fits in 64 bits it stays the sum of the outcomes' volumes, reverting the
    trade gives the market back, and reverting part of a recorded volume
    keeps the sum. *)
Theorem volume_accounting m i cost :
  volume_ok m → 0 ≤ i → 0 ≤ cost → m_total_volume_sats m + cost ≤ U64_MAX →
  (i < Z.of_nat (length (m_outcome_volumes_sats m)) →
     ∃ m', update_trading_volume m i cost = Ok m' ∧ volume_ok m' ∧
       m_total_volume_sats m' = m_total_volume_sats m + cost ∧
       m_outcome_volumes_sats m' !! Z.to_nat i
         = Z.add cost <$> m_outcome_volumes_sats m !! Z.to_nat i ∧
       revert_trading_volume m' i cost = Ok m) ∧
  (Z.of_nat (length (m_outcome_volumes_sats m)) ≤ i →
     update_trading_volume m i cost = Err (InvalidOutcomeIndex i) ∧
     revert_trading_volume m i cost = Err (InvalidOutcomeIndex i)) ∧
  (∀ v, m_outcome_volumes_sats m !! Z.to_nat i = Some v → cost ≤ v →
     ∃ m', revert_trading_volume m i cost = Ok m' ∧ volume_ok m').
Proof.
  intros (Hsum & Hnn & Hmax) Hi Hc Hfit. unfold update_trading_volume, revert_trading_volume.
  split_and!.
  - intros Hlt. destruct (lookup_lt_is_Some_2 (m_outcome_volumes_sats m) (Z.to_nat i)) as [v Hv]; [lia|].
    pose proof (sumZ_lookup_le _ _ _ Hnn Hv) as Hle.
    destruct (Z.leb_spec (Z.of_nat (length (m_outcome_volumes_sats m))) i); [lia|].
    eexists. split; [reflexivity|]. simpl. rewrite length_alter.
    destruct (Z.leb_spec (Z.of_nat (length (m_outcome_volumes_sats m))) i); [lia|].
    unfold volume_ok, sat_add_u64, sat_sub. simpl. split_and!.
    + rewrite (sumZ_list_alter _ _ _ v Hv). lia.
    + apply (Forall_alter_nonneg _ _ _ v); [done|done|lia].
    + lia.
    + lia.
    + rewrite list_lookup_alter_eq, Hv. simpl. f_equal. lia.
    + rewrite (alter_alter_id _ _ _ _ v Hv) by lia.
      rewrite Z.min_l, Z.max_l by lia. rewrite Z.add_simpl_r.
      f_equal. destruct m; reflexivity.
  - intros Hge. by destruct (Z.leb_spec (Z.of_nat (length (m_outcome_volumes_sats m))) i); [|lia].
  - intros v Hv Hle. pose proof (lookup_lt_Some _ _ _ Hv).
    pose proof (sumZ_lookup_le _ _ _ Hnn Hv).
    destruct (Z.leb_spec (Z.of_nat (length (m_outcome_volumes_sats m))) i); [lia|].
    eexists. split; [reflexivity|]. unfold volume_ok, sat_sub. simpl. split_and!.
    + rewrite (sumZ_list_alter _ _ _ v Hv). lia.
    + apply (Forall_alter_nonneg _ _ _ v); [done|done|lia].
    + lia.
Qed.

Lemma volume_accounting_witness :
  ∃ m', update_trading_volume (sample_market 0) 4 250 = Ok m' ∧ volume_ok m' ∧
    revert_trading_volume m' 4 250 = Ok (sample_market 0).
Proof.
  destruct (volume_accounting (sample_market 0) 4 250) as (Hup & _);
    [|lia|lia|vm_compute; discriminate|].
  { split_and!; [vm_compute; reflexivity| |vm_compute; discriminate].
    vm_compute. repeat constructor; discriminate. }
  destruct (Hup ltac:(vm_compute; reflexivity)) as (m' & H1 & H2 & _ & _ & H3).
  exists m'. split; [exact H1|]. split; [exact H2|exact H3].
Defined.

(** An account holds only positive positions that fit in an [i64]. *)
Definition account_ok (a : ShareAccount) : Prop :=
  map_Forall (fun _ n => 0 < n ≤ I64_MAX) (positions a).

Lemma account_ok_position a mid i : account_ok a → 0 ≤ get_position a mid i ≤ I64_MAX.
Proof.
  intros Ha. unfold get_position. destruct (positions a !! (mid, i)) eqn:E; simpl; [|lia].
  apply Ha in E. lia.
Qed.

(** Positions in a share account.  Buying adds to one position and leaves
    the others; selling fails exactly when it asks for more than the position,
    drops a position that reaches zero and otherwise subtracts; selling what
    was bought gives the positions back, and positions stay positive. *)
Theorem share_account_spec a mid i n h h' :
  account_ok a → 0 < n → get_position a mid i + n ≤ I64_MAX →
  account_ok (add_shares a mid i n h) ∧
  (∀ mid' i', get_position (add_shares a mid i n h) mid' i'
     = get_position a mid' i' + (if bool_decide ((mid', i') = (mid, i)) then n else 0)) ∧
  remove_shares (add_shares a mid i n h) mid i n h'
    = Ok {| positions := positions a; last_updated_height := h' |} ∧
  (get_position a mid i < n → remove_shares a mid i n h' = Err InvalidOutcomeCombination) ∧
  (n ≤ get_position a mid i → ∃ a', remove_shares a mid i n h' = Ok a' ∧ account_ok a' ∧
     (positions a' !! (mid, i) = None ↔ n = get_position a mid i) ∧
     ∀ mid' i', get_position a' mid' i'
       = get_position a mid' i' - (if bool_decide ((mid', i') = (mid, i)) then n else 0)).
Proof.
  intros Ha Hn Hfit. pose proof (account_ok_position a mid i Ha) as Hpos.
  assert (as_i64 (get_position a mid i + n) = get_position a mid i + n) as Hadd.
  { apply as_i64_small. split; lia. }
  unfold add_shares, remove_shares. simpl. fold (get_position a mid i). split_and!.
  - unfold account_ok. simpl. apply map_Forall_insert_2; [lia|done].
  - intros mid' i'. unfold get_position. simpl. case_bool_decide as He.
    + simplify_eq. rewrite lookup_insert_eq. simpl. unfold get_position in *. lia.
    + rewrite lookup_insert_ne by done. lia.
  - rewrite lookup_insert_eq. simpl. rewrite Hadd.
    destruct (Z.ltb_spec (get_position a mid i + n) n); [lia|].
    rewrite Z.add_simpl_r. rewrite as_i64_small by (split; lia).
    unfold get_position in *. destruct (positions a !! (mid, i)) as [v|] eqn:E; simpl in *.
    + apply Ha in E as Hv. destruct (Z.ltb_spec 0 v); [|lia].
      rewrite insert_insert_eq, insert_id; done.
    + rewrite delete_insert_id; done.
  - intros Hlt. by destruct (Z.ltb_spec (get_position a mid i) n); [|lia].
  - intros Hge. destruct (Z.ltb_spec (get_position a mid i) n); [lia|].
    rewrite as_i64_small by (split; lia). eexists. split; [reflexivity|].
    destruct (Z.ltb_spec 0 (get_position a mid i - n)) as [Hz|Hz]; simpl.
    + split_and!.
      * apply map_Forall_insert_2; [lia|done].
      * rewrite lookup_insert_eq. split; [done|lia].
      * intros mid' i'. unfold get_position in *. simpl. case_bool_decide as He.
        -- simplify_eq. by rewrite lookup_insert_eq.
        -- rewrite lookup_insert_ne by done. lia.
    + split_and!.
      * by apply map_Forall_delete.
      * rewrite lookup_delete_eq. split; [lia|done].
      * intros mid' i'. unfold get_position in *. simpl. case_bool_decide as He.
        -- simplify_eq. rewrite lookup_delete_eq. simpl. lia.
        -- rewrite lookup_delete_ne by done. lia.
Qed.

Lemma share_account_spec_witness :
  remove_shares (add_shares ShareAccount_new [7] 2 50 10) [7] 2 50 11
    = Ok {| positions := ∅; last_updated_height := 11 |}.
Proof.
  destruct (share_account_spec ShareAccount_new [7] 2 50 10 11) as (_ & _ & H & _);
    [|lia|vm_compute; discriminate|exact H].
  apply map_Forall_empty.
Defined.

End Accounting.
