(* ===== verification/Transactions.v ===== *)
(** * Transactions and the UTXO set

    Outpoints and their database keys, outputs and their values, filled
    transactions (src/lib/types/transaction/mod.rs, output.rs) and the UTXO
    tables of the state with their address index (src/lib/state/mod.rs). *)

From stdpp Require Import base numbers list strings gmap.
From S2P Require Import Prelude Float64 StateErrors DecisionTypes Markets.

(** ** Database keys of outpoints *)

Definition OUTPOINT_KEY_SIZE : nat := 37.

(** The Borsh encoding: the variant, then the fields; integers are little
    endian, arrays are copied, a [bool] is one byte. *)
Definition borsh_outpoint (op : OutPoint) : bytes :=
  match op with
  | OpRegular txid vout => 0 :: txid ++ le_bytes vout
  | OpCoinbase txid vout => 1 :: txid ++ le_bytes vout
  | OpDeposit txid vout => 2 :: txid ++ le_bytes vout
  | OpMarketFunds market_id block_height is_fee =>
      3 :: market_id ++ le_bytes block_height ++ [if is_fee then 1 else 0]
  | OpPayout hash vout => 4 :: hash ++ le_bytes vout
  end.

(** The encoding written into a zeroed buffer of 37 bytes. *)
Definition from_outpoint (op : OutPoint) : bytes :=
  let b := borsh_outpoint op in b ++ replicate (OUTPOINT_KEY_SIZE - length b) 0.

Definition read (n : nat) (b : bytes) : option (bytes * bytes) :=
  if (length b <? n)%nat then None else Some (take n b, drop n b).

Definition read_u32 (b : bytes) : option (Z * bytes) :=
  match b with
  | b0 :: b1 :: b2 :: b3 :: b => Some (b0 + 256 * b1 + 65536 * b2 + 16777216 * b3, b)
  | _ => None
  end.

Definition read_hash_vout (make : bytes → Z → OutPoint) (b : bytes) : option OutPoint :=
  '(hash, b) ← read 32 b;
  '(vout, _) ← read_u32 b;
  Some (make hash vout).

(** [deserialize_reader] on the key; bytes left over are not looked at. *)
Definition to_outpoint (key : bytes) : option OutPoint :=
  match key with
  | [] => None
  | tag :: b =>
      match tag with
      | 0 => read_hash_vout OpRegular b
      | 1 => read_hash_vout OpCoinbase b
      | 2 => read_hash_vout OpDeposit b
      | 3 =>
          '(market_id, b) ← read 6 b;
          '(height, b) ← read_u32 b;
          match b with
          | 0 :: _ => Some (OpMarketFunds market_id height false)
          | 1 :: _ => Some (OpMarketFunds market_id height true)
          | _ => None
          end
      | 4 => read_hash_vout OpPayout b
      | _ => None
      end
  end.

(** The sizes the Rust types guarantee. *)
Definition outpoint_ok (op : OutPoint) : Prop :=
  match op with
  | OpRegular h n | OpCoinbase h n | OpDeposit h n | OpPayout h n => length h = 32%nat ∧ is_u32 n
  | OpMarketFunds m n _ => length m = 6%nat ∧ is_u32 n
  end.

(** ** Outputs *)

(** The amounts of the [bitcoin] crate: satoshis up to [Amount::MAX], which
    fits in a [u64]; [checked_add] fails above it. *)
Class BitcoinAmount : Type := {
  AMOUNT_MAX : Z;
  AMOUNT_MAX_u64 : 0 ≤ AMOUNT_MAX ≤ U64_MAX
}.

Section Outputs.
Context {AM : BitcoinAmount}.

Definition amount_checked_add (a b : Z) : option Z :=
  if AMOUNT_MAX <? a + b then None else Some (a + b).

(** [CheckedSum]: from zero, stopping at the first overflow. *)
Definition amount_checked_sum (l : list Z) : option Z :=
  foldl (fun acc v => a ← acc; amount_checked_add a v) (Some 0) l.

End Outputs.

Record WithdrawalContent : Type := { w_value : Z; w_main_fee : Z; w_main_address : bytes }.

Inductive Content : Type :=
| CBitcoin (value : Z)
| CWithdrawal (w : WithdrawalContent)
| CMarketFunds (market_id : MarketId) (amount : Z) (is_fee : bool).

Inductive FilledContent : Type :=
| FBitcoin (value : Z)
| FBitcoinWithdrawal (w : WithdrawalContent)
| FMarketFunds (market_id : MarketId) (amount : Z) (is_fee : bool).

Record Output_ (C : Type) : Type := { out_address : Address; out_content : C; out_memo : bytes }.
Arguments out_address {C}.
Arguments out_content {C}.
Arguments out_memo {C}.
Arguments Build_Output_ {C}.
Abbreviation Output := (Output_ Content).
Abbreviation FilledOutput := (Output_ FilledContent).

(** [From<FilledContent> for Content]. *)
Definition content_of_filled (c : FilledContent) : Content :=
  match c with
  | FBitcoin value => CBitcoin value
  | FBitcoinWithdrawal w => CWithdrawal w
  | FMarketFunds _ amount _ => CBitcoin amount
  end.

Section Values.
Context {AM : BitcoinAmount}.

Definition withdrawal_bitcoin_value (w : WithdrawalContent) : Z :=
  default AMOUNT_MAX (amount_checked_add (w_value w) (w_main_fee w)).

Definition content_bitcoin_value (c : Content) : Z :=
  match c with
  | CBitcoin value => value
  | CWithdrawal w => withdrawal_bitcoin_value w
  | CMarketFunds _ amount _ => amount
  end.

Definition get_bitcoin_value (o : FilledOutput) : Z :=
  content_bitcoin_value (content_of_filled (out_content o)).

Definition output_bitcoin_value (o : Output) : Z := content_bitcoin_value (out_content o).

End Values.

(** ** Transactions *)

Record DecisionClaimEntry : Type := {
  dce_decision_id_bytes : bytes;
  dce_header : string;
  dce_description : string;
  dce_option_0_label : option string;
  dce_option_1_label : option string;
  dce_option_labels : option (list string);
  dce_tags : option (list string)
}.

Record ClaimDecisionPayload : Type := {
  cdp_decision_type : DecisionType;
  cdp_decisions : list DecisionClaimEntry
}.

Record BallotItem : Type := { bi_decision_id_bytes : bytes; bi_vote_value : f64 }.

Inductive TransactionData : Type :=
| ClaimDecision (payload : ClaimDecisionPayload)
| CreateMarket (title description : string) (dimension_specs : list DimensionSpec)
    (new_claims : list ClaimDecisionPayload) (trading_fee : option f64)
    (tx_pow_hash_selector tx_pow_ordering tx_pow_difficulty : option Z)
| Trade (market_id : MarketId) (outcome_index shares : Z) (trader : Address) (limit_sats : Z)
    (tx_pow_nonce : option Z) (prev_block_hash : bytes)
| SubmitVote (voter : Address) (decision_id_bytes : bytes) (vote_value : f64) (voting_period : Z)
| SubmitBallot (voter : Address) (votes : list BallotItem) (voting_period : Z)
| TransferReputation (sender dest : Address) (amount : f64)
| AmplifyBeta (market_id : MarketId) (amount : Z) (market_author : Address).

Record Transaction : Type := {
  tx_inputs : list OutPoint;
  tx_outputs : list Output;
  tx_memo : bytes;
  tx_data : option TransactionData
}.

Record FilledTransaction : Type := {
  transaction : Transaction;
  spent_utxos : list FilledOutput;
  actor_address : option Address
}.

Inductive AssetId : Type := ABitcoin.
#[export] Instance AssetId_eq_dec : EqDecision AssetId.
Proof. solve_decision. Defined.
#[export] Instance AssetId_countable : Countable AssetId.
Proof. apply (inj_countable' (fun _ => tt) (fun _ => ABitcoin)). by intros []. Defined.

Definition asset_value (o : FilledOutput) : option (AssetId * Z) :=
  match out_content o with
  | FBitcoin value => Some (ABitcoin, value)
  | FMarketFunds _ amount _ => Some (ABitcoin, amount)
  | FBitcoinWithdrawal _ => None
  end.

Definition is_bitcoin (o : FilledOutput) : bool :=
  match out_content o with FBitcoin _ => true | _ => false end.

Definition spent_inputs (tx : FilledTransaction) : list (OutPoint * FilledOutput) :=
  zip (tx_inputs (transaction tx)) (spent_utxos tx).

Definition spent_assets (tx : FilledTransaction) : list (OutPoint * FilledOutput) :=
  filter (fun e => is_bitcoin e.2 = true) (spent_inputs tx).

(** [unique_by]: the first pair of every key. *)
Fixpoint unique_by_asset (seen : list AssetId) (l : list (AssetId * Z)) : list (AssetId * Z) :=
  match l with
  | [] => []
  | e :: l => if bool_decide (e.1 ∈ seen) then unique_by_asset seen l
              else e :: unique_by_asset (e.1 :: seen) l
  end.

Definition unique_spent_assets (tx : FilledTransaction) : list (AssetId * Z) :=
  let values := omap (fun e => asset_value e.2) (spent_assets tx) in
  let combined := foldl (fun (m : gmap AssetId Z) e =>
    <[e.1 := as_u64 (default 0 (m !! e.1) + e.2)]> m) ∅ values in
  map (fun e => (e.1, default 0 (combined !! e.1))) (unique_by_asset [] values).

Definition output_asset_total_values (tx : FilledTransaction) : list (AssetId * option Z) :=
  filter (fun e => e.2 ≠ Some 0) (map (fun e => (e.1, Some e.2)) (unique_spent_assets tx)).

Definition output_bitcoin_max_value (tx : FilledTransaction) : option Z :=
  match output_asset_total_values tx with
  | (ABitcoin, value) :: _ => value
  | [] => Some 0
  end.

(** The closure of [filled_outputs], with the remaining maximum threaded. *)
Definition fill_output (max : Z) (o : Output) : option (Z * FilledOutput) :=
  let filled c := {| out_address := out_address o; out_content := c; out_memo := out_memo o |} in
  match out_content o with
  | CBitcoin value =>
      new_max ← checked_sub max value;
      Some (new_max, filled (FBitcoin value))
  | CWithdrawal w => Some (max, filled (FBitcoinWithdrawal w))
  | CMarketFunds market_id amount is_fee =>
      new_max ← checked_sub max amount;
      Some (new_max, filled (FMarketFunds market_id amount is_fee))
  end.

Fixpoint fill_outputs (max : Z) (l : list Output) : option (list FilledOutput) :=
  match l with
  | [] => Some []
  | o :: l =>
      '(max, f) ← fill_output max o;
      fs ← fill_outputs max l;
      Some (f :: fs)
  end.

Definition filled_outputs (tx : FilledTransaction) : option (list FilledOutput) :=
  max ← output_bitcoin_max_value tx;
  fill_outputs max (tx_outputs (transaction tx)).

Inductive AmountOverflowError : Type := AmountOverflow.

Section Fees.
Context {AM : BitcoinAmount}.

Definition spent_bitcoin_value (tx : FilledTransaction) : result AmountOverflowError Z :=
  ok_or (amount_checked_sum (map get_bitcoin_value (spent_utxos tx))) AmountOverflow.

Definition bitcoin_value_out (tx : FilledTransaction) : result AmountOverflowError Z :=
  ok_or (amount_checked_sum (map output_bitcoin_value (tx_outputs (transaction tx)))) AmountOverflow.

Definition bitcoin_fee (tx : FilledTransaction) : result AmountOverflowError (option Z) :=
  spent_value ← spent_bitcoin_value tx;
  value_out ← bitcoin_value_out tx;
  if spent_value <? value_out then Ok None else Ok (Some (spent_value - value_out)).

End Fees.

(** ** The UTXO tables *)

Inductive InPoint : Type :=
| InRegular (txid : Txid) (vin : Z)
| InWithdrawal (m6id : bytes)
| InRedistribution.
#[export] Instance InPoint_eq_dec : EqDecision InPoint.
Proof. solve_decision. Defined.

Record SpentOutput : Type := { so_output : FilledOutput; so_inpoint : InPoint }.

(** The tables [utxos], [utxos_by_address] and [stxos]; the first and the last
    are keyed by the encoded outpoint. *)
Record UtxoTables : Type := {
  utxos : gmap bytes FilledOutput;
  utxos_by_address : gset (Address * OutPoint);
  stxos : gmap bytes SpentOutput
}.

Definition insert_utxo (s : UtxoTables) (outpoint : OutPoint) (filled_output : FilledOutput)
  : UtxoTables :=
  {| utxos := <[from_outpoint outpoint := filled_output]> (utxos s);
     utxos_by_address := {[ (out_address filled_output, outpoint) ]} ∪ utxos_by_address s;
     stxos := stxos s |}.

(** The branch that finds the entry gone after reading it in the same
    transaction cannot be taken and is not there. *)
Definition delete_utxo (s : UtxoTables) (outpoint : OutPoint) : bool * UtxoTables :=
  let key := from_outpoint outpoint in
  match utxos s !! key with
  | None => (false, s)
  | Some filled_output =>
      (true, {| utxos := delete key (utxos s);
                utxos_by_address :=
                  utxos_by_address s ∖ {[ (out_address filled_output, outpoint) ]};
                stxos := stxos s |})
  end.

Definition clear_utxos (s : UtxoTables) : UtxoTables :=
  {| utxos := ∅; utxos_by_address := ∅; stxos := stxos s |}.

Definition get_utxos_by_addresses (s : UtxoTables) (addresses : gset Address)
  : gmap OutPoint FilledOutput :=
  foldl (fun (result : gmap OutPoint FilledOutput) (e : Address * OutPoint) =>
    if bool_decide (e.1 ∈ addresses) then
      match utxos s !! from_outpoint e.2 with
      | Some filled_output => <[e.2 := filled_output]> result
      | None => result
      end
    else result) ∅ (elements (utxos_by_address s)).

Definition fill_transaction (s : UtxoTables) (t : Transaction) : result Error FilledTransaction :=
  spent ← try_map (fun input => ok_or (utxos s !! from_outpoint input) (NoUtxo input)) (tx_inputs t);
  Ok {| transaction := t; spent_utxos := spent; actor_address := None |}.

(** The loop of [fill_transaction_from_stxos] over the inputs, last first;
    [None] is the failed assertion on the recorded inpoint. *)
Fixpoint fill_from_stxos (s : UtxoTables) (txid : Txid) (vin : Z) (inputs : list OutPoint)
  : option (result Error (list FilledOutput)) :=
  match inputs with
  | [] => Some (Ok [])
  | input :: inputs =>
      r ← fill_from_stxos s txid (vin + 1) inputs;
      match r with
      | Err e => Some (Err e)
      | Ok spent =>
          match stxos s !! from_outpoint input with
          | None => Some (Err (NoStxo input))
          | Some stxo =>
              if bool_decide (so_inpoint stxo = InRegular txid (as_u32 vin))
              then Some (Ok (so_output stxo :: spent)) else None
          end
      end
  end.

Section Apply.
(** [Transaction::txid], a hash of the encoded transaction. *)
Context (txid_of : Transaction → Txid).

Definition fill_transaction_from_stxos (s : UtxoTables) (t : Transaction)
  : option (result Error FilledTransaction) :=
  (fun r => spent ← r;
            Ok {| transaction := t; spent_utxos := spent; actor_address := None |})
  <$> fill_from_stxos s (txid_of t) 0 (tx_inputs t).

Definition put_stxo (s : UtxoTables) (key : bytes) (spent : SpentOutput) : UtxoTables :=
  {| utxos := utxos s; utxos_by_address := utxos_by_address s; stxos := <[key := spent]> (stxos s) |}.

(** The first loop of [apply_utxo_changes]. *)
Definition spend_input (txid : Txid) (s : UtxoTables) (e : Z * OutPoint) : result Error UtxoTables :=
  let '(vin, input) := e in
  output ← ok_or (utxos s !! from_outpoint input) (NoUtxo input);
  Ok (put_stxo (delete_utxo s input).2 (from_outpoint input)
        {| so_output := output; so_inpoint := InRegular txid (as_u32 vin) |}).

(** The second loop. *)
Definition create_output (txid : Txid) (s : UtxoTables) (e : Z * FilledOutput) : UtxoTables :=
  insert_utxo s (OpRegular txid (as_u32 e.1)) e.2.

Definition apply_utxo_changes (s : UtxoTables) (tx : FilledTransaction) : result Error UtxoTables :=
  let txid := txid_of (transaction tx) in
  s ← try_fold (spend_input txid) s (enumerate 0 (tx_inputs (transaction tx)));
  outputs ← ok_or (filled_outputs tx) FillTxOutputContents;
  Ok (foldl (create_output txid) s (enumerate 0 outputs)).

(** The outputs and inputs of one transaction in [disconnect_tip]. *)
Definition remove_output (txid : Txid) (s : UtxoTables) (vout : Z) : result Error UtxoTables :=
  let outpoint := OpRegular txid (as_u32 vout) in
  match delete_utxo s outpoint with
  | (true, s) => Ok s
  | (false, _) => Err (NoUtxo outpoint)
  end.

Definition unspend_input (s : UtxoTables) (input : OutPoint) : result Error UtxoTables :=
  match stxos s !! from_outpoint input with
  | Some spent =>
      Ok (insert_utxo {| utxos := utxos s; utxos_by_address := utxos_by_address s;
                         stxos := delete (from_outpoint input) (stxos s) |} input (so_output spent))
  | None => Err (NoStxo input)
  end.

Definition revert_utxo_changes (s : UtxoTables) (t : Transaction) : result Error UtxoTables :=
  s ← try_fold (remove_output (txid_of t)) s (rev (range 0 (Z.of_nat (length (tx_outputs t)))));
  try_fold unspend_input s (rev (tx_inputs t)).

End Apply.

Section Wealth.
Context {AM : BitcoinAmount}.

Definition is_deposit_key (key : bytes) : bool :=
  match to_outpoint key with Some (OpDeposit _ _) => true | _ => false end.

Definition compute_deposit_utxo_value (s : UtxoTables) : Z :=
  foldl (fun total e => if is_deposit_key e.1 then sat_add_u64 total (get_bitcoin_value e.2) else total)
    0 (db_iter bytes_cmp (utxos s)).

Definition compute_deposit_stxo_value (s : UtxoTables) : Z :=
  foldl (fun total e => if is_deposit_key e.1
                        then sat_add_u64 total (get_bitcoin_value (so_output e.2)) else total)
    0 (db_iter bytes_cmp (stxos s)).

Definition compute_withdrawal_stxo_value (s : UtxoTables) : Z :=
  foldl (fun total e => match so_inpoint e.2 with
                        | InWithdrawal _ => sat_add_u64 total (get_bitcoin_value (so_output e.2))
                        | _ => total end)
    0 (db_iter bytes_cmp (stxos s)).

Definition sidechain_wealth (s : UtxoTables) : result AmountOverflowError Z :=
  ok_or (sum ← amount_checked_add (compute_deposit_utxo_value s) (compute_deposit_stxo_value s);
         checked_sub sum (compute_withdrawal_stxo_value s)) AmountOverflow.

End Wealth.
