(* ===== verification/TransactionsFacts.v ===== *)
(** * Correctness of the UTXO set

    An outpoint survives its 37-byte key; the address index of the UTXO table
    is exact; a transaction never creates value; disconnecting the
    transactions of a block gives back the tables it found. *)

From stdpp Require Import base numbers list strings gmap.
From S2P Require Import Prelude Float64 SafeMath StateErrors DecisionTypes Markets Transactions.

(** ** Keys *)

Section Keys.

Lemma le_bytes_read n b : is_u32 n → read_u32 (le_bytes n ++ b) = Some (n, b).
Proof. unfold is_u32, le_bytes. intros Hn. simpl. do 2 f_equal. zify_div. Qed.

Lemma read_app n h b : length h = n → read n (h ++ b) = Some (h, b).
Proof.
  intros <-. unfold read. rewrite length_app.
  destruct (Nat.ltb_spec (length h + length b) (length h)); [lia|].
  by rewrite take_app_length, drop_app_length.
Qed.

Lemma read_hash_vout_app make h n b :
  length h = 32%nat → is_u32 n → read_hash_vout make ((h ++ le_bytes n) ++ b) = Some (make h n).
Proof.
  intros Hh Hn. unfold read_hash_vout. rewrite <- app_assoc, (read_app 32) by done. cbn -[le_bytes read_u32].
  by rewrite le_bytes_read.
Qed.

Lemma to_from_outpoint op : outpoint_ok op → to_outpoint (from_outpoint op) = Some op.
Proof.
  unfold from_outpoint. destruct op as [h n|h n|h n|m n fee|h n]; intros [Hl Hn]; cbn -[le_bytes read_u32 read read_hash_vout];
    try by apply read_hash_vout_app.
  rewrite <- !app_assoc. rewrite (read_app 6) by done. cbn -[le_bytes read_u32].
  rewrite le_bytes_read by done. by destruct fee.
Qed.

Lemma from_outpoint_inj op op' :
  outpoint_ok op → outpoint_ok op' → from_outpoint op = from_outpoint op' → op = op'.
Proof.
  intros H1%to_from_outpoint H2%to_from_outpoint He. congruence.
Qed.

Lemma from_outpoint_length op : outpoint_ok op → length (from_outpoint op) = OUTPOINT_KEY_SIZE.
Proof.
  intros Hok. unfold from_outpoint. rewrite length_app, length_replicate.
  enough (length (borsh_outpoint op) ≤ OUTPOINT_KEY_SIZE)%nat by lia.
  unfold OUTPOINT_KEY_SIZE.
  destruct op; destruct Hok as [Hl _]; cbn -[le_bytes]; rewrite !length_app; cbn; lia.
Qed.

(** The database key of an outpoint.  Every outpoint fits the 37-byte key,
    is read back from it, and two outpoints never share a key. *)
Theorem outpoint_key_roundtrip op :
  outpoint_ok op →
  to_outpoint (from_outpoint op) = Some op ∧ length (from_outpoint op) = OUTPOINT_KEY_SIZE ∧
  ∀ op', outpoint_ok op' → from_outpoint op' = from_outpoint op → op' = op.
Proof.
  intros Hok. split; [by apply to_from_outpoint|]. split; [by apply from_outpoint_length|].
  intros op' Hok' He. by apply from_outpoint_inj.
Qed.

Lemma outpoint_key_roundtrip_witness :
  to_outpoint (from_outpoint (OpMarketFunds [1; 2; 3; 4; 5; 6] 42 true))
  = Some (OpMarketFunds [1; 2; 3; 4; 5; 6] 42 true).
Proof.
  apply (outpoint_key_roundtrip (OpMarketFunds [1; 2; 3; 4; 5; 6] 42 true)).
  split; [reflexivity|]. split; lia.
Defined.

End Keys.

#[local] Arguments from_outpoint _ : simpl never.

(** ** The address index *)

Section Tables.

(** The index lists exactly the outpoints of the UTXO table under the address
    of their output; no outpoint is both unspent and spent. *)
Definition index_ok (s : UtxoTables) : Prop :=
  ∀ a op, (a, op) ∈ utxos_by_address s ↔
    outpoint_ok op ∧ ∃ o, utxos s !! from_outpoint op = Some o ∧ out_address o = a.

Definition disjoint_ok (s : UtxoTables) : Prop :=
  ∀ k, utxos s !! k = None ∨ stxos s !! k = None.

Lemma insert_index_ok s op o :
  index_ok s → outpoint_ok op →
  (∀ o', utxos s !! from_outpoint op = Some o' → out_address o' = out_address o) →
  index_ok (insert_utxo s op o).
Proof.
  intros Hs Hop Hsame a op'. unfold insert_utxo. simpl.
  rewrite elem_of_union, elem_of_singleton, (Hs a op'). split.
  - intros [[= -> ->]|(Hok & o' & Ho' & Ha)].
    + split; [done|]. exists o. by rewrite lookup_insert_eq.
    + split; [done|]. destruct (decide (op' = op)) as [->|Hne].
      * exists o. rewrite lookup_insert_eq. split; [done|]. rewrite <- (Hsame o') by done. done.
      * exists o'. rewrite lookup_insert_ne; [done|]. intros He. apply Hne.
        by apply from_outpoint_inj.
  - intros (Hok & o' & Ho' & Ha). destruct (decide (op' = op)) as [->|Hne].
    + rewrite lookup_insert_eq in Ho'. left. by simplify_eq.
    + right. split; [done|]. exists o'. rewrite lookup_insert_ne in Ho'; [done|].
      intros He. apply Hne. by apply from_outpoint_inj.
Qed.

Lemma delete_index_ok s op : index_ok s → outpoint_ok op → index_ok (delete_utxo s op).2.
Proof.
  intros Hs Hop a op'. unfold delete_utxo.
  destruct (utxos s !! from_outpoint op) as [o|] eqn:Eo; simpl; [|apply Hs].
  rewrite elem_of_difference, elem_of_singleton, (Hs a op'). split.
  - intros ((Hok & o' & Ho' & Ha) & Hne). split; [done|]. exists o'. split; [|done].
    rewrite lookup_delete_ne; [done|]. intros He. apply Hne.
    assert (op = op') as -> by (by apply from_outpoint_inj). by simplify_eq.
  - intros (Hok & o' & Ho' & Ha). apply lookup_delete_Some in Ho' as [Hk Ho'].
    split; [split; [done|by exists o']|]. intros [= -> ->]. done.
Qed.

(** The address index is determined by the table. *)
Lemma tables_ext (u u' : UtxoTables) :
  index_ok u → index_ok u' → utxos u = utxos u' → stxos u = stxos u' → u = u'.
Proof.
  intros Hu Hu' Hm Hs. destruct u as [m i s], u' as [m' i' s']. simpl in *. subst. f_equal.
  apply set_eq. intros [a op]. rewrite (Hu a op), (Hu' a op). done.
Qed.

(** One step of the tables. *)
Inductive utxo_step : UtxoTables → UtxoTables → Prop :=
| step_insert s op o :
    outpoint_ok op →
    (∀ o', utxos s !! from_outpoint op = Some o' → out_address o' = out_address o) →
    utxo_step s (insert_utxo s op o)
| step_delete s op : outpoint_ok op → utxo_step s (delete_utxo s op).2
| step_spend s key spent : utxo_step s (put_stxo s key spent)
| step_clear s : utxo_step s (clear_utxos s).

Lemma utxo_steps_index_ok s s' : index_ok s → rtc utxo_step s s' → index_ok s'.
Proof.
  intros Hs. induction 1 as [|s1 s2 s3 H12 _ IH]; [done|]. apply IH.
  destruct H12; [by apply insert_index_ok|by apply delete_index_ok|done|].
  intros a op. simpl. split; [set_solver|]. intros (_ & o & Ho & _). by rewrite lookup_empty in Ho.
Qed.

Definition add_listed (s : UtxoTables) (addresses : gset Address)
  (result : gmap OutPoint FilledOutput) (e : Address * OutPoint) : gmap OutPoint FilledOutput :=
  if bool_decide (e.1 ∈ addresses) then
    match utxos s !! from_outpoint e.2 with
    | Some filled_output => <[e.2 := filled_output]> result
    | None => result
    end
  else result.

(** The listing by address over any list of index entries. *)
Lemma listed_lookup s addresses l result op :
  foldl (add_listed s addresses) result l !! op
  = if bool_decide (Exists (fun e => e.1 ∈ addresses ∧ e.2 = op) l)
    then match utxos s !! from_outpoint op with Some o => Some o | None => result !! op end
    else result !! op.
Proof.
  revert result. induction l as [|[a op'] l IH]; intros result.
  { simpl. done. }
  cbn [foldl]. rewrite IH. unfold add_listed. simpl.
  assert (bool_decide (Exists (fun e : Address * OutPoint => e.1 ∈ addresses ∧ e.2 = op) ((a, op') :: l))
    = (bool_decide (a ∈ addresses) && bool_decide (op' = op))
      || bool_decide (Exists (fun e : Address * OutPoint => e.1 ∈ addresses ∧ e.2 = op) l)) as ->.
  { rewrite <- bool_decide_and, <- bool_decide_or. apply bool_decide_ext. by rewrite Exists_cons. }
  destruct (decide (op' = op)) as [->|Hne].
  - rewrite (bool_decide_true (op = op)) by done. rewrite andb_true_r.
    destruct (bool_decide (a ∈ addresses)); simpl; [|done].
    destruct (utxos s !! from_outpoint op); [rewrite lookup_insert_eq|]; by case_bool_decide.
  - rewrite (bool_decide_false (op' = op)) by done. rewrite andb_false_r. simpl.
    destruct (bool_decide (a ∈ addresses)); [|done].
    destruct (utxos s !! from_outpoint op'); [|done]. by rewrite lookup_insert_ne.
Qed.

(** The UTXO table and its address index.  Whatever sequence of insertions,
    deletions, spends and clears is applied to empty tables, the listing of a
    set of addresses is exactly the unspent outputs whose address is in the
    set (an outpoint is never overwritten with another address). *)
Theorem utxo_listing_exact s addresses op :
  rtc utxo_step {| utxos := ∅; utxos_by_address := ∅; stxos := ∅ |} s → outpoint_ok op →
  get_utxos_by_addresses s addresses !! op
  = match utxos s !! from_outpoint op with
    | Some o => if bool_decide (out_address o ∈ addresses) then Some o else None
    | None => None
    end.
Proof.
  intros Hsteps Hop.
  assert (index_ok s) as Hs.
  { eapply utxo_steps_index_ok; [|exact Hsteps]. intros a op'. simpl.
    split; [set_solver|]. intros (_ & o & Ho & _). by rewrite lookup_empty in Ho. }
  unfold get_utxos_by_addresses.
  change (foldl _ ∅ (elements (utxos_by_address s)))
    with (foldl (add_listed s addresses) ∅ (elements (utxos_by_address s))).
  rewrite listed_lookup, lookup_empty.
  destruct (utxos s !! from_outpoint op) as [o|] eqn:Eo; [|by destruct (bool_decide _)].
  erewrite bool_decide_ext; [done|]. rewrite Exists_exists. split.
  - intros ([a op'] & Hin & Ha & He). cbn [fst snd] in Ha, He. subst op'.
    apply elem_of_elements, Hs in Hin as (_ & o' & Ho' & <-).
    rewrite Eo in Ho'. apply (inj Some) in Ho' as <-. exact Ha.
  - intros Ha. exists (out_address o, op). split; [|done].
    apply elem_of_elements, Hs. split; [done|]. by exists o.
Qed.

Lemma utxo_listing_exact_witness :
  get_utxos_by_addresses
    (insert_utxo {| utxos := ∅; utxos_by_address := ∅; stxos := ∅ |}
       (OpCoinbase (replicate 32 9) 0)
       {| out_address := [1]; out_content := FBitcoin 50; out_memo := [] |})
    {[ [1] ]} !! OpCoinbase (replicate 32 9) 0
  = Some {| out_address := [1]; out_content := FBitcoin 50; out_memo := [] |}.
Proof.
  rewrite utxo_listing_exact; [vm_compute; reflexivity| |].
  - eapply rtc_l; [|apply rtc_refl]. apply step_insert.
    + split; [reflexivity|split; lia].
    + intros o' Ho'. simpl in Ho'. by rewrite lookup_empty in Ho'.
  - split; [reflexivity|split; lia].
Defined.

End Tables.

(** ** Value *)

Section Value.
Context {AM : BitcoinAmount}.

(** The amounts in an output are not negative. *)
Definition content_amounts_ok (c : Content) : Prop :=
  match c with
  | CBitcoin v | CMarketFunds _ v _ => 0 ≤ v
  | CWithdrawal w => 0 ≤ w_value w ∧ 0 ≤ w_main_fee w
  end.

Definition tx_amounts_ok (tx : FilledTransaction) : Prop :=
  length (tx_inputs (transaction tx)) = length (spent_utxos tx) ∧
  Forall (fun o => content_amounts_ok (content_of_filled (out_content o))) (spent_utxos tx) ∧
  Forall (fun o => content_amounts_ok (out_content o)) (tx_outputs (transaction tx)).

(** What plain bitcoin inputs provide, and what bitcoin and market-funds
    outputs need. *)
Definition coin_in (o : FilledOutput) : Z := match out_content o with FBitcoin v => v | _ => 0 end.
Definition coin_out (o : Output) : Z :=
  match out_content o with CBitcoin v | CMarketFunds _ v _ => v | CWithdrawal _ => 0 end.

Lemma amount_checked_sum_from l a v :
  foldl (fun acc x => b ← acc; amount_checked_add b x) (Some a) l = Some v →
  v = a + sumZ l ∧ (a ≤ AMOUNT_MAX → v ≤ AMOUNT_MAX).
Proof.
  revert a. induction l as [|x l IH]; simpl; intros a Hf.
  - simplify_eq. split; [lia|done].
  - unfold amount_checked_add at 2 in Hf. destruct (Z.ltb_spec AMOUNT_MAX (a + x)) as [Hlt|Hle].
    + exfalso. clear -Hf. induction l; simpl in Hf; [discriminate|done].
    + apply IH in Hf as [-> Hmax]. split; [lia|]. intros _. by apply Hmax.
Qed.

Lemma amount_checked_sum_spec l v :
  amount_checked_sum l = Some v → v = sumZ l ∧ v ≤ AMOUNT_MAX.
Proof.
  intros H. apply amount_checked_sum_from in H as [-> Hmax]. split; [lia|].
  apply Hmax. apply AMOUNT_MAX_u64.
Qed.

Lemma content_value_nonneg c : content_amounts_ok c → 0 ≤ content_bitcoin_value c.
Proof.
  pose proof AMOUNT_MAX_u64. destruct c as [v|w|m v f]; simpl; [done| |done].
  unfold withdrawal_bitcoin_value, amount_checked_add. intros [??]. case_match; simpl; lia.
Qed.

Lemma unique_by_asset_seen l seen : ABitcoin ∈ seen → unique_by_asset seen l = [].
Proof.
  intros Hin. induction l as [|[[] v] l IH]; simpl; [done|]. by rewrite bool_decide_true.
Qed.

Lemma combined_lookup (l : list (AssetId * Z)) (m : gmap AssetId Z) a :
  m !! ABitcoin = Some (as_u64 a) →
  foldl (fun (m : gmap AssetId Z) e => <[e.1 := as_u64 (default 0 (m !! e.1) + e.2)]> m) m l
    !! ABitcoin = Some (as_u64 (a + sumZ (map snd l))).
Proof.
  revert m a. induction l as [|[[] v] l IH]; intros m a Hm; simpl.
  - by rewrite Z.add_0_r.
  - rewrite (IH _ (a + v)); [do 2 f_equal; lia|].
    rewrite lookup_insert_eq, Hm. simpl. f_equal. apply wrap_unsigned_add_l.
Qed.

(** The most the outputs may take is what the plain bitcoin inputs provide. *)
Lemma max_value_spec tx :
  length (tx_inputs (transaction tx)) = length (spent_utxos tx) →
  output_bitcoin_max_value tx = Some (as_u64 (sumZ (map coin_in (spent_utxos tx)))).
Proof.
  intros Hlen. unfold output_bitcoin_max_value, output_asset_total_values, unique_spent_assets.
  assert (∀ ins (sp : list FilledOutput), length ins = length sp →
    sumZ (map coin_in sp)
    = sumZ (map snd (omap (fun e : OutPoint * FilledOutput => asset_value e.2)
                       (filter (fun e => is_bitcoin e.2 = true) (zip ins sp))))) as Hsum.
  { clear. induction ins as [|i ins IH]; intros [|o sp] Hl; simplify_eq/=; [done|].
    rewrite (IH sp Hl). by destruct o as [addr [v|w|m v f] memo]. }
  unfold spent_assets, spent_inputs. rewrite (Hsum _ _ Hlen).
  destruct (omap _ _) as [|[[] v] l]; simpl; [done|].
  rewrite unique_by_asset_seen by apply list_elem_of_here. simpl.
  rewrite (combined_lookup l _ v) by (by rewrite lookup_insert_eq).
  simpl. rewrite filter_cons. simpl. case_decide as Hz; simpl; [done|].
  by rewrite Hz.
Qed.

Lemma coin_out_nonneg outs :
  Forall (fun o => content_amounts_ok (out_content o)) outs → 0 ≤ sumZ (map coin_out outs).
Proof.
  intros Hok. apply sumZ_nonneg, Forall_map. eapply Forall_impl; [exact Hok|]. simpl.
  intros x Hx. unfold coin_out. destruct (out_content x); simpl in *; lia.
Qed.

Lemma fill_output_spec max o :
  0 ≤ max → content_amounts_ok (out_content o) →
  match fill_output max o with
  | Some (max', f) => max' = max - coin_out o ∧ 0 ≤ max' ∧
      get_bitcoin_value f = output_bitcoin_value o ∧ out_address f = out_address o ∧
      out_memo f = out_memo o
  | None => max < coin_out o
  end.
Proof.
  intros Hmax. unfold fill_output, coin_out, get_bitcoin_value, output_bitcoin_value, checked_sub.
  destruct (out_content o) as [v|w|m v f] eqn:Ec; simpl; intros Hc;
    try (destruct (Z.leb_spec v max); simpl); rewrite ?Ec; split_and?; try done; lia.
Qed.

Lemma fill_outputs_spec max outs :
  0 ≤ max → Forall (fun o => content_amounts_ok (out_content o)) outs →
  match fill_outputs max outs with
  | Some fs => sumZ (map coin_out outs) ≤ max ∧
      map get_bitcoin_value fs = map output_bitcoin_value outs ∧
      map out_address fs = map out_address outs ∧ map out_memo fs = map out_memo outs
  | None => max < sumZ (map coin_out outs)
  end.
Proof.
  intros Hmax Hok. revert max Hmax. induction Hok as [|o outs Ho Hok IH]; intros max Hmax; simpl.
  { done. }
  pose proof (coin_out_nonneg _ Hok). pose proof (fill_output_spec max o Hmax Ho) as Hf.
  destruct (fill_output max o) as [[max' f]|]; simpl; [|lia].
  destruct Hf as (-> & Hmax' & Hv & Ha & Hm). specialize (IH _ Hmax').
  destruct (fill_outputs (max - coin_out o) outs) as [fs|]; simpl; [|lia].
  destruct IH as (Hle & Hvs & Has & Hms). rewrite Hv, Ha, Hm, Hvs, Has, Hms.
  split; [lia|done].
Qed.

(** Value through a transaction.  When the fee of a transaction is
    computed it is what the inputs hold beyond the outputs; the outputs can be
    filled exactly when plain bitcoin inputs cover the bitcoin and market
    outputs, and every filled output keeps its address, memo and value. *)
Theorem filled_outputs_conserve tx fee :
  tx_amounts_ok tx → bitcoin_fee tx = Ok (Some fee) →
  0 ≤ fee ∧
  sumZ (map get_bitcoin_value (spent_utxos tx))
    = sumZ (map output_bitcoin_value (tx_outputs (transaction tx))) + fee ∧
  (is_Some (filled_outputs tx) ↔
     sumZ (map coin_out (tx_outputs (transaction tx))) ≤ sumZ (map coin_in (spent_utxos tx))) ∧
  ∀ fs, filled_outputs tx = Some fs →
    map get_bitcoin_value fs = map output_bitcoin_value (tx_outputs (transaction tx)) ∧
    map out_address fs = map out_address (tx_outputs (transaction tx)) ∧
    map out_memo fs = map out_memo (tx_outputs (transaction tx)).
Proof.
  intros (Hlen & Hin & Hout) Hfee. unfold bitcoin_fee, spent_bitcoin_value, bitcoin_value_out in Hfee.
  destruct (amount_checked_sum (map get_bitcoin_value (spent_utxos tx))) as [sv|] eqn:Es;
    simpl in Hfee; [|discriminate].
  destruct (amount_checked_sum (map output_bitcoin_value _)) as [ov|] eqn:Eo;
    simpl in Hfee; [|discriminate].
  apply amount_checked_sum_spec in Es as [-> Hsmax]. apply amount_checked_sum_spec in Eo as [-> _].
  destruct (Z.ltb_spec (sumZ (map get_bitcoin_value (spent_utxos tx)))
              (sumZ (map output_bitcoin_value (tx_outputs (transaction tx))))) as [|Hge];
    simplify_eq.
  assert (0 ≤ sumZ (map coin_in (spent_utxos tx)) ≤ sumZ (map get_bitcoin_value (spent_utxos tx)))
    as [Hc0 Hcle].
  { clear -Hin. induction Hin as [|o sp Ho _ IH]; simpl; [lia|].
    apply content_value_nonneg in Ho as Hv. unfold coin_in at 1 3, get_bitcoin_value at 1.
    destruct (out_content o); simpl in *; lia. }
  pose proof (max_value_spec tx Hlen) as Hmax. pose proof AMOUNT_MAX_u64.
  rewrite as_u64_small in Hmax by (split; lia).
  pose proof (fill_outputs_spec _ _ Hc0 Hout) as Hfill. unfold filled_outputs. rewrite Hmax. simpl.
  split_and!; [lia|lia| |].
  - destruct (fill_outputs _ _); split; try done; [by intros _; apply Hfill|lia].
  - intros fs Hfs. rewrite Hfs in Hfill. apply Hfill.
Qed.

End Value.

#[export] Instance u64_amounts : BitcoinAmount := {| AMOUNT_MAX := U64_MAX; AMOUNT_MAX_u64 := ltac:(lia) |}.

(** Two inputs, a payment, a withdrawal and a market deposit. *)
Definition sample_tx : FilledTransaction :=
  {| transaction :=
       {| tx_inputs := [OpCoinbase (replicate 32 1) 0; OpRegular (replicate 32 2) 3];
          tx_outputs :=
            [ {| out_address := [4]; out_content := CBitcoin 700; out_memo := [] |};
              {| out_address := [5];
                 out_content := CWithdrawal {| w_value := 100; w_main_fee := 10; w_main_address := [6] |};
                 out_memo := [] |};
              {| out_address := [7]; out_content := CMarketFunds [8] 150 false; out_memo := [9] |} ];
          tx_memo := []; tx_data := None |};
     spent_utxos :=
       [ {| out_address := [1]; out_content := FBitcoin 600; out_memo := [] |};
         {| out_address := [1]; out_content := FBitcoin 400; out_memo := [] |} ];
     actor_address := None |}.

Lemma filled_outputs_conserve_witness : is_Some (filled_outputs sample_tx) ∧ bitcoin_fee sample_tx = Ok (Some 40).
Proof.
  assert (bitcoin_fee sample_tx = Ok (Some 40)) as Hfee by (vm_compute; reflexivity).
  split; [|exact Hfee].
  destruct (filled_outputs_conserve sample_tx 40) as (_ & _ & Hiff & _); [|exact Hfee|].
  - split; [reflexivity|]. split; repeat constructor; simpl; lia.
  - apply Hiff. vm_compute. discriminate.
Defined.

(** ** Disconnecting transactions *)

Section Reorg.
Context (txid_of : Transaction → Txid).

Definition tables_ok (s : UtxoTables) : Prop := index_ok s ∧ disjoint_ok s.

Definition unused (s : UtxoTables) (k : bytes) : Prop := utxos s !! k = None ∧ stxos s !! k = None.

(** Spending an input is undone by [unspend_input]. *)
Lemma spend_unspend txid s vin input s' :
  tables_ok s → outpoint_ok input → spend_input txid s (vin, input) = Ok s' →
  unspend_input s' input = Ok s ∧ tables_ok s'.
Proof.
  intros [Hidx Hdis] Hop. unfold spend_input, delete_utxo.
  destruct (utxos s !! from_outpoint input) as [o|] eqn:Eo; simpl; [|discriminate].
  intros [= <-]. split.
  - unfold unspend_input, put_stxo. simpl. rewrite lookup_insert_eq. f_equal.
    unfold insert_utxo. simpl. destruct s as [u idx st]. simpl in *. f_equal.
    + rewrite insert_delete_eq. by apply insert_id.
    + symmetry. apply union_difference_L. apply singleton_subseteq_l, Hidx. simpl. eauto.
    + rewrite delete_insert_id; [done|]. destruct (Hdis (from_outpoint input)); simpl in *; congruence.
  - split.
    + pose proof (delete_index_ok s input Hidx Hop) as Hd. unfold delete_utxo in Hd.
      rewrite Eo in Hd. exact Hd.
    + intros k. unfold put_stxo. simpl. destruct (decide (k = from_outpoint input)) as [->|Hne].
      * left. by rewrite lookup_delete_eq.
      * rewrite lookup_delete_ne, lookup_insert_ne by done. apply Hdis.
Qed.

(** Creating an output is undone by [remove_output]. *)
Lemma create_remove txid s vout o :
  tables_ok s → outpoint_ok (OpRegular txid (as_u32 vout)) →
  unused s (from_outpoint (OpRegular txid (as_u32 vout))) →
  remove_output txid (create_output txid s (vout, o)) vout = Ok s ∧
  tables_ok (create_output txid s (vout, o)).
Proof.
  intros [Hidx Hdis] Hop [Hu Hst]. unfold create_output, remove_output, delete_utxo.
  simpl. set (op := OpRegular txid (as_u32 vout)) in *. split.
  - rewrite lookup_insert_eq. f_equal. destruct s as [u idx st]. simpl in *. f_equal.
    + by rewrite delete_insert_id.
    + assert ((out_address o, op) ∉ idx) as Hni.
      { intros Hin. apply Hidx in Hin as (_ & o' & Ho' & _). simpl in Ho'. congruence. }
      set_solver.
  - split.
    + apply insert_index_ok; [done|done|]. congruence.
    + intros k. simpl. destruct (decide (k = from_outpoint op)) as [->|Hne].
      * by right.
      * rewrite lookup_insert_ne by done. apply Hdis.
Qed.

Lemma enumerate_fst {A} i (l : list A) : map fst (enumerate i l) = range i (i + Z.of_nat (length l)).
Proof.
  unfold range. revert i. induction l as [|a l IH]; intros i; simpl.
  - replace (i + Z.of_nat 0 - i) with 0 by lia. reflexivity.
  - rewrite IH. replace (Z.to_nat (i + Z.of_nat (S (length l)) - i))
      with (S (length l)) by lia.
    replace (Z.to_nat (i + 1 + Z.of_nat (length l) - (i + 1))) with (length l) by lia.
    simpl. f_equal; [lia|]. rewrite <- seq_shift, map_map. apply map_ext. intros n. lia.
Qed.

Lemma enumerate_snd_list {A} i (l : list A) : map snd (enumerate i l) = l.
Proof. revert i. induction l as [|x l IH]; intros i; simpl; [done|]. by rewrite IH. Qed.

(** The inputs of a transaction. *)
Lemma spend_inputs_undone txid s inputs s' :
  tables_ok s → Forall outpoint_ok inputs →
  try_fold (spend_input txid) s (enumerate 0 inputs) = Ok s' →
  try_fold unspend_input s' (rev inputs) = Ok s ∧ tables_ok s'.
Proof.
  intros Hs Hin Hf.
  destruct (try_fold_revert (fun l s => tables_ok s ∧ Forall (fun e => outpoint_ok e.2) l)
    (spend_input txid) (fun s e => unspend_input s e.2)) with (l := enumerate 0 inputs) (b := s) (b' := s')
    as [Hr [Hok _]].
  - intros [vin input] l b b' [Hb Hl] Hstep. apply Forall_cons in Hl as [Hop Hl]. simpl in *.
    destruct (spend_unspend txid b vin input b' Hb Hop Hstep). done.
  - split; [done|]. rewrite <- (Forall_map snd outpoint_ok). by rewrite enumerate_snd_list.
  - done.
  - split; [|done]. rewrite <- (enumerate_snd_list 0 inputs), <- map_rev, try_fold_map. exact Hr.
Qed.

(** The outputs of a transaction. *)
Lemma create_outputs_undone txid s (outs : list FilledOutput) :
  tables_ok s → length txid = 32%nat → Z.of_nat (length outs) ≤ U32_MAX + 1 →
  (∀ vout, is_u32 vout → unused s (from_outpoint (OpRegular txid vout))) →
  try_fold (remove_output txid) (foldl (create_output txid) s (enumerate 0 outs))
    (rev (range 0 (Z.of_nat (length outs)))) = Ok s ∧
  tables_ok (foldl (create_output txid) s (enumerate 0 outs)).
Proof.
  intros Hs Hl Hn Hfresh.
  destruct (try_fold_revert
    (fun l s => tables_ok s ∧ NoDup (map fst l) ∧
       Forall (fun e => is_u32 e.1 ∧ unused s (from_outpoint (OpRegular txid e.1))) l)
    (fun s e => Ok (create_output txid s e)) (fun s e => remove_output txid s e.1))
    with (l := enumerate 0 outs) (b := s) (b' := foldl (create_output txid) s (enumerate 0 outs))
    as [Hr [Hok _]].
  - intros [vout o] l b b' (Hb & Hnd & Hall) [= <-].
    apply Forall_cons in Hall as [[Hu Hun] Hall]. simpl in *. apply NoDup_cons in Hnd as [Hni Hnd].
    destruct (create_remove txid b vout o Hb) as [Hrem Htab];
      [by rewrite as_u32_small|by rewrite as_u32_small|].
    split; [done|]. split; [done|]. split; [done|]. apply Forall_forall. intros [v' o'] Hin.
    pose proof Hall as Hall'. rewrite Forall_forall in Hall'. destruct (Hall' _ Hin) as [Hu' [H1 H2]].
    simpl in *. split; [done|]. split; [|done]. unfold create_output, insert_utxo. cbn [utxos fst snd].
    rewrite lookup_insert_ne; [done|]. intros He. rewrite as_u32_small in He by done.
    apply from_outpoint_inj in He; [|done|done]. injection He as ->. apply Hni.
    by apply (list_elem_of_fmap_2 fst l (v', o')).
  - split; [done|]. rewrite enumerate_fst. split; [apply range_NoDup|].
    rewrite <- (Forall_map fst (fun v => is_u32 v ∧ unused s (from_outpoint (OpRegular txid v)))).
    rewrite enumerate_fst. apply Forall_forall. intros v Hv%elem_of_range.
    assert (is_u32 v) by (split; lia). split; [done|]. by apply Hfresh.
  - apply try_fold_total.
  - split; [|done]. replace (Z.of_nat (length outs)) with (0 + Z.of_nat (length outs)) by lia.
    rewrite <- enumerate_fst, <- map_rev, try_fold_map. exact Hr.
Qed.

Lemma filled_outputs_length tx fs :
  filled_outputs tx = Some fs → length fs = length (tx_outputs (transaction tx)).
Proof.
  unfold filled_outputs. destruct (output_bitcoin_max_value tx) as [max|]; simpl; [|done].
  generalize (tx_outputs (transaction tx)) as outs. intros outs. revert max fs.
  induction outs as [|o outs IH]; simpl; intros max fs Hf; [by simplify_eq|].
  destruct (fill_output max o) as [[max' f]|]; simpl in Hf; [|done].
  destruct (fill_outputs max' outs) as [fs'|] eqn:Ef; simplify_eq/=. f_equal. by eapply IH.
Qed.

(** Keys that are neither unspent nor spent stay so, unless they belong to an
    output of the transaction. *)
Lemma spend_inputs_unused txid s inputs s' k :
  try_fold (spend_input txid) s inputs = Ok s' → unused s k → unused s' k.
Proof.
  intros Hf Hk. refine (try_fold_inv (fun _ s => unused s k) _ s inputs s' Hk _ Hf).
  intros _ c [vin input] c' [Hu Hst] _. unfold spend_input, delete_utxo.
  destruct (utxos c !! from_outpoint input) as [o|] eqn:Eo; simpl; [|discriminate].
  intros [= <-]. assert (from_outpoint input ≠ k) by congruence.
  split; simpl; [rewrite lookup_delete_ne|rewrite lookup_insert_ne]; done.
Qed.

Lemma create_outputs_unused txid s (outs : list (Z * FilledOutput)) k :
  (∀ vout, k ≠ from_outpoint (OpRegular txid (as_u32 vout))) →
  unused s k → unused (foldl (create_output txid) s outs) k.
Proof.
  intros Hne. revert s. induction outs as [|e outs IH]; intros s [Hu Hst]; simpl; [done|].
  apply IH. split; simpl; [|done]. rewrite lookup_insert_ne; [done|]. by apply not_eq_sym.
Qed.

Definition tx_shape_ok (tx : FilledTransaction) : Prop :=
  Forall outpoint_ok (tx_inputs (transaction tx)) ∧ length (txid_of (transaction tx)) = 32%nat ∧
  Z.of_nat (length (tx_outputs (transaction tx))) ≤ U32_MAX + 1.

(** The outpoints of a transaction not yet in the tables are unused. *)
Definition fresh_txid (s : UtxoTables) (txid : Txid) : Prop :=
  ∀ vout, is_u32 vout → unused s (from_outpoint (OpRegular txid vout)).

Lemma apply_utxo_changes_undone s tx s' :
  tables_ok s → tx_shape_ok tx → fresh_txid s (txid_of (transaction tx)) →
  apply_utxo_changes txid_of s tx = Ok s' →
  revert_utxo_changes txid_of s' (transaction tx) = Ok s ∧ tables_ok s'.
Proof.
  intros Hs (Hin & Hl & Hn) Hfresh Happ. unfold apply_utxo_changes in Happ.
  destruct (filled_outputs tx) as [a0|] eqn:E0; simpl in Happ; [|by inv_ok]. inv_ok.
  destruct (spend_inputs_undone _ _ _ _ Hs Hin E) as [Hun Ha].
  rewrite <- (filled_outputs_length _ _ E0) in Hn.
  destruct (create_outputs_undone _ a a0 Ha Hl Hn) as [Hrem Hok].
  { intros vout Hv. eapply spend_inputs_unused; [exact E|by apply Hfresh]. }
  split; [|exact Hok]. unfold revert_utxo_changes. rewrite <- (filled_outputs_length _ _ E0), Hrem.
  exact Hun.
Qed.

Lemma apply_utxo_changes_fresh s tx s' txid :
  apply_utxo_changes txid_of s tx = Ok s' → length txid = 32%nat →
  length (txid_of (transaction tx)) = 32%nat → txid ≠ txid_of (transaction tx) →
  fresh_txid s txid → fresh_txid s' txid.
Proof.
  intros Happ Hl Hl' Hne Hfresh vout Hv. unfold apply_utxo_changes in Happ. inv_ok.
  apply create_outputs_unused.
  - intros vout' He. apply from_outpoint_inj in He; [by simplify_eq|done|].
    split; [done|apply as_u32_range].
  - eapply spend_inputs_unused; [exact E|by apply Hfresh].
Qed.

(** C14: disconnecting the transactions of a block.  When the transactions of a
    block were applied to consistent tables and their ids are new, removing
    them in reverse order succeeds and gives back exactly the unspent outputs,
    the address index and the spent outputs that were there before. *)
Theorem utxo_changes_roundtrip s txs s' :
  tables_ok s → Forall tx_shape_ok txs → NoDup (map (fun tx => txid_of (transaction tx)) txs) →
  Forall (fun tx => fresh_txid s (txid_of (transaction tx))) txs →
  try_fold (apply_utxo_changes txid_of) s txs = Ok s' →
  tables_ok s' ∧
  try_fold (revert_utxo_changes txid_of) s' (rev (map transaction txs)) = Ok s.
Proof.
  intros Hs Hshape Hnd Hfresh Happ.
  destruct (try_fold_revert
    (fun l s => tables_ok s ∧ Forall tx_shape_ok l ∧
       NoDup (map (fun tx => txid_of (transaction tx)) l) ∧
       Forall (fun tx => fresh_txid s (txid_of (transaction tx))) l)
    (apply_utxo_changes txid_of) (fun s tx => revert_utxo_changes txid_of s (transaction tx)))
    with (l := txs) (b := s) (b' := s') as [Hr [Hok _]].
  - intros tx l b b' (Hb & Hsh & Hn & Hfr) Hstep.
    apply Forall_cons in Hsh as [Htx Hsh]. apply Forall_cons in Hfr as [Hftx Hfr].
    simpl in Hn. apply NoDup_cons in Hn as [Hni Hn].
    destruct (apply_utxo_changes_undone b tx b' Hb Htx Hftx Hstep) as [Hun Hb'].
    split; [done|]. split; [done|]. split; [done|]. split; [done|].
    apply Forall_forall. intros tx' Hin. rewrite Forall_forall in Hfr, Hsh.
    eapply apply_utxo_changes_fresh; [exact Hstep|apply (Hsh tx' Hin)|apply Htx| |by apply Hfr].
    intros He. apply Hni. rewrite <- He.
    by apply (list_elem_of_fmap_2 (fun tx => txid_of (transaction tx))).
  - done.
  - done.
  - split; [done|]. rewrite <- map_rev, try_fold_map. exact Hr.
Qed.

(** ** Refilling a transaction from the spent outputs *)

Lemma spend_inputs_keep txid s l s' k spent :
  try_fold (spend_input txid) s l = Ok s' → utxos s !! k = None → stxos s !! k = Some spent →
  stxos s' !! k = Some spent.
Proof.
  intros Hf Hu Hst.
  refine (proj2 (try_fold_inv (fun _ s => utxos s !! k = None ∧ stxos s !! k = Some spent)
                   _ s l s' (conj Hu Hst) _ Hf)).
  intros _ c [vin input] c' [Hcu Hcs] _. unfold spend_input, delete_utxo.
  destruct (utxos c !! from_outpoint input) as [o|] eqn:Eo; simpl; [|discriminate].
  intros [= <-]. assert (from_outpoint input ≠ k) by congruence.
  split; simpl; [rewrite lookup_delete_ne|rewrite lookup_insert_ne]; done.
Qed.

Definition lookup_input (s : UtxoTables) (input : OutPoint) : result Error FilledOutput :=
  ok_or (utxos s !! from_outpoint input) (NoUtxo input).

Lemma try_map_lookup_mono s s1 inputs spent :
  (∀ k o, utxos s1 !! k = Some o → utxos s !! k = Some o) →
  try_map (lookup_input s1) inputs = Ok spent → try_map (lookup_input s) inputs = Ok spent.
Proof.
  intros Hmono. revert spent. induction inputs as [|i inputs IH]; simpl; intros spent Hm; [done|].
  unfold lookup_input in Hm at 1. unfold lookup_input at 1.
  destruct (utxos s1 !! from_outpoint i) as [o|] eqn:Eo; simpl in Hm; [|discriminate].
  rewrite (Hmono _ _ Eo). simpl. destruct (try_map (lookup_input s1) inputs) as [sp|]; [|discriminate].
  by rewrite (IH sp).
Qed.

Lemma spend_inputs_fill txid s i inputs s' :
  try_fold (spend_input txid) s (enumerate i inputs) = Ok s' →
  ∃ spent, try_map (lookup_input s) inputs = Ok spent ∧
    fill_from_stxos s' txid i inputs = Some (Ok spent).
Proof.
  revert s i. induction inputs as [|input inputs IH]; intros s i Hf; simpl in Hf |- *.
  { by exists []. }
  destruct (utxos s !! from_outpoint input) as [o|] eqn:Eo; simpl in Hf; [|discriminate].
  destruct (IH _ _ Hf) as (spent & Hmap & Hfill). exists (o :: spent).
  unfold lookup_input at 1. rewrite Eo. simpl.
  apply (try_map_lookup_mono s) in Hmap.
  2: { intros k o'. unfold delete_utxo. rewrite Eo. simpl. intros Hk.
       by apply lookup_delete_Some in Hk as [_ ?]. }
  rewrite Hmap. split; [done|].
  rewrite Hfill. simpl. erewrite spend_inputs_keep; [|exact Hf| |].
  2: { unfold delete_utxo. rewrite Eo. simpl. apply lookup_delete_eq. }
  2: { simpl. apply lookup_insert_eq. }
  simpl. by rewrite bool_decide_true.
Qed.

Lemma fill_from_stxos_ext s s' txid i inputs :
  stxos s = stxos s' → fill_from_stxos s txid i inputs = fill_from_stxos s' txid i inputs.
Proof. intros He. revert i. induction inputs as [|x l IH]; intros i; simpl; [done|]. by rewrite IH, He. Qed.

Lemma create_outputs_stxos txid s l : stxos (foldl (create_output txid) s l) = stxos s.
Proof. revert s. induction l as [|e l IH]; intros s; simpl; [done|]. by rewrite IH. Qed.

(** A transaction filled from the unspent outputs and then applied is
    filled with the same outputs from the spent ones, and the recorded inpoints
    pass the assertion there. *)
Theorem fill_from_stxos_roundtrip s t tx s' :
  fill_transaction s t = Ok tx → apply_utxo_changes txid_of s tx = Ok s' →
  fill_transaction_from_stxos txid_of s' t = Some (Ok tx).
Proof.
  intros Hfill Happ. unfold fill_transaction in Hfill. inv_ok. unfold apply_utxo_changes in Happ.
  simpl in Happ. inv_ok. apply spend_inputs_fill in E0 as (spent & Hmap & Hst).
  unfold fill_transaction_from_stxos.
  rewrite (fill_from_stxos_ext _ a0) by apply create_outputs_stxos. rewrite Hst. simpl.
  change (try_map (lookup_input s) (tx_inputs t) = Ok a) in E. congruence.
Qed.

End Reorg.

(** The sample transaction applied to tables that hold its two inputs. *)
Definition sample_txid : Transaction → Txid := fun _ => replicate 32 7.
Definition sample_tables : UtxoTables :=
  insert_utxo (insert_utxo {| utxos := ∅; utxos_by_address := ∅; stxos := ∅ |}
    (OpCoinbase (replicate 32 1) 0) {| out_address := [1]; out_content := FBitcoin 600; out_memo := [] |})
    (OpRegular (replicate 32 2) 3) {| out_address := [1]; out_content := FBitcoin 400; out_memo := [] |}.
Definition sample_applied : UtxoTables :=
  run (apply_utxo_changes sample_txid sample_tables sample_tx) sample_tables.

Lemma sample_applied_ok : apply_utxo_changes sample_txid sample_tables sample_tx = Ok sample_applied.
Proof.
  unfold sample_applied.
  assert (is_ok (apply_utxo_changes sample_txid sample_tables sample_tx) = true) as Hok
    by (vm_compute; reflexivity).
  by destruct (apply_utxo_changes sample_txid sample_tables sample_tx).
Qed.

Lemma sample_tables_ok : tables_ok sample_tables.
Proof.
  split; [|intros k; by right].
  apply insert_index_ok; [apply insert_index_ok|..]; simpl.
  - intros a op. simpl. split; [set_solver|]. intros (_ & o & Ho & _). by rewrite lookup_empty in Ho.
  - split; [done|split; lia].
  - intros o' Ho'. by rewrite lookup_empty in Ho'.
  - split; [done|split; lia].
  - intros o' [[_ <-]|[_ Ho']]%lookup_insert_Some; [done|]. by rewrite lookup_empty in Ho'.
Qed.

Lemma utxo_changes_roundtrip_witness :
  try_fold (apply_utxo_changes sample_txid) sample_tables [sample_tx] = Ok sample_applied ∧
  try_fold (revert_utxo_changes sample_txid) sample_applied [transaction sample_tx]
    = Ok sample_tables.
Proof.
  assert (try_fold (apply_utxo_changes sample_txid) sample_tables [sample_tx] = Ok sample_applied)
    as Happ by (simpl; rewrite sample_applied_ok; reflexivity).
  split; [exact Happ|].
  apply (utxo_changes_roundtrip sample_txid sample_tables [sample_tx] sample_applied).
  - exact sample_tables_ok.
  - repeat constructor; simpl; try lia.
  - apply NoDup_singleton.
  - apply Forall_singleton. intros vout Hv. split; [|apply lookup_empty]. unfold sample_tables.
    simpl. rewrite !lookup_insert_ne; [apply lookup_empty| |];
      intros He; apply from_outpoint_inj in He; try discriminate; split; try reflexivity;
      try exact Hv; split; lia.
  - exact Happ.
Defined.

Lemma fill_from_stxos_roundtrip_witness :
  fill_transaction_from_stxos sample_txid sample_applied (transaction sample_tx)
  = Some (Ok sample_tx).
Proof.
  apply (fill_from_stxos_roundtrip sample_txid sample_tables).
  - vm_compute. reflexivity.
  - exact sample_applied_ok.
Defined.
