(* ===== verification/UtxoValue.v ===== *)
(** * The value of the UTXO set

    The sum of the values of all unspent outputs, and what inserting and
    deleting an output and applying a transaction do to it.  The bounds hold
    whatever outpoints collide: an insertion that overwrites an output can only
    lose value. *)

From stdpp Require Import base numbers list strings gmap.
From S2P Require Import Prelude Float64 StateErrors DecisionTypes Markets Transactions TransactionsFacts.

(** ** The total of a UTXO table *)

Section Totals.
Context {AM : BitcoinAmount}.
Implicit Types (t : UtxoTables) (o : FilledOutput).

Definition utxo_total t : Z := map_fold (fun _ o acc => get_bitcoin_value o + acc) 0 (utxos t).

(** No output has a negative value. *)
Definition values_ok t : Prop := map_Forall (fun _ o => 0 ≤ get_bitcoin_value o) (utxos t).

Lemma total_delete (m : gmap bytes FilledOutput) k o :
  m !! k = Some o →
  map_fold (fun _ o acc => get_bitcoin_value o + acc) 0 m
  = get_bitcoin_value o + map_fold (fun _ o acc => get_bitcoin_value o + acc) 0 (delete k m).
Proof.
  intros Hk. rewrite (map_fold_delete_L _ _ k o m); [done| |done]. intros; lia.
Qed.

Lemma delete_value t op o :
  utxos t !! from_outpoint op = Some o →
  utxo_total (delete_utxo t op).2 = utxo_total t - get_bitcoin_value o.
Proof.
  intros Hk. unfold utxo_total, delete_utxo. rewrite Hk. simpl. rewrite (total_delete _ _ _ Hk). lia.
Qed.

Lemma delete_values_ok t op : values_ok t → values_ok (delete_utxo t op).2.
Proof.
  intros Hok. unfold delete_utxo. destruct (utxos t !! from_outpoint op); [|done]. simpl.
  by apply map_Forall_delete.
Qed.

Lemma delete_value_le t op : values_ok t → utxo_total (delete_utxo t op).2 ≤ utxo_total t.
Proof.
  intros Hok. destruct (utxos t !! from_outpoint op) as [o|] eqn:Hk.
  - rewrite (delete_value _ _ _ Hk). specialize (Hok _ _ Hk). simpl in Hok. lia.
  - unfold delete_utxo. by rewrite Hk.
Qed.

Lemma insert_value_le t op o :
  values_ok t → utxo_total (insert_utxo t op o) ≤ utxo_total t + get_bitcoin_value o.
Proof.
  intros Hok. unfold utxo_total, insert_utxo. simpl.
  destruct (utxos t !! from_outpoint op) as [o'|] eqn:Hk.
  - rewrite (total_delete (<[_:=o]> _) (from_outpoint op) o) by apply lookup_insert_eq.
    rewrite (total_delete _ _ _ Hk). rewrite delete_insert_eq.
    specialize (Hok _ _ Hk). simpl in Hok. lia.
  - rewrite map_fold_insert_L; [lia| |done]. intros; lia.
Qed.

Lemma insert_values_ok t op o : values_ok t → 0 ≤ get_bitcoin_value o → values_ok (insert_utxo t op o).
Proof. intros Hok Ho. by apply map_Forall_insert_2. Qed.

Lemma put_stxo_total t k x : utxo_total (put_stxo t k x) = utxo_total t.
Proof. done. Qed.

End Totals.

(** ** One transaction *)

Section Transfers.
Context {AM : BitcoinAmount} (txid_of : Transaction → Txid).
Implicit Types (t : UtxoTables) (tx : FilledTransaction) (base : gmap bytes FilledOutput).

Definition input_keys (l : list OutPoint) : list bytes := map from_outpoint l.

(** The outputs at [keys] are those of [base], or already spent. *)
Definition untouched base (keys : list bytes) t : Prop :=
  ∀ k, k ∈ keys → utxos t !! k = None ∨ utxos t !! k = base !! k.

(** A filled transaction holds the outputs its inputs refer to. *)
Definition filled_from base tx : Prop :=
  Forall2 (fun i o => base !! from_outpoint i = Some o) (tx_inputs (transaction tx)) (spent_utxos tx).

Lemma spend_input_total base keys id t i vin o t' :
  untouched base keys t → values_ok t → from_outpoint i ∈ keys → base !! from_outpoint i = Some o →
  spend_input id t (vin, i) = Ok t' →
  untouched base keys t' ∧ values_ok t' ∧ utxo_total t' = utxo_total t - get_bitcoin_value o.
Proof.
  intros Hun Hok Hi Ho Hs. unfold spend_input in Hs.
  destruct (utxos t !! from_outpoint i) as [o'|] eqn:Hk; [|discriminate]. injection Hs as <-.
  destruct (Hun _ Hi) as [Hn|He]; [congruence|]. assert (o' = o) as -> by congruence. split_and!.
  - intros k Hin. simpl. unfold delete_utxo. rewrite Hk. simpl.
    destruct (decide (k = from_outpoint i)) as [->|Hne]; [left; simpl; apply lookup_delete_eq|].
    rewrite lookup_delete_ne by done. by apply Hun.
  - by apply delete_values_ok.
  - rewrite put_stxo_total. by apply delete_value.
Qed.

Lemma spend_inputs_total base keys id inputs spent vin t t' :
  untouched base keys t → values_ok t → input_keys inputs ⊆ keys →
  Forall2 (fun i o => base !! from_outpoint i = Some o) inputs spent →
  try_fold (spend_input id) t (enumerate vin inputs) = Ok t' →
  untouched base keys t' ∧ values_ok t' ∧
  utxo_total t' = utxo_total t - sumZ (map get_bitcoin_value spent).
Proof.
  intros Hun Hok Hsub Hf. revert vin t Hun Hok. induction Hf as [|i o inputs spent Hi Hf IH]; intros vin t Hun Hok Hs.
  - simplify_eq/=. split_and!; [done..|lia].
  - cbn [enumerate try_fold] in Hs. destruct (spend_input id t (vin, i)) as [t1|] eqn:E1; [|discriminate].
    destruct (spend_input_total base keys id t i vin o t1 Hun Hok) as (Hun1 & Hok1 & Ht1);
      [set_solver|done|done|].
    destruct (IH ltac:(set_solver) _ _ Hun1 Hok1 Hs) as (? & ? & Ht). split_and!; [done..|].
    simpl. lia.
Qed.

(** The keys of the outputs a transaction creates. *)
Definition output_keys (id : Txid) (n : nat) : list bytes :=
  map (fun v => from_outpoint (OpRegular id (as_u32 v))) (range 0 (Z.of_nat n)).

Lemma insert_untouched base keys t op o :
  from_outpoint op ∉ keys → untouched base keys t → untouched base keys (insert_utxo t op o).
Proof.
  intros Hn Hun k Hk. simpl. rewrite lookup_insert_ne by congruence. by apply Hun.
Qed.

Lemma create_outputs_total base keys id (l : list (Z * FilledOutput)) t :
  untouched base keys t → values_ok t →
  Forall (fun e => from_outpoint (OpRegular id (as_u32 e.1)) ∉ keys) l →
  Forall (fun o => 0 ≤ get_bitcoin_value o) (map snd l) →
  let t' := foldl (create_output id) t l in
  untouched base keys t' ∧ values_ok t' ∧
  utxo_total t' ≤ utxo_total t + sumZ (map get_bitcoin_value (map snd l)).
Proof.
  revert t. induction l as [|e l IH]; intros t Hun Hok Hn Hv; simpl.
  - split_and!; [done..|lia].
  - inversion Hn as [|? ? Hne Hn']; subst. inversion Hv as [|? ? Hve Hv']; subst.
    destruct (IH (create_output id t e)) as (? & ? & Hle); try done.
    + by apply insert_untouched.
    + by apply insert_values_ok.
    + split_and!; [done..|]. etrans; [exact Hle|].
      pose proof (insert_value_le t (OpRegular id (as_u32 e.1)) e.2 Hok) as Hi.
      change (insert_utxo _ _ _) with (create_output id t e) in Hi. lia.
Qed.

Lemma filled_outputs_values tx fs :
  length (tx_inputs (transaction tx)) = length (spent_utxos tx) →
  Forall (fun o => content_amounts_ok (out_content o)) (tx_outputs (transaction tx)) →
  filled_outputs tx = Some fs →
  map get_bitcoin_value fs = map output_bitcoin_value (tx_outputs (transaction tx)) ∧
  length fs = length (tx_outputs (transaction tx)).
Proof.
  intros Hlen Hout Hf. pose proof (filled_outputs_length tx fs Hf) as Hl. split; [|done].
  unfold filled_outputs in Hf. rewrite (max_value_spec tx Hlen) in Hf. simpl in Hf.
  pose proof (fill_outputs_spec (as_u64 (sumZ (map coin_in (spent_utxos tx)))) _
    ltac:(apply wrap_unsigned_range; lia) Hout) as Hs. rewrite Hf in Hs. apply Hs.
Qed.

Definition value_in tx : Z := sumZ (map get_bitcoin_value (spent_utxos tx)).
Definition value_out tx : Z := sumZ (map output_bitcoin_value (tx_outputs (transaction tx))).

Definition outputs_ok (t : Transaction) : Prop :=
  Forall (fun o => content_amounts_ok (out_content o)) (tx_outputs t).

Lemma apply_utxo_total base keys t tx t' :
  untouched base keys t → values_ok t → input_keys (tx_inputs (transaction tx)) ⊆ keys →
  filled_from base tx → outputs_ok (transaction tx) →
  Forall (fun k => k ∉ keys)
    (output_keys (txid_of (transaction tx)) (length (tx_outputs (transaction tx)))) →
  apply_utxo_changes txid_of t tx = Ok t' →
  untouched base keys t' ∧ values_ok t' ∧ utxo_total t' ≤ utxo_total t - value_in tx + value_out tx.
Proof.
  intros Hun Hok Hsub Hfill Hout Hfresh Ha. unfold apply_utxo_changes in Ha.
  destruct (try_fold _ _ _) as [t1|] eqn:E1; simpl in Ha; [|discriminate].
  destruct (filled_outputs tx) as [fs|] eqn:Ef; simpl in Ha; [|discriminate]. injection Ha as <-.
  destruct (spend_inputs_total base keys _ _ _ _ _ _ Hun Hok Hsub Hfill E1) as (Hun1 & Hok1 & Ht1).
  destruct (filled_outputs_values tx fs (Forall2_length _ _ _ Hfill) Hout Ef) as [Hv Hl].
  destruct (create_outputs_total base keys (txid_of (transaction tx)) (enumerate 0 fs) t1)
    as (? & ? & Ht2); [done|done| | |].
  - rewrite <- Hl in Hfresh. unfold output_keys in Hfresh.
    rewrite <- (Z.add_0_l (Z.of_nat (length fs))), <- enumerate_fst, map_map, Forall_map in Hfresh. done.
  - rewrite enumerate_snd_list. apply (Forall_map get_bitcoin_value (fun v => 0 ≤ v)). rewrite Hv.
    apply Forall_map. eapply Forall_impl; [exact Hout|]. intros o. apply content_value_nonneg.
  - split_and!; [done..|]. rewrite enumerate_snd_list, Hv in Ht2. unfold value_in, value_out. lia.
Qed.

End Transfers.
