(* ===== verification/TwoWayPeg.v ===== *)
(** * The two-way peg

    Deposits and withdrawal bundles: the stack of statuses
    (src/lib/state/rollback.rs), the bundle and the prediction of its weight
    (src/lib/types/mod.rs), and the effects of mainchain events when a block is
    connected and disconnected (src/lib/state/two_way_peg_data.rs). *)

From stdpp Require Import base numbers list strings gmap.
From S2P Require Import Prelude Float64 StateErrors Transactions.

(** ** Statuses with the height that set them *)

Record HeightStamped (T : Type) : Type := { hs_value : T; hs_height : Z }.
Arguments hs_value {T}.
Arguments hs_height {T}.
Arguments Build_HeightStamped {T}.

(** [NonEmpty]: a first element and the later ones. *)
Record RollBack (T : Type) : Type := { rb_head : HeightStamped T; rb_tail : list (HeightStamped T) }.
Arguments rb_head {T}.
Arguments rb_tail {T}.
Arguments Build_RollBack {T}.

Section RollBack.
Context {T : Type}.
Implicit Types (r : RollBack T).

Definition rb_new (value : T) (height : Z) : RollBack T :=
  {| rb_head := {| hs_value := value; hs_height := height |}; rb_tail := [] |}.

Definition rb_latest r : HeightStamped T := default (rb_head r) (last (rb_tail r)).

Definition rb_earliest r : HeightStamped T := rb_head r.

Definition rb_iter r : list (HeightStamped T) := rb_head r :: rb_tail r.

Definition rb_pop r : option (RollBack T) * HeightStamped T :=
  match last (rb_tail r) with
  | Some value => (Some {| rb_head := rb_head r; rb_tail := removelast (rb_tail r) |}, value)
  | None => (None, rb_head r)
  end.

(** [Err] returns the value that is older than the latest one. *)
Definition rb_push r (value : T) (height : Z) : result T (RollBack T) :=
  if height <? hs_height (rb_latest r) then Err value else
  Ok {| rb_head := rb_head r;
        rb_tail := rb_tail r ++ [{| hs_value := value; hs_height := height |}] |}.

End RollBack.

(** ** Withdrawal bundles *)

Inductive WithdrawalBundleStatus : Type :=
| Confirmed | Dropped | Failed | Pending | Submitted | SubmittedUnexpected.
#[export] Instance WithdrawalBundleStatus_eq_dec : EqDecision WithdrawalBundleStatus.
Proof. solve_decision. Defined.

Inductive WithdrawalBundleEventStatus : Type := EvSubmitted | EvConfirmed | EvFailed.

Record WithdrawalBundleEvent : Type := { we_m6id : bytes; we_status : WithdrawalBundleEventStatus }.

Record TxOut : Type := { to_value : Z; to_script_pubkey : bytes }.

(** What the code takes from the [bitcoin] crate: the script of an address, the
    order of addresses, sizes, and the weight and id of a transaction without
    inputs; and from the hash module the commitment to a list of outpoints. *)
Class MainchainTx : Type := {
  script_pubkey : bytes → bytes;
  main_address_cmp : bytes → bytes → comparison;
  op_return : bytes → bytes;
  varint_size : Z → Z;
  AMOUNT_SIZE : Z;
  LOCKTIME_SIZE : Z;
  WITNESS_SCALE_FACTOR : Z;
  MAX_STANDARD_WEIGHT : Z;
  tx_weight : list TxOut → Z;
  compute_txid : list TxOut → bytes;
  inputs_commitment : list OutPoint → bytes
}.

(** A bundle is the outputs it spends and a mainchain transaction, whose
    version, lock time and empty inputs are fixed. *)
Record WithdrawalBundle : Type := {
  spend_utxos : gmap OutPoint FilledOutput;
  wb_tx_output : list TxOut
}.

(** The derived order of outpoints. *)
Definition outpoint_rank (o : OutPoint) : Z :=
  match o with
  | OpRegular _ _ => 0 | OpCoinbase _ _ => 1 | OpDeposit _ _ => 2
  | OpMarketFunds _ _ _ => 3 | OpPayout _ _ => 4
  end.
Definition OutPoint_cmp (a b : OutPoint) : comparison :=
  match a, b with
  | OpRegular h n, OpRegular h' n' | OpCoinbase h n, OpCoinbase h' n'
  | OpDeposit h n, OpDeposit h' n' | OpPayout h n, OpPayout h' n' =>
      then_cmp (bytes_cmp h h') (n ?= n')
  | OpMarketFunds m n f, OpMarketFunds m' n' f' =>
      then_cmp (bytes_cmp m m') (then_cmp (n ?= n') (Z.b2z f ?= Z.b2z f'))
  | _, _ => outpoint_rank a ?= outpoint_rank b
  end.

Definition checked_add_u32 (a b : Z) : option Z :=
  if a + b <=? U32_MAX then Some (a + b) else None.

Section Bundle.
Context {AM : BitcoinAmount} {MT : MainchainTx}.

(** The entries of a [BTreeMap] in order. *)
Definition bundle_entries (m : gmap OutPoint FilledOutput) : list (OutPoint * FilledOutput) :=
  db_iter OutPoint_cmp m.

Definition txout_size (spk_size : Z) : option Z :=
  size ← checked_add_u32 AMOUNT_SIZE (varint_size spk_size);
  checked_add_u32 size spk_size.

Definition txin_base_size (script_sig_size : Z) : option Z :=
  res ← checked_add_u32 (36 + varint_size script_sig_size) script_sig_size;
  checked_add_u32 res 4.

Definition tx_base_size (n_inputs sum_txin_base_sizes n_outputs sum_txout_sizes : Z) : option Z :=
  vin ← checked_add_u32 (varint_size n_inputs) sum_txin_base_sizes;
  res ← checked_add_u32 4 vin;
  vout ← checked_add_u32 (varint_size n_outputs) sum_txout_sizes;
  res ← checked_add_u32 res vout;
  checked_add_u32 res LOCKTIME_SIZE.

(** The two fixed outputs carry scripts of 34 and 10 bytes. *)
Definition predict_weight (n_outputs sum_txout_sizes : Z) : option Z :=
  sum_txin_base_sizes ← txin_base_size 0;
  n_outputs ← checked_add_u32 n_outputs 2;
  inputs_commitment_size ← txout_size 34;
  fee_commitment_size ← txout_size 10;
  sum_txout_sizes ← checked_add_u32 (inputs_commitment_size + fee_commitment_size) sum_txout_sizes;
  base ← tx_base_size 1 sum_txin_base_sizes n_outputs sum_txout_sizes;
  weight ← checked_mul_u64 base WITNESS_SCALE_FACTOR;
  if weight <=? MAX_STANDARD_WEIGHT then Some weight else None.

(** The big-endian bytes of a [u64]. *)
Definition be_bytes_u64 (z : Z) : bytes :=
  map (fun i => z / 2 ^ (8 * (7 - i)) mod 256) (range 0 8).

Definition WithdrawalBundle_new (block_height fee : Z) (spend : gmap OutPoint FilledOutput)
  (bundle_outputs : list TxOut) : result Error WithdrawalBundle :=
  let inputs := map fst (bundle_entries spend) ++ [OpRegular (replicate 32 0) block_height] in
  let inputs_commitment_txout :=
    {| to_value := 0; to_script_pubkey := op_return (inputs_commitment inputs) |} in
  let mainchain_fee_txout :=
    {| to_value := 0; to_script_pubkey := op_return (be_bytes_u64 fee) |} in
  let outputs := mainchain_fee_txout :: inputs_commitment_txout :: bundle_outputs in
  if MAX_STANDARD_WEIGHT <? tx_weight outputs
  then Err (BundleTooHeavy (tx_weight outputs) MAX_STANDARD_WEIGHT)
  else Ok {| spend_utxos := spend; wb_tx_output := outputs |}.

Definition compute_m6id (b : WithdrawalBundle) : bytes := compute_txid (wb_tx_output b).

Record AggregatedWithdrawal : Type := {
  ag_spend_utxos : gmap OutPoint FilledOutput;
  ag_main_address : bytes;
  ag_value : Z;
  ag_main_fee : Z
}.

Definition AggregatedWithdrawal_cmp (a b : AggregatedWithdrawal) : comparison :=
  then_cmp (ag_main_fee a ?= ag_main_fee b)
    (then_cmp (ag_value a ?= ag_value b) (main_address_cmp (ag_main_address a) (ag_main_address b))).

(** One unspent output in the loop that aggregates withdrawals by address. *)
Definition aggregate_step (m : gmap bytes AggregatedWithdrawal) (e : bytes * FilledOutput)
  : result Error (gmap bytes AggregatedWithdrawal) :=
  match out_content e.2 with
  | FBitcoinWithdrawal w =>
      let agg := default {| ag_spend_utxos := ∅; ag_main_address := w_main_address w;
                            ag_value := 0; ag_main_fee := 0 |} (m !! w_main_address w) in
      value ← ok_or (amount_checked_add (ag_value agg) (w_value w)) AmountOverflowed;
      main_fee ← ok_or (amount_checked_add (ag_main_fee agg) (w_main_fee w)) AmountOverflowed;
      outpoint ← ok_or (to_outpoint e.1) (Panicked "OutPointKey::to_outpoint");
      Ok (<[w_main_address w :=
              {| ag_spend_utxos := <[outpoint := e.2]> (ag_spend_utxos agg);
                 ag_main_address := ag_main_address agg;
                 ag_value := value; ag_main_fee := main_fee |}]> m)
  | _ => Ok m
  end.

Record BundleDraft : Type := {
  bd_fee : Z;
  bd_spend_utxos : gmap OutPoint FilledOutput;
  bd_outputs : list TxOut;
  bd_txouts_size : Z
}.

(** The loop over the sorted withdrawals: [continue] skips a script whose size
    is no [u32], [break] stops when the bundle is full. *)
Fixpoint fill_bundle (d : BundleDraft) (l : list AggregatedWithdrawal) : result Error BundleDraft :=
  match l with
  | [] => Ok d
  | a :: l =>
      let spk := script_pubkey (ag_main_address a) in
      let n_outputs := Z.of_nat (length (bd_outputs d)) + 1 in
      let spk_size := Z.of_nat (length spk) in
      if U32_MAX <? n_outputs then Ok d else
      if U32_MAX <? spk_size then fill_bundle d l else
      match txout_size spk_size with
      | None => fill_bundle d l
      | Some size =>
          match checked_add_u32 (bd_txouts_size d) size with
          | None => Ok d
          | Some total =>
              match predict_weight n_outputs total with
              | None => Ok {| bd_fee := bd_fee d; bd_spend_utxos := bd_spend_utxos d;
                              bd_outputs := bd_outputs d; bd_txouts_size := total |}
              | Some _ =>
                  fee ← ok_or (amount_checked_add (bd_fee d) (ag_main_fee a))
                          (Panicked "Amount addition");
                  fill_bundle
                    {| bd_fee := fee;
                       bd_spend_utxos := ag_spend_utxos a ∪ bd_spend_utxos d;
                       bd_outputs := bd_outputs d ++
                         [{| to_value := ag_value a; to_script_pubkey := spk |}];
                       bd_txouts_size := total |} l
              end
          end
      end
  end.

Definition collect_withdrawal_bundle (u : UtxoTables) (block_height : Z)
  : result Error (option WithdrawalBundle) :=
  m ← try_fold aggregate_step ∅ (db_iter bytes_cmp (utxos u));
  if bool_decide (m = ∅) then Ok None else
  let sorted := sort_by (fun a b => AggregatedWithdrawal_cmp b a) (map snd (map_to_list m)) in
  d ← fill_bundle {| bd_fee := 0; bd_spend_utxos := ∅; bd_outputs := []; bd_txouts_size := 0 |} sorted;
  bundle ← WithdrawalBundle_new block_height (bd_fee d) (bd_spend_utxos d) (bd_outputs d);
  if MAX_STANDARD_WEIGHT <? tx_weight (wb_tx_output bundle)
  then Err (BundleTooHeavy (tx_weight (wb_tx_output bundle)) MAX_STANDARD_WEIGHT)
  else Ok (Some bundle).

End Bundle.

(** ** The tables of the peg *)

Inductive WithdrawalBundleInfo : Type :=
| Known (bundle : WithdrawalBundle)
| Unknown
| UnknownConfirmed (spend : gmap OutPoint FilledOutput).

Record BlockIndexEvents : Type := {
  ev_deposits : list (OutPoint * FilledOutput);
  ev_bundle_spends : list (OutPoint * bytes)
}.
Definition index_events_is_empty (e : BlockIndexEvents) : bool :=
  match ev_deposits e, ev_bundle_spends e with [], [] => true | _, _ => false end.

Record Deposit : Type := { dep_txid : bytes; dep_vout : Z; dep_output : FilledOutput }.

Inductive BlockEvent : Type :=
| EvDeposit (d : Deposit)
| EvWithdrawalBundle (e : WithdrawalBundleEvent).

(** [TwoWayPegData]: the mainchain blocks in order, each with its events. *)
Abbreviation TwoWayPegData := (list (bytes * list BlockEvent)).

Record PegState : Type := {
  pg_height : option Z;
  pg_tables : UtxoTables;
  pending_withdrawal_bundle : option bytes;
  latest_failed_withdrawal_bundle : option (RollBack bytes);
  withdrawal_bundles : gmap bytes (WithdrawalBundleInfo * RollBack WithdrawalBundleStatus);
  block_index_events : gmap Z BlockIndexEvents;
  deposit_blocks : gmap Z (bytes * Z);
  withdrawal_bundle_event_blocks : gmap Z (bytes * Z)
}.

Definition set_tables (s : PegState) u : PegState :=
  {| pg_height := pg_height s; pg_tables := u;
     pending_withdrawal_bundle := pending_withdrawal_bundle s;
     latest_failed_withdrawal_bundle := latest_failed_withdrawal_bundle s;
     withdrawal_bundles := withdrawal_bundles s; block_index_events := block_index_events s;
     deposit_blocks := deposit_blocks s;
     withdrawal_bundle_event_blocks := withdrawal_bundle_event_blocks s |}.
Definition set_pending (s : PegState) p : PegState :=
  {| pg_height := pg_height s; pg_tables := pg_tables s;
     pending_withdrawal_bundle := p;
     latest_failed_withdrawal_bundle := latest_failed_withdrawal_bundle s;
     withdrawal_bundles := withdrawal_bundles s; block_index_events := block_index_events s;
     deposit_blocks := deposit_blocks s;
     withdrawal_bundle_event_blocks := withdrawal_bundle_event_blocks s |}.
Definition set_latest_failed (s : PegState) f : PegState :=
  {| pg_height := pg_height s; pg_tables := pg_tables s;
     pending_withdrawal_bundle := pending_withdrawal_bundle s;
     latest_failed_withdrawal_bundle := f;
     withdrawal_bundles := withdrawal_bundles s; block_index_events := block_index_events s;
     deposit_blocks := deposit_blocks s;
     withdrawal_bundle_event_blocks := withdrawal_bundle_event_blocks s |}.
Definition set_bundles (s : PegState) m : PegState :=
  {| pg_height := pg_height s; pg_tables := pg_tables s;
     pending_withdrawal_bundle := pending_withdrawal_bundle s;
     latest_failed_withdrawal_bundle := latest_failed_withdrawal_bundle s;
     withdrawal_bundles := m; block_index_events := block_index_events s;
     deposit_blocks := deposit_blocks s;
     withdrawal_bundle_event_blocks := withdrawal_bundle_event_blocks s |}.
Definition set_index_events (s : PegState) m : PegState :=
  {| pg_height := pg_height s; pg_tables := pg_tables s;
     pending_withdrawal_bundle := pending_withdrawal_bundle s;
     latest_failed_withdrawal_bundle := latest_failed_withdrawal_bundle s;
     withdrawal_bundles := withdrawal_bundles s; block_index_events := m;
     deposit_blocks := deposit_blocks s;
     withdrawal_bundle_event_blocks := withdrawal_bundle_event_blocks s |}.
Definition set_deposit_blocks (s : PegState) m : PegState :=
  {| pg_height := pg_height s; pg_tables := pg_tables s;
     pending_withdrawal_bundle := pending_withdrawal_bundle s;
     latest_failed_withdrawal_bundle := latest_failed_withdrawal_bundle s;
     withdrawal_bundles := withdrawal_bundles s; block_index_events := block_index_events s;
     deposit_blocks := m; withdrawal_bundle_event_blocks := withdrawal_bundle_event_blocks s |}.
Definition set_event_blocks (s : PegState) m : PegState :=
  {| pg_height := pg_height s; pg_tables := pg_tables s;
     pending_withdrawal_bundle := pending_withdrawal_bundle s;
     latest_failed_withdrawal_bundle := latest_failed_withdrawal_bundle s;
     withdrawal_bundles := withdrawal_bundles s; block_index_events := block_index_events s;
     deposit_blocks := deposit_blocks s; withdrawal_bundle_event_blocks := m |}.

Definition WITHDRAWAL_BUNDLE_FAILURE_GAP : Z := 4.

(** [heed]'s [last]: the entry with the largest encoded key. *)
Definition db_last {V} (m : gmap Z V) : option (Z * V) := last (db_iter u32_key_cmp m).

(** ** Events *)

(** Move one output of a bundle from the unspent to the spent ones. *)
Definition spend_for_bundle (err : OutPoint → Error) (m6id : bytes) (u : UtxoTables)
  (e : OutPoint * FilledOutput) : result Error UtxoTables :=
  match delete_utxo u e.1 with
  | (true, u) =>
      Ok (put_stxo u (from_outpoint e.1) {| so_output := e.2; so_inpoint := InWithdrawal m6id |})
  | (false, _) => Err (err e.1)
  end.

Definition delete_stxo (u : UtxoTables) (key : bytes) : UtxoTables :=
  {| utxos := utxos u; utxos_by_address := utxos_by_address u; stxos := delete key (stxos u) |}.

(** Give one output of a bundle back; a failed bundle does not check that it
    was spent. *)
Definition reinstate (u : UtxoTables) (e : OutPoint * FilledOutput) : UtxoTables :=
  insert_utxo (delete_stxo u (from_outpoint e.1)) e.1 e.2.
Definition unspend_for_bundle (u : UtxoTables) (e : OutPoint * FilledOutput)
  : result Error UtxoTables :=
  match stxos u !! from_outpoint e.1 with
  | Some _ => Ok (reinstate u e)
  | None => Err (NoStxo e.1)
  end.

Definition push_status (r : RollBack WithdrawalBundleStatus) (v : WithdrawalBundleStatus) (height : Z)
  : result Error (RollBack WithdrawalBundleStatus) :=
  map_err (fun _ => DatabaseError "failed to push bundle status") (rb_push r v height).

(** Which resubmissions of a stored bundle are accepted. *)
Definition check_resubmission (info : WithdrawalBundleInfo) (latest : WithdrawalBundleStatus)
  : result Error unit :=
  match latest, info with
  | Confirmed, _ => Err (DatabaseError "confirmed bundle resubmitted")
  | (Submitted | SubmittedUnexpected), _ => Err (DatabaseError "submitted bundle resubmitted")
  | Dropped, Known _ => Ok tt
  | Dropped, _ => Err (DatabaseError "unknown bundle marked as dropped")
  | Pending, Known _ => Err (DatabaseError "dropped bundle marked as pending")
  | Pending, _ => Err (DatabaseError "unknown bundle marked as pending")
  | Failed, (Known _ | Unknown) => Ok tt
  | Failed, UnknownConfirmed _ => Err (DatabaseError "unknown confirmed bundle marked as failed")
  end.

Definition is_submitted (v : WithdrawalBundleStatus) : bool :=
  match v with Submitted | SubmittedUnexpected => true | _ => false end.

Definition connect_withdrawal_bundle_submitted (block_height : Z) (s : PegState)
  (ev : BlockIndexEvents) (m6id : bytes) : result Error (PegState * BlockIndexEvents) :=
  if bool_decide (pending_withdrawal_bundle s = Some m6id) then
    '(info, status) ← ok_or (withdrawal_bundles s !! m6id) (DatabaseError "pending bundle unknown");
    bundle ← match info with
             | Known b => Ok b
             | _ => Err (DatabaseError "pending bundle is not known")
             end;
    u ← try_fold (spend_for_bundle NoUtxo m6id) (pg_tables s) (bundle_entries (spend_utxos bundle));
    let ev := {| ev_deposits := ev_deposits ev;
                 ev_bundle_spends := ev_bundle_spends ev ++
                   map (fun e => (e.1, m6id)) (bundle_entries (spend_utxos bundle)) |} in
    _ ← bail_if (negb (bool_decide (hs_value (rb_latest status) = Pending)))
          (DatabaseError "expected Pending status before Submitted");
    status ← push_status status Submitted block_height;
    let s := set_bundles (set_tables s u)
               (<[m6id := (Known bundle, status)]> (withdrawal_bundles s)) in
    Ok (set_pending s None, ev)
  else
    match withdrawal_bundles s !! m6id with
    | Some (info, status) =>
        _ ← check_resubmission info (hs_value (rb_latest status));
        status ← push_status status SubmittedUnexpected block_height;
        Ok (set_bundles s (<[m6id := (info, status)]> (withdrawal_bundles s)), ev)
    | None =>
        Ok (set_bundles s (<[m6id := (Unknown, rb_new Submitted block_height)]> (withdrawal_bundles s)), ev)
    end.

(** Marking every unspent output as spent by an unknown bundle. *)
Definition spend_all (m6id : bytes) (u : UtxoTables) : result Error (UtxoTables * gmap OutPoint FilledOutput) :=
  '(u, spent) ← try_fold (fun st e =>
      outpoint ← ok_or (to_outpoint e.1) (Panicked "OutPointKey::to_outpoint");
      Ok (put_stxo st.1 e.1 {| so_output := e.2; so_inpoint := InWithdrawal m6id |},
          <[outpoint := e.2]> st.2)) (u, (∅ : gmap OutPoint FilledOutput)) (db_iter bytes_cmp (utxos u));
  Ok (clear_utxos u, spent).

Definition connect_withdrawal_bundle_confirmed (block_height : Z) (event_block_hash : bytes)
  (s : PegState) (m6id : bytes) : result Error PegState :=
  '(info, status) ← ok_or (withdrawal_bundles s !! m6id) (UnknownWithdrawalBundle m6id);
  let latest := hs_value (rb_latest status) in
  if bool_decide (latest = Confirmed) then Ok s else
  _ ← bail_if (negb (is_submitted latest)) (DatabaseError "expected Submitted status before Confirmed");
  '(u, info) ←
    match info with
    | UnknownConfirmed _ => Err (UnknownWithdrawalBundleReconfirmed event_block_hash m6id)
    | Unknown =>
        if block_height =? 0 then
          '(u, spent) ← spend_all m6id (pg_tables s); Ok (u, UnknownConfirmed spent)
        else Err (UnknownWithdrawalBundleConfirmed event_block_hash m6id)
    | Known b =>
        if bool_decide (latest = SubmittedUnexpected) then
          u ← try_fold (spend_for_bundle (UnexpectedWithdrawalBundleInsolvency event_block_hash m6id) m6id)
                (pg_tables s) (bundle_entries (spend_utxos b));
          Ok (u, Known b)
        else Ok (pg_tables s, Known b)
    end;
  status ← push_status status Confirmed block_height;
  Ok (set_bundles (set_tables s u) (<[m6id := (info, status)]> (withdrawal_bundles s))).

Definition connect_withdrawal_bundle_failed (block_height : Z) (s : PegState) (m6id : bytes)
  : result Error PegState :=
  '(info, status) ← ok_or (withdrawal_bundles s !! m6id) (UnknownWithdrawalBundle m6id);
  let latest := hs_value (rb_latest status) in
  if bool_decide (latest = Failed) then Ok s else
  _ ← bail_if (negb (is_submitted latest)) (DatabaseError "expected Submitted status before Failed");
  s ← match info with
      | Known b =>
          if bool_decide (latest = SubmittedUnexpected) then Ok s else
          let u := foldl reinstate (pg_tables s) (bundle_entries (spend_utxos b)) in
          failed ← match latest_failed_withdrawal_bundle s with
                   | Some r => map_err (fun _ => DatabaseError "failed to push latest failed m6id")
                                 (rb_push r m6id block_height)
                   | None => Ok (rb_new m6id block_height)
                   end;
          Ok (set_latest_failed (set_tables s u) (Some failed))
      | _ => Ok s
      end;
  status ← push_status status Failed block_height;
  Ok (set_bundles s (<[m6id := (info, status)]> (withdrawal_bundles s))).

Definition connect_withdrawal_bundle_event (block_height : Z) (event_block_hash : bytes)
  (s : PegState) (ev : BlockIndexEvents) (e : WithdrawalBundleEvent)
  : result Error (PegState * BlockIndexEvents) :=
  match we_status e with
  | EvSubmitted => connect_withdrawal_bundle_submitted block_height s ev (we_m6id e)
  | EvConfirmed =>
      s ← connect_withdrawal_bundle_confirmed block_height event_block_hash s (we_m6id e); Ok (s, ev)
  | EvFailed => s ← connect_withdrawal_bundle_failed block_height s (we_m6id e); Ok (s, ev)
  end.

(** The variables of the loop over the events: the index events and the last
    blocks with a deposit and with a bundle event. *)
Record EventLoop : Type := {
  lp_state : PegState;
  lp_events : BlockIndexEvents;
  lp_deposit_block : option bytes;
  lp_bundle_block : option bytes
}.

Definition deposit_outpoint (d : Deposit) : OutPoint := OpDeposit (dep_txid d) (dep_vout d).

Definition connect_2wpd_event (block_height : Z) (lp : EventLoop) (e : bytes * BlockEvent)
  : result Error EventLoop :=
  let '(event_block_hash, event) := e in
  let s := lp_state lp in
  match event with
  | EvDeposit d =>
      let outpoint := deposit_outpoint d in
      Ok {| lp_state := set_tables s (insert_utxo (pg_tables s) outpoint (dep_output d));
            lp_events := {| ev_deposits := ev_deposits (lp_events lp) ++ [(outpoint, dep_output d)];
                            ev_bundle_spends := ev_bundle_spends (lp_events lp) |};
            lp_deposit_block := Some event_block_hash; lp_bundle_block := lp_bundle_block lp |}
  | EvWithdrawalBundle we =>
      '(s, ev) ← connect_withdrawal_bundle_event block_height event_block_hash s (lp_events lp) we;
      Ok {| lp_state := s; lp_events := ev; lp_deposit_block := lp_deposit_block lp;
            lp_bundle_block := Some event_block_hash |}
  end.

Definition get_latest_failed_withdrawal_bundle (s : PegState) : result Error (option (Z * bytes)) :=
  match latest_failed_withdrawal_bundle s with
  | None => Ok None
  | Some r =>
      let m6id := hs_value (rb_latest r) in
      '(_, status) ← ok_or (withdrawal_bundles s !! m6id)
                       (DatabaseError "latest failed m6id not found");
      st ← ok_or (head (filter (fun h => hs_value h = Failed) (rev (rb_iter status))))
             (DatabaseError "missing failure status");
      Ok (Some (hs_height st, m6id))
  end.

(** The sequence of the events with the block each came in. *)
Definition peg_events (d : TwoWayPegData) : list (bytes * BlockEvent) :=
  flat_map (fun b => map (fun e => (b.1, e)) b.2) d.

(** Append a record under the index after the last one. *)
Definition push_block (m : gmap Z (bytes * Z)) (hash : option bytes) (height : Z) : gmap Z (bytes * Z) :=
  match hash with
  | Some h =>
      <[match db_last m with Some (i, _) => as_u32 (i + 1) | None => 0 end := (h, height)]> m
  | None => m
  end.

Definition gap_elapsed (block_height : Z) (s : PegState) : result Error bool :=
  f ← get_latest_failed_withdrawal_bundle s;
  let last_failure := match f with Some (h, _) => h | None => 0 end in
  Ok (WITHDRAWAL_BUNDLE_FAILURE_GAP <=? as_u32 (block_height - last_failure)).

Section Connect.
Context {AM : BitcoinAmount} {MT : MainchainTx}.

Definition store_pending (block_height : Z) (s : PegState) (bundle : WithdrawalBundle)
  : result Error PegState :=
  let m6id := compute_m6id bundle in
  status ← match withdrawal_bundles s !! m6id with
           | Some (_, status) => push_status status Pending block_height
           | None => Ok (rb_new Pending block_height)
           end;
  Ok (set_bundles (set_pending s (Some m6id))
        (<[m6id := (Known bundle, status)]> (withdrawal_bundles s))).

Definition propose_bundle (block_height : Z) (s : PegState) : result Error PegState :=
  gap ← gap_elapsed block_height s;
  if gap && bool_decide (pending_withdrawal_bundle s = None) then
    bundle ← collect_withdrawal_bundle (pg_tables s) block_height;
    match bundle with
    | Some bundle => store_pending block_height s bundle
    | None => Ok s
    end
  else Ok s.

Definition connect (s : PegState) (d : TwoWayPegData) : result Error PegState :=
  block_height ← ok_or (pg_height s) NoTip;
  lp ← try_fold (connect_2wpd_event block_height)
         {| lp_state := s; lp_events := {| ev_deposits := []; ev_bundle_spends := [] |};
            lp_deposit_block := None; lp_bundle_block := None |} (peg_events d);
  let s := lp_state lp in
  let s := if index_events_is_empty (lp_events lp) then s
           else set_index_events s (<[block_height := lp_events lp]> (block_index_events s)) in
  let s := set_deposit_blocks s (push_block (deposit_blocks s) (lp_deposit_block lp) block_height) in
  let s := set_event_blocks s
             (push_block (withdrawal_bundle_event_blocks s) (lp_bundle_block lp) block_height) in
  propose_bundle block_height s.

End Connect.

(** ** Disconnection *)

Definition disconnect_withdrawal_bundle_submitted (block_height : Z) (s : PegState) (m6id : bytes)
  : result Error PegState :=
  match withdrawal_bundles s !! m6id with
  | None =>
      if bool_decide (pending_withdrawal_bundle s = Some m6id) then Ok s
      else Err (UnknownWithdrawalBundle m6id)
  | Some (info, status) =>
      let '(prev, latest) := rb_pop status in
      _ ← bail_if (negb (is_submitted (hs_value latest)))
            (DatabaseError "expected Submitted status for disconnect");
      _ ← bail_if (negb (hs_height latest =? block_height)) (DatabaseError "bundle height");
      s ← match info, prev with
          | Known b, Some prev =>
              if bool_decide (hs_value (rb_latest prev) = Pending) then
                u ← try_fold unspend_for_bundle (pg_tables s) (rev (bundle_entries (spend_utxos b)));
                Ok (set_pending (set_tables s u) (Some m6id))
              else Ok s
          | _, _ => Ok s
          end;
      Ok (set_bundles s (match prev with
                         | Some prev => <[m6id := (info, prev)]> (withdrawal_bundles s)
                         | None => delete m6id (withdrawal_bundles s)
                         end))
  end.

Definition disconnect_withdrawal_bundle_confirmed (block_height : Z) (s : PegState) (m6id : bytes)
  : result Error PegState :=
  '(info, status) ← ok_or (withdrawal_bundles s !! m6id) (UnknownWithdrawalBundle m6id);
  let '(prev, latest) := rb_pop status in
  if is_submitted (hs_value latest) then Ok s else
  _ ← bail_if (negb (bool_decide (hs_value latest = Confirmed)))
        (DatabaseError "expected Confirmed status for disconnect");
  _ ← bail_if (negb (hs_height latest =? block_height)) (DatabaseError "confirmed bundle height");
  prev ← ok_or prev (DatabaseError "confirmed bundle has no previous status");
  _ ← bail_if (negb (is_submitted (hs_value (rb_latest prev))))
        (DatabaseError "expected Submitted status before Confirmed");
  '(u, info) ←
    match info with
    | Known b =>
        if bool_decide (hs_value (rb_latest prev) = SubmittedUnexpected) then
          u ← try_fold unspend_for_bundle (pg_tables s) (bundle_entries (spend_utxos b));
          Ok (u, Known b)
        else Ok (pg_tables s, Known b)
    | UnknownConfirmed spend =>
        u ← try_fold unspend_for_bundle (pg_tables s) (bundle_entries spend); Ok (u, Unknown)
    | Unknown => Ok (pg_tables s, Unknown)
    end;
  Ok (set_bundles (set_tables s u) (<[m6id := (info, prev)]> (withdrawal_bundles s))).

Definition disconnect_withdrawal_bundle_failed (block_height : Z) (s : PegState) (m6id : bytes)
  : result Error PegState :=
  '(info, status) ← ok_or (withdrawal_bundles s !! m6id) (UnknownWithdrawalBundle m6id);
  let '(prev, latest) := rb_pop status in
  if bool_decide (hs_value latest = Submitted) then Ok s else
  _ ← bail_if (negb (bool_decide (hs_value latest = Failed)))
        (DatabaseError "expected Failed status for disconnect");
  _ ← bail_if (negb (hs_height latest =? block_height)) (DatabaseError "failed bundle height");
  prev ← ok_or prev (DatabaseError "failed bundle has no previous status");
  _ ← bail_if (negb (is_submitted (hs_value (rb_latest prev))))
        (DatabaseError "expected Submitted status before Failed");
  s ← match info with
      | Known b =>
          if bool_decide (hs_value (rb_latest prev) = SubmittedUnexpected) then Ok s else
          u ← try_fold (spend_for_bundle NoUtxo m6id) (pg_tables s)
                (rev (bundle_entries (spend_utxos b)));
          failed ← ok_or (latest_failed_withdrawal_bundle s)
                     (DatabaseError "latest failed withdrawal bundle should exist");
          let '(prev_failed, latest_failed) := rb_pop failed in
          _ ← bail_if (negb (bool_decide (hs_value latest_failed = m6id)))
                (DatabaseError "latest failed m6id");
          _ ← bail_if (negb (hs_height latest_failed =? block_height))
                (DatabaseError "latest failed height");
          Ok (set_latest_failed (set_tables s u) prev_failed)
      | _ => Ok s
      end;
  Ok (set_bundles s (<[m6id := (info, prev)]> (withdrawal_bundles s))).

Definition disconnect_withdrawal_bundle_event (block_height : Z) (s : PegState)
  (e : WithdrawalBundleEvent) : result Error PegState :=
  match we_status e with
  | EvSubmitted => disconnect_withdrawal_bundle_submitted block_height s (we_m6id e)
  | EvConfirmed => disconnect_withdrawal_bundle_confirmed block_height s (we_m6id e)
  | EvFailed => disconnect_withdrawal_bundle_failed block_height s (we_m6id e)
  end.

(** The variables of the loop; the first hash seen is the latest block. *)
Record DisconnectLoop : Type := {
  dl_state : PegState;
  dl_deposit_block : option bytes;
  dl_bundle_block : option bytes
}.

Definition disconnect_event (block_height : Z) (dl : DisconnectLoop) (e : bytes * BlockEvent)
  : result Error DisconnectLoop :=
  let '(event_block_hash, event) := e in
  let s := dl_state dl in
  let first (o : option bytes) := match o with None => Some event_block_hash | Some h => Some h end in
  match event with
  | EvDeposit d =>
      match delete_utxo (pg_tables s) (deposit_outpoint d) with
      | (true, u) =>
          Ok {| dl_state := set_tables s u; dl_deposit_block := first (dl_deposit_block dl);
                dl_bundle_block := dl_bundle_block dl |}
      | (false, _) => Err (NoUtxo (deposit_outpoint d))
      end
  | EvWithdrawalBundle we =>
      s ← disconnect_withdrawal_bundle_event block_height s we;
      Ok {| dl_state := s; dl_deposit_block := dl_deposit_block dl;
            dl_bundle_block := first (dl_bundle_block dl) |}
  end.

(** Remove the last record of a sequence, which must be the block's. *)
Definition pop_block (m : gmap Z (bytes * Z)) (hash : option bytes) (height : Z) (missing : Error)
  : result Error (gmap Z (bytes * Z)) :=
  match hash with
  | None => Ok m
  | Some h =>
      '(i, (last_hash, last_height)) ← ok_or (db_last m) missing;
      _ ← bail_if (negb (bool_decide (h = last_hash))) (DatabaseError "event block hash mismatch");
      _ ← bail_if (negb (height =? last_height)) (DatabaseError "event block height mismatch");
      Ok (delete i m)
  end.

Definition withdraw_proposal (block_height : Z) (s : PegState) : result Error PegState :=
  gap ← gap_elapsed block_height s;
  match (if gap : bool then pending_withdrawal_bundle s else None) with
  | None => Ok s
  | Some m6id =>
      '(info, status) ← ok_or (withdrawal_bundles s !! m6id) (DatabaseError "pending bundle unknown");
      if hs_height (rb_latest status) =? block_height then
        Ok (set_bundles (set_pending s None)
              (match (rb_pop status).1 with
               | Some status => <[m6id := (info, status)]> (withdrawal_bundles s)
               | None => delete m6id (withdrawal_bundles s)
               end))
      else Ok s
  end.

Definition disconnect (s : PegState) (d : TwoWayPegData) : result Error PegState :=
  block_height ← ok_or (pg_height s) NoTip;
  let s := set_index_events s (delete block_height (block_index_events s)) in
  dl ← try_fold (disconnect_event block_height)
         {| dl_state := s; dl_deposit_block := None; dl_bundle_block := None |} (rev (peg_events d));
  let s := dl_state dl in
  m ← pop_block (withdrawal_bundle_event_blocks s) (dl_bundle_block dl) block_height
        NoWithdrawalBundleEventBlock;
  s ← withdraw_proposal block_height (set_event_blocks s m);
  m ← pop_block (deposit_blocks s) (dl_deposit_block dl) block_height NoDepositBlock;
  Ok (set_deposit_blocks s m).
