(* ===== verification/TwoWayPegFacts.v ===== *)
(** * Correctness of the two-way peg

    The stack of statuses; moving the outputs of a bundle between the unspent
    and the spent ones; the reversal of each mainchain event and of a whole
    block of events; what a proposed bundle spends and pays. *)

From stdpp Require Import base numbers list strings gmap.
From S2P Require Import Prelude Float64 StateErrors Transactions TransactionsFacts TwoWayPeg.

#[local] Arguments from_outpoint _ : simpl never.

(** ** The stack of statuses *)

Section RollBack.
Context {T : Type}.
Implicit Types (r : RollBack T).

Lemma rb_latest_snoc r v :
  rb_latest {| rb_head := rb_head r; rb_tail := rb_tail r ++ [v] |} = v.
Proof. unfold rb_latest. simpl. by rewrite last_snoc. Qed.

Lemma rb_push_inv r v h r' :
  rb_push r v h = Ok r' →
  rb_latest r' = {| hs_value := v; hs_height := h |} ∧
  rb_pop r' = (Some r, {| hs_value := v; hs_height := h |}) ∧ hs_height (rb_latest r) ≤ h.
Proof.
  unfold rb_push. destruct (Z.ltb_spec h (hs_height (rb_latest r))); [discriminate|]. intros [= <-].
  split; [apply rb_latest_snoc|]. split; [|lia]. unfold rb_pop. simpl.
  rewrite last_snoc, removelast_last. by destruct r.
Qed.

Lemma rb_pop_latest r : (rb_pop r).2 = rb_latest r.
Proof. unfold rb_pop, rb_latest. by destruct (last (rb_tail r)). Qed.

End RollBack.

Lemma push_status_inv r v h r' :
  push_status r v h = Ok r' →
  rb_latest r' = {| hs_value := v; hs_height := h |} ∧
  rb_pop r' = (Some r, {| hs_value := v; hs_height := h |}) ∧ hs_height (rb_latest r) ≤ h.
Proof.
  unfold push_status, map_err. destruct (rb_push r v h) as [x|] eqn:E; [|discriminate].
  intros [= <-]. by apply rb_push_inv.
Qed.

(** ** Outputs of a bundle *)

Section Bundles.
(** The output each outpoint names. *)
Context (out_of : bytes → FilledOutput).
Implicit Types (u : UtxoTables) (l : list (OutPoint * FilledOutput)) (m6id : bytes).

Definition key_of (e : OutPoint * FilledOutput) : bytes := from_outpoint e.1.

Definition entry_ok (e : OutPoint * FilledOutput) : Prop :=
  outpoint_ok e.1 ∧ out_of (key_of e) = e.2.

(** Every key of the table encodes an outpoint, names its output, and no
    outpoint is both spent and unspent. *)
Record peg_tables_ok u : Prop := {
  pt_tables : tables_ok u;
  pt_keys : ∀ k o, utxos u !! k = Some o → ∃ op, outpoint_ok op ∧ k = from_outpoint op;
  pt_named : ∀ k o, utxos u !! k = Some o → out_of k = o
}.

Definition spent_by m6id (k : bytes) : SpentOutput :=
  {| so_output := out_of k; so_inpoint := InWithdrawal m6id |}.

Lemma spend_step err m6id u e u' :
  peg_tables_ok u → entry_ok e → spend_for_bundle err m6id u e = Ok u' →
  peg_tables_ok u' ∧ is_Some (utxos u !! key_of e) ∧
  (∀ k, utxos u' !! k = if bool_decide (k = key_of e) then None else utxos u !! k) ∧
  (∀ k, stxos u' !! k = if bool_decide (k = key_of e) then Some (spent_by m6id k) else stxos u !! k).
Proof.
  intros [[Hidx Hdis] Hkeys Hnamed] [Hop Hname] Hs. unfold spend_for_bundle, delete_utxo, key_of in *.
  destruct (utxos u !! from_outpoint e.1) as [o|] eqn:Eo; [|discriminate]. injection Hs as <-.
  assert (∀ k, delete (from_outpoint e.1) (utxos u) !! k
    = if bool_decide (k = from_outpoint e.1) then None else utxos u !! k) as Hu.
  { intros k. case_bool_decide as He; [by subst; rewrite lookup_delete_eq|by rewrite lookup_delete_ne]. }
  assert (∀ k, <[from_outpoint e.1 := {| so_output := e.2; so_inpoint := InWithdrawal m6id |}]> (stxos u) !! k
    = if bool_decide (k = from_outpoint e.1) then Some (spent_by m6id k) else stxos u !! k) as Hst.
  { intros k. case_bool_decide as He; [|by rewrite lookup_insert_ne].
    subst. rewrite lookup_insert_eq. unfold spent_by. by rewrite Hname. }
  split_and!; [|done|exact Hu|exact Hst]. split; simpl.
  - split.
    + pose proof (delete_index_ok u e.1 Hidx Hop) as Hd. unfold delete_utxo in Hd.
      rewrite Eo in Hd. exact Hd.
    + intros k. simpl. rewrite Hu, Hst. case_bool_decide; [by left|apply Hdis].
  - intros k o'. rewrite Hu. case_bool_decide; [done|apply Hkeys].
  - intros k o'. rewrite Hu. case_bool_decide; [done|apply Hnamed].
Qed.

Lemma spend_fold err m6id u l u' :
  peg_tables_ok u → Forall entry_ok l → try_fold (spend_for_bundle err m6id) u l = Ok u' →
  peg_tables_ok u' ∧ NoDup (map key_of l) ∧ Forall (fun e => is_Some (utxos u !! key_of e)) l ∧
  (∀ k, utxos u' !! k = if bool_decide (k ∈ map key_of l) then None else utxos u !! k) ∧
  (∀ k, stxos u' !! k = if bool_decide (k ∈ map key_of l) then Some (spent_by m6id k) else stxos u !! k).
Proof.
  intros Hu Hl. revert u Hu. induction Hl as [|e l He _ IH]; intros u Hu Hf.
  { injection Hf as <-. split_and!; [done|constructor|constructor|..]; intros k;
      by rewrite bool_decide_false by apply not_elem_of_nil. }
  simpl in Hf. destruct (spend_for_bundle err m6id u e) as [u1|] eqn:E1; [|discriminate].
  destruct (spend_step _ _ _ _ _ Hu He E1) as (Hu1 & Hin & Hk1 & Hs1).
  destruct (IH u1 Hu1 Hf) as (Hu' & Hnd & Hall & Hk & Hs).
  assert (key_of e ∉ map key_of l) as Hni.
  { intros (e' & He' & Hin')%list_elem_of_fmap. rewrite Forall_forall in Hall.
    destruct (Hall e' Hin') as [o Ho]. rewrite <- He', Hk1, bool_decide_true in Ho by done. done. }
  split_and!; [done|simpl; by apply NoDup_cons| | |].
  - apply Forall_cons. split; [done|]. eapply Forall_impl; [exact Hall|]. intros e' [o Ho]. cbn beta.
    rewrite Hk1 in Ho. case_bool_decide; [done|]. by exists o.
  - intros k. rewrite Hk, Hk1. cbn [map]. destruct (decide (k = key_of e)) as [->|Hne].
    + rewrite (bool_decide_true (key_of e ∈ _ :: _)) by left. rewrite (bool_decide_true (_ = _)) by done.
      by case_bool_decide.
    + rewrite (bool_decide_false (k = _)) by done. erewrite bool_decide_ext; [done|].
      rewrite elem_of_cons. naive_solver.
  - intros k. rewrite Hs, Hs1. cbn [map]. destruct (decide (k = key_of e)) as [->|Hne].
    + rewrite (bool_decide_true (key_of e ∈ _ :: _)) by left. rewrite (bool_decide_true (_ = _)) by done.
      by case_bool_decide.
    + rewrite (bool_decide_false (k = _)) by done. erewrite bool_decide_ext; [done|].
      rewrite elem_of_cons. naive_solver.
Qed.

(** Spending succeeds when every output is there, once. *)
Lemma spend_succeeds err m6id u l :
  peg_tables_ok u → Forall entry_ok l → NoDup (map key_of l) →
  Forall (fun e => is_Some (utxos u !! key_of e)) l →
  ∃ u', try_fold (spend_for_bundle err m6id) u l = Ok u'.
Proof.
  intros Hu Hl. revert u Hu. induction Hl as [|e l He _ IH]; intros u Hu Hnd Hall; [by eexists|].
  simpl in Hnd. apply NoDup_cons in Hnd as [Hni Hnd]. apply Forall_cons in Hall as [[o Ho] Hall]. simpl.
  destruct (spend_for_bundle err m6id u e) as [u1|] eqn:E1.
  - destruct (spend_step _ _ _ _ _ Hu He E1) as (Hu1 & _ & Hk1 & _). apply IH; [done|done|].
    rewrite Forall_forall in Hall |- *. intros e' Hin. rewrite Hk1, bool_decide_false; [by apply Hall|].
    intros Heq. apply Hni. rewrite <- Heq. by apply (list_elem_of_fmap_2 key_of).
  - exfalso. unfold spend_for_bundle, delete_utxo, key_of in *. by rewrite Ho in E1.
Qed.

Lemma reinstate_step u e :
  peg_tables_ok u → entry_ok e → is_Some (stxos u !! key_of e) →
  peg_tables_ok (reinstate u e) ∧
  (∀ k, utxos (reinstate u e) !! k = if bool_decide (k = key_of e) then Some (out_of k) else utxos u !! k) ∧
  (∀ k, stxos (reinstate u e) !! k = if bool_decide (k = key_of e) then None else stxos u !! k).
Proof.
  intros [[Hidx Hdis] Hkeys Hnamed] [Hop Hname] [so Hso]. unfold reinstate, key_of in *.
  assert (∀ k, <[from_outpoint e.1 := e.2]> (utxos u) !! k
    = if bool_decide (k = from_outpoint e.1) then Some (out_of k) else utxos u !! k) as Hu.
  { intros k. case_bool_decide; [subst; by rewrite lookup_insert_eq, Hname|by rewrite lookup_insert_ne]. }
  assert (∀ k, delete (from_outpoint e.1) (stxos u) !! k
    = if bool_decide (k = from_outpoint e.1) then None else stxos u !! k) as Hst.
  { intros k. case_bool_decide as He; [by subst; rewrite lookup_delete_eq|by rewrite lookup_delete_ne]. }
  assert (utxos u !! from_outpoint e.1 = None) as Hnone by (destruct (Hdis (from_outpoint e.1)); congruence).
  split_and!; [|exact Hu|exact Hst]. split; simpl.
  - split.
    + apply insert_index_ok; [exact Hidx|done|]. simpl. congruence.
    + intros k. simpl. rewrite Hu, Hst. case_bool_decide; [by right|apply Hdis].
  - intros k o'. rewrite Hu. case_bool_decide; [|apply Hkeys]. intros _. subst. eauto.
  - intros k o'. rewrite Hu. case_bool_decide; [congruence|apply Hnamed].
Qed.

Lemma reinstate_fold u l :
  peg_tables_ok u → Forall entry_ok l → NoDup (map key_of l) →
  Forall (fun e => is_Some (stxos u !! key_of e)) l →
  let u' := foldl reinstate u l in
  peg_tables_ok u' ∧ try_fold unspend_for_bundle u l = Ok u' ∧
  (∀ k, utxos u' !! k = if bool_decide (k ∈ map key_of l) then Some (out_of k) else utxos u !! k) ∧
  (∀ k, stxos u' !! k = if bool_decide (k ∈ map key_of l) then None else stxos u !! k).
Proof.
  intros Hu Hl. revert u Hu. induction Hl as [|e l He _ IH]; intros u Hu Hnd Hall.
  { split_and!; [done|done|..]; intros k; by rewrite bool_decide_false by apply not_elem_of_nil. }
  simpl in Hnd. apply NoDup_cons in Hnd as [Hni Hnd]. apply Forall_cons in Hall as [Hin Hall].
  destruct (reinstate_step u e Hu He Hin) as (Hu1 & Hk1 & Hs1).
  destruct (IH (reinstate u e) Hu1 Hnd) as (Hu' & Hok & Hk & Hs).
  { rewrite Forall_forall in Hall |- *. intros e' Hin'. rewrite Hs1, bool_decide_false; [by apply Hall|].
    intros Heq. apply Hni. rewrite <- Heq. by apply (list_elem_of_fmap_2 key_of). }
  cbn [foldl]. split_and!; [done| | |].
  - simpl. unfold unspend_for_bundle at 1. destruct Hin as [so Hso]. unfold key_of in Hso. by rewrite Hso.
  - intros k. rewrite Hk, Hk1. cbn [map]. destruct (decide (k = key_of e)) as [->|Hne].
    + rewrite (bool_decide_true (key_of e ∈ _ :: _)) by left. rewrite (bool_decide_true (_ = _)) by done.
      by case_bool_decide.
    + rewrite (bool_decide_false (k = _)) by done. erewrite bool_decide_ext; [done|].
      rewrite elem_of_cons. naive_solver.
  - intros k. rewrite Hs, Hs1. cbn [map]. destruct (decide (k = key_of e)) as [->|Hne].
    + rewrite (bool_decide_true (key_of e ∈ _ :: _)) by left. rewrite (bool_decide_true (_ = _)) by done.
      by case_bool_decide.
    + rewrite (bool_decide_false (k = _)) by done. erewrite bool_decide_ext; [done|].
      rewrite elem_of_cons. naive_solver.
Qed.

(** Spending the outputs of a bundle and giving them back, in any order. *)
Lemma spend_undone err m6id u l l' u' :
  peg_tables_ok u → Forall entry_ok l → l' ≡ₚ l →
  try_fold (spend_for_bundle err m6id) u l = Ok u' →
  try_fold unspend_for_bundle u' l' = Ok u.
Proof.
  intros Hu Hl Hp Hs. destruct (spend_fold _ _ _ _ _ Hu Hl Hs) as (Hu' & Hnd & Hall & Hk & Hst).
  assert (∀ k, k ∈ map key_of l' ↔ k ∈ map key_of l) as Hmem by (intros k; by rewrite (Permutation_map key_of Hp)).
  destruct (reinstate_fold u' l') as (Hr & -> & Hk' & Hst'); [done|by rewrite Hp|by rewrite (Permutation_map key_of Hp)| |].
  { rewrite Hp. apply Forall_forall. intros e He. rewrite Hst, bool_decide_true; [by eexists|].
    by apply (list_elem_of_fmap_2 key_of). }
  f_equal. apply tables_ext; [apply Hr|apply Hu|..]; apply map_eq; intros k.
  - rewrite Hk', Hk, (bool_decide_ext _ _ (Hmem k)). case_bool_decide as Hin; [|done].
    apply list_elem_of_fmap in Hin as (e & -> & Hin). rewrite Forall_forall in Hall.
    destruct (Hall e Hin) as [o Ho]. rewrite Ho. f_equal. by apply (pt_named _ Hu).
  - rewrite Hst', Hst, (bool_decide_ext _ _ (Hmem k)). case_bool_decide as Hin; [|done].
    apply list_elem_of_fmap in Hin as (e & -> & Hin). rewrite Forall_forall in Hall.
    destruct (Hall e Hin) as [o Ho]. destruct (pt_tables _ Hu) as [_ Hdis].
    destruct (Hdis (key_of e)); congruence.
Qed.

(** Giving the outputs of a failed bundle back and spending them again. *)
Lemma reinstate_undone err m6id u l l' :
  peg_tables_ok u → Forall entry_ok l → l' ≡ₚ l → NoDup (map key_of l) →
  Forall (fun e => stxos u !! key_of e = Some (spent_by m6id (key_of e))) l →
  try_fold (spend_for_bundle err m6id) (foldl reinstate u l) l' = Ok u.
Proof.
  intros Hu Hl Hp Hnd Hall.
  destruct (reinstate_fold u l Hu Hl Hnd) as (Hr & _ & Hk & Hst).
  { eapply Forall_impl; [exact Hall|]. intros e He. cbn beta in *. rewrite He. eauto. }
  assert (∀ k, k ∈ map key_of l' ↔ k ∈ map key_of l) as Hmem by (intros k; by rewrite (Permutation_map key_of Hp)).
  destruct (spend_succeeds err m6id (foldl reinstate u l) l') as [u' Hu'];
    [done|by rewrite Hp|by rewrite (Permutation_map key_of Hp)| |].
  { rewrite Hp. apply Forall_forall. intros e He. rewrite Hk, bool_decide_true; [by eexists|].
    by apply (list_elem_of_fmap_2 key_of). }
  rewrite Hu'. f_equal. assert (Forall entry_ok l') as Hl' by (by rewrite Hp).
  destruct (spend_fold _ _ _ _ _ Hr Hl' Hu') as (Hok & _ & _ & Hk' & Hst').
  rewrite Forall_forall in Hall. apply tables_ext; [apply Hok|apply Hu|..]; apply map_eq; intros k.
  - rewrite Hk', Hk, (bool_decide_ext _ _ (Hmem k)). case_bool_decide as Hin; [|done].
    apply list_elem_of_fmap in Hin as (e & -> & Hin). specialize (Hall e Hin). cbn beta in Hall.
    destruct (pt_tables _ Hu) as [_ Hdis]. destruct (Hdis (key_of e)); congruence.
  - rewrite Hst', Hst, (bool_decide_ext _ _ (Hmem k)). case_bool_decide as Hin; [|done].
    apply list_elem_of_fmap in Hin as (e & -> & Hin). by rewrite (Hall e Hin).
Qed.

End Bundles.

(** ** Reverting one event *)

(** Collapse a chain of field updates. *)
Ltac peg_record :=
  unfold set_bundles, set_pending, set_tables, set_latest_failed, set_index_events,
    set_deposit_blocks, set_event_blocks; cbn.

Section Events.
Context (out_of : bytes → FilledOutput).
Implicit Types (u : UtxoTables) (s : PegState) (m6id : bytes).

Abbreviation tables_good := (peg_tables_ok out_of).

Lemma elem_of_bundle_entries m op o : (op, o) ∈ bundle_entries m ↔ m !! op = Some o.
Proof. apply elem_of_db_iter. Qed.

Lemma entries_NoDup m :
  Forall (entry_ok out_of) (bundle_entries m) → NoDup (map key_of (bundle_entries m)).
Proof.
  intros Hok. assert (NoDup (bundle_entries m).*1) as Hnd by apply db_iter_keys_NoDup.
  revert Hok Hnd. generalize (bundle_entries m) as l. induction l as [|e l IH]; intros Hok Hnd; [constructor|].
  apply Forall_cons in Hok as [[He _] Hok]. simpl in *. apply NoDup_cons in Hnd as [Hni Hnd].
  apply NoDup_cons. split; [|by apply IH]. intros (e' & Heq & Hin)%list_elem_of_fmap. apply Hni.
  rewrite Forall_forall in Hok. destruct (Hok e' Hin) as [He' _]. apply from_outpoint_inj in Heq; [|done|done].
  rewrite Heq. by apply (list_elem_of_fmap_2 fst).
Qed.

(** The outputs of a submitted bundle are spent by it. *)
Definition bundle_ok u m6id (e : WithdrawalBundleInfo * RollBack WithdrawalBundleStatus) : Prop :=
  match e.1 with
  | Known b =>
      Forall (entry_ok out_of) (bundle_entries (spend_utxos b)) ∧
      (hs_value (rb_latest e.2) = Submitted →
       Forall (fun x => stxos u !! key_of x = Some (spent_by out_of m6id (key_of x)))
         (bundle_entries (spend_utxos b)))
  | _ => True
  end.

Record peg_ok s : Prop := {
  pk_tables : tables_good (pg_tables s);
  pk_bundles : map_Forall (bundle_ok (pg_tables s)) (withdrawal_bundles s)
}.

(** A change of the tables that leaves what others spent alone. *)
Definition keeps_others m6id u u' : Prop :=
  ∀ k so, stxos u !! k = Some so → so_inpoint so ≠ InWithdrawal m6id → stxos u' !! k = Some so.

Lemma bundles_update u u' m6id e (m : gmap bytes (WithdrawalBundleInfo * RollBack WithdrawalBundleStatus)) :
  map_Forall (bundle_ok u) m → keeps_others m6id u u' → bundle_ok u' m6id e →
  map_Forall (bundle_ok u') (<[m6id := e]> m).
Proof.
  intros Hm Hk He. intros m6 e' Hl. apply lookup_insert_Some in Hl as [[<- <-]|[Hne Hl]]; [done|].
  specialize (Hm _ _ Hl). unfold bundle_ok in *. destruct e'.1; [|done..]. destruct Hm as [Hok Hsub].
  split; [done|]. intros Hs. eapply Forall_impl; [by apply Hsub|]. intros x Hx. cbn beta in *.
  apply Hk; [done|]. simpl. congruence.
Qed.

Lemma keeps_refl m6id u : keeps_others m6id u u.
Proof. by intros k so Hso. Qed.

Lemma spend_keeps err m6id u l u' :
  tables_good u → Forall (entry_ok out_of) l → try_fold (spend_for_bundle err m6id) u l = Ok u' →
  keeps_others m6id u u'.
Proof.
  intros Hu Hl Hs k so Hso _. destruct (spend_fold _ _ _ _ _ _ Hu Hl Hs) as (_ & _ & Hall & _ & ->).
  rewrite bool_decide_false; [done|]. intros (e & -> & Hin)%list_elem_of_fmap.
  rewrite Forall_forall in Hall. destruct (Hall e Hin) as [o Ho]. destruct (pt_tables _ _ Hu) as [_ Hdis].
  destruct (Hdis (key_of e)); congruence.
Qed.

(** An outpoint no bundle may touch. *)
Lemma spend_unused err m6id u l u' k :
  tables_good u → Forall (entry_ok out_of) l → try_fold (spend_for_bundle err m6id) u l = Ok u' →
  unused u k → unused u' k.
Proof.
  intros Hu Hl Hs [Hk Hst]. destruct (spend_fold _ _ _ _ _ _ Hu Hl Hs) as (_ & _ & Hall & Hk' & Hst').
  unfold unused. rewrite Hk', Hst'. rewrite !bool_decide_false; [done|]. intros (e & -> & Hin)%list_elem_of_fmap.
  rewrite Forall_forall in Hall. destruct (Hall e Hin) as [o Ho]. congruence.
Qed.

Lemma submitted_undone h s ev m6id s' ev' :
  peg_ok s → connect_withdrawal_bundle_submitted h s ev m6id = Ok (s', ev') →
  disconnect_withdrawal_bundle_submitted h s' m6id = Ok s ∧ peg_ok s' ∧
  ∀ k, unused (pg_tables s) k → unused (pg_tables s') k.
Proof.
  intros [Hu Hb] Hc. unfold connect_withdrawal_bundle_submitted in Hc.
  case_bool_decide as Hpend.
  - destruct (withdrawal_bundles s !! m6id) as [[info status]|] eqn:Es; [|discriminate]. simpl in Hc.
    destruct info as [b| |]; [|discriminate..]. simpl in Hc.
    pose proof (Hb _ _ Es) as [Hent _]. cbn [fst] in Hent.
    destruct (try_fold _ _ _) as [u|] eqn:Eu; [|discriminate]. simpl in Hc.
    destruct (bool_decide (hs_value (rb_latest status) = Pending)) eqn:Ep; [|discriminate]. simpl in Hc.
    apply bool_decide_eq_true in Ep.
    destruct (push_status status Submitted h) as [status'|] eqn:Epush; [|discriminate]. simpl in Hc.
    injection Hc as <- <-. apply push_status_inv in Epush as (Hlat & Hpop & _).
    destruct (spend_fold _ _ _ _ _ _ Hu Hent Eu) as (Hu' & Hnd & _ & _ & Hst).
    split_and!.
    + unfold disconnect_withdrawal_bundle_submitted. simpl. rewrite lookup_insert_eq, Hpop. simpl.
      rewrite Z.eqb_refl. simpl. rewrite bool_decide_true by done.
      rewrite (spend_undone out_of NoUtxo m6id (pg_tables s) _ _ u Hu Hent) by (done || (symmetry; apply Permutation_rev)).
      peg_record. rewrite insert_insert_eq, insert_id by done. rewrite <- Hpend. by destruct s.
    + split; [exact Hu'|]. simpl. eapply bundles_update; [exact Hb|by eapply spend_keeps|].
      split; [done|]. intros _. apply Forall_forall. intros x Hx. cbn [pg_tables set_pending set_bundles set_tables].
      rewrite Hst, bool_decide_true; [done|]. by apply (list_elem_of_fmap_2 key_of).
    + intros k. by eapply spend_unused.
  - destruct (withdrawal_bundles s !! m6id) as [[info status]|] eqn:Es.
    + destruct (check_resubmission _ _) eqn:Ech; [|discriminate]. simpl in Hc.
      destruct (push_status status SubmittedUnexpected h) as [status'|] eqn:Epush; [|discriminate].
      simpl in Hc. injection Hc as <- <-. apply push_status_inv in Epush as (Hlat & Hpop & _).
      split_and!; [|split; [done|]; simpl; eapply bundles_update; [exact Hb|apply keeps_refl|]|done].
      * unfold disconnect_withdrawal_bundle_submitted. simpl. rewrite lookup_insert_eq, Hpop. simpl.
        rewrite Z.eqb_refl. simpl.
        assert (hs_value (rb_latest status) ≠ Pending) as Hne.
        { intros He. rewrite He in Ech. destruct info; discriminate. }
        rewrite (bool_decide_false (_ = Pending)) by done.
        destruct info; peg_record; rewrite insert_insert_eq, insert_id by done; by destruct s.
      * pose proof (Hb _ _ Es) as Hbok. unfold bundle_ok in *. cbn [fst snd] in *. destruct info; [|done..].
        split; [apply Hbok|]. by rewrite Hlat.
    + injection Hc as <- <-. split_and!; [|split; [done|]; simpl; eapply bundles_update; [exact Hb|apply keeps_refl|done]|done].
      unfold disconnect_withdrawal_bundle_submitted. simpl. rewrite lookup_insert_eq. simpl.
      rewrite Z.eqb_refl. peg_record. rewrite delete_insert_id by done. by destruct s.
Qed.

(** Marking every output as spent. *)
Lemma spend_all_fold m6id l u (m : gmap OutPoint FilledOutput) u' m' :
  Forall (fun e => ∃ op, outpoint_ok op ∧ e.1 = from_outpoint op ∧ out_of e.1 = e.2) l →
  try_fold (fun st e =>
      outpoint ← ok_or (to_outpoint e.1) (Panicked "OutPointKey::to_outpoint");
      Ok (put_stxo st.1 e.1 {| so_output := e.2; so_inpoint := InWithdrawal m6id |},
          <[outpoint := e.2]> st.2)) (u, m) l = Ok (u', m') →
  utxos u' = utxos u ∧
  (∀ k, stxos u' !! k = if bool_decide (k ∈ map fst l) then Some (spent_by out_of m6id k) else stxos u !! k) ∧
  (∀ op o, m' !! op = Some o → m !! op = Some o ∨ (outpoint_ok op ∧ from_outpoint op ∈ map fst l ∧
     out_of (from_outpoint op) = o)) ∧
  (∀ op, from_outpoint op ∈ map fst l → outpoint_ok op → is_Some (m' !! op)) ∧
  (∀ op, is_Some (m !! op) → is_Some (m' !! op)).
Proof.
  intros Hl. revert u m. induction Hl as [|[k o] l (op & Hop & Hk & Ho) _ IH]; intros u m Hf.
  { injection Hf as <- <-. split_and!; [done| |auto|set_solver|done]. intros k.
    by rewrite bool_decide_false by apply not_elem_of_nil. }
  cbn [fst snd] in *. subst k. simpl in Hf. rewrite to_from_outpoint in Hf by done. simpl in Hf.
  apply IH in Hf as (Hu & Hst & Hm & Hin & Hkeep). split_and!.
  - done.
  - intros k. rewrite Hst. cbn [map fst put_stxo stxos]. destruct (decide (k = from_outpoint op)) as [->|Hne].
    + rewrite (bool_decide_true (_ ∈ _ :: _)) by left. case_bool_decide; [done|].
      rewrite lookup_insert_eq. unfold spent_by. by rewrite Ho.
    + rewrite lookup_insert_ne by done. erewrite bool_decide_ext; [done|]. rewrite elem_of_cons. naive_solver.
  - intros op' o' Hl'. apply Hm in Hl' as [Hl'|(? & ? & ?)].
    + apply lookup_insert_Some in Hl' as [[<- <-]|[_ Hl']]; [|by left].
      right. split_and!; [done|left|done].
    + right. split_and!; [done|by right|done].
  - intros op' Hin' Hop'. cbn [map fst] in Hin'. apply elem_of_cons in Hin' as [He|Hin']; [|by apply Hin].
    apply Hkeep. apply from_outpoint_inj in He; [|done|done]. subst. rewrite lookup_insert_eq. eauto.
  - intros op' Hs. apply Hkeep. destruct (decide (op' = op)) as [->|Hne].
    + rewrite lookup_insert_eq. eauto.
    + by rewrite lookup_insert_ne.
Qed.

Lemma spend_all_spec m6id u u' spent :
  tables_good u → spend_all m6id u = Ok (u', spent) →
  tables_good u' ∧ keeps_others m6id u u' ∧ (∀ k, unused u k → unused u' k) ∧
  try_fold unspend_for_bundle u' (bundle_entries spent) = Ok u.
Proof.
  intros Hu Hs. unfold spend_all in Hs. destruct (try_fold _ _ _) as [[u1 m1]|] eqn:Ef; [|discriminate].
  simpl in Hs. injection Hs as <- <-.
  apply spend_all_fold in Ef as (Hu1 & Hst & Hm & Hin & _).
  2: { apply Forall_forall. intros [k o] Hk%elem_of_db_iter. cbn. destruct (pt_keys _ _ Hu _ _ Hk) as (op & Hop & ->).
       exists op. split_and!; [done|done|by apply (pt_named _ _ Hu)]. }
  assert (∀ k, k ∈ map fst (db_iter bytes_cmp (utxos u)) ↔ is_Some (utxos u !! k)) as Hdom.
  { intros k. rewrite list_elem_of_fmap. split.
    - intros ([k' o] & -> & Hk%elem_of_db_iter). eauto.
    - intros [o Ho]. exists (k, o). by rewrite elem_of_db_iter. }
  destruct (pt_tables _ _ Hu) as [Hidx Hdis].
  assert (tables_good (clear_utxos u1)) as Hgood.
  { split; simpl.
    - split; [|intros k; left; apply lookup_empty]. intros a op. simpl. split; [set_solver|].
      intros (_ & o & Ho & _). by rewrite lookup_empty in Ho.
    - intros k o Ho. by rewrite lookup_empty in Ho.
    - intros k o Ho. by rewrite lookup_empty in Ho. }
  assert (Forall (entry_ok out_of) (bundle_entries m1)) as Hent.
  { apply Forall_forall. intros [op o] He%elem_of_bundle_entries. apply Hm in He as [He|(? & _ & ?)]; [|by split].
    by rewrite lookup_empty in He. }
  assert (∀ k, k ∈ map key_of (bundle_entries m1) ↔ is_Some (utxos u !! k)) as Hkeys.
  { intros k. rewrite list_elem_of_fmap. split.
    - intros ([op o] & -> & He%elem_of_bundle_entries). apply Hm in He as [He|(_ & He & _)]; [|by apply Hdom].
      by rewrite lookup_empty in He.
    - intros [o Ho]. destruct (pt_keys _ _ Hu _ _ Ho) as (op & Hop & ->).
      destruct (Hin op) as [o' Ho']; [apply Hdom; eauto|done|]. exists (op, o'). split; [done|].
      by apply elem_of_bundle_entries. }
  split_and!; [done| | |].
  - intros k so Hso _. simpl. rewrite Hst, bool_decide_false; [done|]. rewrite Hdom. intros [o Ho].
    destruct (Hdis k); congruence.
  - intros k [Hk Hk']. split; [apply lookup_empty|]. simpl. rewrite Hst, bool_decide_false; [done|].
    rewrite Hdom. intros [o Ho]. congruence.
  - destruct (reinstate_fold out_of (clear_utxos u1) (bundle_entries m1) Hgood Hent) as (Hr & -> & Hk' & Hst').
    + by apply entries_NoDup.
    + apply Forall_forall. intros e He. simpl. rewrite Hst, bool_decide_true; [eauto|].
      rewrite Hdom, <- Hkeys. by apply (list_elem_of_fmap_2 key_of).
    + f_equal. apply tables_ext; [apply Hr|done|..]; apply map_eq; intros k.
      * rewrite Hk'. simpl. rewrite lookup_empty, (bool_decide_ext _ _ (Hkeys k)).
        case_bool_decide as Hk; [|by destruct (utxos u !! k); naive_solver].
        destruct Hk as [o Ho]. rewrite Ho. f_equal. by apply (pt_named _ _ Hu).
      * rewrite Hst', (bool_decide_ext _ _ (Hkeys k)). simpl. rewrite Hst, (bool_decide_ext _ _ (Hdom k)).
        case_bool_decide as Hk; [|done]. destruct Hk as [o Ho]. destruct (Hdis k); congruence.
Qed.

(** The event changes the status of its bundle. *)
Definition status_is s m6id (v : WithdrawalBundleStatus) : bool :=
  match withdrawal_bundles s !! m6id with
  | Some (_, status) => bool_decide (hs_value (rb_latest status) = v)
  | None => false
  end.

(** The bundle's latest status is popped and its previous one put back. *)
Ltac pop_status Hpop Esub :=
  unfold disconnect_withdrawal_bundle_failed; simpl; rewrite lookup_insert_eq; simpl;
  rewrite Hpop; simpl; rewrite Z.eqb_refl; simpl; rewrite Esub; simpl;
  rewrite ?bool_decide_true by done; peg_record; rewrite insert_insert_eq, insert_id by done.

Lemma confirmed_undone h hash s m6id s' :
  peg_ok s → status_is s m6id Confirmed = false →
  connect_withdrawal_bundle_confirmed h hash s m6id = Ok s' →
  disconnect_withdrawal_bundle_confirmed h s' m6id = Ok s ∧ peg_ok s' ∧
  ∀ k, unused (pg_tables s) k → unused (pg_tables s') k.
Proof.
  intros [Hu Hb] Hne Hc. unfold connect_withdrawal_bundle_confirmed, status_is in *.
  destruct (withdrawal_bundles s !! m6id) as [[info status]|] eqn:Es; [|discriminate]. simpl in Hc.
  rewrite Hne in Hc. destruct (is_submitted (hs_value (rb_latest status))) eqn:Esub; [|discriminate].
  simpl in Hc. destruct (match info with Known _ => _ | _ => _ end) as [[u info']|] eqn:Ei; [|discriminate].
  simpl in Hc. destruct (push_status status Confirmed h) as [status'|] eqn:Epush; [|discriminate].
  injection Hc as <-. apply push_status_inv in Epush as (Hlat & Hpop & _).
  assert (∀ u0 i0,
    (match info' with
     | Known b => if bool_decide (hs_value (rb_latest status) = SubmittedUnexpected) then
          u ← try_fold unspend_for_bundle u (bundle_entries (spend_utxos b)); Ok (u, Known b)
        else Ok (u, Known b)
     | UnknownConfirmed spend => u ← try_fold unspend_for_bundle u (bundle_entries spend); Ok (u, Unknown)
     | Unknown => Ok (u, Unknown) end) = Ok (u0, i0) → u0 = pg_tables s → i0 = info →
    disconnect_withdrawal_bundle_confirmed h
      (set_bundles (set_tables s u) (<[m6id := (info', status')]> (withdrawal_bundles s))) m6id = Ok s) as Hdis.
  { intros u0 i0 Hm -> ->. unfold disconnect_withdrawal_bundle_confirmed. simpl.
    rewrite lookup_insert_eq. simpl. rewrite Hpop. simpl. rewrite Z.eqb_refl. simpl. rewrite Esub. simpl.
    rewrite Hm. peg_record. rewrite insert_insert_eq, insert_id by done. by destruct s. }
  assert (keeps_others m6id (pg_tables s) u → bundle_ok u m6id (info', status') →
    map_Forall (bundle_ok u) (<[m6id := (info', status')]> (withdrawal_bundles s))) as Hbs.
  { intros. by eapply bundles_update. }
  assert (∀ b : WithdrawalBundle, bundle_ok u m6id (Known b, status') ↔
    Forall (entry_ok out_of) (bundle_entries (spend_utxos b))) as Hkn.
  { intros b. unfold bundle_ok. cbn [fst snd]. rewrite Hlat. naive_solver. }
  pose proof (Hb _ _ Es) as Hbok. destruct info as [b| |spend]; cbn in Ei.
  - destruct Hbok as [Hent _]. cbn [fst] in Hent.
    case_bool_decide as Hsu; [destruct (try_fold _ _ _) as [u'|] eqn:Eu; [|discriminate]|];
      injection Ei as <- <-.
    + split_and!.
      * eapply (Hdis (pg_tables s) (Known b)); [|done|done].
        by rewrite (spend_undone out_of _ m6id (pg_tables s) _ _ _ Hu Hent (reflexivity _) Eu).
      * split; [by eapply spend_fold|]. apply Hbs; [by eapply spend_keeps|by apply Hkn].
      * intros k. by eapply spend_unused.
    + split_and!; [by eapply Hdis| |done]. split; [done|]. apply Hbs; [apply keeps_refl|by apply Hkn].
  - destruct (h =? 0); [|discriminate]. destruct (spend_all _ _) as [[u' spent]|] eqn:Eu; [|discriminate].
    injection Ei as <- <-. destruct (spend_all_spec _ _ _ _ Hu Eu) as (Hg & Hk & Hun & Hback).
    split_and!; [|split; [done|by apply Hbs]|done].
    eapply (Hdis (pg_tables s) Unknown); [|done|done]. by rewrite Hback.
  - discriminate.
Qed.

Lemma failed_undone h s m6id s' :
  peg_ok s → status_is s m6id Failed = false →
  connect_withdrawal_bundle_failed h s m6id = Ok s' →
  disconnect_withdrawal_bundle_failed h s' m6id = Ok s ∧ peg_ok s' ∧
  ∀ k, unused (pg_tables s) k → unused (pg_tables s') k.
Proof.
  intros [Hu Hb] Hne Hc. unfold connect_withdrawal_bundle_failed, status_is in *.
  destruct (withdrawal_bundles s !! m6id) as [[info status]|] eqn:Es; [|discriminate]. simpl in Hc.
  rewrite Hne in Hc. destruct (is_submitted (hs_value (rb_latest status))) eqn:Esub; [|discriminate].
  simpl in Hc. destruct (match info with Known _ => _ | _ => _ end) as [s1|] eqn:Ei; [|discriminate].
  simpl in Hc. destruct (push_status status Failed h) as [status'|] eqn:Epush; [|discriminate].
  injection Hc as <-. apply push_status_inv in Epush as (Hlat & Hpop & _).
  pose proof (Hb _ _ Es) as Hbok.
  assert (∀ u, bundle_ok u m6id (info, status')) as Hbok'.
  { intros u. unfold bundle_ok in *. cbn [fst snd] in *. rewrite Hlat. destruct info; [|done..].
    split; [apply Hbok|done]. }
  destruct info as [b| |spend]; cbn in Ei.
  - destruct Hbok as [Hent Hspent]. cbn [fst snd] in *. case_bool_decide as Hsu.
    + injection Ei as <-. split_and!; [|split; [done|]; cbn; eapply bundles_update; [exact Hb|apply keeps_refl|done]|done].
      pop_status Hpop Esub. by destruct s.
    + destruct (match latest_failed_withdrawal_bundle s with Some _ => _ | None => _ end)
        as [failed|] eqn:Ef; [|discriminate]. injection Ei as <-.
      assert (hs_value (rb_latest status) = Submitted) as Hsubm.
      { destruct (hs_value (rb_latest status)); simpl in *; congruence. }
      specialize (Hspent Hsubm). pose proof (entries_NoDup _ Hent) as Hnd.
      assert (rb_pop failed = (latest_failed_withdrawal_bundle s, {| hs_value := m6id; hs_height := h |})) as Hfp.
      { destruct (latest_failed_withdrawal_bundle s) as [r|]; [|by injection Ef as <-].
        unfold map_err in Ef. destruct (rb_push r m6id h) eqn:Er; [|discriminate]. injection Ef as <-.
        by apply rb_push_inv in Er as (_ & -> & _). }
      destruct (reinstate_fold out_of (pg_tables s) _ Hu Hent Hnd) as (Hg & _ & Hk & Hst).
      { eapply Forall_impl; [exact Hspent|]. intros e He. cbn beta in *. rewrite He. eauto. }
      split_and!.
      * unfold disconnect_withdrawal_bundle_failed. simpl. rewrite lookup_insert_eq. simpl. rewrite Hpop. simpl.
        rewrite Z.eqb_refl. simpl. rewrite Esub. simpl. rewrite (bool_decide_false (_ = SubmittedUnexpected)) by done.
        rewrite (reinstate_undone out_of NoUtxo m6id (pg_tables s)) by (done || (symmetry; apply Permutation_rev)).
        simpl. rewrite Hfp. simpl. rewrite bool_decide_true, Z.eqb_refl by done.
        peg_record. rewrite insert_insert_eq, insert_id by done. by destruct s.
      * split; [exact Hg|]. cbn. eapply bundles_update; [exact Hb| |apply Hbok'].
        intros k so Hso Hin. rewrite Hst, bool_decide_false; [done|]. intros (e & -> & He)%list_elem_of_fmap.
        rewrite Forall_forall in Hspent. specialize (Hspent e He). cbn beta in Hspent.
        rewrite Hso in Hspent. injection Hspent as ->. by apply Hin.
      * intros k [Hk1 Hk2]. cbn. unfold unused. rewrite Hk, Hst.
        rewrite !bool_decide_false; [done|]. intros (e & -> & He)%list_elem_of_fmap.
        rewrite Forall_forall in Hspent. specialize (Hspent e He). cbn beta in Hspent. congruence.
  - injection Ei as <-. split_and!; [|by split; [|eapply bundles_update; [exact Hb|apply keeps_refl|]]|done].
    pop_status Hpop Esub. by destruct s.
  - injection Ei as <-. split_and!; [|by split; [|eapply bundles_update; [exact Hb|apply keeps_refl|]]|done].
    pop_status Hpop Esub. by destruct s.
Qed.

(** ** Reverting the events of a block *)

Definition event_key (e : bytes * BlockEvent) : option bytes :=
  match e.2 with EvDeposit d => Some (from_outpoint (deposit_outpoint d)) | _ => None end.

(** A deposit creates an outpoint that names its output. *)
Definition event_ok (e : bytes * BlockEvent) : Prop :=
  match e.2 with
  | EvDeposit d => outpoint_ok (deposit_outpoint d) ∧
                   out_of (from_outpoint (deposit_outpoint d)) = dep_output d
  | _ => True
  end.

(** No bundle is confirmed or failed twice in a row. *)
Definition not_repeated s (e : bytes * BlockEvent) : bool :=
  match e.2 with
  | EvWithdrawalBundle {| we_m6id := m; we_status := EvConfirmed |} => negb (status_is s m Confirmed)
  | EvWithdrawalBundle {| we_m6id := m; we_status := EvFailed |} => negb (status_is s m Failed)
  | _ => true
  end.

Fixpoint effective (h : Z) (lp : EventLoop) (l : list (bytes * BlockEvent)) : bool :=
  match l with
  | [] => true
  | e :: l => not_repeated (lp_state lp) e &&
              match connect_2wpd_event h lp e with Ok lp => effective h lp l | Err _ => true end
  end.

Lemma event_undone h lp e lp' :
  peg_ok (lp_state lp) → event_ok e → not_repeated (lp_state lp) e = true →
  (∀ k, event_key e = Some k → unused (pg_tables (lp_state lp)) k) →
  connect_2wpd_event h lp e = Ok lp' →
  peg_ok (lp_state lp') ∧
  (∀ k, event_key e ≠ Some k → unused (pg_tables (lp_state lp)) k → unused (pg_tables (lp_state lp')) k) ∧
  (∀ dl, dl_state dl = lp_state lp' → ∃ dl', disconnect_event h dl e = Ok dl' ∧ dl_state dl' = lp_state lp).
Proof.
  destruct e as [hash [d|[m6id st]]]; unfold event_ok, event_key, not_repeated; cbn [snd].
  - intros [Hu Hb] [Hop Hname] _ Hfr [= <-]. cbn [lp_state].
    destruct (Hfr _ eq_refl) as [Hn1 Hn2]. destruct Hu as [[Hidx Hdis] Hkeys Hnamed].
    set (op := deposit_outpoint d) in *.
    assert (∀ k, <[from_outpoint op := dep_output d]> (utxos (pg_tables (lp_state lp))) !! k
      = if bool_decide (k = from_outpoint op) then Some (dep_output d) else utxos (pg_tables (lp_state lp)) !! k) as Hl.
    { intros k. case_bool_decide; [subst; by rewrite lookup_insert_eq|by rewrite lookup_insert_ne]. }
    split_and!.
    + split; [split|exact Hb]; simpl.
      * split; [apply insert_index_ok; [done|done|congruence]|]. intros k. simpl. rewrite Hl.
        case_bool_decide; [subst; by right|apply Hdis].
      * intros k o. rewrite Hl. case_bool_decide; [|apply Hkeys]. intros _. subst. eauto.
      * intros k o. rewrite Hl. case_bool_decide; [subst; congruence|apply Hnamed].
    + intros k Hk [H1 H2]. split; simpl; [|done]. rewrite lookup_insert_ne by congruence. done.
    + intros dl Hdl. unfold disconnect_event, delete_utxo. rewrite Hdl. simpl. fold op. rewrite lookup_insert_eq. simpl.
      eexists. split; [reflexivity|]. simpl. destruct lp as [s ev db bb]. simpl in *. peg_record.
      destruct s as [? u ? ? ? ? ? ?]. simpl in *. f_equal. destruct u as [u idx st]. simpl in *. f_equal.
      * by rewrite delete_insert_id.
      * assert ((out_address (dep_output d), op) ∉ idx) as Hni.
        { intros Hin. apply Hidx in Hin as (_ & o & Ho & _). simpl in Ho. congruence. }
        set_solver.
  - intros Hok _ Hrep _ Hc. simpl in Hc.
    assert (∀ s1 ev1, connect_withdrawal_bundle_event h hash (lp_state lp) (lp_events lp)
      {| we_m6id := m6id; we_status := st |} = Ok (s1, ev1) →
      disconnect_withdrawal_bundle_event h s1 {| we_m6id := m6id; we_status := st |} = Ok (lp_state lp) ∧
      peg_ok s1 ∧ ∀ k, unused (pg_tables (lp_state lp)) k → unused (pg_tables s1) k) as Hev.
    { intros s1 ev1. unfold connect_withdrawal_bundle_event, disconnect_withdrawal_bundle_event. simpl.
      destruct st.
      - by apply submitted_undone.
      - destruct (connect_withdrawal_bundle_confirmed _ _ _ _) eqn:E; [|discriminate]. intros [= <- <-].
        apply negb_true_iff in Hrep. by eapply confirmed_undone.
      - destruct (connect_withdrawal_bundle_failed _ _ _) eqn:E; [|discriminate]. intros [= <- <-].
        apply negb_true_iff in Hrep. by eapply failed_undone. }
    destruct (connect_withdrawal_bundle_event _ _ _ _ _) as [[s1 ev1]|]; [|discriminate].
    destruct (Hev s1 ev1 eq_refl) as (Hd & Hp & Hun). injection Hc as <-. cbn [lp_state].
    split_and!; [done|by auto|]. intros dl Hdl. unfold disconnect_event. rewrite Hdl, Hd. simpl. by eexists.
Qed.

End Events.
