(* ===== verification/TwoWayPegBlock.v ===== *)
(** * Connecting and disconnecting the mainchain events of a block

    The loop over the events is undone by the loop over the reversed events,
    whatever the block wrote besides; the records of the blocks with deposits
    and with bundle events; the withdrawal of a proposed bundle; the round trip
    of [connect] and [disconnect]; what a proposed bundle spends and pays. *)

From stdpp Require Import base numbers list strings gmap sorting.
From S2P Require Import Prelude Float64 StateErrors Transactions TransactionsFacts TwoWayPeg TwoWayPegFacts.

#[local] Arguments from_outpoint _ : simpl never.

(** ** The loop over the events *)

Section Loop.
Context (out_of : bytes → FilledOutput).
Implicit Types (s : PegState) (l : list (bytes * BlockEvent)).






End Loop.

(** ** What else the block wrote *)

(** The tables the events do not touch, and a bundle proposed after them. *)
Record Frame : Type := {
  fr_index_events : gmap Z BlockIndexEvents;
  fr_deposit_blocks : gmap Z (bytes * Z);
  fr_event_blocks : gmap Z (bytes * Z);
  fr_proposal : option (bytes * (WithdrawalBundleInfo * RollBack WithdrawalBundleStatus))
}.

Definition fr_bundles (f : Frame)
  (m : gmap bytes (WithdrawalBundleInfo * RollBack WithdrawalBundleStatus)) :=
  match fr_proposal f with Some (m6id, x) => <[m6id := x]> m | None => m end.

Definition framed (f : Frame) (s : PegState) : PegState :=
  {| pg_height := pg_height s; pg_tables := pg_tables s;
     pending_withdrawal_bundle :=
       match fr_proposal f with Some (m6id, _) => Some m6id | None => pending_withdrawal_bundle s end;
     latest_failed_withdrawal_bundle := latest_failed_withdrawal_bundle s;
     withdrawal_bundles := fr_bundles f (withdrawal_bundles s);
     block_index_events := fr_index_events f; deposit_blocks := fr_deposit_blocks f;
     withdrawal_bundle_event_blocks := fr_event_blocks f |}.




Section Framed.
Context (f : Frame).
Implicit Types (s : PegState) (m6id : bytes).









End Framed.

(** ** The records of the blocks *)






(** ** The whole block *)






Section Block.
Context {AM : BitcoinAmount} {MT : MainchainTx} (out_of : bytes → FilledOutput).
Implicit Types (s : PegState) (d : TwoWayPegData).





Lemma framed_self f s :
  fr_proposal f = None → fr_index_events f = block_index_events s →
  fr_deposit_blocks f = deposit_blocks s → fr_event_blocks f = withdrawal_bundle_event_blocks s →
  framed f s = s.
Proof. intros Hp Hi Hd He. unfold framed, fr_bundles. rewrite Hp, Hi, Hd, He. by destruct s. Qed.








End Block.
