(* ===== verification/WithdrawalBundles.v ===== *)
(** * What a proposed withdrawal bundle spends and pays

    The abstract bundle of a list of mainchain addresses spends every unspent
    withdrawal to them and pays each address the sum of its withdrawals.
    [collect_withdrawal_bundle] refines it: it aggregates in one pass over the
    unspent outputs, sorts, and fills the bundle until it is full. *)

From stdpp Require Import base numbers list strings gmap sorting.
From S2P Require Import Prelude Float64 StateErrors Transactions TransactionsFacts TwoWayPeg TwoWayPegFacts.

#[local] Arguments from_outpoint _ : simpl never.

Section Aggregate.
Context {AM : BitcoinAmount} {MT : MainchainTx}.
Implicit Types (a : bytes) (l : list (bytes * FilledOutput)) (m : gmap bytes AggregatedWithdrawal).

(** ** The specification *)

Definition withdrawal_of (o : FilledOutput) : option WithdrawalContent :=
  match out_content o with FBitcoinWithdrawal w => Some w | _ => None end.

(** The withdrawals to an address among the entries of the unspent outputs. *)
Definition withdrawals_to a l : list WithdrawalContent :=
  filter (fun w => w_main_address w = a) (omap (fun e => withdrawal_of e.2) l).
Definition owed a l : Z := sumZ (map w_value (withdrawals_to a l)).
Definition fees_of a l : Z := sumZ (map w_main_fee (withdrawals_to a l)).

(** [op] is an unspent withdrawal to [a] with the output [o]. *)
Definition withdraws_to l a op o : Prop :=
  outpoint_ok op ∧ (from_outpoint op, o) ∈ l ∧ ∃ w, withdrawal_of o = Some w ∧ w_main_address w = a.

(** The keys encode outpoints and are distinct. *)
Definition entries_ok l : Prop :=
  NoDup l.*1 ∧ ∀ k o, (k, o) ∈ l → ∃ op, outpoint_ok op ∧ k = from_outpoint op.

Definition aggregate_ok l a (agg : AggregatedWithdrawal) : Prop :=
  ag_main_address agg = a ∧ ag_value agg = owed a l ∧ ag_main_fee agg = fees_of a l ∧
  ∀ op o, ag_spend_utxos agg !! op = Some o ↔ withdraws_to l a op o.

Definition aggregated l m : Prop :=
  ∀ a, match m !! a with
       | Some agg => withdrawals_to a l ≠ [] ∧ aggregate_ok l a agg
       | None => withdrawals_to a l = []
       end.

Lemma withdrawals_to_snoc a l e :
  withdrawals_to a (l ++ [e]) = withdrawals_to a l ++
    match withdrawal_of e.2 with
    | Some w => if bool_decide (w_main_address w = a) then [w] else []
    | None => []
    end.
Proof.
  unfold withdrawals_to. rewrite omap_app, filter_app. f_equal. simpl.
  destruct (withdrawal_of e.2) as [w|]; [|done]. simpl. rewrite filter_cons, filter_nil.
  case_decide; [by rewrite bool_decide_true|by rewrite bool_decide_false].
Qed.

Lemma withdraws_to_snoc l a op o e :
  withdraws_to (l ++ [e]) a op o ↔
  withdraws_to l a op o ∨
  (outpoint_ok op ∧ e = (from_outpoint op, o) ∧ ∃ w, withdrawal_of o = Some w ∧ w_main_address w = a).
Proof. unfold withdraws_to. rewrite elem_of_app, list_elem_of_singleton. naive_solver. Qed.

Lemma withdraws_to_witness l a op o : withdraws_to l a op o → withdrawals_to a l ≠ [].
Proof.
  intros (_ & Hin & w & Hw & Ha) Hn. assert (w ∈ withdrawals_to a l) as H.
  { unfold withdrawals_to. apply list_elem_of_filter. split; [done|]. apply list_elem_of_omap. by exists (from_outpoint op, o). }
  rewrite Hn in H. by apply not_elem_of_nil in H.
Qed.

(** ** One pass over the outputs *)

Lemma aggregate_step_ok l m e m' :
  entries_ok (l ++ [e]) → aggregated l m → aggregate_step m e = Ok m' → aggregated (l ++ [e]) m'.
Proof.
  intros [Hnd Hkeys] Hm. destruct e as [k o].
  destruct (Hkeys k o) as (op & Hop & Hk); [apply elem_of_app; right; by left|].
  unfold aggregate_step. cbn [fst snd]. destruct (withdrawal_of o) as [w|] eqn:Ew.
  2: { intros Hs. assert (m' = m) as -> by (unfold withdrawal_of in Ew; destruct (out_content o); congruence).
       intros a. specialize (Hm a). rewrite withdrawals_to_snoc. cbn [snd]. rewrite Ew, app_nil_r.
       destruct (m !! a) as [agg|]; [|done]. destruct Hm as (Hne & Ha & Hv & Hf & Hsp). split; [done|].
       split_and!; [done|..]; unfold owed, fees_of; rewrite ?withdrawals_to_snoc; cbn [snd]; rewrite ?Ew, ?app_nil_r; [done..|].
       intros op' o'. rewrite Hsp, withdraws_to_snoc. split; [by left|]. intros [?|(_ & [= _ <-] & w & Hw & _)]; [done|congruence]. }
  assert (out_content o = FBitcoinWithdrawal w) as -> by (unfold withdrawal_of in Ew; destruct (out_content o); congruence).
  set (agg := default _ _).
  assert (aggregate_ok l (w_main_address w) agg) as (Ha & Hv & Hf & Hsp).
  { subst agg. specialize (Hm (w_main_address w)). destruct (m !! w_main_address w) as [agg|]; simpl; [by destruct Hm|].
    unfold aggregate_ok, owed, fees_of. rewrite Hm. split_and!; [done..|]. simpl. intros op' o'. rewrite lookup_empty.
    split; [done|]. by intros ?%withdraws_to_witness. }
  unfold amount_checked_add. destruct (_ <? ag_value agg + _); simpl; [discriminate|].
  destruct (_ <? ag_main_fee agg + _); simpl; [discriminate|].
  rewrite Hk, to_from_outpoint by done. simpl. intros [= <-]. intros a.
  rewrite withdrawals_to_snoc. cbn [snd]. rewrite Ew. destruct (decide (w_main_address w = a)) as [<-|Hne].
  - rewrite lookup_insert_eq, bool_decide_true by done. split; [by destruct (withdrawals_to _ l)|].
    unfold aggregate_ok, owed, fees_of. rewrite withdrawals_to_snoc. cbn [snd]. rewrite Ew, bool_decide_true by done.
    rewrite !map_app, !sumZ_app. simpl. rewrite !Z.add_0_r, Ha, Hv, Hf. split_and!; [done..|].
    intros op' o'. rewrite withdraws_to_snoc, <- Hsp. destruct (decide (op = op')) as [<-|Hne].
    + rewrite lookup_insert_eq. split; [intros [= <-]; right; eauto 6|].
      intros [Hin|(_ & [= <-] & _)]; [|done]. apply Hsp in Hin as (_ & Hin & _). exfalso.
      rewrite fmap_app, NoDup_app in Hnd. destruct Hnd as (_ & Hdis & _).
      apply (Hdis k); [rewrite Hk; by apply (list_elem_of_fmap_2 fst _ _ Hin)|by left].
    + rewrite lookup_insert_ne by done. split; [by left|]. intros [?|(Hop' & [= He _] & _)]; [done|].
      by apply from_outpoint_inj in He.
  - rewrite lookup_insert_ne, bool_decide_false, app_nil_r by done. specialize (Hm a).
    destruct (m !! a) as [agg'|]; [|done]. destruct Hm as (? & Ha' & Hv' & Hf' & Hsp'). split; [done|].
    unfold aggregate_ok, owed, fees_of. rewrite withdrawals_to_snoc. cbn [snd].
    rewrite Ew, bool_decide_false, app_nil_r by done. split_and!; [done..|].
    intros op' o'. rewrite Hsp', withdraws_to_snoc. split; [by left|].
    intros [?|(_ & [= _ <-] & w' & Hw' & <-)]; [done|]. congruence.
Qed.

Lemma aggregate_all l m' :
  entries_ok l → try_fold aggregate_step ∅ l = Ok m' → aggregated l m'.
Proof.
  intros Hl. assert (aggregated [] ∅) as H0 by (intros a; by rewrite lookup_empty).
  enough (∀ k seen m, l = seen ++ k → aggregated seen m → try_fold aggregate_step m k = Ok m' → aggregated l m')
    as H by (by apply (H l [] ∅)).
  induction k as [|e k IH]; intros seen m Heq Hm Hf.
  { rewrite app_nil_r in Heq. injection Hf as <-. by subst. }
  simpl in Hf. destruct (aggregate_step m e) as [m1|] eqn:E; [|discriminate].
  apply (IH (seen ++ [e]) m1); [by rewrite <- app_assoc| |done]. eapply aggregate_step_ok; [|done..].
  rewrite Heq, cons_middle, app_assoc in Hl. destruct Hl as [Hnd Hk]. split.
  - rewrite fmap_app in Hnd. by apply NoDup_app in Hnd as [? _].
  - intros k' o' Hin. eapply Hk. apply elem_of_app. by left.
Qed.

(** ** Filling the bundle *)

(** The draft after the aggregates [sel] were put in. *)
Definition draft_with (d : BundleDraft) (sel : list AggregatedWithdrawal) (d' : BundleDraft) : Prop :=
  bd_fee d' = bd_fee d + sumZ (map ag_main_fee sel) ∧
  bd_outputs d' = bd_outputs d ++
    map (fun x => {| to_value := ag_value x; to_script_pubkey := script_pubkey (ag_main_address x) |}) sel ∧
  ∀ op o, bd_spend_utxos d' !! op = Some o →
    bd_spend_utxos d !! op = Some o ∨ ∃ x, x ∈ sel ∧ ag_spend_utxos x !! op = Some o.

Lemma fill_bundle_selects d (l : list AggregatedWithdrawal) d' :
  fill_bundle d l = Ok d' → ∃ sel, sublist sel l ∧ draft_with d sel d' ∧
    (∀ op, is_Some (bd_spend_utxos d !! op) ∨ (∃ x, x ∈ sel ∧ is_Some (ag_spend_utxos x !! op)) →
           is_Some (bd_spend_utxos d' !! op)).
Proof.
  revert d. induction l as [|a l IH]; intros d Hf; simpl in Hf.
  { injection Hf as <-. exists []. unfold draft_with. split_and!; [apply sublist_nil_l|simpl; lia|by rewrite app_nil_r|by left|].
    intros op [?|(a & Ha & _)]; [done|by apply not_elem_of_nil in Ha]. }
  assert (∀ d1, bd_fee d1 = bd_fee d → bd_outputs d1 = bd_outputs d → bd_spend_utxos d1 = bd_spend_utxos d →
    ∃ sel, sublist sel (a :: l) ∧ draft_with d sel d1 ∧
    (∀ op, is_Some (bd_spend_utxos d !! op) ∨ (∃ x, x ∈ sel ∧ is_Some (ag_spend_utxos x !! op)) →
           is_Some (bd_spend_utxos d1 !! op))) as Hstop.
  { intros d1 E1 E2 E3. exists []. unfold draft_with. rewrite E1, E2, E3.
    split_and!; [apply sublist_nil_l|simpl; lia|by rewrite app_nil_r|by left|].
    intros op [?|(x & Hx & _)]; [done|by apply not_elem_of_nil in Hx]. }
  assert (fill_bundle d l = Ok d' → ∃ sel, sublist sel (a :: l) ∧ draft_with d sel d' ∧
    (∀ op, is_Some (bd_spend_utxos d !! op) ∨ (∃ x, x ∈ sel ∧ is_Some (ag_spend_utxos x !! op)) →
           is_Some (bd_spend_utxos d' !! op))) as Hskip.
  { intros (sel & Hsub & Hd)%IH. exists sel. split; [by apply sublist_cons|done]. }
  destruct (_ <? Z.of_nat _ + 1); [injection Hf as <-; by apply Hstop|].
  destruct (_ <? Z.of_nat _); [by apply Hskip|]. destruct (txout_size _) as [size|]; [|by apply Hskip].
  destruct (checked_add_u32 _ _) as [total|]; [|injection Hf as <-; by apply Hstop].
  destruct (predict_weight _ _); [|injection Hf as <-; by apply Hstop].
  unfold amount_checked_add in Hf. destruct (_ <? _); [discriminate|]. simpl in Hf.
  destruct (IH _ Hf) as (sel & Hsub & (Hfee & Hout & Hsp) & Hin). simpl in *. exists (a :: sel). unfold draft_with.
  split_and!; [by apply sublist_skip|simpl; lia|by rewrite Hout, <- app_assoc| |].
  - intros op o Hop. destruct (Hsp op o Hop) as [Hu|(x & Hx & Ho)]; [|right; exists x; split; [by right|done]].
    apply lookup_union_Some_raw in Hu as [Hu|[_ Hu]]; [right; exists a; split; [by left|done]|by left].
  - intros op Hop. apply Hin. rewrite lookup_union_is_Some.
    destruct Hop as [?|(x & [->|Hx]%elem_of_cons & Ho)]; [tauto|tauto|right; eauto].
Qed.

(** ** The refinement *)

(** The bundle of the addresses [addrs] at a height: every unspent withdrawal
    to them is spent, each is paid what it is owed, and the fees are theirs. *)
Definition bundle_of (u : UtxoTables) (height : Z) (addrs : list bytes) (b : WithdrawalBundle) : Prop :=
  let l := db_iter bytes_cmp (utxos u) in
  (∀ op o, spend_utxos b !! op = Some o ↔ ∃ a, a ∈ addrs ∧ withdraws_to l a op o) ∧
  wb_tx_output b =
    {| to_value := 0; to_script_pubkey := op_return (be_bytes_u64 (sumZ (map (fun a => fees_of a l) addrs))) |} ::
    {| to_value := 0; to_script_pubkey := op_return (inputs_commitment
         (map fst (bundle_entries (spend_utxos b)) ++ [OpRegular (replicate 32 0) height])) |} ::
    map (fun a => {| to_value := owed a l; to_script_pubkey := script_pubkey a |}) addrs.

(** Sorted or not, the aggregated withdrawals are to distinct addresses. *)
Lemma aggregated_addresses l m cmp : aggregated l m → NoDup (ag_main_address <$> sort_by cmp (map snd (map_to_list m))).
Proof.
  intros Hm. change (NoDup (map ag_main_address (sort_by cmp (map snd (map_to_list m))))). rewrite sort_by_perm, map_map.
  assert (map (fun x => ag_main_address x.2) (map_to_list m) = (map_to_list m).*1) as ->; [|apply NoDup_fst_map_to_list].
  apply map_ext_in. intros [a x] Hin%list_elem_of_In%elem_of_map_to_list. simpl. pose proof (Hm a) as Ha. rewrite Hin in Ha.
  by apply Ha.
Qed.

(** C26: the bundle [collect_withdrawal_bundle] returns is the bundle of some
    distinct addresses that have unspent withdrawals, and fits the weight limit. *)
Theorem collect_refines_bundle u h b :
  (∀ k o, utxos u !! k = Some o → ∃ op, outpoint_ok op ∧ k = from_outpoint op) →
  collect_withdrawal_bundle u h = Ok (Some b) →
  tx_weight (wb_tx_output b) ≤ MAX_STANDARD_WEIGHT ∧
  ∃ addrs, NoDup addrs ∧ bundle_of u h addrs b ∧
    Forall (fun a => withdrawals_to a (db_iter bytes_cmp (utxos u)) ≠ []) addrs.
Proof.
  intros Hkeys Hc. unfold collect_withdrawal_bundle in Hc.
  destruct (try_fold aggregate_step ∅ _) as [m|] eqn:Em; [|discriminate]. simpl in Hc.
  set (l := db_iter bytes_cmp (utxos u)) in *.
  assert (aggregated l m) as Hm.
  { apply aggregate_all; [|done]. split; [apply db_iter_keys_NoDup|]. intros k o Hin%elem_of_db_iter. by eapply Hkeys. }
  destruct (bool_decide _); [discriminate|].
  destruct (fill_bundle _ _) as [d|] eqn:Ed; [|discriminate]. simpl in Hc.
  unfold WithdrawalBundle_new in Hc. destruct (Z.ltb_spec MAX_STANDARD_WEIGHT (tx_weight
    ({| to_value := 0; to_script_pubkey := op_return (be_bytes_u64 (bd_fee d)) |} ::
     {| to_value := 0; to_script_pubkey := op_return (inputs_commitment
         (map fst (bundle_entries (bd_spend_utxos d)) ++ [OpRegular (replicate 32 0) h])) |} ::
     bd_outputs d))) as [|Hw]; [discriminate|]. simpl in Hc.
  destruct (_ <? _) in Hc; [discriminate|]. injection Hc as <-. split; [exact Hw|].
  destruct (fill_bundle_selects _ _ _ Ed) as (sel & Hsub & (Hfee & Hout & Hsp) & Hall). simpl in *.
  assert (∀ x, x ∈ sel → m !! ag_main_address x = Some x) as Hsel.
  { intros x Hx. pose proof (elem_of_sublist _ _ _ Hx Hsub) as Hxm. rewrite sort_by_perm in Hxm.
    apply list_elem_of_fmap in Hxm as ([a y] & -> & Hin%elem_of_map_to_list). simpl.
    pose proof (Hm a) as Ha. rewrite Hin in Ha. destruct Ha as [_ [-> _]]. done. }
  assert (∀ x, x ∈ sel → withdrawals_to (ag_main_address x) l ≠ [] ∧ aggregate_ok l (ag_main_address x) x) as Hagg.
  { intros x Hx. pose proof (Hm (ag_main_address x)) as Ha. by rewrite (Hsel x Hx) in Ha. }
  assert (map (fun a => fees_of a l) (map ag_main_address sel) = map ag_main_fee sel) as Hfees.
  { rewrite map_map. apply map_ext_in. intros x Hx%list_elem_of_In. by destruct (Hagg x Hx) as [_ (_ & _ & -> & _)]. }
  exists (map ag_main_address sel). unfold bundle_of. split_and!.
  - eapply sublist_NoDup; [by eapply aggregated_addresses|exact (fmap_sublist ag_main_address _ _ Hsub)].
  - intros op o. simpl. split.
    + intros Ho. destruct (Hsp op o Ho) as [He|(x & Hx & Hxo)]; [by rewrite lookup_empty in He|].
      exists (ag_main_address x). split; [by apply (list_elem_of_fmap_2 ag_main_address)|].
      by apply (Hagg x Hx) in Hxo.
    + intros (a & (x & -> & Hx)%list_elem_of_fmap & Hw'). apply (Hagg x Hx) in Hw' as Hxo.
      destruct (Hall op) as [o' Ho']; [right; eauto|]. rewrite Ho'. destruct (Hsp op o' Ho') as [He|(y & Hy & Hyo)].
      { by rewrite lookup_empty in He. }
      apply (Hagg y Hy) in Hyo. destruct Hyo as (_ & Hin & _), Hw' as (_ & Hin' & _).
      apply elem_of_db_iter in Hin, Hin'. congruence.
  - fold l. rewrite Hfees. cbn [wb_tx_output spend_utxos]. rewrite Hfee, Hout, Z.add_0_l.
    cbn [app]. do 2 f_equal. rewrite map_map.
    apply map_ext_in. intros x Hx%list_elem_of_In. by destruct (Hagg x Hx) as [_ (_ & -> & _)].
  - apply Forall_forall. intros a (x & -> & Hx)%list_elem_of_fmap. by apply Hagg.
Qed.

End Aggregate.
