(* ===== verification/TwoWayPegSamples.v ===== *)
(** * Concrete runs of the two-way peg

    A small chain: one withdrawal and one plain output, a pending bundle, and
    blocks that deposit, submit, confirm and propose.  The runs instantiate the
    theorems on the peg and show the cases the round trip excludes. *)

From stdpp Require Import base numbers list strings gmap sorting.
From S2P Require Import Prelude Float64 StateErrors Transactions TransactionsFacts TwoWayPeg TwoWayPegFacts.
From S2P Require Import TwoWayPegBlock WithdrawalBundles.

#[local] Arguments from_outpoint _ : simpl never.

(** Sizes and ids of a toy mainchain transaction format. *)
#[local] Instance toy_mainchain : MainchainTx := {|
  script_pubkey a := 118 :: a;
  main_address_cmp := bytes_cmp;
  op_return b := 106 :: b;
  varint_size _ := 1;
  AMOUNT_SIZE := 8;
  LOCKTIME_SIZE := 4;
  WITNESS_SCALE_FACTOR := 4;
  MAX_STANDARD_WEIGHT := 400000;
  tx_weight outs := 4 * (10 + sumZ (map (fun o => 9 + Z.of_nat (length (to_script_pubkey o))) outs));
  compute_txid outs := flat_map to_script_pubkey outs;
  inputs_commitment ops := flat_map from_outpoint ops
|}.

Definition no_tables : UtxoTables := {| utxos := ∅; utxos_by_address := ∅; stxos := ∅ |}.

Definition op_withdrawal : OutPoint := OpRegular (replicate 32 2) 0.
Definition op_plain : OutPoint := OpCoinbase (replicate 32 1) 0.
Definition op_deposit : OutPoint := OpDeposit (replicate 32 3) 1.
Definition out_withdrawal : FilledOutput :=
  {| out_address := [1]; out_memo := [];
     out_content := FBitcoinWithdrawal {| w_value := 90; w_main_fee := 10; w_main_address := [6] |} |}.
Definition out_plain : FilledOutput :=
  {| out_address := [1]; out_content := FBitcoin 600; out_memo := [] |}.

Definition peg_tables : UtxoTables :=
  insert_utxo (insert_utxo no_tables op_withdrawal out_withdrawal) op_plain out_plain.

Definition no_bundle : WithdrawalBundle := {| spend_utxos := ∅; wb_tx_output := [] |}.
Definition a_bundle : WithdrawalBundle :=
  match collect_withdrawal_bundle peg_tables 2 with Ok (Some b) => b | _ => no_bundle end.
Definition a_m6id : bytes := [7; 7].

(** The bundle of [peg_tables] spends its one withdrawal. *)
Lemma a_bundle_collected : collect_withdrawal_bundle peg_tables 2 = Ok (Some a_bundle).
Proof.
  unfold a_bundle.
  assert (match collect_withdrawal_bundle peg_tables 2 with Ok (Some _) => true | _ => false end = true)
    as H by (vm_compute; reflexivity).
  destruct (collect_withdrawal_bundle peg_tables 2) as [[b|]|]; [reflexivity|discriminate..].
Qed.

Lemma peg_tables_keys k o :
  utxos peg_tables !! k = Some o → ∃ op, outpoint_ok op ∧ k = from_outpoint op.
Proof.
  unfold peg_tables. simpl. intros [[<- _]|[_ [[<- _]|[_ H]]%lookup_insert_Some]]%lookup_insert_Some.
  - exists op_plain. split; [split; [done|split; lia]|done].
  - exists op_withdrawal. split; [split; [done|split; lia]|done].
  - by rewrite lookup_empty in H.
Qed.

Lemma collect_refines_bundle_witness :
  tx_weight (wb_tx_output a_bundle) ≤ MAX_STANDARD_WEIGHT ∧
  ∃ addrs, NoDup addrs ∧ bundle_of peg_tables 2 addrs a_bundle ∧
    Forall (fun a => withdrawals_to a (db_iter bytes_cmp (utxos peg_tables)) ≠ []) addrs.
Proof.
  apply (collect_refines_bundle peg_tables 2 a_bundle).
  - exact peg_tables_keys.
  - exact a_bundle_collected.
Defined.

(** A bundle pending since height 2, and a block at height 3 that deposits and
    submits it. *)
Definition peg_pending (h : Z) : PegState :=
  {| pg_height := Some h; pg_tables := peg_tables; pending_withdrawal_bundle := Some a_m6id;
     latest_failed_withdrawal_bundle := None;
     withdrawal_bundles := {[ a_m6id := (Known {| spend_utxos := {[ op_withdrawal := out_withdrawal ]};
                                                   wb_tx_output := [] |}, rb_new Pending 2) ]};
     block_index_events := ∅; deposit_blocks := ∅; withdrawal_bundle_event_blocks := ∅ |}.
Definition a_submission : WithdrawalBundleEvent := {| we_m6id := a_m6id; we_status := EvSubmitted |}.







(** ** What the round trip excludes *)

Definition after_roundtrip (s : PegState) (d : TwoWayPegData) : result Error PegState :=
  s' ← connect s d; disconnect s' d.

(** A block that submits the pending bundle and proposes a new one (the new
    withdrawal arrived meanwhile): reverting the submission makes the old bundle
    pending again before the proposal is looked at, so the new bundle keeps its
    record. *)
Definition op_new : OutPoint := OpRegular (replicate 32 5) 0.
Definition out_new : FilledOutput :=
  {| out_address := [1]; out_memo := [];
     out_content := FBitcoinWithdrawal {| w_value := 40; w_main_fee := 2; w_main_address := [8] |} |}.
Definition peg_more (h : Z) : PegState :=
  set_tables (peg_pending h) (insert_utxo peg_tables op_new out_new).

Example proposal_left_behind :
  match after_roundtrip (peg_more 5) [(replicate 32 9, [EvWithdrawalBundle a_submission])] with
  | Ok s => size (withdrawal_bundles (peg_more 5)) = 1%nat ∧ size (withdrawal_bundles s) = 2%nat
  | Err _ => False
  end.
Proof. vm_compute. split; reflexivity. Qed.

(** A second confirmation of a bundle, in a later block, is accepted and cannot
    be reverted. *)
Definition peg_confirmed : PegState :=
  {| pg_height := Some 3; pg_tables := no_tables; pending_withdrawal_bundle := None;
     latest_failed_withdrawal_bundle := None;
     withdrawal_bundles := {[ a_m6id := (Known no_bundle,
       {| rb_head := {| hs_value := Submitted; hs_height := 1 |};
          rb_tail := [{| hs_value := Confirmed; hs_height := 2 |}] |}) ]};
     block_index_events := ∅; deposit_blocks := ∅; withdrawal_bundle_event_blocks := ∅ |}.

Example reconfirmation_not_reverted :
  let d := [(replicate 32 9, [EvWithdrawalBundle {| we_m6id := a_m6id; we_status := EvConfirmed |}])] in
  is_ok (connect peg_confirmed d) = true ∧
  match after_roundtrip peg_confirmed d with
  | Err (DatabaseError e) => e = "confirmed bundle height"%string
  | _ => False
  end.
Proof. vm_compute. split; reflexivity. Qed.

(** The records of the blocks are kept under little-endian indices: from the
    257th on, each overwrites the one before. *)
Definition full_blocks : gmap Z (bytes * Z) :=
  list_to_map (map (fun i => (i, ([i], i))) (range 0 256)).

Example block_record_overwritten :
  let m1 := push_block full_blocks (Some [1]) 300 in
  let m2 := push_block m1 (Some [2]) 301 in
  m1 !! 256 = Some ([1], 300) ∧ m2 !! 256 = Some ([2], 301) ∧ m2 !! 257 = None.
Proof. vm_compute. split; [|split]; reflexivity. Qed.
