(* ===== verification/Bodies.v ===== *)
(** * Block bodies

    Models of [Coinbase], [Body] and [Header] (src/lib/types/mod.rs) and of
    [Authorized] (src/lib/types/transaction/mod.rs): flattening the authorized
    transactions of a block into its body and taking them apart again, and the
    merkle root over the coinbase and the transactions. *)

From stdpp Require Import base numbers list strings gmap.
From S2P Require Import Prelude Float64 StateErrors Transactions.

(** ** Data *)

Record Coinbase : Type := { cb_memo : bytes; cb_outputs : list Output }.

Record Authorization : Type := { verifying_key : bytes; signature : bytes }.

Record AuthorizedTransaction : Type := {
  at_transaction : Transaction;
  at_authorizations : list Authorization;
  at_actor_proof : option Authorization
}.

Record Body : Type := {
  coinbase : Coinbase;
  transactions : list Transaction;
  authorizations : list Authorization;
  actor_proofs : list (option Authorization)
}.

Record Header : Type := {
  merkle_root : bytes;
  prev_side_hash : option bytes;
  prev_main_hash : bytes
}.

Inductive MalformedBodyError : Type := MalformedBody.

(** ** Bodies and authorized transactions *)

(** The three vectors the loop of [Body::new] extends. *)
Definition push_transaction (b : Body) (t : AuthorizedTransaction) : Body :=
  {| coinbase := coinbase b;
     transactions := transactions b ++ [at_transaction t];
     authorizations := authorizations b ++ at_authorizations t;
     actor_proofs := actor_proofs b ++ [at_actor_proof t] |}.

Definition Body_new (authorized_transactions : list AuthorizedTransaction) (cb : Coinbase) : Body :=
  foldl push_transaction {| coinbase := cb; transactions := []; authorizations := []; actor_proofs := [] |}
    authorized_transactions.

(** [iter.next()] repeated, failing when the iterator runs out. *)
Fixpoint take_authorizations (n : nat) (l : list Authorization)
  : result MalformedBodyError (list Authorization * list Authorization) :=
  match n with
  | O => Ok ([], l)
  | S n =>
      match l with
      | [] => Err MalformedBody
      | a :: l => '(taken, rest) ← take_authorizations n l; Ok (a :: taken, rest)
      end
  end.

Fixpoint authorize_each (txs : list Transaction) (auths : list Authorization)
  (proofs : list (option Authorization)) : result MalformedBodyError (list AuthorizedTransaction) :=
  match txs with
  | [] => Ok []
  | tx :: txs =>
      '(taken, rest) ← take_authorizations (length (tx_inputs tx)) auths;
      ts ← authorize_each txs rest (tail proofs);
      Ok ({| at_transaction := tx; at_authorizations := taken;
             at_actor_proof := match head proofs with Some p => p | None => None end |} :: ts)
  end.

Definition authorized_transactions (b : Body) : result MalformedBodyError (list AuthorizedTransaction) :=
  authorize_each (transactions b) (authorizations b) (actor_proofs b).

Definition get_inputs (b : Body) : list OutPoint := flat_map tx_inputs (transactions b).

Definition get_coinbase_value `{AM : BitcoinAmount} (b : Body) : result AmountOverflowError Z :=
  ok_or (amount_checked_sum (map output_bitcoin_value (cb_outputs (coinbase b)))) AmountOverflow.

(** ** The merkle root *)

(** The hash functions: of a transaction, of a coinbase with its outputs, and
    of two concatenated hashes. *)
Class BodyHashes : Type := {
  tx_txid : Transaction → Txid;
  coinbase_merkle_root : Coinbase → bytes;
  hash_pair : bytes → bytes → bytes
}.

Section Merkle.
Context {BH : BodyHashes}.

(** One pass of the loop: [chunks(2)], an odd last leaf is paired with itself. *)
Fixpoint next_level (l : list bytes) : list bytes :=
  match l with
  | [] => []
  | [a] => [hash_pair a a]
  | a :: b :: l => hash_pair a b :: next_level l
  end.

(** [while leaves.len() > 1]; each pass shortens the list, so its length is
    enough fuel. *)
Fixpoint merkle_levels (fuel : nat) (leaves : list bytes) : list bytes :=
  match fuel with
  | O => leaves
  | S fuel =>
      if (1 <? Z.of_nat (length leaves)) then merkle_levels fuel (next_level leaves) else leaves
  end.

Definition merkle_leaves (cb : Coinbase) (txs : list Transaction) : list bytes :=
  coinbase_merkle_root cb :: map tx_txid txs.

Definition compute_merkle_root (cb : Coinbase) (txs : list Transaction) : bytes :=
  hd [] (merkle_levels (length (merkle_leaves cb txs)) (merkle_leaves cb txs)).

End Merkle.

(** ** Correctness *)

Section Roundtrip.
Implicit Types (l : list AuthorizedTransaction).

Lemma foldl_push_transaction l b :
  foldl push_transaction b l =
  {| coinbase := coinbase b; transactions := transactions b ++ map at_transaction l;
     authorizations := authorizations b ++ flat_map at_authorizations l;
     actor_proofs := actor_proofs b ++ map at_actor_proof l |}.
Proof.
  revert b. induction l as [|t l IH]; intros b; simpl; [rewrite !app_nil_r; by destruct b|].
  rewrite IH. simpl. by rewrite <- !app_assoc.
Qed.

Lemma take_authorizations_app a r : take_authorizations (length a) (a ++ r) = Ok (a, r).
Proof. induction a as [|x a IH]; simpl; [done|]. by rewrite IH. Qed.

(** Taking a body apart gives back the authorized transactions it was made
    from, when each transaction carries one authorization per input. *)
Theorem body_roundtrip l cb :
  Forall (fun t => length (at_authorizations t) = length (tx_inputs (at_transaction t))) l →
  authorized_transactions (Body_new l cb) = Ok l.
Proof.
  intros Hl. unfold authorized_transactions, Body_new. rewrite foldl_push_transaction. simpl.
  induction Hl as [|t l Ht _ IH]; [done|]. simpl. rewrite <- Ht, take_authorizations_app. simpl.
  rewrite IH. by destruct t.
Qed.

End Roundtrip.

Section MerkleFacts.
Context {BH : BodyHashes}.
Implicit Types (l k : list bytes).

Lemma next_level_length l : length (next_level l) = Nat.div2 (S (length l)).
Proof.
  revert l. fix IH 1. intros [|a [|b l]]; [done..|]. simpl. f_equal. apply IH.
Qed.

Lemma next_level_cons l : l ≠ [] → next_level l ≠ [].
Proof. by destruct l as [|a [|b l]]. Qed.

(** The fuel suffices: the loop ends with one hash. *)
Lemma merkle_levels_single fuel l :
  l ≠ [] → (length l ≤ fuel)%nat → ∃ r, merkle_levels fuel l = [r].
Proof.
  revert l. induction fuel as [|fuel IH]; intros l Hne Hl.
  { destruct l; simpl in Hl; [done|lia]. }
  simpl. destruct (Z.ltb_spec 1 (Z.of_nat (length l))) as [Hlt|Hge].
  - apply IH; [by apply next_level_cons|]. rewrite next_level_length.
    destruct (length l) as [|[|n]] eqn:E; [lia|lia|].
    change (Nat.div2 (S (S (S n)))) with (S (Nat.div2 (S n))). pose proof (Nat.le_div2 n). lia.
  - destruct l as [|a [|b l]]; [done|by exists a|simpl in Hge; lia].
Qed.

Lemma next_level_inj l k :
  (∀ a b c d, hash_pair a b = hash_pair c d → a = c ∧ b = d) →
  length l = length k → next_level l = next_level k → l = k.
Proof.
  intros Hinj. revert l k. fix IH 1.
  intros [|a [|b l]] [|c [|d k]] Hlen; simpl in *; try discriminate; [done|..].
  - intros [= H]. by apply Hinj in H as [-> _].
  - intros [= H Ht]. apply Hinj in H as [-> ->]. f_equal. f_equal. apply IH; [lia|done].
Qed.

Lemma merkle_levels_inj fuel l k :
  (∀ a b c d, hash_pair a b = hash_pair c d → a = c ∧ b = d) →
  length l = length k → merkle_levels fuel l = merkle_levels fuel k → l = k.
Proof.
  intros Hinj. revert l k. induction fuel as [|fuel IH]; intros l k Hlen; simpl; [done|].
  rewrite <- Hlen. destruct (1 <? _); [|done]. intros H. apply next_level_inj; [done|done|].
  apply IH; [|done]. by rewrite !next_level_length, Hlen.
Qed.

(** The merkle root is computed for every block, and among bodies with the
    same number of transactions it determines the coinbase root and the
    transaction ids, if the hash of two hashes has no collisions. *)
Theorem merkle_root_binds cb txs cb' txs' :
  (∀ a b c d, hash_pair a b = hash_pair c d → a = c ∧ b = d) →
  length txs = length txs' → compute_merkle_root cb txs = compute_merkle_root cb' txs' →
  merkle_leaves cb txs = merkle_leaves cb' txs'.
Proof.
  intros Hinj Hlen. assert (length (merkle_leaves cb txs) = length (merkle_leaves cb' txs')) as Hl.
  { unfold merkle_leaves. simpl. rewrite !length_map. by f_equal. }
  unfold compute_merkle_root. rewrite <- Hl. intros H.
  destruct (merkle_levels_single (length (merkle_leaves cb txs)) (merkle_leaves cb txs)) as [r Hr]; [done|lia|].
  destruct (merkle_levels_single (length (merkle_leaves cb txs)) (merkle_leaves cb' txs')) as [r' Hr']; [done|lia|].
  eapply merkle_levels_inj; [done|done|]. rewrite Hr, Hr' in *. simpl in H. by subst.
Qed.

(** Repeating the last transaction of an even number leaves the root as it is. *)
Theorem merkle_root_repeated_last cb t1 t2 :
  compute_merkle_root cb [t1; t2] = compute_merkle_root cb [t1; t2; t2].
Proof. reflexivity. Qed.

End MerkleFacts.

(** Concrete bodies, with concatenation for the hash of two hashes (of lists of
    equal length it has no collisions; here a tagged pairing is used). *)
#[local] Instance toy_hashes : BodyHashes := {|
  tx_txid t := [Z.of_nat (length (tx_inputs t))];
  coinbase_merkle_root cb := cb_memo cb;
  hash_pair a b := Z.of_nat (length a) :: a ++ b
|}.

Lemma toy_hash_pair_inj a b c d : hash_pair a b = hash_pair c d → a = c ∧ b = d.
Proof.
  simpl. intros [= Hl H]. apply Nat2Z.inj in Hl. by apply app_inj_1 in H.
Qed.

Definition toy_tx (n : nat) : Transaction :=
  {| tx_inputs := replicate n (OpCoinbase (replicate 32 0) 0); tx_outputs := []; tx_memo := []; tx_data := None |}.
Definition toy_auth : Authorization := {| verifying_key := [1]; signature := [2] |}.
Definition toy_authorized (n : nat) : AuthorizedTransaction :=
  {| at_transaction := toy_tx n; at_authorizations := replicate n toy_auth; at_actor_proof := Some toy_auth |}.
Definition toy_coinbase : Coinbase := {| cb_memo := [9]; cb_outputs := [] |}.

Lemma body_roundtrip_witness :
  authorized_transactions (Body_new [toy_authorized 2; toy_authorized 1] toy_coinbase)
  = Ok [toy_authorized 2; toy_authorized 1].
Proof. apply (body_roundtrip [toy_authorized 2; toy_authorized 1] toy_coinbase). repeat constructor. Defined.

Lemma merkle_root_binds_witness :
  merkle_leaves toy_coinbase [toy_tx 1; toy_tx 2] = merkle_leaves toy_coinbase [toy_tx 1; toy_tx 2].
Proof.
  apply (merkle_root_binds toy_coinbase [toy_tx 1; toy_tx 2] toy_coinbase [toy_tx 1; toy_tx 2]).
  - exact toy_hash_pair_inj.
  - reflexivity.
  - reflexivity.
Defined.
