(* ===== verification/Archive.v ===== *)
(** * The archive

    Model of src/lib/archive: the tables of headers, heights, bodies and
    mainchain infos, the exponential ancestor index and the queries that use it
    ([get_nth_ancestor], [is_descendant], [last_common_ancestor],
    [better_tip]), the ancestor iterators of iter.rs, and the tips of
    side_tips/mod.rs.  The side chain and the main chain keep the same kind of
    index; the queries are written once over [Index] and instantiated twice, as
    the source writes them twice. *)

From stdpp Require Import base numbers list strings gmap.
From S2P Require Import Prelude Float64 StateErrors Transactions TwoWayPeg Bodies.

Abbreviation BlockHash := bytes (only parsing).
Abbreviation MainBlockHash := bytes (only parsing).

(** ** Errors *)

Inductive SideTipsError : Type :=
| MissingSidechainParent (parent_hash : BlockHash)
| ConnectInvalidMainchainParent (expected : MainBlockHash)
| InvalidTipHeight (expected : Z)
| NoMainchainTip
| DisconnectInvalidMainchainParent (expected : MainBlockHash)
| InvalidMainchainParentHeight (tip_height : Z)
| MissingSidechainTip (hash : BlockHash).

(** [DbMissingKey] is the error of [get] on an absent key; [ArchivePanic] stands
    for [expect] and for an index out of range; [LoopBound] for a loop that runs
    longer than the bound its definition gives. *)
Inductive ArchiveError : Type :=
| InvalidPrevSideHash
| NoAncestor (block_hash : BlockHash) (depth : Z)
| NoBlock (block_hash : BlockHash)
| NoBlockHash (block_hash : BlockHash)
| NoBmmResult (block_hash : BlockHash)
| NoBody (block_hash : BlockHash)
| NoHeader (block_hash : BlockHash)
| NoHeight (block_hash : BlockHash)
| NoMainAncestor (block_hash : MainBlockHash) (depth : Z)
| NoMainBlockHash (block_hash : MainBlockHash)
| NoMainBlockInfo (block_hash : MainBlockHash)
| NoMainHeaderInfo (block_hash : MainBlockHash)
| NoMainHeight (block_hash : MainBlockHash)
| SideTipsErr (e : SideTipsError)
| DbMissingKey (key : bytes)
| ArchivePanic (what : string)
| LoopBound.

(** ** Data *)

Inductive BmmResult : Type := Verified | BmmFailed.
#[export] Instance BmmResult_eq_dec : EqDecision BmmResult.
Proof. solve_decision. Defined.

Record BlockHeaderInfo : Type := {
  mh_block_hash : MainBlockHash;
  mh_prev_block_hash : MainBlockHash;
  mh_height : Z;
  mh_work : Z;
  mh_timestamp : Z
}.

Record BlockInfo : Type := {
  bmm_commitment : option BlockHash;
  bi_events : list BlockEvent
}.

Record Tip : Type := { tip_block_hash : BlockHash; tip_main_block_hash : MainBlockHash }.
#[export] Instance Tip_eq_dec : EqDecision Tip.
Proof. solve_decision. Defined.

Record MainchainTip : Type := {
  cumulative_work : Z;
  tip_info : option BlockHeaderInfo
}.

Record SidechainTipInfo : Type := {
  ti_sidechain_height : Z;
  ti_work : Z;
  ti_main_block_hash : MainBlockHash
}.
#[export] Instance SidechainTipInfo_eq_dec : EqDecision SidechainTipInfo.
Proof. solve_decision. Defined.
#[export] Instance SidechainTipInfo_countable : Countable SidechainTipInfo.
Proof.
  apply (inj_countable' (fun t => (ti_sidechain_height t, ti_work t, ti_main_block_hash t))
    (fun x => {| ti_sidechain_height := x.1.1; ti_work := x.1.2; ti_main_block_hash := x.2 |})).
  by intros [].
Defined.

Record SideTips : Type := {
  mainchain_tip : MainchainTip;
  sidechain_tips : gmap BlockHash SidechainTipInfo;
  ordered_sidechain_tips : gmap SidechainTipInfo BlockHash
}.

Record Archive : Type := {
  block_hash_to_height : gmap BlockHash Z;
  bmm_results : gmap BlockHash (gmap MainBlockHash BmmResult);
  bodies : gmap BlockHash Body;
  exponential_ancestors : gmap BlockHash (list BlockHash);
  exponential_main_ancestors : gmap MainBlockHash (list MainBlockHash);
  headers : gmap BlockHash Header;
  invalid_blocks : gset BlockHash;
  main_block_hash_to_height : gmap MainBlockHash Z;
  main_block_infos : gmap MainBlockHash BlockInfo;
  main_header_infos : gmap MainBlockHash BlockHeaderInfo;
  main_successors : gmap MainBlockHash (gset MainBlockHash);
  side_tips : SideTips;
  successors : gmap (option BlockHash) (gset BlockHash);
  total_work : gmap MainBlockHash Z;
  txid_to_inclusions : gmap Txid (gmap BlockHash Z)
}.

(** The hash of the block before the mainchain's genesis. *)
Definition all_zeros : MainBlockHash := replicate 32 0.

(** What the archive takes from elsewhere: the sum and difference of [Work]
    and its fixed-width encoding, the hash of a header, and the order in which
    a [HashSet] and a [HashMap] are visited, which is some order of their
    elements. *)
Class ArchiveEnv : Type := {
  work_add : Z → Z → Z;
  work_sub : Z → Z → Z;
  work_add_sub a b : work_sub (work_add a b) b = a;
  work_bytes : Z → bytes;
  header_hash : Header → BlockHash;
  set_iter : gset bytes → list bytes;
  set_iter_perm s : set_iter s ≡ₚ elements s;
  results_iter : gmap MainBlockHash BmmResult → list (MainBlockHash * BmmResult);
  results_iter_perm m : results_iter m ≡ₚ map_to_list m
}.

(** ** The tables *)

(** An archive with no block: what [Archive::new] creates. *)
Definition SideTips_create : SideTips :=
  {| mainchain_tip := {| cumulative_work := 0; tip_info := None |};
     sidechain_tips := ∅; ordered_sidechain_tips := ∅ |}.
Definition Archive_new : Archive :=
  {| block_hash_to_height := ∅; bmm_results := ∅; bodies := ∅; exponential_ancestors := ∅;
     exponential_main_ancestors := ∅; headers := ∅; invalid_blocks := ∅;
     main_block_hash_to_height := ∅; main_block_infos := ∅; main_header_infos := ∅;
     main_successors := {[ all_zeros := ∅ ]}; side_tips := SideTips_create;
     successors := {[ None := ∅ ]}; total_work := ∅; txid_to_inclusions := ∅ |}.

Definition try_get_height (a : Archive) (h : BlockHash) : option Z := block_hash_to_height a !! h.
Definition get_height (a : Archive) (h : BlockHash) : result ArchiveError Z :=
  ok_or (try_get_height a h) (NoHeight h).

Definition get_bmm_results (a : Archive) (h : BlockHash) : gmap MainBlockHash BmmResult :=
  default ∅ (bmm_results a !! h).
Definition try_get_bmm_result (a : Archive) (h : BlockHash) (main : MainBlockHash) : option BmmResult :=
  get_bmm_results a h !! main.
Definition get_bmm_result (a : Archive) (h : BlockHash) (main : MainBlockHash)
  : result ArchiveError BmmResult :=
  ok_or (try_get_bmm_result a h main) (NoBmmResult h).

Definition contains_body (a : Archive) (h : BlockHash) : bool := bool_decide (is_Some (bodies a !! h)).
Definition get_body (a : Archive) (h : BlockHash) : result ArchiveError Body :=
  ok_or (bodies a !! h) (NoBody h).
Definition invalidated_block (a : Archive) (h : BlockHash) : bool := bool_decide (h ∈ invalid_blocks a).

Definition try_get_header (a : Archive) (h : BlockHash) : option Header := headers a !! h.
Definition get_header (a : Archive) (h : BlockHash) : result ArchiveError Header :=
  ok_or (try_get_header a h) (NoHeader h).

Record Block : Type := { blk_header : Header; blk_body : Body; blk_height : Z }.
Definition try_get_block (a : Archive) (h : BlockHash) : result ArchiveError (option Block) :=
  match bodies a !! h with
  | None => Ok None
  | Some body =>
      header ← get_header a h;
      height ← get_height a h;
      Ok (Some {| blk_header := header; blk_body := body; blk_height := height |})
  end.
Definition get_block (a : Archive) (h : BlockHash) : result ArchiveError Block :=
  o ← try_get_block a h; ok_or o (NoBlock h).

Definition get_main_block_info (a : Archive) (h : MainBlockHash) : result ArchiveError BlockInfo :=
  ok_or (main_block_infos a !! h) (NoMainBlockInfo h).
Definition get_main_height (a : Archive) (h : MainBlockHash) : result ArchiveError Z :=
  ok_or (main_block_hash_to_height a !! h) (NoMainHeight h).
Definition get_main_header_info (a : Archive) (h : MainBlockHash) : result ArchiveError BlockHeaderInfo :=
  ok_or (main_header_infos a !! h) (NoMainHeaderInfo h).
Definition get_main_successors (a : Archive) (h : MainBlockHash) : result ArchiveError (gset MainBlockHash) :=
  ok_or (main_successors a !! h) (NoMainBlockHash h).
Definition get_successors (a : Archive) (h : option BlockHash) : result ArchiveError (gset BlockHash) :=
  match successors a !! h with
  | Some s => Ok s
  | None =>
      match h with
      | Some h => Err (NoBlockHash h)
      | None => Err (ArchivePanic "Successors to None should always be known")
      end
  end.
Definition get_total_work (a : Archive) (h : MainBlockHash) : result ArchiveError Z :=
  ok_or (total_work a !! h) (NoMainHeaderInfo h).
Definition get_tx_inclusions (a : Archive) (txid : Txid) : gmap BlockHash Z :=
  default ∅ (txid_to_inclusions a !! txid).

(** ** The ancestor index *)

(** What a chain offers to the queries on ancestors: heights, parents and the
    exponential ancestors, whose [i]-th element is [2^(i+1)] blocks before. *)
Record Index : Type := {
  ix_height : bytes → result ArchiveError Z;
  ix_parent : bytes → result ArchiveError bytes;
  ix_ancestors : bytes → result ArchiveError (list bytes);
  ix_no_ancestor : bytes → Z → ArchiveError
}.

Definition side_index (a : Archive) : Index :=
  {| ix_height := get_height a;
     ix_parent h :=
       header ← get_header a h;
       ok_or (prev_side_hash header) (ArchivePanic "block with height >= 1 should have a parent");
     ix_ancestors h := ok_or (exponential_ancestors a !! h) (DbMissingKey h);
     ix_no_ancestor := NoAncestor |}.

Definition main_index (a : Archive) : Index :=
  {| ix_height := get_main_height a;
     ix_parent h := info ← get_main_header_info a h; Ok (mh_prev_block_hash info);
     ix_ancestors h := ok_or (exponential_main_ancestors a !! h) (DbMissingKey h);
     ix_no_ancestor := NoMainAncestor |}.

(** Each turn of the loop clears the highest bit of [n], so [log2 n + 2] turns
    are enough. *)
Fixpoint nth_ancestor_loop (fuel : nat) (ix : Index) (orig : bytes) (orig_n : Z) (h : bytes) (n : Z)
  : result ArchiveError bytes :=
  match fuel with
  | O => Err LoopBound
  | S fuel =>
      if n <=? 0 then Ok h else
      height ← ix_height ix h;
      if height <? n then Err (ix_no_ancestor ix orig orig_n) else
      if n =? 1 then ix_parent ix h else
      let i := Z.log2 n - 1 in
      l ← ix_ancestors ix h;
      h ← ok_or (l !! Z.to_nat i) (ArchivePanic "exponential ancestor out of range");
      nth_ancestor_loop fuel ix orig orig_n h (n - Z.shiftl 2 i)
  end.
Definition nth_ancestor (ix : Index) (h : bytes) (n : Z) : result ArchiveError bytes :=
  nth_ancestor_loop (Z.to_nat (Z.log2 n + 2)) ix h n h n.

Definition get_nth_ancestor (a : Archive) : BlockHash → Z → result ArchiveError BlockHash :=
  nth_ancestor (side_index a).
Definition get_nth_main_ancestor (a : Archive) : MainBlockHash → Z → result ArchiveError MainBlockHash :=
  nth_ancestor (main_index a).

Definition get_block_locator (a : Archive) (h : BlockHash) : result ArchiveError (list BlockHash) :=
  header ← get_header a h;
  l ← ok_or (exponential_ancestors a !! h) (DbMissingKey h);
  match prev_side_hash header with
  | Some parent => Ok (rev (rev l ++ [parent]))
  | None => Ok l
  end.

Definition is_descendant_in (ix : Index) (ancestor descendant : bytes) : result ArchiveError bool :=
  if bool_decide (ancestor = descendant) then Ok true else
  ancestor_height ← ix_height ix ancestor;
  descendant_height ← ix_height ix descendant;
  if descendant_height <? ancestor_height then Ok false else
  h ← nth_ancestor ix descendant (descendant_height - ancestor_height);
  Ok (bool_decide (ancestor = h)).
Definition is_descendant (a : Archive) : BlockHash → BlockHash → result ArchiveError bool :=
  is_descendant_in (side_index a).
Definition is_main_descendant (a : Archive) : MainBlockHash → MainBlockHash → result ArchiveError bool :=
  is_descendant_in (main_index a).

(** The two blocks brought to the lower of their heights, and that height. *)
Definition equalize (ix : Index) (h0 h1 : bytes) : result ArchiveError (bytes * bytes * Z) :=
  height0 ← ix_height ix h0;
  height1 ← ix_height ix h1;
  match height0 ?= height1 with
  | Eq => Ok (h0, h1, height0)
  | Lt => h1 ← nth_ancestor ix h1 (height1 - height0); Ok (h0, h1, height0)
  | Gt => h0 ← nth_ancestor ix h0 (height0 - height1); Ok (h0, h1, height1)
  end.

(** The binary search for the least depth at which the ancestors agree: the
    interval halves at each turn, so [log2] of its size plus 2 turns are enough. *)
Fixpoint common_depth (fuel : nat) (ix : Index) (h0 h1 : bytes) (lo hi : Z) : result ArchiveError Z :=
  match fuel with
  | O => Err LoopBound
  | S fuel =>
      if lo <? hi then
        let mid := as_u32 (lo + hi) / 2 in
        mid0 ← nth_ancestor ix h0 mid;
        mid1 ← nth_ancestor ix h1 mid;
        if bool_decide (mid0 = mid1) then common_depth fuel ix h0 h1 lo mid
        else common_depth fuel ix h0 h1 (mid + 1) hi
      else Ok hi
  end.

(** Without a shared first block there is no common ancestor. *)
Definition last_common_ancestor_in (ix : Index) (h0 h1 : bytes) : result ArchiveError (option bytes) :=
  '(h0, h1, height) ← equalize ix h0 h1;
  if bool_decide (h0 = h1) then Ok (Some h0) else
  oldest0 ← nth_ancestor ix h0 height;
  oldest1 ← nth_ancestor ix h1 height;
  if negb (bool_decide (oldest0 = oldest1)) then Ok None else
  depth ← common_depth (Z.to_nat (Z.log2 height + 2)) ix h0 h1 1 height;
  h ← nth_ancestor ix h0 depth;
  Ok (Some h).
Definition last_common_ancestor (a : Archive) : BlockHash → BlockHash → result ArchiveError (option BlockHash) :=
  last_common_ancestor_in (side_index a).

(** The main chain has one first block, so it is not compared. *)
Definition last_common_main_ancestor_in (ix : Index) (h0 h1 : bytes) : result ArchiveError bytes :=
  '(h0, h1, height) ← equalize ix h0 h1;
  if bool_decide (h0 = h1) then Ok h0 else
  depth ← common_depth (Z.to_nat (Z.log2 height + 2)) ix h0 h1 1 height;
  nth_ancestor ix h0 depth.
Definition last_common_main_ancestor (a : Archive) : MainBlockHash → MainBlockHash → result ArchiveError MainBlockHash :=
  last_common_main_ancestor_in (main_index a).

Definition shared_lineage_in (ix : Index) (h0 h1 : bytes) : result ArchiveError bool :=
  '(h0, h1, _) ← equalize ix h0 h1;
  Ok (bool_decide (h0 = h1)).
Definition shared_mainchain_lineage (a : Archive) : MainBlockHash → MainBlockHash → result ArchiveError bool :=
  shared_lineage_in (main_index a).

(** ** Iterators over ancestors *)

(** [AncestorHeaders::next]. *)
Definition ancestor_headers_next (a : Archive) (block_hash : option BlockHash)
  : result ArchiveError (option ((BlockHash * Header) * option BlockHash)) :=
  match block_hash with
  | None => Ok None
  | Some h => header ← get_header a h; Ok (Some ((h, header), prev_side_hash header))
  end.

(** [take(n)] of the iterator. *)
Fixpoint take_ancestors (a : Archive) (n : nat) (block_hash : option BlockHash)
  : result ArchiveError (list (BlockHash * Header)) :=
  match n with
  | O => Ok []
  | S n =>
      o ← ancestor_headers_next a block_hash;
      match o with
      | None => Ok []
      | Some (item, rest) => l ← take_ancestors a n rest; Ok (item :: l)
      end
  end.

(** [find_map] over the ancestors: stops at the first result. *)
Fixpoint find_map_ancestor {B} (fuel : nat) (a : Archive) (f : BlockHash → result ArchiveError (option B))
  (block_hash : option BlockHash) : result ArchiveError (option B) :=
  match fuel with
  | O => Err LoopBound
  | S fuel =>
      o ← ancestor_headers_next a block_hash;
      match o with
      | None => Ok None
      | Some ((h, _), rest) =>
          r ← f h;
          match r with
          | Some b => Ok (Some b)
          | None => find_map_ancestor fuel a f rest
          end
      end
  end.

(** The ancestors up to [ancestor], as the lazy iterator stops there. *)
Fixpoint ancestors_until (fuel : nat) (a : Archive) (ancestor block_hash : option BlockHash)
  : result ArchiveError (list BlockHash) :=
  match fuel with
  | O => Err LoopBound
  | S fuel =>
      o ← ancestor_headers_next a block_hash;
      match o with
      | None => Ok []
      | Some ((h, _), rest) =>
          if bool_decide (ancestor = Some h) then Ok [] else
          l ← ancestors_until fuel a ancestor rest; Ok (h :: l)
      end
  end.

Definition get_missing_bodies (a : Archive) (h : BlockHash) (ancestor : option BlockHash)
  : result ArchiveError (list BlockHash) :=
  l ← ancestors_until (S (S (size (headers a)))) a ancestor (Some h);
  Ok (rev (filter (fun h => bodies a !! h = None) l)).

(** [main_ancestor_header_infos]: one step of [from_fn], and [take(n)]. *)
Fixpoint take_main_ancestors (a : Archive) (n : nat) (h : MainBlockHash)
  : result ArchiveError (list BlockHeaderInfo) :=
  match n with
  | O => Ok []
  | S n =>
      if bool_decide (h = all_zeros) then Ok [] else
      info ← get_main_header_info a h;
      l ← take_main_ancestors a n (mh_prev_block_hash info);
      Ok (info :: l)
  end.

Definition main_parent_header_info (a : Archive) (info : BlockHeaderInfo)
  : result ArchiveError (option BlockHeaderInfo) :=
  if bool_decide (mh_prev_block_hash info = all_zeros) then Ok None else
  parent ← get_main_header_info a (mh_prev_block_hash info); Ok (Some parent).

(** *** From old to new, in batches *)

Definition MAX_BATCH_SIZE : Z := 32.

(** [AncestorsRev]: [rv_inner] is the height of the last block and the buffer,
    the next item first. *)
Record AncestorsRev (Item : Type) : Type := {
  rv_batch_start_height : option Z;
  rv_inner : option (Z * list Item)
}.
Arguments rv_batch_start_height {Item}.
Arguments rv_inner {Item}.
Arguments Build_AncestorsRev {Item}.

Definition AncestorsRev_new {Item} (start_height : Z) : AncestorsRev Item :=
  {| rv_batch_start_height := Some start_height; rv_inner := None |}.

Section Rev.
Context {Item : Type}.
(** The height of the block, its [n]-th ancestor, and the [n] items from a block
    down. *)
Context (end_height_of : result ArchiveError Z) (nth : Z → result ArchiveError bytes)
  (take_items : nat → bytes → result ArchiveError (list Item)).

Definition rev_next (it : AncestorsRev Item) : result ArchiveError (option Item * AncestorsRev Item) :=
  '(end_height, buffer) ← match rv_inner it with
                          | Some inner => Ok inner
                          | None => h ← end_height_of; Ok (h, [])
                          end;
  match buffer with
  | item :: buffer =>
      Ok (Some item, {| rv_batch_start_height := rv_batch_start_height it;
                        rv_inner := Some (end_height, buffer) |})
  | [] =>
      match rv_batch_start_height it with
      | None => Ok (None, {| rv_batch_start_height := None; rv_inner := Some (end_height, []) |})
      | Some start =>
          if end_height <? start
          then Ok (None, {| rv_batch_start_height := Some start; rv_inner := Some (end_height, []) |}) else
          let height_diff := end_height - start in
          let ancestor_offset := Z.min height_diff (MAX_BATCH_SIZE - 1) in
          let batch_size := ancestor_offset + 1 in
          ancestor ← nth (height_diff - ancestor_offset);
          l ← take_items (Z.to_nat batch_size) ancestor;
          let start' :=
            if (start + batch_size <=? U32_MAX) && (start + batch_size <=? end_height)
            then Some (start + batch_size) else None in
          match rev l with
          | item :: buffer =>
              Ok (Some item, {| rv_batch_start_height := start'; rv_inner := Some (end_height, buffer) |})
          | [] => Ok (None, {| rv_batch_start_height := start'; rv_inner := Some (end_height, []) |})
          end
      end
  end.

(** [collect]: call [next] until it returns nothing. *)
Fixpoint rev_collect (fuel : nat) (it : AncestorsRev Item) : result ArchiveError (list Item) :=
  match fuel with
  | O => Err LoopBound
  | S fuel =>
      '(o, it) ← rev_next it;
      match o with
      | None => Ok []
      | Some item => l ← rev_collect fuel it; Ok (item :: l)
      end
  end.

End Rev.

Definition ancestors_rev_next (a : Archive) (h : BlockHash)
  : AncestorsRev (BlockHash * Header) → result ArchiveError (option (BlockHash * Header) * AncestorsRev (BlockHash * Header)) :=
  rev_next (get_height a h) (get_nth_ancestor a h) (fun n anc => take_ancestors a n (Some anc)).

Definition iter_missing_bodies (a : Archive) (h : BlockHash) (start_height : Z)
  : result ArchiveError (list BlockHash) :=
  l ← rev_collect (get_height a h) (get_nth_ancestor a h) (fun n anc => take_ancestors a n (Some anc))
        (S (size (headers a))) (AncestorsRev_new start_height);
  Ok (filter (fun h => bodies a !! h = None) (map fst l)).

Definition main_ancestors_rev_next (a : Archive) (h : MainBlockHash)
  : AncestorsRev BlockHeaderInfo → result ArchiveError (option BlockHeaderInfo * AncestorsRev BlockHeaderInfo) :=
  rev_next (info ← get_main_header_info a h; Ok (mh_height info)) (get_nth_main_ancestor a h) (take_main_ancestors a).

(** The mainchain iterator takes the height of its last block from the header
    info, not from the table of heights. *)
Definition main_ancestor_header_infos_rev (a : Archive) (h : MainBlockHash) (start_height : Z)
  : result ArchiveError (list BlockHeaderInfo) :=
  rev_collect (info ← get_main_header_info a h; Ok (mh_height info)) (get_nth_main_ancestor a h)
    (take_main_ancestors a) (S (size (main_header_infos a))) (AncestorsRev_new start_height).

(** ** The better of two tips *)

(** The header of a block whose mainchain parent is strictly before
    [main_ancestor]; the [find_map] closures skip the others. *)
Definition before_main_ancestor (a : Archive) (main_ancestor : MainBlockHash) (h : BlockHash)
  : result ArchiveError (option Header) :=
  header ← get_header a h;
  d ← is_main_descendant a (prev_main_hash header) main_ancestor;
  if negb d then Ok None else
  if bool_decide (prev_main_hash header = main_ancestor) then Ok None else Ok (Some header).

Definition ancestor_height_before (a : Archive) (main_ancestor : MainBlockHash) (h : BlockHash)
  : result ArchiveError (option Z) :=
  find_map_ancestor (S (S (size (headers a)))) a (fun h =>
    o ← before_main_ancestor a main_ancestor h;
    match o with None => Ok None | Some _ => height ← get_height a h; Ok (Some height) end) (Some h).

(** With the work of the mainchain block that follows its mainchain parent. *)
Definition ancestor_before (a : Archive) (main_ancestor : MainBlockHash) (main_ancestor_height : Z)
  (h : BlockHash) : result ArchiveError (option (Z * Z)) :=
  find_map_ancestor (S (S (size (headers a)))) a (fun h =>
    o ← before_main_ancestor a main_ancestor h;
    match o with
    | None => Ok None
    | Some header =>
        height ← get_height a h;
        prev_height ← get_main_height a (prev_main_hash header);
        main_block ← get_nth_main_ancestor a main_ancestor (as_u32 (main_ancestor_height - as_u32 (prev_height + 1)));
        work ← get_total_work a main_block;
        Ok (Some (height, work))
    end) (Some h).

Definition better_tip (a : Archive) (tip0 tip1 : Tip) : result ArchiveError (option Tip) :=
  if bool_decide (tip0 = tip1) then Ok None else
  let h0 := tip_block_hash tip0 in
  let h1 := tip_block_hash tip1 in
  let main0 := tip_main_block_hash tip0 in
  let main1 := tip_main_block_hash tip1 in
  height0 ← get_height a h0;
  height1 ← get_height a h1;
  if (height0 =? 0) && (height1 =? 0) then Ok None else
  if height0 =? 0 then Ok (Some tip1) else
  if height1 =? 0 then Ok (Some tip0) else
  work0 ← get_total_work a main0;
  work1 ← get_total_work a main1;
  match work0 ?= work1, height0 ?= height1 with
  | (Lt | Eq), Lt => Ok (Some tip1)
  | (Eq | Gt), Gt => Ok (Some tip0)
  | Lt, Eq =>
      shared ← shared_mainchain_lineage a main0 main1;
      Ok (Some (if shared : bool then tip0 else tip1))
  | Gt, Eq =>
      shared ← shared_mainchain_lineage a main0 main1;
      Ok (Some (if negb shared then tip0 else tip1))
  | Lt, Gt =>
      main_ancestor ← last_common_main_ancestor a main0 main1;
      height ← ancestor_height_before a main_ancestor h0;
      Ok (Some (match option_cmp Z.compare height (Some height1) with Lt => tip1 | _ => tip0 end))
  | Gt, Lt =>
      main_ancestor ← last_common_main_ancestor a main0 main1;
      height ← ancestor_height_before a main_ancestor h1;
      Ok (Some (match option_cmp Z.compare height (Some height0) with Lt => tip0 | _ => tip1 end))
  | Eq, Eq =>
      if bool_decide (h0 = h1) then Ok (Some tip0) else
      main_ancestor ← last_common_main_ancestor a main0 main1;
      main_ancestor_height ← get_main_height a main_ancestor;
      anc0 ← ancestor_before a main_ancestor main_ancestor_height h0;
      anc1 ← ancestor_before a main_ancestor main_ancestor_height h1;
      Ok (Some (match option_cmp Z.compare (snd <$> anc0) (snd <$> anc1), option_cmp Z.compare (fst <$> anc0) (fst <$> anc1) with
                | (Lt | Eq), Eq | _, Gt => tip0
                | Gt, Eq | _, Lt => tip1
                end))
  end.
