(* ===== verification/ArchiveStore.v ===== *)
(** * Writing to the archive

    Model of the operations of src/lib/archive/mod.rs and
    src/lib/archive/side_tips/mod.rs that change the tables: connecting and
    disconnecting tips, storing headers with their successor links, exponential
    ancestors and BMM results, storing, discarding and invalidating blocks. *)

From stdpp Require Import base numbers list strings gmap.
From S2P Require Import Prelude Float64 StateErrors Transactions TwoWayPeg Bodies Archive.

(** ** Fields *)

Definition with_block_hash_to_height (a : Archive) v : Archive :=
  {| block_hash_to_height := v; bmm_results := bmm_results a; bodies := bodies a;
     exponential_ancestors := exponential_ancestors a; exponential_main_ancestors :=
     exponential_main_ancestors a; headers := headers a; invalid_blocks := invalid_blocks a;
     main_block_hash_to_height := main_block_hash_to_height a; main_block_infos :=
     main_block_infos a; main_header_infos := main_header_infos a; main_successors :=
     main_successors a; side_tips := side_tips a; successors := successors a; total_work :=
     total_work a; txid_to_inclusions := txid_to_inclusions a |}.
Definition with_bmm_results (a : Archive) v : Archive :=
  {| block_hash_to_height := block_hash_to_height a; bmm_results := v; bodies := bodies a;
     exponential_ancestors := exponential_ancestors a; exponential_main_ancestors :=
     exponential_main_ancestors a; headers := headers a; invalid_blocks := invalid_blocks a;
     main_block_hash_to_height := main_block_hash_to_height a; main_block_infos :=
     main_block_infos a; main_header_infos := main_header_infos a; main_successors :=
     main_successors a; side_tips := side_tips a; successors := successors a; total_work :=
     total_work a; txid_to_inclusions := txid_to_inclusions a |}.
Definition with_bodies (a : Archive) v : Archive :=
  {| block_hash_to_height := block_hash_to_height a; bmm_results := bmm_results a; bodies := v;
     exponential_ancestors := exponential_ancestors a; exponential_main_ancestors :=
     exponential_main_ancestors a; headers := headers a; invalid_blocks := invalid_blocks a;
     main_block_hash_to_height := main_block_hash_to_height a; main_block_infos :=
     main_block_infos a; main_header_infos := main_header_infos a; main_successors :=
     main_successors a; side_tips := side_tips a; successors := successors a; total_work :=
     total_work a; txid_to_inclusions := txid_to_inclusions a |}.
Definition with_exponential_ancestors (a : Archive) v : Archive :=
  {| block_hash_to_height := block_hash_to_height a; bmm_results := bmm_results a; bodies :=
     bodies a; exponential_ancestors := v; exponential_main_ancestors :=
     exponential_main_ancestors a; headers := headers a; invalid_blocks := invalid_blocks a;
     main_block_hash_to_height := main_block_hash_to_height a; main_block_infos :=
     main_block_infos a; main_header_infos := main_header_infos a; main_successors :=
     main_successors a; side_tips := side_tips a; successors := successors a; total_work :=
     total_work a; txid_to_inclusions := txid_to_inclusions a |}.
Definition with_exponential_main_ancestors (a : Archive) v : Archive :=
  {| block_hash_to_height := block_hash_to_height a; bmm_results := bmm_results a; bodies :=
     bodies a; exponential_ancestors := exponential_ancestors a; exponential_main_ancestors :=
     v; headers := headers a; invalid_blocks := invalid_blocks a; main_block_hash_to_height :=
     main_block_hash_to_height a; main_block_infos := main_block_infos a; main_header_infos :=
     main_header_infos a; main_successors := main_successors a; side_tips := side_tips a;
     successors := successors a; total_work := total_work a; txid_to_inclusions :=
     txid_to_inclusions a |}.
Definition with_headers (a : Archive) v : Archive :=
  {| block_hash_to_height := block_hash_to_height a; bmm_results := bmm_results a; bodies :=
     bodies a; exponential_ancestors := exponential_ancestors a; exponential_main_ancestors :=
     exponential_main_ancestors a; headers := v; invalid_blocks := invalid_blocks a;
     main_block_hash_to_height := main_block_hash_to_height a; main_block_infos :=
     main_block_infos a; main_header_infos := main_header_infos a; main_successors :=
     main_successors a; side_tips := side_tips a; successors := successors a; total_work :=
     total_work a; txid_to_inclusions := txid_to_inclusions a |}.
Definition with_invalid_blocks (a : Archive) v : Archive :=
  {| block_hash_to_height := block_hash_to_height a; bmm_results := bmm_results a; bodies :=
     bodies a; exponential_ancestors := exponential_ancestors a; exponential_main_ancestors :=
     exponential_main_ancestors a; headers := headers a; invalid_blocks := v;
     main_block_hash_to_height := main_block_hash_to_height a; main_block_infos :=
     main_block_infos a; main_header_infos := main_header_infos a; main_successors :=
     main_successors a; side_tips := side_tips a; successors := successors a; total_work :=
     total_work a; txid_to_inclusions := txid_to_inclusions a |}.
Definition with_main_block_hash_to_height (a : Archive) v : Archive :=
  {| block_hash_to_height := block_hash_to_height a; bmm_results := bmm_results a; bodies :=
     bodies a; exponential_ancestors := exponential_ancestors a; exponential_main_ancestors :=
     exponential_main_ancestors a; headers := headers a; invalid_blocks := invalid_blocks a;
     main_block_hash_to_height := v; main_block_infos := main_block_infos a; main_header_infos
     := main_header_infos a; main_successors := main_successors a; side_tips := side_tips a;
     successors := successors a; total_work := total_work a; txid_to_inclusions :=
     txid_to_inclusions a |}.
Definition with_main_block_infos (a : Archive) v : Archive :=
  {| block_hash_to_height := block_hash_to_height a; bmm_results := bmm_results a; bodies :=
     bodies a; exponential_ancestors := exponential_ancestors a; exponential_main_ancestors :=
     exponential_main_ancestors a; headers := headers a; invalid_blocks := invalid_blocks a;
     main_block_hash_to_height := main_block_hash_to_height a; main_block_infos := v;
     main_header_infos := main_header_infos a; main_successors := main_successors a; side_tips
     := side_tips a; successors := successors a; total_work := total_work a; txid_to_inclusions
     := txid_to_inclusions a |}.
Definition with_main_header_infos (a : Archive) v : Archive :=
  {| block_hash_to_height := block_hash_to_height a; bmm_results := bmm_results a; bodies :=
     bodies a; exponential_ancestors := exponential_ancestors a; exponential_main_ancestors :=
     exponential_main_ancestors a; headers := headers a; invalid_blocks := invalid_blocks a;
     main_block_hash_to_height := main_block_hash_to_height a; main_block_infos :=
     main_block_infos a; main_header_infos := v; main_successors := main_successors a; side_tips
     := side_tips a; successors := successors a; total_work := total_work a; txid_to_inclusions
     := txid_to_inclusions a |}.
Definition with_main_successors (a : Archive) v : Archive :=
  {| block_hash_to_height := block_hash_to_height a; bmm_results := bmm_results a; bodies :=
     bodies a; exponential_ancestors := exponential_ancestors a; exponential_main_ancestors :=
     exponential_main_ancestors a; headers := headers a; invalid_blocks := invalid_blocks a;
     main_block_hash_to_height := main_block_hash_to_height a; main_block_infos :=
     main_block_infos a; main_header_infos := main_header_infos a; main_successors := v;
     side_tips := side_tips a; successors := successors a; total_work := total_work a;
     txid_to_inclusions := txid_to_inclusions a |}.
Definition with_side_tips (a : Archive) v : Archive :=
  {| block_hash_to_height := block_hash_to_height a; bmm_results := bmm_results a; bodies :=
     bodies a; exponential_ancestors := exponential_ancestors a; exponential_main_ancestors :=
     exponential_main_ancestors a; headers := headers a; invalid_blocks := invalid_blocks a;
     main_block_hash_to_height := main_block_hash_to_height a; main_block_infos :=
     main_block_infos a; main_header_infos := main_header_infos a; main_successors :=
     main_successors a; side_tips := v; successors := successors a; total_work := total_work a;
     txid_to_inclusions := txid_to_inclusions a |}.
Definition with_successors (a : Archive) v : Archive :=
  {| block_hash_to_height := block_hash_to_height a; bmm_results := bmm_results a; bodies :=
     bodies a; exponential_ancestors := exponential_ancestors a; exponential_main_ancestors :=
     exponential_main_ancestors a; headers := headers a; invalid_blocks := invalid_blocks a;
     main_block_hash_to_height := main_block_hash_to_height a; main_block_infos :=
     main_block_infos a; main_header_infos := main_header_infos a; main_successors :=
     main_successors a; side_tips := side_tips a; successors := v; total_work := total_work a;
     txid_to_inclusions := txid_to_inclusions a |}.
Definition with_total_work (a : Archive) v : Archive :=
  {| block_hash_to_height := block_hash_to_height a; bmm_results := bmm_results a; bodies :=
     bodies a; exponential_ancestors := exponential_ancestors a; exponential_main_ancestors :=
     exponential_main_ancestors a; headers := headers a; invalid_blocks := invalid_blocks a;
     main_block_hash_to_height := main_block_hash_to_height a; main_block_infos :=
     main_block_infos a; main_header_infos := main_header_infos a; main_successors :=
     main_successors a; side_tips := side_tips a; successors := successors a; total_work := v;
     txid_to_inclusions := txid_to_inclusions a |}.
Definition with_txid_to_inclusions (a : Archive) v : Archive :=
  {| block_hash_to_height := block_hash_to_height a; bmm_results := bmm_results a; bodies :=
     bodies a; exponential_ancestors := exponential_ancestors a; exponential_main_ancestors :=
     exponential_main_ancestors a; headers := headers a; invalid_blocks := invalid_blocks a;
     main_block_hash_to_height := main_block_hash_to_height a; main_block_infos :=
     main_block_infos a; main_header_infos := main_header_infos a; main_successors :=
     main_successors a; side_tips := side_tips a; successors := successors a; total_work :=
     total_work a; txid_to_inclusions := v |}.

(** *** Side tips *)

Section SideTips.
Context {AE : ArchiveEnv}.
Implicit Types (st : SideTips).

Definition mainchain_tip_hash (t : MainchainTip) : MainBlockHash :=
  match tip_info t with Some info => mh_block_hash info | None => all_zeros end.

(** The order of the encoded keys: the height is big-endian, then the work, then
    the hash. *)
Definition tip_info_cmp (x y : SidechainTipInfo) : comparison :=
  then_cmp (ti_sidechain_height x ?= ti_sidechain_height y)
    (then_cmp (bytes_cmp (work_bytes (ti_work x)) (work_bytes (ti_work y)))
       (bytes_cmp (ti_main_block_hash x) (ti_main_block_hash y))).

Definition best_side_tip st : option (SidechainTipInfo * BlockHash) :=
  last (db_iter tip_info_cmp (ordered_sidechain_tips st)).

Definition saturating_add_u32 (a b : Z) : Z := Z.min U32_MAX (a + b).

Definition connect_sidechain_tip st (main_block_hash : MainBlockHash) (work : Z) (h : BlockHash)
  (header : Header) : result SideTipsError SideTips :=
  sidechain_height ← match prev_side_hash header with
                     | Some parent =>
                         info ← ok_or (sidechain_tips st !! parent) (MissingSidechainParent parent);
                         Ok (saturating_add_u32 (ti_sidechain_height info) 1)
                     | None => Ok 0
                     end;
  if bool_decide (is_Some (sidechain_tips st !! h)) then Ok st else
  let info := {| ti_sidechain_height := sidechain_height; ti_work := work;
                 ti_main_block_hash := main_block_hash |} in
  Ok {| mainchain_tip := mainchain_tip st;
        sidechain_tips := <[h := info]> (sidechain_tips st);
        ordered_sidechain_tips := <[info := h]> (ordered_sidechain_tips st) |}.

Definition disconnect_sidechain_tip st (h : BlockHash) : SideTips :=
  match sidechain_tips st !! h with
  | None => st
  | Some info =>
      {| mainchain_tip := mainchain_tip st; sidechain_tips := delete h (sidechain_tips st);
         ordered_sidechain_tips := delete info (ordered_sidechain_tips st) |}
  end.

(** A BMM commitment is the committed block and its header's parents. *)
Definition connect_mainchain_tip st (info : BlockHeaderInfo) (commitment : option (BlockHash * Header))
  : result SideTipsError SideTips :=
  let tip := mainchain_tip st in
  _ ← bail_if (negb (bool_decide (mh_prev_block_hash info = mainchain_tip_hash tip)))
        (ConnectInvalidMainchainParent (mainchain_tip_hash tip));
  _ ← match tip_info tip with
      | Some t => bail_if (negb (mh_height info =? mh_height t + 1)) (InvalidTipHeight (mh_height t + 1))
      | None => Ok tt
      end;
  let work := work_add (cumulative_work tip) (mh_work info) in
  st ← match commitment with
       | Some (h, header) => connect_sidechain_tip st (mh_block_hash info) work h header
       | None => Ok st
       end;
  Ok {| mainchain_tip := {| cumulative_work := work; tip_info := Some info |};
        sidechain_tips := sidechain_tips st; ordered_sidechain_tips := ordered_sidechain_tips st |}.

Definition disconnect_mainchain_tip st (prev_tip_info : option BlockHeaderInfo)
  (commitment : option BlockHash) : result SideTipsError SideTips :=
  info ← ok_or (tip_info (mainchain_tip st)) NoMainchainTip;
  new_info ←
    match prev_tip_info with
    | Some prev =>
        if negb (bool_decide (mh_block_hash prev = mh_prev_block_hash info))
        then Err (DisconnectInvalidMainchainParent (mh_prev_block_hash info))
        else if negb (mh_height prev + 1 =? mh_height info)
        then Err (InvalidMainchainParentHeight (mh_height info))
        else Ok (if bool_decide (mh_prev_block_hash info = all_zeros) then None else Some prev)
    | None =>
        if bool_decide (mh_prev_block_hash info = all_zeros) then Ok None
        else Err (DisconnectInvalidMainchainParent (mh_prev_block_hash info))
    end;
  ordered ←
    match commitment with
    | None => Ok (ordered_sidechain_tips st)
    | Some h =>
        tip ← ok_or (sidechain_tips st !! h) (MissingSidechainTip h);
        if bool_decide (ti_main_block_hash tip = mh_block_hash info) then
          if bool_decide (is_Some (ordered_sidechain_tips st !! tip))
          then Ok (delete tip (ordered_sidechain_tips st))
          else Err (MissingSidechainTip h)
        else Ok (ordered_sidechain_tips st)
    end;
  Ok {| mainchain_tip := {| cumulative_work := work_sub (cumulative_work (mainchain_tip st)) (mh_work info);
                            tip_info := new_info |};
        sidechain_tips := sidechain_tips st; ordered_sidechain_tips := ordered |}.

End SideTips.

(** *** Headers *)

(** The loop that appends the ancestors at depths 4, 8, 16, ... while they
    exist; a depth is a [u64] at most twice the height. *)
Fixpoint exponential_loop (fuel : nat) (ix : Index) (h : bytes) (height depth : Z) (acc : list bytes)
  : result ArchiveError (list bytes) :=
  match fuel with
  | O => Err LoopBound
  | S fuel =>
      if depth <=? height then
        last_ancestor ← ok_or (last acc) (ix_no_ancestor ix h (as_u32 depth));
        next ← nth_ancestor ix last_ancestor (as_u32 depth / 2);
        exponential_loop fuel ix h height (depth * 2) (acc ++ [next])
      else Ok acc
  end.

Definition build_ancestors (ix : Index) (h : bytes) (parent : result ArchiveError bytes) (height : Z)
  : result ArchiveError (list bytes) :=
  if 2 <=? height then
    p ← parent;
    grandparent ← nth_ancestor ix p 1;
    exponential_loop (Z.to_nat (Z.log2 height)) ix h height 4 [grandparent]
  else Ok [].

(** A fallible [any], which stops at the first success. *)
Fixpoint try_any {A} (f : A → result ArchiveError bool) (l : list A) : result ArchiveError bool :=
  match l with
  | [] => Ok false
  | x :: l => b ← f x; if b : bool then Ok true else try_any f l
  end.

Section Headers.
Context {AE : ArchiveEnv}.

(** Whether a parent block has a valid commitment in the ancestry of [main]. *)
Definition parent_verified (a : Archive) (parent_results : gmap MainBlockHash BmmResult)
  (main : MainBlockHash) : result ArchiveError bool :=
  try_any (fun e => if bool_decide (e.2 = Verified) then is_main_descendant a e.1 main else Ok false)
    (results_iter parent_results).

(** The result for one mainchain block in the loop of [put_header]. *)
Definition bmm_result_at (a : Archive) (h : BlockHash) (header : Header) (main : MainBlockHash)
  : result ArchiveError BmmResult :=
  info ← get_main_block_info a main;
  match bmm_commitment info with
  | None => Ok BmmFailed
  | Some commitment =>
      if negb (bool_decide (commitment = h)) then Ok BmmFailed else
      main_info ← get_main_header_info a main;
      if negb (bool_decide (prev_main_hash header = mh_prev_block_hash main_info)) then Ok BmmFailed else
      match prev_side_hash header with
      | None => Ok Verified
      | Some parent =>
          b ← parent_verified a (get_bmm_results a parent) main;
          Ok (if b : bool then Verified else BmmFailed)
      end
  end.

(** The index entries of a header: height, header, successor links. *)
Definition link_header (a : Archive) (h : BlockHash) (header : Header) (height : Z)
  : result ArchiveError Archive :=
  let a := with_block_hash_to_height a (<[h := height]> (block_hash_to_height a)) in
  let a := with_headers a (<[h := header]> (headers a)) in
  pred ← get_successors a (prev_side_hash header);
  let a := with_successors a (<[prev_side_hash header := {[h]} ∪ pred]> (successors a)) in
  Ok (with_successors a (<[Some h := default ∅ (successors a !! Some h)]> (successors a))).

Definition put_header (a : Archive) (header : Header) : result ArchiveError Archive :=
  height ← match prev_side_hash header with
           | None => Ok 0
           | Some parent => n ← ok_or (try_get_height a parent) InvalidPrevSideHash; Ok (as_u32 (n + 1))
           end;
  let h := header_hash header in
  a ← link_header a h header height;
  l ← build_ancestors (side_index a) h
        (ok_or (prev_side_hash header) (ArchivePanic "header at height >= 2 must have prev_side_hash")) height;
  let a := with_exponential_ancestors a (<[h := l]> (exponential_ancestors a)) in
  main_blocks ← get_main_successors a (prev_main_hash header);
  results ← try_fold (fun m main => r ← bmm_result_at a h header main; Ok (<[main := r]> m))
              (get_bmm_results a h) (set_iter main_blocks);
  Ok (with_bmm_results a (<[h := results]> (bmm_results a))).

Definition put_main_block_info (a : Archive) (main : MainBlockHash) (info : BlockInfo)
  : result ArchiveError Archive :=
  main_info ← get_main_header_info a main;
  _ ← if bool_decide (mh_prev_block_hash main_info = all_zeros) then Ok tt
      else (_ ← get_main_block_info a (mh_prev_block_hash main_info); Ok tt);
  let a := with_main_block_infos a (<[main := info]> (main_block_infos a)) in
  match bmm_commitment info with
  | None => Ok a
  | Some commitment =>
      match try_get_header a commitment with
      | None => Ok a
      | Some header =>
          r ← if negb (bool_decide (prev_main_hash header = mh_prev_block_hash main_info)) then Ok BmmFailed
              else match prev_side_hash header with
                   | Some parent =>
                       b ← parent_verified a (get_bmm_results a parent) main;
                       Ok (if b : bool then Verified else BmmFailed)
                   | None => Ok Verified
                   end;
          Ok (with_bmm_results a
                (<[commitment := <[main := r]> (get_bmm_results a commitment)]> (bmm_results a)))
      end
  end.

Definition link_main_header (a : Archive) (info : BlockHeaderInfo) (height work : Z)
  : result ArchiveError Archive :=
  let h := mh_block_hash info in
  let prev := mh_prev_block_hash info in
  let a := with_main_block_hash_to_height a (<[h := height]> (main_block_hash_to_height a)) in
  let a := with_main_header_infos a (<[h := info]> (main_header_infos a)) in
  let a := with_total_work a (<[h := work]> (total_work a)) in
  pred ← get_main_successors a prev;
  let a := with_main_successors a (<[prev := {[h]} ∪ pred]> (main_successors a)) in
  Ok (with_main_successors a (<[h := default ∅ (main_successors a !! h)]> (main_successors a))).

Definition put_main_header_info (a : Archive) (info : BlockHeaderInfo) : result ArchiveError Archive :=
  let prev := mh_prev_block_hash info in
  let genesis := bool_decide (prev = all_zeros) in
  _ ← bail_if (bool_decide (main_header_infos a !! prev = None) && negb genesis) (NoMainHeaderInfo prev);
  height ← if genesis then Ok 0 else (n ← get_main_height a prev; Ok (as_u32 (n + 1)));
  work ← if negb genesis then (w ← get_total_work a prev; Ok (work_add w (mh_work info)))
         else Ok (mh_work info);
  a ← link_main_header a info height work;
  l ← build_ancestors (main_index a) (mh_block_hash info) (Ok prev) height;
  Ok (with_exponential_main_ancestors a (<[mh_block_hash info := l]> (exponential_main_ancestors a))).

End Headers.

(** *** Bodies *)

Section BodyStore.
Context {AE : ArchiveEnv} {BH : BodyHashes}.

Definition add_inclusion (h : BlockHash) (a : Archive) (e : Z * Transaction) : Archive :=
  let txid := tx_txid e.2 in
  with_txid_to_inclusions a
    (<[txid := <[h := as_u32 e.1]> (get_tx_inclusions a txid)]> (txid_to_inclusions a)).

Definition remove_inclusion (h : BlockHash) (a : Archive) (tx : Transaction) : Archive :=
  let txid := tx_txid tx in
  let inclusions := delete h (get_tx_inclusions a txid) in
  with_txid_to_inclusions a
    (if bool_decide (inclusions = ∅) then delete txid (txid_to_inclusions a)
     else <[txid := inclusions]> (txid_to_inclusions a)).

(** [update_side_tips]: connect the block for each mainchain block that verifies
    it and is in the current main chain; its successors are looked at next. *)
Definition connect_verified (main_tip : MainBlockHash) (h : BlockHash) (header : Header)
  (st : Archive * bool) (e : MainBlockHash * BmmResult) : result ArchiveError (Archive * bool) :=
  let '(a, connected) := st in
  match e.2 with
  | BmmFailed => Ok (a, connected)
  | Verified =>
      if match prev_side_hash header with
         | Some parent => negb (bool_decide (is_Some (sidechain_tips (side_tips a) !! parent)))
         | None => false
         end
      then Ok (a, connected) else
      d ← is_main_descendant a e.1 main_tip;
      if negb d then Ok (a, connected) else
      work ← get_total_work a e.1;
      tips ← map_err SideTipsErr (connect_sidechain_tip (side_tips a) e.1 work h header);
      Ok (with_side_tips a tips, true)
  end.

Definition update_side_tips (main_tip : MainBlockHash) (a : Archive) (h : BlockHash) (header : Header)
  (queue : list BlockHash) : result ArchiveError (Archive * list BlockHash) :=
  '(a, connected) ← try_fold (connect_verified main_tip h header) (a, false)
                      (results_iter (get_bmm_results a h));
  if connected : bool then s ← get_successors a (Some h); Ok (a, queue ++ set_iter s)
  else Ok (a, queue).

(** Every block is queued at most once, by its parent. *)
Fixpoint update_side_tips_loop (fuel : nat) (main_tip : MainBlockHash) (a : Archive)
  (queue : list BlockHash) : result ArchiveError Archive :=
  match queue with
  | [] => Ok a
  | h :: queue =>
      match fuel with
      | O => Err LoopBound
      | S fuel =>
          if negb (contains_body a h) then update_side_tips_loop fuel main_tip a queue else
          header ← get_header a h;
          '(a, queue) ← update_side_tips main_tip a h header queue;
          update_side_tips_loop fuel main_tip a queue
      end
  end.

Definition put_body (a : Archive) (h : BlockHash) (body : Body) : result ArchiveError Archive :=
  header ← get_header a h;
  let a := with_bodies a (<[h := body]> (bodies a)) in
  let a := foldl (add_inclusion h) a (enumerate 0 (transactions body)) in
  let main_tip := mainchain_tip_hash (mainchain_tip (side_tips a)) in
  '(a, queue) ← update_side_tips main_tip a h header [];
  update_side_tips_loop (S (size (headers a))) main_tip a queue.

Fixpoint disconnect_tips_loop (fuel : nat) (a : Archive) (queue : list BlockHash)
  : result ArchiveError Archive :=
  match queue with
  | [] => Ok a
  | h :: queue =>
      match fuel with
      | O => Err LoopBound
      | S fuel =>
          if negb (bool_decide (is_Some (sidechain_tips (side_tips a) !! h)))
          then disconnect_tips_loop fuel a queue else
          let a := with_side_tips a (disconnect_sidechain_tip (side_tips a) h) in
          s ← get_successors a (Some h);
          disconnect_tips_loop fuel a (queue ++ set_iter s)
      end
  end.

Definition delete_body (a : Archive) (h : BlockHash) (body : Body) : result ArchiveError Archive :=
  let a := with_bodies a (delete h (bodies a)) in
  let a := foldl (remove_inclusion h) a (transactions body) in
  disconnect_tips_loop (S (size (headers a))) a [h].

(** One turn of the loop of [invalidate_block]: the archive without the block,
    and the successors to push. *)
Definition forget_inclusions (h : BlockHash) (a : Archive) (tx : Transaction) : Archive :=
  match txid_to_inclusions a !! tx_txid tx with
  | None => a
  | Some _ => remove_inclusion h a tx
  end.

Definition invalidate_one (a : Archive) (h : BlockHash) : Archive * list BlockHash :=
  let a := with_block_hash_to_height a (delete h (block_hash_to_height a)) in
  let a := match bodies a !! h with
           | Some body => foldl (forget_inclusions h) a (transactions body)
           | None => a
           end in
  let a := with_bodies a (delete h (bodies a)) in
  let a := with_exponential_ancestors a (delete h (exponential_ancestors a)) in
  let a := match headers a !! h with
           | Some header =>
               match successors a !! prev_side_hash header with
               | Some pred => with_successors a (<[prev_side_hash header := pred ∖ {[h]}]> (successors a))
               | None => a
               end
           | None => a
           end in
  let a := with_headers a (delete h (headers a)) in
  let a := with_invalid_blocks a ({[h]} ∪ invalid_blocks a) in
  let pushed := match successors a !! Some h with Some s => rev (set_iter s) | None => [] end in
  (with_successors a (delete (Some h) (successors a)), pushed).

Fixpoint invalidate_loop (fuel : nat) (a : Archive) (stack : list BlockHash) : result ArchiveError Archive :=
  match stack with
  | [] => Ok a
  | h :: stack =>
      match fuel with
      | O => Err LoopBound
      | S fuel => let '(a, pushed) := invalidate_one a h in invalidate_loop fuel a (pushed ++ stack)
      end
  end.

Definition invalidate_block (a : Archive) (h : BlockHash) : result ArchiveError Archive :=
  invalidate_loop (S (size (headers a))) a [h].

(** The verification with the most work; a later one of equal work wins. *)
Definition best_verification_step (a : Archive) (best : option (MainBlockHash * Z)) (main : MainBlockHash)
  : result ArchiveError (option (MainBlockHash * Z)) :=
  work ← get_total_work a main;
  Ok (match best with
      | Some (_, w) => if work <? w then best else Some (main, work)
      | None => Some (main, work)
      end).
Definition try_get_best_main_verification (a : Archive) (h : BlockHash)
  : result ArchiveError (option MainBlockHash) :=
  best ← try_fold (best_verification_step a) None
           (map fst (filter (fun e : MainBlockHash * BmmResult => e.2 = Verified) (results_iter (get_bmm_results a h))));
  Ok (fmap (M:=option) fst best).
Definition get_best_main_verification (a : Archive) (h : BlockHash) : result ArchiveError MainBlockHash :=
  o ← try_get_best_main_verification a h; ok_or o (NoBmmResult h).

End BodyStore.
