(* ===== verification/ArchiveFacts.v ===== *)
(** * Correctness of the ancestor queries

    Against a well-formed index the skipping search for the [n]-th ancestor
    agrees with following parents, descent and the last common ancestor are
    decided correctly, and the batched iterator lists the ancestors in order. *)

From stdpp Require Import base numbers list strings gmap.
From S2P Require Import Prelude Float64 StateErrors Transactions TwoWayPeg Bodies Archive.

Section Ancestors.
Context (ix : Index).
Implicit Types (h x y : bytes) (n k : Z).

Definition height_is h n : Prop := ix_height ix h = Ok n.

(** The reference definition: follow the parent [k] times. *)
Fixpoint nth_parent (k : nat) (h : bytes) : option bytes :=
  match k with
  | O => Some h
  | S k => match ix_parent ix h with Ok p => nth_parent k p | Err _ => None end
  end.

Lemma nth_parent_add (j k : nat) h : nth_parent (j + k) h = x ← nth_parent j h; nth_parent k x.
Proof.
  revert h. induction j as [|j IH]; intros h; simpl; [done|]. by destruct (ix_parent ix h).
Qed.

(** Every block above height 0 has a parent one lower, and its list holds the
    ancestors at the powers of two up to its height. *)
Record index_ok : Prop := {
  io_range h n : height_is h n → 0 ≤ n ≤ U32_MAX;
  io_parent h n : height_is h n → 0 < n → ∃ p, ix_parent ix h = Ok p ∧ height_is p (n - 1);
  io_ancestors h n : height_is h n → ∃ l, ix_ancestors ix h = Ok l ∧
    (∀ i : nat, 2 ^ (Z.of_nat i + 1) ≤ n →
      ∃ x, l !! i = Some x ∧ nth_parent (Z.to_nat (2 ^ (Z.of_nat i + 1))) h = Some x) ∧
    ∀ i : nat, is_Some (l !! i) → 2 ^ (Z.of_nat i + 1) ≤ n
}.

Context (Hix : index_ok).

Lemma nth_parent_height (k : nat) h n :
  height_is h n → Z.of_nat k ≤ n → ∃ x, nth_parent k h = Some x ∧ height_is x (n - Z.of_nat k).
Proof.
  revert h n. induction k as [|k IH]; intros h n Hh Hk.
  { exists h. split; [done|]. by rewrite Z.sub_0_r. }
  destruct (io_parent Hix h n Hh) as (p & Hp & Hhp); [lia|]. simpl. rewrite Hp.
  destruct (IH p (n - 1)) as (x & Hx & Hhx); [done|lia|]. exists x. split; [done|].
  by replace (n - Z.of_nat (S k)) with (n - 1 - Z.of_nat k) by lia.
Qed.

Lemma nth_ancestor_loop_ok (fuel : nat) orig orig_n h n k :
  height_is h n → 0 ≤ k ≤ n → k < 2 ^ Z.of_nat fuel →
  ∃ x, nth_ancestor_loop (S fuel) ix orig orig_n h k = Ok x ∧
       nth_parent (Z.to_nat k) h = Some x ∧ height_is x (n - k).
Proof.
  revert h n k. induction fuel as [|fuel IH]; intros h n k Hh Hk Hf.
  { assert (k = 0) as -> by (simpl in Hf; lia). exists h. split_and!; [done|done|]. by rewrite Z.sub_0_r. }
  remember (S fuel) as f eqn:Ef. cbn [nth_ancestor_loop]. destruct (Z.leb_spec k 0) as [Hle|Hgt].
  { assert (k = 0) as -> by lia. exists h. split_and!; [done|done|]. by rewrite Z.sub_0_r. }
  unfold height_is in Hh. rewrite Hh. simpl. destruct (Z.ltb_spec n k); [lia|].
  destruct (Z.eqb_spec k 1) as [->|Hne].
  { destruct (io_parent Hix h n Hh) as (p & Hp & Hhp); [lia|]. exists p. split_and!; [done| |done].
    simpl. by rewrite Hp. }
  assert (1 ≤ Z.log2 k) as Hlog by (apply Z.log2_le_pow2; simpl; lia).
  destruct (Z.log2_spec k ltac:(lia)) as [Hlo Hhi].
  destruct (io_ancestors Hix h n Hh) as (l & -> & Hl & _). simpl.
  destruct (Hl (Z.to_nat (Z.log2 k - 1))) as (x & Hx & Hpx).
  { rewrite Z2Nat.id by lia. replace (Z.log2 k - 1 + 1) with (Z.log2 k) by lia. lia. }
  rewrite Z2Nat.id in Hpx by lia. replace (Z.log2 k - 1 + 1) with (Z.log2 k) in Hpx by lia.
  rewrite Hx. simpl.
  assert (Z.shiftl 2 (Z.log2 k - 1) = 2 ^ Z.log2 k) as ->.
  { rewrite Z.shiftl_mul_pow2 by lia. rewrite <- (Z.pow_succ_r 2) by lia. f_equal. lia. }
  destruct (nth_parent_height (Z.to_nat (2 ^ Z.log2 k)) h n Hh) as (x' & Hx' & Hhx); [lia|].
  assert (x' = x) as -> by congruence. rewrite Z2Nat.id in Hhx by lia.
  assert (2 ^ Z.log2 k ≤ 2 ^ Z.of_nat fuel) as Hpow.
  { apply Z.pow_le_mono_r; [lia|]. assert (Z.log2 k < Z.of_nat (S fuel)); [|lia].
    apply Z.log2_lt_pow2; [lia|]. by rewrite <- Ef. }
  rewrite Z.pow_succ_r in Hhi by lia.
  destruct (IH x (n - 2 ^ Z.log2 k) (k - 2 ^ Z.log2 k)) as (y & Hy & Hpy & Hhy); [done|lia|lia|].
  subst f. exists y. split_and!; [exact Hy| |by replace (n - k) with (n - 2 ^ Z.log2 k - (k - 2 ^ Z.log2 k)) by lia].
  replace (Z.to_nat k) with (Z.to_nat (2 ^ Z.log2 k) + Z.to_nat (k - 2 ^ Z.log2 k))%nat by lia.
  rewrite nth_parent_add, Hpx. exact Hpy.
Qed.

Lemma nth_ancestor_ok h n k :
  height_is h n → 0 ≤ k ≤ n →
  ∃ x, nth_ancestor ix h k = Ok x ∧ nth_parent (Z.to_nat k) h = Some x ∧ height_is x (n - k).
Proof.
  intros Hh Hk. unfold nth_ancestor. replace (Z.to_nat (Z.log2 k + 2)) with (S (Z.to_nat (Z.log2 k + 1)))
    by (pose proof (Z.log2_nonneg k); lia).
  apply nth_ancestor_loop_ok; [done|done|]. pose proof (Z.log2_nonneg k). rewrite Z2Nat.id by lia.
  destruct (decide (k = 0)) as [->|]; [by simpl|]. apply Z.log2_spec. lia.
Qed.

Lemma nth_ancestor_deep h n k :
  height_is h n → n < k → nth_ancestor ix h k = Err (ix_no_ancestor ix h k).
Proof.
  intros Hh Hk. destruct (io_range Hix h n Hh). unfold nth_ancestor.
  replace (Z.to_nat (Z.log2 k + 2)) with (S (Z.to_nat (Z.log2 k + 1))) by (pose proof (Z.log2_nonneg k); lia).
  simpl. destruct (Z.leb_spec k 0); [lia|]. unfold height_is in Hh. rewrite Hh. simpl.
  by destruct (Z.ltb_spec n k); [|lia].
Qed.

(** ** Descent *)

Definition ancestor_of x h : Prop :=
  ∃ n (k : nat), height_is h n ∧ Z.of_nat k ≤ n ∧ nth_parent k h = Some x.

Lemma height_is_fun h n n' : height_is h n → height_is h n' → n = n'.
Proof. unfold height_is. congruence. Qed.

Lemma ancestor_of_height x h : ancestor_of x h → ∃ n k, height_is h n ∧ height_is x (n - k) ∧
  0 ≤ k ≤ n ∧ nth_parent (Z.to_nat k) h = Some x.
Proof.
  intros (n & k & Hh & Hk & Hx). destruct (nth_parent_height k h n Hh Hk) as (y & Hy & Hhy).
  assert (y = x) as -> by congruence. exists n, (Z.of_nat k). rewrite Nat2Z.id. split_and!; [done|done|lia|lia|done].
Qed.

Lemma is_descendant_in_ok x h nx n :
  height_is x nx → height_is h n →
  ∃ b, is_descendant_in ix x h = Ok b ∧ (b = true ↔ ancestor_of x h).
Proof.
  intros Hx Hh. unfold is_descendant_in. destruct (decide (x = h)) as [->|Hne].
  { rewrite bool_decide_true by done. exists true. split; [done|]. split; [|done]. intros _.
    exists n, 0%nat. split_and!; [done| |done]. destruct (io_range Hix h n Hh). lia. }
  rewrite bool_decide_false by done. unfold height_is in Hx, Hh. rewrite Hx, Hh. simpl.
  destruct (Z.ltb_spec n nx) as [Hlt|Hge].
  { exists false. split; [done|]. split; [done|]. intros (n' & k & Hh' & Hx' & Hk & _)%ancestor_of_height.
    pose proof (height_is_fun _ _ _ Hh Hh'). pose proof (height_is_fun _ _ _ Hx Hx'). lia. }
  destruct (io_range Hix x nx Hx).
  destruct (nth_ancestor_ok h n (n - nx) Hh) as (y & -> & Hy & Hhy); [lia|]. simpl.
  exists (bool_decide (x = y)). split; [done|]. rewrite bool_decide_eq_true. split.
  - intros ->. exists n, (Z.to_nat (n - nx)). split_and!; [done|lia|done].
  - intros (n' & k & Hh' & Hx' & Hk & Hp)%ancestor_of_height.
    pose proof (height_is_fun _ _ _ Hh Hh'). pose proof (height_is_fun _ _ _ Hx Hx').
    assert (k = n - nx) as -> by lia. congruence.
Qed.

(** ** Last common ancestors *)

Lemma ancestor_of_nth x h n k :
  height_is h n → 0 ≤ k ≤ n → nth_parent (Z.to_nat k) h = Some x → ancestor_of x h.
Proof. intros Hh Hk Hx. exists n, (Z.to_nat k). split_and!; [done|lia|done]. Qed.

(** The blocks that both descend from, brought to a common height. *)
Lemma equalize_ok h0 h1 n0 n1 :
  height_is h0 n0 → height_is h1 n1 →
  ∃ e0 e1, equalize ix h0 h1 = Ok (e0, e1, Z.min n0 n1) ∧
    height_is e0 (Z.min n0 n1) ∧ height_is e1 (Z.min n0 n1) ∧
    nth_parent (Z.to_nat (n0 - Z.min n0 n1)) h0 = Some e0 ∧
    nth_parent (Z.to_nat (n1 - Z.min n0 n1)) h1 = Some e1.
Proof.
  intros H0 H1. destruct (io_range Hix _ _ H0), (io_range Hix _ _ H1).
  unfold equalize. pose proof H0 as E0. pose proof H1 as E1. unfold height_is in E0, E1.
  rewrite E0, E1. simpl. destruct (Z.compare_spec n0 n1) as [->|Hlt|Hgt].
  - rewrite Z.min_id, Z.sub_diag. by exists h0, h1.
  - rewrite Z.min_l by lia. destruct (nth_ancestor_ok h1 n1 (n1 - n0) H1) as (e & -> & He & Hh); [lia|].
    simpl. exists h0, e. rewrite Z.sub_diag. replace (n1 - (n1 - n0)) with n0 in Hh by lia. done.
  - rewrite Z.min_r by lia. destruct (nth_ancestor_ok h0 n0 (n0 - n1) H0) as (e & -> & He & Hh); [lia|].
    simpl. exists e, h1. rewrite Z.sub_diag. replace (n0 - (n0 - n1)) with n1 in Hh by lia. done.
Qed.

(** Ancestors of a block at or below a height are ancestors of its ancestor
    there. *)
Lemma ancestor_below x h n e k m :
  height_is h n → 0 ≤ k ≤ n → nth_parent (Z.to_nat k) h = Some e →
  height_is x m → m ≤ n - k → (ancestor_of x h ↔ ancestor_of x e).
Proof.
  intros Hh Hk He Hx Hm. destruct (nth_parent_height (Z.to_nat k) h n Hh) as (e' & He' & Hhe); [lia|].
  assert (e' = e) as -> by congruence. rewrite Z2Nat.id in Hhe by lia. split.
  - intros (n' & j & Hh' & Hx' & Hj & Hp)%ancestor_of_height.
    pose proof (height_is_fun _ _ _ Hh Hh'). pose proof (height_is_fun _ _ _ Hx Hx'). subst n'.
    apply (ancestor_of_nth x e (n - k) (j - k) Hhe); [lia|].
    replace (Z.to_nat j) with (Z.to_nat k + Z.to_nat (j - k))%nat in Hp by lia.
    by rewrite nth_parent_add, He in Hp.
  - intros (n' & j & Hh' & Hx' & Hj & Hp)%ancestor_of_height.
    pose proof (height_is_fun _ _ _ Hhe Hh'). subst n'.
    apply (ancestor_of_nth x h n (k + j) Hh); [lia|].
    replace (Z.to_nat (k + j)) with (Z.to_nat k + Z.to_nat j)%nat by lia.
    by rewrite nth_parent_add, He.
Qed.

Definition agree h0 h1 k : Prop := nth_parent (Z.to_nat k) h0 = nth_parent (Z.to_nat k) h1.

Lemma agree_mono h0 h1 k j : 0 ≤ k ≤ j → agree h0 h1 k → agree h0 h1 j.
Proof.
  unfold agree. intros Hk H. replace (Z.to_nat j) with (Z.to_nat k + Z.to_nat (j - k))%nat by lia.
  by rewrite !nth_parent_add, H.
Qed.

Lemma common_depth_S (fuel : nat) h0 h1 lo hi :
  common_depth (S fuel) ix h0 h1 lo hi =
  if lo <? hi then
    mid0 ← nth_ancestor ix h0 (as_u32 (lo + hi) / 2);
    mid1 ← nth_ancestor ix h1 (as_u32 (lo + hi) / 2);
    if bool_decide (mid0 = mid1) then common_depth fuel ix h0 h1 lo (as_u32 (lo + hi) / 2)
    else common_depth fuel ix h0 h1 (as_u32 (lo + hi) / 2 + 1) hi
  else Ok hi.
Proof. reflexivity. Qed.

(** The binary search finds the least depth at which the blocks agree. *)
Lemma common_depth_ok (fuel : nat) h0 h1 m lo hi :
  height_is h0 m → height_is h1 m → m < 2 ^ 31 →
  1 ≤ lo → lo ≤ hi → hi ≤ m → hi - lo < 2 ^ Z.of_nat fuel →
  ¬ agree h0 h1 (lo - 1) → agree h0 h1 hi →
  ∃ d, common_depth (S fuel) ix h0 h1 lo hi = Ok d ∧ lo ≤ d ≤ hi ∧ agree h0 h1 d ∧ ¬ agree h0 h1 (d - 1).
Proof.
  intros H0 H1 Hm. revert lo hi. induction fuel as [|fuel IH]; intros lo hi Hlo Hle Hhi Hf Hna Ha.
  { assert (lo = hi) as -> by (simpl in Hf; lia). exists hi. rewrite common_depth_S, Z.ltb_irrefl. done. }
  rewrite common_depth_S. destruct (Z.ltb_spec lo hi) as [Hlt|]; [|assert (lo = hi) as -> by lia; by exists hi].
  assert (as_u32 (lo + hi) = lo + hi) as -> by (apply wrap_unsigned_small; lia).
  remember ((lo + hi) / 2) as mid eqn:Emid. assert (lo ≤ mid < hi) as Hmid by (subst mid; split; [apply Z.div_le_lower_bound|apply Z.div_lt_upper_bound]; lia).
  destruct (nth_ancestor_ok h0 m mid H0) as (x0 & Hn0 & Hx0 & _); [lia|].
  destruct (nth_ancestor_ok h1 m mid H1) as (x1 & Hn1 & Hx1 & _); [lia|].
  rewrite Hn0, Hn1. cbn [mbind result_bind].
  assert (hi - lo < 2 * 2 ^ Z.of_nat fuel) as Hf' by (rewrite <- Z.pow_succ_r by lia; by rewrite Nat2Z.inj_succ in Hf).
  assert (2 * mid ≤ lo + hi) as Hd1 by (subst mid; apply Z.mul_div_le; lia).
  assert (lo + hi < 2 * (mid + 1)) as Hd2 by (subst mid; pose proof (Z.mul_succ_div_gt (lo + hi) 2); lia).
  case_bool_decide as He.
  - destruct (IH lo mid) as (d & Hd & Hr & Hag); [lia|lia|lia|lia|done|unfold agree; congruence|].
    exists d. split_and!; [exact Hd|lia|lia|apply Hag|apply Hag].
  - destruct (IH (mid + 1) hi) as (d & Hd & Hr & Hag); [lia|lia|lia|lia| |done|].
    { replace (mid + 1 - 1) with mid by lia. unfold agree. congruence. }
    exists d. split_and!; [exact Hd|lia|lia|apply Hag|apply Hag].
Qed.

(** [x] is the last common ancestor of two blocks. *)
Definition last_common x h0 h1 : Prop :=
  ancestor_of x h0 ∧ ancestor_of x h1 ∧ ∀ y, ancestor_of y h0 → ancestor_of y h1 → ancestor_of y x.

Lemma common_equalized h0 h1 n0 n1 e0 e1 m y :
  height_is h0 n0 → height_is h1 n1 → m = Z.min n0 n1 →
  nth_parent (Z.to_nat (n0 - m)) h0 = Some e0 → nth_parent (Z.to_nat (n1 - m)) h1 = Some e1 →
  (ancestor_of y h0 ∧ ancestor_of y h1 ↔ ancestor_of y e0 ∧ ancestor_of y e1).
Proof.
  intros H0 H1 -> He0 He1. destruct (io_range Hix _ _ H0), (io_range Hix _ _ H1).
  assert (∀ h n k e, height_is h n → 0 ≤ k ≤ n → nth_parent (Z.to_nat k) h = Some e → height_is e (n - k)) as Hat.
  { intros h n k e Hh Hk He. destruct (nth_parent_height (Z.to_nat k) h n Hh) as (e' & He' & Hhe); [lia|].
    rewrite Z2Nat.id in Hhe by lia. congruence. }
  pose proof (Hat h0 n0 (n0 - Z.min n0 n1) e0 H0 ltac:(lia) He0) as Hh0.
  pose proof (Hat h1 n1 (n1 - Z.min n0 n1) e1 H1 ltac:(lia) He1) as Hh1.
  assert (∀ h n, height_is h n → ancestor_of y h → ∃ q, height_is y q ∧ q ≤ n) as Hy.
  { intros h n Hh (n' & k & Hh' & Hx' & Hk & _)%ancestor_of_height.
    pose proof (height_is_fun _ _ _ Hh Hh'). eexists. split; [exact Hx'|lia]. }
  split.
  - intros [Ha Hb]. destruct (Hy _ _ H0 Ha) as (q & Hq & ?), (Hy _ _ H1 Hb) as (q' & Hq' & ?).
    pose proof (height_is_fun _ _ _ Hq Hq'). subst q'.
    split; [eapply (ancestor_below y h0 n0 e0 (n0 - Z.min n0 n1) q)|eapply (ancestor_below y h1 n1 e1 (n1 - Z.min n0 n1) q)];
      try done; lia.
  - intros [Ha Hb]. destruct (Hy _ _ Hh0 Ha) as (q & Hq & ?).
    split; [eapply (ancestor_below y h0 n0 e0 (n0 - Z.min n0 n1) q)|eapply (ancestor_below y h1 n1 e1 (n1 - Z.min n0 n1) q)];
      try done; lia.
Qed.

(** The least depth at which equalized blocks agree gives their last common
    ancestor. *)
Lemma agree_last_common e0 e1 m d x :
  height_is e0 m → height_is e1 m → 1 ≤ d ≤ m → agree e0 e1 d → ¬ agree e0 e1 (d - 1) →
  nth_parent (Z.to_nat d) e0 = Some x → last_common x e0 e1.
Proof.
  intros H0 H1 Hd Ha Hna Hx.
  assert (nth_parent (Z.to_nat d) e1 = Some x) as Hx1 by (unfold agree in Ha; congruence).
  destruct (nth_parent_height (Z.to_nat d) e0 m H0) as (x' & Hx' & Hhx); [lia|].
  assert (x' = x) as -> by congruence. rewrite Z2Nat.id in Hhx by lia.
  split_and!; [by apply (ancestor_of_nth x e0 m d H0); [lia|]|by apply (ancestor_of_nth x e1 m d H1); [lia|]|].
  intros y (n & k & Hh & Hy & Hk & Hp)%ancestor_of_height (n' & k' & Hh' & Hy' & Hk' & Hp')%ancestor_of_height.
  pose proof (height_is_fun _ _ _ H0 Hh). pose proof (height_is_fun _ _ _ H1 Hh').
  pose proof (height_is_fun _ _ _ Hy Hy'). subst n n'. assert (k' = k) as -> by lia.
  assert (agree e0 e1 k) as Hak by (unfold agree; congruence).
  assert (d ≤ k) as Hdk.
  { destruct (Z.le_gt_cases d k); [done|]. exfalso. apply Hna. apply (agree_mono e0 e1 k); [lia|done]. }
  apply (ancestor_of_nth y x (m - d) (k - d) Hhx); [lia|].
  replace (Z.to_nat k) with (Z.to_nat d + Z.to_nat (k - d))%nat in Hp by lia.
  by rewrite nth_parent_add, Hx in Hp.
Qed.

Lemma ancestor_of_refl h n : height_is h n → ancestor_of h h.
Proof. intros Hh. exists n, 0%nat. split_and!; [done|destruct (io_range Hix h n Hh); lia|done]. Qed.

(** Depth 0 and the full depth: different blocks, the same first block. *)
Lemma search_ok e0 e1 m :
  height_is e0 m → height_is e1 m → m < 2 ^ 31 → e0 ≠ e1 →
  nth_parent (Z.to_nat m) e0 = nth_parent (Z.to_nat m) e1 →
  ∃ d x, common_depth (Z.to_nat (Z.log2 m + 2)) ix e0 e1 1 m = Ok d ∧ nth_ancestor ix e0 d = Ok x ∧ last_common x e0 e1.
Proof.
  intros H0 H1 Hm Hne Hroot. destruct (io_range Hix _ _ H0).
  assert (¬ agree e0 e1 0) as Hna by (unfold agree; simpl; congruence).
  assert (1 ≤ m) as Hm1 by (destruct (decide (m = 0)) as [->|]; [by destruct Hna|lia]).
  pose proof (Z.log2_nonneg m).
  destruct (common_depth_ok (Z.to_nat (Z.log2 m + 1)) e0 e1 m 1 m) as (d & Hc & Hr & Ha & Hn);
    [done|done|done|lia|lia|lia| |done|done|].
  { rewrite Z2Nat.id by lia. destruct (Z.log2_spec m ltac:(lia)). lia. }
  replace (Z.to_nat (Z.log2 m + 2)) with (S (Z.to_nat (Z.log2 m + 1))) by lia.
  destruct (nth_ancestor_ok e0 m d H0) as (x & Hx & Hp & _); [lia|].
  exists d, x. split_and!; [exact Hc|exact Hx|]. by apply (agree_last_common e0 e1 m d x).
Qed.

Lemma no_common_root e0 e1 m y :
  height_is e0 m → height_is e1 m → nth_parent (Z.to_nat m) e0 ≠ nth_parent (Z.to_nat m) e1 →
  ancestor_of y e0 → ancestor_of y e1 → False.
Proof.
  intros H0 H1 Hne (n & k & Hh & Hy & Hk & Hp)%ancestor_of_height (n' & k' & Hh' & Hy' & Hk' & Hp')%ancestor_of_height.
  pose proof (height_is_fun _ _ _ H0 Hh). pose proof (height_is_fun _ _ _ H1 Hh').
  pose proof (height_is_fun _ _ _ Hy Hy'). subst n n'. assert (k' = k) as -> by lia.
  apply Hne. apply (agree_mono e0 e1 k m); [lia|]. unfold agree. congruence.
Qed.

Lemma last_common_equalized h0 h1 e0 e1 n0 n1 x :
  height_is h0 n0 → height_is h1 n1 →
  nth_parent (Z.to_nat (n0 - Z.min n0 n1)) h0 = Some e0 →
  nth_parent (Z.to_nat (n1 - Z.min n0 n1)) h1 = Some e1 →
  last_common x e0 e1 → last_common x h0 h1.
Proof.
  intros H0 H1 He0 He1 (Ha & Hb & Hmax).
  destruct (proj2 (common_equalized h0 h1 n0 n1 e0 e1 _ x H0 H1 eq_refl He0 He1) (conj Ha Hb)).
  split_and!; [done|done|]. intros y Hy0 Hy1.
  destruct (proj1 (common_equalized h0 h1 n0 n1 e0 e1 _ y H0 H1 eq_refl He0 He1) (conj Hy0 Hy1)).
  by apply Hmax.
Qed.

Lemma last_common_self e n : height_is e n → last_common e e e.
Proof. intros He. split_and!; [by eapply ancestor_of_refl..|done]. Qed.

Lemma last_common_ancestor_in_ok h0 h1 n0 n1 :
  height_is h0 n0 → height_is h1 n1 → n0 < 2 ^ 31 → n1 < 2 ^ 31 →
  ∃ o, last_common_ancestor_in ix h0 h1 = Ok o ∧
    match o with
    | Some x => last_common x h0 h1
    | None => ∀ y, ancestor_of y h0 → ancestor_of y h1 → False
    end.
Proof.
  intros Hh0 Hh1 Hb0 Hb1.
  destruct (equalize_ok h0 h1 n0 n1 Hh0 Hh1) as (e0 & e1 & Heq & He0 & He1 & Hp0 & Hp1).
  unfold last_common_ancestor_in. rewrite Heq. cbn [mbind result_bind].
  assert (0 ≤ Z.min n0 n1) as Hm by (destruct (io_range Hix _ _ Hh0), (io_range Hix _ _ Hh1); lia).
  destruct (decide (e0 = e1)) as [<-|Hne].
  { rewrite bool_decide_true by done. exists (Some e0). split; [done|].
    eapply last_common_equalized; [done..|]. by eapply last_common_self. }
  rewrite bool_decide_false by done.
  destruct (nth_ancestor_ok e0 _ (Z.min n0 n1) He0) as (r0 & Hr0 & Hq0 & _); [lia|].
  destruct (nth_ancestor_ok e1 _ (Z.min n0 n1) He1) as (r1 & Hr1 & Hq1 & _); [lia|].
  rewrite Hr0, Hr1. cbn [mbind result_bind]. destruct (decide (r0 = r1)) as [<-|Hr].
  - rewrite bool_decide_true by done. cbn [negb].
    destruct (search_ok e0 e1 _ He0 He1) as (d & x & Hd & Hx & Hlast); [lia|done|congruence|].
    rewrite Hd. cbn [mbind result_bind]. rewrite Hx. exists (Some x). split; [done|].
    by eapply last_common_equalized.
  - rewrite bool_decide_false by done. exists None. split; [done|]. intros y Hy0 Hy1.
    destruct (proj1 (common_equalized h0 h1 n0 n1 e0 e1 _ y Hh0 Hh1 eq_refl Hp0 Hp1) (conj Hy0 Hy1)) as [Ha Hb].
    eapply (no_common_root e0 e1 _ y He0 He1); [congruence|done|done].
Qed.

Lemma last_common_main_ancestor_in_ok h0 h1 n0 n1 :
  height_is h0 n0 → height_is h1 n1 → n0 < 2 ^ 31 → n1 < 2 ^ 31 →
  nth_parent (Z.to_nat n0) h0 = nth_parent (Z.to_nat n1) h1 →
  ∃ x, last_common_main_ancestor_in ix h0 h1 = Ok x ∧ last_common x h0 h1.
Proof.
  intros Hh0 Hh1 Hb0 Hb1 Hroot.
  destruct (equalize_ok h0 h1 n0 n1 Hh0 Hh1) as (e0 & e1 & Heq & He0 & He1 & Hp0 & Hp1).
  unfold last_common_main_ancestor_in. rewrite Heq. cbn [mbind result_bind].
  destruct (io_range Hix _ _ Hh0), (io_range Hix _ _ Hh1).
  destruct (decide (e0 = e1)) as [<-|Hne].
  { rewrite bool_decide_true by done. exists e0. split; [done|].
    eapply last_common_equalized; [done..|]. by eapply last_common_self. }
  rewrite bool_decide_false by done.
  destruct (search_ok e0 e1 _ He0 He1) as (d & x & Hd & Hx & Hlast); [lia|done| |].
  { replace (Z.to_nat n0) with (Z.to_nat (n0 - Z.min n0 n1) + Z.to_nat (Z.min n0 n1))%nat in Hroot by lia.
    replace (Z.to_nat n1) with (Z.to_nat (n1 - Z.min n0 n1) + Z.to_nat (Z.min n0 n1))%nat in Hroot by lia.
    rewrite !nth_parent_add, Hp0, Hp1 in Hroot. exact Hroot. }
  rewrite Hd. cbn [mbind result_bind]. exists x. split; [done|]. by eapply last_common_equalized.
Qed.

(** Two blocks share a lineage when one is an ancestor of the other. *)
Lemma shared_lineage_in_ok h0 h1 n0 n1 :
  height_is h0 n0 → height_is h1 n1 →
  ∃ b, shared_lineage_in ix h0 h1 = Ok b ∧ (b = true ↔ ancestor_of h0 h1 ∨ ancestor_of h1 h0).
Proof.
  intros Hh0 Hh1.
  destruct (equalize_ok h0 h1 n0 n1 Hh0 Hh1) as (e0 & e1 & Heq & He0 & He1 & Hp0 & Hp1).
  unfold shared_lineage_in. rewrite Heq. cbn [mbind result_bind]. exists (bool_decide (e0 = e1)).
  split; [done|]. rewrite bool_decide_eq_true. destruct (io_range Hix _ _ Hh0), (io_range Hix _ _ Hh1). split.
  - intros <-. destruct (Z.le_ge_cases n0 n1).
    + left. replace (Z.min n0 n1) with n0 in * by lia. rewrite Z.sub_diag in Hp0. injection Hp0 as ->.
      apply (ancestor_of_nth _ _ n1 (n1 - n0)); [done|lia|done].
    + right. replace (Z.min n0 n1) with n1 in * by lia. rewrite Z.sub_diag in Hp1. injection Hp1 as ->.
      apply (ancestor_of_nth _ _ n0 (n0 - n1)); [done|lia|done].
  - intros [(n & k & Hh & Hx & Hk & Hp)%ancestor_of_height|(n & k & Hh & Hx & Hk & Hp)%ancestor_of_height].
    + pose proof (height_is_fun _ _ _ Hh1 Hh). pose proof (height_is_fun _ _ _ Hh0 Hx). subst n.
      replace (Z.min n0 n1) with n0 in * by lia. rewrite Z.sub_diag in Hp0. injection Hp0 as ->.
      replace (n1 - n0) with k in * by lia. congruence.
    + pose proof (height_is_fun _ _ _ Hh0 Hh). pose proof (height_is_fun _ _ _ Hh1 Hx). subst n.
      replace (Z.min n0 n1) with n1 in * by lia. rewrite Z.sub_diag in Hp1. injection Hp1 as ->.
      replace (n0 - n1) with k in * by lia. congruence.
Qed.

End Ancestors.

(** ** The batched iterator *)

Section Batches.
Context {Item : Type} (end_height : Z) (block_at : Z → bytes) (item_at : Z → Item).
Context (nth : Z → result ArchiveError bytes) (take_items : nat → bytes → result ArchiveError (list Item)).

(** From the last block down, [nth] and [take_items] return the blocks of the
    chain [block_at]. *)
Context (Hend : end_height ≤ U32_MAX)
  (Hnth : ∀ k, 0 ≤ k ≤ end_height → nth k = Ok (block_at (end_height - k)))
  (Htake : ∀ (n : nat) j, Z.of_nat n ≤ j + 1 → j ≤ end_height →
     take_items n (block_at j) = Ok (map item_at (rev (range (j + 1 - Z.of_nat n) (j + 1))))).

(** What the iterator still has to return. *)
Definition rest_of (it : AncestorsRev Item) : list Item :=
  match rv_inner it with Some (_, buffer) => buffer | None => [] end ++
  match rv_batch_start_height it with Some s => map item_at (range s (end_height + 1)) | None => [] end.

Definition iter_ok (it : AncestorsRev Item) : Prop :=
  match rv_inner it with Some (e, _) => e = end_height | None => True end ∧
  match rv_batch_start_height it with Some s => 0 ≤ s | None => True end.

Let next := rev_next (Ok end_height) nth take_items.
Let collect := rev_collect (Ok end_height) nth take_items.

(** One call returns the next item of the rest. *)
Lemma rev_next_ok it :
  iter_ok it → ∃ it', next it = Ok (head (rest_of it), it') ∧ iter_ok it' ∧ rest_of it' = tail (rest_of it).
Proof.
  destruct it as [start inner]. unfold iter_ok, rest_of, next, rev_next. cbn [rv_inner rv_batch_start_height].
  intros [Hin Hst].
  assert (∃ buffer, match inner with Some i => Ok i | None => h ← Ok end_height; Ok (h, []) end
    = (Ok (end_height, buffer) : result ArchiveError (Z * list Item)) ∧
    match inner with Some (_, b) => b | None => [] end = buffer) as (buffer & -> & ->).
  { destruct inner as [[e b]|]; [subst; by exists b|by exists []]. }
  cbn [mbind result_bind]. destruct buffer as [|item buffer]; [|by eexists].
  destruct start as [s|]; [|by eexists]. destruct (Z.ltb_spec end_height s) as [Hlt|Hge].
  { rewrite range_empty by lia. eexists. split; [reflexivity|]. cbn. split; [done|]. by rewrite range_empty by lia. }
  set (off := Z.min (end_height - s) (MAX_BATCH_SIZE - 1)).
  assert (0 ≤ off ≤ end_height - s) as Hoff by (subst off; unfold MAX_BATCH_SIZE; lia).
  rewrite Hnth by lia. cbn [mbind result_bind].
  replace (end_height - (end_height - s - off)) with (s + off) by lia.
  rewrite Htake by lia. cbn [mbind result_bind].
  replace (s + off + 1 - Z.of_nat (Z.to_nat (off + 1))) with s by lia.
  rewrite <- map_rev, rev_involutive, (range_cons s (s + off + 1)), (range_cons s (end_height + 1)) by lia.
  cbn [map app head tail].
  eexists. split_and!; [reflexivity|done| |]; cbn [rv_inner rv_batch_start_height].
  { by destruct (_ && _); [lia|]. }
  assert (∀ b : bool, (b = true ↔ s + (off + 1) ≤ end_height) →
    map item_at (range (s + 1) (s + off + 1)) ++
    match (if b then Some (s + (off + 1)) else None) with
    | Some s => map item_at (range s (end_height + 1)) | None => [] end
    = map item_at (range (s + 1) (end_height + 1))) as H.
  { intros b Hb. destruct (decide (s + (off + 1) ≤ end_height)) as [Hle|Hgt].
    - apply Hb in Hle as Ht. subst b. rewrite <- map_app, (range_split (s + 1) (s + off + 1) (end_height + 1)) by lia.
      do 3 f_equal. lia.
    - destruct b; [exfalso; by apply Hgt, Hb|]. rewrite app_nil_r. do 2 f_equal. lia. }
  apply H. rewrite andb_true_iff, !Z.leb_le. lia.
Qed.

(** Collecting the batched iterator returns the items from the starting
    height to the last block, oldest first, in one turn per item. *)
Lemma rev_collect_ok (fuel : nat) it :
  iter_ok it → (length (rest_of it) < fuel)%nat → collect fuel it = Ok (rest_of it).
Proof.
  revert it. induction fuel as [|fuel IH]; intros it Hok Hlen; [lia|].
  destruct (rev_next_ok it Hok) as (it' & Hn & Hok' & Hr). unfold collect in *. simpl. fold next.
  rewrite Hn. cbn [mbind result_bind]. destruct (rest_of it) as [|x l] eqn:E; [done|]. simpl in *.
  rewrite IH by (done || (rewrite Hr; lia)). simpl. by rewrite Hr.
Qed.

End Batches.
