(* ===== verification/ArchiveStoreFacts.v ===== *)
(** * The archive stays well formed

    Storing headers keeps both ancestor indexes well formed; invalidating a
    block removes exactly its descendants; the consequences for the queries. *)

From stdpp Require Import base numbers list strings gmap.
From S2P Require Import Prelude Float64 StateErrors Transactions TwoWayPeg Bodies Archive ArchiveStore.
From S2P Require Import ArchiveFacts.

(** ** Extending an index by one block *)

(** [ix'] answers as [ix] on the blocks of [ix]. *)
Definition index_agrees (ix ix' : Index) : Prop :=
  ∀ x n, height_is ix x n →
    height_is ix' x n ∧ ix_parent ix' x = ix_parent ix x ∧ ix_ancestors ix' x = ix_ancestors ix x.

Section Extend.
Context (ix ix' : Index) (Hix : index_ok ix) (Hag : index_agrees ix ix').
Implicit Types (h x : bytes) (n k m : Z).

Lemma nth_parent_agrees (k : nat) x n :
  height_is ix x n → Z.of_nat k ≤ n → nth_parent ix' k x = nth_parent ix k x.
Proof.
  revert x n. induction k as [|k IH]; intros x n Hx Hk; [done|].
  destruct (io_parent ix Hix x n Hx) as (p & Hp & Hhp); [lia|].
  simpl. destruct (Hag x n Hx) as (_ & -> & _). rewrite Hp. apply (IH p (n - 1)); [done|lia].
Qed.

Lemma nth_loop_agrees (fuel : nat) o on x n k :
  height_is ix x n → 0 ≤ k ≤ n →
  nth_ancestor_loop fuel ix' o on x k = nth_ancestor_loop fuel ix o on x k.
Proof.
  revert x n k. induction fuel as [|fuel IH]; intros x n k Hx Hk; [done|].
  simpl. destruct (Z.leb_spec k 0); [done|]. destruct (Hag x n Hx) as (Hh & Hp & Ha).
  unfold height_is in Hh, Hx. rewrite Hh, Hx, Ha, Hp. simpl. destruct (Z.ltb_spec n k); [lia|].
  destruct (Z.eqb_spec k 1); [done|].
  destruct (io_ancestors ix Hix x n Hx) as (l & -> & Hl & _). simpl.
  assert (1 ≤ Z.log2 k) as Hlog by (apply Z.log2_le_pow2; simpl; lia).
  destruct (Z.log2_spec k ltac:(lia)) as [Hlo Hhi].
  destruct (Hl (Z.to_nat (Z.log2 k - 1))) as (y & Hy & Hpy).
  { rewrite Z2Nat.id by lia. replace (Z.log2 k - 1 + 1) with (Z.log2 k) by lia. lia. }
  rewrite Z2Nat.id in Hpy by lia. replace (Z.log2 k - 1 + 1) with (Z.log2 k) in Hpy by lia.
  rewrite Hy. simpl.
  assert (Z.shiftl 2 (Z.log2 k - 1) = 2 ^ Z.log2 k) as ->.
  { rewrite Z.shiftl_mul_pow2 by lia. rewrite <- (Z.pow_succ_r 2) by lia. f_equal. lia. }
  destruct (nth_parent_height ix Hix (Z.to_nat (2 ^ Z.log2 k)) x n Hx) as (y' & Hy' & Hhy); [lia|].
  assert (y' = y) as -> by congruence. rewrite Z2Nat.id in Hhy by lia.
  apply (IH y (n - 2 ^ Z.log2 k)); [done|lia].
Qed.

(** The ancestors of the parent, found through the extended index. *)
Lemma nth_ancestor_extended x n k :
  height_is ix x n → 0 ≤ k ≤ n →
  ∃ y, nth_ancestor ix' x k = Ok y ∧ nth_parent ix (Z.to_nat k) x = Some y ∧ height_is ix y (n - k).
Proof.
  intros Hx Hk. unfold nth_ancestor. rewrite (nth_loop_agrees _ _ _ _ n) by done.
  by apply (nth_ancestor_ok ix Hix).
Qed.

(** The list [acc] holds the ancestors of a child of [p] at the first powers of
    two. *)
Definition ancestors_upto (p : bytes) (i : nat) (l : list bytes) : Prop :=
  length l = i ∧ ∀ j : nat, (j < i)%nat → l !! j = nth_parent ix (Z.to_nat (2 ^ (Z.of_nat j + 1) - 1)) p.

(** The list built for a child of [p] at height [m + 1]. *)
Definition ancestors_built (p : bytes) m (l : list bytes) : Prop :=
  (∀ j : nat, 2 ^ (Z.of_nat j + 1) ≤ m + 1 →
    ∃ x, l !! j = Some x ∧ nth_parent ix (Z.to_nat (2 ^ (Z.of_nat j + 1) - 1)) p = Some x) ∧
  ∀ j : nat, is_Some (l !! j) → 2 ^ (Z.of_nat j + 1) ≤ m + 1.

Lemma exponential_loop_ok (fuel i : nat) h p m acc :
  height_is ix p m → m + 1 ≤ U32_MAX → (1 ≤ i)%nat → 2 ^ (Z.of_nat i) ≤ m + 1 →
  m + 1 < 2 ^ (Z.of_nat i + Z.of_nat fuel) → (0 < fuel)%nat →
  ancestors_upto p i acc →
  ∃ l, exponential_loop fuel ix' h (m + 1) (2 ^ (Z.of_nat i + 1)) acc = Ok l ∧ ancestors_built p m l.
Proof.
  intros Hp Hmax. destruct (io_range ix Hix p m Hp) as [Hm0 _]. revert i acc.
  induction fuel as [|fuel IH]; intros i acc Hi Hle Hlt Hf [Hlen Hacc]; [lia|].
  simpl. destruct (Z.leb_spec (2 ^ (Z.of_nat i + 1)) (m + 1)) as [Hd|Hd].
  - assert (2 ^ (Z.of_nat i + 1) = 2 * 2 ^ Z.of_nat i) as Hpow by (rewrite <- Z.pow_succ_r by lia; f_equal; lia).
    destruct i as [|i]; [lia|]. rewrite last_lookup, Hlen. simpl pred.
    rewrite (Hacc i) by lia. replace (Z.of_nat i + 1) with (Z.of_nat (S i)) by lia.
    assert (0 < 2 ^ Z.of_nat (S i)) as Hpos by (apply Z.pow_pos_nonneg; lia).
    destruct (nth_parent_height ix Hix (Z.to_nat (2 ^ Z.of_nat (S i) - 1)) p m Hp) as (x & Hx & Hhx); [lia|].
    rewrite Hx. cbn [ok_or mbind result_bind]. rewrite Z2Nat.id in Hhx by lia.
    assert (as_u32 (2 ^ (Z.of_nat (S i) + 1)) / 2 = 2 ^ Z.of_nat (S i)) as ->.
    { unfold as_u32. rewrite wrap_unsigned_small by lia. rewrite Hpow, Z.mul_comm. apply Z.div_mul. lia. }
    destruct (nth_ancestor_extended x _ (2 ^ Z.of_nat (S i)) Hhx) as (y & Hy & Hpy & _); [lia|].
    rewrite Hy. cbn [mbind result_bind].
    replace (2 ^ (Z.of_nat (S i) + 1) * 2) with (2 ^ (Z.of_nat (S (S i)) + 1))
      by (replace (Z.of_nat (S (S i)) + 1) with (Z.succ (Z.of_nat (S i) + 1)) by lia; rewrite Z.pow_succ_r by lia; lia).
    apply IH; [lia|by replace (Z.of_nat (S (S i))) with (Z.of_nat (S i) + 1) by lia|
      by replace (Z.of_nat (S (S i)) + Z.of_nat fuel) with (Z.of_nat (S i) + Z.of_nat (S fuel)) by lia| |].
    { destruct fuel; [|lia]. replace (Z.of_nat (S i) + Z.of_nat 1) with (Z.of_nat (S i) + 1) in Hlt by lia. lia. }
    split; [rewrite length_app; simpl; lia|]. intros j Hj.
    destruct (decide (j < S i)%nat) as [Hlt'|]; [rewrite lookup_app_l by lia; by apply Hacc|].
    assert (j = S i) as -> by lia. rewrite lookup_app_r, Hlen, Nat.sub_diag by lia. simpl. symmetry.
    replace (Z.to_nat (2 ^ (Z.of_nat (S i) + 1) - 1))
      with (Z.to_nat (2 ^ Z.of_nat (S i) - 1) + Z.to_nat (2 ^ Z.of_nat (S i)))%nat by lia.
    by rewrite nth_parent_add, Hx.
  - exists acc. split; [done|]. split.
    2: { intros j Hj%lookup_lt_is_Some. rewrite Hlen in Hj. etrans; [|exact Hle]. apply Z.pow_le_mono_r; lia. }
    intros j Hj. assert (j < i)%nat as Hji.
    { apply Nat2Z.inj_lt.
      assert (2 ^ (Z.of_nat j + 1) < 2 ^ (Z.of_nat i + 1)) as Hlt2 by lia.
      apply Z.pow_lt_mono_r_iff in Hlt2; lia. }
    rewrite (Hacc j Hji).
    destruct (nth_parent_height ix Hix (Z.to_nat (2 ^ (Z.of_nat j + 1) - 1)) p m Hp) as (x & Hx & _); [lia|].
    by exists x.
Qed.

Lemma build_ancestors_ok h p m :
  height_is ix p m → m + 1 ≤ U32_MAX →
  ∃ l, build_ancestors ix' h (Ok p) (m + 1) = Ok l ∧ ancestors_built p m l.
Proof.
  intros Hp Hmax. destruct (io_range ix Hix p m Hp) as [Hm0 _]. unfold build_ancestors.
  destruct (Z.leb_spec 2 (m + 1)) as [H2|H2].
  - cbn [mbind result_bind]. destruct (nth_ancestor_extended p m 1 Hp) as (gp & -> & Hgp & _); [lia|].
    cbn [mbind result_bind]. assert (1 ≤ Z.log2 (m + 1)) as Hlog by (apply Z.log2_le_pow2; simpl; lia).
    destruct (Z.log2_spec (m + 1) ltac:(lia)) as [_ Hhi].
    change 4 with (2 ^ (Z.of_nat 1 + 1)). eapply exponential_loop_ok; [done|done|lia|simpl; lia| |lia|].
    + rewrite Z2Nat.id by lia. by replace (Z.of_nat 1 + Z.log2 (m + 1)) with (Z.succ (Z.log2 (m + 1))) by lia.
    + split; [done|]. intros j Hj. assert (j = 0%nat) as -> by lia. simpl. by rewrite <- Hgp.
  - exists []. split; [done|]. split; [|by intros j []]. intros j Hj. exfalso.
    assert (2 ^ 1 ≤ 2 ^ (Z.of_nat j + 1)) by (apply Z.pow_le_mono_r; lia). simpl in *. lia.
Qed.

Lemma build_ancestors_genesis h p : build_ancestors ix' h p 0 = Ok [].
Proof. done. Qed.

(** Building the list of a block again gives the same list. *)
Lemma ancestors_unique h p m l l' :
  height_is ix h (m + 1) → ix_parent ix h = Ok p → ix_ancestors ix h = Ok l' →
  ancestors_built p m l → l = l'.
Proof.
  intros Hh Hp Hl' [Hb Hlen]. destruct (io_ancestors ix Hix h _ Hh) as (k & Hk & Hb' & Hlen').
  assert (k = l') as -> by congruence. apply list_eq. intros i.
  destruct (decide (2 ^ (Z.of_nat i + 1) ≤ m + 1)) as [Hle|Hgt].
  - destruct (Hb i Hle) as (x & -> & Hx), (Hb' i Hle) as (y & -> & Hy).
    assert (0 < 2 ^ (Z.of_nat i + 1)) by (apply Z.pow_pos_nonneg; lia).
    replace (Z.to_nat (2 ^ (Z.of_nat i + 1))) with (S (Z.to_nat (2 ^ (Z.of_nat i + 1) - 1))) in Hy by lia.
    simpl in Hy. rewrite Hp in Hy. congruence.
  - destruct (l !! i) eqn:E; [exfalso; apply Hgt, Hlen; eauto|].
    destruct (l' !! i) eqn:E'; [exfalso; apply Hgt, Hlen'; eauto|]. done.
Qed.

(** The extended index is well formed. *)
Lemma index_extend h height l :
  (∀ x n, height_is ix' x n → (x = h ∧ n = height) ∨ height_is ix x n) →
  height_is ix' h height → ix_ancestors ix' h = Ok l →
  (height = 0 ∧ l = []) ∨ (∃ p m, height = m + 1 ∧ ix_parent ix' h = Ok p ∧ height_is ix p m ∧
                       height ≤ U32_MAX ∧ ancestors_built p m l) →
  index_ok ix'.
Proof.
  intros Hdom Hh Hl Hcase. split.
  - intros x n Hx. destruct (Hdom x n Hx) as [[-> ->]|Hx']; [|by apply (io_range ix Hix x)].
    destruct Hcase as [[-> _]|(p & m & -> & _ & Hp & ? & _)]; [lia|]. destruct (io_range ix Hix p m Hp). lia.
  - intros x n Hx Hn. destruct (Hdom x n Hx) as [[-> ->]|Hx'].
    + destruct Hcase as [[-> _]|(p & m & -> & Hpar & Hp & _)]; [lia|]. exists p. split; [done|].
      rewrite Z.add_simpl_r. by apply Hag.
    + destruct (io_parent ix Hix x n Hx' Hn) as (p & Hp & Hhp). exists p.
      destruct (Hag x n Hx') as (_ & -> & _). split; [done|]. by apply Hag.
  - intros x n Hx. destruct (Hdom x n Hx) as [[-> ->]|Hx'].
    + exists l. split; [done|]. destruct Hcase as [[-> ->]|(p & m & -> & Hpar & Hp & _ & Hb & Hlen)].
      { split; [|by intros i []]. intros i Hi.
        assert (0 < 2 ^ (Z.of_nat i + 1)) by (apply Z.pow_pos_nonneg; lia). lia. }
      split; [|exact Hlen]. intros i Hi. destruct (Hb i Hi) as (x & Hx1 & Hx2). exists x. split; [done|].
      assert (0 < 2 ^ (Z.of_nat i + 1)) as Hpos by (apply Z.pow_pos_nonneg; lia).
      replace (Z.to_nat (2 ^ (Z.of_nat i + 1))) with (S (Z.to_nat (2 ^ (Z.of_nat i + 1) - 1))) by lia.
      simpl. rewrite Hpar, (nth_parent_agrees _ p m) by (done || lia). done.
    + destruct (io_ancestors ix Hix x n Hx') as (l' & Hl' & Hi & Hlen). exists l'.
      destruct (Hag x n Hx') as (_ & _ & ->). split; [done|]. split; [|exact Hlen]. intros i Hle.
      destruct (Hi i Hle) as (y & Hy & Hp). exists y. split; [done|].
      by rewrite (nth_parent_agrees _ x n) by (done || lia).
Qed.

End Extend.

(** ** The side chain *)

Section SideChain.
Context {AE : ArchiveEnv}.
Implicit Types (a : Archive) (h p : bytes) (hd : Header).

(** Heights, headers and successor links agree. *)
Record side_chain_ok a : Prop := {
  sc_index : index_ok (side_index a);
  sc_header h n : block_hash_to_height a !! h = Some n → is_Some (headers a !! h);
  sc_height h hd : headers a !! h = Some hd →
    header_hash hd = h ∧
    match prev_side_hash hd with
    | None => block_hash_to_height a !! h = Some 0
    | Some p => ∃ n, block_hash_to_height a !! p = Some n ∧ block_hash_to_height a !! h = Some (n + 1)
    end;
  sc_known o : is_Some (successors a !! o) ↔ match o with None => True | Some h => is_Some (headers a !! h) end;
  sc_links o s : successors a !! o = Some s →
    ∀ c, c ∈ s ↔ ∃ hd, headers a !! c = Some hd ∧ prev_side_hash hd = o
}.

Lemma height_is_side a h n : height_is (side_index a) h n ↔ block_hash_to_height a !! h = Some n.
Proof.
  unfold height_is. simpl. unfold get_height, try_get_height.
  destruct (block_hash_to_height a !! h); simpl; split; congruence.
Qed.

Lemma archive_new_ok : side_chain_ok Archive_new.
Proof.
  split.
  - split; intros h n Hh%height_is_side; simpl in Hh; by rewrite lookup_empty in Hh.
  - intros h n Hh. simpl in Hh. by rewrite lookup_empty in Hh.
  - intros h hd Hh. simpl in Hh. by rewrite lookup_empty in Hh.
  - intros [h|]; simpl.
    + rewrite lookup_singleton_ne by done. rewrite lookup_empty. by split; intros [].
    + rewrite lookup_singleton_eq. split; [done|eauto].
  - intros o s Hs c. simpl in Hs. apply lookup_singleton_Some in Hs as [<- <-]. split; [set_solver|]. intros (hd & Hh & _).
    simpl in Hh. by rewrite lookup_empty in Hh.
Qed.

(** A header that is new, or already stored under its hash, with room for its
    height. *)
Definition storable a hd : Prop :=
  (headers a !! header_hash hd = None ∨ headers a !! header_hash hd = Some hd) ∧
  ∀ p n, prev_side_hash hd = Some p → block_hash_to_height a !! p = Some n → n < U32_MAX.

(** The height [put_header] gives to a header. *)
Definition new_height a hd : option Z :=
  match prev_side_hash hd with
  | None => Some 0
  | Some p => n ← block_hash_to_height a !! p; Some (n + 1)
  end.

Lemma stored_height a hd height :
  side_chain_ok a → storable a hd → new_height a hd = Some height →
  block_hash_to_height a !! header_hash hd = None ∨
  (block_hash_to_height a !! header_hash hd = Some height ∧ headers a !! header_hash hd = Some hd).
Proof.
  intros Ha [[Hnew|Hold] _] Hh.
  - left. destruct (block_hash_to_height a !! header_hash hd) as [n|] eqn:E; [|done].
    apply (sc_header a Ha) in E as [hd' E]. congruence.
  - right. split; [|done]. destruct (sc_height a Ha _ _ Hold) as [_ Hp]. unfold new_height in Hh.
    destruct (prev_side_hash hd) as [p|]; [|congruence]. destruct Hp as (n & Hn & ->).
    rewrite Hn in Hh. simpl in Hh. congruence.
Qed.

Lemma not_own_parent a hd n :
  side_chain_ok a → storable a hd →
  block_hash_to_height a !! header_hash hd = Some n → prev_side_hash hd ≠ Some (header_hash hd).
Proof.
  intros Ha [[Hnew|Hold] _] Hn Hp.
  - apply (sc_header a Ha) in Hn as [hd' E]. congruence.
  - destruct (sc_height a Ha _ _ Hold) as [_ H]. rewrite Hp in H. destruct H as (m & H1 & H2).
    rewrite H1 in H2. injection H2. lia.
Qed.

(** What [put_header] writes to the side chain's tables. *)
Lemma put_header_inv a hd a' :
  (∀ p n, prev_side_hash hd = Some p → block_hash_to_height a !! p = Some n → 0 ≤ n < U32_MAX) →
  put_header a hd = Ok a' →
  ∃ height l pred, new_height a hd = Some height ∧ successors a !! prev_side_hash hd = Some pred ∧
    let s1 := <[prev_side_hash hd := {[header_hash hd]} ∪ pred]> (successors a) in
    let a1 := with_successors (with_headers (with_block_hash_to_height a
                (<[header_hash hd := height]> (block_hash_to_height a)))
                (<[header_hash hd := hd]> (headers a)))
                (<[Some (header_hash hd) := default ∅ (s1 !! Some (header_hash hd))]> s1) in
    build_ancestors (side_index a1) (header_hash hd)
      (ok_or (prev_side_hash hd) (ArchivePanic "header at height >= 2 must have prev_side_hash")) height = Ok l ∧
    block_hash_to_height a' = block_hash_to_height a1 ∧ headers a' = headers a1 ∧
    successors a' = successors a1 ∧
    exponential_ancestors a' = <[header_hash hd := l]> (exponential_ancestors a).
Proof.
  intros Hmax Hput. unfold put_header in Hput.
  assert (∃ height, new_height a hd = Some height ∧
    match prev_side_hash hd with
    | None => Ok 0
    | Some parent => n ← ok_or (try_get_height a parent) InvalidPrevSideHash; Ok (as_u32 (n + 1))
    end = Ok height) as (height & Hh & Hheight).
  { unfold new_height. destruct (prev_side_hash hd) as [p|] eqn:Ep; [|by exists 0].
    unfold try_get_height in *. destruct (block_hash_to_height a !! p) as [n|] eqn:En.
    2: { discriminate Hput. }
    exists (n + 1). split; [done|]. simpl. f_equal. apply wrap_unsigned_small.
    destruct (Hmax p n eq_refl En). lia. }
  rewrite Hheight in Hput. cbn [mbind result_bind] in Hput. unfold link_header, get_successors in Hput.
  cbn [successors with_headers with_block_hash_to_height] in Hput.
  destruct (successors a !! prev_side_hash hd) as [pred|] eqn:Epred.
  2: { by destruct (prev_side_hash hd). }
  cbn [mbind result_bind] in Hput.
  exists height. destruct (build_ancestors _ _ _ height) as [l|] eqn:El; [|discriminate]. exists l, pred.
  cbn [mbind result_bind] in Hput. destruct (get_main_successors _ _) as [mains|]; [|discriminate].
  cbn [mbind result_bind] in Hput. destruct (try_fold _ _ _) as [results|]; [|discriminate].
  injection Hput as <-. split_and!; done.
Qed.

(** The index after writing height, header and list of one block. *)
Lemma side_index_agrees a hd height a' :
  side_chain_ok a → storable a hd → new_height a hd = Some height →
  block_hash_to_height a' = <[header_hash hd := height]> (block_hash_to_height a) →
  headers a' = <[header_hash hd := hd]> (headers a) →
  (∀ x, x ≠ header_hash hd → exponential_ancestors a' !! x = exponential_ancestors a !! x) →
  (block_hash_to_height a !! header_hash hd = Some height →
   exponential_ancestors a' !! header_hash hd = exponential_ancestors a !! header_hash hd) →
  index_agrees (side_index a) (side_index a').
Proof.
  intros Ha Hst Hh Hheights Hheaders Hexp Hown x n Hx%height_is_side.
  destruct (decide (x = header_hash hd)) as [->|Hne].
  - destruct (stored_height a hd height Ha Hst Hh) as [?|[Hhx Hhd]]; [congruence|].
    assert (n = height) as -> by congruence. split_and!.
    + apply height_is_side. by rewrite Hheights, lookup_insert_eq.
    + simpl. unfold get_header, try_get_header. by rewrite Hheaders, lookup_insert_eq, Hhd.
    + simpl. by rewrite Hown.
  - split_and!.
    + apply height_is_side. by rewrite Hheights, lookup_insert_ne.
    + simpl. unfold get_header, try_get_header. by rewrite Hheaders, lookup_insert_ne.
    + simpl. by rewrite Hexp.
Qed.

(** The list [put_header] builds, against the index before it. *)
Lemma put_header_built a hd height l a1 :
  side_chain_ok a → storable a hd → new_height a hd = Some height →
  block_hash_to_height a1 = <[header_hash hd := height]> (block_hash_to_height a) →
  headers a1 = <[header_hash hd := hd]> (headers a) →
  exponential_ancestors a1 = exponential_ancestors a →
  build_ancestors (side_index a1) (header_hash hd)
    (ok_or (prev_side_hash hd) (ArchivePanic "header at height >= 2 must have prev_side_hash")) height = Ok l →
  (height = 0 ∧ l = []) ∨
  (∃ p m, height = m + 1 ∧ prev_side_hash hd = Some p ∧ block_hash_to_height a !! p = Some m ∧
     height ≤ U32_MAX ∧ ancestors_built (side_index a) p m l).
Proof.
  intros Ha Hst Hh H1 H2 H3 Hl.
  assert (index_agrees (side_index a) (side_index a1)) as Hag.
  { eapply side_index_agrees; [done..| |]; intros; by rewrite H3. }
  unfold new_height in Hh. destruct (prev_side_hash hd) as [p|] eqn:Ep.
  - destruct (block_hash_to_height a !! p) as [m|] eqn:Em; [|discriminate]. simpl in Hh. injection Hh as <-.
    destruct Hst as [_ Hmax]. specialize (Hmax p m Ep Em). right. exists p, m.
    simpl in Hl. destruct (build_ancestors_ok (side_index a) (side_index a1) (sc_index a Ha) Hag (header_hash hd) p m)
      as (l' & Hl' & Hb); [by apply height_is_side|lia|].
    assert (l' = l) as -> by congruence. split_and!; [done..|lia|done].
  - injection Hh as <-. left. split; [done|]. by injection Hl as <-.
Qed.

Lemma put_header_index a hd height l a' :
  side_chain_ok a → storable a hd → new_height a hd = Some height →
  block_hash_to_height a' = <[header_hash hd := height]> (block_hash_to_height a) →
  headers a' = <[header_hash hd := hd]> (headers a) →
  exponential_ancestors a' = <[header_hash hd := l]> (exponential_ancestors a) →
  (height = 0 ∧ l = []) ∨
  (∃ p m, height = m + 1 ∧ prev_side_hash hd = Some p ∧ block_hash_to_height a !! p = Some m ∧
     height ≤ U32_MAX ∧ ancestors_built (side_index a) p m l) →
  index_ok (side_index a').
Proof.
  intros Ha Hst Hh H1 H2 H3 Hcase.
  assert (index_agrees (side_index a) (side_index a')) as Hag.
  { eapply side_index_agrees; [done..| |].
    - intros x Hx. by rewrite H3, lookup_insert_ne.
    - intros Hold. rewrite H3, lookup_insert_eq.
      destruct (stored_height a hd height Ha Hst Hh) as [?|[_ Hhd]]; [congruence|].
      destruct (io_ancestors _ (sc_index a Ha) (header_hash hd) height) as (l' & Hl' & _ & Hlen); [by apply height_is_side|].
      simpl in Hl'. destruct (exponential_ancestors a !! header_hash hd) as [k|] eqn:Ek; [|discriminate]. injection Hl' as ->.
      f_equal. destruct Hcase as [[-> ->]|(p & m & -> & Hp & Hm & _ & Hb)].
      + destruct l' as [|y l']; [done|]. exfalso. specialize (Hlen 0%nat). simpl in Hlen. pose proof (Hlen ltac:(eauto)). lia.
      + eapply (ancestors_unique (side_index a) (sc_index a Ha) (header_hash hd) p m); [by apply height_is_side| | |exact Hb].
        * simpl. unfold get_header, try_get_header. rewrite Hhd. simpl. by rewrite Hp.
        * simpl. by rewrite Ek. }
  eapply (index_extend (side_index a) (side_index a') (sc_index a Ha) Hag (header_hash hd) height l).
  - intros x n Hx%height_is_side. rewrite H1 in Hx. apply lookup_insert_Some in Hx as [[<- <-]|[_ Hx]]; [by left|].
    right. by apply height_is_side.
  - apply height_is_side. by rewrite H1, lookup_insert_eq.
  - simpl. by rewrite H3, lookup_insert_eq.
  - destruct Hcase as [?|(p & m & -> & Hp & Hm & Hmax & Hb)]; [by left|]. right. exists p, m. split_and!; [done| |by apply height_is_side|done|done].
    simpl. unfold get_header, try_get_header. rewrite H2, lookup_insert_eq. simpl. by rewrite Hp.
Qed.

Lemma storable_range a hd p n :
  side_chain_ok a → storable a hd → prev_side_hash hd = Some p →
  block_hash_to_height a !! p = Some n → 0 ≤ n < U32_MAX.
Proof.
  intros Ha [_ Hmax] Hp Hn. specialize (Hmax p n Hp Hn).
  apply height_is_side in Hn. destruct (io_range _ (sc_index a Ha) p n Hn). lia.
Qed.

(** Storing a header keeps the side chain well formed. *)
Lemma put_header_ok a hd a' :
  side_chain_ok a → storable a hd → put_header a hd = Ok a' → side_chain_ok a'.
Proof.
  intros Ha Hst Hput.
  destruct (put_header_inv a hd a') as (height & l & pred & Hh & Hpred & Hl & H1 & H2 & H3 & H4);
    [intros p n Hp Hn; by eapply storable_range|done|].
  cbn [successors headers block_hash_to_height with_successors with_headers with_block_hash_to_height] in H1, H2, H3.
  apply (put_header_built a hd height l) in Hl as Hcase; [|done..].
  pose proof (proj1 Hst) as Hcs. set (h := header_hash hd) in *.
  assert (∀ c hd', <[h := hd]> (headers a) !! c = Some hd' ↔ (c = h ∧ hd' = hd) ∨ headers a !! c = Some hd') as Hlk.
  { intros c hd'. rewrite lookup_insert_Some. split; [naive_solver|].
    intros [[-> ->]|Hc]; [by left|]. destruct (decide (h = c)) as [<-|]; [|by right].
    destruct Hcs as [?|?]; [congruence|]. left. split; [done|]. congruence. }
  assert (match prev_side_hash hd with Some p => h ≠ p | None => True end) as Hnp.
  { destruct (prev_side_hash hd) as [p|] eqn:Ep; [|done]. intros <-. unfold new_height in Hh. rewrite Ep in Hh.
    destruct (block_hash_to_height a !! h) as [n|] eqn:En; [|discriminate].
    by apply (not_own_parent a hd n Ha Hst En). }
  split.
  - by eapply put_header_index.
  - rewrite H1, H2. intros x n [[<- _]|[Hne Hx]]%lookup_insert_Some; [rewrite lookup_insert_eq; eauto|].
    rewrite lookup_insert_ne by done. by eapply (sc_header a Ha).
  - rewrite H1, H2. intros c hd' [[-> ->]|Hc]%Hlk.
    + split; [done|]. unfold new_height in Hh. destruct (prev_side_hash hd) as [p|]; [|injection Hh as <-; by rewrite lookup_insert_eq].
      destruct (block_hash_to_height a !! p) as [n|] eqn:En; [|discriminate]. injection Hh as <-. exists n.
      rewrite lookup_insert_ne, lookup_insert_eq by done. done.
    + destruct (sc_height a Ha c hd' Hc) as [Hhash Hp]. split; [done|].
      assert (∀ x n, block_hash_to_height a !! x = Some n → <[h := height]> (block_hash_to_height a) !! x = Some n) as Hins.
      { intros x n Hx. destruct (decide (h = x)) as [<-|]; [|by rewrite lookup_insert_ne].
        destruct (stored_height a hd height Ha Hst Hh) as [?|[? _]]; subst h; [congruence|]. rewrite lookup_insert_eq. congruence. }
      destruct (prev_side_hash hd') as [p|]; [|by apply Hins]. destruct Hp as (n & Hn & Hn'). exists n. split; by apply Hins.
  - rewrite H2, H3. intros o. rewrite !lookup_insert_is_Some. pose proof (sc_known a Ha o) as Ho.
    pose proof (proj1 (sc_known a Ha _) (ex_intro _ pred Hpred)) as Hp. destruct o as [x|].
    + rewrite lookup_insert_is_Some. split.
      2: { intros [->|[Hne Hx]]; [by left|]. right. split; [congruence|].
           destruct (decide (prev_side_hash hd = Some x)); [by left|right; split; [done|by apply Ho]]. }
      intros [[= ->]|[Hne [Heq|[_ Hx%Ho]]]]; [by left| |]; (destruct (decide (h = x)); [by left|right; split; [done|]]); [|done].
      by rewrite Heq in Hp.
    + split; [done|]. intros _. right. split; [done|]. destruct (prev_side_hash hd); [right; split; [done|by apply Ho]|by left].
  - rewrite H2, H3. intros o sx Hs c. setoid_rewrite Hlk.
    assert (∀ s', (successors a !! o = Some s' ∨ (successors a !! o = None ∧ s' = ∅)) →
      (c ∈ s' ↔ ∃ hd', headers a !! c = Some hd' ∧ prev_side_hash hd' = o)) as Hold.
    { intros s' [Hs'|[Hn ->]]; [by apply (sc_links a Ha)|]. split; [set_solver|]. intros (hd' & Hc & Hp).
      destruct (sc_height a Ha c hd' Hc) as [_ Hpar]. exfalso.
      assert (is_Some (successors a !! o)) as [? ?]; [|congruence]. apply (sc_known a Ha).
      destruct o as [x|]; [|done]. rewrite Hp in Hpar. destruct Hpar as (n & Hn' & _). by eapply (sc_header a Ha). }
    apply lookup_insert_Some in Hs as [[<- <-]|[Hne Hs]].
    + rewrite lookup_insert_ne by (destruct (prev_side_hash hd); congruence).
      rewrite (Hold (default ∅ (successors a !! Some h))).
      2: { destruct (successors a !! Some h); [by left|by right]. }
      split; [naive_solver|]. intros (hd' & [[-> ->]|Hc] & Hp); [|naive_solver]. by rewrite Hp in Hnp.
    + apply lookup_insert_Some in Hs as [[<- <-]|[Hne' Hs]].
      * rewrite elem_of_union, elem_of_singleton, (Hold pred) by (by left). naive_solver.
      * rewrite (Hold sx) by (by left). naive_solver.
Qed.

End SideChain.

(** ** The main chain *)

Section MainChain.
Context {AE : ArchiveEnv}.
Implicit Types (a : Archive) (h p : bytes) (info : BlockHeaderInfo).

Record main_chain_ok a : Prop := {
  mc_index : index_ok (main_index a);
  mc_info h n : main_block_hash_to_height a !! h = Some n → is_Some (main_header_infos a !! h);
  mc_height h info : main_header_infos a !! h = Some info →
    mh_block_hash info = h ∧ h ≠ all_zeros ∧
    if bool_decide (mh_prev_block_hash info = all_zeros)
    then main_block_hash_to_height a !! h = Some 0 ∧ total_work a !! h = Some (mh_work info)
    else ∃ n w, main_block_hash_to_height a !! mh_prev_block_hash info = Some n ∧
           main_block_hash_to_height a !! h = Some (n + 1) ∧
           total_work a !! mh_prev_block_hash info = Some w ∧
           total_work a !! h = Some (work_add w (mh_work info))
}.

Lemma height_is_main a h n : height_is (main_index a) h n ↔ main_block_hash_to_height a !! h = Some n.
Proof.
  unfold height_is. simpl. unfold get_main_height.
  destruct (main_block_hash_to_height a !! h); simpl; split; congruence.
Qed.

Lemma archive_new_main_ok : main_chain_ok Archive_new.
Proof.
  split.
  - split; intros h n Hh%height_is_main; simpl in Hh; by rewrite lookup_empty in Hh.
  - intros h n Hh. simpl in Hh. by rewrite lookup_empty in Hh.
  - intros h hd Hh. simpl in Hh. by rewrite lookup_empty in Hh.
Qed.

Definition main_storable a info : Prop :=
  (main_header_infos a !! mh_block_hash info = None ∨ main_header_infos a !! mh_block_hash info = Some info) ∧
  mh_block_hash info ≠ all_zeros ∧
  ∀ n, main_block_hash_to_height a !! mh_prev_block_hash info = Some n → n < U32_MAX.

(** The height and total work [put_main_header_info] gives to a block. *)
Definition new_main_entry a info : option (Z * Z) :=
  if bool_decide (mh_prev_block_hash info = all_zeros) then Some (0, mh_work info)
  else n ← main_block_hash_to_height a !! mh_prev_block_hash info;
       w ← total_work a !! mh_prev_block_hash info;
       Some (n + 1, work_add w (mh_work info)).

Lemma stored_main_entry a info height work :
  main_chain_ok a → main_storable a info → new_main_entry a info = Some (height, work) →
  main_block_hash_to_height a !! mh_block_hash info = None ∨
  (main_block_hash_to_height a !! mh_block_hash info = Some height ∧
   total_work a !! mh_block_hash info = Some work ∧ main_header_infos a !! mh_block_hash info = Some info).
Proof.
  intros Ha [[Hnew|Hold] _] Hh.
  - left. destruct (main_block_hash_to_height a !! mh_block_hash info) as [n|] eqn:E; [|done].
    apply (mc_info a Ha) in E as [i E]. congruence.
  - right. destruct (mc_height a Ha _ _ Hold) as (_ & _ & Hp). unfold new_main_entry in Hh.
    case_bool_decide; [destruct Hp; by simplify_eq|]. destruct Hp as (n & w & Hn & Hn' & Hw & Hw').
    rewrite Hn, Hw in Hh. simpl in Hh. by simplify_eq.
Qed.

Lemma put_main_header_info_inv a info a' :
  (∀ n, main_block_hash_to_height a !! mh_prev_block_hash info = Some n → 0 ≤ n < U32_MAX) →
  put_main_header_info a info = Ok a' →
  ∃ height work l a1, new_main_entry a info = Some (height, work) ∧
    main_block_hash_to_height a1 = <[mh_block_hash info := height]> (main_block_hash_to_height a) ∧
    main_header_infos a1 = <[mh_block_hash info := info]> (main_header_infos a) ∧
    exponential_main_ancestors a1 = exponential_main_ancestors a ∧
    build_ancestors (main_index a1) (mh_block_hash info) (Ok (mh_prev_block_hash info)) height = Ok l ∧
    main_block_hash_to_height a' = main_block_hash_to_height a1 ∧ main_header_infos a' = main_header_infos a1 ∧
    total_work a' = <[mh_block_hash info := work]> (total_work a) ∧
    exponential_main_ancestors a' = <[mh_block_hash info := l]> (exponential_main_ancestors a).
Proof.
  intros Hmax Hput. unfold put_main_header_info in Hput. destruct (bail_if _ _); [|discriminate].
  cbn [mbind result_bind] in Hput. unfold new_main_entry, get_main_height, get_total_work in *.
  destruct (bool_decide (mh_prev_block_hash info = all_zeros)).
  - cbn [mbind result_bind negb] in Hput. unfold link_main_header in Hput. cbn [mbind result_bind] in Hput.
    destruct (get_main_successors _ _) as [pred|]; [|discriminate]. cbn [mbind result_bind] in Hput.
    destruct (build_ancestors _ _ _ _) as [l|] eqn:El; [|discriminate]. injection Hput as <-.
    eexists 0, (mh_work info), l, _. split_and!; [done| | | |exact El|..]; done.
  - destruct (main_block_hash_to_height a !! mh_prev_block_hash info) as [n|] eqn:En; [|discriminate].
    cbn [ok_or mbind result_bind negb] in Hput.
    destruct (total_work a !! mh_prev_block_hash info) as [w|]; [|discriminate].
    cbn [ok_or mbind result_bind] in Hput.
    assert (as_u32 (n + 1) = n + 1) as E32 by (apply wrap_unsigned_small; destruct (Hmax n eq_refl); lia).
    rewrite E32 in Hput.
    unfold link_main_header in Hput. cbn [mbind result_bind] in Hput.
    destruct (get_main_successors _ _) as [pred|]; [|discriminate]. cbn [mbind result_bind] in Hput.
    destruct (build_ancestors _ _ _ _) as [l|] eqn:El; [|discriminate]. injection Hput as <-.
    eexists (n + 1), (work_add w (mh_work info)), l, _. split_and!; [done| | | |exact El|..]; done.
Qed.

Lemma main_index_agrees a info height work a' :
  main_chain_ok a → main_storable a info → new_main_entry a info = Some (height, work) →
  main_block_hash_to_height a' = <[mh_block_hash info := height]> (main_block_hash_to_height a) →
  main_header_infos a' = <[mh_block_hash info := info]> (main_header_infos a) →
  (∀ x, x ≠ mh_block_hash info → exponential_main_ancestors a' !! x = exponential_main_ancestors a !! x) →
  (main_block_hash_to_height a !! mh_block_hash info = Some height →
   exponential_main_ancestors a' !! mh_block_hash info = exponential_main_ancestors a !! mh_block_hash info) →
  index_agrees (main_index a) (main_index a').
Proof.
  intros Ha Hst Hh Hheights Hheaders Hexp Hown x n Hx%height_is_main.
  destruct (decide (x = mh_block_hash info)) as [->|Hne].
  - destruct (stored_main_entry a info height work Ha Hst Hh) as [?|(Hhx & _ & Hhd)]; [congruence|].
    assert (n = height) as -> by congruence. split_and!.
    + apply height_is_main. by rewrite Hheights, lookup_insert_eq.
    + simpl. unfold get_main_header_info. by rewrite Hheaders, lookup_insert_eq, Hhd.
    + simpl. by rewrite Hown.
  - split_and!.
    + apply height_is_main. by rewrite Hheights, lookup_insert_ne.
    + simpl. unfold get_main_header_info. by rewrite Hheaders, lookup_insert_ne.
    + simpl. by rewrite Hexp.
Qed.

Lemma put_main_header_built a info height work l a1 :
  main_chain_ok a → main_storable a info → new_main_entry a info = Some (height, work) →
  main_block_hash_to_height a1 = <[mh_block_hash info := height]> (main_block_hash_to_height a) →
  main_header_infos a1 = <[mh_block_hash info := info]> (main_header_infos a) →
  exponential_main_ancestors a1 = exponential_main_ancestors a →
  build_ancestors (main_index a1) (mh_block_hash info) (Ok (mh_prev_block_hash info)) height = Ok l →
  (height = 0 ∧ l = []) ∨
  (∃ m, height = m + 1 ∧ main_block_hash_to_height a !! mh_prev_block_hash info = Some m ∧
     height ≤ U32_MAX ∧ ancestors_built (main_index a) (mh_prev_block_hash info) m l).
Proof.
  intros Ha Hst Hh H1 H2 H3 Hl.
  assert (index_agrees (main_index a) (main_index a1)) as Hag.
  { eapply main_index_agrees; [done..| |]; intros; by rewrite H3. }
  unfold new_main_entry in Hh. destruct (bool_decide _).
  - injection Hh as <- _. left. split; [done|]. by injection Hl as <-.
  - destruct (main_block_hash_to_height a !! mh_prev_block_hash info) as [m|] eqn:Em; [|discriminate].
    simpl in Hh. destruct (total_work a !! mh_prev_block_hash info); [|discriminate]. simpl in Hh. injection Hh as <- _.
    destruct Hst as (_ & _ & Hmax). specialize (Hmax m Em). right. exists m.
    destruct (build_ancestors_ok (main_index a) (main_index a1) (mc_index a Ha) Hag (mh_block_hash info)
      (mh_prev_block_hash info) m) as (l' & Hl' & Hb); [by apply height_is_main|lia|].
    assert (l' = l) as -> by congruence. split_and!; [done..|lia|done].
Qed.

Lemma put_main_header_index a info height work l a' :
  main_chain_ok a → main_storable a info → new_main_entry a info = Some (height, work) →
  main_block_hash_to_height a' = <[mh_block_hash info := height]> (main_block_hash_to_height a) →
  main_header_infos a' = <[mh_block_hash info := info]> (main_header_infos a) →
  exponential_main_ancestors a' = <[mh_block_hash info := l]> (exponential_main_ancestors a) →
  (height = 0 ∧ l = []) ∨
  (∃ m, height = m + 1 ∧ main_block_hash_to_height a !! mh_prev_block_hash info = Some m ∧
     height ≤ U32_MAX ∧ ancestors_built (main_index a) (mh_prev_block_hash info) m l) →
  index_ok (main_index a').
Proof.
  intros Ha Hst Hh H1 H2 H3 Hcase.
  assert (index_agrees (main_index a) (main_index a')) as Hag.
  { eapply main_index_agrees; [done..| |].
    - intros x Hx. by rewrite H3, lookup_insert_ne.
    - intros Hold. rewrite H3, lookup_insert_eq.
      destruct (stored_main_entry a info height work Ha Hst Hh) as [?|(_ & _ & Hhd)]; [congruence|].
      destruct (io_ancestors _ (mc_index a Ha) (mh_block_hash info) height) as (l' & Hl' & _ & Hlen); [by apply height_is_main|].
      simpl in Hl'. destruct (exponential_main_ancestors a !! mh_block_hash info) as [k|] eqn:Ek; [|discriminate]. injection Hl' as ->.
      f_equal. destruct Hcase as [[-> ->]|(m & -> & Hm & _ & Hb)].
      + destruct l' as [|y l']; [done|]. exfalso. specialize (Hlen 0%nat). simpl in Hlen. pose proof (Hlen ltac:(eauto)). lia.
      + eapply (ancestors_unique (main_index a) (mc_index a Ha) (mh_block_hash info) _ m); [by apply height_is_main| | |exact Hb].
        * simpl. unfold get_main_header_info. by rewrite Hhd.
        * simpl. by rewrite Ek. }
  eapply (index_extend (main_index a) (main_index a') (mc_index a Ha) Hag (mh_block_hash info) height l).
  - intros x n Hx%height_is_main. rewrite H1 in Hx. apply lookup_insert_Some in Hx as [[<- <-]|[_ Hx]]; [by left|].
    right. by apply height_is_main.
  - apply height_is_main. by rewrite H1, lookup_insert_eq.
  - simpl. by rewrite H3, lookup_insert_eq.
  - destruct Hcase as [?|(m & -> & Hm & Hmax & Hb)]; [by left|]. right. exists (mh_prev_block_hash info), m.
    split_and!; [done| |by apply height_is_main|done|done].
    simpl. unfold get_main_header_info. by rewrite H2, lookup_insert_eq.
Qed.

(** Storing a mainchain header keeps the main chain well formed. *)
Lemma put_main_header_info_ok a info a' :
  main_chain_ok a → main_storable a info → put_main_header_info a info = Ok a' → main_chain_ok a'.
Proof.
  intros Ha Hst Hput. pose proof Hst as (Hcs & Hnz & Hmax).
  destruct (put_main_header_info_inv a info a') as (height & work & l & a1 & Hh & G1 & G2 & G3 & Hl & H1 & H2 & H3 & H4);
    [|done|].
  { intros n Hn. specialize (Hmax n Hn). apply height_is_main in Hn. destruct (io_range _ (mc_index a Ha) _ n Hn). lia. }
  apply (put_main_header_built a info height work l) in Hl as Hcase; [|done..]. rewrite G1 in H1. rewrite G2 in H2.
  assert (∀ x n, main_block_hash_to_height a !! x = Some n → main_block_hash_to_height a' !! x = Some n) as Hins.
  { intros x n Hx. rewrite H1. destruct (decide (mh_block_hash info = x)) as [<-|]; [|by rewrite lookup_insert_ne].
    destruct (stored_main_entry a info height work Ha Hst Hh) as [?|(? & _)]; [congruence|]. rewrite lookup_insert_eq. congruence. }
  assert (∀ x w, is_Some (main_block_hash_to_height a !! x) → total_work a !! x = Some w → total_work a' !! x = Some w) as Hinw.
  { intros x w [n Hn] Hx. rewrite H3. destruct (decide (mh_block_hash info = x)) as [<-|]; [|by rewrite lookup_insert_ne].
    destruct (stored_main_entry a info height work Ha Hst Hh) as [?|(_ & ? & _)]; [congruence|]. rewrite lookup_insert_eq. congruence. }
  split.
  - by eapply put_main_header_index.
  - rewrite H1, H2. intros x n [[<- _]|[Hne Hx]]%lookup_insert_Some; [rewrite lookup_insert_eq; eauto|].
    rewrite lookup_insert_ne by done. by eapply (mc_info a Ha).
  - rewrite H2. intros c i [[<- <-]|[Hne Hc]]%lookup_insert_Some.
    + split_and!; [done..|]. unfold new_main_entry in Hh. case_bool_decide as Hz.
      * injection Hh as <- <-. by rewrite H1, H3, !lookup_insert_eq.
      * destruct (main_block_hash_to_height a !! mh_prev_block_hash info) as [n|] eqn:En; [|discriminate].
        destruct (total_work a !! mh_prev_block_hash info) as [w|] eqn:Ew; [|discriminate].
        simpl in Hh. injection Hh as <- <-. exists n, w.
        split_and!; [by apply Hins|by rewrite H1, lookup_insert_eq|apply Hinw; [by rewrite En; eauto|done]|by rewrite H3, lookup_insert_eq].
    + destruct (mc_height a Ha c i Hc) as (Hhash & Hnz' & Hp). split_and!; [done..|]. case_bool_decide.
      * destruct Hp as [Hp1 Hp2]. split; [by apply Hins|]. apply Hinw; [by rewrite Hp1; eauto|done].
      * destruct Hp as (n & w & Hn & Hn' & Hw & Hw'). exists n, w.
        split_and!; [by apply Hins|by apply Hins|apply Hinw; [by rewrite Hn; eauto|done]|apply Hinw; [by rewrite Hn'; eauto|done]].
Qed.

End MainChain.
