(* ===== verification/ArchiveInvalidation.v ===== *)
(** * Invalidating a block

    The loop of [invalidate_block] visits the block and all its descendants,
    each once, and terminates within the number of headers; what it leaves is
    the archive without them, and well formed. *)

From stdpp Require Import base numbers list strings gmap.
From S2P Require Import Prelude Float64 StateErrors Transactions TwoWayPeg Bodies Archive ArchiveStore.
From S2P Require Import ArchiveFacts ArchiveStoreFacts.

Section Invalidation.
Context {AE : ArchiveEnv} {BH : BodyHashes}.
Implicit Types (a : Archive) (h x c : bytes) (hd : Header) (R : gset bytes).

(** A table without the keys in [R]. *)
Definition without {V} R (m m' : gmap bytes V) : Prop :=
  ∀ k, m' !! k = if decide (k ∈ R) then None else m !! k.

(** [a] without the blocks [R], which are marked invalid. *)
Record invalidated a R a' : Prop := {
  iv_heights : without R (block_hash_to_height a) (block_hash_to_height a');
  iv_headers : without R (headers a) (headers a');
  iv_bodies : without R (bodies a) (bodies a');
  iv_ancestors : without R (exponential_ancestors a) (exponential_ancestors a');
  iv_invalid : invalid_blocks a' = R ∪ invalid_blocks a;
  iv_gone k : k ∈ R → successors a' !! Some k = None;
  iv_left o : (∀ k, o = Some k → k ∉ R) → successors a' !! o = (fun s => s ∖ R) <$> successors a !! o
}.

Lemma foldl_forget h a l :
  let a' := foldl (forget_inclusions h) a l in
  block_hash_to_height a' = block_hash_to_height a ∧ headers a' = headers a ∧ bodies a' = bodies a ∧
  exponential_ancestors a' = exponential_ancestors a ∧ invalid_blocks a' = invalid_blocks a ∧
  successors a' = successors a.
Proof.
  revert a. induction l as [|t l IH]; intros a; [done|]. simpl. specialize (IH (forget_inclusions h a t)).
  simpl in IH.
  unfold forget_inclusions in *. destruct (txid_to_inclusions a !! tx_txid t); exact IH.
Qed.

Lemma without_delete {V} R (m m' : gmap bytes V) h :
  without R m m' → without ({[h]} ∪ R) m (delete h m').
Proof.
  intros Hw k. destruct (decide (h = k)) as [<-|Hne].
  - rewrite lookup_delete_eq, decide_True by set_solver. done.
  - rewrite lookup_delete_ne, Hw by done. destruct (decide (k ∈ R)); [by rewrite decide_True by set_solver|].
    by rewrite decide_False by set_solver.
Qed.

(** The tables after one turn. *)
Lemma invalidate_one_fields a h :
  let a' := (invalidate_one a h).1 in
  block_hash_to_height a' = delete h (block_hash_to_height a) ∧ headers a' = delete h (headers a) ∧
  bodies a' = delete h (bodies a) ∧ exponential_ancestors a' = delete h (exponential_ancestors a) ∧
  invalid_blocks a' = {[h]} ∪ invalid_blocks a ∧
  let s1 := match headers a !! h with
            | Some hd => match successors a !! prev_side_hash hd with
                         | Some pred => <[prev_side_hash hd := pred ∖ {[h]}]> (successors a)
                         | None => successors a
                         end
            | None => successors a
            end in
  successors a' = delete (Some h) s1 ∧
  (invalidate_one a h).2 = match s1 !! Some h with Some s => rev (set_iter s) | None => [] end.
Proof.
  unfold invalidate_one.
  set (b := with_block_hash_to_height a (delete h (block_hash_to_height a))).
  set (c := match bodies b !! h with Some body => foldl (forget_inclusions h) b (transactions body) | None => b end).
  assert (block_hash_to_height c = delete h (block_hash_to_height a) ∧ headers c = headers a ∧
    bodies c = bodies a ∧ exponential_ancestors c = exponential_ancestors a ∧
    invalid_blocks c = invalid_blocks a ∧ successors c = successors a) as (E1 & E2 & E3 & E4 & E5 & E6).
  { subst c. destruct (bodies b !! h) as [body|]; [|done]. apply (foldl_forget h b (transactions body)). }
  cbn [headers successors with_exponential_ancestors with_bodies]. rewrite E2, E6.
  destruct (headers a !! h) as [hd|]; [destruct (successors a !! prev_side_hash hd) as [pred|]|]; cbn;
    by rewrite ?E1, ?E2, ?E3, ?E4, ?E5, ?E6.
Qed.

(** One turn removes one more block; the successors pushed are its remaining
    children. *)
Lemma invalidate_one_ok a R a1 h :
  side_chain_ok a → invalidated a R a1 → h ∉ R →
  let '(a2, pushed) := invalidate_one a1 h in
  invalidated a ({[h]} ∪ R) a2 ∧ NoDup pushed ∧
  ∀ c, c ∈ pushed ↔ c ∉ R ∧ ∃ hd, headers a !! c = Some hd ∧ prev_side_hash hd = Some h.
Proof.
  intros Ha Hi Hh. pose proof (invalidate_one_fields a1 h) as (E1 & E2 & E3 & E4 & E5 & E6 & E7).
  destruct (invalidate_one a1 h) as [a2 pushed]. cbn [fst snd] in *.
  assert (headers a1 !! h = headers a !! h) as Hhd by (by rewrite (iv_headers _ _ _ Hi), decide_False).
  rewrite Hhd in E6, E7.
  set (s1 := match headers a !! h with Some hd => _ | None => _ end) in *.
  assert (∀ hd, headers a !! h = Some hd → prev_side_hash hd ≠ Some h) as Hself.
  { intros hd Hd Hp. destruct (sc_height a Ha h hd Hd) as [_ H]. rewrite Hp in H. destruct H as (n & H1 & H2).
    rewrite H1 in H2. injection H2. lia. }
  assert (∀ o, (∀ k, o = Some k → k ∉ R) → s1 !! o = (fun s => s ∖ ({[h]} ∪ R)) <$> successors a !! o) as Hs1.
  { intros o Ho. pose proof (iv_left _ _ _ Hi o Ho) as Hl.
    assert (∀ s, successors a !! o = Some s → (∀ hd, headers a !! h = Some hd → prev_side_hash hd ≠ o) →
      s ∖ R = s ∖ ({[h]} ∪ R)) as Hsame.
    { intros s Hs Hno. assert (h ∉ s) by (rewrite (sc_links a Ha o s Hs); intros (hd & Hd & Hp); by eapply Hno). set_solver. }
    subst s1. destruct (headers a !! h) as [hd|].
    - destruct (decide (prev_side_hash hd = o)) as [<-|Hne].
      + rewrite Hl. destruct (successors a !! prev_side_hash hd) as [s|] eqn:Es; cbn [fmap option_fmap option_map].
        * rewrite lookup_insert_eq. simpl. f_equal. set_solver.
        * by rewrite Hl.
      + assert (∀ s', (match successors a1 !! prev_side_hash hd with
           | Some pred => <[prev_side_hash hd := s']> (successors a1) | None => successors a1 end) !! o = successors a1 !! o) as Hins.
        { intros s'. destruct (successors a1 !! prev_side_hash hd); [by rewrite lookup_insert_ne|done]. }
        destruct (successors a1 !! prev_side_hash hd); rewrite ?lookup_insert_ne by done; rewrite Hl;
          (destruct (successors a !! o) as [s|] eqn:Es; [|done]); simpl; f_equal; apply (Hsame s eq_refl); by intros ? [= <-].
    - rewrite Hl. destruct (successors a !! o) as [s|] eqn:Es; [|done]. simpl. f_equal. by apply (Hsame s eq_refl). }
  assert (∀ k, k ∈ R → s1 !! Some k = None) as Hgone.
  { intros k Hk. pose proof (iv_gone _ _ _ Hi k Hk) as Hn. subst s1.
    destruct (headers a !! h) as [hd|]; [|done]. destruct (successors a1 !! prev_side_hash hd) as [p|] eqn:Ep; [|done].
    rewrite lookup_insert_ne; [done|]. congruence. }
  split_and!.
  - split.
    + rewrite E1. by apply without_delete, Hi.
    + rewrite E2. by apply without_delete, Hi.
    + rewrite E3. by apply without_delete, Hi.
    + rewrite E4. by apply without_delete, Hi.
    + rewrite E5, (iv_invalid _ _ _ Hi). set_solver.
    + intros k Hk. rewrite E6. destruct (decide (k = h)) as [->|Hne]; [apply lookup_delete_eq|].
      rewrite lookup_delete_ne by congruence. apply Hgone. set_solver.
    + intros o Ho. rewrite E6. rewrite lookup_delete_ne by (intros <-; eapply Ho; [done|set_solver]).
      apply Hs1. intros k ->. specialize (Ho k eq_refl). set_solver.
  - rewrite E7. destruct (s1 !! Some h) as [s|]; [|constructor]. rewrite <- Permutation_rev, set_iter_perm. apply NoDup_elements.
  - intros c. rewrite E7, Hs1 by congruence. pose proof (sc_known a Ha (Some h)) as Hk.
    destruct (successors a !! Some h) as [s|] eqn:Es; simpl.
    + rewrite <- (sc_links a Ha (Some h) s Es c). rewrite <- (Permutation_rev (set_iter _)), set_iter_perm, elem_of_elements.
      assert (c ∈ s → c ≠ h) as Hch.
      { intros Hc ->. apply (sc_links a Ha (Some h) s Es) in Hc as (hd & Hd & Hp). by apply (Hself hd). }
      set_solver.
    + split; [by intros ?%not_elem_of_nil|]. intros (_ & hd & Hd & Hp).
      destruct (sc_height a Ha c hd Hd) as [_ H]. rewrite Hp in H. destruct H as (n & Hn & _).
      apply (sc_header a Ha) in Hn. apply Hk in Hn as [? ?]. congruence.
Qed.

(** [c] is a child of [p]. *)
Definition child_of a c (p : bytes) : Prop := ∃ hd, headers a !! c = Some hd ∧ prev_side_hash hd = Some p.

Lemma child_parent a c p :
  side_chain_ok a → child_of a c p →
  ∃ n, height_is (side_index a) p n ∧ height_is (side_index a) c (n + 1) ∧ ix_parent (side_index a) c = Ok p.
Proof.
  intros Ha (hd & Hd & Hp). destruct (sc_height a Ha c hd Hd) as [_ H]. rewrite Hp in H.
  destruct H as (n & H1 & H2). exists n. split_and!; [by apply height_is_side..|].
  simpl. unfold get_header, try_get_header. rewrite Hd. simpl. by rewrite Hp.
Qed.

Lemma child_descends a c p root :
  side_chain_ok a → child_of a c p → ancestor_of (side_index a) root p → ancestor_of (side_index a) root c.
Proof.
  intros Ha (n & Hp & Hc & Hpar)%child_parent (m & k & Hm & Hk & Hr); [|done].
  pose proof (height_is_fun _ _ _ _ Hp Hm). subst m. exists (n + 1), (S k). split_and!; [done|lia|].
  cbn [nth_parent]. by rewrite Hpar.
Qed.

(** The state of the loop after the first turn: [R] are removed, the stack holds
    their other children. *)
Record visiting a root R a1 (stack : list bytes) : Prop := {
  vi_removed : invalidated a R a1;
  vi_distinct : NoDup stack;
  vi_fresh c : c ∈ stack → c ∉ R ∧ ∃ p, p ∈ R ∧ child_of a c p;
  vi_children c p : p ∈ R → child_of a c p → c ∈ R ∨ c ∈ stack;
  vi_below c : c ∈ R ∨ c ∈ stack → c = root ∨ ancestor_of (side_index a) root c
}.

Lemma visiting_step a root R a1 h stack :
  side_chain_ok a → visiting a root R a1 (h :: stack) →
  let '(a2, pushed) := invalidate_one a1 h in visiting a root ({[h]} ∪ R) a2 (pushed ++ stack).
Proof.
  intros Ha [Hi Hnd Hfr Hch Hbe]. apply NoDup_cons in Hnd as [Hns Hnd].
  destruct (Hfr h) as [HhR (q & Hq & Hhq)]; [by left|].
  pose proof (invalidate_one_ok a R a1 h Ha Hi HhR) as Hone.
  destruct (invalidate_one a1 h) as [a2 pushed]. destruct Hone as (Hi' & Hnd' & Hpush).
  change (∀ c, c ∈ pushed ↔ c ∉ R ∧ child_of a c h) in Hpush.
  assert (∀ c p p', child_of a c p → child_of a c p' → p = p') as Huniq.
  { intros c p p' (hd & H1 & H2) (hd' & H1' & H2'). congruence. }
  split; [done| | | |].
  - apply NoDup_app. split_and!; [done| |done]. intros c [_ Hc]%Hpush Hin.
    destruct (Hfr c) as [_ (p & Hp & Hcp)]; [by right|]. by rewrite (Huniq _ _ _ Hc Hcp) in HhR.
  - intros c [[Hc Hcp]%Hpush|Hc]%elem_of_app.
    + split; [|exists h; split; [set_solver|done]]. intros [->%elem_of_singleton|?]%elem_of_union; [|done].
      destruct (child_parent a h h Ha Hcp) as (n & H1 & H2 & _). pose proof (height_is_fun _ _ _ _ H1 H2). lia.
    + destruct (Hfr c) as [HcR (p & Hp & Hcp)]; [by right|]. split; [|exists p; split; [set_solver|done]]. set_solver.
  - intros c p [->%elem_of_singleton|Hp]%elem_of_union Hcp.
    + destruct (decide (c ∈ R)); [left; set_solver|]. right. apply elem_of_app. left. by apply Hpush.
    + destruct (Hch c p Hp Hcp) as [?|[->|?]%elem_of_cons]; [left; set_solver..|]. right. apply elem_of_app. by right.
  - intros c Hc. assert (c ∈ R ∨ c ∈ h :: stack ∨ child_of a c h) as [?|[?|Hcp]].
    { destruct Hc as [Hc|[Hc|Hc]%elem_of_app]; [set_solver| |set_solver]. apply Hpush in Hc. tauto. }
    + apply Hbe. by left.
    + apply Hbe. by right.
    + right. eapply child_descends; [done|done|]. destruct (Hbe h) as [->|?]; [right; by left| |done].
      destruct (child_parent a c root Ha Hcp) as (n & Hr & _). by eapply ancestor_of_refl; [apply Ha|].
Qed.

(** The number of headers left bounds the turns. *)
Lemma invalidate_loop_ok (fuel : nat) a root R a1 stack :
  side_chain_ok a → visiting a root R a1 stack → (size (headers a1) ≤ fuel)%nat →
  ∃ a' R', invalidate_loop fuel a1 stack = Ok a' ∧ R ⊆ R' ∧ visiting a root R' a' [].
Proof.
  intros Ha. revert R a1 stack. induction fuel as [|fuel IH]; intros R a1 [|h stack] Hv Hf; [by exists a1, R| |by exists a1, R|].
  - exfalso. destruct (vi_fresh _ _ _ _ _ Hv h) as [Hh (p & _ & hd & Hd & _)]; [by left|].
    assert (headers a1 !! h = Some hd) as Hd1 by (by rewrite (iv_headers _ _ _ (vi_removed _ _ _ _ _ Hv)), decide_False).
    assert (headers a1 = ∅) as E by (apply map_size_empty_iff; lia). by rewrite E, lookup_empty in Hd1.
  - pose proof (visiting_step a root R a1 h stack Ha Hv) as Hs. cbn [invalidate_loop].
    pose proof (invalidate_one_fields a1 h) as (_ & E2 & _).
    destruct (invalidate_one a1 h) as [a2 pushed]. cbn [fst] in E2.
    destruct (IH _ _ _ Hs) as (a' & R' & Hl & Hsub & Hv').
    { rewrite E2. destruct (vi_fresh _ _ _ _ _ Hv h) as [Hh (p & _ & hd & Hd & _)]; [by left|].
      assert (headers a1 !! h = Some hd) as Hd1 by (by rewrite (iv_headers _ _ _ (vi_removed _ _ _ _ _ Hv)), decide_False).
      rewrite map_size_delete, Hd1. lia. }
    exists a', R'. split_and!; [done|set_solver|done].
Qed.

(** *** The archive that is left *)

(** Blocks that stay keep their ancestors. *)
Section Left.
Context (a a' : Archive) (R : gset bytes).
Context (Ha : side_chain_ok a) (Hi : invalidated a R a')
  (Hclosed : ∀ c p, p ∈ R → child_of a c p → c ∈ R).

Lemma left_height h n : height_is (side_index a') h n ↔ h ∉ R ∧ height_is (side_index a) h n.
Proof.
  rewrite !height_is_side, (iv_heights _ _ _ Hi). destruct (decide (h ∈ R)); [split; [done|by intros [? _]]|tauto].
Qed.

Lemma left_header h : h ∉ R → headers a' !! h = headers a !! h.
Proof. intros Hh. by rewrite (iv_headers _ _ _ Hi), decide_False. Qed.

Lemma left_parent h : h ∉ R → ix_parent (side_index a') h = ix_parent (side_index a) h.
Proof. intros Hh. simpl. unfold get_header, try_get_header. by rewrite left_header. Qed.

Lemma parent_left h p n :
  h ∉ R → height_is (side_index a) h n → 0 < n → ix_parent (side_index a) h = Ok p → p ∉ R.
Proof.
  intros Hh Hn H0 Hp HpR. apply Hh, (Hclosed h p HpR). simpl in Hp. unfold get_header, try_get_header in Hp.
  destruct (headers a !! h) as [hd|] eqn:E; [|discriminate]. simpl in Hp. exists hd. split; [done|].
  destruct (prev_side_hash hd); [|discriminate]. by injection Hp as ->.
Qed.

Lemma left_nth_parent (k : nat) h n :
  h ∉ R → height_is (side_index a) h n → Z.of_nat k ≤ n →
  nth_parent (side_index a') k h = nth_parent (side_index a) k h.
Proof.
  revert h n. induction k as [|k IH]; intros h n Hh Hn Hk; [done|]. cbn [nth_parent].
  rewrite left_parent by done. destruct (io_parent _ (sc_index a Ha) h n Hn) as (p & Hp & Hhp); [lia|].
  rewrite Hp. apply (IH p (n - 1)); [|done|lia]. eapply (parent_left h p n); [done|done|lia|done].
Qed.

Lemma left_ok : side_chain_ok a'.
Proof.
  split.
  - split.
    + intros h n [_ Hh]%left_height. by eapply (io_range _ (sc_index a Ha)).
    + intros h n [HR Hh]%left_height Hn. destruct (io_parent _ (sc_index a Ha) h n Hh Hn) as (p & Hp & Hhp).
      exists p. rewrite left_parent by done. split; [done|]. apply left_height. split; [|done]. by eapply parent_left.
    + intros h n [HR Hh]%left_height. destruct (io_ancestors _ (sc_index a Ha) h n Hh) as (l & Hl & Hb & Hlen).
      exists l. simpl in *. rewrite (iv_ancestors _ _ _ Hi), decide_False by done. split_and!; [done| |done].
      intros i Hle. destruct (Hb i Hle) as (x & Hx & Hp). exists x. split; [done|].
      by rewrite (left_nth_parent _ h n) by (done || lia).
  - intros h n Hh. rewrite (iv_heights _ _ _ Hi) in Hh. destruct (decide (h ∈ R)); [done|].
    rewrite left_header by done. by eapply (sc_header a Ha).
  - intros h hd Hh. rewrite (iv_headers _ _ _ Hi) in Hh. destruct (decide (h ∈ R)) as [|HR]; [done|].
    destruct (sc_height a Ha h hd Hh) as [Hhash Hp]. split; [done|]. rewrite !(iv_heights _ _ _ Hi).
    destruct (prev_side_hash hd) as [p|] eqn:Ep; [|by rewrite decide_False].
    destruct Hp as (n & Hn & Hn'). exists n. rewrite (iv_heights _ _ _ Hi), !decide_False; [done|done|].
    intros HpR. apply HR, (Hclosed h p HpR). by exists hd.
  - intros o. destruct o as [h|].
    + destruct (decide (h ∈ R)) as [HR|HR].
      * rewrite (iv_gone _ _ _ Hi), (iv_headers _ _ _ Hi), decide_True by done. by split; intros [].
      * rewrite (iv_left _ _ _ Hi), fmap_is_Some, left_header by congruence. apply (sc_known a Ha (Some h)).
    + rewrite (iv_left _ _ _ Hi), fmap_is_Some by done. apply (sc_known a Ha None).
  - intros o s Hs c.
    rewrite (iv_left _ _ _ Hi) in Hs by (intros k -> Hk; by rewrite (iv_gone _ _ _ Hi) in Hs).
    destruct (successors a !! o) as [s'|] eqn:Es; [|discriminate]. injection Hs as <-.
    rewrite elem_of_difference, (sc_links a Ha o s' Es c). pose proof (iv_headers _ _ _ Hi c) as Hc.
    split; [intros [(hd & Hd & Hp) HR]; exists hd; by rewrite Hc, decide_False|].
    intros (hd & Hd & Hp). rewrite Hc in Hd. destruct (decide (c ∈ R)); [done|]. split; [by exists hd|done].
Qed.

End Left.

Lemma invalidate_block_exact a h :
  side_chain_ok a →
  ∃ a' R, invalidate_block a h = Ok a' ∧ invalidated a R a' ∧ side_chain_ok a' ∧
    ∀ x, x ∈ R ↔ x = h ∨ ancestor_of (side_index a) h x.
Proof.
  intros Ha. unfold invalidate_block.
  assert (invalidated a ∅ a) as H0.
  { split; try (intros k; by rewrite decide_False by set_solver); [set_solver|set_solver|].
    intros o _. destruct (successors a !! o) as [s|]; [|done]. simpl. f_equal. set_solver. }
  pose proof (invalidate_one_ok a ∅ a h Ha H0) as Hone. specialize (Hone ltac:(set_solver)).
  pose proof (invalidate_one_fields a h) as (_ & E2 & _).
  cbn [invalidate_loop]. destruct (invalidate_one a h) as [a1 pushed]. cbn [fst] in E2.
  destruct Hone as (Hi & Hnd & Hpush). change (∀ c, c ∈ pushed ↔ c ∉ (∅ : gset bytes) ∧ child_of a c h) in Hpush.
  rewrite app_nil_r. destruct (invalidate_loop_ok (size (headers a)) a h ({[h]} ∪ ∅) a1 pushed Ha) as (a' & R & Hl & Hsub & Hv).
  - split; [done|done| | |].
    + intros c [_ Hc]%Hpush. split; [|exists h; split; [set_solver|done]].
      intros [->%elem_of_singleton|?]%elem_of_union; [|set_solver].
      destruct (child_parent a h h Ha Hc) as (n & H1 & H2 & _). pose proof (height_is_fun _ _ _ _ H1 H2). lia.
    + intros c p [->%elem_of_singleton|?]%elem_of_union Hc; [|set_solver]. right. apply Hpush. set_solver.
    + intros c [Hc|[_ Hc]%Hpush]; [left; set_solver|]. right. eapply child_descends; [done|done|].
      destruct (child_parent a c h Ha Hc) as (n & Hr & _). by eapply ancestor_of_refl; [apply Ha|].
  - rewrite E2, map_size_delete. destruct (headers a !! h); simpl; lia.
  - exists a', R. split_and!; [exact Hl|apply Hv|..].
    + eapply left_ok; [done|apply Hv|]. intros c p Hp Hc. destruct (vi_children _ _ _ _ _ Hv c p Hp Hc); [done|set_solver].
    + intros x. split; [intros Hx; apply (vi_below _ _ _ _ _ Hv); by left|].
      intros [->|(n & k & Hn & Hk & Hp)]; [set_solver|]. revert x n Hn Hk Hp. induction k as [|k IH]; intros x n Hn Hk Hp.
      { injection Hp as ->. set_solver. }
      destruct (io_parent _ (sc_index a Ha) x n Hn) as (p & Hpar & Hhp); [lia|]. cbn [nth_parent] in Hp. rewrite Hpar in Hp.
      assert (p ∈ R) as HpR by (apply (IH p (n - 1)); [done|lia|done]).
      destruct (vi_children _ _ _ _ _ Hv x p HpR) as [?|?]; [|done|set_solver].
      simpl in Hpar. unfold get_header, try_get_header in Hpar.
      destruct (headers a !! x) as [hd|] eqn:E; [|discriminate]. simpl in Hpar. exists hd. split; [done|].
      destruct (prev_side_hash hd); [|discriminate]. by injection Hpar as ->.
Qed.

(** C30: invalidating a block terminates, removes the heights, headers, bodies
    and ancestor lists of exactly the block and its descendants, marks exactly
    them invalid, and leaves the chain well formed. *)
Theorem invalidate_block_spec a h :
  side_chain_ok a →
  ∃ a' R, invalidate_block a h = Ok a' ∧ invalidated a R a' ∧ side_chain_ok a' ∧
    ∀ x, x ∈ R ↔ x = h ∨ ancestor_of (side_index a) h x.
Proof. apply invalidate_block_exact. Qed.

End Invalidation.
