(* ===== verification/ArchiveReach.v ===== *)
(** * Archives the node can produce

    The operations of the archive as a step relation; both chains are well
    formed in every reachable archive, so the queries are exact there. *)

From stdpp Require Import base numbers list strings gmap.
From S2P Require Import Prelude Float64 StateErrors Transactions TwoWayPeg Bodies Archive ArchiveStore.
From S2P Require Import ArchiveFacts ArchiveStoreFacts ArchiveInvalidation.

Section Reach.
Context {AE : ArchiveEnv} {BH : BodyHashes}.
Implicit Types (a : Archive) (h : bytes).

(** ** What an operation leaves alone *)

Definition same_side a a' : Prop :=
  block_hash_to_height a' = block_hash_to_height a ∧ headers a' = headers a ∧
  exponential_ancestors a' = exponential_ancestors a ∧ successors a' = successors a.
Definition same_main a a' : Prop :=
  main_block_hash_to_height a' = main_block_hash_to_height a ∧ main_header_infos a' = main_header_infos a ∧
  exponential_main_ancestors a' = exponential_main_ancestors a ∧ total_work a' = total_work a.

#[local] Instance same_side_preorder : PreOrder same_side.
Proof. split; [done|]. intros a b c (?&?&?&?) (?&?&?&?). split_and!; congruence. Qed.
#[local] Instance same_main_preorder : PreOrder same_main.
Proof. split; [done|]. intros a b c (?&?&?&?) (?&?&?&?). split_and!; congruence. Qed.

Lemma same_side_ok a a' : same_side a a' → side_chain_ok a → side_chain_ok a'.
Proof.
  intros (E1 & E2 & E3 & E4) Ha. assert (side_index a' = side_index a) as Eix.
  { unfold side_index, get_height, get_header, try_get_height, try_get_header. by rewrite E1, E2, E3. }
  split; rewrite ?Eix, ?E1, ?E2, ?E4; apply Ha.
Qed.

Lemma same_main_ok a a' : same_main a a' → main_chain_ok a → main_chain_ok a'.
Proof.
  intros (E1 & E2 & E3 & E4) Ha. assert (main_index a' = main_index a) as Eix.
  { unfold main_index, get_main_height, get_main_header_info. by rewrite E1, E2, E3. }
  split; rewrite ?Eix, ?E1, ?E2, ?E4; apply Ha.
Qed.

Lemma put_header_main a hd a' : put_header a hd = Ok a' → same_main a a'.
Proof.
  unfold put_header, link_header. intros H.
  destruct (match prev_side_hash hd with None => _ | Some _ => _ end) as [height|]; [|discriminate].
  cbn [mbind result_bind] in H. destruct (get_successors _ _) as [pred|]; [|discriminate].
  cbn [mbind result_bind] in H. destruct (build_ancestors _ _ _ _) as [l|]; [|discriminate].
  cbn [mbind result_bind] in H. destruct (get_main_successors _ _) as [mains|]; [|discriminate].
  cbn [mbind result_bind] in H. destruct (try_fold _ _ _) as [results|]; [|discriminate]. by injection H as <-.
Qed.

Lemma put_main_header_info_side a info a' : put_main_header_info a info = Ok a' → same_side a a'.
Proof.
  unfold put_main_header_info, link_main_header. intros H. destruct (bail_if _ _); [|discriminate].
  cbn [mbind result_bind] in H. destruct (if bool_decide _ then _ else _) as [height|]; [|discriminate].
  cbn [mbind result_bind] in H. destruct (if negb _ then _ else _) as [work|]; [|discriminate].
  cbn [mbind result_bind] in H. destruct (get_main_successors _ _) as [pred|]; [|discriminate].
  cbn [mbind result_bind] in H. destruct (build_ancestors _ _ _ _) as [l|]; [|discriminate]. by injection H as <-.
Qed.

Lemma put_main_block_info_same a main info a' :
  put_main_block_info a main info = Ok a' → same_side a a' ∧ same_main a a'.
Proof.
  unfold put_main_block_info. intros H. destruct (get_main_header_info a main) as [mi|]; [|discriminate].
  cbn [mbind result_bind] in H. destruct (if bool_decide _ then _ else _); [|discriminate].
  cbn [mbind result_bind] in H. destruct (bmm_commitment info); [|by injection H as <-].
  destruct (try_get_header _ _) as [hd|]; [|by injection H as <-].
  destruct (if negb _ then _ else _) as [r|]; [|discriminate]. by injection H as <-.
Qed.

Lemma foldl_add_inclusion h a l : let a' := foldl (add_inclusion h) a l in same_side a a' ∧ same_main a a'.
Proof. revert a. induction l as [|t l IH]; intros a; [done|]. exact (IH (add_inclusion h a t)). Qed.
Lemma foldl_remove_inclusion h a l : let a' := foldl (remove_inclusion h) a l in same_side a a' ∧ same_main a a'.
Proof. revert a. induction l as [|t l IH]; intros a; [done|]. exact (IH (remove_inclusion h a t)). Qed.

Lemma update_side_tips_same main_tip a h hd q a' q' :
  update_side_tips main_tip a h hd q = Ok (a', q') → same_side a a' ∧ same_main a a'.
Proof.
  unfold update_side_tips. intros H.
  destruct (try_fold _ _ _) as [[a1 b]|] eqn:E; [|discriminate].
  assert (same_side a a1 ∧ same_main a a1) as Hs.
  { apply (try_fold_inv (fun _ st => same_side a st.1 ∧ same_main a st.1) _ (a, false) _ (a1, b)) in E; [done|done|].
    intros seen [a2 b2] e [a3 b3] [Hs Hm] _. cbn [fst] in *. unfold connect_verified. destruct e as [m r]. cbn [fst snd].
    destruct r; [|by intros [= <- <-]]. destruct (match prev_side_hash hd with Some _ => _ | None => _ end); [by intros [= <- <-]|].
    destruct (is_main_descendant a2 m main_tip) as [d|]; [|discriminate]. cbn [mbind result_bind].
    destruct d; [|by intros [= <- <-]]. cbn [negb]. destruct (get_total_work a2 m) as [w|]; [|discriminate].
    cbn [mbind result_bind]. destruct (map_err _ _) as [tips|]; [|discriminate]. by intros [= <- <-]. }
  cbn [mbind result_bind] in H. destruct b; [|by injection H as <- _].
  destruct (get_successors a1 (Some h)); [|discriminate]. by injection H as <- _.
Qed.

Lemma update_loop_same (fuel : nat) main_tip a q a' :
  update_side_tips_loop fuel main_tip a q = Ok a' → same_side a a' ∧ same_main a a'.
Proof.
  revert a q. induction fuel as [|fuel IH]; intros a [|h q] H; simpl in H; try discriminate; try (by injection H as <-).
  destruct (negb (contains_body a h)); [by apply (IH a q)|].
  destruct (get_header a h) as [hd|]; [|discriminate]. cbn [mbind result_bind] in H.
  destruct (update_side_tips main_tip a h hd q) as [[a1 q1]|] eqn:E; [|discriminate]. cbn [mbind result_bind] in H.
  destruct (update_side_tips_same _ _ _ _ _ _ _ E). destruct (IH a1 q1 H). split; etrans; eauto.
Qed.

Lemma put_body_same a h body a' : put_body a h body = Ok a' → same_side a a' ∧ same_main a a'.
Proof.
  unfold put_body. intros H. destruct (get_header a h) as [hd|]; [|discriminate]. cbn [mbind result_bind] in H.
  destruct (update_side_tips _ _ _ _ _) as [[a1 q]|] eqn:E; [|discriminate]. cbn [mbind result_bind] in H.
  destruct (update_side_tips_same _ _ _ _ _ _ _ E) as [Hs1 Hm1]. destruct (update_loop_same _ _ _ _ _ H) as [Hs2 Hm2].
  destruct (foldl_add_inclusion h (with_bodies a (<[h := body]> (bodies a))) (enumerate 0 (transactions body))) as [Hs0 Hm0].
  split; [etrans; [exact Hs0|etrans; [exact Hs1|exact Hs2]]|etrans; [exact Hm0|etrans; [exact Hm1|exact Hm2]]].
Qed.

Lemma disconnect_loop_same (fuel : nat) a q a' :
  disconnect_tips_loop fuel a q = Ok a' → same_side a a' ∧ same_main a a'.
Proof.
  revert a q. induction fuel as [|fuel IH]; intros a [|h q] H; simpl in H; try discriminate; try (by injection H as <-).
  destruct (negb _); [by apply (IH a q)|]. destruct (get_successors _ _) as [s|]; [|discriminate]. 
  cbn [mbind result_bind] in H. exact (IH _ _ H).
Qed.

Lemma delete_body_same a h body a' : delete_body a h body = Ok a' → same_side a a' ∧ same_main a a'.
Proof.
  unfold delete_body. intros H. destruct (disconnect_loop_same _ _ _ _ H) as [Hs Hm].
  destruct (foldl_remove_inclusion h (with_bodies a (delete h (bodies a))) (transactions body)) as [Hs0 Hm0].
  split; [etrans; [exact Hs0|exact Hs]|etrans; [exact Hm0|exact Hm]].
Qed.

Lemma foldl_forget_main h a l : same_main a (foldl (forget_inclusions h) a l).
Proof.
  revert a. induction l as [|t l IH]; intros a; [done|]. simpl. etrans; [|apply IH].
  unfold forget_inclusions. by destruct (txid_to_inclusions a !! tx_txid t).
Qed.

Lemma invalidate_one_main a h : same_main a (invalidate_one a h).1.
Proof.
  unfold invalidate_one. cbn [fst].
  set (b := match bodies _ !! h with Some body => _ | None => _ end).
  assert (same_main a b) as Hb.
  { subst b. destruct (bodies _ !! h) as [body|]; [|done].
    exact (foldl_forget_main h (with_block_hash_to_height a (delete h (block_hash_to_height a))) _). }
  cbn [headers successors with_exponential_ancestors with_bodies].
  destruct (headers b !! h) as [hd|]; [destruct (successors b !! prev_side_hash hd)|]; exact Hb.
Qed.

Lemma invalidate_loop_main (fuel : nat) a stack a' : invalidate_loop fuel a stack = Ok a' → same_main a a'.
Proof.
  revert a stack. induction fuel as [|fuel IH]; intros a [|h stack] H; cbn [invalidate_loop] in H;
    try discriminate; try (by injection H as <-).
  pose proof (invalidate_one_main a h) as Hm. destruct (invalidate_one a h) as [a1 pushed].
  etrans; [exact Hm|]. by eapply IH.
Qed.

(** ** Reachable archives *)

(** One operation.  Headers are stored under their hash and heights fit in a
    [u32]; the tips may change in any way. *)
Inductive archive_step : Archive → Archive → Prop :=
| step_header a hd a' : storable a hd → put_header a hd = Ok a' → archive_step a a'
| step_main_header a info a' :
    main_storable a info → put_main_header_info a info = Ok a' → archive_step a a'
| step_main_info a main info a' : put_main_block_info a main info = Ok a' → archive_step a a'
| step_body a h body a' : put_body a h body = Ok a' → archive_step a a'
| step_delete_body a h body a' : delete_body a h body = Ok a' → archive_step a a'
| step_invalidate a h a' : invalidate_block a h = Ok a' → archive_step a a'
| step_tips a tips : archive_step a (with_side_tips a tips).

Definition archive_ok a : Prop := side_chain_ok a ∧ main_chain_ok a.

Lemma archive_step_ok a a' : archive_step a a' → archive_ok a → archive_ok a'.
Proof.
  intros Hstep [Hs Hm]. destruct Hstep.
  - split; [by eapply put_header_ok|by eapply same_main_ok; [eapply put_header_main|]].
  - split; [by eapply same_side_ok; [eapply put_main_header_info_side|]|by eapply put_main_header_info_ok].
  - destruct (put_main_block_info_same a main info a'); [done|]. split; [by eapply same_side_ok|by eapply same_main_ok].
  - destruct (put_body_same a h body a'); [done|]. split; [by eapply same_side_ok|by eapply same_main_ok].
  - destruct (delete_body_same a h body a'); [done|]. split; [by eapply same_side_ok|by eapply same_main_ok].
  - destruct (invalidate_block_exact a h Hs) as (a2 & R & Hi & _ & Hok & _).
    assert (a2 = a') as -> by congruence.
    split; [done|]. eapply same_main_ok; [by eapply invalidate_loop_main|done].
  - split; [by eapply same_side_ok; [|exact Hs]|by eapply same_main_ok; [|exact Hm]].
Qed.

Definition reachable a : Prop := rtc archive_step Archive_new a.

Lemma reachable_ok a : reachable a → archive_ok a.
Proof.
  intros Hr. assert (archive_ok Archive_new) as H0 by (split; [apply archive_new_ok|apply archive_new_main_ok]).
  induction Hr as [|a b c Hs _ IH]; [done|]. by eapply IH, archive_step_ok.
Qed.

End Reach.
