(* ===== verification/ArchiveLinks.v ===== *)
(** * Links between the two chains

    In every reachable archive the mainchain successor sets are over known
    mainchain blocks and every BMM result is about one.  With them the
    operations that store headers and mainchain blocks succeed exactly when
    their parents are known. *)

From stdpp Require Import base numbers list strings gmap.
From S2P Require Import Prelude Float64 StateErrors Transactions TwoWayPeg Bodies Archive ArchiveStore.
From S2P Require Import ArchiveFacts ArchiveStoreFacts ArchiveInvalidation ArchiveReach.

Section Links.
Context {AE : ArchiveEnv} {BH : BodyHashes}.
Implicit Types (a : Archive) (h : bytes) (hd : Header) (info : BlockHeaderInfo).

Definition known_main a h : Prop := is_Some (main_header_infos a !! h).

Record links_ok a : Prop := {
  lk_succ h : is_Some (main_successors a !! h) ↔ h = all_zeros ∨ known_main a h;
  lk_sub p s x : main_successors a !! p = Some s → x ∈ s → known_main a x;
  lk_results c m : is_Some (get_bmm_results a c !! m) → known_main a m
}.

(** The same links over the same mainchain headers. *)
Definition same_links a a' : Prop :=
  main_successors a' = main_successors a ∧ bmm_results a' = bmm_results a ∧ main_header_infos a' = main_header_infos a.
#[local] Instance same_links_preorder : PreOrder same_links.
Proof. split; [done|]. intros a b c (?&?&?) (?&?&?). split_and!; congruence. Qed.
Lemma same_links_ok a a' : same_links a a' → links_ok a → links_ok a'.
Proof.
  intros (E1 & E2 & E3) Ha. split; unfold known_main, get_bmm_results; rewrite ?E1, ?E2, ?E3; apply Ha.
Qed.

Lemma links_new : links_ok Archive_new.
Proof.
  split; unfold known_main, get_bmm_results; cbn [main_successors main_header_infos bmm_results Archive_new].
  - intros h. rewrite lookup_empty. destruct (decide (h = all_zeros)) as [->|Hne].
    + rewrite lookup_singleton_eq. split; [by left|eauto].
    + rewrite lookup_singleton_ne by done. split; [by intros []|]. intros [?|[]]; done.
  - intros p s x [<- <-]%lookup_singleton_Some Hx. set_solver.
  - intros c m. rewrite lookup_empty. cbn [default]. rewrite lookup_empty. by intros [].
Qed.

(** ** What each operation does to the links *)

Lemma put_header_links a hd a' : put_header a hd = Ok a' →
  main_successors a' = main_successors a ∧ main_header_infos a' = main_header_infos a ∧
  ∃ s, main_successors a !! prev_main_hash hd = Some s ∧
    (∀ c, c ≠ header_hash hd → get_bmm_results a' c = get_bmm_results a c) ∧
    (∀ m, is_Some (get_bmm_results a' (header_hash hd) !! m) → is_Some (get_bmm_results a (header_hash hd) !! m) ∨ m ∈ s).
Proof.
  unfold put_header, link_header. intros H.
  destruct (match prev_side_hash hd with None => _ | Some _ => _ end) as [height|]; [|discriminate].
  cbn [mbind result_bind] in H. destruct (get_successors _ _) as [pred|]; [|discriminate].
  cbn [mbind result_bind] in H. destruct (build_ancestors _ _ _ _) as [l|]; [|discriminate].
  cbn [mbind result_bind] in H. unfold get_main_successors in H. cbn [main_successors with_exponential_ancestors
    with_successors with_headers with_block_hash_to_height] in H.
  destruct (main_successors a !! prev_main_hash hd) as [s|]; [|discriminate].
  cbn [ok_or mbind result_bind] in H. destruct (try_fold _ _ _) as [results|] eqn:Ef; [|discriminate].
  injection H as <-. split_and!; [done..|]. exists s. split_and!; [done|..].
  - intros c Hc. unfold get_bmm_results. cbn [bmm_results with_bmm_results]. by rewrite lookup_insert_ne.
  - unfold get_bmm_results at 1. cbn [bmm_results with_bmm_results]. rewrite lookup_insert_eq. cbn [default].
    revert Ef. apply (try_fold_inv (fun _ (r : gmap bytes BmmResult) => ∀ m, is_Some (r !! m) → _ ∨ m ∈ s)).
    + intros m Hm. by left.
    + intros seen r m r' IH Hm Hf x. destruct (bmm_result_at _ _ _ m) as [v|]; [|discriminate]. injection Hf as <-.
      rewrite lookup_insert_is_Some. intros [<-|[_ Hx]]; [|by apply IH]. right.
      apply elem_of_elements. by rewrite <- set_iter_perm.
Qed.

Lemma put_main_header_links a info a' : put_main_header_info a info = Ok a' →
  bmm_results a' = bmm_results a ∧
  main_header_infos a' = <[mh_block_hash info := info]> (main_header_infos a) ∧
  ∃ s, main_successors a !! mh_prev_block_hash info = Some s ∧
    let m1 := <[mh_prev_block_hash info := {[mh_block_hash info]} ∪ s]> (main_successors a) in
    main_successors a' = <[mh_block_hash info := default ∅ (m1 !! mh_block_hash info)]> m1.
Proof.
  unfold put_main_header_info, link_main_header. intros H. destruct (bail_if _ _); [|discriminate].
  cbn [mbind result_bind] in H. destruct (if bool_decide _ then _ else _) as [height|]; [|discriminate].
  cbn [mbind result_bind] in H. destruct (if negb _ then _ else _) as [work|]; [|discriminate].
  cbn [mbind result_bind] in H. unfold get_main_successors in H.
  cbn [main_successors with_total_work with_main_header_infos with_main_block_hash_to_height] in H.
  destruct (main_successors a !! mh_prev_block_hash info) as [s|]; [|discriminate].
  cbn [ok_or mbind result_bind] in H. destruct (build_ancestors _ _ _ _) as [l|]; [|discriminate].
  injection H as <-. split_and!; [done..|]. by exists s.
Qed.

Lemma put_main_block_links a main b a' : put_main_block_info a main b = Ok a' →
  main_successors a' = main_successors a ∧ main_header_infos a' = main_header_infos a ∧
  main_block_infos a' = <[main := b]> (main_block_infos a) ∧ side_tips a' = side_tips a ∧
  known_main a main ∧
  ∀ c m, is_Some (get_bmm_results a' c !! m) → is_Some (get_bmm_results a c !! m) ∨ m = main.
Proof.
  unfold put_main_block_info, known_main, get_main_header_info. intros H.
  destruct (main_header_infos a !! main) as [mi|] eqn:Em; [|discriminate]. cbn [ok_or mbind result_bind] in H.
  destruct (if bool_decide _ then _ else _); [|discriminate]. cbn [mbind result_bind] in H.
  destruct (bmm_commitment b) as [c|]; [|by injection H as <-; split_and!; [done..|eauto|by left]].
  destruct (try_get_header _ _) as [hd|]; [|by injection H as <-; split_and!; [done..|eauto|by left]].
  destruct (if negb _ then _ else _) as [r|]; [|discriminate]. injection H as <-. split_and!; [done..|eauto|].
  intros c' m. unfold get_bmm_results at 1. cbn [bmm_results with_bmm_results].
  destruct (decide (c = c')) as [<-|Hne].
  - rewrite lookup_insert_eq. cbn [default from_option id]. rewrite lookup_insert_is_Some. intros [<-|[_ Hx]]; [by right|by left].
  - rewrite lookup_insert_ne by done. by left.
Qed.

Lemma put_header_links_ok a hd a' : put_header a hd = Ok a' → links_ok a → links_ok a'.
Proof.
  intros (E1 & E3 & s & Hs & Hother & Hown)%put_header_links Ha. split; unfold known_main; rewrite ?E1, ?E3.
  - apply Ha.
  - apply Ha.
  - intros c m Hm. destruct (decide (c = header_hash hd)) as [->|Hne].
    + destruct (Hown m Hm) as [Hx|Hx]; [by apply (lk_results _ Ha _ _ Hx)|by apply (lk_sub _ Ha (prev_main_hash hd) s)].
    + rewrite Hother in Hm by done. by apply (lk_results _ Ha _ _ Hm).
Qed.

Lemma put_main_header_links_ok a info a' : put_main_header_info a info = Ok a' → links_ok a → links_ok a'.
Proof.
  intros (E2 & E3 & s & Hs & E1)%put_main_header_links Ha. set (b := mh_block_hash info) in *. set (p := mh_prev_block_hash info) in *.
  assert (∀ h, known_main a' h ↔ h = b ∨ known_main a h) as Hk.
  { intros h. unfold known_main. rewrite E3, lookup_insert_is_Some. destruct (decide (b = h)) as [<-|]; naive_solver. }
  cbn zeta in E1. split.
  - intros h. rewrite E1, Hk, !lookup_insert_is_Some. pose proof (lk_succ _ Ha h) as Hh.
    assert (p = all_zeros ∨ known_main a p) as Hp by (apply (lk_succ _ Ha); eauto).
    destruct (decide (b = h)) as [Eb|Eb]; [split; [by right; left|by left]|].
    destruct (decide (p = h)) as [Ep|Ep]; [rewrite <- Ep in *; naive_solver|]. naive_solver.
  - intros q t x. rewrite E1, Hk. intros [[<- <-]|[Hne Hq]]%lookup_insert_Some Hx.
    + destruct (decide (p = b)) as [Epb|Hpb].
      * rewrite Epb, lookup_insert_eq in Hx. cbn [default from_option id] in Hx. apply elem_of_union in Hx as [Hx|Hx]; [left; set_solver|].
        right. by apply (lk_sub _ Ha p s).
      * rewrite lookup_insert_ne in Hx by done. destruct (main_successors a !! b) as [t|] eqn:Et; [|set_solver].
        right. by apply (lk_sub _ Ha b t).
    + apply lookup_insert_Some in Hq as [[<- <-]|[_ Hq]].
      * apply elem_of_union in Hx as [Hx|Hx]; [left; set_solver|]. right. by apply (lk_sub _ Ha p s).
      * right. by apply (lk_sub _ Ha q t).
  - intros c m. unfold get_bmm_results. rewrite E2. intros Hm. apply Hk. right. by apply (lk_results _ Ha c).
Qed.

Lemma put_main_block_links_ok a main b a' : put_main_block_info a main b = Ok a' → links_ok a → links_ok a'.
Proof.
  intros (E1 & E3 & _ & _ & Hk & Hr)%put_main_block_links Ha. split; unfold known_main; rewrite ?E1, ?E3; [apply Ha..|].
  intros c m [Hm| ->]%Hr; [by apply (lk_results _ Ha _ _ Hm)|done].
Qed.

Lemma connect_verified_links main_tip h hd st e st' :
  connect_verified main_tip h hd st e = Ok st' → same_links st.1 st'.1.
Proof.
  unfold connect_verified. destruct st as [a b]. destruct e.2; [|by intros [= <-]].
  destruct (match prev_side_hash hd with Some _ => _ | None => _ end); [by intros [= <-]|].
  destruct (is_main_descendant a e.1 main_tip) as [d|]; [|discriminate]. cbn [mbind result_bind].
  destruct d; [|by intros [= <-]]. cbn [negb]. destruct (get_total_work a e.1) as [w|]; [|discriminate].
  cbn [mbind result_bind]. destruct (map_err _ _) as [tips|]; [|discriminate]. by intros [= <-].
Qed.

Lemma update_side_tips_links main_tip a h hd q a' q' :
  update_side_tips main_tip a h hd q = Ok (a', q') → same_links a a'.
Proof.
  unfold update_side_tips. intros H. destruct (try_fold _ _ _) as [[a1 b]|] eqn:E; [|discriminate].
  assert (same_links a a1) as Hs.
  { apply (try_fold_inv (fun _ st => same_links a st.1) _ (a, false) _ (a1, b)) in E; [done|done|].
    intros seen st e st' Hs _ Hc. etrans; [exact Hs|]. by eapply connect_verified_links. }
  cbn [mbind result_bind] in H. destruct b; [|by injection H as <- _].
  destruct (get_successors a1 (Some h)); [|discriminate]. by injection H as <- _.
Qed.

Lemma update_loop_links (fuel : nat) main_tip a q a' :
  update_side_tips_loop fuel main_tip a q = Ok a' → same_links a a'.
Proof.
  revert a q. induction fuel as [|fuel IH]; intros a [|h q] H; simpl in H; try discriminate; try (by injection H as <-).
  destruct (negb (contains_body a h)); [by apply (IH a q)|].
  destruct (get_header a h) as [hd|]; [|discriminate]. cbn [mbind result_bind] in H.
  destruct (update_side_tips main_tip a h hd q) as [[a1 q1]|] eqn:E; [|discriminate]. cbn [mbind result_bind] in H.
  etrans; [by eapply update_side_tips_links|by eapply IH].
Qed.

Lemma foldl_links {A} (f : Archive → A → Archive) a l : (∀ a x, same_links a (f a x)) → same_links a (foldl f a l).
Proof. intros Hf. revert a. induction l as [|x l IH]; intros a; [done|]. simpl. etrans; [apply Hf|apply IH]. Qed.

Lemma put_body_links a h body a' : put_body a h body = Ok a' → same_links a a'.
Proof.
  unfold put_body. intros H. destruct (get_header a h) as [hd|]; [|discriminate]. cbn [mbind result_bind] in H.
  destruct (update_side_tips _ _ _ _ _) as [[a1 q]|] eqn:E; [|discriminate]. cbn [mbind result_bind] in H.
  etrans; [|etrans; [by eapply update_side_tips_links|by eapply update_loop_links]].
  exact (foldl_links (add_inclusion h) (with_bodies a (<[h := body]> (bodies a))) _ (fun _ _ => conj eq_refl (conj eq_refl eq_refl))).
Qed.

Lemma disconnect_loop_links (fuel : nat) a q a' : disconnect_tips_loop fuel a q = Ok a' → same_links a a'.
Proof.
  revert a q. induction fuel as [|fuel IH]; intros a [|h q] H; simpl in H; try discriminate; try (by injection H as <-).
  destruct (negb _); [by apply (IH a q)|]. destruct (get_successors _ _) as [s|]; [|discriminate].
  cbn [mbind result_bind] in H. exact (IH _ _ H).
Qed.

Lemma delete_body_links a h body a' : delete_body a h body = Ok a' → same_links a a'.
Proof.
  unfold delete_body. intros H. etrans; [|by eapply disconnect_loop_links].
  exact (foldl_links (remove_inclusion h) (with_bodies a (delete h (bodies a))) _ (fun _ _ => conj eq_refl (conj eq_refl eq_refl))).
Qed.

Lemma invalidate_one_links a h : same_links a (invalidate_one a h).1.
Proof.
  unfold invalidate_one. cbn [fst]. set (b := match bodies _ !! h with Some body => _ | None => _ end).
  assert (same_links a b) as Hb.
  { subst b. destruct (bodies _ !! h) as [body|]; [|done].
    apply (foldl_links (forget_inclusions h) (with_block_hash_to_height a (delete h (block_hash_to_height a)))).
    intros a1 t. unfold forget_inclusions. by destruct (txid_to_inclusions a1 !! tx_txid t). }
  cbn [headers successors with_exponential_ancestors with_bodies].
  destruct (headers b !! h) as [hd|]; [destruct (successors b !! prev_side_hash hd)|]; exact Hb.
Qed.

Lemma invalidate_loop_links (fuel : nat) a stack a' : invalidate_loop fuel a stack = Ok a' → same_links a a'.
Proof.
  revert a stack. induction fuel as [|fuel IH]; intros a [|h stack] H; cbn [invalidate_loop] in H;
    try discriminate; try (by injection H as <-).
  pose proof (invalidate_one_links a h) as Hm. destruct (invalidate_one a h) as [a1 pushed].
  etrans; [exact Hm|]. by eapply IH.
Qed.

Lemma archive_step_links a a' : archive_step a a' → links_ok a → links_ok a'.
Proof.
  intros Hstep. destruct Hstep; [by eapply put_header_links_ok|by eapply put_main_header_links_ok|
    by eapply put_main_block_links_ok|..]; apply same_links_ok;
    [by eapply put_body_links|by eapply delete_body_links|by eapply invalidate_loop_links|done].
Qed.

Lemma reachable_links a : reachable a → links_ok a.
Proof.
  intros Hr. pose proof links_new as H0. induction Hr as [|a b c Hs _ IH]; [done|]. by eapply IH, archive_step_links.
Qed.

(** ** When the operations succeed *)

Lemma known_main_height a h : main_chain_ok a → known_main a h → ∃ n, height_is (main_index a) h n.
Proof.
  intros Ha [i Hi]. destruct (mc_height a Ha h i Hi) as (_ & _ & Hp). case_bool_decide.
  - exists 0. apply height_is_main. by destruct Hp.
  - destruct Hp as (n & w & _ & Hn & _). exists (n + 1). by apply height_is_main.
Qed.

(** The search for a verified parent never fails. *)
Lemma parent_verified_ok a c main :
  main_chain_ok a → links_ok a → known_main a main → ∃ b, parent_verified a (get_bmm_results a c) main = Ok b.
Proof.
  intros Ha Hl Hm. unfold parent_verified.
  assert (∀ e, e ∈ results_iter (get_bmm_results a c) → known_main a e.1) as Hk.
  { intros [m v]. rewrite results_iter_perm, elem_of_map_to_list. intros Hv. apply (lk_results _ Hl c). eauto. }
  induction (results_iter (get_bmm_results a c)) as [|e l IH]; [by exists false|]. cbn [try_any].
  destruct IH as [b Hb]; [intros; apply Hk; by right|].
  assert (∃ d, (if bool_decide (e.2 = Verified) then is_main_descendant a e.1 main else Ok false) = Ok d) as [d ->].
  { case_bool_decide; [|by exists false]. destruct (known_main_height a e.1 Ha (Hk e ltac:(by left))) as [n1 H1].
    destruct (known_main_height a main Ha Hm) as [n2 H2].
    destruct (is_descendant_in_ok _ (mc_index a Ha) e.1 main n1 n2 H1 H2) as (d & Hd & _). by exists d. }
  cbn [mbind result_bind]. destruct d; [by exists true|by exists b].
Qed.

(** Storing a mainchain header whose parent is known. *)
Lemma put_main_header_succeeds a info :
  main_chain_ok a → links_ok a → main_storable a info →
  mh_prev_block_hash info = all_zeros ∨ known_main a (mh_prev_block_hash info) →
  ∃ a', put_main_header_info a info = Ok a'.
Proof.
  intros Ha Hl Hst Hp. pose proof Hst as (_ & _ & Hmax).
  destruct (proj2 (lk_succ _ Hl (mh_prev_block_hash info)) Hp) as [s Hs].
  unfold put_main_header_info, get_main_height, get_total_work, link_main_header, get_main_successors.
  cbn [main_successors with_total_work with_main_header_infos with_main_block_hash_to_height].
  destruct (decide (mh_prev_block_hash info = all_zeros)) as [Hz|Hz].
  - rewrite (bool_decide_true (mh_prev_block_hash info = all_zeros)) by done. rewrite andb_false_r.
    cbn [bail_if negb mbind result_bind ok_or]. rewrite Hs. cbn [ok_or mbind result_bind build_ancestors]. by eexists.
  - rewrite (bool_decide_false (mh_prev_block_hash info = all_zeros)) by done.
    destruct Hp as [?|Hk]; [done|]. pose proof Hk as [i Hi]. rewrite Hi, bool_decide_false by done.
    cbn [andb negb bail_if mbind result_bind]. destruct (known_main_height a _ Ha Hk) as [n Hn].
    pose proof (proj1 (height_is_main _ _ _) Hn) as Hn'.
    rewrite Hn'. cbn [ok_or mbind result_bind]. destruct (io_range _ (mc_index a Ha) _ n Hn).
    assert (as_u32 (n + 1) = n + 1) as -> by (apply wrap_unsigned_small; specialize (Hmax n Hn'); lia).
    assert (∃ w, total_work a !! mh_prev_block_hash info = Some w) as [w Hw].
    { destruct (mc_height a Ha _ i Hi) as (_ & _ & Hpi). case_bool_decide; [destruct Hpi; eauto|].
      destruct Hpi as (? & ? & _ & _ & _ & ?). eauto. }
    rewrite Hw. cbn [ok_or mbind result_bind]. rewrite Hs. cbn [ok_or mbind result_bind].
    match goal with |- context [build_ancestors (main_index ?a1)] =>
      destruct (build_ancestors_ok (main_index a) (main_index a1) (mc_index a Ha)) with
        (h := mh_block_hash info) (p := mh_prev_block_hash info) (m := n) as (l & -> & _) end; [|done| |].
    + assert (new_main_entry a info = Some (n + 1, work_add w (mh_work info))) as Hent.
      { unfold new_main_entry. rewrite bool_decide_false by done. rewrite Hn', Hw. done. }
      eapply main_index_agrees; [done|done|exact Hent|done..].
    + specialize (Hmax n Hn'). lia.
    + cbn [mbind result_bind]. by eexists.
Qed.

(** Storing the block of a mainchain header after its parent's. *)
Lemma put_main_block_succeeds a main info b :
  main_chain_ok a → links_ok a → main_header_infos a !! main = Some info →
  mh_prev_block_hash info = all_zeros ∨ is_Some (main_block_infos a !! mh_prev_block_hash info) →
  ∃ a', put_main_block_info a main b = Ok a'.
Proof.
  intros Ha Hl Hi Hp. unfold put_main_block_info, get_main_header_info, get_main_block_info. rewrite Hi.
  cbn [ok_or mbind result_bind].
  assert ((if bool_decide (mh_prev_block_hash info = all_zeros) then Ok tt
           else (_ ← ok_or (main_block_infos a !! mh_prev_block_hash info) (NoMainBlockInfo (mh_prev_block_hash info)); Ok tt))
          = (Ok tt : result ArchiveError unit)) as ->.
  { case_bool_decide; [done|]. destruct Hp as [?|[x ->]]; done. }
  cbn [mbind result_bind]. destruct (bmm_commitment b) as [c|]; [|by eexists].
  destruct (try_get_header _ _) as [hd|]; [|by eexists]. destruct (negb _); [by eexists|].
  destruct (prev_side_hash hd) as [p|]; [|by eexists].
  set (a1 := with_main_block_infos a _). destruct (parent_verified_ok a1 p main) as [v ->]; [| |eexists; exact Hi|by eexists].
  - by eapply same_main_ok; [|exact Ha].
  - by eapply same_links_ok; [|exact Hl].
Qed.

(** Storing a side header: the parents must be known in both chains. *)
Definition infos_known a : Prop := ∀ h, known_main a h → is_Some (main_block_infos a !! h).

Lemma bmm_result_ok a h hd m : main_chain_ok a → links_ok a → infos_known a → known_main a m → ∃ r, bmm_result_at a h hd m = Ok r.
Proof.
  intros Ha Hl Hi Hm. unfold bmm_result_at, get_main_block_info, get_main_header_info.
  destruct (Hi m Hm) as [b ->]. cbn [ok_or mbind result_bind]. destruct (bmm_commitment b); [|by eexists].
  destruct (negb _); [by eexists|]. pose proof Hm as [i ->]. cbn [ok_or mbind result_bind]. destruct (negb _); [by eexists|].
  destruct (prev_side_hash hd) as [p|]; [|by eexists].
  destruct (parent_verified_ok a p m Ha Hl Hm) as [v ->]. by eexists.
Qed.

Lemma put_header_decided a hd n :
  archive_ok a → links_ok a → infos_known a → storable a hd → new_height a hd = Some n →
  match main_successors a !! prev_main_hash hd with
  | Some _ => ∃ a', put_header a hd = Ok a'
  | None => put_header a hd = Err (NoMainBlockHash (prev_main_hash hd))
  end.
Proof.
  intros [Hs Hm] Hl Hi Hst Hh.
  assert (match prev_side_hash hd with
          | None => Ok 0
          | Some parent => n ← ok_or (try_get_height a parent) InvalidPrevSideHash; Ok (as_u32 (n + 1))
          end = (Ok n : result ArchiveError Z)) as Hheight.
  { unfold new_height in Hh. destruct (prev_side_hash hd) as [p|] eqn:Ep; [|by injection Hh as <-].
    unfold try_get_height. destruct (block_hash_to_height a !! p) as [k|] eqn:Ek; [|discriminate]. injection Hh as <-.
    cbn [ok_or mbind result_bind]. f_equal. apply wrap_unsigned_small.
    destruct (storable_range a hd p k Hs Hst Ep Ek). lia. }
  unfold put_header. rewrite Hheight. cbn [mbind result_bind]. unfold link_header, get_successors.
  cbn [successors with_headers with_block_hash_to_height].
  assert (∃ pred, successors a !! prev_side_hash hd = Some pred) as [pred ->].
  { apply (sc_known a Hs). destruct (prev_side_hash hd) as [p|] eqn:Ep; [|done]. unfold new_height in Hh. rewrite Ep in Hh.
    destruct (block_hash_to_height a !! p) as [k|] eqn:Ek; [|discriminate]. by eapply (sc_header a Hs). }
  cbn [mbind result_bind].
  match goal with |- context [build_ancestors (side_index ?a1)] => set (b := a1) end.
  assert (∃ l, build_ancestors (side_index b) (header_hash hd)
    (ok_or (prev_side_hash hd) (ArchivePanic "header at height >= 2 must have prev_side_hash")) n = Ok l) as [l ->].
  { unfold new_height in Hh. destruct (prev_side_hash hd) as [p|] eqn:Ep; [|injection Hh as <-; by eexists].
    destruct (block_hash_to_height a !! p) as [k|] eqn:Ek; [|discriminate]. injection Hh as <-. cbn [ok_or].
    assert (index_agrees (side_index a) (side_index b)) as Hag.
    { assert (new_height a hd = Some (k + 1)) as Hnh by (unfold new_height; rewrite Ep, Ek; done).
      eapply side_index_agrees; [done|done|exact Hnh|done..]. }
    destruct (build_ancestors_ok (side_index a) (side_index b) (sc_index a Hs) Hag (header_hash hd) p k) as (l & Hbl & _);
      [by apply height_is_side|destruct (storable_range a hd p k Hs Hst Ep Ek); lia|]. by exists l. }
  cbn [mbind result_bind]. unfold get_main_successors. cbn [main_successors with_exponential_ancestors b
    with_successors with_headers with_block_hash_to_height].
  destruct (main_successors a !! prev_main_hash hd) as [s|] eqn:Es; [|done]. cbn [ok_or mbind result_bind].
  match goal with |- context [try_fold ?f ?r0 _] => assert (∀ l r, (∀ m, m ∈ l → m ∈ s) → ∃ r', try_fold f r l = Ok r') as Hfold end.
  { induction l0 as [|m l0 IH]; intros r Hsub; [by eexists|]. cbn [try_fold].
    match goal with |- context [bmm_result_at ?x _ _ _] => destruct (bmm_result_ok x (header_hash hd) hd m) as [v ->] end.
    - by eapply same_main_ok; [|exact Hm].
    - by eapply same_links_ok; [|exact Hl].
    - exact Hi.
    - apply (lk_sub _ Hl (prev_main_hash hd) s); [done|]. apply Hsub. by left.
    - cbn [mbind result_bind]. apply IH. intros; apply Hsub. by right. }
  edestruct Hfold as [r ->]; [|by eexists]. intros m. by rewrite set_iter_perm, elem_of_elements.
Qed.

End Links.

