(* ===== verification/ArchiveQueries.v ===== *)
(** * The queries on reachable archives

    Ancestors, descent, last common ancestors and missing bodies, exactly, on
    every archive the operations can produce. *)

From stdpp Require Import base numbers list strings gmap.
From S2P Require Import Prelude Float64 StateErrors Transactions TwoWayPeg Bodies Archive ArchiveStore.
From S2P Require Import ArchiveFacts ArchiveStoreFacts ArchiveInvalidation ArchiveReach.

Section Lists.
Context {AE : ArchiveEnv} {BH : BodyHashes}.
Implicit Types (a : Archive) (h : bytes).

(** The ancestors of a block by height. *)
Definition chain_at a h n (f : Z → bytes) : Prop :=
  height_is (side_index a) h n ∧
  ∀ i, 0 ≤ i ≤ n → nth_parent (side_index a) (Z.to_nat (n - i)) h = Some (f i) ∧ height_is (side_index a) (f i) i.

Lemma chain_exists a h n : side_chain_ok a → height_is (side_index a) h n → ∃ f, chain_at a h n f.
Proof.
  intros Ha Hh. exists (fun i => default [] (nth_parent (side_index a) (Z.to_nat (n - i)) h)). split; [done|].
  intros i Hi. destruct (nth_parent_height _ (sc_index a Ha) (Z.to_nat (n - i)) h n Hh) as (x & Hx & Hhx); [lia|].
  rewrite Hx. simpl. split; [done|]. rewrite Z2Nat.id in Hhx by lia. by replace (n - (n - i)) with i in Hhx by lia.
Qed.

Lemma chain_top a h n f : side_chain_ok a → chain_at a h n f → f n = h.
Proof.
  intros Ha [Hh Hf]. destruct (io_range _ (sc_index a Ha) h n Hh). destruct (Hf n) as [H1 _]; [lia|].
  rewrite Z.sub_diag in H1. by injection H1.
Qed.

(** The header of a block of the chain, and the link to the block below. *)
Lemma chain_header a h n f i :
  side_chain_ok a → chain_at a h n f → 0 ≤ i ≤ n →
  ∃ hd, get_header a (f i) = Ok hd ∧ prev_side_hash hd = if decide (i = 0) then None else Some (f (i - 1)).
Proof.
  intros Ha [Hh Hf] Hi. destruct (Hf i Hi) as [Hp Hfi]. apply height_is_side in Hfi as Hlk.
  destruct (sc_header a Ha _ _ Hlk) as [hd Hd]. exists hd. unfold get_header, try_get_header. rewrite Hd.
  split; [done|]. destruct (sc_height a Ha _ _ Hd) as [_ Hpar]. destruct (decide (i = 0)) as [->|Hne].
  - destruct (prev_side_hash hd) as [p|]; [|done]. destruct Hpar as (m & Hm & Hm').
    assert (m + 1 = 0) by congruence. apply height_is_side in Hm. destruct (io_range _ (sc_index a Ha) p m Hm). lia.
  - destruct (Hf (i - 1)) as [Hp1 _]; [lia|].
    replace (Z.to_nat (n - (i - 1))) with (Z.to_nat (n - i) + 1)%nat in Hp1 by lia.
    rewrite nth_parent_add, Hp in Hp1. simpl in Hp1. unfold get_header, try_get_header in Hp1. rewrite Hd in Hp1.
    simpl in Hp1. destruct (prev_side_hash hd); [|done]. by injection Hp1 as ->.
Qed.

Definition item_of a (f : Z → bytes) (i : Z) : bytes * Header :=
  (f i, match get_header a (f i) with Ok hd => hd | Err _ => {| merkle_root := []; prev_side_hash := None; prev_main_hash := [] |} end).

Lemma filter_rev {A} (P : A → Prop) `{!∀ x, base.Decision (P x)} (l : list A) : filter P (rev l) = rev (filter P l).
Proof.
  induction l as [|x l IH]; [done|]. simpl. rewrite filter_app, IH, !filter_cons.
  destruct (decide (P x)); simpl; [done|]. apply app_nil_r.
Qed.

Lemma take_ancestors_chain a h n f (k : nat) j :
  side_chain_ok a → chain_at a h n f → Z.of_nat k ≤ j + 1 → j ≤ n →
  take_ancestors a k (if decide (j < 0) then None else Some (f j))
  = Ok (map (item_of a f) (rev (range (j + 1 - Z.of_nat k) (j + 1)))).
Proof.
  intros Ha Hc. revert j. induction k as [|k IH]; intros j Hk Hj.
  { by rewrite range_empty by lia. }
  rewrite decide_False by lia. cbn [take_ancestors ancestor_headers_next].
  destruct (chain_header a h n f j Ha Hc) as (hd & Hd & Hp); [lia|]. rewrite Hd. cbn [mbind result_bind]. rewrite Hp.
  replace (if decide (j = 0) then None else Some (f (j - 1))) with (if decide (j - 1 < 0) then None else Some (f (j - 1)))
    by (destruct (decide (j = 0)), (decide (j - 1 < 0)); try done; lia).
  rewrite IH by lia. cbn [mbind result_bind]. f_equal.
  rewrite (range_snoc (j + 1 - Z.of_nat (S k)) j), rev_app_distr by lia. simpl.
  replace (j - 1 + 1) with j by lia. replace (j + 1 - Z.of_nat (S k)) with (j - Z.of_nat k) by lia.
  f_equal. unfold item_of. by rewrite Hd.
Qed.

(** There are at least as many headers as blocks in a chain. *)
Lemma chain_size a h n f :
  side_chain_ok a → chain_at a h n f → n + 1 ≤ Z.of_nat (size (headers a)).
Proof.
  intros Ha [Hh Hf]. destruct (io_range _ (sc_index a Ha) h n Hh) as [Hn _].
  assert (NoDup (map f (range 0 (n + 1)))) as Hnd.
  { apply NoDup_fmap_2_strong; [|apply range_NoDup]. intros i j Hi%elem_of_range Hj%elem_of_range Heq.
    destruct (Hf i) as [_ H1]; [lia|]. destruct (Hf j) as [_ H2]; [lia|]. rewrite Heq in H1.
    by eapply height_is_fun. }
  assert (map f (range 0 (n + 1)) ⊆+ elements (dom (headers a))) as Hsub.
  { apply NoDup_submseteq; [done|]. intros x (i & -> & Hi%elem_of_range)%list_elem_of_fmap.
    apply elem_of_elements, elem_of_dom. destruct (Hf i) as [_ H1%height_is_side]; [lia|]. by eapply (sc_header a Ha). }
  apply submseteq_length in Hsub. rewrite length_map, range_length in Hsub.
  change (length (elements (dom (headers a)))) with (size (dom (headers a))) in Hsub. rewrite size_dom in Hsub. lia.
Qed.

Definition missing a (f : Z → bytes) (lo hi : Z) : list bytes :=
  filter (fun h => bodies a !! h = None) (map f (range lo hi)).

Lemma iter_missing_bodies_ok a h n f start :
  side_chain_ok a → chain_at a h n f → 0 ≤ start →
  iter_missing_bodies a h start = Ok (missing a f start (n + 1)).
Proof.
  intros Ha Hc Hs. pose proof Hc as [Hh Hf]. destruct (io_range _ (sc_index a Ha) h n Hh) as [Hn Hmax].
  unfold iter_missing_bodies. assert (get_height a h = Ok n) as -> by exact Hh.
  pose proof (chain_size a h n f Ha Hc) as Hsize.
  rewrite (rev_collect_ok n f (item_of a f) (get_nth_ancestor a h) (fun k anc => take_ancestors a k (Some anc)) Hmax);
    [|..|done|].
  - cbn [mbind result_bind]. f_equal. unfold missing, rest_of. simpl. f_equal. rewrite map_map. by apply map_ext.
  - intros k Hk. destruct (nth_ancestor_ok _ (sc_index a Ha) h n k Hh Hk) as (x & Hx & Hp & _).
    unfold get_nth_ancestor. rewrite Hx. f_equal. destruct (Hf (n - k)) as [Hp' _]; [lia|].
    replace (n - (n - k)) with k in Hp' by lia. congruence.
  - intros k j Hk Hj. destruct (decide (j < 0)) as [Hj0|Hj0].
    { assert (k = 0%nat) as -> by lia. by rewrite range_empty by lia. }
    pose proof (take_ancestors_chain a h n f k j Ha Hc Hk Hj) as Ht. by rewrite decide_False in Ht.
  - unfold rest_of. simpl. rewrite length_map, range_length. lia.
Qed.

Lemma ancestors_until_chain a h n f (fuel : nat) m j :
  side_chain_ok a → chain_at a h n f → 0 ≤ m ≤ j → j ≤ n → j - m < Z.of_nat fuel →
  ancestors_until fuel a (Some (f m)) (Some (f j)) = Ok (map f (rev (range (m + 1) (j + 1)))).
Proof.
  intros Ha Hc Hm. revert j Hm. induction fuel as [|fuel IH]; intros j Hm Hj Hf; [lia|].
  cbn [ancestors_until ancestor_headers_next].
  destruct (chain_header a h n f j Ha Hc) as (hd & Hd & Hp); [lia|]. rewrite Hd. cbn [mbind result_bind].
  destruct (decide (m = j)) as [->|Hne].
  { rewrite bool_decide_true by done. by rewrite range_empty by lia. }
  rewrite bool_decide_false.
  2: { intros [= Heq]. apply Hne. destruct Hc as [_ Hc]. destruct (Hc m) as [_ H1]; [lia|]. destruct (Hc j) as [_ H2]; [lia|].
       rewrite Heq in H1. by eapply height_is_fun. }
  rewrite Hp, decide_False, IH by lia. cbn [mbind result_bind]. f_equal.
  rewrite (range_snoc (m + 1) j) by lia. rewrite rev_app_distr. simpl. by replace (j - 1 + 1) with j by lia.
Qed.

Lemma get_missing_bodies_ok a h n f m :
  side_chain_ok a → chain_at a h n f → 0 ≤ m ≤ n →
  get_missing_bodies a h (Some (f m)) = Ok (missing a f (m + 1) (n + 1)).
Proof.
  intros Ha Hc Hm. unfold get_missing_bodies. pose proof (chain_size a h n f Ha Hc).
  pose proof (chain_top a h n f Ha Hc) as Htop.
  replace (Some h) with (Some (f n)) by congruence. rewrite (ancestors_until_chain a h n f _ m n) by (done || lia).
  cbn [mbind result_bind]. f_equal. unfold missing. by rewrite map_rev, filter_rev, rev_involutive.
Qed.

End Lists.

(** ** On reachable archives *)

Section Claims.
Context {AE : ArchiveEnv} {BH : BodyHashes}.
Implicit Types (a : Archive) (h x : bytes).

(** C28: every archive the operations produce from an empty one is well formed:
    each header is stored under its hash one above its parent, each ancestor list
    holds the ancestors at the powers of two, the successor sets are the children,
    and the total work of a mainchain block is its work added to its parent's. *)
Theorem reachable_archive_ok a : reachable a → side_chain_ok a ∧ main_chain_ok a.
Proof. apply reachable_ok. Qed.

(** Past the first block the parents end. *)
Lemma nth_parent_beyond a h n (k : nat) :
  side_chain_ok a → height_is (side_index a) h n → n < Z.of_nat k → nth_parent (side_index a) k h = None.
Proof.
  intros Ha Hh Hk. destruct (chain_exists a h n Ha Hh) as [f Hc]. pose proof Hc as [_ Hf].
  destruct (io_range _ (sc_index a Ha) h n Hh) as [Hn _]. destruct (Hf 0) as [H0 _]; [lia|].
  replace k with (Z.to_nat (n - 0) + S (k - Z.to_nat (n - 0) - 1))%nat by lia.
  rewrite nth_parent_add, H0. simpl. destruct (chain_header a h n f 0 Ha Hc) as (hd & Hd & Hp); [lia|].
  rewrite decide_True in Hp by done. rewrite Hd. simpl. by rewrite Hp.
Qed.

(** The search that skips by powers of two finds the block that following
    the parent [k] times finds, and fails with [NoAncestor] when there is none. *)
Theorem get_nth_ancestor_spec a h n k :
  reachable a → get_height a h = Ok n → 0 ≤ k →
  get_nth_ancestor a h k = ok_or (nth_parent (side_index a) (Z.to_nat k) h) (NoAncestor h k).
Proof.
  intros [Ha _]%reachable_ok Hh Hk. unfold get_nth_ancestor. destruct (Z.le_gt_cases k n).
  - destruct (nth_ancestor_ok _ (sc_index a Ha) h n k Hh) as (x & -> & -> & _); [lia|done].
  - rewrite (nth_ancestor_deep _ (sc_index a Ha) h n k Hh) by lia.
    by rewrite (nth_parent_beyond a h n) by (done || lia).
Qed.

(** The same on the main chain, whose first block has height 0 and a parent
    that is not stored. *)
Theorem get_nth_main_ancestor_spec a h n k :
  reachable a → get_main_height a h = Ok n → 0 ≤ k →
  get_nth_main_ancestor a h k =
    if k <=? n then ok_or (nth_parent (main_index a) (Z.to_nat k) h) (NoMainAncestor h k)
    else Err (NoMainAncestor h k).
Proof.
  intros [_ Ha]%reachable_ok Hh Hk. unfold get_nth_main_ancestor. destruct (Z.leb_spec k n).
  - by destruct (nth_ancestor_ok _ (mc_index a Ha) h n k Hh) as (x & -> & -> & _); [lia|].
  - by rewrite (nth_ancestor_deep _ (mc_index a Ha) h n k Hh) by lia.
Qed.

(** [is_descendant] decides descent between stored blocks. *)
Theorem is_descendant_spec a x h nx n :
  reachable a → get_height a x = Ok nx → get_height a h = Ok n →
  ∃ b, is_descendant a x h = Ok b ∧ (b = true ↔ ancestor_of (side_index a) x h).
Proof. intros [Ha _]%reachable_ok Hx Hh. exact (is_descendant_in_ok _ (sc_index a Ha) x h nx n Hx Hh). Qed.

(** C29: the binary search for the last common ancestor returns a common
    ancestor from which every common ancestor descends, and [None] exactly when
    there is no common ancestor. *)
Theorem last_common_ancestor_spec a h0 h1 n0 n1 :
  reachable a → get_height a h0 = Ok n0 → get_height a h1 = Ok n1 → n0 < 2 ^ 31 → n1 < 2 ^ 31 →
  ∃ o, last_common_ancestor a h0 h1 = Ok o ∧
    match o with
    | Some x => last_common (side_index a) x h0 h1
    | None => ∀ y, ancestor_of (side_index a) y h0 → ancestor_of (side_index a) y h1 → False
    end.
Proof.
  intros [Ha _]%reachable_ok H0 H1 Hb0 Hb1. exact (last_common_ancestor_in_ok _ (sc_index a Ha) h0 h1 n0 n1 H0 H1 Hb0 Hb1).
Qed.

(** The two ways to list missing bodies agree.  Walking down to an
    ancestor and reversing, and the iterator that reads batches of 32 from the
    height above it upwards, both return the blocks without a body after the
    ancestor, oldest first. *)
Theorem missing_bodies_agree a h n x m :
  reachable a → get_height a h = Ok n → get_height a x = Ok m → ancestor_of (side_index a) x h →
  ∃ l, get_missing_bodies a h (Some x) = Ok l ∧ iter_missing_bodies a h (m + 1) = Ok l ∧
    ∀ y, y ∈ l ↔ bodies a !! y = None ∧ ancestor_of (side_index a) y h ∧ ¬ ancestor_of (side_index a) y x.
Proof.
  intros [Ha _]%reachable_ok Hh Hx Hanc. change (height_is (side_index a) h n) in Hh.
  change (height_is (side_index a) x m) in Hx. pose proof (sc_index a Ha) as Hix.
  destruct (chain_exists a h n Ha Hh) as [f Hc]. pose proof Hc as [_ Hf].
  destruct (ancestor_of_height _ Hix x h Hanc) as (n' & k & Hh' & Hx' & Hk & Hp).
  pose proof (height_is_fun _ _ _ _ Hh Hh'). pose proof (height_is_fun _ _ _ _ Hx Hx'). subst n' m.
  destruct (Hf (n - k)) as [Hp' _]; [lia|]. replace (n - (n - k)) with k in Hp' by lia.
  assert (x = f (n - k)) as -> by congruence.
  exists (missing a f (n - k + 1) (n + 1)). split_and!.
  - apply get_missing_bodies_ok; [done|done|lia].
  - apply iter_missing_bodies_ok; [done|done|lia].
  - intros y. unfold missing. rewrite list_elem_of_filter. apply and_iff_compat_l.
    rewrite list_elem_of_fmap. split.
    + intros (i & -> & Hi%elem_of_range). destruct (Hf i) as [Hpi Hhi]; [lia|]. split.
      * apply (ancestor_of_nth _ _ h n (n - i) Hh); [lia|done].
      * intros (q & j & Hq & Hq' & Hj & _)%ancestor_of_height; [|done].
        pose proof (height_is_fun _ _ _ _ Hx Hq). pose proof (height_is_fun _ _ _ _ Hhi Hq'). lia.
    + intros [(q & j & Hq & Hy & Hj & Hpy)%ancestor_of_height Hn]; [|done].
      pose proof (height_is_fun _ _ _ _ Hh Hq). subst q. exists (n - j). destruct (Hf (n - j)) as [Hpj _]; [lia|].
      replace (n - (n - j)) with j in Hpj by lia. split; [congruence|]. apply elem_of_range.
      destruct (Z.lt_ge_cases (n - k) (n - j)); [lia|]. exfalso. apply Hn.
      eapply (ancestor_below _ Hix y h n _ k (n - j)); [done|lia|done|done|lia|].
      apply (ancestor_of_nth _ y h n j Hh); [lia|done].
Qed.

End Claims.
