(* ===== verification/ArchiveTips.v ===== *)
(** * Tips

    The choice between two tips does not depend on the order in which they are
    given, but for ties; connecting a mainchain block and disconnecting it again
    restores the mainchain tip and the ordered tips. *)

From stdpp Require Import base numbers list strings gmap.
From S2P Require Import Prelude Float64 StateErrors Transactions TwoWayPeg Bodies Archive ArchiveStore.
From S2P Require Import ArchiveFacts ArchiveStoreFacts ArchiveInvalidation ArchiveReach.

(** ** The better of two tips *)

Section Common.
Context (ix : Index) (Hix : index_ok ix).

Lemma ancestor_of_antisym x y : ancestor_of ix x y → ancestor_of ix y x → x = y.
Proof.
  intros (n & k & Hy & Hx & Hk & Hp)%ancestor_of_height (n' & k' & Hx' & Hy' & Hk' & _)%ancestor_of_height; [|done..].
  pose proof (height_is_fun _ _ _ _ Hx Hx'). pose proof (height_is_fun _ _ _ _ Hy Hy').
  assert (k = 0) as -> by lia. by injection Hp.
Qed.

Lemma last_common_unique x x' h0 h1 : last_common ix x h0 h1 → last_common ix x' h1 h0 → x = x'.
Proof.
  intros (H0 & H1 & Hmax) (H1' & H0' & Hmax'). apply ancestor_of_antisym; [by apply Hmax'|by apply Hmax].
Qed.

End Common.

Section Tips.
Context {AE : ArchiveEnv} {BH : BodyHashes}.
Implicit Types (a : Archive) (t : Tip) (st : SideTips).

(** The main chain has one first block. *)
Definition one_genesis a : Prop :=
  ∀ x y, main_block_hash_to_height a !! x = Some 0 → main_block_hash_to_height a !! y = Some 0 → x = y.

Lemma main_roots a h0 h1 n0 n1 :
  main_chain_ok a → one_genesis a → height_is (main_index a) h0 n0 → height_is (main_index a) h1 n1 →
  nth_parent (main_index a) (Z.to_nat n0) h0 = nth_parent (main_index a) (Z.to_nat n1) h1.
Proof.
  intros Ha Hg H0 H1. pose proof (mc_index a Ha) as Hix.
  destruct (io_range _ Hix _ _ H0), (io_range _ Hix _ _ H1).
  destruct (nth_parent_height _ Hix (Z.to_nat n0) h0 n0 H0) as (r0 & -> & Hr0); [lia|].
  destruct (nth_parent_height _ Hix (Z.to_nat n1) h1 n1 H1) as (r1 & -> & Hr1); [lia|].
  rewrite Z2Nat.id, Z.sub_diag in Hr0 by lia. rewrite Z2Nat.id, Z.sub_diag in Hr1 by lia.
  apply height_is_main in Hr0. apply height_is_main in Hr1. f_equal. by apply Hg.
Qed.

Section Swap.
Context (a : Archive) (main0 main1 : MainBlockHash) (m0 m1 : Z).
Context (Ha : main_chain_ok a) (Hg : one_genesis a)
  (H0 : get_main_height a main0 = Ok m0) (H1 : get_main_height a main1 = Ok m1)
  (Hm0 : m0 < 2 ^ 31) (Hm1 : m1 < 2 ^ 31).

Lemma last_common_main_swap :
  ∃ x, last_common_main_ancestor a main0 main1 = Ok x ∧ last_common_main_ancestor a main1 main0 = Ok x.
Proof.
  pose proof (mc_index a Ha) as Hix. pose proof (main_roots a main0 main1 m0 m1 Ha Hg H0 H1) as Hr.
  destruct (last_common_main_ancestor_in_ok _ Hix main0 main1 m0 m1 H0 H1 Hm0 Hm1 Hr) as (x & Hx & Hlx).
  destruct (last_common_main_ancestor_in_ok _ Hix main1 main0 m1 m0 H1 H0 Hm1 Hm0 (eq_sym Hr)) as (y & Hy & Hly).
  exists x. split; [exact Hx|]. rewrite (last_common_unique _ Hix x y main0 main1 Hlx Hly). exact Hy.
Qed.

Lemma shared_lineage_swap :
  ∃ b, shared_mainchain_lineage a main0 main1 = Ok b ∧ shared_mainchain_lineage a main1 main0 = Ok b.
Proof.
  pose proof (mc_index a Ha) as Hix.
  destruct (shared_lineage_in_ok _ Hix main0 main1 m0 m1 H0 H1) as (b & Hb & Ib).
  destruct (shared_lineage_in_ok _ Hix main1 main0 m1 m0 H1 H0) as (c & Hc & Ic).
  exists b. split; [exact Hb|]. replace b with c; [exact Hc|]. apply eq_true_iff_eq. tauto.
Qed.

End Swap.

(** The two tips are level: same height, same mainchain work. *)
Definition level a t0 t1 : Prop :=
  get_height a (tip_block_hash t0) = get_height a (tip_block_hash t1) ∧
  get_total_work a (tip_main_block_hash t0) = get_total_work a (tip_main_block_hash t1).

Lemma better_tip_swap a t0 t1 o m0 m1 :
  main_chain_ok a → one_genesis a →
  get_main_height a (tip_main_block_hash t0) = Ok m0 → get_main_height a (tip_main_block_hash t1) = Ok m1 →
  m0 < 2 ^ 31 → m1 < 2 ^ 31 → better_tip a t0 t1 = Ok o →
  (∃ o', better_tip a t1 t0 = Ok o' ∧ (o' = o ∨ level a t0 t1)).
Proof.
  intros Ha Hg H0 H1 Hm0 Hm1. unfold better_tip, level.
  destruct (last_common_main_swap a _ _ m0 m1 Ha Hg H0 H1 Hm0 Hm1) as (x & -> & ->).
  destruct (shared_lineage_swap a _ _ m0 m1 Ha H0 H1) as (b & -> & ->).
  destruct (decide (t0 = t1)) as [->|Hne].
  { rewrite bool_decide_true by done. intros [= <-]. eauto. }
  rewrite (bool_decide_false (t0 = t1)), (bool_decide_false (t1 = t0)) by congruence.
  destruct (get_height a (tip_block_hash t0)) as [h0|] eqn:E0; [|done].
  destruct (get_height a (tip_block_hash t1)) as [h1|] eqn:E1; [|done]. cbn [mbind result_bind].
  rewrite (andb_comm (h1 =? 0)).
  destruct (Z.eqb_spec h0 0) as [->|Hh0], (Z.eqb_spec h1 0) as [->|Hh1]; cbn [andb];
    try (by intros [= <-]; eauto).
  destruct (get_total_work a (tip_main_block_hash t0)) as [w0|]; [|done].
  destruct (get_total_work a (tip_main_block_hash t1)) as [w1|]; [|done]. cbn [mbind result_bind].
  rewrite (Z.compare_antisym w0 w1), (Z.compare_antisym h0 h1).
  destruct (Z.compare_spec w0 w1) as [->|Hw|Hw], (Z.compare_spec h0 h1) as [->|Hh|Hh]; cbn [CompOpp].
  1: { intros H. destruct (decide (tip_block_hash t0 = tip_block_hash t1)) as [He|He].
       { rewrite bool_decide_true by done. eauto. }
       rewrite bool_decide_false in H by done. rewrite bool_decide_false by done.
       destruct (get_main_height a x) as [hx|]; [|done]. cbn [mbind result_bind] in H |- *.
       destruct (ancestor_before a x hx (tip_block_hash t0)) as [p0|]; [|done]. cbn [mbind result_bind] in H |- *.
       destruct (ancestor_before a x hx (tip_block_hash t1)) as [p1|]; [|done]. cbn [mbind result_bind]. eauto. }
  all: try (by intros [= <-]; eauto).
  all: cbn [mbind result_bind]; try (by intros [= <-]; destruct b; eauto).
  all: destruct (ancestor_height_before a x _) as [p|]; [|done]; intros [= <-]; eexists; split; [reflexivity|];
    left; by destruct (option_cmp _ _ _).
Qed.

(** The better of two tips does not depend on which is given first, unless
    they are level: the same height on top of mainchain blocks with the same
    total work. *)
Theorem better_tip_symmetric a t0 t1 o m0 m1 :
  reachable a → one_genesis a →
  get_main_height a (tip_main_block_hash t0) = Ok m0 → get_main_height a (tip_main_block_hash t1) = Ok m1 →
  m0 < 2 ^ 31 → m1 < 2 ^ 31 → better_tip a t0 t1 = Ok o →
  (∃ o', better_tip a t1 t0 = Ok o' ∧ (o' = o ∨ level a t0 t1)).
Proof. intros [_ Ha]%reachable_ok. by apply better_tip_swap. Qed.

(** ** Connecting and disconnecting a mainchain block *)

(** What is left of the committed side block: it stays among [sidechain_tips]. *)
Definition tip_left_behind st (info : BlockHeaderInfo) (c : option (BlockHash * Header)) st' : Prop :=
  match c with
  | None => sidechain_tips st' = sidechain_tips st
  | Some (h, _) => delete h (sidechain_tips st') = delete h (sidechain_tips st) ∧
      ∃ i, sidechain_tips st' !! h = Some i ∧ ti_main_block_hash i = mh_block_hash info
  end.

(** What connecting a mainchain block does. *)
Lemma connect_mainchain_inv st info c st1 :
  connect_mainchain_tip st info c = Ok st1 →
  let work := work_add (cumulative_work (mainchain_tip st)) (mh_work info) in
  mh_prev_block_hash info = mainchain_tip_hash (mainchain_tip st) ∧
  match tip_info (mainchain_tip st) with Some p => mh_height info = mh_height p + 1 | None => True end ∧
  ∃ st', match c with
         | Some (h, hd) => connect_sidechain_tip st (mh_block_hash info) work h hd
         | None => Ok st
         end = Ok st' ∧
    st1 = {| mainchain_tip := {| cumulative_work := work; tip_info := Some info |};
             sidechain_tips := sidechain_tips st'; ordered_sidechain_tips := ordered_sidechain_tips st' |}.
Proof.
  intros Hc work. unfold connect_mainchain_tip in Hc. fold work in Hc.
  destruct (decide (mh_prev_block_hash info = mainchain_tip_hash (mainchain_tip st))) as [Hprev|?];
    [rewrite bool_decide_true in Hc by done|by rewrite bool_decide_false in Hc by done].
  cbn [negb bail_if mbind result_bind] in Hc. split; [done|]. clear Hprev.
  destruct (tip_info (mainchain_tip st)) as [p|].
  1: destruct (Z.eqb_spec (mh_height info) (mh_height p + 1)); [|done].
  all: split; [done|]; cbn [negb bail_if mbind result_bind] in Hc;
    destruct (match c with Some _ => _ | None => _ end) as [s|]; [|done]; injection Hc as <-; by exists s.
Qed.

(** Disconnecting accepts the previous tip and returns to it. *)
Lemma previous_tip_accepted (info : BlockHeaderInfo) (tip : MainchainTip) :
  mh_prev_block_hash info = mainchain_tip_hash tip →
  match tip_info tip with Some p => mh_height info = mh_height p + 1 | None => True end →
  (∀ p, tip_info tip = Some p → mh_block_hash p ≠ all_zeros) →
  match tip_info tip with
  | Some prev =>
      if negb (bool_decide (mh_block_hash prev = mh_prev_block_hash info))
      then Err (DisconnectInvalidMainchainParent (mh_prev_block_hash info))
      else if negb (mh_height prev + 1 =? mh_height info)
      then Err (InvalidMainchainParentHeight (mh_height info))
      else Ok (if bool_decide (mh_prev_block_hash info = all_zeros) then None else Some prev)
  | None =>
      if bool_decide (mh_prev_block_hash info = all_zeros) then Ok None
      else Err (DisconnectInvalidMainchainParent (mh_prev_block_hash info))
  end = Ok (tip_info tip).
Proof.
  unfold mainchain_tip_hash. intros Hprev Hheight Htip. destruct (tip_info tip) as [p|].
  - rewrite bool_decide_true by done. cbn [negb]. rewrite (proj2 (Z.eqb_eq _ _)) by lia. cbn [negb].
    rewrite bool_decide_false; [done|]. rewrite Hprev. by apply Htip.
  - by rewrite bool_decide_true.
Qed.

(** Disconnecting the mainchain block just connected restores the mainchain
    tip with its cumulative work and the ordered tips.  A side block the
    mainchain block committed to for the first time leaves the ordered tips but
    stays among the known tips. *)
Theorem mainchain_tip_undone st info c st1 :
  connect_mainchain_tip st info c = Ok st1 →
  (∀ p, tip_info (mainchain_tip st) = Some p → mh_block_hash p ≠ all_zeros) →
  (∀ h hd, c = Some (h, hd) → sidechain_tips st !! h = None) →
  (∀ i, ti_main_block_hash i = mh_block_hash info → ordered_sidechain_tips st !! i = None) →
  ∃ st2, disconnect_mainchain_tip st1 (tip_info (mainchain_tip st)) (fst <$> c) = Ok st2 ∧
    mainchain_tip st2 = mainchain_tip st ∧ ordered_sidechain_tips st2 = ordered_sidechain_tips st ∧
    tip_left_behind st info c st2.
Proof.
  intros Hc Htip Hnew Hord. destruct (connect_mainchain_inv st info c st1 Hc) as (Hprev & Hheight & st' & Hs & ->).
  unfold disconnect_mainchain_tip. cbn [mainchain_tip tip_info ok_or mbind result_bind cumulative_work
    sidechain_tips ordered_sidechain_tips]. rewrite previous_tip_accepted by done.
  cbn [mbind result_bind]. rewrite work_add_sub. destruct (mainchain_tip st) as [cw ti] eqn:Em.
  cbn [tip_info cumulative_work] in *. destruct c as [[h hd]|]; cbn [fmap option_fmap option_map fst].
  2: { injection Hs as <-. by eexists. }
  unfold connect_sidechain_tip in Hs. rewrite (Hnew h hd) in Hs by done.
  destruct (match prev_side_hash hd with Some _ => _ | None => _ end) as [sh|]; [|done].
  cbn [mbind result_bind] in Hs. rewrite bool_decide_false in Hs by (by intros [? ?]). injection Hs as <-.
  cbn [sidechain_tips ordered_sidechain_tips]. rewrite lookup_insert_eq. cbn [ok_or mbind result_bind ti_main_block_hash].
  rewrite (bool_decide_true (mh_block_hash info = mh_block_hash info)) by done.
  rewrite lookup_insert_eq, bool_decide_true by eauto. cbn [mbind result_bind].
  eexists. split; [reflexivity|]. cbn [mainchain_tip sidechain_tips ordered_sidechain_tips]. split_and!; [done| |].
  - rewrite delete_insert_id; [done|]. by apply Hord.
  - unfold tip_left_behind. cbn [sidechain_tips]. rewrite lookup_insert_eq. split; [|eauto]. by rewrite delete_insert_eq.
Qed.

End Tips.
