(* ===== verification/ArchiveLoops.v ===== *)
(** * The worklists terminate

    [put_body] and [delete_body] visit a block and its descendants through a
    queue of successors.  Each block is queued at most once, so the number of
    headers bounds the turns and the bound of the model is never reached. *)

From stdpp Require Import base numbers list strings gmap.
From S2P Require Import Prelude Float64 StateErrors Transactions TwoWayPeg Bodies Archive ArchiveStore.
From S2P Require Import ArchiveFacts ArchiveStoreFacts ArchiveInvalidation ArchiveReach.

(** ** Results other than the bound *)

Definition in_bound {A} (r : result ArchiveError A) : Prop := r ≠ Err LoopBound.

Lemma in_bound_bind {A B} (r : result ArchiveError A) (f : A → result ArchiveError B) :
  in_bound r → (∀ x, r = Ok x → in_bound (f x)) → in_bound (r ≫= f).
Proof. unfold in_bound. destruct r as [x|e]; simpl; [intros _ H; by apply H|congruence]. Qed.

Lemma in_bound_ok_or {A} (o : option A) e : e ≠ LoopBound → in_bound (ok_or o e).
Proof. unfold in_bound. destruct o; simpl; congruence. Qed.

(** The tables of an index never report a bound. *)
Record index_bounded (ix : Index) : Prop := {
  ib_height h : in_bound (ix_height ix h);
  ib_parent h : in_bound (ix_parent ix h);
  ib_ancestors h : in_bound (ix_ancestors ix h);
  ib_error h n : ix_no_ancestor ix h n ≠ LoopBound
}.

Lemma main_index_bounded a : index_bounded (main_index a).
Proof.
  split; intros; simpl; try (by apply in_bound_ok_or); [|done].
  apply in_bound_bind; [by apply in_bound_ok_or|done].
Qed.

(** The skipping search stays within [log2 n + 2] turns on any index. *)
Lemma nth_loop_bounded (fuel : nat) ix h0 n0 h n :
  index_bounded ix → n < 2 ^ Z.of_nat fuel → in_bound (nth_ancestor_loop (S fuel) ix h0 n0 h n).
Proof.
  intros Hix. revert h n. induction fuel as [|fuel IH]; intros h n Hn.
  { cbn [nth_ancestor_loop]. by destruct (Z.leb_spec n 0); [|simpl in Hn; lia]. }
  remember (S fuel) as f eqn:Ef. cbn [nth_ancestor_loop]. destruct (Z.leb_spec n 0); [done|].
  apply in_bound_bind; [apply Hix|]. intros height _.
  destruct (height <? n); [intros [= H']; by apply (ib_error ix Hix) in H'|].
  destruct (Z.eqb_spec n 1); [apply Hix|]. apply in_bound_bind; [apply Hix|]. intros l _.
  apply in_bound_bind; [by apply in_bound_ok_or|]. intros x _. apply IH.
  destruct (Z.log2_spec n ltac:(lia)) as [Hlo Hhi]. assert (1 ≤ Z.log2 n) by (apply Z.log2_le_pow2; simpl; lia).
  rewrite Z.shiftl_mul_pow2 by lia. rewrite <- (Z.pow_succ_r 2) by lia. replace (Z.succ (Z.log2 n - 1)) with (Z.log2 n) by lia.
  rewrite Z.pow_succ_r in Hhi by lia. assert (2 ^ Z.log2 n ≤ 2 ^ Z.of_nat fuel); [|lia].
  apply Z.pow_le_mono_r; [lia|]. assert (Z.log2 n < Z.of_nat f) by (apply Z.log2_lt_pow2; lia). lia.
Qed.

Lemma nth_ancestor_bounded ix h n : index_bounded ix → in_bound (nth_ancestor ix h n).
Proof.
  intros Hix. unfold nth_ancestor. pose proof (Z.log2_nonneg n).
  replace (Z.to_nat (Z.log2 n + 2)) with (S (Z.to_nat (Z.log2 n + 1))) by lia.
  apply nth_loop_bounded; [done|]. rewrite Z2Nat.id by lia. destruct (Z.le_gt_cases n 0).
  - pose proof (Z.pow_pos_nonneg 2 (Z.log2 n + 1)). lia.
  - by apply Z.log2_spec.
Qed.

Section Loops.
Context {AE : ArchiveEnv} {BH : BodyHashes}.
Implicit Types (a : Archive) (h root : bytes) (V : gset bytes) (q : list bytes).

Lemma is_main_descendant_bounded a x h : in_bound (is_main_descendant a x h).
Proof.
  unfold is_main_descendant, is_descendant_in. destruct (bool_decide _); [done|].
  apply in_bound_bind; [apply main_index_bounded|]. intros n _. apply in_bound_bind; [apply main_index_bounded|].
  intros m _. destruct (m <? n); [done|]. apply in_bound_bind; [apply nth_ancestor_bounded, main_index_bounded|done].
Qed.

(** ** A queue of descendants *)

(** [V] was visited and [q] is waiting: each block once, each but the root below
    a visited block. *)
Record worklist a root V q : Prop := {
  wl_nodup : NoDup q;
  wl_fresh x : x ∈ q → x ∉ V;
  wl_below x : x ∈ V ∨ x ∈ q → x = root ∨ ∃ p, p ∈ V ∧ child_of a x p;
  wl_above x : x ∈ V ∨ x ∈ q → ancestor_of (side_index a) root x ∨ x = root
}.

Definition universe a root : gset bytes := {[root]} ∪ dom (headers a).

Lemma worklist_room a root V h q : worklist a root V (h :: q) → V ⊆ universe a root → (size V < size (universe a root))%nat.
Proof.
  intros Hw HV. assert (h ∉ V) as Hh by (apply (wl_fresh _ _ _ _ Hw); set_solver).
  apply subset_size. split; [done|]. intros Hsub. apply Hh, Hsub. unfold universe.
  destruct (wl_below _ _ _ _ Hw h) as [->|(p & _ & hd & Hd & _)]; [right; set_solver|set_solver|].
  apply elem_of_union_r, elem_of_dom. eauto.
Qed.

Lemma worklist_universe a root V h q :
  worklist a root V (h :: q) → V ⊆ universe a root → {[h]} ∪ V ⊆ universe a root.
Proof.
  intros Hw HV. apply union_subseteq. split; [|done]. apply singleton_subseteq_l. unfold universe.
  destruct (wl_below _ _ _ _ Hw h) as [->|(p & _ & hd & Hd & _)]; [right; set_solver|set_solver|].
  apply elem_of_union_r, elem_of_dom. eauto.
Qed.

Lemma worklist_skip a root V h q : worklist a root V (h :: q) → worklist a root ({[h]} ∪ V) q.
Proof.
  intros [Hnd Hfr Hbe Hab]. apply NoDup_cons in Hnd as [Hh Hnd]. split; [done| | |].
  - intros x Hx [->%elem_of_singleton|Hv]%elem_of_union; [done|]. apply (Hfr x); [set_solver|done].
  - intros x Hx. destruct (Hbe x) as [?|(p & Hp & ?)]; [set_solver|by left|right; exists p; set_solver].
  - intros x Hx. apply Hab. set_solver.
Qed.

Lemma worklist_push a root V h q s l :
  side_chain_ok a → successors a !! Some h = Some s → l ≡ₚ elements s →
  worklist a root V (h :: q) → worklist a root ({[h]} ∪ V) (q ++ l).
Proof.
  intros Ha Hs Hl Hw. pose proof (worklist_skip _ _ _ _ _ Hw) as Hw'.
  assert (∀ c, c ∈ l ↔ child_of a c h) as Hc.
  { intros c. rewrite Hl, elem_of_elements. apply (sc_links a Ha _ _ Hs). }
  assert (h ∉ V) as HhV by (apply (wl_fresh _ _ _ _ Hw); set_solver).
  assert (∀ c, child_of a c h → ¬ (c ∈ {[h]} ∪ V ∨ c ∈ q)) as Hnew.
  { intros c Hch Hin. destruct (child_parent a c h Ha Hch) as (n & Hhh & Hhc & Hpar).
    destruct (wl_below _ _ _ _ Hw c) as [->|(p & Hp & hd & Hd & Hpp)]; [set_solver| |].
    - destruct (wl_above _ _ _ _ Hw h) as [Hanc|Heq]; [right; set_solver| |].
      + apply ancestor_of_height in Hanc as (m & k & H1 & H2 & H3 & _); [|apply Ha].
        pose proof (height_is_fun _ _ _ _ H1 Hhh). pose proof (height_is_fun _ _ _ _ H2 Hhc). lia.
      + subst h. pose proof (height_is_fun _ _ _ _ Hhh Hhc). lia.
    - destruct Hch as (hd' & Hd' & Hp'). assert (p = h) as -> by congruence. done. }
  split.
  - apply NoDup_app. split_and!; [apply Hw'| |rewrite Hl; apply NoDup_elements].
    intros c Hq Hcl%Hc. apply (Hnew c Hcl). by right.
  - intros x [Hx|Hx%Hc]%elem_of_app Hv; [by apply (wl_fresh _ _ _ _ Hw' x)|]. apply (Hnew x Hx). by left.
  - intros x [Hx|[Hx|Hx%Hc]%elem_of_app]; [apply (wl_below _ _ _ _ Hw'); by left|apply (wl_below _ _ _ _ Hw'); by right|].
    right. exists h. split; [set_solver|done].
  - intros x [Hx|[Hx|Hx%Hc]%elem_of_app]; [apply (wl_above _ _ _ _ Hw'); by left|apply (wl_above _ _ _ _ Hw'); by right|].
    left. destruct (child_parent a x h Ha Hx) as (n & Hhh & Hhx & Hpar).
    destruct (wl_above _ _ _ _ Hw h) as [Hanc| ->]; [right; set_solver| |].
    + by eapply child_descends.
    + eapply child_descends; [done..|]. by eapply ancestor_of_refl; [apply Ha|].
Qed.

(** ** The two loops *)

Lemma get_successors_bounded a o : in_bound (get_successors a o).
Proof. unfold get_successors, in_bound. destruct (successors a !! o), o; congruence. Qed.

Lemma get_successors_some a h s : get_successors a (Some h) = Ok s → successors a !! Some h = Some s.
Proof. unfold get_successors. destruct (successors a !! Some h); congruence. Qed.

(** The queue looks only at headers and successors. *)
Lemma worklist_same a a' root V q : same_side a a' → worklist a root V q → worklist a' root V q.
Proof.
  intros (E1 & E2 & E3 & E4) [H1 H2 H3 H4].
  assert (side_index a' = side_index a) as Eix.
  { unfold side_index, get_height, get_header, try_get_height, try_get_header. by rewrite E1, E2, E3. }
  split; [done|done| |by rewrite Eix]. unfold child_of. by rewrite E2.
Qed.

Lemma update_side_tips_bounded main_tip a h hd q : in_bound (update_side_tips main_tip a h hd q).
Proof.
  unfold update_side_tips. apply in_bound_bind.
  - generalize (a, false) as st. generalize (results_iter (get_bmm_results a h)) as l. clear a.
    induction l as [|e l IH]; intros st; [done|]. cbn [try_fold].
    assert (in_bound (connect_verified main_tip h hd st e)) as Hc.
    { destruct st as [a b], e as [m r]. unfold connect_verified. cbn [fst snd]. destruct r; [|done].
      destruct (match prev_side_hash hd with Some _ => _ | None => _ end); [done|].
      apply in_bound_bind; [apply is_main_descendant_bounded|]. intros d _. destruct d; [|done]. cbn [negb].
      apply in_bound_bind; [by apply in_bound_ok_or|]. intros w _.
      apply in_bound_bind; [by destruct (connect_sidechain_tip _ _ _ _ _)|done]. }
    destruct (connect_verified main_tip h hd st e); [apply IH|exact Hc].
  - intros [a1 b] _. destruct b; [|done]. apply in_bound_bind; [apply get_successors_bounded|done].
Qed.

(** The queue after one turn: the same, or with the successors appended. *)
Lemma update_side_tips_queue main_tip a h hd q a' q' :
  update_side_tips main_tip a h hd q = Ok (a', q') →
  q' = q ∨ ∃ s, successors a !! Some h = Some s ∧ q' = q ++ set_iter s.
Proof.
  intros H. destruct (update_side_tips_same _ _ _ _ _ _ _ H) as [(_ & _ & _ & Es) _]. revert H.
  unfold update_side_tips. destruct (try_fold _ _ _) as [[a1 b]|]; [|discriminate]. cbn [mbind result_bind].
  destruct b; [|intros [= <- <-]; by left].
  destruct (get_successors a1 (Some h)) as [s|] eqn:E; [|discriminate]. cbn [mbind result_bind]. intros [= <- <-].
  right. exists s. split; [|done]. rewrite <- Es. by apply get_successors_some.
Qed.

Lemma worklist_update main_tip a root V h hd q a' q' :
  side_chain_ok a → worklist a root V (h :: q) → update_side_tips main_tip a h hd q = Ok (a', q') →
  side_chain_ok a' ∧ universe a' root = universe a root ∧ worklist a' root ({[h]} ∪ V) q'.
Proof.
  intros Ha Hw Hu. destruct (update_side_tips_same _ _ _ _ _ _ _ Hu) as [Hs _]. split_and!.
  - by eapply same_side_ok.
  - unfold universe. destruct Hs as (_ & -> & _). done.
  - eapply worklist_same; [exact Hs|]. destruct (update_side_tips_queue _ _ _ _ _ _ _ Hu) as [->|(s & Hsucc & ->)].
    + by apply worklist_skip.
    + eapply worklist_push; [done|done|apply set_iter_perm|done].
Qed.

Lemma update_loop_bounded (fuel : nat) main_tip a root V q :
  side_chain_ok a → worklist a root V q → V ⊆ universe a root → (size (universe a root) ≤ fuel + size V)%nat →
  in_bound (update_side_tips_loop fuel main_tip a q).
Proof.
  revert a V q. induction fuel as [|fuel IH]; intros a V [|h q] Ha Hw HV Hf; cbn [update_side_tips_loop]; try done.
  { pose proof (worklist_room _ _ _ _ _ Hw HV). lia. }
  assert (size ({[h]} ∪ V) = S (size V)) as Hsz.
  { rewrite size_union, size_singleton; [done|]. assert (h ∉ V) by (apply (wl_fresh _ _ _ _ Hw); set_solver). set_solver. }
  pose proof (worklist_universe _ _ _ _ _ Hw HV) as HV'.
  destruct (negb (contains_body a h)).
  { eapply IH; [done|by apply worklist_skip|done|rewrite Hsz; lia]. }
  apply in_bound_bind; [by apply in_bound_ok_or|]. intros hd _.
  apply in_bound_bind; [apply update_side_tips_bounded|]. intros [a1 q1] Hu.
  destruct (worklist_update _ _ _ _ _ _ _ _ _ Ha Hw Hu) as (Ha1 & Eu & Hw1).
  eapply IH; [exact Ha1|exact Hw1|by rewrite Eu|rewrite Eu, Hsz; lia].
Qed.

Lemma disconnect_loop_bounded (fuel : nat) a root V q :
  side_chain_ok a → worklist a root V q → V ⊆ universe a root → (size (universe a root) ≤ fuel + size V)%nat →
  in_bound (disconnect_tips_loop fuel a q).
Proof.
  revert a V q. induction fuel as [|fuel IH]; intros a V [|h q] Ha Hw HV Hf; cbn [disconnect_tips_loop]; try done.
  { pose proof (worklist_room _ _ _ _ _ Hw HV). lia. }
  assert (size ({[h]} ∪ V) = S (size V)) as Hsz.
  { rewrite size_union, size_singleton; [done|]. assert (h ∉ V) by (apply (wl_fresh _ _ _ _ Hw); set_solver). set_solver. }
  pose proof (worklist_universe _ _ _ _ _ Hw HV) as HV'.
  destruct (negb (bool_decide _)).
  { eapply IH; [done|by apply worklist_skip|done|rewrite Hsz; lia]. }
  set (a1 := with_side_tips a _). assert (same_side a a1) as Hs by done.
  apply in_bound_bind; [apply get_successors_bounded|]. intros s E%get_successors_some.
  eapply (IH a1 ({[h]} ∪ V)); [by eapply same_side_ok| |exact HV'|change (universe a1 root) with (universe a root); rewrite Hsz; lia].
  eapply worklist_same; [exact Hs|]. eapply worklist_push; [done|exact E|apply set_iter_perm|done].
Qed.

Lemma worklist_start a h : side_chain_ok a → worklist a h ∅ [h].
Proof.
  intros Ha. split; [apply NoDup_singleton|set_solver|..]; intros x [?|Hx%list_elem_of_singleton]; set_solver.
Qed.

Lemma universe_size a h : (size (universe a h) ≤ S (size (headers a)))%nat.
Proof.
  unfold universe. rewrite <- size_dom. pose proof (size_union_alt ({[h]} : gset bytes) (dom (headers a))) as ->.
  rewrite size_singleton. assert (dom (headers a) ∖ {[h]} ⊆ dom (headers a)) as Hsub by set_solver.
  apply subseteq_size in Hsub. simpl. lia.
Qed.

(** C34: storing and discarding a body terminate: on a well-formed chain the
    queue of successors holds each block at most once, and the loops end within
    as many turns as there are headers, whatever the tips and the bodies. *)
Theorem body_loops_terminate a h body :
  reachable a → put_body a h body ≠ Err LoopBound ∧ delete_body a h body ≠ Err LoopBound.
Proof.
  intros [Ha _]%reachable_ok. split.
  - unfold put_body. apply in_bound_bind; [by apply in_bound_ok_or|]. intros hd _.
    set (a1 := foldl _ _ _).
    destruct (foldl_add_inclusion h (with_bodies a (<[h := body]> (bodies a))) (enumerate 0 (transactions body))) as [Hs _].
    fold a1 in Hs. assert (side_chain_ok a1) as Ha1 by (eapply same_side_ok; [exact Hs|]; by eapply same_side_ok; [|exact Ha]).
    apply in_bound_bind; [apply update_side_tips_bounded|]. intros [a2 q] Hu.
    destruct (worklist_update _ _ _ _ _ _ _ _ _ Ha1 (worklist_start a1 h Ha1) Hu) as (Ha2 & Eu & Hw2).
    eapply update_loop_bounded; [exact Ha2|exact Hw2| |].
    + rewrite Eu. by apply worklist_universe with (q := []); [apply worklist_start|].
    + pose proof (universe_size a2 h). lia.
  - unfold delete_body. set (a1 := foldl _ _ _).
    destruct (foldl_remove_inclusion h (with_bodies a (delete h (bodies a))) (transactions body)) as [Hs _].
    fold a1 in Hs. assert (side_chain_ok a1) as Ha1 by (eapply same_side_ok; [exact Hs|]; by eapply same_side_ok; [|exact Ha]).
    eapply disconnect_loop_bounded; [done|by apply worklist_start|set_solver|].
    pose proof (universe_size a1 h). lia.
Qed.

End Loops.
