(* ===== verification/ArchiveSamples.v ===== *)
(** * A sample archive

    A main chain of four blocks with a fork, a side chain of six blocks with a
    fork, built by the operations of the archive; the theorems instantiated on
    it, and runs that show how tips are left behind. *)

From stdpp Require Import base numbers list strings gmap.
From S2P Require Import Prelude Float64 StateErrors Transactions TwoWayPeg Bodies Archive ArchiveStore.
From S2P Require Import ArchiveFacts ArchiveStoreFacts ArchiveInvalidation ArchiveReach ArchiveQueries.
From S2P Require Import ArchiveTips ArchiveLoops.

(** A header is identified by its merkle root; sets are visited in the order of
    their elements. *)
#[local] Instance toy_env : ArchiveEnv := {|
  work_add := Z.add; work_sub := Z.sub; work_add_sub a b := Z.add_simpl_r a b;
  work_bytes w := [w]; header_hash := merkle_root;
  set_iter := elements; set_iter_perm s := Permutation_refl (elements s);
  results_iter := map_to_list; results_iter_perm m := Permutation_refl (map_to_list m)
|}.
#[local] Instance toy_body_hashes : BodyHashes := {|
  tx_txid tx := tx_memo tx; coinbase_merkle_root c := cb_memo c; hash_pair a b := a ++ b
|}.

(** ** Building by operations *)

(** A list of headers stored one after the other, each new. *)
Definition store_side (a : Archive) (hd : Header) : Archive :=
  if bool_decide (headers a !! header_hash hd = None) &&
     match prev_side_hash hd with
     | Some p => match block_hash_to_height a !! p with Some n => n <? U32_MAX | None => true end
     | None => true
     end
  then match put_header a hd with Ok a' => a' | Err _ => a end else a.
Definition store_main (a : Archive) (info : BlockHeaderInfo) : Archive :=
  if bool_decide (main_header_infos a !! mh_block_hash info = None) &&
     negb (bool_decide (mh_block_hash info = all_zeros)) &&
     match main_block_hash_to_height a !! mh_prev_block_hash info with Some n => n <? U32_MAX | None => true end
  then match put_main_header_info a info with Ok a' => a' | Err _ => a end else a.
Definition store_info (a : Archive) (e : bytes * BlockInfo) : Archive :=
  match put_main_block_info a e.1 e.2 with Ok a' => a' | Err _ => a end.

Lemma reachable_step a a' : reachable a → archive_step a a' → reachable a'.
Proof. intros Hr Hs. unfold reachable. eapply rtc_r; [exact Hr|exact Hs]. Qed.

Lemma store_side_reachable a hd : reachable a → reachable (store_side a hd).
Proof.
  intros Hr. unfold store_side. destruct (_ && _) eqn:E; [|done]. apply andb_true_iff in E as [E1 E2].
  destruct (put_header a hd) as [a'|] eqn:Ep; [|done]. eapply reachable_step; [done|]. eapply step_header; [|exact Ep].
  split; [left; by apply bool_decide_eq_true in E1|]. intros p n Hp Hn. rewrite Hp, Hn in E2. by apply Z.ltb_lt.
Qed.
Lemma store_main_reachable a info : reachable a → reachable (store_main a info).
Proof.
  intros Hr. unfold store_main. destruct (_ && _) eqn:E; [|done]. apply andb_true_iff in E as [[E1 E3]%andb_true_iff E2].
  destruct (put_main_header_info a info) as [a'|] eqn:Ep; [|done]. eapply reachable_step; [done|].
  eapply step_main_header; [|exact Ep].
  split_and!; [left; by apply bool_decide_eq_true in E1| |].
  - apply negb_true_iff in E3. by apply bool_decide_eq_false in E3.
  - intros n Hn. rewrite Hn in E2. by apply Z.ltb_lt.
Qed.
Lemma store_info_reachable a e : reachable a → reachable (store_info a e).
Proof.
  intros Hr. unfold store_info. destruct (put_main_block_info a e.1 e.2) as [a'|] eqn:Ep; [|done].
  eapply reachable_step; [done|]. by eapply step_main_info.
Qed.
Lemma foldl_reachable {A} (f : Archive → A → Archive) (l : list A) a :
  (∀ a x, reachable a → reachable (f a x)) → reachable a → reachable (foldl f a l).
Proof. intros Hf. revert a. induction l as [|x l IH]; intros a Ha; [done|]. simpl. by apply IH, Hf. Qed.

(** ** The sample *)

Definition main_hash (n : Z) : bytes := [77; n].
Definition side_hash (n : Z) : bytes := [83; n].
Definition main_info (n prev height work : Z) : BlockHeaderInfo :=
  {| mh_block_hash := main_hash n; mh_prev_block_hash := if prev =? -1 then all_zeros else main_hash prev;
     mh_height := height; mh_work := work; mh_timestamp := 0 |}.
Definition side_header (n : Z) (prev : option Z) (main : Z) : Header :=
  {| merkle_root := side_hash n; prev_side_hash := side_hash <$> prev; prev_main_hash := main_hash main |}.

(** Main blocks 0-1-2-3, and 4 beside 3 with more work.  Side blocks
    0-1-2-3-4 and 5 beside 3. *)
Definition sample_mains : list BlockHeaderInfo :=
  [main_info 0 (-1) 0 5; main_info 1 0 1 5; main_info 2 1 2 5; main_info 3 2 3 5; main_info 4 2 3 7].
Definition sample_infos : list (bytes * BlockInfo) :=
  map (fun n => (main_hash n, {| bmm_commitment := None; bi_events := [] |})) [0; 1; 2; 3; 4].
Definition sample_sides : list Header :=
  [side_header 0 None 0; side_header 1 (Some 0) 1; side_header 2 (Some 1) 1; side_header 3 (Some 2) 2;
   side_header 4 (Some 3) 3; side_header 5 (Some 2) 2].
Definition sample_main : Archive := foldl store_info (foldl store_main Archive_new sample_mains) sample_infos.
Definition sample : Archive := foldl store_side sample_main sample_sides.

Lemma sample_reachable : reachable sample.
Proof.
  unfold sample, sample_main. apply foldl_reachable; [apply store_side_reachable|].
  apply foldl_reachable; [apply store_info_reachable|]. apply foldl_reachable; [apply store_main_reachable|].
  apply rtc_refl.
Qed.

Example sample_size : (size (headers sample), size (main_header_infos sample)) = (6%nat, 5%nat).
Proof. vm_compute. reflexivity. Qed.
Example sample_ancestors : exponential_ancestors sample !! side_hash 4 = Some [side_hash 2; side_hash 0].
Proof. vm_compute. reflexivity. Qed.

(** ** The theorems on the sample *)

Lemma reachable_archive_ok_witness : side_chain_ok sample ∧ main_chain_ok sample.
Proof. apply (reachable_archive_ok sample). exact sample_reachable. Defined.

Lemma get_nth_ancestor_spec_witness :
  get_nth_ancestor sample (side_hash 4) 3
  = ok_or (nth_parent (side_index sample) (Z.to_nat 3) (side_hash 4)) (NoAncestor (side_hash 4) 3).
Proof.
  apply (get_nth_ancestor_spec sample (side_hash 4) 4 3); [exact sample_reachable|vm_compute; reflexivity|lia].
Defined.

Lemma get_nth_main_ancestor_spec_witness :
  get_nth_main_ancestor sample (main_hash 3) 2
  = if 2 <=? 3 then ok_or (nth_parent (main_index sample) (Z.to_nat 2) (main_hash 3)) (NoMainAncestor (main_hash 3) 2)
    else Err (NoMainAncestor (main_hash 3) 2).
Proof.
  apply (get_nth_main_ancestor_spec sample (main_hash 3) 3 2); [exact sample_reachable|vm_compute; reflexivity|lia].
Defined.

Lemma is_descendant_spec_witness :
  ∃ b, is_descendant sample (side_hash 1) (side_hash 5) = Ok b ∧
       (b = true ↔ ancestor_of (side_index sample) (side_hash 1) (side_hash 5)).
Proof.
  apply (is_descendant_spec sample (side_hash 1) (side_hash 5) 1 3);
    [exact sample_reachable|vm_compute; reflexivity|vm_compute; reflexivity].
Defined.

Lemma last_common_ancestor_spec_witness :
  ∃ o, last_common_ancestor sample (side_hash 4) (side_hash 5) = Ok o ∧
    match o with
    | Some x => last_common (side_index sample) x (side_hash 4) (side_hash 5)
    | None => ∀ y, ancestor_of (side_index sample) y (side_hash 4) → ancestor_of (side_index sample) y (side_hash 5) → False
    end.
Proof.
  apply (last_common_ancestor_spec sample (side_hash 4) (side_hash 5) 4 3);
    [exact sample_reachable|vm_compute; reflexivity|vm_compute; reflexivity|lia|lia].
Defined.
Example sample_last_common : last_common_ancestor sample (side_hash 4) (side_hash 5) = Ok (Some (side_hash 2)).
Proof. vm_compute. reflexivity. Qed.

Lemma missing_bodies_agree_witness :
  ∃ l, get_missing_bodies sample (side_hash 4) (Some (side_hash 1)) = Ok l ∧
    iter_missing_bodies sample (side_hash 4) (1 + 1) = Ok l ∧
    ∀ y, y ∈ l ↔ bodies sample !! y = None ∧ ancestor_of (side_index sample) y (side_hash 4) ∧
                 ¬ ancestor_of (side_index sample) y (side_hash 1).
Proof.
  apply (missing_bodies_agree sample (side_hash 4) 4 (side_hash 1) 1);
    [exact sample_reachable|vm_compute; reflexivity|vm_compute; reflexivity|].
  exists 4, 3%nat. split; [vm_compute; reflexivity|]. split; [lia|vm_compute; reflexivity].
Defined.

Lemma sample_one_genesis : one_genesis sample.
Proof.
  assert (map_Forall (fun x n => n = 0 → x = main_hash 0) (main_block_hash_to_height sample)) as Hall.
  { apply (bool_decide_unpack _). vm_compute. done. }
  intros x y Hx Hy. by rewrite (Hall x 0 Hx eq_refl), (Hall y 0 Hy eq_refl).
Qed.

(** Of two tips at one height on forked mainchain blocks the one with more work
    is better. *)
Definition tip_at (side main : Z) : Tip := {| tip_block_hash := side_hash side; tip_main_block_hash := main_hash main |}.
Lemma better_tip_symmetric_witness :
  ∃ o', better_tip sample (tip_at 5 4) (tip_at 3 3) = Ok o' ∧
        (o' = Some (tip_at 5 4) ∨ level sample (tip_at 3 3) (tip_at 5 4)).
Proof.
  apply (better_tip_symmetric sample (tip_at 3 3) (tip_at 5 4) (Some (tip_at 5 4)) 3 3);
    [exact sample_reachable|exact sample_one_genesis|vm_compute; reflexivity|vm_compute; reflexivity|lia|lia|vm_compute; reflexivity].
Defined.

(** On one lineage of mainchain blocks the tip on the lower one is better. *)
Example lower_work_on_one_lineage : better_tip sample (tip_at 3 3) (tip_at 5 2) = Ok (Some (tip_at 5 2)).
Proof. vm_compute. reflexivity. Qed.

Definition first_commitment : option (bytes * Header) := Some (side_hash 0, side_header 0 None 0).
Definition tips1 : SideTips :=
  match connect_mainchain_tip SideTips_create (main_info 0 (-1) 0 5) first_commitment with
  | Ok st => st | Err _ => SideTips_create end.
Lemma mainchain_tip_undone_witness :
  ∃ st2, disconnect_mainchain_tip tips1 (tip_info (mainchain_tip SideTips_create)) (fst <$> first_commitment) = Ok st2 ∧
    mainchain_tip st2 = mainchain_tip SideTips_create ∧
    ordered_sidechain_tips st2 = ordered_sidechain_tips SideTips_create ∧
    tip_left_behind SideTips_create (main_info 0 (-1) 0 5) first_commitment st2.
Proof.
  apply (mainchain_tip_undone SideTips_create (main_info 0 (-1) 0 5) first_commitment tips1).
  - vm_compute. reflexivity.
  - intros p Hp. discriminate Hp.
  - intros h hd _. reflexivity.
  - intros i _. reflexivity.
Defined.

Lemma invalidate_block_spec_witness :
  ∃ a' R, invalidate_block sample (side_hash 3) = Ok a' ∧ invalidated sample R a' ∧ side_chain_ok a' ∧
    ∀ x, x ∈ R ↔ x = side_hash 3 ∨ ancestor_of (side_index sample) (side_hash 3) x.
Proof. apply (invalidate_block_spec sample (side_hash 3)). exact (proj1 (reachable_ok sample sample_reachable)). Defined.

Definition empty_body : Body :=
  Body_new [] {| cb_memo := [0]; cb_outputs := [] |}.
Lemma body_loops_terminate_witness :
  put_body sample (side_hash 2) empty_body ≠ Err LoopBound ∧ delete_body sample (side_hash 2) empty_body ≠ Err LoopBound.
Proof. apply (body_loops_terminate sample (side_hash 2) empty_body). exact sample_reachable. Defined.

(** ** Tips left behind *)

(** Disconnecting and connecting the same mainchain block again leaves the side
    block out of the ordered tips, although it is among the known tips. *)
Example reconnected_tip_not_ordered :
  match st2 ← disconnect_mainchain_tip tips1 None (Some (side_hash 0));
        connect_mainchain_tip st2 (main_info 0 (-1) 0 5) first_commitment with
  | Ok st3 => (bool_decide (is_Some (sidechain_tips st3 !! side_hash 0)), best_side_tip st3)
  | Err _ => (false, None)
  end = (true, None).
Proof. vm_compute. reflexivity. Qed.

(** A commitment that was not connected stops the disconnection. *)
Example unconnected_commitment_stops_disconnect :
  (st1 ← connect_mainchain_tip SideTips_create (main_info 0 (-1) 0 5) None;
   disconnect_mainchain_tip st1 None (Some (side_hash 9))) = Err (MissingSidechainTip (side_hash 9)).
Proof. vm_compute. reflexivity. Qed.

(** An invalidated block stays the best tip. *)
Example invalidated_block_stays_best :
  match invalidate_block (with_side_tips sample tips1) (side_hash 0) with
  | Ok a' => (invalidated_block a' (side_hash 0), snd <$> best_side_tip (side_tips a'))
  | Err _ => (false, None)
  end = (true, Some (side_hash 0)).
Proof. vm_compute. reflexivity. Qed.
