(* ===== verification/Voting.v ===== *)
(** * Votes, reputation and consensus

    Vote values and records (src/lib/state/voting/types.rs), the voting tables
    (src/lib/state/voting/database.rs), the reputation table
    (src/lib/state/reputation.rs), the vote matrix (src/lib/math/voting/mod.rs)
    and the computation, commit and reversal of a period's consensus
    (src/lib/state/voting/mod.rs, src/lib/state/block.rs). *)

From stdpp Require Import base numbers list strings gmap.
From S2P Require Import Prelude Float64 SafeMath StateErrors DecisionTypes Periods Pricing DecisionsDb.

(** ** Votes *)

Inductive VoteValue : Type :=
| VBinary (b : bool)
| VScalar (v : f64)
| VCategorical (index : Z)
| VAbstain.

Definition to_float_opt (v : VoteValue) : option f64 :=
  match v with
  | VBinary false => Some f64_zero
  | VBinary true => Some f64_one
  | VScalar value => Some value
  | VCategorical idx => Some (f64_of_Z idx)
  | VAbstain => None
  end.

Record Vote : Type := {
  v_voter_address : Address;
  v_period_id : Z;
  v_decision_id : DecisionId;
  v_value : VoteValue;
  v_timestamp : Z;
  v_block_height : Z;
  v_tx_hash : bytes
}.

Record VoteMatrixKey : Type := { vk_period : Z; vk_voter : Address; vk_decision : DecisionId }.
#[export] Instance VoteMatrixKey_eq_dec : EqDecision VoteMatrixKey.
Proof. solve_decision. Defined.
#[export] Instance VoteMatrixKey_countable : Countable VoteMatrixKey.
Proof.
  apply (inj_countable' (fun k => (vk_period k, vk_voter k, vk_decision k))
           (fun '(p, a, d) => {| vk_period := p; vk_voter := a; vk_decision := d |})).
  by intros [].
Defined.

Record VoteMatrixEntry : Type := { ve_value : VoteValue; ve_timestamp : Z; ve_block_height : Z }.

Record Ballot : Type := {
  b_period_id : Z;
  b_votes : list Vote;
  b_created_at : Z;
  b_block_height : Z
}.

Inductive DecisionResolutionStatus : Type :=
| ResPending | ResAwaitingResolution | ResResolved | ResDefaulted | ResCancelled.

Record DecisionResolution : Type := {
  dr_decision_id : DecisionId;
  dr_period_id : Z;
  dr_status : DecisionResolutionStatus;
  dr_status_changed_at : Z;
  dr_status_changed_height : Z;
  dr_vote_count : Z;
  dr_min_votes_required : Z;
  dr_voting_deadline : Z;
  dr_outcome_ready : bool;
  dr_reason : option string
}.

Definition DecisionResolution_new (id : DecisionId) (period deadline min_votes ts height : Z)
  : DecisionResolution :=
  {| dr_decision_id := id; dr_period_id := period; dr_status := ResPending;
     dr_status_changed_at := ts; dr_status_changed_height := height; dr_vote_count := 0;
     dr_min_votes_required := min_votes; dr_voting_deadline := deadline;
     dr_outcome_ready := false; dr_reason := None |}.

Definition mark_outcome_ready (r : DecisionResolution) : DecisionResolution :=
  {| dr_decision_id := dr_decision_id r; dr_period_id := dr_period_id r; dr_status := dr_status r;
     dr_status_changed_at := dr_status_changed_at r;
     dr_status_changed_height := dr_status_changed_height r; dr_vote_count := dr_vote_count r;
     dr_min_votes_required := dr_min_votes_required r; dr_voting_deadline := dr_voting_deadline r;
     dr_outcome_ready := true; dr_reason := dr_reason r |}.

Record DecisionOutcome : Type := {
  do_decision_id : DecisionId;
  do_period_id : Z;
  do_outcome_value : f64;
  do_min : f64;
  do_max : f64;
  do_confidence : f64;
  do_total_votes : Z;
  do_total_reputation_weight : f64;
  do_finalized_at : Z;
  do_block_height : Z;
  do_is_consensus : bool;
  do_resolution : DecisionResolution;
  do_categorical_winner : option (option Z)
}.

Definition DecisionOutcome_new (id : DecisionId) (period : Z) (value min max confidence : f64)
  (total_votes : Z) (weight : f64) (finalized_at height : Z) (is_consensus : bool)
  (resolution : DecisionResolution) (winner : option (option Z)) : DecisionOutcome :=
  {| do_decision_id := id; do_period_id := period; do_outcome_value := value; do_min := min;
     do_max := max; do_confidence := f64_clamp confidence f64_zero f64_one;
     do_total_votes := total_votes; do_total_reputation_weight := weight;
     do_finalized_at := finalized_at; do_block_height := height; do_is_consensus := is_consensus;
     do_resolution := resolution; do_categorical_winner := winner |}.

Record VotingPeriodStats : Type := {
  ps_period_id : Z;
  ps_total_voters : Z;
  ps_total_votes : Z;
  ps_total_decisions : Z;
  ps_avg_participation_rate : f64;
  ps_total_reputation_weight : f64;
  ps_consensus_decisions : Z;
  ps_calculated_at : Z;
  ps_first_loading : option (list f64);
  ps_certainty : option f64;
  ps_reputation_changes : option (gmap Address (f64 * f64))
}.

Definition VotingPeriodStats_new (period calculated_at : Z) : VotingPeriodStats :=
  {| ps_period_id := period; ps_total_voters := 0; ps_total_votes := 0; ps_total_decisions := 0;
     ps_avg_participation_rate := f64_zero; ps_total_reputation_weight := f64_zero;
     ps_consensus_decisions := 0; ps_calculated_at := calculated_at; ps_first_loading := None;
     ps_certainty := None; ps_reputation_changes := None |}.

(** ** The voting tables *)

Record VotingDatabases : Type := {
  votes : gmap VoteMatrixKey VoteMatrixEntry;
  ballots : gmap (Z * Z) Ballot;
  decision_outcomes : gmap DecisionId DecisionOutcome;
  period_stats : gmap Z VotingPeriodStats
}.

Definition set_votes (db : VotingDatabases) m : VotingDatabases :=
  {| votes := m; ballots := ballots db; decision_outcomes := decision_outcomes db;
     period_stats := period_stats db |}.
Definition set_outcomes (db : VotingDatabases) m : VotingDatabases :=
  {| votes := votes db; ballots := ballots db; decision_outcomes := m;
     period_stats := period_stats db |}.
Definition set_period_stats (db : VotingDatabases) m : VotingDatabases :=
  {| votes := votes db; ballots := ballots db; decision_outcomes := decision_outcomes db;
     period_stats := m |}.

(** The encoded key: the period is a little-endian [u32], then the address and
    the decision id. *)
Definition vote_key_bytes (k : VoteMatrixKey) : bytes :=
  le_bytes (vk_period k) ++ vk_voter k ++ as_bytes (vk_decision k).
Definition vote_key_cmp (a b : VoteMatrixKey) : comparison :=
  bytes_cmp (vote_key_bytes a) (vote_key_bytes b).

Definition put_vote (db : VotingDatabases) (v : Vote) : VotingDatabases :=
  set_votes db
    (<[ {| vk_period := v_period_id v; vk_voter := v_voter_address v;
           vk_decision := v_decision_id v |}
        := {| ve_value := v_value v; ve_timestamp := v_timestamp v;
              ve_block_height := v_block_height v |} ]> (votes db)).

Definition get_vote (db : VotingDatabases) (period : Z) (voter : Address) (id : DecisionId)
  : option VoteMatrixEntry :=
  votes db !! {| vk_period := period; vk_voter := voter; vk_decision := id |}.

Definition delete_vote (db : VotingDatabases) (period : Z) (voter : Address) (id : DecisionId)
  : VotingDatabases :=
  set_votes db (delete {| vk_period := period; vk_voter := voter; vk_decision := id |} (votes db)).

(** The cursor loop: skip smaller periods, stop at the first larger one. *)
Fixpoint scan_votes (period : Z) (l : list (VoteMatrixKey * VoteMatrixEntry))
  (acc : gmap VoteMatrixKey VoteMatrixEntry) : gmap VoteMatrixKey VoteMatrixEntry :=
  match l with
  | [] => acc
  | (key, entry) :: l =>
      match vk_period key ?= period with
      | Lt => scan_votes period l acc
      | Eq => scan_votes period l (<[key := entry]> acc)
      | Gt => acc
      end
  end.

Definition get_votes_for_period (db : VotingDatabases) (period : Z)
  : gmap VoteMatrixKey VoteMatrixEntry :=
  scan_votes period (db_iter vote_key_cmp (votes db)) ∅.

Definition get_votes_by_voter (db : VotingDatabases) (voter : Address)
  : gmap VoteMatrixKey VoteMatrixEntry :=
  filter (fun e => vk_voter e.1 = voter) (votes db).

Definition get_votes_for_decision (db : VotingDatabases) (id : DecisionId)
  : gmap VoteMatrixKey VoteMatrixEntry :=
  filter (fun e => vk_decision e.1 = id) (votes db).

Definition put_ballot (db : VotingDatabases) (b : Ballot) (index : Z) : VotingDatabases :=
  {| votes := votes db; ballots := <[(b_period_id b, index) := b]> (ballots db);
     decision_outcomes := decision_outcomes db; period_stats := period_stats db |}.

Definition put_decision_outcome (db : VotingDatabases) (o : DecisionOutcome) : VotingDatabases :=
  set_outcomes db (<[do_decision_id o := o]> (decision_outcomes db)).

Definition delete_decision_outcome (db : VotingDatabases) (id : DecisionId) : VotingDatabases :=
  set_outcomes db (delete id (decision_outcomes db)).

Definition put_period_stats (db : VotingDatabases) (s : VotingPeriodStats) : VotingDatabases :=
  set_period_stats db (<[ps_period_id s := s]> (period_stats db)).

Definition delete_period_stats (db : VotingDatabases) (period : Z) : VotingDatabases :=
  set_period_stats db (delete period (period_stats db)).

Definition get_consensus_outcome (db : VotingDatabases) (period : Z) (id : DecisionId)
  : option f64 :=
  do_outcome_value <$> decision_outcomes db !! id.

Definition get_outcomes_for_period (db : VotingDatabases) (period : Z)
  : gmap DecisionId DecisionOutcome :=
  filter (fun e => period_index e.1 = sat_sub period 1 ∧ do_period_id e.2 = period)
    (decision_outcomes db).

Definition get_consensus_outcomes_for_period (db : VotingDatabases) (period : Z)
  : gmap DecisionId f64 :=
  do_outcome_value <$> get_outcomes_for_period db period.

Definition has_consensus (db : VotingDatabases) (period : Z) : bool :=
  bool_decide (is_Some (period_stats db !! period)).

(** ** Reputation *)

Abbreviation Reputations := (gmap Address f64).

Definition get_reputation (r : Reputations) (a : Address) : f64 := default f64_zero (r !! a).

Definition get_all_reputations (r : Reputations) : gmap Address f64 :=
  filter (fun e => f64_gt e.2 f64_zero = true) r.

Definition set_reputation (r : Reputations) (a : Address) (reputation : f64) : Reputations :=
  if f64_le reputation f64_zero then delete a r else <[a := reputation]> r.

Definition delete_reputation (r : Reputations) (a : Address) : Reputations := delete a r.

Definition clear_and_restore (r : Reputations) (snapshot : gmap Address f64) : Reputations :=
  filter (fun e => f64_gt e.2 f64_zero = true) snapshot.

Definition count_holders (r : Reputations) : Z := Z.of_nat (size (get_all_reputations r)).

(** [values().sum()] of a [BTreeMap]: in the order of the addresses. *)
Definition reputation_sum (m : gmap Address f64) : f64 := f64_sum (map snd (db_iter bytes_cmp m)).

(** ** The vote matrix *)

(** [MathPanicked] stands for an index out of range or operands of different
    shapes in the linear algebra crate. *)
Inductive VotingMathError : Type :=
| DimensionMismatch (expected actual : nat)
| EmptyMatrix
| InvalidReputation (reason : string)
| InvalidReputationValue (value : f64)
| NumericalError (reason : string)
| ConvergenceFailure (iterations : Z)
| MathPanicked.

Record SparseVoteMatrix : Type := {
  sm_entries : gmap (Z * Z) f64;
  sm_voter_indices : gmap Address Z;
  sm_decision_indices : gmap DecisionId Z;
  sm_voters : list Address;
  sm_decisions : list DecisionId;
  sm_row_entries : list (gset Z);
  sm_col_entries : list (gset Z)
}.

(** [iter().enumerate().map(|(i, x)| (x, i)).collect()]: a later index wins. *)
Fixpoint index_map {A} `{Countable A} (i : Z) (l : list A) (m : gmap A Z) : gmap A Z :=
  match l with
  | [] => m
  | a :: l => index_map (i + 1) l (<[a := i]> m)
  end.

Definition SparseVoteMatrix_new (voters : list Address) (decisions : list DecisionId)
  : SparseVoteMatrix :=
  {| sm_entries := ∅; sm_voter_indices := index_map 0 voters ∅;
     sm_decision_indices := index_map 0 decisions ∅; sm_voters := voters;
     sm_decisions := decisions; sm_row_entries := replicate (length voters) ∅;
     sm_col_entries := replicate (length decisions) ∅ |}.

Definition set_vote (m : SparseVoteMatrix) (voter : Address) (id : DecisionId) (value : f64)
  : result VotingMathError SparseVoteMatrix :=
  voter_idx ← ok_or (sm_voter_indices m !! voter) (InvalidReputation "voter not found in matrix");
  decision_idx ← ok_or (sm_decision_indices m !! id)
    (InvalidReputation "decision not found in matrix");
  Ok {| sm_entries := <[(voter_idx, decision_idx) := value]> (sm_entries m);
        sm_voter_indices := sm_voter_indices m; sm_decision_indices := sm_decision_indices m;
        sm_voters := sm_voters m; sm_decisions := sm_decisions m;
        sm_row_entries :=
          alter (fun s => {[ decision_idx ]} ∪ s) (Z.to_nat voter_idx) (sm_row_entries m);
        sm_col_entries :=
          alter (fun s => {[ voter_idx ]} ∪ s) (Z.to_nat decision_idx) (sm_col_entries m) |}.

Definition matrix_get_vote (m : SparseVoteMatrix) (voter : Address) (id : DecisionId)
  : option f64 :=
  voter_idx ← sm_voter_indices m !! voter;
  decision_idx ← sm_decision_indices m !! id;
  sm_entries m !! (voter_idx, decision_idx).

Definition num_votes (m : SparseVoteMatrix) : Z := Z.of_nat (size (sm_entries m)).

Definition get_voter_votes (m : SparseVoteMatrix) (voter : Address) : gmap DecisionId f64 :=
  match sm_voter_indices m !! voter with
  | None => ∅
  | Some voter_idx =>
      foldl (fun (acc : gmap DecisionId f64) decision_idx =>
        match sm_entries m !! (voter_idx, decision_idx),
              sm_decisions m !! Z.to_nat decision_idx with
        | Some value, Some id => <[id := value]> acc
        | _, _ => acc
        end) ∅ (elements (default ∅ (sm_row_entries m !! Z.to_nat voter_idx)))
  end.

Definition get_decision_votes (m : SparseVoteMatrix) (id : DecisionId) : gmap Address f64 :=
  match sm_decision_indices m !! id with
  | None => ∅
  | Some decision_idx =>
      foldl (fun (acc : gmap Address f64) voter_idx =>
        match sm_entries m !! (voter_idx, decision_idx), sm_voters m !! Z.to_nat voter_idx with
        | Some value, Some voter => <[voter := value]> acc
        | _, _ => acc
        end) ∅ (elements (default ∅ (sm_col_entries m !! Z.to_nat decision_idx)))
  end.

(** [VotingWeightVector::from_reputation_map]. *)
Definition weights_from_reputation_map (reputations : gmap Address f64) : gmap Address f64 :=
  (fun rep => f64_clamp rep f64_zero f64_one)
  <$> filter (fun e => f64_gt e.2 f64_zero = true) reputations.

(** ** Conservation of reputation *)

Definition REPUTATION_PRECISION_DECIMALS : Z := 10.
Definition round_reputation (v : f64) : f64 := round_to_precision v REPUTATION_PRECISION_DECIMALS.

Definition INITIAL_REPUTATION_TOTAL : f64 := f64_one.
Definition CONSENSUS_CONSERVATION_EPSILON : f64 := f64_dec 1 9.
Definition REPUTATION_ANCHOR_EPSILON : f64 := f64_dec 1 6.

Definition apply_update (post : gmap Address f64) (e : Address * f64) : gmap Address f64 :=
  if f64_gt e.2 f64_zero then <[e.1 := e.2]> post else delete e.1 post.

Definition compute_post_consensus_reputation (pre updates : gmap Address f64) : gmap Address f64 :=
  foldl apply_update pre (db_iter bytes_cmp updates).

(** [max_by]: the last of the largest. *)
Definition reputation_cmp (a b : Address * f64) : comparison :=
  then_cmp (default Eq (f64_partial_cmp a.2 b.2)) (bytes_cmp a.1 b.1).
Definition max_by {A} (cmp : A → A → comparison) (l : list A) : option A :=
  match l with
  | [] => None
  | a :: l => Some (foldl (fun best x => if is_gt (cmp best x) then best else x) a l)
  end.

Definition reanchor_to_initial_total (post : gmap Address f64) : gmap Address f64 :=
  let sum := reputation_sum post in
  let residual := f64_sub INITIAL_REPUTATION_TOTAL sum in
  if f64_eq residual f64_zero then post else
  match max_by reputation_cmp (db_iter bytes_cmp post) with
  | None => post
  | Some (addr, _) => alter (fun rep => f64_add rep residual) addr post
  end.

Definition verify_reputation_conservation (pre post : gmap Address f64)
  : result Error (f64 * f64 * f64 * f64) :=
  let pre_sum := reputation_sum pre in
  let post_sum := reputation_sum post in
  let block_drift := f64_abs (f64_sub post_sum pre_sum) in
  if f64_gt block_drift CONSENSUS_CONSERVATION_EPSILON
  then Err (ConsensusConservationViolation pre_sum post_sum block_drift) else
  let anchor_drift := f64_abs (f64_sub post_sum INITIAL_REPUTATION_TOTAL) in
  if f64_gt anchor_drift REPUTATION_ANCHOR_EPSILON
  then Err (ReputationAnchorViolation post_sum INITIAL_REPUTATION_TOTAL anchor_drift) else
  Ok (pre_sum, post_sum, block_drift, anchor_drift).

(** ** Consensus of a period *)

Record ConsensusResult : Type := {
  cr_period_id : Z;
  cr_period_stats : VotingPeriodStats;
  cr_decision_outcomes : list DecisionOutcome;
  cr_decision_resolutions : list (DecisionId * f64);
  cr_updated_reputations : gmap Address f64;
  cr_block_height : Z;
  cr_timestamp : Z;
  cr_total_decision_count : Z
}.

Record DetailedConsensusResult : Type := {
  dc_outcomes : gmap DecisionId (option f64);
  dc_first_loading : list f64;
  dc_certainty : f64;
  dc_updated_reputations : gmap Address f64;
  dc_outliers : list Address;
  dc_categorical_winners : gmap DecisionId (option Z)
}.

(** The outcome of a decision nobody voted on. *)
Definition default_outcome (period : Z) (id : DecisionId) : DecisionOutcome :=
  DecisionOutcome_new id period f64_half f64_zero f64_one f64_zero 0 f64_zero 0 0 true
    (mark_outcome_ready (DecisionResolution_new id period 0 0 0 0)) None.

(** The outcome the oracle computed; unanimous abstention takes the default. *)
Definition oracle_outcome (period total_votes : Z) (total_weight : f64)
  (winners : gmap DecisionId (option Z)) (e : DecisionId * option f64) : DecisionOutcome :=
  DecisionOutcome_new e.1 period (default f64_half e.2) f64_zero f64_one f64_one total_votes
    total_weight 0 0 true (mark_outcome_ready (DecisionResolution_new e.1 period 0 1 0 0))
    (winners !! e.1).

Definition resolution_of (o : DecisionOutcome) : DecisionId * f64 :=
  (do_decision_id o, do_outcome_value o).

(** The stats record with the oracle's numbers filled in. *)
Definition oracle_stats (s : VotingPeriodStats) (r : DetailedConsensusResult)
  (changes : gmap Address (f64 * f64)) : VotingPeriodStats :=
  {| ps_period_id := ps_period_id s; ps_total_voters := ps_total_voters s;
     ps_total_votes := ps_total_votes s; ps_total_decisions := ps_total_decisions s;
     ps_avg_participation_rate := ps_avg_participation_rate s;
     ps_total_reputation_weight := ps_total_reputation_weight s;
     ps_consensus_decisions := ps_consensus_decisions s; ps_calculated_at := ps_calculated_at s;
     ps_first_loading := Some (dc_first_loading r); ps_certainty := Some (dc_certainty r);
     ps_reputation_changes :=
       if bool_decide (changes = ∅) then ps_reputation_changes s else Some changes |}.

(** The classification of the decisions the oracle is told about. *)
Definition entry_scaled (db : Dbs) (id : DecisionId) : bool :=
  match e ← get_decision_entry db id; decision e with Some d => is_scaled d | None => false end.

Definition scaled_decisions (db : Dbs) (ids : list DecisionId) : gset DecisionId :=
  list_to_set (filter (fun id => entry_scaled db id = true) ids).

Definition categorical_decisions (db : Dbs) (ids : list DecisionId) : gmap DecisionId Z :=
  list_to_map (omap (fun id =>
    d ← (e ← get_decision_entry db id; decision e);
    if is_scaled d then None else (fun n => (id, as_u16 n)) <$> option_count d) ids).

Definition vote_step (m : SparseVoteMatrix) (e : VoteMatrixKey * VoteMatrixEntry)
  : result Error SparseVoteMatrix :=
  match to_float_opt (ve_value e.2) with
  | None => Ok m
  | Some value =>
      map_err (fun _ => InvalidTransaction "Failed to set vote in matrix")
        (set_vote m (vk_voter e.1) (vk_decision e.1) value)
  end.

Section Consensus.
(** [oracle::run_consensus]: the singular value decomposition and what is built
    on it. *)
Context (run_consensus : SparseVoteMatrix → gmap Address f64 → gset DecisionId →
  gmap DecisionId Z → result VotingMathError DetailedConsensusResult).

Definition compute_consensus (vdb : VotingDatabases) (reps : Reputations) (ddb : Dbs)
  (period : VotingPeriod) (timestamp height : Z) : result Error (option ConsensusResult) :=
  let period_id := vp_id period in
  if negb (bool_decide (get_consensus_outcomes_for_period vdb period_id = ∅)) then Ok None else
  let ids := decision_ids period in
  let all_votes := get_votes_for_period vdb period_id in
  let result_with stats outcomes updated :=
    {| cr_period_id := period_id; cr_period_stats := stats; cr_decision_outcomes := outcomes;
       cr_decision_resolutions := map resolution_of outcomes; cr_updated_reputations := updated;
       cr_block_height := height; cr_timestamp := timestamp;
       cr_total_decision_count := Z.of_nat (length ids) |} in
  if bool_decide (all_votes = ∅) then
    let stats := VotingPeriodStats_new period_id 0 in
    Ok (Some (result_with
      {| ps_period_id := ps_period_id stats; ps_total_voters := 0; ps_total_votes := 0;
         ps_total_decisions := 0; ps_avg_participation_rate := f64_zero;
         ps_total_reputation_weight := f64_zero; ps_consensus_decisions := 0;
         ps_calculated_at := 0; ps_first_loading := None; ps_certainty := Some f64_zero;
         ps_reputation_changes := None |}
      (map (default_outcome period_id) ids) ∅))
  else
    let reputations := get_all_reputations reps in
    let total_weight := reputation_sum reputations in
    if bool_decide (reputations = ∅) || f64_le total_weight f64_zero then Ok None else
    let voters := map fst (db_iter bytes_cmp reputations) in
    let decisions := sort_by DecisionId_cmp ids in
    matrix ← try_fold vote_step (SparseVoteMatrix_new voters decisions) (map_to_list all_votes);
    r ← map_err (fun _ => InvalidTransaction "Failed to calculate consensus")
          (run_consensus matrix (weights_from_reputation_map reputations)
             (scaled_decisions ddb decisions) (categorical_decisions ddb decisions));
    let stats := default (VotingPeriodStats_new period_id 0) (period_stats vdb !! period_id) in
    let changes := map_imap (fun a new => Some (default f64_zero (reputations !! a), new))
                     (dc_updated_reputations r) in
    let resolved := map (oracle_outcome period_id (Z.of_nat (size all_votes)) total_weight
                           (dc_categorical_winners r)) (map_to_list (dc_outcomes r)) in
    let defaulted := map (default_outcome period_id)
                       (filter (fun id => dc_outcomes r !! id = None) ids) in
    Ok (Some (result_with (oracle_stats stats r changes) (resolved ++ defaulted)
                (dc_updated_reputations r))).

(** The tables a consensus commit writes. *)
Record ConsensusState : Type := {
  cs_voting : VotingDatabases;
  cs_reputation : Reputations;
  cs_decisions : Dbs
}.

Record ConsensusUndoEntry : Type := {
  cu_period_id : Z;
  cu_decision_outcome_ids : list DecisionId;
  cu_had_period_stats : bool;
  cu_resolved_decision_ids : list DecisionId;
  cu_pre_consensus_reputation : gmap Address f64
}.

Definition validate_consensus_commit (r : ConsensusResult) (ddb : Dbs) : result Error unit :=
  try_fold (fun _ e =>
    _ ← ok_or (decision_state_histories ddb !! e.1) (InvalidDecisionId "no state history");
    Ok tt) tt (cr_decision_resolutions r).

Definition commit_consensus_result (s : ConsensusState) (r : ConsensusResult)
  : result Error (ConsensusState * ConsensusUndoEntry) :=
  _ ← validate_consensus_commit r (cs_decisions s);
  let had := bool_decide (is_Some (period_stats (cs_voting s) !! cr_period_id r)) in
  let pre := get_all_reputations (cs_reputation s) in
  let post := compute_post_consensus_reputation pre (cr_updated_reputations r) in
  _ ← verify_reputation_conservation pre post;
  let post := reanchor_to_initial_total post in
  let vdb := foldl put_decision_outcome (put_period_stats (cs_voting s) (cr_period_stats r))
               (cr_decision_outcomes r) in
  let reps := clear_and_restore (cs_reputation s) post in
  ddb ← try_fold (fun ddb e =>
          transition_decision_to_resolved ddb e.1 (cr_block_height r) e.2)
          (cs_decisions s) (cr_decision_resolutions r);
  Ok ({| cs_voting := vdb; cs_reputation := reps; cs_decisions := ddb |},
      {| cu_period_id := cr_period_id r;
         cu_decision_outcome_ids := map do_decision_id (cr_decision_outcomes r);
         cu_had_period_stats := had;
         cu_resolved_decision_ids := map fst (cr_decision_resolutions r);
         cu_pre_consensus_reputation := pre |}).

Definition calculate_and_store_consensus (s : ConsensusState) (period : VotingPeriod)
  (timestamp height : Z) : result Error (ConsensusState * option ConsensusUndoEntry) :=
  r ← compute_consensus (cs_voting s) (cs_reputation s) (cs_decisions s) period timestamp height;
  match r with
  | None => Ok (s, None)
  | Some r => '(s, undo) ← commit_consensus_result s r; Ok (s, Some undo)
  end.

(** One entry of [revert_consensus]. *)
Definition revert_consensus_entry (s : ConsensusState) (undo : ConsensusUndoEntry)
  : ConsensusState :=
  let vdb := foldl delete_decision_outcome (cs_voting s) (cu_decision_outcome_ids undo) in
  let vdb := if cu_had_period_stats undo then vdb else delete_period_stats vdb (cu_period_id undo) in
  {| cs_voting := vdb;
     cs_reputation := clear_and_restore (cs_reputation s) (cu_pre_consensus_reputation undo);
     cs_decisions := cs_decisions s |}.

Definition revert_consensus (s : ConsensusState) (undo : list ConsensusUndoEntry) : ConsensusState :=
  foldl revert_consensus_entry s (rev undo).

End Consensus.
