(* ===== verification/VotingFacts.v ===== *)
(** * Correctness of votes and consensus

    The early-terminating scan of the votes finds the whole period as long as
    periods fit in one byte; the vote matrix returns what was put in; the
    consensus of a period resolves every decision, its commit conserves
    reputation, and its reversal restores the tables. *)

From stdpp Require Import base numbers list strings gmap sorting.
From S2P Require Import Prelude Float64 SafeMath StateErrors DecisionTypes Periods Pricing DecisionsDb Voting.

(** ** The scan of a period's votes *)

Section Scan.

Lemma vote_key_period_le k k' :
  0 ≤ vk_period k < 256 → 0 ≤ vk_period k' < 256 →
  vote_key_cmp k k' ≠ Gt → vk_period k ≤ vk_period k'.
Proof.
  intros Hk Hk'. unfold vote_key_cmp, bytes_cmp, vote_key_bytes, le_bytes. simpl.
  rewrite !(Z.mod_small (vk_period _) 256) by lia. unfold then_cmp.
  destruct (Z.compare_spec (vk_period k) (vk_period k')); [lia|lia|done].
Qed.

Lemma db_iter_votes_sorted (m : gmap VoteMatrixKey VoteMatrixEntry) :
  map_Forall (fun k _ => 0 ≤ vk_period k < 256) m →
  StronglySorted (fun a b => vk_period a.1 ≤ vk_period b.1) (db_iter vote_key_cmp m).
Proof.
  intros Hm. assert (Forall (fun e => 0 ≤ vk_period e.1 < 256) (db_iter vote_key_cmp m)) as Hall.
  { apply Forall_forall. intros [k e] He%elem_of_db_iter. by apply (Hm k e). }
  pose proof (sort_by_sorted (fun a b : VoteMatrixKey * VoteMatrixEntry => vote_key_cmp a.1 b.1)
                (map_to_list m)) as Hs.
  fold (db_iter vote_key_cmp m) in Hs. revert Hall Hs. generalize (db_iter vote_key_cmp m) as l.
  induction l as [|a l IH]; intros Hall Hs; [constructor|].
  apply Forall_cons in Hall as [Ha Hall]. inversion Hs as [|?? Hs' Hf]; subst.
  constructor; [by apply IH|]. rewrite Forall_forall in Hf, Hall |- *. intros b Hb.
  apply vote_key_period_le; [done|by apply Hall|]. exact (Hf b Hb).
Qed.

Definition insert_all (acc : gmap VoteMatrixKey VoteMatrixEntry)
  (l : list (VoteMatrixKey * VoteMatrixEntry)) : gmap VoteMatrixKey VoteMatrixEntry :=
  foldl (fun m e => <[e.1 := e.2]> m) acc l.

Lemma scan_votes_filter p l acc :
  StronglySorted (fun a b => vk_period a.1 ≤ vk_period b.1) l →
  scan_votes p l acc = insert_all acc (filter (fun e => vk_period e.1 = p) l).
Proof.
  intros Hs. revert acc. induction Hs as [|[k e] l Hs IH Hle]; intros acc; simpl; [done|].
  rewrite filter_cons. simpl. destruct (Z.compare_spec (vk_period k) p) as [Heq|Hlt|Hgt].
  - rewrite decide_True by done. simpl. apply IH.
  - rewrite decide_False by lia. apply IH.
  - rewrite decide_False by lia. rewrite list_filter_none; [done|].
    eapply Forall_impl; [exact Hle|]. simpl. lia.
Qed.

Lemma insert_all_lookup l acc k :
  NoDup l.*1 →
  insert_all acc l !! k = match (list_to_map l : gmap _ _) !! k with Some e => Some e | None => acc !! k end.
Proof.
  revert acc. induction l as [|[k' e] l IH]; intros acc Hnd; simpl; [by rewrite lookup_empty|].
  apply NoDup_cons in Hnd as [Hni Hnd]. unfold insert_all in *. simpl. rewrite IH by done.
  destruct (decide (k = k')) as [->|Hne].
  - rewrite (not_elem_of_list_to_map_1 l k' Hni), !lookup_insert_eq. done.
  - rewrite !lookup_insert_ne by done. done.
Qed.

Lemma filter_fst_NoDup {A B} (P : A * B → Prop) `{!∀ x, base.Decision (P x)} (l : list (A * B)) :
  NoDup l.*1 → NoDup (filter P l).*1.
Proof.
  induction l as [|[a b] l IH]; simpl; [done|]. intros [Hni Hnd]%NoDup_cons. rewrite filter_cons.
  case_decide; simpl; [|by apply IH]. constructor; [|by apply IH].
  intros ([a' b'] & -> & Hin)%list_elem_of_fmap. apply Hni.
  apply list_elem_of_filter in Hin as [_ Hin]. by apply (list_elem_of_fmap_2 fst) in Hin.
Qed.

Lemma scan_complete (db : VotingDatabases) p :
  map_Forall (fun k _ => 0 ≤ vk_period k < 256) (votes db) →
  get_votes_for_period db p = filter (fun e => vk_period e.1 = p) (votes db).
Proof.
  intros Hm. unfold get_votes_for_period. rewrite scan_votes_filter by (by apply db_iter_votes_sorted).
  set (l := filter _ _). assert (NoDup l.*1) as Hnd.
  { apply filter_fst_NoDup, db_iter_keys_NoDup. }
  apply map_eq. intros k. rewrite insert_all_lookup by done. rewrite lookup_empty.
  destruct (filter _ (votes db) !! k) as [e|] eqn:E.
  - apply map_lookup_filter_Some in E as [Hk Hp].
    rewrite (elem_of_list_to_map_1 l k e); [done|done|]. apply list_elem_of_filter.
    split; [done|]. by apply elem_of_db_iter.
  - destruct (list_to_map l !! k) as [e|] eqn:El; [|done].
    apply elem_of_list_to_map_2, list_elem_of_filter in El as [Hp Hin%elem_of_db_iter].
    rewrite map_lookup_filter_None in E. destruct E as [E|E]; [congruence|]. by apply (E e Hin) in Hp.
Qed.

(** The votes of a period.  The scan stops at the first larger period, and
    the keys are stored in little-endian order; as long as every stored period
    is below 256 (a decision id allows at most 128) it returns exactly the
    votes of the period. *)
Theorem get_votes_for_period_complete db p :
  map_Forall (fun k _ => 0 ≤ vk_period k < 256) (votes db) →
  get_votes_for_period db p = filter (fun e => vk_period e.1 = p) (votes db) ∧
  ∀ voter id, get_votes_for_period db p !! {| vk_period := p; vk_voter := voter; vk_decision := id |}
    = get_vote db p voter id.
Proof.
  intros Hm. rewrite scan_complete by done. split; [done|]. intros voter id. unfold get_vote.
  destruct (votes db !! _) as [e|] eqn:E; [by apply map_lookup_filter_Some|].
  apply map_lookup_filter_None. by left.
Qed.

Definition sample_vote (p : Z) (voter : Z) : Vote :=
  {| v_voter_address := [voter]; v_period_id := p;
     v_decision_id := {| byte0 := 128; byte1 := 0; byte2 := 1 |}; v_value := VBinary true;
     v_timestamp := 0; v_block_height := 0; v_tx_hash := [] |}.
Definition sample_votes (l : list Vote) : VotingDatabases :=
  foldl put_vote {| votes := ∅; ballots := ∅; decision_outcomes := ∅; period_stats := ∅ |} l.

Lemma get_votes_for_period_complete_witness :
  get_votes_for_period (sample_votes [sample_vote 5 1; sample_vote 2 1; sample_vote 5 2]) 5
    !! {| vk_period := 5; vk_voter := [2]; vk_decision := {| byte0 := 128; byte1 := 0; byte2 := 1 |} |}
  = Some {| ve_value := VBinary true; ve_timestamp := 0; ve_block_height := 0 |}.
Proof.
  destruct (get_votes_for_period_complete
    (sample_votes [sample_vote 5 1; sample_vote 2 1; sample_vote 5 2]) 5) as [_ H].
  - repeat apply map_Forall_insert_2; simpl; try lia. apply map_Forall_empty.
  - rewrite H. reflexivity.
Defined.

(** A period of 256 is stored before period 1 and ends the scan for it. *)
Example early_termination_needs_small_periods :
  let db := sample_votes [sample_vote 256 1; sample_vote 1 2] in
  size (filter (fun e => vk_period e.1 = 1) (votes db)) = 1%nat ∧
  size (get_votes_for_period db 1) = 0%nat.
Proof. vm_compute. done. Qed.

End Scan.

(** ** Consensus *)

Section Consensus.
Context (run_consensus : SparseVoteMatrix → gmap Address f64 → gset DecisionId →
  gmap DecisionId Z → result VotingMathError DetailedConsensusResult).

Lemma resolution_of_fst l : map fst (map resolution_of l) = map do_decision_id l.
Proof. rewrite map_map. by apply map_ext. Qed.

Lemma oracle_outcome_ids period n w winners l :
  map do_decision_id (map (oracle_outcome period n w winners) l) = map fst l.
Proof. rewrite map_map. by apply map_ext. Qed.

Lemma default_outcome_ids period l : map do_decision_id (map (default_outcome period) l) = l.
Proof. rewrite map_map. simpl. by rewrite map_id. Qed.

(** The consensus of a period.  When it is computed, every decision of the
    period is resolved once, with the outcome that is stored for it; without
    votes every outcome is one half and no reputation changes. *)
Theorem compute_consensus_resolves_all vdb reps ddb period ts height r :
  compute_consensus run_consensus vdb reps ddb period ts height = Ok (Some r) →
  cr_decision_resolutions r = map resolution_of (cr_decision_outcomes r) ∧
  (∀ id, id ∈ decision_ids period → id ∈ map fst (cr_decision_resolutions r)) ∧
  (NoDup (decision_ids period) → NoDup (map fst (cr_decision_resolutions r))) ∧
  (get_votes_for_period vdb (vp_id period) = ∅ →
     cr_updated_reputations r = ∅ ∧
     map fst (cr_decision_resolutions r) = decision_ids period ∧
     Forall (fun e => e.2 = f64_half) (cr_decision_resolutions r)).
Proof.
  unfold compute_consensus. destruct (negb _); [done|]. case_bool_decide as Hv.
  - intros H. injection H as <-. cbn [cr_decision_resolutions cr_decision_outcomes cr_updated_reputations].
    rewrite resolution_of_fst, default_outcome_ids. split_and!; try done. intros _.
    split_and!; [done|done|]. apply Forall_map, Forall_map, Forall_true. done.
  - destruct (bool_decide _ || _); [done|]. intros H. inv_ok.
    cbn [cr_decision_resolutions cr_decision_outcomes cr_updated_reputations].
    rewrite resolution_of_fst, (map_app do_decision_id), oracle_outcome_ids, default_outcome_ids. split_and!.
    + done.
    + intros id Hid. apply elem_of_app. destruct (dc_outcomes a0 !! id) as [o|] eqn:Eo.
      * left. apply elem_of_map_to_list in Eo. by apply (list_elem_of_fmap_2 fst) in Eo.
      * right. by apply list_elem_of_filter.
    + intros Hnd. apply NoDup_app. split_and!.
      * apply NoDup_fst_map_to_list.
      * intros id ([id' o] & -> & Hin%elem_of_map_to_list)%list_elem_of_fmap [Hno _]%list_elem_of_filter.
        simpl in *. congruence.
      * by apply NoDup_filter.
    + intros Hno. congruence.
Qed.

End Consensus.

Definition sample_decision_id : DecisionId := {| byte0 := 128; byte1 := 0; byte2 := 1 |}.
Definition sample_period : VotingPeriod :=
  {| vp_id := 1; start_timestamp := 0; end_timestamp := 10; status := Closed;
     decision_ids := [sample_decision_id] |}.
Definition sample_dbs : Dbs :=
  {| period_decisions := ∅; decision_state_histories := {[ sample_decision_id := [(Claimed, 2, None); (Voting, 4, None)] ]};
     period_pricing := ∅; period_pricing_undo := ∅; config := config_testing 10 |}.
Definition sample_reputations : Reputations := {[ [1] := f64_half; [2] := f64_half ]}.
Definition no_oracle : SparseVoteMatrix → gmap Address f64 → gset DecisionId →
  gmap DecisionId Z → result VotingMathError DetailedConsensusResult := fun _ _ _ _ => Err (NumericalError "no oracle").
Definition sample_result : ConsensusResult :=
  {| cr_period_id := 1;
     cr_period_stats :=
       {| ps_period_id := 1; ps_total_voters := 0; ps_total_votes := 0; ps_total_decisions := 0;
          ps_avg_participation_rate := f64_zero; ps_total_reputation_weight := f64_zero;
          ps_consensus_decisions := 0; ps_calculated_at := 0; ps_first_loading := None;
          ps_certainty := Some f64_zero; ps_reputation_changes := None |};
     cr_decision_outcomes := [default_outcome 1 sample_decision_id];
     cr_decision_resolutions := [(sample_decision_id, f64_half)];
     cr_updated_reputations := ∅; cr_block_height := 12; cr_timestamp := 99;
     cr_total_decision_count := 1 |}.

Lemma compute_consensus_resolves_all_witness :
  compute_consensus no_oracle (sample_votes []) sample_reputations sample_dbs sample_period 99 12
    = Ok (Some sample_result) ∧
  map fst (cr_decision_resolutions sample_result) = [sample_decision_id].
Proof.
  assert (compute_consensus no_oracle (sample_votes []) sample_reputations sample_dbs sample_period
            99 12 = Ok (Some sample_result)) as H by (vm_compute; reflexivity).
  split; [exact H|].
  destruct (compute_consensus_resolves_all _ _ _ _ _ _ _ _ H) as (_ & _ & _ & Hno).
  apply Hno. vm_compute. reflexivity.
Defined.

(** ** Committing and reverting a consensus *)

Section Commit.

Lemma put_outcomes_other l db id :
  id ∉ map do_decision_id l →
  decision_outcomes (foldl put_decision_outcome db l) !! id = decision_outcomes db !! id.
Proof.
  revert db. induction l as [|o l IH]; intros db Hni; simpl; [done|].
  apply not_elem_of_cons in Hni as [Hne Hni]. rewrite IH by done. simpl.
  by rewrite lookup_insert_ne.
Qed.

Lemma put_outcomes_in l db o :
  NoDup (map do_decision_id l) → o ∈ l →
  decision_outcomes (foldl put_decision_outcome db l) !! do_decision_id o = Some o.
Proof.
  revert db. induction l as [|o' l IH]; intros db Hnd Hin; simpl; [by apply not_elem_of_nil in Hin|].
  apply NoDup_cons in Hnd as [Hni Hnd]. apply elem_of_cons in Hin as [->|Hin].
  - rewrite put_outcomes_other by done. simpl. by rewrite lookup_insert_eq.
  - by apply IH.
Qed.




(** Resolving a list of distinct decisions. *)
Lemma resolve_all_spec height l db db' :
  NoDup (map fst l) →
  try_fold (fun db e => transition_decision_to_resolved db e.1 height e.2) db l = Ok db' →
  (∀ id v, (id, v) ∈ l → ∃ h, decision_state_histories db !! id = Some h ∧
     decision_state_histories db' !! id = Some (h ++ [(Resolved, height, Some v)])) ∧
  (∀ id, id ∉ map fst l → decision_state_histories db' !! id = decision_state_histories db !! id) ∧
  period_decisions db' = period_decisions db ∧ period_pricing db' = period_pricing db.
Proof.
  revert db. induction l as [|[i w] l IH]; intros db Hnd Hf; simpl in Hf.
  { injection Hf as <-. split_and!; try done. intros id v Hin. by apply not_elem_of_nil in Hin. }
  apply NoDup_cons in Hnd as [Hni Hnd].
  destruct (transition_decision_to_resolved db i height w) as [db1|] eqn:E1; [|discriminate].
  unfold transition_decision_to_resolved in E1.
  destruct (decision_state_histories db !! i) as [h|] eqn:Eh; simpl in E1; [|discriminate].
  unfold transition_to_resolved in E1. case_match; [discriminate|]. case_match; [discriminate|].
  simpl in E1. injection E1 as <-. destruct (IH _ Hnd Hf) as (Hin & Hout & Hpd & Hpp). simpl in *.
  split_and!; [| |done|done].
  - intros id v [[= -> ->]|Hv]%elem_of_cons.
    + exists h. split; [done|]. rewrite Hout by done. by rewrite lookup_insert_eq.
    + destruct (Hin id v Hv) as (h' & Hh' & Hr). exists h'. split; [|done].
      rewrite lookup_insert_ne in Hh'; [done|]. intros ->. apply Hni.
      by apply (list_elem_of_fmap_2 fst) in Hv.
  - intros id [Hne Hid]%not_elem_of_cons. rewrite Hout by done. by rewrite lookup_insert_ne.
Qed.

(** A committed consensus.  The outcomes are stored, every decision it
    resolves is in the resolved state with its outcome and the other decisions
    are as before, the reputation after the update stays within the allowed
    drift of the reputation before it and of one, and the stored reputations
    are positive. *)
Theorem commit_consensus_spec s r s' undo :
  commit_consensus_result s r = Ok (s', undo) →
  NoDup (map do_decision_id (cr_decision_outcomes r)) → NoDup (map fst (cr_decision_resolutions r)) →
  let pre := get_all_reputations (cs_reputation s) in
  let post := compute_post_consensus_reputation pre (cr_updated_reputations r) in
  (∀ o, o ∈ cr_decision_outcomes r →
     get_consensus_outcome (cs_voting s') (cr_period_id r) (do_decision_id o)
       = Some (do_outcome_value o)) ∧
  (∀ id v, (id, v) ∈ cr_decision_resolutions r →
     get_decision_current_state (cs_decisions s') id = Resolved) ∧
  (∀ id, id ∉ map fst (cr_decision_resolutions r) →
     get_decision_current_state (cs_decisions s') id
       = get_decision_current_state (cs_decisions s) id) ∧
  f64_gt (f64_abs (f64_sub (reputation_sum post) (reputation_sum pre)))
    CONSENSUS_CONSERVATION_EPSILON = false ∧
  f64_gt (f64_abs (f64_sub (reputation_sum post) INITIAL_REPUTATION_TOTAL))
    REPUTATION_ANCHOR_EPSILON = false ∧
  map_Forall (fun _ rep => f64_gt rep f64_zero = true) (cs_reputation s') ∧
  cs_reputation s' = get_all_reputations (reanchor_to_initial_total post).
Proof.
  intros H Hnd1 Hnd2. unfold commit_consensus_result in H. inv_ok. simpl.
  apply resolve_all_spec in E1 as (Hin & Hout & _ & _); [|done].
  unfold verify_reputation_conservation in E0.
  destruct (f64_gt _ CONSENSUS_CONSERVATION_EPSILON) eqn:Ec in E0; [discriminate E0|].
  destruct (f64_gt _ REPUTATION_ANCHOR_EPSILON) eqn:Ea in E0; [discriminate E0|]. split_and!.
  - intros o Ho. unfold get_consensus_outcome. by rewrite put_outcomes_in.
  - intros id v Hv. destruct (Hin id v Hv) as (h & _ & Hh). unfold get_decision_current_state.
    rewrite Hh. unfold current_state. by rewrite last_snoc.
  - intros id Hid. unfold get_decision_current_state. by rewrite Hout.
  - exact Ec.
  - exact Ea.
  - intros addr rep Hrep. by apply map_lookup_filter_Some in Hrep as [_ ?].
  - done.
Qed.

Definition sample_state : ConsensusState :=
  {| cs_voting := sample_votes []; cs_reputation := sample_reputations; cs_decisions := sample_dbs |}.
Definition sample_commit : ConsensusState * ConsensusUndoEntry :=
  run (commit_consensus_result sample_state sample_result)
    (sample_state, Build_ConsensusUndoEntry 0 [] false [] ∅).

Lemma sample_commit_ok : commit_consensus_result sample_state sample_result = Ok sample_commit.
Proof.
  unfold sample_commit.
  assert (is_ok (commit_consensus_result sample_state sample_result) = true) as H
    by (vm_compute; reflexivity).
  by destruct (commit_consensus_result sample_state sample_result).
Qed.

Lemma commit_consensus_spec_witness :
  get_decision_current_state (cs_decisions sample_commit.1) sample_decision_id = Resolved.
Proof.
  assert (commit_consensus_result sample_state sample_result = Ok (sample_commit.1, sample_commit.2))
    as H by (rewrite <- surjective_pairing; exact sample_commit_ok).
  destruct (commit_consensus_spec _ _ _ _ H) as (_ & Hres & _);
    [apply NoDup_singleton|apply NoDup_singleton|].
  apply (Hres _ f64_half). apply list_elem_of_here.
Defined.





End Commit.

(** ** The vote matrix *)

Section Matrix.

Lemma index_map_lookup {A} `{Countable A} i (l : list A) (m : gmap A Z) a k :
  NoDup l →
  index_map i l m !! a = Some k ↔
    (i ≤ k ∧ l !! Z.to_nat (k - i) = Some a) ∨ (a ∉ l ∧ m !! a = Some k).
Proof.
  revert i m. induction l as [|b l IH]; intros i m Hnd; simpl.
  { rewrite lookup_nil. split; [intros Hm; right; split; [apply not_elem_of_nil|done]|].
    by intros [[_ ?]|[_ ?]]. }
  apply NoDup_cons in Hnd as [Hni Hnd]. rewrite IH by done. split.
  - intros [[Hk Hl]|[Hna Hm]].
    + left. split; [lia|]. by replace (Z.to_nat (k - i)) with (S (Z.to_nat (k - (i + 1)))) by lia.
    + destruct (decide (a = b)) as [->|Hne].
      * rewrite lookup_insert_eq in Hm. simplify_eq. left. split; [lia|]. by rewrite Z.sub_diag.
      * rewrite lookup_insert_ne in Hm by done. right. split; [|done]. by apply not_elem_of_cons.
  - intros [[Hk Hl]|[Hna Hm]].
    + destruct (decide (k = i)) as [->|Hne].
      * rewrite Z.sub_diag in Hl. simpl in Hl. simplify_eq. right. by rewrite lookup_insert_eq.
      * left. split; [lia|].
        by replace (Z.to_nat (k - i)) with (S (Z.to_nat (k - (i + 1)))) in Hl by lia.
    + apply not_elem_of_cons in Hna as [Hne Hna]. right. by rewrite lookup_insert_ne.
Qed.

(** The indices name positions and the row and column sets list the entries. *)
Record matrix_ok (m : SparseVoteMatrix) : Prop := {
  mo_voters v i : sm_voter_indices m !! v = Some i ↔ 0 ≤ i ∧ sm_voters m !! Z.to_nat i = Some v;
  mo_decisions d j :
    sm_decision_indices m !! d = Some j ↔ 0 ≤ j ∧ sm_decisions m !! Z.to_nat j = Some d;
  mo_rows : length (sm_row_entries m) = length (sm_voters m);
  mo_cols : length (sm_col_entries m) = length (sm_decisions m);
  mo_row i j : 0 ≤ i →
    j ∈ default ∅ (sm_row_entries m !! Z.to_nat i) ↔ is_Some (sm_entries m !! (i, j));
  mo_col i j : 0 ≤ j →
    i ∈ default ∅ (sm_col_entries m !! Z.to_nat j) ↔ is_Some (sm_entries m !! (i, j));
  mo_entries i j : is_Some (sm_entries m !! (i, j)) → 0 ≤ i ∧ 0 ≤ j
}.

Lemma new_matrix_ok voters decisions :
  NoDup voters → NoDup decisions → matrix_ok (SparseVoteMatrix_new voters decisions).
Proof.
  intros Hv Hd. split; simpl.
  - intros v i. rewrite index_map_lookup, Z.sub_0_r, lookup_empty by done. naive_solver.
  - intros d j. rewrite index_map_lookup, Z.sub_0_r, lookup_empty by done. naive_solver.
  - apply length_replicate.
  - apply length_replicate.
  - intros i j _. rewrite lookup_empty, is_Some_alt. split; [|done].
    destruct (replicate (length voters) ∅ !! Z.to_nat i) as [s|] eqn:E; simpl; [|set_solver].
    apply lookup_replicate in E as [-> _]. set_solver.
  - intros i j _. rewrite lookup_empty, is_Some_alt. split; [|done].
    destruct (replicate (length decisions) ∅ !! Z.to_nat j) as [s|] eqn:E; simpl; [|set_solver].
    apply lookup_replicate in E as [-> _]. set_solver.
  - intros i j. rewrite lookup_empty. by intros [? ?].
Qed.

(** Adding an index to one of the sets. *)
Lemma alter_union_elem (l : list (gset Z)) n n' x y :
  (n < length l)%nat →
  x ∈ default ∅ (alter (fun s => {[ y ]} ∪ s) n l !! n') ↔
    (n' = n ∧ x = y) ∨ x ∈ default ∅ (l !! n').
Proof.
  intros Hn. destruct (decide (n = n')) as [<-|Hne].
  - rewrite list_lookup_alter_eq. destruct (lookup_lt_is_Some_2 l n Hn) as [s Hs]. rewrite Hs. simpl.
    set_solver.
  - rewrite list_lookup_alter_ne by done. naive_solver.
Qed.

Lemma set_vote_ok m voter id value m' :
  matrix_ok m → set_vote m voter id value = Ok m' →
  matrix_ok m' ∧ sm_voter_indices m' = sm_voter_indices m ∧
  sm_decision_indices m' = sm_decision_indices m ∧
  ∃ i j, sm_voter_indices m !! voter = Some i ∧ sm_decision_indices m !! id = Some j ∧
    sm_entries m' = <[(i, j) := value]> (sm_entries m).
Proof.
  intros Hm Hset. unfold set_vote in Hset.
  destruct (sm_voter_indices m !! voter) as [i|] eqn:Ei; simpl in Hset; [|discriminate].
  destruct (sm_decision_indices m !! id) as [j|] eqn:Ej; simpl in Hset; [|discriminate].
  injection Hset as <-. split; [|split; [done|split; [done|by exists i, j]]].
  apply (mo_voters m Hm) in Ei as [Hi Hvi]. apply (mo_decisions m Hm) in Ej as [Hj Hdj].
  apply lookup_lt_Some in Hvi as Hli. apply lookup_lt_Some in Hdj as Hlj.
  assert (∀ i' j', is_Some (<[(i, j) := value]> (sm_entries m) !! (i', j')) ↔
            (i' = i ∧ j' = j) ∨ is_Some (sm_entries m !! (i', j'))) as Hins.
  { intros i' j'. rewrite lookup_insert_is_Some. split.
    - intros [[= -> ->]|[_ ?]]; [by left|by right].
    - intros [[-> ->]|?]; [by left|]. destruct (decide ((i, j) = (i', j'))); [by left|by right]. }
  split; cbn [sm_voter_indices sm_decision_indices sm_voters sm_decisions sm_row_entries
              sm_col_entries sm_entries].
  - apply (mo_voters m Hm).
  - apply (mo_decisions m Hm).
  - rewrite length_alter. apply (mo_rows m Hm).
  - rewrite length_alter. apply (mo_cols m Hm).
  - intros i' j' Hi'. rewrite Hins, alter_union_elem by (rewrite (mo_rows m Hm); lia).
    rewrite (mo_row m Hm) by done. split; (intros [[? ?]|?]; [left; split; lia|by right]).
  - intros i' j' Hj'. rewrite Hins, alter_union_elem by (rewrite (mo_cols m Hm); lia).
    rewrite (mo_col m Hm) by done. split; (intros [[? ?]|?]; [left; split; lia|by right]).
  - intros i' j' [[-> ->]|?]%Hins; [done|]. by apply (mo_entries m Hm).
Qed.

(** Collecting the pairs a partial function gives on a list of indices. *)
Definition collect {K V} `{Countable K} (f : Z → option (K * V)) (acc : gmap K V) (js : list Z)
  : gmap K V :=
  foldl (fun acc j => match f j with Some e => <[e.1 := e.2]> acc | None => acc end) acc js.

Lemma collect_lookup {K V} `{Countable K} (f : Z → option (K * V)) js (acc : gmap K V) k v :
  (∀ j j' w w', f j = Some (k, w) → f j' = Some (k, w') → w = w') →
  collect f acc js !! k = Some v ↔
    (∃ j, j ∈ js ∧ f j = Some (k, v)) ∨ ((∀ j w, j ∈ js → f j ≠ Some (k, w)) ∧ acc !! k = Some v).
Proof.
  intros Hfun. revert acc. induction js as [|j js IH]; intros acc.
  { simpl. split.
    - intros Ha. right. split; [|done]. intros j w Hj. by apply not_elem_of_nil in Hj.
    - intros [(j & Hj & _)|[_ ?]]; [by apply not_elem_of_nil in Hj|done]. }
  unfold collect in *. cbn [foldl]. rewrite IH. clear IH.
  setoid_rewrite elem_of_cons. destruct (f j) as [[k' w]|] eqn:Ef.
  - simpl. destruct (decide (k' = k)) as [->|Hne].
    + rewrite lookup_insert_eq. split.
      * intros [(j' & Hj' & Hf)|[_ [= ->]]]; left; eauto.
      * intros [(j' & [->|Hj'] & Hf)|[Hno _]].
        -- destruct (decide (Exists (fun j' => fst <$> f j' = Some k) js)) as [Hex|Hno].
           ++ apply Exists_exists in Hex as (j' & Hj' & Hk). left. exists j'. split; [done|]. destruct (f j') as [[k'' w']|] eqn:Ef'; simplify_eq/=.
              do 2 f_equal. by eapply (Hfun j' j).
           ++ right. split; [|congruence]. intros j' w' Hj' Hf'. apply Hno, Exists_exists. exists j'. by rewrite Hf'.
        -- left. eauto.
        -- exfalso. by apply (Hno j w); [left|].
    + rewrite lookup_insert_ne by done. split.
      * intros [(j' & ? & ?)|[Hno ?]]; [left; eauto|right]. split; [|done].
        intros j' w' [->|?]; [rewrite Ef; congruence|by apply Hno].
      * intros [(j' & [->|?] & Hf)|[Hno ?]]; [congruence|left; eauto|right].
        split; [|done]. intros j' w' Hj'. apply Hno. by right.
  - split.
    + intros [(j' & ? & ?)|[Hno ?]]; [left; eauto|right]. split; [|done].
      intros j' w' [->|?]; [congruence|by apply Hno].
    + intros [(j' & [->|?] & Hf)|[Hno ?]]; [congruence|left; eauto|right].
      split; [|done]. intros j' w' Hj'. apply Hno. by right.
Qed.

Lemma get_voter_votes_spec m v d : matrix_ok m → get_voter_votes m v !! d = matrix_get_vote m v d.
Proof.
  intros Hm. unfold get_voter_votes, matrix_get_vote.
  destruct (sm_voter_indices m !! v) as [i|] eqn:Ei; simpl; [|apply lookup_empty].
  apply (mo_voters m Hm) in Ei as [Hi _].
  set (f j := x ← sm_entries m !! (i, j); id ← sm_decisions m !! Z.to_nat j; Some (id, x)).
  assert (∀ js acc, foldl (fun (acc : gmap DecisionId f64) decision_idx =>
    match sm_entries m !! (i, decision_idx), sm_decisions m !! Z.to_nat decision_idx with
    | Some value, Some id => <[id := value]> acc | _, _ => acc end) acc js = collect f acc js) as ->.
  { unfold collect. induction js as [|j js IH]; intros acc; [done|]. cbn [foldl]. rewrite IH.
    f_equal. unfold f. destruct (sm_entries m !! (i, j)); [|done]. simpl.
    by destruct (sm_decisions m !! Z.to_nat j). }
  assert (∀ j id x, f j = Some (id, x) ↔ sm_entries m !! (i, j) = Some x ∧
            sm_decision_indices m !! id = Some j) as Hf.
  { intros j id x. unfold f. rewrite (mo_decisions m Hm). split.
    - destruct (sm_entries m !! (i, j)) as [y|] eqn:Ey; simpl; [|done].
      destruct (sm_decisions m !! Z.to_nat j); simpl; [|done]. intros [= -> ->].
      split; [done|]. split; [|done]. by apply (mo_entries m Hm i j).
    - intros (-> & _ & ->). done. }
  apply option_eq. intros x. rewrite collect_lookup, lookup_empty.
  2: { intros j j' w w' [H1 H2]%Hf [H3 H4]%Hf. simplify_eq. done. }
  split.
  - intros [(j & _ & [H1 ->]%Hf)|[_ ?]]; [done|done].
  - destruct (sm_decision_indices m !! d) as [j|] eqn:Ej; simpl; [|done]. intros Hx. left. exists j.
    split; [|by apply Hf]. apply elem_of_elements, (mo_row m Hm); [done|]. by exists x.
Qed.

Lemma get_decision_votes_spec m v d :
  matrix_ok m → get_decision_votes m d !! v = matrix_get_vote m v d.
Proof.
  intros Hm. unfold get_decision_votes, matrix_get_vote.
  destruct (sm_decision_indices m !! d) as [j|] eqn:Ej; simpl.
  2: { rewrite lookup_empty. by destruct (sm_voter_indices m !! v). }
  apply (mo_decisions m Hm) in Ej as [Hj _].
  set (f i := x ← sm_entries m !! (i, j); voter ← sm_voters m !! Z.to_nat i; Some (voter, x)).
  assert (∀ us acc, foldl (fun (acc : gmap Address f64) voter_idx =>
    match sm_entries m !! (voter_idx, j), sm_voters m !! Z.to_nat voter_idx with
    | Some value, Some voter => <[voter := value]> acc | _, _ => acc end) acc us = collect f acc us) as ->.
  { unfold collect. induction us as [|i us IH]; intros acc; [done|]. cbn [foldl]. rewrite IH.
    f_equal. unfold f. destruct (sm_entries m !! (i, j)); [|done]. simpl.
    by destruct (sm_voters m !! Z.to_nat i). }
  assert (∀ i voter x, f i = Some (voter, x) ↔ sm_entries m !! (i, j) = Some x ∧
            sm_voter_indices m !! voter = Some i) as Hf.
  { intros i voter x. unfold f. rewrite (mo_voters m Hm). split.
    - destruct (sm_entries m !! (i, j)) as [y|] eqn:Ey; simpl; [|done].
      destruct (sm_voters m !! Z.to_nat i); simpl; [|done]. intros [= -> ->].
      split; [done|]. split; [|done]. by apply (mo_entries m Hm i j).
    - intros (-> & _ & ->). done. }
  apply option_eq. intros x. rewrite collect_lookup, lookup_empty.
  2: { intros i i' w w' [H1 H2]%Hf [H3 H4]%Hf. simplify_eq. done. }
  split.
  - intros [(i & _ & [H1 ->]%Hf)|[_ ?]]; [done|done].
  - destruct (sm_voter_indices m !! v) as [i|] eqn:Ei; simpl; [|done]. intros Hx. left. exists i.
    split; [|by apply Hf]. apply elem_of_elements, (mo_col m Hm); [done|]. by exists x.
Qed.

Lemma matrix_get_vote_set m voter id value m' v d :
  matrix_ok m → set_vote m voter id value = Ok m' →
  matrix_get_vote m' v d = if bool_decide ((v, d) = (voter, id)) then Some value else matrix_get_vote m v d.
Proof.
  intros Hm Hset.
  destruct (set_vote_ok _ _ _ _ _ Hm Hset) as (_ & Hvi & Hdi & i & j & Hi & Hj & He).
  unfold matrix_get_vote. rewrite Hvi, Hdi, He. case_bool_decide as Heq.
  - simplify_eq. rewrite Hi, Hj. simpl. by rewrite lookup_insert_eq.
  - destruct (sm_voter_indices m !! v) as [i'|] eqn:Ei'; simpl; [|done].
    destruct (sm_decision_indices m !! d) as [j'|] eqn:Ej'; simpl; [|done].
    rewrite lookup_insert_ne; [done|]. intros [= -> ->]. apply Heq.
    apply (mo_voters m Hm) in Hi as [_ Hi], Ei' as [_ Ei'].
    apply (mo_decisions m Hm) in Hj as [_ Hj], Ej' as [_ Ej']. congruence.
Qed.

(** The vote matrix.  After any list of votes is put in, the matrix returns
    for a voter and a decision the last vote given, the votes of a voter and of
    a decision are exactly those entries, and a vote is refused exactly when
    the voter or the decision is not in the matrix. *)
Theorem vote_matrix_spec voters decisions (l : list (Address * DecisionId * f64)) m :
  NoDup voters → NoDup decisions →
  try_fold (fun m e => set_vote m e.1.1 e.1.2 e.2) (SparseVoteMatrix_new voters decisions) l = Ok m →
  (∀ v d, matrix_get_vote m v d = (list_to_map (rev l) : gmap _ _) !! (v, d)) ∧
  (∀ v d, get_voter_votes m v !! d = matrix_get_vote m v d) ∧
  (∀ v d, get_decision_votes m d !! v = matrix_get_vote m v d) ∧
  (∀ v d x, is_ok (set_vote m v d x) = bool_decide (v ∈ voters) && bool_decide (d ∈ decisions)).
Proof.
  intros Hv Hd Hf.
  pose (P (seen : list (Address * DecisionId * f64)) m := matrix_ok m ∧
      sm_voter_indices m = index_map 0 voters ∅ ∧ sm_decision_indices m = index_map 0 decisions ∅ ∧
      ∀ v d, matrix_get_vote m v d = (list_to_map (rev seen) : gmap _ _) !! (v, d)).
  unshelve epose proof (try_fold_inv P _ _ _ _ _ _ Hf) as (Hm & Hvi & Hdi & Hget).
  - split; [by apply new_matrix_ok|]. split_and!; try done. intros v d. unfold matrix_get_vote. simpl.
    rewrite lookup_empty. destruct (index_map 0 voters ∅ !! v); simpl; [|done].
    by destruct (index_map 0 decisions ∅ !! d).
  - intros seen c [[v d] x] c' (Hc & Hcv & Hcd & Hcg) _ Hset. simpl in Hset.
    destruct (set_vote_ok _ _ _ _ _ Hc Hset) as (Hc' & Hv' & Hd' & _).
    split; [done|]. split; [congruence|]. split; [congruence|]. intros v' d'.
    rewrite (matrix_get_vote_set _ _ _ _ _ _ _ Hc Hset), Hcg, rev_app_distr. simpl.
    case_bool_decide as He; [by rewrite He, lookup_insert_eq|]. by rewrite lookup_insert_ne.
  - assert (∀ {A} `{Countable A} (ks : list A) (x : A), NoDup ks →
      bool_decide (is_Some (index_map 0 ks ∅ !! x)) = bool_decide (x ∈ ks)) as Hidx.
    { intros A ?? ks x Hnd. apply bool_decide_ext. split.
      - intros [k [[_ Hk]|[_ Hk]]%index_map_lookup]; [by eapply list_elem_of_lookup_2| |done].
        by rewrite lookup_empty in Hk.
      - intros [n Hn]%list_elem_of_lookup. exists (Z.of_nat n). apply index_map_lookup; [done|].
        left. split; [lia|]. by rewrite Z.sub_0_r, Nat2Z.id. }
    split_and!; [done|intros; by apply get_voter_votes_spec|intros; by apply get_decision_votes_spec|].
    intros v d x. rewrite <- (Hidx _ _ _ voters v Hv), <- (Hidx _ _ _ decisions d Hd), <- Hvi, <- Hdi.
    unfold set_vote. destruct (sm_voter_indices m !! v); simpl; [|done].
    by destruct (sm_decision_indices m !! d).
Qed.

Lemma vote_matrix_spec_witness :
  ∃ m, try_fold (fun m e => set_vote m e.1.1 e.1.2 e.2)
         (SparseVoteMatrix_new [[1]; [2]] [sample_decision_id])
         [([2], sample_decision_id, f64_one); ([2], sample_decision_id, f64_half)] = Ok m ∧
    matrix_get_vote m [2] sample_decision_id = Some f64_half ∧
    get_voter_votes m [1] !! sample_decision_id = None.
Proof.
  eexists. split; [reflexivity|].
  edestruct (vote_matrix_spec [[1]; [2]] [sample_decision_id]
    [([2], sample_decision_id, f64_one); ([2], sample_decision_id, f64_half)])
    as (Hget & Hv & _); [|apply NoDup_singleton|reflexivity|].
  - apply NoDup_cons. split; [|apply NoDup_singleton]. rewrite list_elem_of_singleton. discriminate.
  - rewrite Hv, !Hget. split; reflexivity.
Defined.

End Matrix.

(** ** Votes of addresses that no longer hold reputation *)

Section LostReputation.
Context (run_consensus : SparseVoteMatrix → gmap Address f64 → gset DecisionId →
  gmap DecisionId Z → result VotingMathError DetailedConsensusResult).

Definition vote_error : Error := InvalidTransaction "Failed to set vote in matrix".

Lemma vote_step_cases m e :
  (∃ m', vote_step m e = Ok m' ∧ sm_voter_indices m' = sm_voter_indices m) ∨
  vote_step m e = Err vote_error.
Proof.
  unfold vote_step, set_vote. destruct (to_float_opt (ve_value e.2)); [|left; eauto].
  destruct (sm_voter_indices m !! vk_voter e.1); simpl; [|by right].
  destruct (sm_decision_indices m !! vk_decision e.1); simpl; [left; eauto|by right].
Qed.

Lemma vote_steps_fail l m e :
  e ∈ l → is_Some (to_float_opt (ve_value e.2)) → sm_voter_indices m !! vk_voter e.1 = None →
  try_fold vote_step m l = Err vote_error.
Proof.
  revert m. induction l as [|x l IH]; intros m Hin Hval Hvoter; [by apply not_elem_of_nil in Hin|].
  simpl. apply elem_of_cons in Hin as [<-|Hin].
  - unfold vote_step, set_vote. destruct Hval as [v ->]. rewrite Hvoter. done.
  - destruct (vote_step_cases m x) as [(m' & -> & Hidx)| ->]; [|done].
    apply IH; [done|done|by rewrite Hidx].
Qed.

(** C35: a vote of an address without reputation.  In a period without outcomes,
    while the reputations held add up to more than zero, if one vote that is not
    an abstention comes from an address that holds no reputation when the period
    closes, the consensus of the period fails with an error whatever the other
    votes are. *)
Theorem consensus_fails_without_reputation vdb reps ddb period ts height k e :
  get_consensus_outcomes_for_period vdb (vp_id period) = ∅ →
  get_votes_for_period vdb (vp_id period) !! k = Some e → is_Some (to_float_opt (ve_value e)) →
  get_all_reputations reps !! vk_voter k = None → get_all_reputations reps ≠ ∅ →
  f64_le (reputation_sum (get_all_reputations reps)) f64_zero = false →
  compute_consensus run_consensus vdb reps ddb period ts height = Err vote_error.
Proof.
  intros Hout Hvote Hval Hrep Hne Hsum. unfold compute_consensus.
  rewrite (bool_decide_true _ Hout). cbn [negb].
  rewrite bool_decide_false by (intros He; rewrite He in Hvote; by rewrite lookup_empty in Hvote).
  rewrite (bool_decide_false _ Hne), Hsum. cbn [orb].
  rewrite (vote_steps_fail _ _ (k, e)); [done|by apply elem_of_map_to_list|done|].
  simpl. destruct (index_map 0 _ ∅ !! vk_voter k) as [i|] eqn:Ei; [|done].
  apply index_map_lookup in Ei; [|apply db_iter_keys_NoDup].
  destruct Ei as [[_ Hl]|[_ Hl]]; [|by rewrite lookup_empty in Hl].
  apply list_elem_of_lookup_2, list_elem_of_fmap in Hl as ([a rep] & Ha & Hin%elem_of_db_iter).
  simpl in *. congruence.
Qed.

End LostReputation.

(** Address 3 voted and then gave its reputation away. *)
Lemma consensus_fails_without_reputation_witness :
  compute_consensus no_oracle (sample_votes [sample_vote 1 1; sample_vote 1 3]) sample_reputations
    sample_dbs sample_period 99 12 = Err vote_error.
Proof.
  apply (consensus_fails_without_reputation no_oracle
    (sample_votes [sample_vote 1 1; sample_vote 1 3]) sample_reputations sample_dbs sample_period 99 12
    {| vk_period := 1; vk_voter := [3]; vk_decision := sample_decision_id |}
    {| ve_value := VBinary true; ve_timestamp := 0; ve_block_height := 0 |}).
  - vm_compute. reflexivity.
  - vm_compute. reflexivity.
  - by exists f64_one.
  - vm_compute. reflexivity.
  - intros H. apply (f_equal size) in H. vm_compute in H. discriminate.
  - vm_compute. reflexivity.
Defined.
