(* ===== verification/Oracle.v ===== *)
(** * The oracle

    Model of src/lib/math/voting/oracle.rs: from the votes of a period and the
    reputations of the voters to the outcome of every decision and the new
    reputations.  Missing votes are filled with the provisional outcome, the
    first principal component of the filled matrix scores the voters, the
    scores are blended with participation and with the old reputation, and the
    outcomes are the means and medians under the result.

    The matrices are those of the linear algebra crate: their products, sums and
    their singular value decomposition are the parameter [LinearAlgebra], of
    which only the shapes of the results and the sign of a sum are assumed.
    Everything done cell by cell is written out.  An index out of range, or an
    operation on vectors of different lengths, is the error [MathPanicked]. *)

From stdpp Require Import base numbers list strings gmap.
From Stdlib Require Import SpecFloat.
From S2P Require Import Prelude Float64 SafeMath StateErrors DecisionTypes Voting.

(** ** Vectors and matrices *)

Abbreviation DVector := (list f64).

(** A matrix by rows; without rows it still has a number of columns. *)
Record DMatrix : Type := { dm_ncols : nat; dm_rows : list (list f64) }.

Definition nrows (m : DMatrix) : nat := length (dm_rows m).

Definition dm_wf (m : DMatrix) : Prop := Forall (fun row => length row = dm_ncols m) (dm_rows m).

Class LinearAlgebra : Type := {
  na_sum : DVector → f64;
  na_sum_plus v : Forall (fun x => plus_signed x = true) v → plus_signed (na_sum v) = true;
  na_mean : DVector → f64;
  na_min : DVector → f64;
  na_max : DVector → f64;
  mat_vec : DMatrix → DVector → DVector;
  mat_vec_length m v : length (mat_vec m v) = nrows m;
  mat_mul : DMatrix → DMatrix → DMatrix;
  mat_mul_shape a b : dm_ncols (mat_mul a b) = dm_ncols b ∧ nrows (mat_mul a b) = nrows a ∧ dm_wf (mat_mul a b);
  svd_u : DMatrix → option DMatrix;
  svd_u_shape m u : svd_u m = Some u →
    dm_ncols u = Nat.min (nrows m) (dm_ncols m) ∧ nrows u = nrows m ∧ dm_wf u
}.

(** The order in which a hash table lists the categorical columns. *)
Class ColumnOrder : Type := {
  column_iter : list (nat * Z) → list (nat * Z);
  column_iter_perm l : column_iter l ≡ₚ l
}.

Abbreviation math := (result VotingMathError).

(** [v[i]], and an operation on two vectors of the same length. *)
Definition vec_at {A} (v : list A) (i : nat) : math A := ok_or (v !! i) MathPanicked.
Definition cell (m : DMatrix) (i j : nat) : math f64 := row ← vec_at (dm_rows m) i; vec_at row j.
Definition vec_op (f : f64 → f64 → f64) (a b : DVector) : math DVector :=
  if bool_decide (length a = length b) then Ok (zip_with f a b) else Err MathPanicked.

Definition column (m : DMatrix) (j : nat) : math DVector := try_map (fun row => vec_at row j) (dm_rows m).
Definition transpose (m : DMatrix) : math DMatrix :=
  rows ← try_map (column m) (seq 0 (dm_ncols m));
  Ok {| dm_ncols := nrows m; dm_rows := rows |}.
Definition map_rows (f : DVector → DVector) (m : DMatrix) : DMatrix :=
  {| dm_ncols := dm_ncols m; dm_rows := map f (dm_rows m) |}.

Definition uniform (n : nat) : DVector := replicate n (f64_div f64_one (f64_of_Z (Z.of_nat n))).

Definition BITCOIN_HIVEMIND_NEUTRAL_VALUE : f64 := f64_half.
Definition CONSENSUS_CATCH_TOLERANCE : f64 := f64_dec 2 1.
Definition SVD_NUMERICAL_TOLERANCE : f64 := f64_dec 1 10.
Definition REPUTATION_SMOOTHING_ALPHA : f64 := f64_dec 3 1.
Definition CONSENSUS_PRECISION_DECIMALS : Z := 8.

Definition round_outcome (v : f64) : f64 := round_to_precision v CONSENSUS_PRECISION_DECIMALS.

Definition f64_two : f64 := f64_of_Z 2.

Section Oracle.
Context {LA : LinearAlgebra} {CO : ColumnOrder}.

(** ** Weights, means and medians *)

Definition abs_or_zero (zero_nan : bool) (x : f64) : f64 :=
  if zero_nan && is_nan x then f64_zero else f64_abs x.

(** The products of the crate check the shapes of their arguments. *)
Definition times_vec (m : DMatrix) (v : DVector) : math DVector :=
  if bool_decide (dm_ncols m = length v) then Ok (mat_vec m v) else Err MathPanicked.
Definition times (a b : DMatrix) : math DMatrix :=
  if bool_decide (dm_ncols a = nrows b) then Ok (mat_mul a b) else Err MathPanicked.

Definition normalize_weights (v : DVector) (zero_nan : bool) : DVector :=
  let out := map (abs_or_zero zero_nan) v in
  let out := if f64_eq (na_sum out) f64_zero then map (fun _ => f64_one) out else out in
  map (fun x => f64_div x (na_sum out)) out.

Definition catch_tl (x tolerance : f64) : f64 :=
  if f64_lt x (f64_sub BITCOIN_HIVEMIND_NEUTRAL_VALUE (f64_div tolerance f64_two)) then f64_zero
  else if f64_gt x (f64_add BITCOIN_HIVEMIND_NEUTRAL_VALUE (f64_div tolerance f64_two)) then f64_one
  else BITCOIN_HIVEMIND_NEUTRAL_VALUE.

(** One cell of a weighted mean: the sum, the weight and whether a vote was seen. *)
Definition mean_step (m : DMatrix) (weights : DVector) (j : nat) (acc : f64 * f64 * bool) (i : nat)
  : math (f64 * f64 * bool) :=
  vote ← cell m i j;
  if is_nan vote then Ok acc else
  weight ← vec_at weights i;
  let '(weighted_sum, total_weight, _) := acc in
  Ok (f64_add weighted_sum (f64_mul vote weight), f64_add total_weight weight, true).

Definition column_mean (m : DMatrix) (weights : DVector) (j : nat) : math (f64 * bool) :=
  '(weighted_sum, total_weight, has_votes) ←
    try_fold (mean_step m weights j) (f64_zero, f64_zero, false) (seq 0 (nrows m));
  Ok (if f64_gt total_weight f64_zero then f64_div weighted_sum total_weight
      else BITCOIN_HIVEMIND_NEUTRAL_VALUE, has_votes).

Definition compute_weighted_column_means (m : DMatrix) (weights : DVector) : math (DVector * list bool) :=
  means ← try_map (column_mean m weights) (seq 0 (dm_ncols m));
  Ok (map fst means, map snd means).

Fixpoint median_loop (half_weight cumulative : f64) (sorted : list (f64 * f64)) : option f64 :=
  match sorted with
  | [] => None
  | (value, weight) :: rest =>
      let cumulative := f64_add cumulative weight in
      if f64_ge cumulative half_weight then
        match rest with
        | (next, _) :: _ =>
            if f64_lt (f64_abs (f64_sub cumulative half_weight)) (f64_dec 1 10)
            then Some (f64_div (f64_add value next) f64_two) else Some value
        | [] => Some value
        end
      else median_loop half_weight cumulative rest
  end.

Definition weighted_median (values weights : DVector) : math f64 :=
  _ ← bail_if (negb (bool_decide (length values = length weights)))
        (DimensionMismatch (length values) (length weights));
  _ ← bail_if (bool_decide (length values = 0%nat)) EmptyMatrix;
  let sorted := sort_by (fun a b => safe_cmp_f64 a.1 b.1) (zip values weights) in
  let total_weight := f64_sum weights in
  _ ← bail_if (f64_le total_weight f64_zero) (InvalidReputation "zero total weight in weighted_median");
  match median_loop (f64_div total_weight f64_two) f64_zero sorted with
  | Some v => Ok v
  | None => ok_or (fst <$> last sorted) MathPanicked
  end.

(** Scores above the median move half way towards it. *)
Definition reflect (median x : f64) : f64 :=
  let reflection := f64_sub x median in
  if f64_gt reflection f64_zero then f64_sub x (f64_mul reflection f64_half) else x.

Definition score_reflect (component previous_reputation : DVector) : math DVector :=
  if bool_decide (length component ≤ 2)%nat then Ok component else
  median_factor ← weighted_median component previous_reputation;
  Ok (map (reflect median_factor) component).

(** ** The first principal component *)

Definition canonical_sign (v : DVector) : DVector :=
  match list_find (fun x => f64_eq x f64_zero = false) v with
  | Some (_, x) => if f64_lt x f64_zero then map f64_neg v else v
  | None => v
  end.

Definition weighted_prin_comp (x : DMatrix) (weights : option DVector) : math (DVector * DVector) :=
  weights ← match weights with
            | Some w => _ ← bail_if (negb (bool_decide (length w = nrows x)))
                              (DimensionMismatch (nrows x) (length w)); Ok w
            | None => Ok (normalize_weights (replicate (nrows x) f64_one) true)
            end;
  let total_weight := na_sum weights in
  _ ← bail_if (f64_le total_weight f64_zero) (InvalidReputation "Total weight is non-positive");
  xt ← transpose x;
  mean ← times_vec xt weights;
  let weighted_mean := map (fun v => f64_div v total_weight) mean in
  rows ← try_map (fun row => vec_op f64_sub row weighted_mean) (dm_rows x);
  let centered := {| dm_ncols := dm_ncols x; dm_rows := rows |} in
  let weighted_centered :=
    {| dm_ncols := dm_ncols x;
       dm_rows := zip_with (fun row w => map (fun v => f64_mul v w) row) rows weights |} in
  ct ← transpose centered;
  product ← times ct weighted_centered;
  let wcvm := map_rows (map (fun v => f64_div v total_weight)) product in
  u ← ok_or (svd_u wcvm) (NumericalError "SVD failed to compute U matrix");
  first ← column u 0;
  let first_loading := canonical_sign first in
  first_score ← times_vec centered first_loading;
  Ok (first_score, first_loading).

(** ** Rewarding the voters *)

Record RewardWeightsResult : Type := {
  rw_first_loading : DVector;
  rw_old_rep : DVector;
  rw_smooth_rep : DVector
}.

(** The distance of the votes of a row from the provisional outcomes. *)
Definition distance_row (outcomes : DVector) (row : DVector) : DVector :=
  imap (fun j vote => match outcomes !! j with
                      | Some o => if is_nan vote then f64_zero else f64_abs (f64_sub vote o)
                      | None => f64_zero
                      end) row.

Definition weighted_row_sum (mainstream row : DVector) : f64 :=
  foldl (fun sum p => f64_add sum (f64_mul p.1 p.2)) f64_zero (zip row mainstream).

Definition square (x : f64) : f64 := f64_mul x x.

(** How far the voters are from complying, turned into scores. *)
Definition compliance (vote_matrix : DMatrix) (outcomes first_loading : DVector) : DVector :=
  let mainstream :=
    normalize_weights (map (fun x => if f64_gt x f64_EPSILON then f64_div f64_one x else f64_zero)
                         (map f64_abs first_loading)) true in
  let non_compliance := map (weighted_row_sum mainstream) (map (distance_row outcomes) (dm_rows vote_matrix)) in
  let max_non_compliance := na_max non_compliance in
  normalize_weights (map (fun x => f64_abs (f64_sub x max_non_compliance)) non_compliance) true.

Definition squared_distance (score compliance_scores : DVector) : math f64 :=
  difference ← vec_op f64_sub (normalize_weights score false) compliance_scores;
  Ok (f64_sum (map square difference)).

(** The reputation the scores alone would give. *)
Definition new_reputation (vote_matrix : DMatrix) (old_rep first_score first_loading : DVector) : math DVector :=
  if f64_eq (na_sum (map f64_abs first_score)) f64_zero then Ok old_rep else
  let score_min := na_min first_score in
  let score_max := na_max first_score in
  let option1 := map (fun x => f64_add x (f64_abs score_min)) first_score in
  let option2 := map (fun x => f64_abs (f64_sub x score_max)) first_score in
  new_score_1 ← score_reflect option1 old_rep;
  new_score_2 ← score_reflect option2 old_rep;
  '(raw_outcomes, _) ← compute_weighted_column_means vote_matrix old_rep;
  let old_rep_outcomes := map (fun x => catch_tl x CONSENSUS_CATCH_TOLERANCE) raw_outcomes in
  let compliance_scores := compliance vote_matrix old_rep_outcomes first_loading in
  choice1 ← squared_distance new_score_1 compliance_scores;
  choice2 ← squared_distance new_score_2 compliance_scores;
  let ref_ind := f64_sub choice1 choice2 in
  let rep_mean := na_mean old_rep in
  if f64_gt rep_mean f64_zero then
    let scaled_rep := map (fun x => f64_div x rep_mean) old_rep in
    rep1 ← vec_op f64_mul new_score_1 scaled_rep;
    rep2 ← vec_op f64_mul new_score_2 scaled_rep;
    Ok (normalize_weights (if f64_lt ref_ind f64_zero then rep1 else rep2) false)
  else Ok old_rep.

(** [a * s + b * (1.0 - s)], the two blends of the end. *)
Definition blend (a b : DVector) (s : f64) : math DVector :=
  vec_op f64_add (map (fun x => f64_mul x s) a) (map (fun x => f64_mul x (f64_sub f64_one s)) b).

Definition get_reward_weights (vote_matrix : DMatrix) (rep : option DVector) (alpha : f64)
  (voter_participation : DVector) (participation_total : f64) : math RewardWeightsResult :=
  let num_voters := nrows vote_matrix in
  let old_rep := default (uniform num_voters) rep in
  '(first_score, first_loading) ← weighted_prin_comp vote_matrix (Some old_rep);
  new_rep ← new_reputation vote_matrix old_rep first_score first_loading;
  let old_rep_normalized := normalize_weights old_rep true in
  let participation_sum := na_sum voter_participation in
  let p_rel := if f64_gt participation_sum f64_EPSILON
               then map (fun x => f64_div x participation_sum) voter_participation
               else uniform num_voters in
  r_blend ← blend new_rep p_rel participation_total;
  smooth_rep ← blend r_blend old_rep_normalized alpha;
  Ok {| rw_first_loading := first_loading; rw_old_rep := old_rep; rw_smooth_rep := smooth_rep |}.

(** ** Filling the missing votes *)

Record FillNaResult : Type := {
  fn_filled : DMatrix;
  fn_has_votes : list bool;
  fn_voter_participation : DVector;
  fn_participation_total : f64
}.

Definition votes_cast (row : DVector) : nat := length (filter (fun x => is_nan x = false) row).

(** [a as f64 / b as f64], zero when there is nothing to count. *)
Definition ratio (a b : nat) : f64 :=
  if bool_decide (b = 0%nat) then f64_zero else f64_div (f64_of_Z (Z.of_nat a)) (f64_of_Z (Z.of_nat b)).

Definition fill_row (decision_outcomes row : DVector) : math DVector :=
  try_map (fun e => if is_nan e.2 then vec_at decision_outcomes e.1 else Ok e.2) (imap pair row).

Definition fill_na (m_na : DMatrix) (rep : option DVector) (catch_p : f64) : math FillNaResult :=
  let num_voters := nrows m_na in
  let num_decisions := dm_ncols m_na in
  let casts := map votes_cast (dm_rows m_na) in
  let participation := map (fun cast => ratio cast num_decisions) casts in
  let participation_total := ratio (sum_list casts) (num_voters * num_decisions) in
  if existsb (existsb is_nan) (dm_rows m_na) then
    '(raw_outcomes, votes_present) ←
      compute_weighted_column_means m_na (default (uniform num_voters) rep);
    rows ← try_map (fill_row (map (fun x => catch_tl x catch_p) raw_outcomes)) (dm_rows m_na);
    Ok {| fn_filled := {| dm_ncols := num_decisions; dm_rows := rows |}; fn_has_votes := votes_present;
          fn_voter_participation := participation; fn_participation_total := participation_total |}
  else
    Ok {| fn_filled := m_na; fn_has_votes := replicate num_decisions true;
          fn_voter_participation := participation; fn_participation_total := participation_total |}.

(** ** Outcomes *)

Record FactoryResult : Type := {
  fa_agents : RewardWeightsResult;
  fa_decisions : DVector;
  fa_has_votes : list bool;
  fa_certainty : f64;
  fa_first_loading : DVector
}.

(** The votes of a column that are no NaN, with the reputations of their voters. *)
Definition valid_step (smooth_rep : DVector) (acc : list (f64 * f64)) (e : nat * f64) : math (list (f64 * f64)) :=
  if is_nan e.2 then Ok acc else weight ← vec_at smooth_rep e.1; Ok (acc ++ [(e.2, weight)]).

Definition scaled_outcome (filled : DMatrix) (smooth_rep : DVector) (j : nat) : math f64 :=
  col_values ← column filled j;
  valid ← try_fold (valid_step smooth_rep) [] (imap pair col_values);
  if bool_decide (valid = []) then Ok BITCOIN_HIVEMIND_NEUTRAL_VALUE else
  Ok (match weighted_median (map fst valid) (map snd valid) with
      | Ok v => v
      | Err _ => BITCOIN_HIVEMIND_NEUTRAL_VALUE
      end).

Definition binary_outcome (filled : DMatrix) (smooth_rep : DVector) (catch_p : f64) (j : nat) : math f64 :=
  '(raw_outcome, _) ← column_mean filled smooth_rep j;
  Ok (catch_tl raw_outcome catch_p).

Definition certainty_step (filled : DMatrix) (smooth_rep : DVector) (outcome : f64) (j : nat) (sum : f64) (i : nat)
  : math f64 :=
  vote ← cell filled i j;
  if f64_lt (f64_abs (f64_sub outcome vote)) SVD_NUMERICAL_TOLERANCE
  then r ← vec_at smooth_rep i; Ok (f64_add sum r) else Ok sum.

Definition factory (m0 : DMatrix) (rep : option DVector) (catch_p : option f64) (scaled_indices : option (list bool))
  : math FactoryResult :=
  let catch_p := default CONSENSUS_CATCH_TOLERANCE catch_p in
  let num_decisions := dm_ncols m0 in
  _ ← bail_if (bool_decide (num_decisions = 0%nat) || bool_decide (nrows m0 = 0%nat)) EmptyMatrix;
  let scaled_flags := default (replicate num_decisions false) scaled_indices in
  fill ← fill_na m0 rep catch_p;
  let filled := fn_filled fill in
  agents ← get_reward_weights filled rep REPUTATION_SMOOTHING_ALPHA (fn_voter_participation fill)
             (fn_participation_total fill);
  let smooth_rep := rw_smooth_rep agents in
  decisions ← try_map (fun j => if default false (scaled_flags !! j) then scaled_outcome filled smooth_rep j
                                else binary_outcome filled smooth_rep catch_p j) (seq 0 num_decisions);
  certainty ← try_map (fun e => try_fold (certainty_step filled smooth_rep e.2 e.1) f64_zero (seq 0 (nrows filled)))
                (imap pair decisions);
  Ok {| fa_agents := agents; fa_decisions := decisions; fa_has_votes := fn_has_votes fill;
        fa_certainty := if bool_decide (certainty = []) then f64_zero
                        else f64_div (f64_sum certainty) (f64_of_Z (Z.of_nat (length certainty)));
        fa_first_loading := rw_first_loading agents |}.

(** ** Plurality of categorical decisions *)

(** The option a cell of the matrix stands for. *)
Definition option_of (val : f64) : Z := f64_as_u16 (f64_round val).

Definition count_vote (option_count : Z) (counts : gmap Z Z) (val : f64) : gmap Z Z :=
  if is_nan val then counts else
  if option_of val <=? option_count
  then partial_alter (fun n => Some (default 0 n + 1)) (option_of val) counts else counts.

Definition vote_counts (option_count : Z) (values : DVector) : gmap Z Z :=
  foldl (count_vote option_count) ∅ values.

Definition effective_winner (option_count : Z) (counts : gmap Z Z) : Z :=
  let max_count := foldr Z.max 0 (map snd (map_to_list counts)) in
  match filter (fun e => e.2 = max_count) (map_to_list counts) with
  | [(w, _)] => if w <? option_count then w else option_count
  | _ => option_count
  end.

Definition mark_winner (winner : Z) (val : f64) : f64 :=
  if is_nan val then val else if option_of val =? winner then f64_one else f64_zero.

Definition plurality_step (acc : DMatrix * gmap nat (option Z)) (e : nat * Z)
  : math (DMatrix * gmap nat (option Z)) :=
  let '(m, results) := acc in
  let '(col_idx, option_count) := e in
  values ← column m col_idx;
  let counts := vote_counts option_count values in
  if bool_decide (counts = ∅) then Ok (m, <[col_idx := None]> results) else
  let winner := effective_winner option_count counts in
  Ok (map_rows (alter (mark_winner winner) col_idx) m, <[col_idx := Some winner]> results).

(** The columns come in the order in which a hash table lists them. *)
Definition resolve_categorical_plurality (m : DMatrix) (columns : list (nat * Z))
  : math (DMatrix * gmap nat (option Z)) :=
  try_fold plurality_step (m, ∅) columns.

(** ** The consensus *)

Definition weight_of (weights : gmap Address f64) (voter : Address) : f64 := default f64_zero (weights !! voter).

Definition dense_votes (m : SparseVoteMatrix) : DMatrix :=
  {| dm_ncols := length (sm_decisions m);
     dm_rows := map (fun voter => map (fun id => default S754_nan (matrix_get_vote m voter id)) (sm_decisions m))
                  (sm_voters m) |}.

Definition columns_of (m : SparseVoteMatrix) (categorical : gmap DecisionId Z) : list (nat * Z) :=
  omap (fun e => (fun count => (e.1, count)) <$> categorical !! e.2) (imap pair (sm_decisions m)).

Definition rep_vector (m : SparseVoteMatrix) (weights : gmap Address f64) : DVector :=
  let v := map (weight_of weights) (sm_voters m) in
  let rep_sum := na_sum v in
  if f64_gt rep_sum f64_zero then map (fun x => f64_div x rep_sum) v else uniform (length (sm_voters m)).

(** The outcome of a decision: of its plurality, or of the matrix. *)
Definition decision_outcome (r : FactoryResult) (results : gmap nat (option Z)) (option_count : Z) (j : nat)
  : math (option f64) :=
  match results !! j with
  | Some winning_option =>
      Ok (Some (match winning_option with
                | Some w => if w <? option_count then f64_of_Z w else BITCOIN_HIVEMIND_NEUTRAL_VALUE
                | None => BITCOIN_HIVEMIND_NEUTRAL_VALUE
                end))
  | None =>
      has ← vec_at (fa_has_votes r) j;
      if has : bool then d ← vec_at (fa_decisions r) j; Ok (Some (round_outcome d)) else Ok None
  end.

Definition outcome_step (r : FactoryResult) (results : gmap nat (option Z)) (categorical : gmap DecisionId Z)
  (acc : gmap DecisionId (option f64) * gmap DecisionId (option Z)) (e : nat * DecisionId)
  : math (gmap DecisionId (option f64) * gmap DecisionId (option Z)) :=
  outcome ← decision_outcome r results (default 0 (categorical !! e.2)) e.1;
  Ok (<[e.2 := outcome]> acc.1,
      match results !! e.1 with Some w => <[e.2 := w]> acc.2 | None => acc.2 end).

Definition reputation_step (smooth_rep : DVector) (scale_factor : f64)
  (acc : gmap Address f64 * option (Address * f64)) (e : nat * Address)
  : math (gmap Address f64 * option (Address * f64)) :=
  smooth ← vec_at smooth_rep e.1;
  let scaled := round_reputation (f64_mul smooth scale_factor) in
  Ok (<[e.2 := scaled]> acc.1,
      match acc.2 with
      | Some (_, best) => if f64_gt scaled best then Some (e.2, scaled) else acc.2
      | None => Some (e.2, scaled)
      end).

(** What rounding lost goes to the first of the most reputable voters. *)
Definition adjust_residual (original_total : f64) (updated : gmap Address f64) (max_voter : option (Address * f64))
  : gmap Address f64 :=
  let residual := f64_sub original_total (reputation_sum updated) in
  match max_voter with
  | Some (voter, _) =>
      if f64_gt (f64_abs residual) f64_zero
      then alter (fun rep => round_reputation (f64_add rep residual)) voter updated else updated
  | None => updated
  end.

Definition outlier_step (r : RewardWeightsResult) (acc : list Address) (e : nat * Address) : math (list Address) :=
  old_rep ← vec_at (rw_old_rep r) e.1;
  new_rep ← vec_at (rw_smooth_rep r) e.1;
  Ok (if f64_lt new_rep (f64_mul old_rep f64_half) then acc ++ [e.2] else acc).

Definition run_consensus (m : SparseVoteMatrix) (weights : gmap Address f64) (scaled : gset DecisionId)
  (categorical : gmap DecisionId Z) : math DetailedConsensusResult :=
  let voters := imap pair (sm_voters m) in
  let decisions := imap pair (sm_decisions m) in
  let scaled_indices := map (fun id => bool_decide (id ∈ scaled)) (sm_decisions m) in
  '(dense, results) ← resolve_categorical_plurality (dense_votes m) (column_iter (columns_of m categorical));
  r ← factory dense (Some (rep_vector m weights)) (Some CONSENSUS_CATCH_TOLERANCE) (Some scaled_indices);
  '(outcomes, winners) ← try_fold (outcome_step r results categorical) (∅, ∅) decisions;
  let original_total := f64_sum (map (weight_of weights) (sm_voters m)) in
  let consensus_total := na_sum (rw_smooth_rep (fa_agents r)) in
  let scale_factor :=
    if f64_gt consensus_total f64_zero && f64_gt original_total f64_zero
    then f64_div original_total consensus_total
    else f64_mul (f64_of_Z (Z.of_nat (length (sm_voters m)))) BITCOIN_HIVEMIND_NEUTRAL_VALUE in
  '(updated, max_voter) ← try_fold (reputation_step (rw_smooth_rep (fa_agents r)) scale_factor) (∅, None) voters;
  outliers ← try_fold (outlier_step (fa_agents r)) [] voters;
  Ok {| dc_outcomes := outcomes; dc_first_loading := fa_first_loading r; dc_certainty := fa_certainty r;
        dc_updated_reputations := adjust_residual original_total updated max_voter;
        dc_outliers := outliers; dc_categorical_winners := winners |}.

End Oracle.
