(* ===== verification/OracleFacts.v ===== *)
(** * Correctness of the oracle

    The oracle never reads outside a vector or matrix and fails only for the
    reasons it names; categorical decisions are resolved by plurality, in
    whatever order a hash table lists them; the outcomes are of the kind their
    decision asks for; and the new reputations carry no minus sign. *)

From stdpp Require Import base numbers list strings gmap.
From Stdlib Require Import SpecFloat.
From S2P Require Import Prelude Float64 FloatSigns SafeMath StateErrors DecisionTypes Voting Oracle.

Abbreviation plus x := (plus_signed x = true).

(** ** Computations that fail only for a reason *)

Definition expected_error (e : VotingMathError) : Prop :=
  match e with InvalidReputation _ | NumericalError _ => True | _ => False end.

(** [c] gives a value with [P], or fails as expected. *)
Definition gives {A} (P : A → Prop) (c : math A) : Prop :=
  match c with Ok a => P a | Err e => expected_error e end.

Section Gives.
Context {A B : Type}.
Implicit Types (P : A → Prop) (Q : B → Prop).

Lemma gives_bind P Q (c : math A) (f : A → math B) :
  gives P c → (∀ a, P a → gives Q (f a)) → gives Q (c ≫= f).
Proof. destruct c as [a|e]; simpl; auto. Qed.

Lemma gives_weaken P (P' : A → Prop) (c : math A) : gives P c → (∀ a, P a → P' a) → gives P' c.
Proof. destruct c; simpl; auto. Qed.

Lemma gives_try_map (R : A → B → Prop) (f : A → math B) l :
  (∀ a, a ∈ l → gives (R a) (f a)) → gives (fun bs => Forall2 R l bs) (try_map f l).
Proof.
  induction l as [|a l IH]; intros H; simpl; [constructor|].
  pose proof (H a ltac:(left)) as Ha. destruct (f a) as [b|e]; [|done].
  pose proof (IH (fun x Hx => H x ltac:(by right))) as Hl. destruct (try_map f l); [|done]. by constructor.
Qed.

Lemma gives_try_fold Q (f : B → A → math B) l b :
  (∀ b a, a ∈ l → Q b → gives Q (f b a)) → Q b → gives Q (try_fold f b l).
Proof.
  revert b. induction l as [|a l IH]; intros b H Hb; simpl; [done|].
  pose proof (H b a ltac:(left) Hb) as Ha. destruct (f b a); [|done]. apply IH; [|done]. intros ????. apply H; [by right|done].
Qed.

Lemma try_map_total {E} (f : A → result E B) (g : A → B) l :
  (∀ a, a ∈ l → f a = Ok (g a)) → try_map f l = Ok (map g l).
Proof.
  induction l as [|a l IH]; intros H; simpl; [done|]. rewrite H by left. rewrite IH; [done|]. intros; apply H; by right.
Qed.

Lemma try_fold_seq {E} (f : B → nat → result E B) (g : B → A → B) (l : list A) k b :
  (∀ b i a, l !! i = Some a → f b (k + i)%nat = Ok (g b a)) → try_fold f b (seq k (length l)) = Ok (foldl g b l).
Proof.
  revert k b. induction l as [|a l IH]; intros k b H; simpl; [done|].
  pose proof (H b 0%nat a eq_refl) as H0. rewrite Nat.add_0_r in H0. rewrite H0. apply IH.
  intros b' i a' Hi. rewrite Nat.add_succ_comm. by apply (H b' (S i)).
Qed.

End Gives.

Lemma gives_bail b e P : (b = true → expected_error e) → (b = false → P tt) → gives P (bail_if b e).
Proof. destruct b; simpl; auto. Qed.

Lemma gives_at {A} (v : list A) i : (i < length v)%nat → gives (fun x => v !! i = Some x) (vec_at v i).
Proof. intros [x Hx]%lookup_lt_is_Some. unfold vec_at. by rewrite Hx. Qed.

Lemma gives_vec_op f a b : length a = length b →
  gives (fun v => v = zip_with f a b ∧ length v = length a) (vec_op f a b).
Proof. intros H. unfold vec_op. rewrite bool_decide_eq_true_2 by done. simpl. split; [done|]. rewrite length_zip_with. lia. Qed.

(** ** Columns *)

Definition col (m : DMatrix) (j : nat) : DVector := map (fun row => default S754_nan (row !! j)) (dm_rows m).

Lemma col_length m j : length (col m j) = nrows m.
Proof. apply length_map. Qed.

Lemma row_at m j row : dm_wf m → (j < dm_ncols m)%nat → row ∈ dm_rows m → vec_at row j = Ok (default S754_nan (row !! j)).
Proof.
  intros Hw Hj Hr. unfold dm_wf in Hw. rewrite Forall_forall in Hw. specialize (Hw row Hr).
  destruct (lookup_lt_is_Some_2 row j) as [x Hx]; [lia|]. unfold vec_at. by rewrite Hx.
Qed.

Lemma column_ok m j : dm_wf m → (j < dm_ncols m)%nat → column m j = Ok (col m j).
Proof. intros Hw Hj. apply try_map_total. intros row Hr. by apply (row_at m). Qed.

Lemma cell_ok m i j x : dm_wf m → (j < dm_ncols m)%nat → col m j !! i = Some x → cell m i j = Ok x.
Proof.
  unfold col. rewrite list_lookup_fmap. intros Hw Hj Hx. unfold cell.
  destruct (dm_rows m !! i) as [row|] eqn:E; [|done]. simpl in Hx. injection Hx as <-.
  assert (vec_at (dm_rows m) i = Ok row) as -> by (unfold vec_at; by rewrite E). cbn [mbind result_bind].
  apply (row_at m); [done|done|]. by eapply list_elem_of_lookup_2.
Qed.

Lemma transpose_ok m : dm_wf m → ∃ t, transpose m = Ok t ∧ dm_wf t ∧ nrows t = dm_ncols m ∧ dm_ncols t = nrows m.
Proof.
  intros Hw. unfold transpose. rewrite (try_map_total _ (col m)).
  - eexists. split; [done|]. split_and!; [|by unfold nrows; simpl; rewrite length_map, length_seq|done].
    unfold dm_wf. simpl. apply Forall_map, Forall_forall. intros j _. apply col_length.
  - intros j [_ Hj]%elem_of_seq. by apply column_ok.
Qed.

(** ** Means and medians *)

Definition mean_acc (acc : f64 * f64 * bool) (p : f64 * f64) : f64 * f64 * bool :=
  if is_nan p.1 then acc else (f64_add acc.1.1 (f64_mul p.1 p.2), f64_add acc.1.2 p.2, true).

Definition voted (values : DVector) : bool := existsb (fun x => negb (is_nan x)) values.

Lemma mean_acc_flag l acc : snd (foldl mean_acc acc l) = snd acc || voted (map fst l).
Proof.
  revert acc. induction l as [|[x w] l IH]; intros acc; simpl; [by rewrite orb_false_r|].
  rewrite IH. unfold mean_acc. simpl. destruct (is_nan x); simpl; [done|by rewrite orb_true_r].
Qed.

Lemma column_mean_ok m w j : dm_wf m → (j < dm_ncols m)%nat → length w = nrows m →
  ∃ mean, column_mean m w j = Ok (mean, voted (col m j)).
Proof.
  intros Hw Hj Hl. unfold column_mean.
  assert (nrows m = length (zip (col m j) w)) as -> by (rewrite length_zip, col_length; lia).
  rewrite (try_fold_seq _ mean_acc).
  - pose proof (mean_acc_flag (zip (col m j) w) (f64_zero, f64_zero, false)) as Hf.
    rewrite fst_zip in Hf by (rewrite col_length; lia). simpl in Hf.
    destruct (foldl mean_acc _ _) as [[s t] h]. simpl in *. subst. by eexists.
  - intros acc i [x y] [Hx Hy]%lookup_zip_Some. simpl. unfold mean_step. rewrite (cell_ok _ _ _ _ Hw Hj Hx). simpl.
    unfold mean_acc, vec_at. simpl. destruct (is_nan x); [done|]. rewrite Hy. simpl. by destruct acc as [[]].
Qed.

Lemma column_means_ok m w : dm_wf m → length w = nrows m →
  ∃ means flags, compute_weighted_column_means m w = Ok (means, flags) ∧
    length means = dm_ncols m ∧ length flags = dm_ncols m ∧
    (∀ j, (j < dm_ncols m)%nat → flags !! j = Some (voted (col m j))).
Proof.
  intros Hw Hl. unfold compute_weighted_column_means.
  assert (gives (fun l => Forall2 (fun j r => r.2 = voted (col m j)) (seq 0 (dm_ncols m)) l)
            (try_map (column_mean m w) (seq 0 (dm_ncols m)))) as H.
  { apply gives_try_map. intros j [_ Hj]%elem_of_seq. destruct (column_mean_ok m w j Hw Hj Hl) as [mean ->]. done. }
  assert (is_ok (try_map (column_mean m w) (seq 0 (dm_ncols m))) = true) as Hok.
  { rewrite (try_map_total _ (fun j => (run (fst <$> column_mean m w j) f64_zero, voted (col m j)))); [done|].
    intros j [_ Hj]%elem_of_seq. by destruct (column_mean_ok m w j Hw Hj Hl) as [mean ->]. }
  destruct (try_map _ _) as [l|]; [|done]. simpl in *. do 2 eexists. split; [done|].
  pose proof (Forall2_length _ _ _ H) as Hlen. rewrite length_seq in Hlen. rewrite !length_map. split_and!; [lia|lia|].
  intros j Hj. rewrite list_lookup_fmap. destruct (lookup_lt_is_Some_2 l j) as [r Hr]; [lia|].
  destruct (Forall2_lookup_r _ _ _ _ _ H Hr) as (k & Hk & Hv). apply lookup_seq in Hk as [-> _]. by rewrite Hr; simpl; rewrite Hv.
Qed.

(** A value of the list, or the mean of two. *)
Definition middle_of (values : DVector) (v : f64) : Prop :=
  v ∈ values ∨ ∃ a b, a ∈ values ∧ b ∈ values ∧ v = f64_div (f64_add a b) f64_two.

Lemma median_loop_middle half cum l v : median_loop half cum l = Some v → middle_of (map fst l) v.
Proof.
  revert cum. induction l as [|[x w] l IH]; intros cum; simpl; [done|]. destruct (f64_ge _ half).
  - destruct l as [|[y z] l]; [intros [= <-]; left; left|]. destruct (f64_lt _ _).
    + intros [= <-]. right. exists x, y. split_and!; [left|right; left|done].
    + intros [= <-]. left. left.
  - intros [Hv|(a & b & Ha & Hb & ->)]%IH; [left; by right|right]. exists a, b. split_and!; [by right|by right|done].
Qed.

Lemma weighted_median_gives values weights : length values = length weights → values ≠ [] →
  gives (middle_of values) (weighted_median values weights).
Proof.
  intros Hl Hne. unfold weighted_median.
  rewrite (bool_decide_eq_true_2 (length values = length weights)) by done.
  rewrite bool_decide_eq_false_2 by (intros H%nil_length_inv; done).
  cbn [negb bail_if mbind result_bind]. eapply gives_bind; [apply (gives_bail _ _ (fun _ => True)); done|]. intros _ _.
  set (sorted := sort_by _ _).
  assert (map fst sorted ≡ₚ values) as Hp.
  { unfold sorted. rewrite sort_by_perm, fst_zip by lia. done. }
  destruct (median_loop _ _ sorted) as [v|] eqn:E; simpl.
  - apply median_loop_middle in E as [Hv|(a & b & Ha & Hb & ->)].
    + left. by rewrite <- Hp.
    + right. exists a, b. by rewrite <- Hp.
  - destruct (last sorted) as [[x w]|] eqn:El; simpl.
    + left. rewrite <- Hp. apply last_Some_elem_of in El. by apply (list_elem_of_fmap_2 fst) in El.
    + apply last_None in El. rewrite El in Hp. simpl in Hp. by apply Permutation_nil_l in Hp.
Qed.

Lemma score_reflect_gives component rep : length component = length rep →
  gives (fun v => length v = length component) (score_reflect component rep).
Proof.
  intros Hl. unfold score_reflect. case_bool_decide; [done|].
  eapply gives_bind; [apply weighted_median_gives; [done|intros ->; simpl in *; lia]|].
  intros v _. simpl. apply length_map.
Qed.

Definition catch_value (x : f64) : Prop := x = f64_zero ∨ x = f64_half ∨ x = f64_one.

Lemma catch_tl_value x t : catch_value (catch_tl x t).
Proof. unfold catch_tl, catch_value, BITCOIN_HIVEMIND_NEUTRAL_VALUE. destruct (f64_lt _ _); [by left|]. destruct (f64_gt _ _); auto. Qed.

Lemma round_catch_value x : catch_value x → round_outcome x = x.
Proof. intros [->|[->| ->]]; vm_compute; reflexivity. Qed.

Section Oracle.
Context {LA : LinearAlgebra} {CO : ColumnOrder}.

Lemma normalize_length v z : length (normalize_weights v z) = length v.
Proof. unfold normalize_weights. rewrite length_map. destruct (f64_eq _ _); by rewrite !length_map. Qed.

Lemma normalize_weights_plus v z : Forall (fun x => plus x) (normalize_weights v z).
Proof.
  unfold normalize_weights. set (out := map (abs_or_zero z) v).
  assert (Forall (fun x => plus x) out) as Ho.
  { apply Forall_map, Forall_forall. intros x _. unfold abs_or_zero. destruct (z && is_nan x); [done|apply abs_plus]. }
  clearbody out. assert (∀ o, Forall (fun x => plus x) o → Forall (fun x => plus x) (map (fun x => f64_div x (na_sum o)) o)) as H.
  { intros o Hp. apply Forall_map. pose proof (na_sum_plus o Hp) as Hs. eapply Forall_impl; [exact Hp|].
    intros x Hx. by apply div_plus. }
  apply H. destruct (f64_eq _ _); [|done]. apply Forall_map, Forall_forall. done.
Qed.

Lemma canonical_sign_length v : length (canonical_sign v) = length v.
Proof. unfold canonical_sign. destruct (list_find _ _) as [[]|]; [|done]. destruct (f64_lt _ _); [apply length_map|done]. Qed.

Lemma times_vec_gives m v : dm_ncols m = length v → gives (fun r => length r = nrows m) (times_vec m v).
Proof. intros H. unfold times_vec. rewrite bool_decide_eq_true_2 by done. apply mat_vec_length. Qed.

Lemma prin_comp_gives m w : dm_wf m → length w = nrows m → (0 < dm_ncols m)%nat →
  gives (fun r => length r.1 = nrows m ∧ length r.2 = dm_ncols m) (weighted_prin_comp m (Some w)).
Proof.
  intros Hw Hl Hn. unfold weighted_prin_comp. rewrite bool_decide_eq_true_2 by done. cbn [negb bail_if mbind result_bind].
  eapply gives_bind; [apply (gives_bail _ _ (fun _ => True)); done|]. intros _ _.
  destruct (transpose_ok m Hw) as (t & -> & Ht & Htr & Htc). cbn [mbind result_bind].
  eapply gives_bind; [apply times_vec_gives; congruence|]. intros mean Hmean. cbv zeta.
  eapply gives_bind.
  { apply (gives_try_map (fun row v => length v = length row)). intros row Hrow. eapply gives_weaken.
    - apply gives_vec_op. rewrite length_map, Hmean, Htr. unfold dm_wf in Hw. rewrite Forall_forall in Hw. by apply Hw.
    - intros v [_ Hv]. exact Hv. }
  intros rows Hrows. cbv beta in Hrows. pose proof (Forall2_length _ _ _ Hrows) as Hrl.
  set (centered := {| dm_ncols := dm_ncols m; dm_rows := rows |}).
  assert (dm_wf centered) as Hcw.
  { unfold dm_wf, centered. simpl. apply Forall_forall. intros v Hv. apply list_elem_of_lookup_1 in Hv as [i Hi].
    destruct (Forall2_lookup_r _ _ _ _ _ Hrows Hi) as (row & Hr & ->). unfold dm_wf in Hw. rewrite Forall_forall in Hw.
    apply Hw. by eapply list_elem_of_lookup_2. }
  assert (nrows centered = nrows m) as Hcn by (unfold nrows; simpl; lia).
  destruct (transpose_ok centered Hcw) as (ct & -> & Hct & Hctr & Hctc). cbn [mbind result_bind].
  unfold times. rewrite bool_decide_eq_true_2; [|rewrite Hctc; unfold nrows; simpl; rewrite length_zip_with; unfold nrows in *; lia].
  cbn [mbind result_bind]. set (wc := {| dm_ncols := _; dm_rows := zip_with _ _ _ |}).
  destruct (mat_mul_shape ct wc) as (Hc & Hr & Hp). set (wcvm := map_rows _ _).
  destruct (svd_u wcvm) as [u|] eqn:Eu; [|done]. cbn [ok_or mbind result_bind].
  destruct (svd_u_shape wcvm u Eu) as (Huc & Hur & Huw).
  assert (nrows wcvm = dm_ncols m) as Hwr by (unfold wcvm, map_rows, nrows; simpl; rewrite length_map; fold (nrows (mat_mul ct wc)); rewrite Hr, Hctr; done).
  assert (dm_ncols wcvm = dm_ncols m) as Hwc by (unfold wcvm, map_rows; simpl; rewrite Hc; done).
  rewrite (column_ok u 0 Huw) by (rewrite Huc, Hwr, Hwc; lia). cbn [mbind result_bind].
  eapply gives_bind; [apply times_vec_gives; rewrite canonical_sign_length, col_length, Hur, Hwr; done|].
  intros score Hs. simpl. rewrite canonical_sign_length, col_length. split; [by rewrite Hs|by rewrite Hur].
Qed.

(** ** Rewards *)

Lemma compliance_length m outs loading : length (compliance m outs loading) = nrows m.
Proof. unfold compliance. rewrite normalize_length, !length_map. done. Qed.

Lemma squared_distance_gives score c : length score = length c → gives (fun _ => True) (squared_distance score c).
Proof. intros H. unfold squared_distance. eapply gives_bind; [apply gives_vec_op; by rewrite normalize_length|]. done. Qed.

Lemma new_reputation_gives m old score loading : dm_wf m → length old = nrows m → length score = nrows m →
  gives (fun v => length v = nrows m ∧ (Forall (fun x => plus x) old → Forall (fun x => plus x) v)) (new_reputation m old score loading).
Proof.
  intros Hw Ho Hs. unfold new_reputation. destruct (f64_eq _ _); [done|]. cbv zeta.
  eapply gives_bind; [apply score_reflect_gives; rewrite length_map; congruence|]. intros s1 H1.
  eapply gives_bind; [apply score_reflect_gives; rewrite length_map; congruence|]. intros s2 H2.
  rewrite length_map in H1, H2.
  destruct (column_means_ok m old Hw Ho) as (means & flags & -> & _). cbn [mbind result_bind].
  eapply gives_bind; [apply squared_distance_gives; rewrite compliance_length; congruence|]. intros c1 _.
  eapply gives_bind; [apply squared_distance_gives; rewrite compliance_length; congruence|]. intros c2 _.
  destruct (f64_gt _ _); [|done].
  eapply gives_bind; [apply gives_vec_op; rewrite length_map; congruence|]. intros r1 [_ Hr1].
  eapply gives_bind; [apply gives_vec_op; rewrite length_map; congruence|]. intros r2 [_ Hr2].
  simpl. rewrite normalize_length. split; [destruct (f64_lt _ _); congruence|]. intros _. apply normalize_weights_plus.
Qed.

Lemma blend_gives a b s : length a = length b →
  gives (fun v => length v = length a ∧
    (Forall (fun x => plus x) a → Forall (fun x => plus x) b → plus s → plus (f64_sub f64_one s) → Forall (fun x => plus x) v))
    (blend a b s).
Proof.
  intros H. unfold blend. eapply gives_weaken; [apply gives_vec_op; by rewrite !length_map|].
  intros v [-> Hl]. rewrite length_map in Hl. split; [done|]. intros Ha Hb Hs Hs'. apply Forall_lookup_2.
  intros i x (y & z & -> & Hy & Hz)%lookup_zip_with_Some. rewrite list_lookup_fmap in Hy, Hz.
  destruct (a !! i) eqn:Ea, (b !! i) eqn:Eb; try done. simpl in *. simplify_eq.
  apply add_plus; apply mul_plus; try done; [by eapply (Forall_lookup_1 _ _ _ _ Ha)|by eapply (Forall_lookup_1 _ _ _ _ Hb)].
Qed.

Lemma uniform_plus n : Forall (fun x => plus x) (uniform n).
Proof.
  apply Forall_replicate. apply div_plus; [done|]. apply f64_of_Z_plus. lia.
Qed.

Lemma get_reward_weights_gives m rep participation total :
  dm_wf m → length rep = nrows m → (0 < dm_ncols m)%nat → length participation = nrows m →
  gives (fun r => rw_old_rep r = rep ∧ length (rw_smooth_rep r) = nrows m ∧
    (Forall (fun x => plus x) rep → Forall (fun x => plus x) participation → plus total → plus (f64_sub f64_one total) →
     Forall (fun x => plus x) (rw_smooth_rep r)))
    (get_reward_weights m (Some rep) REPUTATION_SMOOTHING_ALPHA participation total).
Proof.
  intros Hw Hr Hn Hp. unfold get_reward_weights. cbn [default from_option id].
  eapply gives_bind; [by apply prin_comp_gives|]. intros [score loading] [Hs Hl]. cbn [fst snd] in Hs, Hl.
  eapply gives_bind; [by apply new_reputation_gives|]. intros new [Hnew Hnp]. cbv zeta.
  eapply gives_bind.
  { apply blend_gives. rewrite Hnew. destruct (f64_gt _ _); [by rewrite length_map|by unfold uniform; rewrite length_replicate]. }
  intros b1 [Hb1 Hb1p].
  eapply gives_bind; [apply blend_gives; rewrite normalize_length; congruence|]. intros b2 [Hb2 Hb2p].
  simpl. split_and!; [done|congruence|]. intros Hrep Hpart Ht Ht'.
  apply Hb2p; [|apply normalize_weights_plus|by vm_compute|by vm_compute].
  apply Hb1p; [by apply Hnp| |done|done].
  destruct (f64_gt _ _) eqn:E; [|apply uniform_plus]. apply Forall_map. eapply Forall_impl; [exact Hpart|].
  intros x Hx. apply div_plus; [done|by apply na_sum_plus].
Qed.

(** ** Filling *)

Definition filled_from (x y : f64) : Prop := (is_nan x = false ∧ y = x) ∨ (is_nan x = true ∧ catch_value y).

Lemma fill_row_gives outs row : (length row ≤ length outs)%nat → Forall catch_value outs →
  gives (fun r => Forall2 filled_from row r) (fill_row outs row).
Proof.
  intros Hl Ho. unfold fill_row. eapply gives_weaken.
  - apply (gives_try_map (fun e y => filled_from e.2 y)). intros [j x] Hx.
    apply elem_of_lookup_imap_1 in Hx as (k & y & [= -> ->] & Hy). cbn [fst snd].
    destruct (is_nan y) eqn:E; [|by left].
    apply lookup_lt_Some in Hy. eapply gives_weaken; [apply gives_at; lia|].
    intros o Hout. right. split; [done|]. by apply (Forall_lookup_1 _ _ _ _ Ho Hout).
  - intros r H. clear -H. remember (imap pair row) as ps eqn:E. revert E.
    assert (row = map snd (imap pair row)) as Hm.
    { apply list_eq. intros i. rewrite list_lookup_fmap, list_lookup_imap. by destruct (row !! i). }
    intros ->. rewrite Hm. by apply Forall2_fmap_l.
Qed.

Lemma votes_cast_le row : (votes_cast row ≤ length row)%nat.
Proof. apply length_filter. Qed.

Lemma casts_le m : dm_wf m → (sum_list (map votes_cast (dm_rows m)) ≤ nrows m * dm_ncols m)%nat.
Proof.
  unfold dm_wf, nrows. induction 1 as [|row rows Hr _ IH]; simpl; [lia|]. pose proof (votes_cast_le row). lia.
Qed.

Lemma ratio_plus a b : plus (ratio a b).
Proof. unfold ratio. case_bool_decide; [done|]. apply div_plus; apply f64_of_Z_plus; lia. Qed.

Lemma one_minus_ratio a b : (a ≤ b)%nat → Z.of_nat b < 2 ^ 53 → plus (f64_sub f64_one (ratio a b)).
Proof. intros Hab Hb. unfold ratio. case_bool_decide; [done|]. apply one_minus_ratio_plus; lia. Qed.

Record fill_ok (m : DMatrix) (r : FillNaResult) : Prop := {
  fo_wf : dm_wf (fn_filled r);
  fo_cols : dm_ncols (fn_filled r) = dm_ncols m;
  fo_rows : Forall2 (Forall2 filled_from) (dm_rows m) (dm_rows (fn_filled r));
  fo_votes : ∀ j, (j < dm_ncols m)%nat → fn_has_votes r !! j = Some (voted (col m j));
  fo_part : length (fn_voter_participation r) = nrows m ∧ Forall (fun x => plus x) (fn_voter_participation r);
  fo_total : plus (fn_participation_total r);
  fo_rest : Z.of_nat (nrows m * dm_ncols m) < 2 ^ 53 → plus (f64_sub f64_one (fn_participation_total r))
}.

Lemma filled_rows_wf m rows : dm_wf m → Forall2 (Forall2 filled_from) (dm_rows m) rows →
  dm_wf {| dm_ncols := dm_ncols m; dm_rows := rows |}.
Proof.
  intros Hw H. unfold dm_wf in *. simpl. apply Forall_lookup_2. intros i r Hr.
  destruct (Forall2_lookup_r _ _ _ _ _ H Hr) as (row & Hrow & Hf). apply Forall2_length in Hf. rewrite <- Hf.
  by apply (Forall_lookup_1 _ _ _ _ Hw Hrow).
Qed.

Lemma not_nan_filled row : existsb is_nan row = false → Forall2 filled_from row row.
Proof.
  induction row as [|x row IH]; simpl; [constructor|]. intros [Hx Hr]%orb_false_iff. constructor; [by left|by apply IH].
Qed.

Lemma fill_na_gives m rep p : dm_wf m → length rep = nrows m → (0 < nrows m)%nat →
  gives (fill_ok m) (fill_na m (Some rep) p).
Proof.
  intros Hw Hl Hn. unfold fill_na. cbn [default from_option id].
  assert (∀ rows flags, Forall2 (Forall2 filled_from) (dm_rows m) rows →
    (∀ j, (j < dm_ncols m)%nat → flags !! j = Some (voted (col m j))) →
    fill_ok m {| fn_filled := {| dm_ncols := dm_ncols m; dm_rows := rows |}; fn_has_votes := flags;
      fn_voter_participation := map (fun cast => ratio cast (dm_ncols m)) (map votes_cast (dm_rows m));
      fn_participation_total := ratio (sum_list (map votes_cast (dm_rows m))) (nrows m * dm_ncols m) |}) as Hbuild.
  { intros rows flags Hrows Hflags. constructor; simpl; try done.
    - by apply filled_rows_wf.
    - rewrite !length_map. split; [done|]. apply Forall_map, Forall_forall. intros. apply ratio_plus.
    - apply ratio_plus.
    - intros Hb. apply one_minus_ratio; [by apply casts_le|done]. }
  destruct (existsb _ _) eqn:E.
  - destruct (column_means_ok m rep Hw Hl) as (means & flags & -> & Hm & Hf & Hflags). cbn [mbind result_bind].
    eapply gives_bind; [|intros rows Hrows; simpl; by apply Hbuild].
    apply (gives_try_map (Forall2 filled_from)). intros row Hrow. apply fill_row_gives.
    + rewrite length_map, Hm. unfold dm_wf in Hw. rewrite Forall_forall in Hw. by rewrite (Hw row Hrow).
    + apply Forall_map, Forall_forall. intros. apply catch_tl_value.
  - simpl. destruct m as [nc rows]. simpl in *. apply Hbuild.
    + assert (Forall (fun row => existsb is_nan row = false) rows) as Hnn.
      { clear -E. induction rows as [|row rows IH]; simpl in *; [done|]. apply orb_false_iff in E as [? ?]. constructor; auto. }
      clear -Hnn. induction Hnn; constructor; [by apply not_nan_filled|done].
    + intros j Hj. rewrite lookup_replicate_2 by done. f_equal. symmetry.
      destruct rows as [|row rows]; [by apply Nat.lt_irrefl in Hn|]. simpl in E. apply orb_false_iff in E as [E _].
      unfold voted, col. simpl. unfold dm_wf in Hw. inversion Hw as [|? ? Hlen _]; subst. simpl in Hlen.
      destruct (lookup_lt_is_Some_2 row j) as [x Hx]; [lia|]. rewrite Hx. simpl.
      assert (is_nan x = false) as ->; [|done].
      destruct (is_nan x) eqn:Ex; [|done]. exfalso.
      assert (existsb is_nan row = true); [|congruence]. apply existsb_exists. exists x. split; [|done].
      apply list_elem_of_In. by eapply list_elem_of_lookup_2.
Qed.

(** ** Outcomes of the matrix *)

(** A vote cast, or the provisional outcome that stands for a missing one. *)
Definition vote_or_default (values : DVector) (x : f64) : Prop := (x ∈ values ∧ is_nan x = false) ∨ catch_value x.

(** The outcome of a scaled decision: one of these, or the mean of two. *)
Definition scaled_value (values : DVector) (v : f64) : Prop :=
  ∃ a b, vote_or_default values a ∧ vote_or_default values b ∧ (v = a ∨ v = f64_div (f64_add a b) f64_two).

Lemma filled_col m filled j x : dm_wf m → (j < dm_ncols m)%nat → Forall2 (Forall2 filled_from) (dm_rows m) (dm_rows filled) →
  x ∈ col filled j → vote_or_default (col m j) x.
Proof.
  intros Hw Hj H. unfold col. intros (row' & -> & Hr)%list_elem_of_fmap. apply list_elem_of_lookup_1 in Hr as [i Hi].
  destruct (Forall2_lookup_r _ _ _ _ _ H Hi) as (row & Hrow & Hf).
  unfold dm_wf in Hw. pose proof (Forall_lookup_1 _ _ _ _ Hw Hrow) as Hlen. cbv beta in Hlen.
  destruct (lookup_lt_is_Some_2 row j) as [y Hy]; [lia|].
  destruct (Forall2_lookup_l _ _ _ _ _ Hf Hy) as (z & Hz & Hfz). rewrite Hz. simpl.
  destruct Hfz as [[Hn ->]|[_ Hc]]; [left|by right]. split; [|done].
  apply list_elem_of_fmap. exists row. rewrite Hy. split; [done|]. by eapply list_elem_of_lookup_2.
Qed.

Lemma valid_fold_gives (smooth : DVector) (P : f64 → Prop) ps acc :
  (∀ e, e ∈ ps → (e.1 < length smooth)%nat ∧ P e.2) → Forall (fun p => P p.1) acc →
  gives (Forall (fun p => P p.1)) (try_fold (valid_step smooth) acc ps).
Proof.
  intros H Ha. apply gives_try_fold; [|done]. intros b [i x] Hin Hb. destruct (H _ Hin) as [Hi Hx]. cbn [fst snd] in *.
  unfold valid_step. cbn [fst snd]. destruct (is_nan x); [done|]. eapply gives_bind; [by apply gives_at|].
  intros w _. simpl. apply Forall_app. split; [done|]. by constructor.
Qed.

Lemma scaled_outcome_gives m filled smooth j : dm_wf m → dm_wf filled → dm_ncols filled = dm_ncols m → (j < dm_ncols m)%nat →
  Forall2 (Forall2 filled_from) (dm_rows m) (dm_rows filled) → length smooth = nrows filled →
  gives (scaled_value (col m j)) (scaled_outcome filled smooth j).
Proof.
  intros Hw Hf Hc Hj Hrows Hs. unfold scaled_outcome. rewrite column_ok by (done || lia). cbn [mbind result_bind].
  eapply gives_bind.
  - apply (valid_fold_gives _ (vote_or_default (col m j))); [|constructor]. intros [i x] Hin.
    apply elem_of_lookup_imap_1 in Hin as (k & y & [= -> ->] & Hy). cbn [fst snd]. split.
    + apply lookup_lt_Some in Hy. rewrite col_length in Hy. lia.
    + eapply filled_col; [done|done|exact Hrows|]. by eapply list_elem_of_lookup_2.
  - intros valid Hv. assert (scaled_value (col m j) f64_half) as Hhalf.
    { exists f64_half, f64_half. unfold vote_or_default, catch_value. naive_solver. }
    assert (∀ x, x ∈ map fst valid → vote_or_default (col m j) x) as Hvd.
    { intros x (p & -> & Hp)%list_elem_of_fmap. rewrite Forall_forall in Hv. by apply Hv. }
    case_bool_decide as Hne; simpl; [done|].
    pose proof (weighted_median_gives (map fst valid) (map snd valid) ltac:(by rewrite !length_map)
      ltac:(by destruct valid)) as Hm.
    destruct (weighted_median _ _) as [v|]; [|done]. simpl in Hm. destruct Hm as [Hin|(a & b & Ha & Hb & ->)].
    + exists v, v. auto.
    + exists a, b. auto.
Qed.

Record factory_ok (m : DMatrix) (rep : DVector) (scaled : list bool) (r : FactoryResult) : Prop := {
  fk_old : rw_old_rep (fa_agents r) = rep;
  fk_smooth : length (rw_smooth_rep (fa_agents r)) = nrows m;
  fk_plus : Forall (fun x => plus x) rep → Z.of_nat (nrows m * dm_ncols m) < 2 ^ 53 →
    Forall (fun x => plus x) (rw_smooth_rep (fa_agents r));
  fk_votes j : (j < dm_ncols m)%nat → fa_has_votes r !! j = Some (voted (col m j));
  fk_decisions j : (j < dm_ncols m)%nat → ∃ d, fa_decisions r !! j = Some d ∧
    if default false (scaled !! j) then scaled_value (col m j) d else catch_value d
}.

Lemma filled_nrows m filled : Forall2 (Forall2 filled_from) (dm_rows m) (dm_rows filled) → nrows filled = nrows m.
Proof. intros H. apply Forall2_length in H. unfold nrows. lia. Qed.

Lemma factory_gives m rep scaled : dm_wf m → length rep = nrows m → (0 < nrows m)%nat → (0 < dm_ncols m)%nat →
  gives (factory_ok m rep scaled) (factory m (Some rep) (Some CONSENSUS_CATCH_TOLERANCE) (Some scaled)).
Proof.
  intros Hw Hl Hn Hc. unfold factory. rewrite !bool_decide_eq_false_2 by lia. cbn [orb bail_if mbind result_bind default from_option id].
  eapply gives_bind; [by apply fill_na_gives|]. intros fill [Fw Fc Fr Fv [Fp Fpp] Ft Fo]. cbv zeta.
  pose proof (filled_nrows _ _ Fr) as Fn.
  eapply gives_bind; [apply get_reward_weights_gives; [done|congruence|lia|congruence]|].
  intros agents (Hold & Hsm & Hplus). rewrite Fn in Hsm.
  eapply gives_bind.
  { apply (gives_try_map (fun j d => if default false (scaled !! j) then scaled_value (col m j) d else catch_value d)).
    intros j [_ Hj]%elem_of_seq. destruct (default false (scaled !! j)).
    - apply scaled_outcome_gives; (done || lia).
    - unfold binary_outcome. destruct (column_mean_ok (fn_filled fill) (rw_smooth_rep agents) j Fw) as [mean ->]; [lia|lia|].
      simpl. apply catch_tl_value. }
  intros ds Hds. pose proof (Forall2_length _ _ _ Hds) as Hdl. rewrite length_seq in Hdl.
  eapply gives_bind.
  { apply (gives_try_map (fun _ _ => True)). intros [j d] Hin. apply elem_of_lookup_imap_1 in Hin as (k & y & [= -> ->] & Hy).
    apply lookup_lt_Some in Hy. apply gives_try_fold; [|done]. intros sum i [_ Hi]%elem_of_seq _. cbn [fst snd].
    unfold certainty_step. destruct (lookup_lt_is_Some_2 (col (fn_filled fill) k) i) as [x Hx]; [rewrite col_length; lia|].
    assert (k < dm_ncols (fn_filled fill))%nat as Hk by lia.
    rewrite (cell_ok _ _ _ _ Fw Hk Hx). cbn [mbind result_bind]. destruct (f64_lt _ _); [|done].
    eapply gives_bind; [apply gives_at; lia|]. done. }
  intros cs _. constructor; simpl; try done.
  - intros Hrep Hb. apply Hplus; [done|done|done|by apply Fo].
  - intros j Hj. destruct (lookup_lt_is_Some_2 ds j) as [d Hd]; [lia|]. exists d. split; [done|].
    destruct (Forall2_lookup_r _ _ _ _ _ Hds Hd) as (k & [-> _]%lookup_seq & Hk). exact Hk.
Qed.

End Oracle.
