(* ===== verification/OracleConsensus.v ===== *)
(** * What the oracle decides

    The plurality of a categorical decision, and the consensus as a whole: which
    errors it can end with, the outcome of every decision and the reputation of
    every voter. *)

From stdpp Require Import base numbers list strings gmap.
From Stdlib Require Import SpecFloat.
From S2P Require Import Prelude Float64 FloatSigns SafeMath StateErrors DecisionTypes Periods DecisionsDb Voting Oracle OracleFacts.

(** ** Plurality *)

Definition votes_for (values : DVector) (k : Z) : nat :=
  length (filter (fun x => is_nan x = false ∧ option_of x = k) values).

(** [w] is what the votes on a decision with options [0 .. option_count], the
    last of which means inconclusive, amount to. *)
Definition plurality (option_count : Z) (values : DVector) (w : option Z) : Prop :=
  match w with
  | None => ∀ k, k ≤ option_count → votes_for values k = 0%nat
  | Some w =>
      (∃ k, k ≤ option_count ∧ (0 < votes_for values k)%nat) ∧
      ((w < option_count ∧ ∀ k, k ≤ option_count → k ≠ w → (votes_for values k < votes_for values w)%nat) ∨
       (w = option_count ∧
        ∀ x, x < option_count → ∃ k, k ≤ option_count ∧ k ≠ x ∧ (votes_for values x ≤ votes_for values k)%nat))
  end.

Lemma votes_for_snoc values x k :
  votes_for (values ++ [x]) k = (votes_for values k + if decide (is_nan x = false ∧ option_of x = k) then 1 else 0)%nat.
Proof. unfold votes_for. rewrite filter_app, length_app. f_equal. rewrite filter_cons, filter_nil. by destruct (decide _). Qed.

Lemma vote_counts_spec oc values k :
  vote_counts oc values !! k =
  if decide (k ≤ oc ∧ votes_for values k ≠ 0%nat) then Some (Z.of_nat (votes_for values k)) else None.
Proof.
  induction values as [|x values IH] using rev_ind.
  - unfold vote_counts, votes_for. simpl. rewrite lookup_empty. by rewrite decide_False by (intros [_ H]; done).
  - unfold vote_counts in *. rewrite foldl_app. simpl. unfold count_vote at 1. rewrite votes_for_snoc.
    destruct (is_nan x); [rewrite (decide_False (P := true = false ∧ _)) by (intros [? _]; done); by rewrite Nat.add_0_r|].
    destruct (Z.leb_spec (option_of x) oc) as [Hle|Hgt].
    + destruct (decide (option_of x = k)) as [<-|Hne].
      * rewrite lookup_partial_alter_eq, IH. rewrite (decide_True (P := false = false ∧ _)) by done.
        rewrite (decide_True (P := option_of x ≤ oc ∧ (_ + 1)%nat ≠ _)) by lia.
        f_equal. case_decide as Hd; simpl; lia.
      * rewrite lookup_partial_alter_ne, IH by done. rewrite (decide_False (P := false = false ∧ _)) by naive_solver.
        by rewrite Nat.add_0_r.
    + rewrite IH. destruct (decide (option_of x = k)) as [<-|Hne].
      * rewrite !(decide_False (P := option_of x ≤ oc ∧ _)) by lia. done.
      * rewrite (decide_False (P := false = false ∧ _)) by naive_solver. by rewrite Nat.add_0_r.
Qed.

Lemma max_fold_ge (l : list Z) x : x ∈ l → x ≤ foldr Z.max 0 l.
Proof. induction 1; simpl; lia. Qed.

Lemma max_fold_in (l : list Z) : foldr Z.max 0 l = 0 ∨ foldr Z.max 0 l ∈ l.
Proof.
  induction l as [|x l [IH|IH]]; simpl; [by left| |].
  - rewrite IH. destruct (Z.max_spec x 0) as [[_ ->]|[_ ->]]; [by left|right; left].
  - right. destruct (Z.max_spec x (foldr Z.max 0 l)) as [[_ ->]|[_ ->]]; [by right|left].
Qed.

Lemma effective_winner_spec oc values : vote_counts oc values ≠ ∅ →
  plurality oc values (Some (effective_winner oc (vote_counts oc values))).
Proof.
  intros Hne. pose proof (vote_counts_spec oc values) as Hspec. set (counts := vote_counts oc values) in *. clearbody counts.
  unfold effective_winner. set (M := foldr Z.max 0 _).
  assert (∀ k c, (k, c) ∈ map_to_list counts ↔ (k ≤ oc ∧ votes_for values k ≠ 0%nat) ∧ c = Z.of_nat (votes_for values k)) as Hin.
  { intros k c. rewrite elem_of_map_to_list, Hspec. case_decide; naive_solver. }
  assert (∀ k, k ≤ oc → Z.of_nat (votes_for values k) ≤ M) as Hmax.
  { intros k Hk. destruct (decide (votes_for values k = 0%nat)) as [->|Hv].
    - destruct (max_fold_in (map snd (map_to_list counts))) as [H0|H0]; fold M in H0; [lia|].
      apply list_elem_of_fmap in H0 as ([k' c] & -> & Hk'). apply Hin in Hk' as [_ ->]. simpl. lia.
    - apply max_fold_ge. apply list_elem_of_fmap. exists (k, Z.of_nat (votes_for values k)). split; [done|]. by apply Hin. }
  assert (∃ k, k ≤ oc ∧ (0 < votes_for values k)%nat) as Hex.
  { apply map_choose in Hne as (k & c & Hk). apply elem_of_map_to_list, Hin in Hk as [[? ?] _]. exists k. split; [done|lia]. }
  assert (∀ k c, (k, c) ∈ filter (fun e => e.2 = M) (map_to_list counts) ↔ k ≤ oc ∧ c = M ∧ Z.of_nat (votes_for values k) = M) as Hf.
  { intros k c. rewrite list_elem_of_filter, Hin. simpl. destruct Hex as (k0 & Hk0 & Hv0). specialize (Hmax k0 Hk0). split; [naive_solver|].
    intros (? & -> & ?). split_and!; [done|done|lia|done]. }
  assert (NoDup (map fst (filter (fun e => e.2 = M) (map_to_list counts)))) as Hnd.
  { apply (sublist_NoDup _ (map fst (map_to_list counts))); [apply (NoDup_fst_map_to_list counts)|]. apply fmap_sublist, sublist_filter. }
  split; [done|]. destruct (filter _ _) as [|[w c] [|[w2 c2] rest]] eqn:E.
  - exfalso. destruct (max_fold_in (map snd (map_to_list counts))) as [H0|H0]; fold M in H0.
    + destruct Hex as (k & Hk & Hv). specialize (Hmax k Hk). lia.
    + apply list_elem_of_fmap in H0 as ([k c] & HM & Hk). simpl in HM. subst c. pose proof Hk as [[Hk1 Hk2] Hk3]%Hin.
      assert ((k, M) ∈ @nil (Z * Z)) as H; [|by apply not_elem_of_nil in H]. apply Hf. done.
  - pose proof (proj1 (Hf w c) ltac:(left)) as (Hw & -> & HwM).
    assert (∀ k, k ≤ oc → k ≠ w → Z.of_nat (votes_for values k) < M) as Hlt.
    { intros k Hk Hkw. specialize (Hmax k Hk). destruct (decide (Z.of_nat (votes_for values k) = M)); [|lia]. exfalso.
      assert ((k, M) ∈ [(w, M)]) as H by (apply Hf; done). apply list_elem_of_singleton in H. naive_solver. }
    destruct (Z.ltb_spec w oc); [left|right]; (split; [done|]).
    + intros k Hk Hkw. specialize (Hlt k Hk Hkw). lia.
    + intros x Hx. exists w. specialize (Hmax x ltac:(lia)). split_and!; [done|lia|lia].
  - right. split; [done|]. intros x Hx. pose proof (proj1 (Hf w c) ltac:(left)) as (Hw & _ & HwM).
    pose proof (proj1 (Hf w2 c2) ltac:(right; left)) as (Hw2 & _ & Hw2M). specialize (Hmax x ltac:(lia)).
    destruct (decide (w = x)) as [->|Hwx]; [exists w2|exists w]; (split_and!; [done| |lia]); [|done].
    simpl in Hnd. apply NoDup_cons in Hnd as [Hni _]. intros ->. apply Hni. left.
Qed.

Lemma winner_spec oc values :
  let counts := vote_counts oc values in
  plurality oc values (if bool_decide (counts = ∅) then None else Some (effective_winner oc counts)).
Proof.
  cbv zeta. case_bool_decide as He; [|by apply effective_winner_spec]. intros k Hk.
  pose proof (vote_counts_spec oc values k) as H. rewrite He, lookup_empty in H. case_decide; [done|].
  destruct (decide (votes_for values k = 0%nat)); [done|]. naive_solver.
Qed.

(** ** The columns of the categorical decisions *)

Definition marked (w : option Z) (values : DVector) : DVector :=
  match w with Some w => map (mark_winner w) values | None => values end.

Lemma alter_rows_wf f j m : dm_wf m → dm_wf (map_rows (alter f j) m).
Proof.
  unfold dm_wf, map_rows. simpl. intros H. apply Forall_map. eapply Forall_impl; [exact H|]. intros row Hr. simpl.
  by rewrite length_alter.
Qed.

Lemma col_alter_ne f j k m : j ≠ k → col (map_rows (alter f j) m) k = col m k.
Proof.
  intros Hne. unfold col, map_rows. simpl. rewrite map_map. apply map_ext. intros row. by rewrite list_lookup_alter_ne.
Qed.

Lemma col_alter_eq f j m : dm_wf m → (j < dm_ncols m)%nat → col (map_rows (alter f j) m) j = map f (col m j).
Proof.
  intros Hw Hj. unfold col, map_rows. simpl. rewrite !map_map. apply map_ext_in. intros row Hr%list_elem_of_In.
  unfold dm_wf in Hw. rewrite Forall_forall in Hw. specialize (Hw row Hr).
  destruct (lookup_lt_is_Some_2 row j) as [x Hx]; [lia|]. by rewrite list_lookup_alter_eq, Hx.
Qed.

Lemma plurality_step_ok m results j oc : dm_wf m → (j < dm_ncols m)%nat →
  ∃ w m', plurality_step (m, results) (j, oc) = Ok (m', <[j := w]> results) ∧ plurality oc (col m j) w ∧
    dm_wf m' ∧ dm_ncols m' = dm_ncols m ∧ nrows m' = nrows m ∧
    col m' j = marked w (col m j) ∧ (∀ k, k ≠ j → col m' k = col m k).
Proof.
  intros Hw Hj. unfold plurality_step. rewrite column_ok by done. cbn [mbind result_bind].
  pose proof (winner_spec oc (col m j)) as Hp. cbv zeta in Hp. case_bool_decide as He.
  - exists None, m. done.
  - eexists (Some _), _. split; [done|]. split_and!; try done.
    + by apply alter_rows_wf.
    + unfold nrows, map_rows. simpl. apply length_map.
    + simpl. by apply col_alter_eq.
    + intros k Hk. by apply col_alter_ne.
Qed.

(** What the loop over the columns leaves. *)
Record resolved (m : DMatrix) (cols : list (nat * Z)) (m' : DMatrix) (results : gmap nat (option Z)) : Prop := {
  rs_wf : dm_wf m';
  rs_ncols : dm_ncols m' = dm_ncols m;
  rs_nrows : nrows m' = nrows m;
  rs_other j : j ∉ cols.*1 → col m' j = col m j;
  rs_cat j oc : (j, oc) ∈ cols → ∃ w, results !! j = Some w ∧ plurality oc (col m j) w ∧ col m' j = marked w (col m j)
}.

Lemma resolve_fold m cols results : dm_wf m → NoDup cols.*1 → Forall (fun e => (e.1 < dm_ncols m)%nat) cols →
  ∃ m' results', try_fold plurality_step (m, results) cols = Ok (m', results') ∧ resolved m cols m' results' ∧
    (∀ j, j ∉ cols.*1 → results' !! j = results !! j).
Proof.
  revert m results. induction cols as [|[j oc] cols IH]; intros m results Hw Hnd Hlt; simpl.
  - do 2 eexists. split; [done|]. split; [|done]. constructor; try done. intros ?? H. by apply not_elem_of_nil in H.
  - simpl in Hnd. apply NoDup_cons in Hnd as [Hni Hnd]. apply Forall_cons in Hlt as [Hj Hlt].
    destruct (plurality_step_ok m results j oc Hw Hj) as (w & m1 & Hstep & Hp & Hw1 & Hc1 & Hr1 & Hcol & Hother).
    unfold plurality_step in Hstep at 1. rewrite Hstep.
    destruct (IH m1 (<[j := w]> results) Hw1 Hnd) as (m' & res' & -> & [W C R O K] & Hres).
    { eapply Forall_impl; [exact Hlt|]. intros e He. simpl. by rewrite Hc1. }
    exists m', res'. split; [done|]. split; [constructor|].
    + done.
    + congruence.
    + congruence.
    + intros k Hk. apply not_elem_of_cons in Hk as [Hk Hk']. rewrite (O k Hk'). by apply Hother.
    + intros k oc' Hin. apply elem_of_cons in Hin as [[= -> ->]|Hin].
      * exists w. rewrite (Hres j Hni), lookup_insert_eq. split_and!; [done|done|]. rewrite (O j Hni). done.
      * assert (k ≠ j) as Hne by (intros ->; apply Hni; by apply (list_elem_of_fmap_2 fst) in Hin).
        rewrite <- (Hother k Hne). by apply K.
    + intros k Hk. apply not_elem_of_cons in Hk as [Hk Hk']. rewrite (Hres k Hk'). by rewrite lookup_insert_ne.
Qed.

(** Two different columns may be resolved in either order. *)
Lemma column_alter_ne f j k m : j ≠ k → column (map_rows (alter f j) m) k = column m k.
Proof.
  intros Hne. unfold column, map_rows. simpl. induction (dm_rows m) as [|row rows IH]; simpl; [done|].
  rewrite IH. unfold vec_at. by rewrite list_lookup_alter_ne.
Qed.

Lemma map_rows_alter_commute f g j k m : j ≠ k →
  map_rows (alter f j) (map_rows (alter g k) m) = map_rows (alter g k) (map_rows (alter f j) m).
Proof.
  intros Hne. unfold map_rows. simpl. f_equal. rewrite !map_map. apply map_ext. intros row. by apply list_alter_alter_ne.
Qed.

Lemma try_fold_perm {E A B} (f : B → A → result E B) (key : A → nat) l k :
  (∀ b x y, key x ≠ key y → (b' ← f b x; f b' y) = (b' ← f b y; f b' x)) →
  l ≡ₚ k → NoDup (map key l) → ∀ b, try_fold f b l = try_fold f b k.
Proof.
  intros Hf. induction 1 as [|x l k Hp IH|x y l|l1 l2 l3 H1 IH1 H2 IH2]; intros Hnd b; simpl.
  - done.
  - simpl in Hnd. apply NoDup_cons in Hnd as [_ Hnd]. destruct (f b x); [by apply IH|done].
  - simpl in Hnd. apply NoDup_cons in Hnd as [Hni _]. apply not_elem_of_cons in Hni as [Hne _].
    specialize (Hf b y x Hne). destruct (f b y) as [b1|], (f b x) as [b2|]; simpl in Hf; simplify_eq; try done; try by rewrite Hf.
    all: try (by rewrite <- Hf).
  - rewrite IH1 by done. apply IH2. by rewrite <- H1.
Qed.

Lemma column_error m j e : column m j = Err e → e = MathPanicked.
Proof.
  unfold column. induction (dm_rows m) as [|row rows IH]; simpl; [done|]. unfold vec_at at 1.
  destruct (row !! j); simpl; [|congruence]. destruct (try_map _ rows); [done|]. intros [= ->]. by apply IH.
Qed.

Lemma plurality_step_commute acc x y : x.1 ≠ y.1 →
  (acc' ← plurality_step acc x; plurality_step acc' y) = (acc' ← plurality_step acc y; plurality_step acc' x).
Proof.
  destruct acc as [m results], x as [j a], y as [k b]. simpl. intros Hne.
  assert (∀ f, column (map_rows (alter f j) m) k = column m k) as Hj by (intros; by apply column_alter_ne).
  assert (∀ f, column (map_rows (alter f k) m) j = column m j) as Hk by (intros; apply column_alter_ne; congruence).
  destruct (column m j) as [vj|ej] eqn:Ej, (column m k) as [vk|ek] eqn:Ek; cbn [mbind result_bind].
  - repeat case_bool_decide; cbn [mbind result_bind]; unfold plurality_step; rewrite ?Hj, ?Hk, ?Ej, ?Ek; cbn [mbind result_bind];
      repeat case_bool_decide; try done; rewrite (insert_insert_ne results j k) by done; try done.
    by rewrite (map_rows_alter_commute _ _ j k).
  - pose proof (column_error _ _ _ Ek) as ->. repeat case_bool_decide; cbn [mbind result_bind]; unfold plurality_step; by rewrite ?Hj, ?Ek.
  - pose proof (column_error _ _ _ Ej) as ->. repeat case_bool_decide; cbn [mbind result_bind]; unfold plurality_step; by rewrite ?Hk, ?Ej.
  - apply column_error in Ej as ->. by apply column_error in Ek as ->.
Qed.

(** What [plurality_exact] states. *)
Lemma resolve_any_order m cols :
  dm_wf m → NoDup cols.*1 → Forall (fun e => (e.1 < dm_ncols m)%nat) cols →
  ∃ m' results, (∀ cols', cols' ≡ₚ cols → resolve_categorical_plurality m cols' = Ok (m', results)) ∧
    dm_wf m' ∧ nrows m' = nrows m ∧ dm_ncols m' = dm_ncols m ∧
    (∀ j, j ∉ cols.*1 → col m' j = col m j ∧ results !! j = None) ∧
    (∀ j oc, (j, oc) ∈ cols → ∃ w, results !! j = Some w ∧ plurality oc (col m j) w ∧ col m' j = marked w (col m j)).
Proof.
  intros Hw Hnd Hlt. destruct (resolve_fold m cols ∅ Hw Hnd Hlt) as (m' & results & Hr & [] & Hres).
  exists m', results. split_and!; try done.
  - intros cols' Hp. unfold resolve_categorical_plurality. rewrite <- Hr. symmetry in Hp.
    symmetry. by apply (try_fold_perm _ fst); [exact plurality_step_commute| |].
  - intros j Hj. split; [by auto|]. by rewrite Hres.
Qed.

(** ** The consensus *)

(** The votes on a decision, one cell for each voter. *)
Definition votes_on (m : SparseVoteMatrix) (id : DecisionId) : DVector :=
  map (fun voter => default S754_nan (matrix_get_vote m voter id)) (sm_voters m).

Lemma dense_wf m : dm_wf (dense_votes m).
Proof. unfold dm_wf, dense_votes. simpl. apply Forall_map, Forall_forall. intros. apply length_map. Qed.

Lemma dense_nrows m : nrows (dense_votes m) = length (sm_voters m).
Proof. apply length_map. Qed.

Lemma dense_col m j id : sm_decisions m !! j = Some id → col (dense_votes m) j = votes_on m id.
Proof.
  intros Hj. unfold col, dense_votes, votes_on. simpl. rewrite map_map. apply map_ext. intros voter.
  by rewrite list_lookup_fmap, Hj.
Qed.

Lemma elem_of_pairs {A} (l : list A) i x : (i, x) ∈ imap pair l ↔ l !! i = Some x.
Proof.
  split.
  - intros (k & y & [= -> ->] & H)%elem_of_lookup_imap_1. done.
  - intros H. apply elem_of_lookup_imap_2 with (f := pair) in H. done.
Qed.

Lemma fst_pairs {A} (l : list A) : (imap pair l).*1 = seq 0 (length l).
Proof.
  apply list_eq. intros i. rewrite list_lookup_fmap, list_lookup_imap. destruct (l !! i) eqn:E; simpl.
  - apply lookup_lt_Some in E. by rewrite lookup_seq_lt.
  - apply lookup_ge_None in E. by rewrite lookup_seq_ge.
Qed.

Lemma snd_pairs {A} (l : list A) : (imap pair l).*2 = l.
Proof. apply list_eq. intros i. rewrite list_lookup_fmap, list_lookup_imap. by destruct (l !! i). Qed.

Lemma columns_of_spec m cat j c : (j, c) ∈ columns_of m cat ↔ ∃ id, sm_decisions m !! j = Some id ∧ cat !! id = Some c.
Proof.
  unfold columns_of. rewrite list_elem_of_omap. split.
  - intros ([i id] & Hin%elem_of_pairs & H). simpl in H. destruct (cat !! id) eqn:E; simpl in H; [|done].
    injection H as -> ->. eauto.
  - intros (id & Hj & Hc). exists (j, id). split; [by apply elem_of_pairs|]. simpl. by rewrite Hc.
Qed.

Lemma columns_of_nodup m cat : NoDup (columns_of m cat).*1.
Proof.
  apply (sublist_NoDup _ (imap pair (sm_decisions m)).*1); [rewrite fst_pairs; apply NoDup_seq|].
  unfold columns_of. induction (imap pair (sm_decisions m)) as [|[i id] l IH]; simpl; [constructor|].
  destruct (cat !! id); simpl; by constructor.
Qed.

Lemma columns_of_fst m cat j id : sm_decisions m !! j = Some id → j ∈ (columns_of m cat).*1 → is_Some (cat !! id).
Proof. intros Hj ([k c] & -> & (id' & Hj' & Hc)%columns_of_spec)%list_elem_of_fmap. simpl in *. simplify_eq. by eexists. Qed.

Section Consensus.
Context {LA : LinearAlgebra} {CO : ColumnOrder}.

Lemma resolve_votes m cat : ∃ dense results,
  resolve_categorical_plurality (dense_votes m) (column_iter (columns_of m cat)) = Ok (dense, results) ∧
  dm_wf dense ∧ nrows dense = length (sm_voters m) ∧ dm_ncols dense = length (sm_decisions m) ∧
  ∀ j id, sm_decisions m !! j = Some id →
    match cat !! id with
    | Some c => ∃ w, results !! j = Some w ∧ plurality c (votes_on m id) w
    | None => results !! j = None ∧ col dense j = votes_on m id
    end.
Proof.
  destruct (resolve_any_order (dense_votes m) (columns_of m cat)) as (dense & results & Hr & Hw & Hn & Hc & Ho & Hk).
  - apply dense_wf.
  - apply columns_of_nodup.
  - apply Forall_forall. intros [j c] (id & Hj & _)%columns_of_spec. simpl. by apply lookup_lt_Some in Hj.
  - exists dense, results. split; [apply Hr, column_iter_perm|]. rewrite Hn, dense_nrows, Hc. split_and!; [done|done|done|].
    intros j id Hj. destruct (cat !! id) as [c|] eqn:E.
    + destruct (Hk j c) as (w & Hw' & Hp & _); [apply columns_of_spec; eauto|]. exists w. by rewrite <- (dense_col m j id Hj).
    + destruct (Ho j) as [Hcol Hres]; [|by rewrite <- (dense_col m j id Hj)].
      intros [c Hc']%(columns_of_fst _ _ _ _ Hj). congruence.
Qed.

Lemma rep_vector_length m weights : length (rep_vector m weights) = length (sm_voters m).
Proof. unfold rep_vector. destruct (f64_gt _ _); [by rewrite !length_map|]. unfold uniform. by rewrite length_replicate. Qed.

Lemma rep_vector_plus m weights : (∀ a x, weights !! a = Some x → plus x) → Forall (fun x => plus x) (rep_vector m weights).
Proof.
  intros H. unfold rep_vector. destruct (f64_gt _ _) eqn:E; [|apply uniform_plus]. apply Forall_map, Forall_map, Forall_forall.
  intros voter _. apply div_plus; [|by apply gt_zero_plus]. unfold weight_of. destruct (weights !! voter) eqn:Ew; [by eapply H|done].
Qed.

(** The loop over the decisions. *)
Lemma outcome_fold_spec r results cat ds acc : NoDup ds →
  try_fold (outcome_step r results cat) (∅, ∅) (imap pair ds) = Ok acc →
  dom acc.1 = list_to_set ds ∧
  ∀ j id, ds !! j = Some id →
    decision_outcome r results (default 0 (cat !! id)) j = (o ← ok_or (acc.1 !! id) MathPanicked; Ok o) ∧
    acc.2 !! id = results !! j.
Proof.
  intros Hnd H.
  assert (dom acc.1 = list_to_set (imap pair ds).*2 ∧
    (∀ id, id ∉ (imap pair ds).*2 → acc.2 !! id = None) ∧
    (NoDup (imap pair ds).*2 → ∀ j id, (j, id) ∈ imap pair ds →
      decision_outcome r results (default 0 (cat !! id)) j = (o ← ok_or (acc.1 !! id) MathPanicked; Ok o) ∧
      acc.2 !! id = results !! j)) as (Hdom & _ & Hall).
  { revert H. apply (try_fold_inv (fun seen acc => dom acc.1 = list_to_set seen.*2 ∧
      (∀ id, id ∉ seen.*2 → acc.2 !! id = None) ∧
      (NoDup seen.*2 → ∀ j id, (j, id) ∈ seen →
        decision_outcome r results (default 0 (cat !! id)) j = (o ← ok_or (acc.1 !! id) MathPanicked; Ok o) ∧
        acc.2 !! id = results !! j))).
    - split_and!; [set_solver|done|]. intros _ j id Hin. by apply not_elem_of_nil in Hin.
    - intros seen [outs wins] [j id] acc' (IH1 & IH2 & IH3) _. cbn [fst snd] in *. unfold outcome_step. cbn [fst snd].
      destruct (decision_outcome _ _ _ j) as [o|] eqn:Eo; [|done]. simpl. intros [= <-]. cbn [fst snd].
      rewrite fmap_app. simpl. split_and!.
      + rewrite dom_insert_L, IH1. set_solver.
      + intros id' Hni. rewrite not_elem_of_app in Hni. destruct Hni as [Hni Hne].
        assert (id ≠ id') by set_solver. destruct (results !! j); [rewrite lookup_insert_ne by done|]; by apply IH2.
      + intros Hnd' j' id' Hin. apply NoDup_app in Hnd' as (Hnd1 & Hdis & _).
        apply elem_of_app in Hin as [Hin|Hin].
        * assert (id' ≠ id) as Hne.
          { intros ->. apply (Hdis id); [by apply (list_elem_of_fmap_2 snd) in Hin|left]. }
          destruct (IH3 Hnd1 j' id' Hin) as [H1 H2]. rewrite lookup_insert_ne by done. split; [done|].
          destruct (results !! j); [by rewrite lookup_insert_ne by done|done].
        * apply list_elem_of_singleton in Hin as [= -> ->]. rewrite lookup_insert_eq. split; [by rewrite Eo|].
          destruct (results !! j) eqn:Er; [by rewrite lookup_insert_eq|]. apply IH2. intros Hin'.
          apply (Hdis id); [done|left]. }
  rewrite snd_pairs in *. split; [done|]. intros j id Hj. apply Hall; [done|]. by apply elem_of_pairs.
Qed.

(** The loop over the voters. *)
Lemma reputation_fold_spec smooth scale vs acc :
  try_fold (reputation_step smooth scale) (∅, None) (imap pair vs) = Ok acc →
  dom acc.1 = list_to_set vs ∧
  (Forall (fun x => plus x) smooth → plus scale → ∀ a x, acc.1 !! a = Some x → plus x).
Proof.
  intros H. rewrite <- (snd_pairs vs) at 1. revert H. apply (try_fold_inv (fun seen acc => dom acc.1 = list_to_set seen.*2 ∧
    (Forall (fun x => plus x) smooth → plus scale → ∀ a x, acc.1 !! a = Some x → plus x))).
  - split; [set_solver|]. intros _ _ a x Hx. simpl in Hx. by rewrite lookup_empty in Hx.
  - intros seen [reps best] [i a] acc' [IH1 IH2] _. unfold reputation_step, vec_at. cbn [fst snd].
    destruct (smooth !! i) as [x|] eqn:Ex; simpl; [|done]. intros [= <-]. cbn [fst snd]. rewrite fmap_app. simpl. split.
    + simpl in IH1. rewrite dom_insert_L, IH1. set_solver.
    + intros Hs Hp b y. rewrite lookup_insert_Some. intros [[_ <-]|[_ Hy]]; [|by eapply IH2].
      unfold round_reputation, round_to_precision. pose proof (Forall_lookup_1 _ _ _ _ Hs Ex) as Hx. cbv beta in Hx.
      destruct (negb _); [by apply mul_plus|]. apply div_plus; [|by vm_compute]. apply round_int_plus, mul_plus; [|by vm_compute].
      by apply mul_plus.
Qed.

Lemma adjust_spec total updated best : dom (adjust_residual total updated best) = dom updated ∧
  ∃ a0, ∀ a, a ≠ a0 → adjust_residual total updated best !! a = updated !! a.
Proof.
  unfold adjust_residual. destruct best as [[voter x]|]; [|split; [done|by exists []]].
  destruct (f64_gt _ _); [|split; [done|by exists []]].
  split; [apply dom_alter_L|]. exists voter. intros a Ha. by rewrite lookup_alter_ne.
Qed.

(** The outcome of a decision and its winning option: by plurality when it is
    categorical; otherwise none exactly when nobody voted, the rounded median
    when it is scaled, and zero, one half or one when it is binary. *)
Definition outcome_is (m : SparseVoteMatrix) (scaled : gset DecisionId) (cat : gmap DecisionId Z) (id : DecisionId)
  (outcome : option (option f64)) (winner : option (option Z)) : Prop :=
  match cat !! id with
  | Some count => ∃ w, winner = Some w ∧ plurality count (votes_on m id) w ∧
      outcome = Some (Some (match w with
                            | Some k => if k <? count then f64_of_Z k else f64_half
                            | None => f64_half
                            end))
  | None => winner = None ∧
      match outcome with
      | Some (Some x) => voted (votes_on m id) = true ∧
          if decide (id ∈ scaled) then ∃ v, scaled_value (votes_on m id) v ∧ x = round_outcome v else catch_value x
      | Some None => voted (votes_on m id) = false
      | None => False
      end
  end.

(** A consensus that was reached, in terms of its parts. *)
Record consensus_ok (m : SparseVoteMatrix) (weights : gmap Address f64) (scaled : gset DecisionId)
  (cat : gmap DecisionId Z) (r : DetailedConsensusResult) : Prop := {
  ck_outcomes : dom (dc_outcomes r) = list_to_set (sm_decisions m);
  ck_reputations : dom (dc_updated_reputations r) = list_to_set (sm_voters m);
  ck_plus : (∀ a x, weights !! a = Some x → plus x) →
    Z.of_nat (length (sm_voters m) * length (sm_decisions m)) < 2 ^ 53 →
    ∃ a0, ∀ a x, a ≠ a0 → dc_updated_reputations r !! a = Some x → plus x;
  ck_kind : NoDup (sm_decisions m) → ∀ id, id ∈ sm_decisions m →
    outcome_is m scaled cat id (dc_outcomes r !! id) (dc_categorical_winners r !! id)
}.

Lemma decision_outcome_gives dense rep flags r results count j : factory_ok dense rep flags r → (j < dm_ncols dense)%nat →
  gives (fun _ => True) (decision_outcome r results count j).
Proof.
  intros [_ _ _ Hv Hd] Hj. unfold decision_outcome. destruct (results !! j); [done|]. unfold vec_at.
  rewrite (Hv j Hj). simpl. destruct (voted _); [|done]. destruct (Hd j Hj) as (d & -> & _). done.
Qed.

Lemma outcome_dom r results cat ds acc :
  try_fold (outcome_step r results cat) (∅, ∅) (imap pair ds) = Ok acc → dom acc.1 = list_to_set ds.
Proof.
  intros H. rewrite <- (snd_pairs ds). revert H. apply (try_fold_inv (fun seen acc => dom acc.1 = list_to_set seen.*2)).
  - set_solver.
  - intros seen [outs wins] [j id] acc' IH _. unfold outcome_step. cbn [fst snd] in *.
    destruct (decision_outcome _ _ _ j); simpl; [|done]. intros [= <-]. cbn [fst snd]. rewrite fmap_app, dom_insert_L, IH. set_solver.
Qed.

Lemma scale_plus total consensus n : plus (if f64_gt consensus f64_zero && f64_gt total f64_zero
    then f64_div total consensus else f64_mul (f64_of_Z (Z.of_nat n)) BITCOIN_HIVEMIND_NEUTRAL_VALUE).
Proof.
  destruct (_ && _) eqn:E.
  - apply andb_true_iff in E as [? ?]. by apply div_plus; apply gt_zero_plus.
  - apply mul_plus; [apply f64_of_Z_plus; lia|by vm_compute].
Qed.

Lemma outcome_kind m dense rep scaled cat r results (outs : gmap DecisionId (option f64)) (wins : gmap DecisionId (option Z)) j id :
  factory_ok dense rep (map (fun id => bool_decide (id ∈ scaled)) (sm_decisions m)) r →
  sm_decisions m !! j = Some id → (j < dm_ncols dense)%nat →
  match cat !! id with
  | Some c => ∃ w, results !! j = Some w ∧ plurality c (votes_on m id) w
  | None => results !! j = None ∧ col dense j = votes_on m id
  end →
  decision_outcome r results (default 0 (cat !! id)) j = (o ← ok_or (outs !! id) MathPanicked; Ok o) →
  wins !! id = results !! j → outcome_is m scaled cat id (outs !! id) (wins !! id).
Proof.
  intros [_ _ _ Hvotes Hdec] Hj Hlt Hres Hdo Hwin. rewrite Hwin. unfold outcome_is.
  unfold decision_outcome in Hdo. destruct (cat !! id) as [count|].
  - destruct Hres as (w & Hw' & Hp). rewrite Hw' in *. simpl in Hdo.
    destruct (outs !! id) as [o|]; [|done]. simpl in Hdo. injection Hdo as <-. by exists w.
  - destruct Hres as [Hnone Hcol]. rewrite Hnone in *. split; [done|]. unfold vec_at in Hdo. rewrite (Hvotes j Hlt) in Hdo.
    simpl in Hdo. rewrite Hcol in Hdo. destruct (Hdec j Hlt) as (d & Hd' & Hkind). rewrite Hd' in Hdo. rewrite Hcol in Hkind.
    rewrite list_lookup_fmap, Hj in Hkind. simpl in Hkind. destruct (outs !! id) as [o|]; [|by destruct (voted _)].
    destruct (voted (votes_on m id)); simpl in Hdo; injection Hdo as <-; [|done].
    split; [done|]. case_bool_decide; case_decide; try done; [eauto|]. by rewrite round_catch_value.
Qed.

Lemma run_consensus_gives m weights scaled cat : sm_voters m ≠ [] → sm_decisions m ≠ [] →
  gives (consensus_ok m weights scaled cat) (run_consensus m weights scaled cat).
Proof.
  intros Hv Hd. unfold run_consensus. destruct (resolve_votes m cat) as (dense & results & -> & Hw & Hn & Hc & Hres).
  cbn [mbind result_bind]. eapply gives_bind; [apply (factory_gives dense (rep_vector m weights) _ Hw)|].
  { by rewrite rep_vector_length, Hn. } { rewrite Hn. by destruct (sm_voters m); [|simpl; lia]. }
  { rewrite Hc. by destruct (sm_decisions m); [|simpl; lia]. }
  intros r Hr. pose proof Hr as [Hold Hsm Hplus Hvotes Hdec].
  assert (gives (fun _ => True) (try_fold (outcome_step r results cat) (∅, ∅) (imap pair (sm_decisions m)))) as Ho.
  { apply gives_try_fold; [|done]. intros acc [j id] Hin%elem_of_pairs _. unfold outcome_step. cbn [fst snd].
    eapply gives_bind; [eapply decision_outcome_gives; [exact Hr|]|done]. apply lookup_lt_Some in Hin. lia. }
  destruct (try_fold (outcome_step r results cat) _ _) as [[outs wins]|] eqn:Eo; [|done]. cbn [mbind result_bind]. cbv zeta.
  set (scale := if _ && _ then _ else _).
  assert (gives (fun _ => True) (try_fold (reputation_step (rw_smooth_rep (fa_agents r)) scale) (∅, None) (imap pair (sm_voters m)))) as Hrep.
  { apply gives_try_fold; [|done]. intros acc [j a] Hin%elem_of_pairs _. unfold reputation_step. cbn [fst snd].
    eapply gives_bind; [apply gives_at|done]. apply lookup_lt_Some in Hin. lia. }
  destruct (try_fold (reputation_step _ scale) _ _) as [[updated best]|] eqn:Er; [|done]. cbn [mbind result_bind].
  eapply gives_bind.
  { apply (gives_try_fold (fun _ => True)); [|done]. intros acc [j a] Hin%elem_of_pairs _. apply lookup_lt_Some in Hin.
    unfold outlier_step. cbn [fst snd]. eapply gives_bind; [apply gives_at; rewrite Hold, rep_vector_length; lia|]. intros old _.
    eapply gives_bind; [apply gives_at; lia|done]. }
  intros outliers _. apply reputation_fold_spec in Er as [Hdom Hpl]. cbn [fst] in Hdom, Hpl.
  destruct (adjust_spec (f64_sum (map (weight_of weights) (sm_voters m))) updated best) as [Hadom [a0 Ha0]].
  constructor; cbn [dc_outcomes dc_updated_reputations dc_categorical_winners].
  - by apply (outcome_dom _ _ _ _ _ Eo).
  - by rewrite Hadom.
  - intros Hw' Hb. exists a0. intros a x Hne. rewrite Ha0 by done. apply Hpl; [|apply scale_plus].
    apply Hplus; [by apply rep_vector_plus|by rewrite Hn, Hc].
  - intros Hnd id [j Hj]%list_elem_of_lookup_1. destruct (outcome_fold_spec _ _ _ _ _ Hnd Eo) as [_ Hall].
    destruct (Hall j id Hj) as [Hdo Hwin].
    by apply (outcome_kind m dense (rep_vector m weights) scaled cat r results _ _ j id Hr Hj ltac:(apply lookup_lt_Some in Hj; lia) (Hres j id Hj)).
Qed.

End Consensus.

(** C21: categorical decisions are resolved by plurality.  For distinct columns the
    resolution succeeds, whatever the order in which they are listed; a column
    without a counted vote has no winner, an option below the count wins exactly when
    it has more votes than every other, and otherwise the decision is
    inconclusive; the votes for the winner become one and the others zero, and
    the other columns stay as they were. *)
Theorem plurality_exact m cols :
  dm_wf m → NoDup cols.*1 → Forall (fun e => (e.1 < dm_ncols m)%nat) cols →
  ∃ m' results, (∀ cols', cols' ≡ₚ cols → resolve_categorical_plurality m cols' = Ok (m', results)) ∧
    dm_wf m' ∧ nrows m' = nrows m ∧ dm_ncols m' = dm_ncols m ∧
    (∀ j, j ∉ cols.*1 → col m' j = col m j ∧ results !! j = None) ∧
    (∀ j oc, (j, oc) ∈ cols → ∃ w, results !! j = Some w ∧ plurality oc (col m j) w ∧ col m' j = marked w (col m j)).
Proof. apply resolve_any_order. Qed.

Section Theorems.
Context {LA : LinearAlgebra} {CO : ColumnOrder}.

Lemma run_consensus_empty m weights scaled cat :
  sm_voters m = [] ∨ sm_decisions m = [] → run_consensus m weights scaled cat = Err EmptyMatrix.
Proof.
  intros He. unfold run_consensus. destruct (resolve_votes m cat) as (dense & results & -> & _ & Hn & Hc & _).
  cbn [mbind result_bind]. unfold factory. rewrite Hn, Hc.
  assert (bool_decide (length (sm_decisions m) = 0%nat) || bool_decide (length (sm_voters m) = 0%nat) = true) as ->; [|done].
  destruct He as [-> | ->]; simpl; [by rewrite orb_true_r|done].
Qed.

Lemma run_consensus_ok m weights scaled cat r :
  run_consensus m weights scaled cat = Ok r → consensus_ok m weights scaled cat r.
Proof.
  intros Hr. destruct (decide (sm_voters m = [] ∨ sm_decisions m = [])) as [He|He].
  - by rewrite run_consensus_empty in Hr.
  - pose proof (run_consensus_gives m weights scaled cat ltac:(auto) ltac:(auto)) as H. by rewrite Hr in H.
Qed.

(** C20: the oracle never panics.  It answers with an outcome for every decision of
    the matrix and a reputation for every voter, or fails because there are no
    voters or no decisions, because the weights add up to nothing, or because
    the decomposition failed: no vector is read out of range and no operands
    differ in shape. *)
Theorem oracle_never_panics m weights scaled cat :
  match run_consensus m weights scaled cat with
  | Ok r => dom (dc_outcomes r) = list_to_set (sm_decisions m) ∧
            dom (dc_updated_reputations r) = list_to_set (sm_voters m)
  | Err EmptyMatrix => sm_voters m = [] ∨ sm_decisions m = []
  | Err (InvalidReputation _) | Err (NumericalError _) => sm_voters m ≠ [] ∧ sm_decisions m ≠ []
  | Err _ => False
  end.
Proof.
  destruct (decide (sm_voters m = [] ∨ sm_decisions m = [])) as [He|He]; [by rewrite run_consensus_empty|].
  pose proof (run_consensus_gives m weights scaled cat ltac:(auto) ltac:(auto)) as H.
  destruct (run_consensus m weights scaled cat) as [r|[]]; try done; [by destruct H|auto|auto].
Qed.

(** The outcomes the oracle decides.  When it succeeds, a categorical decision
    has the option with more votes than any other, or is inconclusive at one
    half; a binary decision resolves to zero, one half or one; a scaled one to
    the rounded value of a vote, of a provisional outcome or of the mean of two
    of these; and a decision has no outcome exactly when nobody voted on it. *)
Theorem oracle_outcomes_typed m weights scaled cat r :
  NoDup (sm_decisions m) → run_consensus m weights scaled cat = Ok r →
  ∀ id, id ∈ sm_decisions m → outcome_is m scaled cat id (dc_outcomes r !! id) (dc_categorical_winners r !! id).
Proof.
  intros Hnd Hr id Hid. by apply (ck_kind _ _ _ _ _ (run_consensus_ok _ _ _ _ _ Hr)).
Qed.

(** C22: no voter but one ends with a negative reputation.  When the weights have no
    minus sign, every reputation the oracle computes has none, but possibly that
    of the voter who takes what the rounding lost: the ratios of participation
    never exceed one, so every term that is added is non-negative. *)
Theorem oracle_reputations_plus m weights scaled cat r :
  (∀ a x, weights !! a = Some x → plus_signed x = true) →
  Z.of_nat (length (sm_voters m) * length (sm_decisions m)) < 2 ^ 53 →
  run_consensus m weights scaled cat = Ok r →
  ∃ a0, ∀ a x, a ≠ a0 → dc_updated_reputations r !! a = Some x → plus_signed x = true.
Proof.
  intros Hw Hb Hr. by apply (ck_plus _ _ _ _ _ (run_consensus_ok _ _ _ _ _ Hr)).
Qed.

(** ** The consensus of a period *)

Lemma votes_keep_decisions l m m' : try_fold vote_step m l = Ok m' → sm_decisions m' = sm_decisions m ∧ sm_voters m' = sm_voters m.
Proof.
  apply (try_fold_inv (fun _ m' => sm_decisions m' = sm_decisions m ∧ sm_voters m' = sm_voters m)); [done|].
  intros _ b e b' [IH1 IH2] _. unfold vote_step. destruct (to_float_opt _) as [x|]; [|intros [= <-]; done].
  unfold set_vote. destruct (sm_voter_indices b !! _); simpl; [|done]. destruct (sm_decision_indices b !! _); simpl; [|done].
  intros [= <-]. done.
Qed.

Lemma scaled_decisions_spec ddb ids id : id ∈ scaled_decisions ddb ids ↔ id ∈ ids ∧ entry_scaled ddb id = true.
Proof. unfold scaled_decisions. rewrite elem_of_list_to_set, list_elem_of_filter. tauto. Qed.

Lemma plurality_winner_range oc values w : plurality oc values (Some w) → w < oc → 0 ≤ w.
Proof.
  intros [(k & Hk & Hv) [[Hw Hmax]|[-> _]]] Hlt; [|lia].
  assert (0 < votes_for values w)%nat as H.
  { destruct (decide (k = w)) as [->|Hne]; [done|]. specialize (Hmax k Hk Hne). lia. }
  unfold votes_for in H. destruct (filter _ values) as [|x l] eqn:E; [simpl in H; lia|].
  assert (x ∈ filter (fun x => is_nan x = false ∧ option_of x = w) values) as Hin by (rewrite E; left).
  apply list_elem_of_filter in Hin as [[_ <-] _]. unfold option_of, f64_as_u16. apply f64_cast_range. lia.
Qed.

(** The values a decision can be resolved to. *)
Definition resolution_allowed (ddb : Dbs) (ids : list DecisionId) (id : DecisionId) (x : f64) : Prop :=
  match categorical_decisions ddb ids !! id with
  | Some count => x = f64_half ∨ ∃ k, 0 ≤ k < count ∧ x = f64_of_Z k
  | None => entry_scaled ddb id = true ∨ catch_value x
  end.

Lemma outcome_allowed m ddb ids id o w : id ∈ ids →
  outcome_is m (scaled_decisions ddb ids) (categorical_decisions ddb ids) id (Some o) w →
  resolution_allowed ddb ids id (default f64_half o).
Proof.
  intros Hid. unfold outcome_is, resolution_allowed. destruct (categorical_decisions ddb ids !! id) as [count|].
  - intros (k & _ & Hp & [= ->]). simpl. destruct k as [k|]; [|by left]. destruct (Z.ltb_spec k count); [|by left].
    right. exists k. split; [|done]. split; [by eapply plurality_winner_range|done].
  - intros [_ Ho]. destruct o as [x|]; [|right; right; by left]. simpl. destruct Ho as [_ Ho].
    destruct (decide _) as [Hs|_] in Ho; [left; by apply scaled_decisions_spec in Hs as [_ ?]|by right].
Qed.

(** C19: what the consensus of a period can decide.  Computed with the oracle, it
    stores an outcome for decisions of the period only: one of the options or
    one half for a categorical decision, zero, one half or one for a binary
    one. *)
Theorem consensus_decides vdb reps ddb period ts height r :
  NoDup (decision_ids period) →
  compute_consensus run_consensus vdb reps ddb period ts height = Ok (Some r) →
  ∀ o, o ∈ cr_decision_outcomes r →
    do_decision_id o ∈ decision_ids period ∧
    resolution_allowed ddb (sort_by DecisionId_cmp (decision_ids period)) (do_decision_id o) (do_outcome_value o).
Proof.
  intros Hnd. unfold compute_consensus. destruct (negb _); [done|].
  assert (∀ period_id id, resolution_allowed ddb (sort_by DecisionId_cmp (decision_ids period)) id
    (do_outcome_value (default_outcome period_id id))) as Hdef.
  { intros pid id. unfold resolution_allowed. cbn [default_outcome DecisionOutcome_new do_outcome_value].
    destruct (categorical_decisions _ _ !! id); [by left|right; right; by left]. }
  case_bool_decide.
  - intros H'. injection H' as <-. cbn [cr_decision_outcomes]. intros o (id & -> & Hid)%list_elem_of_fmap. done.
  - destruct (bool_decide _ || _); [done|]. intros H'. inv_ok. cbn [cr_decision_outcomes].
    match goal with Hm : try_fold vote_step _ _ = Ok ?m |- _ => apply votes_keep_decisions in Hm as [Hds _]; simpl in Hds end.
    match goal with Hr : run_consensus _ _ _ _ = Ok _ |- _ => pose proof (run_consensus_ok _ _ _ _ _ Hr) as Hok end.
    pose proof (ck_outcomes _ _ _ _ _ Hok) as Hdom. rewrite Hds in Hdom.
    intros o [([id out] & -> & Hin%elem_of_map_to_list)%list_elem_of_fmap|(id & -> & [_ Hid]%list_elem_of_filter)%list_elem_of_fmap]%elem_of_app; [|done].
    cbn [oracle_outcome DecisionOutcome_new do_decision_id do_outcome_value fst snd].
    assert (id ∈ sort_by DecisionId_cmp (decision_ids period)) as Hid.
    { apply elem_of_dom_2 in Hin. rewrite Hdom in Hin. by apply elem_of_list_to_set in Hin. }
    split; [by rewrite sort_by_perm in Hid|]. eapply outcome_allowed; [done|]. rewrite <- Hin.
    apply (ck_kind _ _ _ _ _ Hok); rewrite Hds; [by rewrite sort_by_perm|done].
Qed.

End Theorems.
