(* ===== verification/OracleSamples.v ===== *)
(** * Runs of the oracle

    A linear algebra whose products are the textbook loops and whose
    decomposition takes the axes for the singular vectors, and a period with
    three voters on which the theorems about the oracle are evaluated. *)

From stdpp Require Import base numbers list strings gmap.
From Stdlib Require Import SpecFloat.
From S2P Require Import Prelude Float64 FloatSigns SafeMath StateErrors DecisionTypes Periods DecisionsDb Voting VotingFacts.
From S2P Require Import Oracle OracleFacts OracleConsensus.

Definition dot (a b : DVector) : f64 := foldl (fun s p => f64_add s (f64_mul p.1 p.2)) f64_zero (zip a b).

Definition axes (n k : nat) : DMatrix :=
  {| dm_ncols := k;
     dm_rows := map (fun i => map (fun j => if bool_decide (i = j) then f64_one else f64_zero) (seq 0 k)) (seq 0 n) |}.

Definition dense_mul (a b : DMatrix) : DMatrix :=
  {| dm_ncols := dm_ncols b;
     dm_rows := map (fun row => map (fun j => dot row (col b j)) (seq 0 (dm_ncols b))) (dm_rows a) |}.

Lemma axes_shape n k : dm_ncols (axes n k) = k ∧ nrows (axes n k) = n ∧ dm_wf (axes n k).
Proof.
  unfold axes, nrows, dm_wf. simpl. rewrite length_map, length_seq. split_and!; [done|done|].
  apply Forall_map, Forall_forall. intros i _. by rewrite length_map, length_seq.
Qed.

Lemma dense_mul_shape a b :
  dm_ncols (dense_mul a b) = dm_ncols b ∧ nrows (dense_mul a b) = nrows a ∧ dm_wf (dense_mul a b).
Proof.
  unfold dense_mul, nrows, dm_wf. simpl. rewrite length_map. split_and!; [done|done|].
  apply Forall_map, Forall_forall. intros row _. by rewrite length_map, length_seq.
Qed.

#[export] Instance dense_algebra : LinearAlgebra.
Proof.
  refine {|
    na_sum := f64_fold_sum;
    na_mean v := f64_div (f64_fold_sum v) (f64_of_Z (Z.of_nat (length v)));
    na_min v := foldr (fun x y => if f64_lt x y then x else y) (S754_infinity false) v;
    na_max v := foldr (fun x y => if f64_gt x y then x else y) (S754_infinity true) v;
    mat_vec m v := map (fun row => dot row v) (dm_rows m);
    mat_mul := dense_mul;
    svd_u m := Some (axes (nrows m) (Nat.min (nrows m) (dm_ncols m)))
  |}.
  - intros v Hv. by apply sum_plus.
  - intros m v. apply length_map.
  - apply dense_mul_shape.
  - intros m u [= <-]. apply axes_shape.
Defined.

#[export] Instance listed_columns : ColumnOrder :=
  {| column_iter l := rev l; column_iter_perm l := Permutation_sym (Permutation_rev l) |}.

(** Three voters; a binary decision and a categorical one with two options. *)
Definition binary_id : DecisionId := {| byte0 := 128; byte1 := 0; byte2 := 1 |}.
Definition option_id : DecisionId := {| byte0 := 128; byte1 := 0; byte2 := 2 |}.
Definition voters3 : list Address := [[1]; [2]; [3]].
Definition weights3 : gmap Address f64 := {[ [1] := f64_half; [2] := f64_dec 25 2; [3] := f64_dec 25 2 ]}.

Definition cast (m : SparseVoteMatrix) (e : Address * DecisionId * f64) : SparseVoteMatrix :=
  run (set_vote m e.1.1 e.1.2 e.2) m.

Definition matrix3 : SparseVoteMatrix :=
  foldl cast (SparseVoteMatrix_new voters3 [binary_id; option_id])
    [([1], binary_id, f64_one); ([2], binary_id, f64_one); ([3], binary_id, f64_zero);
     ([1], option_id, f64_one); ([3], option_id, f64_one); ([2], option_id, f64_zero)].

Definition consensus3 : DetailedConsensusResult :=
  Eval vm_compute in
  match run_consensus matrix3 weights3 ∅ {[ option_id := 2 ]} with
  | Ok r => r
  | Err _ => {| dc_outcomes := ∅; dc_first_loading := []; dc_certainty := f64_zero; dc_updated_reputations := ∅;
                dc_outliers := []; dc_categorical_winners := ∅ |}
  end.

Lemma consensus3_computed : run_consensus matrix3 weights3 ∅ {[ option_id := 2 ]} = Ok consensus3.
Proof. vm_compute. reflexivity. Qed.

Example consensus3_outcomes :
  dc_outcomes consensus3 !! binary_id = Some (Some f64_one) ∧
  dc_outcomes consensus3 !! option_id = Some (Some f64_one) ∧
  dc_categorical_winners consensus3 !! option_id = Some (Some 1).
Proof. vm_compute. done. Qed.

Lemma oracle_outcomes_typed_witness :
  outcome_is matrix3 ∅ {[ option_id := 2 ]} binary_id (dc_outcomes consensus3 !! binary_id)
    (dc_categorical_winners consensus3 !! binary_id).
Proof.
  apply (oracle_outcomes_typed matrix3 weights3 ∅ {[ option_id := 2 ]} consensus3).
  - apply (bool_decide_unpack _). vm_compute. exact I.
  - exact consensus3_computed.
  - apply (bool_decide_unpack _). vm_compute. exact I.
Defined.

Lemma oracle_reputations_plus_witness :
  ∃ a0, ∀ a x, a ≠ a0 → dc_updated_reputations consensus3 !! a = Some x → plus_signed x = true.
Proof.
  apply (oracle_reputations_plus matrix3 weights3 ∅ {[ option_id := 2 ]} consensus3).
  - assert (map_Forall (fun _ x => plus_signed x = true) weights3) as H
      by (apply (bool_decide_unpack _); vm_compute; exact I).
    exact H.
  - vm_compute. reflexivity.
  - exact consensus3_computed.
Defined.

Lemma plurality_exact_witness :
  ∃ m' results, resolve_categorical_plurality (dense_votes matrix3) [(1%nat, 2)] = Ok (m', results) ∧
    results !! 1%nat = Some (Some 1).
Proof.
  destruct (plurality_exact (dense_votes matrix3) [(1%nat, 2)]) as (m' & results & H & _ & _ & _ & _ & Hk).
  - apply dense_wf.
  - apply (bool_decide_unpack _). vm_compute. exact I.
  - repeat constructor.
  - exists m', results. split; [by apply H|]. destruct (Hk 1%nat 2 ltac:(left)) as (w & Hw & _).
    specialize (H _ (Permutation_refl _)). vm_compute in H. injection H as _ <-. vm_compute. reflexivity.
Defined.

(** A period with one binary decision. *)
Definition cast_votes : VotingDatabases := sample_votes [sample_vote 1 1; sample_vote 1 2].

Definition binary_period_outcomes : option (list (DecisionId * f64)) :=
  match compute_consensus run_consensus cast_votes sample_reputations sample_dbs sample_period 99 12 with
  | Ok (Some r) => Some (cr_decision_resolutions r)
  | _ => None
  end.

Example binary_period_decided : binary_period_outcomes = Some [(sample_decision_id, f64_one)].
Proof. vm_compute. reflexivity. Qed.

Lemma consensus_decides_witness :
  match compute_consensus run_consensus cast_votes sample_reputations sample_dbs sample_period 99 12 with
  | Ok (Some r) => ∀ o, o ∈ cr_decision_outcomes r → do_decision_id o = sample_decision_id
  | _ => False
  end.
Proof.
  pose proof (consensus_decides cast_votes sample_reputations sample_dbs sample_period 99 12) as H.
  pose proof binary_period_decided as Hs. unfold binary_period_outcomes in Hs.
  destruct (compute_consensus run_consensus _ _ _ _ _ _) as [[r|]|]; [|done|done]. intros o Ho.
  destruct (H r ltac:(apply NoDup_singleton) eq_refl o Ho) as [Hid _]. by apply list_elem_of_singleton in Hid.
Defined.

(** The tests of the source. *)
Example weighted_median_tests :
  let values := [f64_of_Z 3; f64_of_Z 4; f64_of_Z 5] in
  weighted_median values [f64_dec 2 1; f64_dec 2 1; f64_dec 6 1] = Ok (f64_of_Z 5) ∧
  weighted_median values [f64_dec 2 1; f64_dec 2 1; f64_dec 4 1] = Ok (f64_dec 45 1) ∧
  weighted_median [] [] = Err EmptyMatrix ∧
  is_ok (weighted_median values [f64_zero; f64_zero; f64_zero]) = false.
Proof. vm_compute. done. Qed.

Example catch_tl_tests :
  catch_tl (f64_dec 2 1) CONSENSUS_CATCH_TOLERANCE = f64_zero ∧
  catch_tl f64_half CONSENSUS_CATCH_TOLERANCE = f64_half ∧
  catch_tl (f64_dec 8 1) CONSENSUS_CATCH_TOLERANCE = f64_one ∧
  catch_tl (f64_dec 14 2) (f64_dec 7 1) = f64_zero ∧ catch_tl (f64_dec 16 2) (f64_dec 7 1) = f64_half.
Proof. vm_compute. done. Qed.

Example normalize_weights_tests :
  normalize_weights [f64_one; f64_one; f64_one; f64_one] false = replicate 4 (f64_dec 25 2) ∧
  normalize_weights [f64_zero; f64_zero; f64_zero; f64_zero] true = replicate 4 (f64_dec 25 2) ∧
  normalize_weights [S754_nan; S754_nan; S754_nan] true = replicate 3 (f64_div f64_one (f64_of_Z 3)).
Proof. vm_compute. done. Qed.
