(* ===== verification/MarketsDb.v ===== *)
(** * The markets database

    The market tables with their three indexes, share accounts and pointers to
    market funds (src/lib/state/markets/database.rs), the distribution of fees
    (src/lib/state/markets/payouts.rs), and the settlement of resolved markets
    with its reversal (src/lib/state/markets/database.rs, src/lib/state/block.rs). *)

From stdpp Require Import base numbers list strings gmap.
From S2P Require Import Prelude Float64 SafeMath Allocation MarketMath StateErrors DecisionTypes.
From S2P Require Import Periods Pricing DecisionsDb Markets Transactions Voting.

(** ** Tables and indexes *)

Record MarketsDatabase : Type := {
  markets : gmap MarketId Market;
  state_index : gmap MarketState (list MarketId);
  expiry_index : gmap Z (list MarketId);
  decision_index : gmap DecisionId (list MarketId);
  share_accounts : gmap Address ShareAccount;
  market_funds_utxos : gmap (MarketId * bool) OutPoint;
  mempool_shares : gmap MarketId (list Z)
}.

Definition empty_markets : MarketsDatabase :=
  {| markets := ∅; state_index := ∅; expiry_index := ∅; decision_index := ∅;
     share_accounts := ∅; market_funds_utxos := ∅; mempool_shares := ∅ |}.

Definition set_markets (db : MarketsDatabase) m : MarketsDatabase :=
  {| markets := m; state_index := state_index db; expiry_index := expiry_index db;
     decision_index := decision_index db; share_accounts := share_accounts db;
     market_funds_utxos := market_funds_utxos db; mempool_shares := mempool_shares db |}.
Definition set_state_index (db : MarketsDatabase) m : MarketsDatabase :=
  {| markets := markets db; state_index := m; expiry_index := expiry_index db;
     decision_index := decision_index db; share_accounts := share_accounts db;
     market_funds_utxos := market_funds_utxos db; mempool_shares := mempool_shares db |}.
Definition set_expiry_index (db : MarketsDatabase) m : MarketsDatabase :=
  {| markets := markets db; state_index := state_index db; expiry_index := m;
     decision_index := decision_index db; share_accounts := share_accounts db;
     market_funds_utxos := market_funds_utxos db; mempool_shares := mempool_shares db |}.
Definition set_decision_index (db : MarketsDatabase) m : MarketsDatabase :=
  {| markets := markets db; state_index := state_index db; expiry_index := expiry_index db;
     decision_index := m; share_accounts := share_accounts db;
     market_funds_utxos := market_funds_utxos db; mempool_shares := mempool_shares db |}.
Definition set_share_accounts (db : MarketsDatabase) m : MarketsDatabase :=
  {| markets := markets db; state_index := state_index db; expiry_index := expiry_index db;
     decision_index := decision_index db; share_accounts := m;
     market_funds_utxos := market_funds_utxos db; mempool_shares := mempool_shares db |}.
Definition set_funds (db : MarketsDatabase) m : MarketsDatabase :=
  {| markets := markets db; state_index := state_index db; expiry_index := expiry_index db;
     decision_index := decision_index db; share_accounts := share_accounts db;
     market_funds_utxos := m; mempool_shares := mempool_shares db |}.
Definition set_mempool_shares (db : MarketsDatabase) m : MarketsDatabase :=
  {| markets := markets db; state_index := state_index db; expiry_index := expiry_index db;
     decision_index := decision_index db; share_accounts := share_accounts db;
     market_funds_utxos := market_funds_utxos db; mempool_shares := m |}.

Section Index.
Context {K : Type} `{Countable K}.

(** [retain], deleting a list that becomes empty. *)
Definition index_remove (idx : gmap K (list MarketId)) (key : K) (id : MarketId)
  : gmap K (list MarketId) :=
  match filter (fun i => i ≠ id) (default [] (idx !! key)) with
  | [] => delete key idx
  | ids => <[key := ids]> idx
  end.

Definition index_add (idx : gmap K (list MarketId)) (key : K) (id : MarketId)
  : gmap K (list MarketId) :=
  let ids := default [] (idx !! key) in
  if bool_decide (id ∈ ids) then idx else <[key := ids ++ [id]]> idx.

Definition index_move (idx : gmap K (list MarketId)) (id : MarketId) (old new : option K)
  : gmap K (list MarketId) :=
  let idx := match old with Some k => index_remove idx k id | None => idx end in
  match new with Some k => index_add idx k id | None => idx end.

End Index.

Definition update_state_index (db : MarketsDatabase) (id : MarketId) (old new : option MarketState)
  : MarketsDatabase :=
  set_state_index db (index_move (state_index db) id old new).

Definition update_expiry_index (db : MarketsDatabase) (id : MarketId) (old new : option Z)
  : MarketsDatabase :=
  set_expiry_index db (index_move (expiry_index db) id old new).

Definition update_decision_index (db : MarketsDatabase) (id : MarketId) (decision_id : DecisionId)
  (add : bool) : MarketsDatabase :=
  set_decision_index db
    (if add then index_add (decision_index db) decision_id id
     else index_remove (decision_index db) decision_id id).

Definition update_decisions (db : MarketsDatabase) (id : MarketId) (ids : list DecisionId)
  (add : bool) : MarketsDatabase :=
  foldl (fun db d => update_decision_index db id d add) db ids.

Definition add_market (db : MarketsDatabase) (m : Market) : MarketsDatabase :=
  let db := set_markets db (<[m_id m := m]> (markets db)) in
  let db := update_state_index db (m_id m) None (Some (m_market_state m)) in
  let db := match m_expires_at_height m with
            | Some e => update_expiry_index db (m_id m) None (Some e)
            | None => db
            end in
  update_decisions db (m_id m) (m_decision_ids m) true.

Definition delete_market (db : MarketsDatabase) (id : MarketId) : bool * MarketsDatabase :=
  match markets db !! id with
  | None => (false, db)
  | Some m =>
      let db := update_state_index db id (Some (m_market_state m)) None in
      let db := match m_expires_at_height m with
                | Some e => update_expiry_index db id (Some e) None
                | None => db
                end in
      let db := update_decisions db id (m_decision_ids m) false in
      let db := set_funds db (delete (id, true) (delete (id, false) (market_funds_utxos db))) in
      (true, set_markets db (delete id (markets db)))
  end.

Definition get_market (db : MarketsDatabase) (id : MarketId) : option Market := markets db !! id.

Definition get_markets_by_state (db : MarketsDatabase) (s : MarketState) : list Market :=
  omap (get_market db) (default [] (state_index db !! s)).

(** The scan of [get_markets_batch]: stop once as many markets were found as
    ids were asked for. *)
Fixpoint scan_batch (wanted : gset MarketId) (limit found : Z) (l : list (MarketId * Market))
  (acc : gmap MarketId Market) : gmap MarketId Market :=
  match l with
  | [] => acc
  | (id, m) :: l =>
      if bool_decide (id ∈ wanted) then
        let acc := <[id := m]> acc in
        if limit <=? found + 1 then acc else scan_batch wanted limit (found + 1) l acc
      else scan_batch wanted limit found l acc
  end.

Definition get_markets_batch (db : MarketsDatabase) (ids : list MarketId) : gmap MarketId Market :=
  if (length ids <? 3)%nat
  then foldl (fun (acc : gmap MarketId Market) id =>
         match get_market db id with Some m => <[id := m]> acc | None => acc end) ∅ ids
  else scan_batch (list_to_set ids) (Z.of_nat (length ids)) 0 (db_iter bytes_cmp (markets db)) ∅.

Definition write_market_and_indexes (db : MarketsDatabase) (m : Market) (old : option Market)
  : MarketsDatabase :=
  let db := set_markets db (<[m_id m := m]> (markets db)) in
  match old with
  | None => db
  | Some o =>
      let db := if bool_decide (m_market_state o = m_market_state m) then db
                else update_state_index db (m_id m) (Some (m_market_state o)) (Some (m_market_state m)) in
      let db := if bool_decide (m_expires_at_height o = m_expires_at_height m) then db
                else update_expiry_index db (m_id m) (m_expires_at_height o) (m_expires_at_height m) in
      let db := update_decisions db (m_id m)
                  (filter (fun d => d ∉ m_decision_ids m) (remove_dups (m_decision_ids o))) false in
      update_decisions db (m_id m)
        (filter (fun d => d ∉ m_decision_ids o) (remove_dups (m_decision_ids m))) true
  end.

Definition validate_market_state_transition (from to : MarketState) : result Error unit :=
  if market_can_transition_to from to then Ok tt
  else Err (InvalidTransaction "Invalid market state transition").

Definition update_market (db : MarketsDatabase) (m : Market) : result Error MarketsDatabase :=
  let old := get_market db (m_id m) in
  _ ← match old with
      | Some o => validate_market_state_transition (m_market_state o) (m_market_state m)
      | None => Ok tt
      end;
  Ok (write_market_and_indexes db m old).

Definition restore_market (db : MarketsDatabase) (m : Market) : MarketsDatabase :=
  write_market_and_indexes db m (get_market db (m_id m)).

Definition cancel_market (db : MarketsDatabase) (id : MarketId) : result MarketError MarketsDatabase :=
  m ← ok_or (get_market db id) (MarketNotFound id);
  m ← market_cancel m 0;
  map_err (fun _ => MarketDatabaseError "update") (update_market db m).

Definition invalidate_market (db : MarketsDatabase) (id : MarketId)
  : result MarketError MarketsDatabase :=
  m ← ok_or (get_market db id) (MarketNotFound id);
  m ← market_invalidate m 0;
  map_err (fun _ => MarketDatabaseError "update") (update_market db m).

Definition put_mempool_shares (db : MarketsDatabase) (id : MarketId) (shares : list Z)
  : MarketsDatabase := set_mempool_shares db (<[id := shares]> (mempool_shares db)).
Definition clear_mempool_shares (db : MarketsDatabase) (id : MarketId) : MarketsDatabase :=
  set_mempool_shares db (delete id (mempool_shares db)).

Definition set_market_funds_utxo (db : MarketsDatabase) (id : MarketId) (is_fee : bool)
  (o : OutPoint) : MarketsDatabase := set_funds db (<[(id, is_fee) := o]> (market_funds_utxos db)).
Definition clear_market_funds_utxo (db : MarketsDatabase) (id : MarketId) (is_fee : bool)
  : MarketsDatabase := set_funds db (delete (id, is_fee) (market_funds_utxos db)).

(** ** Share accounts *)

Definition add_shares_to_account (db : MarketsDatabase) (address : Address) (id : MarketId)
  (outcome_index shares height : Z) : MarketsDatabase :=
  let account := default ShareAccount_new (share_accounts db !! address) in
  set_share_accounts db
    (<[address := add_shares account id outcome_index shares height]> (share_accounts db)).

Definition remove_shares_from_account (db : MarketsDatabase) (address : Address) (id : MarketId)
  (outcome_index shares height : Z) : result Error MarketsDatabase :=
  account ← ok_or (share_accounts db !! address)
    (InvalidTransaction "No share account found for address");
  account ← map_err (fun _ => InvalidTransaction "Insufficient shares for sell transaction")
    (remove_shares account id outcome_index shares height);
  Ok (set_share_accounts db
        (if bool_decide (positions account = ∅) then delete address (share_accounts db)
         else <[address := account]> (share_accounts db))).

(** The positions of a [BTreeMap] in the order of its keys. *)
Definition position_cmp (a b : MarketId * Z) : comparison :=
  then_cmp (bytes_cmp a.1 b.1) (a.2 ?= b.2).
Definition sorted_positions (a : ShareAccount) : list (MarketId * Z * Z) :=
  db_iter position_cmp (positions a).

Definition get_shareholders_for_market (db : MarketsDatabase) (id : MarketId)
  : list (Address * list (Z * Z)) :=
  omap (fun e =>
    let ps := map (fun p => (p.1.2, p.2)) (filter (fun p => p.1.1 = id) (sorted_positions e.2)) in
    match ps with [] => None | _ => Some (e.1, ps) end)
    (db_iter bytes_cmp (share_accounts db)).

(** Adding one position to the totals of [verify_share_invariant]. *)
Definition add_position (id : MarketId) (totals : list Z) (p : MarketId * Z * Z) : list Z :=
  if bool_decide (p.1.1 = id)
  then alter (fun t => as_i64 (t + p.2)) (Z.to_nat p.1.2) totals else totals.

Definition verify_share_invariant (db : MarketsDatabase) (id : MarketId) : result Error unit :=
  m ← ok_or (get_market db id) (InvalidTransaction "Market not found for invariant check");
  let totals := foldl (fun totals e => foldl (add_position id) totals (sorted_positions e.2))
                  (replicate (length (m_shares m)) 0) (db_iter bytes_cmp (share_accounts db)) in
  if bool_decide (m_shares m = totals) then Ok tt
  else Err (InvalidTransaction "Share invariant violation").

(** ** Fee distribution *)

Definition is_vote_correct (vote : VoteValue) (consensus : f64) (d : Decision) : bool :=
  match vote with
  | VAbstain => false
  | VBinary b => f64_eq (if b then f64_one else f64_zero) consensus
  | VScalar v =>
      if is_scaled d
      then f64_le (round_to_precision (f64_abs (f64_sub v consensus)) 6) (f64_dec 5 2)
      else f64_eq v consensus
  | VCategorical idx =>
      f64_eq (f64_of_Z idx) consensus
      || (f64_eq consensus f64_half && bool_decide (inconclusive_index d = Some idx))
  end.

(** The correct voters of one decision with their reputation, by address. *)
Definition correct_voters_of (vdb : VotingDatabases) (reps : Reputations)
  (outcomes : gmap DecisionId f64) (decisions : gmap DecisionId Decision) (id : DecisionId)
  : list (Address * f64) :=
  match outcomes !! id, decisions !! id with
  | Some consensus, Some d =>
      sort_by (fun a b => bytes_cmp a.1 b.1)
        (omap (fun e : VoteMatrixKey * VoteMatrixEntry =>
           if negb (bool_decide (vk_decision e.1 = id)) then None else
           if negb (is_vote_correct (ve_value e.2) consensus d) then None else
           let reputation := get_reputation reps (vk_voter e.1) in
           if f64_gt reputation f64_zero then Some (vk_voter e.1, reputation) else None)
           (map_to_list (get_votes_for_period vdb (voting_period id))))
  | _, _ => []
  end.

Definition find_correct_voters (vdb : VotingDatabases) (reps : Reputations)
  (ids : list DecisionId) (outcomes : gmap DecisionId f64) (decisions : gmap DecisionId Decision)
  : gmap DecisionId (list (Address * f64)) :=
  list_to_map (map (fun id => (id, correct_voters_of vdb reps outcomes decisions id)) ids).

Inductive FeeRole : Type := CorrectVoter | DecisionAuthor | MarketAuthor.

Record FeePayoutRecord : Type := {
  fp_address : Address;
  fp_amount_sats : Z;
  fp_fee_role : FeeRole
}.

Definition role_order (r : FeeRole) : Z :=
  match r with CorrectVoter => 0 | DecisionAuthor => 1 | MarketAuthor => 2 end.

Definition fee_payout_cmp (a b : FeePayoutRecord) : comparison :=
  then_cmp (role_order (fp_fee_role a) ?= role_order (fp_fee_role b))
    (bytes_cmp (fp_address a) (fp_address b)).

Definition alloc_err {A} (c : result SatoshiError A) (reason : string) : result Error A :=
  map_err (fun _ => InvalidTransaction reason) c.

(** The amount of a named pool, the last one if it occurs twice. *)
Definition pool_of (name : string) (l : list (string * Z)) : Z :=
  foldl (fun acc e => if bool_decide (e.1 = name) then e.2 else acc) 0 l.

(** One decision's share of the voter pool: to its correct voters, or to the
    market author when there are none. *)
Definition pay_decision_voters (voters : gmap DecisionId (list (Address * f64)))
  (acc : list FeePayoutRecord * Z) (e : DecisionId * Z) : result Error (list FeePayoutRecord * Z) :=
  let '(payouts, author_pool) := acc in
  match default [] (voters !! e.1) with
  | [] => Ok (payouts, as_u64 (author_pool + e.2))
  | vs =>
      alloc ← alloc_err (allocate_proportionally_u64 vs e.2) "Voter payout allocation failed";
      Ok (payouts ++ map (fun a => {| fp_address := a.1; fp_amount_sats := a.2;
                                      fp_fee_role := CorrectVoter |}) (allocations alloc),
          author_pool)
  end.

(** The distinct decision authors, by address. *)
Definition decision_authors (ids : list DecisionId) (decisions : gmap DecisionId Decision)
  : list Address :=
  sort_by bytes_cmp
    (remove_dups (omap (fun id => market_maker_pubkey_hash <$> decisions !! id) ids)).

Definition calculate_fee_distribution (vdb : VotingDatabases) (reps : Reputations) (m : Market)
  (fee_sats : Z) (outcomes : gmap DecisionId f64) (decisions : gmap DecisionId Decision)
  : result Error (list FeePayoutRecord) :=
  if fee_sats =? 0 then Ok [] else
  pool_split ← alloc_err
    (allocate_proportionally_u64
       [("voter"%string, f64_of_Z 2); ("decision_author"%string, f64_one);
        ("market_author"%string, f64_one)] fee_sats) "Fee pool split failed";
  let voter_pool := pool_of "voter" (allocations pool_split) in
  let decision_author_pool := pool_of "decision_author" (allocations pool_split) in
  let market_author_pool := pool_of "market_author" (allocations pool_split) in
  let voters := find_correct_voters vdb reps (m_decision_ids m) outcomes decisions in
  '(voter_payouts, market_author_pool) ←
    (if 0 <? voter_pool then
       split ← alloc_err (allocate_proportionally_u64 (map (fun d => (d, f64_one)) (m_decision_ids m))
                            voter_pool) "Voter decision pool split failed";
       try_fold (pay_decision_voters voters) ([], market_author_pool) (allocations split)
     else Ok ([], market_author_pool));
  author_payouts ←
    (if 0 <? decision_author_pool then
       alloc ← alloc_err (allocate_proportionally_u64
                 (map (fun a => (a, f64_one)) (decision_authors (m_decision_ids m) decisions))
                 decision_author_pool) "Decision author allocation failed";
       Ok (map (fun a => {| fp_address := a.1; fp_amount_sats := a.2;
                            fp_fee_role := DecisionAuthor |}) (allocations alloc))
     else Ok []);
  let market_payouts :=
    if 0 <? market_author_pool
    then [ {| fp_address := m_creator_address m; fp_amount_sats := market_author_pool;
              fp_fee_role := MarketAuthor |} ] else [] in
  Ok (sort_by fee_payout_cmp (voter_payouts ++ author_payouts ++ market_payouts)).

(** ** Settlement *)

Record SharePayoutRecord : Type := {
  sp_market_id : MarketId;
  sp_address : Address;
  sp_outcome_index : Z;
  sp_shares_redeemed : Z;
  sp_final_price : f64;
  sp_payout_sats : Z
}.

Record MarketPayoutSummary : Type := {
  mp_market_id : MarketId;
  mp_treasury_distributed : Z;
  mp_total_fees_distributed : Z;
  mp_shareholder_count : Z;
  mp_payouts : list SharePayoutRecord;
  mp_fee_payouts : list FeePayoutRecord;
  mp_creator_refund : option (Address * Z);
  mp_block_height : Z
}.

Definition share_value (shares : Z) (price : f64) : f64 := f64_mul (f64_of_Z shares) price.

(** The redemption of one position; [None] is the panic on a price index out of
    range. *)
Definition share_payout (m : Market) (address : Address) (p : Z * Z) : option SharePayoutRecord :=
  price ← m_final_prices m !! Z.to_nat p.1;
  Some {| sp_market_id := m_id m; sp_address := address; sp_outcome_index := p.1;
          sp_shares_redeemed := p.2; sp_final_price := price;
          sp_payout_sats := f64_as_u64 (f64_max (f64_round (share_value p.2 price)) f64_zero) |}.

Definition share_payouts (m : Market) (shareholders : list (Address * list (Z * Z)))
  : option (list SharePayoutRecord) :=
  mapM (fun e => share_payout m e.1 e.2)
    (flat_map (fun h => map (fun p => (h.1, p)) h.2) shareholders).

Definition payout_value (p : SharePayoutRecord) : f64 :=
  f64_max (share_value (sp_shares_redeemed p) (sp_final_price p)) f64_zero.
Definition payout_frac (p : SharePayoutRecord) : f64 :=
  f64_sub (payout_value p) (f64_floor (payout_value p)).
Definition payout_floor (p : SharePayoutRecord) : Z := f64_as_u64 (f64_floor (payout_value p)).

Definition minus_one_sat (p : SharePayoutRecord) : SharePayoutRecord :=
  {| sp_market_id := sp_market_id p; sp_address := sp_address p;
     sp_outcome_index := sp_outcome_index p; sp_shares_redeemed := sp_shares_redeemed p;
     sp_final_price := sp_final_price p; sp_payout_sats := sp_payout_sats p - 1 |}.

(** The indices by decreasing fraction. *)
Definition reclaim_order (payouts : list SharePayoutRecord) : list nat :=
  let frac i := match payouts !! i with Some p => payout_frac p | None => f64_zero end in
  sort_by (fun a b => default Eq (f64_partial_cmp (frac b) (frac a))) (seq 0 (length payouts)).

Definition reclaim_step (st : list SharePayoutRecord * Z) (i : nat) : list SharePayoutRecord * Z :=
  let '(payouts, excess) := st in
  if excess =? 0 then st else
  match payouts !! i with
  | Some p => if payout_floor p <? sp_payout_sats p
              then (alter minus_one_sat i payouts, excess - 1) else st
  | None => st
  end.

Definition reclaim_payout_roundups (payouts : list SharePayoutRecord) (excess : Z)
  : list SharePayoutRecord :=
  (foldl reclaim_step (payouts, excess) (reclaim_order payouts)).1.

Definition payout_total (payouts : list SharePayoutRecord) : Z := sum_u64 (map sp_payout_sats payouts).

(** The payouts after the excess over the treasury is taken back, and what is
    left for the market author. *)
Definition settle_payouts (payouts : list SharePayoutRecord) (treasury : Z)
  : result Error (list SharePayoutRecord * Z) :=
  let payouts := if treasury <? payout_total payouts
                 then reclaim_payout_roundups payouts (payout_total payouts - treasury)
                 else payouts in
  refund ← ok_or (checked_sub treasury (payout_total payouts))
    (InvalidTransaction "Market payout obligation exceeds treasury");
  Ok (payouts, refund).

(** The tables a settlement reads and writes. *)
Record SettleState : Type := { st_markets : MarketsDatabase; st_utxos : UtxoTables }.

Section Settlement.
Context {AM : BitcoinAmount}.
(** The hash of [generate_share_payout_outpoint]. *)
Context (payout_hash : MarketId → Address → Z → Z → bytes).
(** [ndarray]'s [sum]. *)
Context (nd_sum : list f64 → f64).

Definition get_market_funds_sats (s : SettleState) (id : MarketId) (is_fee : bool) : result Error Z :=
  match market_funds_utxos (st_markets s) !! (id, is_fee) with
  | Some outpoint =>
      utxo ← ok_or (utxos (st_utxos s) !! from_outpoint outpoint) (NoUtxo outpoint);
      Ok (get_bitcoin_value utxo)
  | None => Ok 0
  end.

Definition calculate_share_payouts (s : SettleState) (vdb : VotingDatabases) (reps : Reputations)
  (m : Market) (height : Z) (outcomes : gmap DecisionId f64) (decisions : gmap DecisionId Decision)
  : option (result Error MarketPayoutSummary) :=
  match get_market_funds_sats s (m_id m) false with
  | Err e => Some (Err e)
  | Ok treasury =>
      payouts ← share_payouts m (get_shareholders_for_market (st_markets s) (m_id m));
      Some ('(payouts, refund) ← settle_payouts payouts treasury;
            fee_sats ← get_market_funds_sats s (m_id m) true;
            fees ← calculate_fee_distribution vdb reps m fee_sats outcomes decisions;
            Ok {| mp_market_id := m_id m; mp_treasury_distributed := payout_total payouts;
                  mp_total_fees_distributed := sum_u64 (map fp_amount_sats fees);
                  mp_shareholder_count :=
                    as_u32 (Z.of_nat (length (filter (fun p => 0 < sp_payout_sats p) payouts)));
                  mp_payouts := payouts; mp_fee_payouts := fees;
                  mp_creator_refund := if 0 <? refund then Some (m_creator_address m, refund) else None;
                  mp_block_height := height |})
  end.

Definition generate_share_payout_outpoint (id : MarketId) (a : Address) (height sequence : Z)
  : OutPoint := OpPayout (payout_hash id a height sequence) sequence.

Definition bitcoin_output (a : Address) (amount : Z) : FilledOutput :=
  {| out_address := a; out_content := FBitcoin amount; out_memo := [] |}.

Definition with_utxos (s : SettleState) (u : UtxoTables) : SettleState :=
  {| st_markets := st_markets s; st_utxos := u |}.
Definition with_markets (s : SettleState) (db : MarketsDatabase) : SettleState :=
  {| st_markets := db; st_utxos := st_utxos s |}.

(** One share payout; the counter is the next [sequence]. *)
Definition apply_share_payout (height : Z) (st : SettleState * Z) (p : SharePayoutRecord)
  : result Error (SettleState * Z) :=
  let '(s, sequence) := st in
  let s := if 0 <? sp_payout_sats p
           then with_utxos s (insert_utxo (st_utxos s)
                  (generate_share_payout_outpoint (sp_market_id p) (sp_address p) height sequence)
                  (bitcoin_output (sp_address p) (sp_payout_sats p)))
           else s in
  db ← remove_shares_from_account (st_markets s) (sp_address p) (sp_market_id p)
         (sp_outcome_index p) (sp_shares_redeemed p) height;
  Ok (with_markets s db, as_u32 (sequence + 1)).

Definition apply_fee_payout (id : MarketId) (height : Z) (st : SettleState * Z) (p : FeePayoutRecord)
  : SettleState * Z :=
  let '(s, sequence) := st in
  (with_utxos s (insert_utxo (st_utxos s)
     (generate_share_payout_outpoint id (fp_address p) height sequence)
     (bitcoin_output (fp_address p) (fp_amount_sats p))), as_u32 (sequence + 1)).

(** Consume one of the two funds outputs of a market. *)
Definition consume_funds (s : SettleState) (id : MarketId) (is_fee : bool) : SettleState :=
  match market_funds_utxos (st_markets s) !! (id, is_fee) with
  | Some outpoint =>
      {| st_markets := clear_market_funds_utxo (st_markets s) id is_fee;
         st_utxos := (delete_utxo (st_utxos s) outpoint).2 |}
  | None => s
  end.

Definition apply_automatic_share_payouts (s : SettleState) (summary : MarketPayoutSummary)
  (height : Z) : result Error SettleState :=
  st ← try_fold (apply_share_payout height) (s, 0) (mp_payouts summary);
  let '(s, sequence) := foldl (apply_fee_payout (mp_market_id summary) height) st
                          (mp_fee_payouts summary) in
  let s := match mp_creator_refund summary with
           | Some (a, amount) =>
               with_utxos s (insert_utxo (st_utxos s)
                 (generate_share_payout_outpoint (mp_market_id summary) a height sequence)
                 (bitcoin_output a amount))
           | None => s
           end in
  Ok (consume_funds (consume_funds s (mp_market_id summary) false) (mp_market_id summary) true).

Definition revert_share_payout (height : Z) (st : SettleState * Z) (p : SharePayoutRecord)
  : SettleState * Z :=
  let '(s, sequence) := st in
  let s := if 0 <? sp_payout_sats p
           then with_utxos s (delete_utxo (st_utxos s)
                  (generate_share_payout_outpoint (sp_market_id p) (sp_address p) height sequence)).2
           else s in
  (with_markets s (add_shares_to_account (st_markets s) (sp_address p) (sp_market_id p)
                     (sp_outcome_index p) (sp_shares_redeemed p) height), as_u32 (sequence + 1)).

Definition revert_fee_payout (id : MarketId) (height : Z) (st : SettleState * Z) (p : FeePayoutRecord)
  : SettleState * Z :=
  let '(s, sequence) := st in
  (with_utxos s (delete_utxo (st_utxos s)
     (generate_share_payout_outpoint id (fp_address p) height sequence)).2, as_u32 (sequence + 1)).

Definition revert_automatic_share_payouts (s : SettleState) (summary : MarketPayoutSummary)
  (height : Z) : SettleState :=
  let st := foldl (revert_share_payout height) (s, 0) (mp_payouts summary) in
  let '(s, sequence) := foldl (revert_fee_payout (mp_market_id summary) height) st
                          (mp_fee_payouts summary) in
  match mp_creator_refund summary with
  | Some (a, _) =>
      with_utxos s (delete_utxo (st_utxos s)
        (generate_share_payout_outpoint (mp_market_id summary) a height sequence)).2
  | None => s
  end.

Record SettlementUndoEntry : Type := {
  su_pre_settlement_market : Market;
  su_payout_summary : MarketPayoutSummary;
  su_treasury_utxo : option (OutPoint * FilledOutput);
  su_fee_utxo : option (OutPoint * FilledOutput)
}.

(** What the loop over the decisions of a market gathers; [None] when one of
    them is not resolved. *)
Fixpoint gather_outcomes (ddb : Dbs) (vdb : VotingDatabases) (ids : list DecisionId)
  (acc : gmap DecisionId f64 * gmap DecisionId Decision)
  : option (gmap DecisionId f64 * gmap DecisionId Decision) :=
  match ids with
  | [] => Some acc
  | id :: ids =>
      if negb (bool_decide (get_decision_current_state ddb id = Resolved)) then None else
      let outcomes := match get_consensus_outcome vdb (voting_period id) id with
                      | Some o => <[id := o]> acc.1
                      | None => acc.1
                      end in
      let decisions := match e ← get_decision_entry ddb id; decision e with
                       | Some d => <[id := d]> acc.2
                       | None => acc.2
                       end in
      gather_outcomes ddb vdb ids (outcomes, decisions)
  end.

Definition funds_utxo (s : SettleState) (id : MarketId) (is_fee : bool)
  : option (OutPoint * FilledOutput) :=
  outpoint ← market_funds_utxos (st_markets s) !! (id, is_fee);
  output ← utxos (st_utxos s) !! from_outpoint outpoint;
  Some (outpoint, output).

(** The body of the settlement loop for one resolved market. *)
Definition settle_market (vdb : VotingDatabases) (reps : Reputations) (height : Z)
  (outcomes : gmap DecisionId f64) (decisions : gmap DecisionId Decision) (s : SettleState)
  (m : Market) : option (result Error (SettleState * SettlementUndoEntry)) :=
  let undo summary :=
    {| su_pre_settlement_market := m; su_payout_summary := summary;
       su_treasury_utxo := funds_utxo s (m_id m) false; su_fee_utxo := funds_utxo s (m_id m) true |} in
  match (prices ← map_err (fun _ => DatabaseError "Failed to calculate final prices")
                    (calculate_final_prices nd_sum m outcomes decisions);
         map_err (fun _ => DatabaseError "Failed to set final prices")
           (update_state m height None None (Some prices))) with
  | Err e => Some (Err e)
  | Ok m1 =>
      summary ← calculate_share_payouts s vdb reps m1 height outcomes decisions;
      Some (summary ← summary;
            s1 ← apply_automatic_share_payouts s summary height;
            m2 ← map_err (fun _ => DatabaseError "Failed to settle market")
                   (update_state m1 height (Some Settled) None None);
            db ← update_market (st_markets s1) m2;
            Ok (with_markets s1 db, undo summary))
  end.

(** [transition_and_payout_resolved_markets] over the given trading markets. *)
Fixpoint settle_markets (ddb : Dbs) (vdb : VotingDatabases) (reps : Reputations) (height : Z)
  (s : SettleState) (ms : list Market) : option (result Error (SettleState * list SettlementUndoEntry)) :=
  match ms with
  | [] => Some (Ok (s, []))
  | m :: ms =>
      if bool_decide (m_decision_ids m = []) then settle_markets ddb vdb reps height s ms else
      match gather_outcomes ddb vdb (m_decision_ids m) (∅, ∅) with
      | None => settle_markets ddb vdb reps height s ms
      | Some (outcomes, decisions) =>
          r ← settle_market vdb reps height outcomes decisions s m;
          match r with
          | Err e => Some (Err e)
          | Ok (s, undo) =>
              r ← settle_markets ddb vdb reps height s ms;
              Some ('(s, undos) ← r; Ok (s, undo :: undos))
          end
      end
  end.

Definition transition_and_payout_resolved_markets (ddb : Dbs) (vdb : VotingDatabases)
  (reps : Reputations) (height : Z) (s : SettleState)
  : option (result Error (SettleState * list SettlementUndoEntry)) :=
  settle_markets ddb vdb reps height s (get_markets_by_state (st_markets s) Trading).

Definition restore_funds (s : SettleState) (id : MarketId) (is_fee : bool)
  (u : option (OutPoint * FilledOutput)) : SettleState :=
  match u with
  | Some (outpoint, output) =>
      {| st_markets := set_market_funds_utxo (st_markets s) id is_fee outpoint;
         st_utxos := insert_utxo (st_utxos s) outpoint output |}
  | None => s
  end.

Definition revert_settlement_entry (height : Z) (s : SettleState) (e : SettlementUndoEntry)
  : SettleState :=
  let s := revert_automatic_share_payouts s (su_payout_summary e) height in
  let id := m_id (su_pre_settlement_market e) in
  let s := restore_funds s id false (su_treasury_utxo e) in
  let s := restore_funds s id true (su_fee_utxo e) in
  with_markets s (restore_market (st_markets s) (su_pre_settlement_market e)).

Definition revert_settlement (height : Z) (s : SettleState) (undo : list SettlementUndoEntry)
  : SettleState := foldl (revert_settlement_entry height) s (rev undo).

End Settlement.
