(* ===== verification/MarketsDbFacts.v ===== *)
(** * Correctness of the markets database

    The state, expiry and decision indexes agree with the market table after
    any sequence of operations; a settlement pays out and refunds exactly the
    treasury and takes back at most the satoshi a payout was rounded up by. *)

From stdpp Require Import base numbers list strings gmap.
From S2P Require Import Prelude Float64 SafeMath Allocation MarketMath StateErrors DecisionTypes.
From S2P Require Import Periods Pricing DecisionsDb Markets MarketsFacts Transactions Voting MarketsDb.

(** ** One index *)

Section Index.
Context {K : Type} `{Countable K}.
Implicit Types (idx : gmap K (list MarketId)) (k : K) (id : MarketId).

Definition ids_at idx k : list MarketId := default [] (idx !! k).

(** No list is stored empty and no market occurs twice under a key. *)
Definition index_shape idx : Prop := map_Forall (fun _ l => l ≠ [] ∧ NoDup l) idx.

Lemma index_shape_NoDup idx k : index_shape idx → NoDup (ids_at idx k).
Proof.
  intros Hs. unfold ids_at. destruct (idx !! k) as [l|] eqn:E; simpl; [by apply (Hs k l)|constructor].
Qed.

Lemma ids_at_remove idx k id k' :
  ids_at (index_remove idx k id) k'
  = if bool_decide (k' = k) then filter (fun i => i ≠ id) (ids_at idx k) else ids_at idx k'.
Proof.
  unfold index_remove, ids_at.
  destruct (filter (fun i => i ≠ id) (default [] (idx !! k))) as [|a l] eqn:E;
    case_bool_decide as Hk; subst.
  - by rewrite lookup_delete_eq.
  - by rewrite lookup_delete_ne.
  - by rewrite lookup_insert_eq.
  - by rewrite lookup_insert_ne.
Qed.

Lemma elem_ids_remove idx k id k' id' :
  id' ∈ ids_at (index_remove idx k id) k' ↔ id' ∈ ids_at idx k' ∧ ¬ (k' = k ∧ id' = id).
Proof.
  rewrite ids_at_remove. case_bool_decide as Hk; subst; [|naive_solver].
  rewrite list_elem_of_filter. naive_solver.
Qed.

Lemma elem_ids_add idx k id k' id' :
  id' ∈ ids_at (index_add idx k id) k' ↔ id' ∈ ids_at idx k' ∨ (k' = k ∧ id' = id).
Proof.
  unfold index_add, ids_at. case_bool_decide as Hin; [naive_solver|].
  destruct (decide (k' = k)) as [->|Hne].
  - rewrite lookup_insert_eq. simpl. rewrite elem_of_app, list_elem_of_singleton. naive_solver.
  - rewrite lookup_insert_ne by done. naive_solver.
Qed.

Lemma index_remove_shape idx k id : index_shape idx → index_shape (index_remove idx k id).
Proof.
  intros Hs. unfold index_remove.
  assert (NoDup (filter (fun i => i ≠ id) (default [] (idx !! k)))) as Hnd
    by (apply NoDup_filter, index_shape_NoDup, Hs).
  destruct (filter _ _) as [|a l]; [by apply map_Forall_delete|].
  by apply map_Forall_insert_2.
Qed.

Lemma index_add_shape idx k id : index_shape idx → index_shape (index_add idx k id).
Proof.
  intros Hs. unfold index_add. case_bool_decide as Hin; [done|].
  apply map_Forall_insert_2; [|done]. split; [by destruct (default [] (idx !! k))|].
  apply NoDup_app. split_and!; [by apply index_shape_NoDup| |apply NoDup_singleton].
  intros x Hx ->%list_elem_of_singleton. done.
Qed.

Lemma index_move_shape idx id old new : index_shape idx → index_shape (index_move idx id old new).
Proof.
  intros Hs. unfold index_move.
  destruct old, new; eauto using index_add_shape, index_remove_shape.
Qed.

Lemma elem_ids_move idx id old new k id' :
  id' ∈ ids_at (index_move idx id old new) k ↔
    (id' ∈ ids_at idx k ∧ ¬ (old = Some k ∧ id' = id)) ∨ (new = Some k ∧ id' = id).
Proof.
  unfold index_move. destruct new as [kn|], old as [ko|];
    rewrite ?elem_ids_add, ?elem_ids_remove; naive_solver.
Qed.

End Index.

(** ** The three indexes *)

Section Invariant.

Definition in_state (m : Market) (s : MarketState) : Prop := m_market_state m = s.
Definition expires_at (m : Market) (h : Z) : Prop := m_expires_at_height m = Some h.
Definition asks (m : Market) (d : DecisionId) : Prop := d ∈ m_decision_ids m.

(** An index lists under a key exactly the markets the key applies to. *)
Definition index_exact {K} `{Countable K} (ms : gmap MarketId Market)
  (idx : gmap K (list MarketId)) (applies : Market → K → Prop) : Prop :=
  index_shape idx ∧
  ∀ k id, id ∈ ids_at idx k ↔ ∃ m, ms !! id = Some m ∧ applies m k.

Record db_ok (db : MarketsDatabase) : Prop := {
  ok_ids : map_Forall (fun id m => m_id m = id) (markets db);
  ok_state : index_exact (markets db) (state_index db) in_state;
  ok_expiry : index_exact (markets db) (expiry_index db) expires_at;
  ok_decision : index_exact (markets db) (decision_index db) asks
}.

Lemma update_decisions_frame db id ds b :
  markets (update_decisions db id ds b) = markets db ∧
  state_index (update_decisions db id ds b) = state_index db ∧
  expiry_index (update_decisions db id ds b) = expiry_index db ∧
  share_accounts (update_decisions db id ds b) = share_accounts db ∧
  market_funds_utxos (update_decisions db id ds b) = market_funds_utxos db ∧
  mempool_shares (update_decisions db id ds b) = mempool_shares db.
Proof.
  revert db. induction ds as [|d ds IH]; intros db; [done|]. unfold update_decisions in *. simpl.
  apply (IH (update_decision_index db id d b)).
Qed.

Lemma update_decisions_index db id ds b :
  decision_index (update_decisions db id ds b)
  = foldl (fun idx d => if b then index_add idx d id else index_remove idx d id) (decision_index db) ds.
Proof. revert db. induction ds as [|d ds IH]; intros db; [done|]. apply (IH (update_decision_index db id d b)). Qed.

Lemma fold_add_spec (idx : gmap DecisionId (list MarketId)) id ds :
  index_shape idx →
  index_shape (foldl (fun idx d => index_add idx d id) idx ds) ∧
  ∀ k id', id' ∈ ids_at (foldl (fun idx d => index_add idx d id) idx ds) k ↔
    id' ∈ ids_at idx k ∨ (k ∈ ds ∧ id' = id).
Proof.
  revert idx. induction ds as [|d ds IH]; intros idx Hs; simpl.
  { split; [done|]. intros k id'. rewrite elem_of_nil. naive_solver. }
  destruct (IH (index_add idx d id) (index_add_shape _ _ _ Hs)) as [Hs' He]. split; [done|].
  intros k id'. rewrite He, elem_ids_add, elem_of_cons. naive_solver.
Qed.

Lemma fold_remove_spec (idx : gmap DecisionId (list MarketId)) id ds :
  index_shape idx →
  index_shape (foldl (fun idx d => index_remove idx d id) idx ds) ∧
  ∀ k id', id' ∈ ids_at (foldl (fun idx d => index_remove idx d id) idx ds) k ↔
    id' ∈ ids_at idx k ∧ ¬ (k ∈ ds ∧ id' = id).
Proof.
  revert idx. induction ds as [|d ds IH]; intros idx Hs; simpl.
  { split; [done|]. intros k id'. rewrite elem_of_nil. naive_solver. }
  destruct (IH (index_remove idx d id) (index_remove_shape _ _ _ Hs)) as [Hs' He]. split; [done|].
  intros k id'. rewrite He, elem_ids_remove, elem_of_cons. naive_solver.
Qed.

(** Replacing, adding or removing the market [id] in an exact index. *)
Lemma index_exact_insert {K} `{Countable K} (ms : gmap MarketId Market)
  (idx idx' : gmap K (list MarketId)) applies id m :
  index_exact ms idx applies → index_shape idx' →
  (∀ k id', id' ∈ ids_at idx' k ↔ (id' ≠ id ∧ id' ∈ ids_at idx k) ∨ (id' = id ∧ applies m k)) →
  index_exact (<[id := m]> ms) idx' applies.
Proof.
  intros [_ Hex] Hs He. split; [done|]. intros k id'. rewrite He. split.
  - intros [[Hne Hin]|[-> Ha]].
    + apply Hex in Hin as (m' & Hm' & Ha). exists m'. by rewrite lookup_insert_ne.
    + exists m. by rewrite lookup_insert_eq.
  - intros (m' & Hm' & Ha). destruct (decide (id' = id)) as [->|Hne].
    + rewrite lookup_insert_eq in Hm'. simplify_eq. by right.
    + rewrite lookup_insert_ne in Hm' by done. left. split; [done|]. apply Hex. eauto.
Qed.

Lemma index_exact_delete {K} `{Countable K} (ms : gmap MarketId Market)
  (idx idx' : gmap K (list MarketId)) applies id :
  index_exact ms idx applies → index_shape idx' →
  (∀ k id', id' ∈ ids_at idx' k ↔ id' ≠ id ∧ id' ∈ ids_at idx k) →
  index_exact (delete id ms) idx' applies.
Proof.
  intros [_ Hex] Hs He. split; [done|]. intros k id'. rewrite He, (Hex k id'). split.
  - intros (Hne & m' & Hm' & Ha). exists m'. by rewrite lookup_delete_ne.
  - intros (m' & Hm' & Ha). apply lookup_delete_Some in Hm' as [Hne Hm']. eauto 10.
Qed.

(** A market that is not stored is in no index. *)
Lemma index_exact_absent {K} `{Countable K} (ms : gmap MarketId Market)
  (idx : gmap K (list MarketId)) applies id k :
  index_exact ms idx applies → ms !! id = None → id ∉ ids_at idx k.
Proof. intros [_ Hex] Hno Hin. apply Hex in Hin as (m & Hm & _). congruence. Qed.

(** A stored market is under exactly the keys that apply to it. *)
Lemma index_exact_present {K} `{Countable K} (ms : gmap MarketId Market)
  (idx : gmap K (list MarketId)) applies id m k :
  index_exact ms idx applies → ms !! id = Some m → id ∈ ids_at idx k ↔ applies m k.
Proof. intros [_ Hex] Hm. rewrite Hex, Hm. split; [intros (? & ? & ?); by simplify_eq|eauto]. Qed.

Lemma add_market_ok db m : db_ok db → markets db !! m_id m = None → db_ok (add_market db m).
Proof.
  intros [Hids Hst Hex Hde] Hno. unfold add_market.
  set (db1 := match m_expires_at_height m with Some e => _ | None => _ end).
  destruct (update_decisions_frame db1 (m_id m) (m_decision_ids m) true) as (Hm & Hs & He & _).
  assert (markets db1 = <[m_id m := m]> (markets db)) as Hm1 by (unfold db1; by case_match).
  assert (state_index db1 = index_move (state_index db) (m_id m) None (Some (m_market_state m)))
    as Hs1 by (unfold db1; by case_match).
  assert (expiry_index db1 = index_move (expiry_index db) (m_id m) None (m_expires_at_height m))
    as He1 by (unfold db1; by case_match).
  assert (decision_index db1 = decision_index db) as Hd1 by (unfold db1; by case_match).
  split; rewrite ?Hm, ?Hs, ?He, ?Hm1, ?Hs1, ?He1.
  - by apply map_Forall_insert_2.
  - eapply index_exact_insert; [exact Hst|apply index_move_shape, Hst|]. intros k id'.
    pose proof (index_exact_absent _ _ _ _ k Hst Hno). rewrite elem_ids_move. unfold in_state.
    naive_solver.
  - eapply index_exact_insert; [exact Hex|apply index_move_shape, Hex|]. intros k id'.
    pose proof (index_exact_absent _ _ _ _ k Hex Hno). rewrite elem_ids_move. unfold expires_at.
    naive_solver.
  - rewrite update_decisions_index, Hd1.
    destruct (fold_add_spec (decision_index db) (m_id m) (m_decision_ids m) (proj1 Hde)) as [Hsh Hin].
    eapply index_exact_insert; [exact Hde|exact Hsh|]. intros k id'.
    pose proof (index_exact_absent _ _ _ _ k Hde Hno). rewrite Hin. unfold asks. naive_solver.
Qed.

Lemma delete_market_ok db id : db_ok db → db_ok (delete_market db id).2.
Proof.
  intros Hok. unfold delete_market. destruct (markets db !! id) as [m|] eqn:Em; [|done].
  destruct Hok as [Hids Hst Hex Hde]. simpl.
  set (db1 := match m_expires_at_height m with Some e => _ | None => _ end).
  destruct (update_decisions_frame db1 id (m_decision_ids m) false) as (Hm & Hs & He & _).
  assert (markets db1 = markets db) as Hm1 by (unfold db1; by case_match).
  assert (state_index db1 = index_move (state_index db) id (Some (m_market_state m)) None)
    as Hs1 by (unfold db1; by case_match).
  assert (expiry_index db1 = index_move (expiry_index db) id (m_expires_at_height m) None)
    as He1 by (unfold db1; by case_match).
  assert (decision_index db1 = decision_index db) as Hd1 by (unfold db1; by case_match).
  split; simpl; rewrite ?Hm, ?Hs, ?He, ?Hm1, ?Hs1, ?He1.
  - by apply map_Forall_delete.
  - eapply index_exact_delete; [exact Hst|apply index_move_shape, Hst|]. intros k id'.
    pose proof (index_exact_present _ _ _ _ _ k Hst Em) as Hp. rewrite elem_ids_move.
    unfold in_state in Hp. naive_solver.
  - eapply index_exact_delete; [exact Hex|apply index_move_shape, Hex|]. intros k id'.
    pose proof (index_exact_present _ _ _ _ _ k Hex Em) as Hp. rewrite elem_ids_move.
    unfold expires_at in Hp. naive_solver.
  - rewrite update_decisions_index, Hd1.
    destruct (fold_remove_spec (decision_index db) id (m_decision_ids m) (proj1 Hde)) as [Hsh Hin].
    eapply index_exact_delete; [exact Hde|exact Hsh|]. intros k id'.
    pose proof (index_exact_present _ _ _ _ _ k Hde Em) as Hp. rewrite Hin. unfold asks in Hp.
    naive_solver.
Qed.

Lemma write_market_ok db m o :
  db_ok db → markets db !! m_id m = Some o → db_ok (write_market_and_indexes db m (Some o)).
Proof.
  intros [Hids Hst Hex Hde] Ho. unfold write_market_and_indexes.
  set (db1 := if bool_decide (m_market_state o = m_market_state m) then _ else _).
  set (db2 := if bool_decide (m_expires_at_height o = m_expires_at_height m) then db1 else _).
  set (gone := filter _ (remove_dups (m_decision_ids o))).
  set (new := filter _ (remove_dups (m_decision_ids m))).
  destruct (update_decisions_frame db2 (m_id m) gone false) as (Hm3 & Hs3 & He3 & _).
  set (db3 := update_decisions db2 (m_id m) gone false) in *.
  destruct (update_decisions_frame db3 (m_id m) new true) as (Hm4 & Hs4 & He4 & _).
  assert (markets db2 = <[m_id m := m]> (markets db)) as Hm2
    by (unfold db2, db1; do 2 case_bool_decide; done).
  split; rewrite ?Hm4, ?Hs4, ?He4, ?Hm3, ?Hs3, ?He3, ?Hm2.
  - by apply map_Forall_insert_2.
  - assert (state_index db2 = if bool_decide (m_market_state o = m_market_state m) then state_index db
      else index_move (state_index db) (m_id m) (Some (m_market_state o)) (Some (m_market_state m)))
      as -> by (unfold db2, db1; do 2 case_bool_decide; done).
    eapply index_exact_insert; [exact Hst|case_bool_decide; [apply Hst|apply index_move_shape, Hst]|].
    intros k id'. pose proof (index_exact_present _ _ _ _ _ k Hst Ho) as Hp. unfold in_state in *.
    destruct (decide (id' = m_id m)) as [->|Hne]; case_bool_decide as Heq;
      rewrite ?elem_ids_move, ?Hp, ?(inj_iff Some); intuition congruence.
  - assert (expiry_index db2 = if bool_decide (m_expires_at_height o = m_expires_at_height m)
      then expiry_index db
      else index_move (expiry_index db) (m_id m) (m_expires_at_height o) (m_expires_at_height m))
      as -> by (unfold db2, db1; do 2 case_bool_decide; done).
    eapply index_exact_insert; [exact Hex|case_bool_decide; [apply Hex|apply index_move_shape, Hex]|].
    intros k id'. pose proof (index_exact_present _ _ _ _ _ k Hex Ho) as Hp. unfold expires_at in *.
    destruct (decide (id' = m_id m)) as [->|Hne]; case_bool_decide as Heq;
      rewrite ?elem_ids_move, ?Hp, ?(inj_iff Some); intuition congruence.
  - assert (decision_index db2 = decision_index db) as Hd2
      by (unfold db2, db1; do 2 case_bool_decide; done).
    rewrite update_decisions_index. unfold db3. rewrite update_decisions_index, Hd2.
    destruct (fold_remove_spec (decision_index db) (m_id m) gone (proj1 Hde)) as [Hsh Hin].
    destruct (fold_add_spec _ (m_id m) new Hsh) as [Hsh' Hin'].
    eapply index_exact_insert; [exact Hde|exact Hsh'|]. intros k id'. rewrite Hin', Hin.
    pose proof (index_exact_present _ _ _ _ _ k Hde Ho) as Hp. unfold asks in *.
    assert (k ∈ gone ↔ k ∈ m_decision_ids o ∧ k ∉ m_decision_ids m) as Hg.
    { unfold gone. rewrite list_elem_of_filter, elem_of_remove_dups. tauto. }
    assert (k ∈ new ↔ k ∈ m_decision_ids m ∧ k ∉ m_decision_ids o) as Hn.
    { unfold new. rewrite list_elem_of_filter, elem_of_remove_dups. tauto. }
    rewrite Hg, Hn. destruct (decide (id' = m_id m)) as [->|Hne]; [|tauto].
    rewrite Hp. destruct (decide (k ∈ m_decision_ids m)), (decide (k ∈ m_decision_ids o)); tauto.
Qed.

(** One operation on the tables. *)
Inductive db_step : MarketsDatabase → MarketsDatabase → Prop :=
| db_add db m : markets db !! m_id m = None → db_step db (add_market db m)
| db_update db m db' :
    is_Some (get_market db (m_id m)) → update_market db m = Ok db' → db_step db db'
| db_restore db m : is_Some (get_market db (m_id m)) → db_step db (restore_market db m)
| db_delete db id : db_step db (delete_market db id).2
| db_cancel db id db' : cancel_market db id = Ok db' → db_step db db'
| db_invalidate db id db' : invalidate_market db id = Ok db' → db_step db db'
| db_buy db a id i n h : db_step db (add_shares_to_account db a id i n h)
| db_sell db a id i n h db' : remove_shares_from_account db a id i n h = Ok db' → db_step db db'
| db_fund db id fee o : db_step db (set_market_funds_utxo db id fee o)
| db_unfund db id fee : db_step db (clear_market_funds_utxo db id fee)
| db_mempool db id l : db_step db (put_mempool_shares db id l)
| db_unmempool db id : db_step db (clear_mempool_shares db id).

Lemma update_state_id m height s shares prices m' :
  update_state m height s shares prices = Ok m' → m_id m' = m_id m.
Proof. unfold update_state. intros Hu. inv_ok. done. Qed.

Lemma update_market_ok db m db' :
  db_ok db → is_Some (get_market db (m_id m)) → update_market db m = Ok db' → db_ok db'.
Proof.
  intros Hok [o Ho] Hu. unfold update_market in Hu. rewrite Ho in Hu.
  destruct (validate_market_state_transition _ _); [|discriminate]. simpl in Hu.
  injection Hu as <-. by apply write_market_ok.
Qed.

Lemma db_step_ok db db' : db_ok db → db_step db db' → db_ok db'.
Proof.
  intros Hok. destruct 1 as [db m|db m db'|db m [o Ho]|db id|db id db' Hc|db id db' Hc|
    db a id i n h|db a id i n h db' Hr|db id fee o|db id fee|db id l|db id];
    eauto using add_market_ok, update_market_ok, delete_market_ok.
  - unfold restore_market. rewrite Ho. by apply write_market_ok.
  - unfold cancel_market, market_cancel in Hc. inv_ok. pose proof (update_state_id _ _ _ _ _ _ E0) as Hid.
    eapply update_market_ok; [exact Hok| |exact E1]. rewrite Hid.
    pose proof (ok_ids _ Hok _ _ E2) as ->. by exists a.
  - unfold invalidate_market, market_invalidate in Hc. inv_ok. pose proof (update_state_id _ _ _ _ _ _ E0) as Hid.
    eapply update_market_ok; [exact Hok| |exact E1]. rewrite Hid.
    pose proof (ok_ids _ Hok _ _ E2) as ->. by exists a.
  - by destruct Hok.
  - unfold remove_shares_from_account in Hr. inv_ok. by destruct Hok.
  - by destruct Hok.
  - by destruct Hok.
  - by destruct Hok.
  - by destruct Hok.
Qed.

Lemma empty_markets_ok : db_ok empty_markets.
Proof.
  split; [apply map_Forall_empty|..]; (split; [apply map_Forall_empty|]); intros k id;
    unfold ids_at; simpl; rewrite lookup_empty; simpl; rewrite elem_of_nil;
    (split; [done|]); intros (m & Hm & _); by rewrite lookup_empty in Hm.
Qed.

Lemma listed_ids db ids :
  db_ok db → Forall (fun id => is_Some (markets db !! id)) ids →
  map m_id (omap (get_market db) ids) = ids.
Proof.
  intros Hok. induction 1 as [|id ids [m Hm] _ IH]; simpl; [done|].
  destruct (get_market db id) as [m'|] eqn:Em; unfold get_market in Em; [|congruence].
  simpl. f_equal; [|exact IH]. by apply (ok_ids _ Hok).
Qed.

(** C25: the indexes of the markets database.  After any sequence of creations,
    updates, restorations, deletions, cancellations, invalidations and account
    or funds operations from an empty database, listing a state returns exactly
    the markets in that state, each once; the expiry and decision indexes list
    exactly the markets that expire at the height or ask the decision; and no
    key keeps an empty list. *)
Theorem markets_index_invariant db :
  rtc db_step empty_markets db →
  (∀ s m, m ∈ get_markets_by_state db s ↔
     get_market db (m_id m) = Some m ∧ m_market_state m = s) ∧
  (∀ s, NoDup (map m_id (get_markets_by_state db s))) ∧
  (∀ h id, id ∈ default [] (expiry_index db !! h) ↔
     ∃ m, get_market db id = Some m ∧ m_expires_at_height m = Some h) ∧
  (∀ d id, id ∈ default [] (decision_index db !! d) ↔
     ∃ m, get_market db id = Some m ∧ d ∈ m_decision_ids m) ∧
  (∀ s, state_index db !! s ≠ Some []) ∧ (∀ h, expiry_index db !! h ≠ Some []) ∧
  (∀ d, decision_index db !! d ≠ Some []).
Proof.
  intros Hsteps. assert (db_ok db) as Hok.
  { revert Hsteps. generalize empty_markets_ok. generalize empty_markets as db0.
    intros db0 H0 Hs. induction Hs; eauto using db_step_ok. }
  destruct (ok_state _ Hok) as [Hss Hsi]. destruct (ok_expiry _ Hok) as [Hes Hei].
  destruct (ok_decision _ Hok) as [Hds Hdi]. split_and!; [| |exact Hei|exact Hdi|..].
  - intros s m. unfold get_markets_by_state. rewrite list_elem_of_omap. split.
    + intros (id & Hid & Hm). apply Hsi in Hid as (m' & Hm' & Hst). unfold get_market in *.
      rewrite Hm' in Hm. simplify_eq. by rewrite (ok_ids _ Hok _ _ Hm').
    + intros [Hm Hst]. exists (m_id m). split; [|done]. apply Hsi. by exists m.
  - intros s. unfold get_markets_by_state. rewrite listed_ids.
    + by apply (index_shape_NoDup (state_index db) s).
    + done.
    + apply Forall_forall. intros id Hid. apply Hsi in Hid as (m & Hm & _). by exists m.
  - intros s Hs. by destruct (Hss s [] Hs).
  - intros s Hs. by destruct (Hes s [] Hs).
  - intros s Hs. by destruct (Hds s [] Hs).
Qed.

Lemma markets_index_invariant_witness :
  sample_market 0 ∈ get_markets_by_state (add_market empty_markets (sample_market 0)) Trading.
Proof.
  destruct (markets_index_invariant (add_market empty_markets (sample_market 0))) as [H _].
  - eapply rtc_l; [|apply rtc_refl]. apply db_add. apply lookup_empty.
  - apply H. split; [|vm_compute; reflexivity]. apply lookup_insert_eq.
Defined.

Lemma size_list_to_set_le (l : list MarketId) :
  (size (list_to_set l : gset MarketId) ≤ length l)%nat.
Proof.
  induction l as [|x l IH]; [done|].
  change (list_to_set (x :: l) : gset MarketId) with ({[x]} ∪ (list_to_set l : gset MarketId)).
  rewrite size_union_alt, size_singleton.
  pose proof (subseteq_size (list_to_set l ∖ {[x]} : gset MarketId) (list_to_set l)
                ltac:(set_solver)). simpl. lia.
Qed.

(** The early stop of the batch lookup skips nothing. *)
Lemma scan_batch_spec wanted limit found l acc id :
  NoDup l.*1 → Z.of_nat (size wanted) ≤ limit → found = Z.of_nat (size acc) → dom acc ⊆ wanted →
  (∀ k, k ∈ l.*1 → acc !! k = None) →
  scan_batch wanted limit found l acc !! id
  = match acc !! id with
    | Some m => Some m
    | None => if bool_decide (id ∈ wanted) then (list_to_map l : gmap _ _) !! id else None
    end.
Proof.
  revert found acc. induction l as [|[k m] l IH]; intros found acc Hnd Hlim Hfound Hdom Hdisj; simpl.
  { rewrite lookup_empty. destruct (acc !! id); [done|]. by case_bool_decide. }
  apply NoDup_cons in Hnd as [Hni Hnd].
  assert (acc !! k = None) as Hk by (apply Hdisj; simpl; apply list_elem_of_here).
  assert (∀ k', k' ∈ l.*1 → k' ≠ k) as Hne by (intros k' Hk' ->; done).
  destruct (decide (k ∈ wanted)) as [Hw|Hw];
    [rewrite (bool_decide_true (k ∈ wanted)) by done|rewrite (bool_decide_false (k ∈ wanted)) by done].
  - assert (dom (<[k := m]> acc) ⊆ wanted) as Hdom'.
    { intros x Hx. apply dom_insert, elem_of_union in Hx as [->%elem_of_singleton|Hx]; [done|].
      by apply Hdom. }
    assert (∀ k', k' ∈ l.*1 → <[k := m]> acc !! k' = None) as Hdisj'.
    { intros k' Hk'. rewrite lookup_insert_ne by (by apply not_eq_sym, Hne). apply Hdisj.
      simpl. by apply list_elem_of_further. }
    destruct (Z.leb_spec limit (found + 1)) as [Hstop|Hgo].
    + assert (dom (<[k := m]> acc) ≡ wanted) as Hall.
      { apply set_subseteq_size_equiv; [done|]. rewrite size_dom, map_size_insert_None by done. lia. }
      destruct (decide (id = k)) as [->|Hid].
      * by rewrite Hk, !lookup_insert_eq, bool_decide_true.
      * rewrite !lookup_insert_ne by done. destruct (acc !! id) as [x|] eqn:Ex; [done|].
        case_bool_decide as Hwid; [|done]. exfalso. apply Hall, elem_of_dom in Hwid as [x Hx].
        rewrite lookup_insert_ne in Hx by done. congruence.
    + rewrite (IH (found + 1) _ Hnd Hlim); [|rewrite map_size_insert_None by done; lia|done|done].
      destruct (decide (id = k)) as [->|Hid].
      * by rewrite Hk, !lookup_insert_eq, bool_decide_true.
      * by rewrite !lookup_insert_ne.
  - rewrite (IH found acc Hnd Hlim Hfound Hdom).
    + destruct (acc !! id) as [x|] eqn:Ex; [done|]. case_bool_decide as Hwid; [|done].
      rewrite lookup_insert_ne; [done|]. intros <-. done.
    + intros k' Hk'. apply Hdisj. simpl. by apply list_elem_of_further.
Qed.

(** The batch lookup.  Whether it looks the ids up one by one or scans the
    table and stops early, it returns exactly the stored markets among the
    ids. *)
Theorem get_markets_batch_spec db ids id :
  get_markets_batch db ids !! id
  = if bool_decide (id ∈ ids) then get_market db id else None.
Proof.
  unfold get_markets_batch. destruct (length ids <? 3)%nat.
  - assert (∀ (acc : gmap MarketId Market),
      foldl (fun acc i => match get_market db i with Some m => <[i := m]> acc | None => acc end) acc ids !! id
      = if bool_decide (id ∈ ids) then match get_market db id with Some m => Some m | None => acc !! id end
        else acc !! id) as ->.
    { induction ids as [|i ids IH]; intros acc; [done|]. cbn [foldl]. rewrite IH.
      destruct (decide (id = i)) as [->|Hne].
      - rewrite (bool_decide_true (i ∈ i :: ids)) by apply list_elem_of_here.
        destruct (get_market db i) as [m|]; [rewrite lookup_insert_eq|]; by case_bool_decide.
      - assert (bool_decide (id ∈ i :: ids) = bool_decide (id ∈ ids)) as ->.
        { apply bool_decide_ext. rewrite elem_of_cons. naive_solver. }
        destruct (get_market db i); [by rewrite lookup_insert_ne|done]. }
    rewrite lookup_empty. by destruct (get_market db id).
  - rewrite scan_batch_spec.
    + rewrite lookup_empty, list_to_map_db_iter. erewrite bool_decide_ext; [done|].
      by rewrite elem_of_list_to_set.
    + apply db_iter_keys_NoDup.
    + apply inj_le, size_list_to_set_le.
    + done.
    + set_solver.
    + intros k _. apply lookup_empty.
Qed.

End Invariant.

(** ** Settlement *)

Section Settlement.

Definition reclaimable (p : SharePayoutRecord) : bool := payout_floor p <? sp_payout_sats p.

(** The same payout, or the same one satoshi lower when it was rounded up. *)
Definition reclaimed (p p' : SharePayoutRecord) : Prop :=
  p' = p ∨ (p' = minus_one_sat p ∧ payout_floor p < sp_payout_sats p).

Definition reclaimable_at (ps : list SharePayoutRecord) (i : nat) : bool :=
  match ps !! i with Some p => reclaimable p | None => false end.

Definition count_at (ps : list SharePayoutRecord) (js : list nat) : Z :=
  Z.of_nat (length (filter (fun j => reclaimable_at ps j = true) js)).

Definition total (ps : list SharePayoutRecord) : Z := sumZ (map sp_payout_sats ps).

Lemma total_minus_one ps i p :
  ps !! i = Some p → total (alter minus_one_sat i ps) = total ps - 1.
Proof.
  unfold total. revert i. induction ps as [|q ps IH]; intros [|i] Hi; simplify_eq/=; [lia|].
  change (alter minus_one_sat (S i) (q :: ps)) with (q :: alter minus_one_sat i ps). simpl.
  rewrite (IH i Hi). lia.
Qed.

Lemma count_at_alter ps i js :
  i ∉ js → count_at (alter minus_one_sat i ps) js = count_at ps js.
Proof.
  intros Hni. unfold count_at. do 2 f_equal. induction js as [|j js IH]; [done|].
  apply not_elem_of_cons in Hni as [Hne Hni]. rewrite !filter_cons, (IH Hni).
  unfold reclaimable_at. by rewrite list_lookup_alter_ne.
Qed.

(** The loop over distinct indices takes one satoshi from as many reclaimable
    payouts as there are, up to the excess. *)
Lemma reclaim_fold_spec js ps e ps' e' :
  NoDup js → 0 ≤ e → foldl reclaim_step (ps, e) js = (ps', e') →
  e' = e - Z.min e (count_at ps js) ∧ total ps' = total ps - Z.min e (count_at ps js) ∧
  length ps' = length ps ∧ (∀ i, i ∉ js → ps' !! i = ps !! i) ∧
  (∀ i p, ps !! i = Some p → ∃ p', ps' !! i = Some p' ∧ reclaimed p p').
Proof.
  revert ps e. induction js as [|j js IH]; intros ps e Hnd He Hf.
  { simpl in Hf. simplify_eq. unfold count_at. simpl.
    split_and!; [lia|lia|done|done|]. intros i p Hp. exists p. split; [done|by left]. }
  apply NoDup_cons in Hnd as [Hni Hnd]. cbn [foldl] in Hf.
  assert (count_at ps (j :: js) = (if reclaimable_at ps j then 1 else 0) + count_at ps js) as Hcount.
  { unfold count_at. rewrite filter_cons. destruct (reclaimable_at ps j).
    - rewrite decide_True by done. simpl length. lia.
    - rewrite decide_False by done. lia. }
  assert (0 ≤ count_at ps js) as Hc0 by (unfold count_at; lia).
  destruct (decide (e = 0 ∨ reclaimable_at ps j = false)) as [Hskip|Hgo].
  - assert (reclaim_step (ps, e) j = (ps, e)) as Hstep.
    { unfold reclaim_step. destruct Hskip as [->|Hr]; [done|]. unfold reclaimable_at in Hr.
      destruct (e =? 0); [done|]. destruct (ps !! j) as [p|]; [|done].
      unfold reclaimable in Hr. by rewrite Hr. }
    rewrite Hstep in Hf. destruct (IH _ _ Hnd He Hf) as (H1 & H2 & H3 & H4 & H5). rewrite Hcount.
    split_and!; [| |done| |done].
    + destruct Hskip as [->|Hr]; [destruct (reclaimable_at ps j); lia|rewrite Hr; lia].
    + destruct Hskip as [->|Hr]; [destruct (reclaimable_at ps j); lia|rewrite Hr; lia].
    + intros i [_ Hi]%not_elem_of_cons. by apply H4.
  - assert (reclaimable_at ps j = true) as Hr by (destruct (reclaimable_at ps j); naive_solver).
    assert (e ≠ 0) as Hne by naive_solver. rewrite Hcount, Hr. unfold reclaimable_at in Hr.
    destruct (ps !! j) as [p|] eqn:Ep; [|done].
    assert (reclaim_step (ps, e) j = (alter minus_one_sat j ps, e - 1)) as Hstep.
    { unfold reclaim_step. destruct (Z.eqb_spec e 0); [done|]. rewrite Ep.
      unfold reclaimable in Hr. by rewrite Hr. }
    assert (0 ≤ e - 1) as He1 by lia.
    rewrite Hstep in Hf. destruct (IH _ _ Hnd He1 Hf) as (H1 & H2 & H3 & H4 & H5).
    rewrite count_at_alter in H1, H2 by done. rewrite (total_minus_one _ _ _ Ep) in H2.
    rewrite length_alter in H3. split_and!; [lia|lia|done| |].
    + intros i [Hi Hin]%not_elem_of_cons. rewrite H4 by done. by rewrite list_lookup_alter_ne.
    + intros i q Hq. destruct (decide (i = j)) as [->|Hij].
      * exists (minus_one_sat p). rewrite H4, list_lookup_alter_eq, Ep by done. simplify_eq.
        split; [done|]. right. split; [done|]. by apply Z.ltb_lt.
      * apply H5. by rewrite list_lookup_alter_ne.
Qed.

Lemma filter_ext_in (f g : nat → bool) n :
  (∀ j, (j < n)%nat → f j = g j) →
  filter (fun j => f j = true) (seq 0 n) = filter (fun j => g j = true) (seq 0 n).
Proof.
  intros Hfg. assert (Forall (fun j => (j < n)%nat) (seq 0 n)) as Hall.
  { apply Forall_forall. intros j Hj%elem_of_seq. lia. }
  induction Hall as [|j l Hj _ IH]; [done|]. rewrite !filter_cons, (Hfg j Hj), IH. done.
Qed.

Lemma count_all ps : count_at ps (reclaim_order ps) = Z.of_nat (length (filter (fun p => reclaimable p = true) ps)).
Proof.
  unfold count_at, reclaim_order. rewrite sort_by_perm. f_equal.
  induction ps as [|p ps IH] using rev_ind; [done|].
  rewrite length_app, seq_app, filter_app, filter_app, !length_app. simpl.
  assert (filter (fun j => reclaimable_at (ps ++ [p]) j = true) (seq 0 (length ps))
    = filter (fun j => reclaimable_at ps j = true) (seq 0 (length ps))) as ->.
  { apply filter_ext_in. intros j Hj. unfold reclaimable_at. by rewrite lookup_app_l by lia. }
  rewrite IH. f_equal. rewrite !filter_cons. unfold reclaimable_at.
  rewrite lookup_app_r, Nat.sub_diag by lia. simpl. by case_decide.
Qed.

(** C24: settlement conserves the treasury.  It succeeds exactly when the
    payouts exceed the treasury by no more than the number of payouts that were
    rounded up; then payouts and refund add up to the treasury, the refund is
    not negative, every payout is unchanged or one satoshi lower and never
    below the value rounded down, and payouts within the treasury are not
    touched. *)
Theorem settle_payouts_conserve ps treasury :
  Forall (fun p => 0 ≤ sp_payout_sats p) ps → 0 ≤ treasury → total ps ≤ U64_MAX →
  (is_ok (settle_payouts ps treasury) = true ↔
     total ps - treasury ≤ Z.of_nat (length (filter (fun p => reclaimable p = true) ps))) ∧
  ∀ ps' refund, settle_payouts ps treasury = Ok (ps', refund) →
    treasury = total ps' + refund ∧ 0 ≤ refund ∧ payout_total ps' = total ps' ∧
    length ps' = length ps ∧
    (∀ i p, ps !! i = Some p → ∃ p', ps' !! i = Some p' ∧ reclaimed p p') ∧
    (total ps ≤ treasury → ps' = ps) ∧ (treasury < total ps → refund = 0).
Proof.
  intros Hnn Ht Hmax. unfold settle_payouts.
  assert (0 ≤ total ps) as H0 by (apply sumZ_nonneg; by apply Forall_map).
  assert (payout_total ps = total ps) as Htot.
  { unfold payout_total. rewrite sum_u64_sumZ. apply as_u64_small. split; [done|exact Hmax]. }
  rewrite Htot. destruct (Z.ltb_spec treasury (total ps)) as [Hlt|Hge].
  - unfold reclaim_payout_roundups.
    destruct (foldl reclaim_step (ps, total ps - treasury) (reclaim_order ps)) as [ps1 e1] eqn:Ef.
    apply reclaim_fold_spec in Ef as (_ & Hsum & Hlen & _ & Hrel);
      [|unfold reclaim_order; rewrite sort_by_perm; apply NoDup_seq|lia].
    rewrite count_all in Hsum. set (n := Z.of_nat _) in *. assert (0 ≤ n) by (unfold n; lia). simpl.
    assert (payout_total ps1 = total ps1) as Htot1.
    { unfold payout_total. rewrite sum_u64_sumZ. apply as_u64_small.
      change (sumZ (map sp_payout_sats ps1)) with (total ps1). split; lia. }
    rewrite Htot1. unfold checked_sub. destruct (Z.leb_spec (total ps1) treasury); simpl.
    + split; [split; [lia|done]|]. intros ps' refund [= <- <-]. split_and!; try done; lia.
    + split; [split; [done|lia]|]. done.
  - rewrite Htot. unfold checked_sub. destruct (Z.leb_spec (total ps) treasury); [|lia]. simpl.
    split; [split; [lia|done]|]. intros ps' refund [= <- <-]. split_and!; try done; try lia.
    intros i p Hp. exists p. split; [done|by left].
Qed.

Definition sample_payout (shares sats : Z) (price : f64) : SharePayoutRecord :=
  {| sp_market_id := [1]; sp_address := [2]; sp_outcome_index := 0; sp_shares_redeemed := shares;
     sp_final_price := price; sp_payout_sats := sats |}.

Lemma settle_payouts_conserve_witness :
  is_ok (settle_payouts [sample_payout 3 2 f64_half; sample_payout 3 2 (f64_dec 6 1);
                         sample_payout 10 10 f64_one] 12) = true.
Proof.
  apply (settle_payouts_conserve [sample_payout 3 2 f64_half; sample_payout 3 2 (f64_dec 6 1);
                                  sample_payout 10 10 f64_one] 12).
  - repeat constructor; simpl; lia.
  - lia.
  - vm_compute. discriminate.
  - vm_compute. discriminate.
Defined.

End Settlement.
