(* ===== verification/SettlementFacts.v ===== *)
(** * Disconnecting a settlement

    Settling the resolved markets of a block and reverting the settlement from
    its undo records gives back the UTXO tables, the market table, the pointers
    to market funds and the positions of every share account; the three market
    indexes list the same markets, possibly in another order. *)

From stdpp Require Import base numbers list strings gmap.
From S2P Require Import Prelude Float64 SafeMath Allocation MarketMath StateErrors DecisionTypes.
From S2P Require Import Periods Pricing DecisionsDb Markets MarketsFacts Transactions.
From S2P Require Import TransactionsFacts Voting MarketsDb MarketsDbFacts.

#[local] Arguments from_outpoint _ : simpl never.

(** ** Batches of insertions and deletions in the UTXO tables *)

Section Batches.
Implicit Types (u : UtxoTables) (l : list (OutPoint * FilledOutput)).

Definition inserts u l : UtxoTables := foldl (fun u e => insert_utxo u e.1 e.2) u l.
Definition deletes u l : UtxoTables := foldl (fun u e => (delete_utxo u e.1).2) u l.
Definition keys_of l : list bytes := map (fun e => from_outpoint e.1) l.

Lemma deletes_spec u l :
  index_ok u → Forall (fun e => outpoint_ok e.1) l →
  index_ok (deletes u l) ∧ stxos (deletes u l) = stxos u ∧
  ∀ k, utxos (deletes u l) !! k = if bool_decide (k ∈ keys_of l) then None else utxos u !! k.
Proof.
  intros Hu Hl. revert u Hu. induction Hl as [|e l He _ IH]; intros u Hu.
  { split_and!; [done|done|]. intros k. by rewrite bool_decide_false by apply not_elem_of_nil. }
  change (deletes u (e :: l)) with (deletes (delete_utxo u e.1).2 l).
  change (keys_of (e :: l)) with (from_outpoint e.1 :: keys_of l).
  destruct (IH (delete_utxo u e.1).2) as (Hi & Hs & Hk); [by apply delete_index_ok|].
  split_and!; [exact Hi| |].
  - rewrite Hs. unfold delete_utxo. by destruct (utxos u !! _).
  - intros k. rewrite Hk. unfold delete_utxo.
    destruct (decide (k = from_outpoint e.1)) as [->|Hne].
    + rewrite (bool_decide_true (_ ∈ _ :: _)) by apply list_elem_of_here.
      case_bool_decide; [done|]. destruct (utxos u !! from_outpoint e.1) eqn:E; simpl; [|done].
      by rewrite lookup_delete_eq.
    + rewrite (bool_decide_ext (k ∈ _ :: _) (k ∈ keys_of l)).
      2: { rewrite elem_of_cons. naive_solver. }
      case_bool_decide; [done|]. destruct (utxos u !! from_outpoint e.1) eqn:E; simpl; [|done].
      by rewrite lookup_delete_ne.
Qed.

(** Insertions that agree with a reference table. *)
Lemma inserts_spec u l (t : gmap bytes FilledOutput) :
  index_ok u → Forall (fun e => outpoint_ok e.1 ∧ t !! from_outpoint e.1 = Some e.2) l →
  (∀ k o, utxos u !! k = Some o → t !! k = Some o) →
  index_ok (inserts u l) ∧ stxos (inserts u l) = stxos u ∧
  ∀ k, utxos (inserts u l) !! k = if bool_decide (k ∈ keys_of l) then t !! k else utxos u !! k.
Proof.
  intros Hu Hl. revert u Hu. induction Hl as [|e l [He Ht] _ IH]; intros u Hu Hsub.
  { split_and!; [done|done|]. intros k. by rewrite bool_decide_false by apply not_elem_of_nil. }
  change (inserts u (e :: l)) with (inserts (insert_utxo u e.1 e.2) l).
  change (keys_of (e :: l)) with (from_outpoint e.1 :: keys_of l).
  destruct (IH (insert_utxo u e.1 e.2)) as (Hi & Hs & Hk).
  - apply insert_index_ok; [done|done|]. intros o' Ho'. apply Hsub in Ho'. congruence.
  - intros k o. simpl. destruct (decide (k = from_outpoint e.1)) as [->|Hne].
    + rewrite lookup_insert_eq. congruence.
    + rewrite lookup_insert_ne by done. apply Hsub.
  - split_and!; [exact Hi|exact Hs|]. intros k. rewrite Hk. cbn [insert_utxo utxos].
    destruct (decide (k = from_outpoint e.1)) as [->|Hne].
    + rewrite (bool_decide_true (_ ∈ _ :: _)), lookup_insert_eq, Ht by apply list_elem_of_here.
      by case_bool_decide.
    + rewrite (bool_decide_ext (k ∈ _ :: _) (k ∈ keys_of l)), lookup_insert_ne; [done|done|].
      rewrite elem_of_cons. naive_solver.
Qed.

(** Distinct unused outpoints are such insertions. *)
Lemma fresh_reference u l :
  Forall (fun e => outpoint_ok e.1) l → NoDup (map fst l) →
  Forall (fun k => utxos u !! k = None) (keys_of l) →
  ∃ t : gmap bytes FilledOutput, Forall (fun e => outpoint_ok e.1 ∧ t !! from_outpoint e.1 = Some e.2) l ∧
       (∀ k o, utxos u !! k = Some o → t !! k = Some o).
Proof.
  induction l as [|e l IH]; intros Hok Hnd Hfr; [by exists (utxos u)|].
  apply Forall_cons in Hok as [He Hok]. simpl in Hnd. apply NoDup_cons in Hnd as [Hni Hnd].
  simpl in Hfr. apply Forall_cons in Hfr as [Hfe Hfr].
  destruct (IH Hok Hnd Hfr) as (t & Ht & Hsub).
  exists (<[from_outpoint e.1 := e.2]> t). split.
  - apply Forall_cons. split; [by rewrite lookup_insert_eq|]. rewrite Forall_forall in Ht, Hok |- *.
    intros e' Hin. destruct (Ht e' Hin) as [? ?]. split; [done|]. rewrite lookup_insert_ne; [done|].
    intros Heq. apply Hni. apply from_outpoint_inj in Heq; [|done|done]. rewrite Heq.
    by apply (list_elem_of_fmap_2 fst).
  - intros k o Hk. rewrite lookup_insert_ne by congruence. auto.
Qed.

(** Creating fresh outputs [l] and consuming [f], then deleting [l] and
    restoring [f]. *)
Lemma batch_roundtrip u l f :
  index_ok u → Forall (fun e => outpoint_ok e.1) l → NoDup (map fst l) →
  Forall (fun k => utxos u !! k = None) (keys_of l) →
  Forall (fun e => outpoint_ok e.1 ∧ utxos u !! from_outpoint e.1 = Some e.2) f →
  index_ok (deletes (inserts u l) f) ∧
  inserts (deletes (deletes (inserts u l) f) l) f = u.
Proof.
  intros Hu Hl Hnd Hfr Hf.
  assert (Forall (fun e => outpoint_ok e.1) f) as Hfo by (eapply Forall_impl; [exact Hf|naive_solver]).
  destruct (fresh_reference u l Hl Hnd Hfr) as (t & Ht & Hsub).
  destruct (inserts_spec u l t Hu Ht Hsub) as (Hi1 & Hs1 & Hk1).
  destruct (deletes_spec _ f Hi1 Hfo) as (Hi2 & Hs2 & Hk2).
  destruct (deletes_spec _ l Hi2 Hl) as (Hi3 & Hs3 & Hk3).
  assert (∀ k, utxos (deletes (deletes (inserts u l) f) l) !! k
     = if bool_decide (k ∈ keys_of f) then None else utxos u !! k) as Hk.
  { intros k. rewrite Hk3, Hk2, Hk1. case_bool_decide as Hin; [|done].
    rewrite Forall_forall in Hfr. rewrite (Hfr k Hin). by case_bool_decide. }
  destruct (inserts_spec _ f (utxos u) Hi3 Hf) as (Hi4 & Hs4 & Hk4).
  { intros k o. rewrite Hk. by case_bool_decide. }
  split; [exact Hi2|]. apply tables_ext; [done|done| |congruence].
  apply map_eq. intros k. rewrite Hk4, Hk. by case_bool_decide.
Qed.

End Batches.

(** ** Positions *)

Section Positions.
Implicit Types (accts : gmap Address ShareAccount).

(** Every stored account holds a position, and only positive ones. *)
Definition accounts_ok accts : Prop :=
  map_Forall (fun _ a => account_ok a ∧ positions a ≠ ∅) accts.

Definition held accts (a : Address) (k : MarketId * Z) : Z :=
  default 0 (acct ← accts !! a; positions acct !! k).

Lemma held_get accts a mid i :
  held accts a (mid, i) = get_position (default ShareAccount_new (accts !! a)) mid i.
Proof. unfold held, get_position. by destruct (accts !! a). Qed.

Lemma held_range accts a k : accounts_ok accts → 0 ≤ held accts a k ≤ I64_MAX.
Proof.
  intros Hok. destruct k as [mid i]. rewrite held_get. apply account_ok_position.
  destruct (accts !! a) eqn:E; simpl; [by apply (Hok _ _ E)|apply map_Forall_empty].
Qed.

(** Two tables with the same holdings store the same positions. *)
Lemma held_ext accts accts' :
  accounts_ok accts → accounts_ok accts' → (∀ a k, held accts a k = held accts' a k) →
  ∀ a, positions <$> accts !! a = positions <$> accts' !! a.
Proof.
  assert (∀ (x : ShareAccount) k, account_ok x → positions x !! k
    = if default 0 (positions x !! k) =? 0 then None else positions x !! k) as Hnz.
  { intros x k Hx. destruct (positions x !! k) eqn:E; simpl; [|done]. apply Hx in E.
    by replace (z =? 0) with false by lia. }
  assert (∀ x : ShareAccount, account_ok x → (∀ k, default 0 (positions x !! k) = 0) →
    positions x = ∅) as Hempty.
  { intros x Hx H0. apply map_eq. intros k. rewrite (Hnz x k Hx), H0. by rewrite lookup_empty. }
  intros Hok Hok' Heq a. specialize (Heq a). unfold held in Heq.
  destruct (accts !! a) as [x|] eqn:Ex, (accts' !! a) as [x'|] eqn:Ex'; simpl in *; [|exfalso..|done].
  - destruct (Hok _ _ Ex) as [Hx _], (Hok' _ _ Ex') as [Hx' _]. f_equal. apply map_eq. intros k.
    specialize (Heq k). rewrite (Hnz x k Hx), (Hnz x' k Hx').
    destruct (positions x !! k) eqn:E1, (positions x' !! k) eqn:E2; simpl in *; subst; try done;
      by rewrite ?Heq, <- ?Heq.
  - destruct (Hok _ _ Ex) as [Hx Hne]. apply Hne, Hempty; [done|]. intros k. by rewrite Heq.
  - destruct (Hok' _ _ Ex') as [Hx Hne]. apply Hne, Hempty; [done|]. intros k. by rewrite <- Heq.
Qed.

(** [n] shares of a position of [a]. *)
Definition moved (a a' : Address) (k k' : MarketId * Z) (n : Z) : Z :=
  if bool_decide (a' = a ∧ k' = k) then n else 0.

Lemma held_insert accts a x a' k :
  held (<[a := x]> accts) a' k
  = if bool_decide (a' = a) then default 0 (positions x !! k) else held accts a' k.
Proof.
  unfold held. case_bool_decide as He; [subst; by rewrite lookup_insert_eq|].
  by rewrite lookup_insert_ne.
Qed.

Lemma add_to_account db a mid i n h :
  accounts_ok (share_accounts db) → 0 < n → held (share_accounts db) a (mid, i) + n ≤ I64_MAX →
  ∃ accts, add_shares_to_account db a mid i n h = set_share_accounts db accts ∧ accounts_ok accts ∧
    ∀ a' k, held accts a' k = held (share_accounts db) a' k + moved a a' (mid, i) k n.
Proof.
  intros Hok Hn Hmax. pose proof (held_range _ a (mid, i) Hok) as Hr. rewrite held_get in Hmax, Hr.
  eexists. split; [reflexivity|]. set (x := default ShareAccount_new (share_accounts db !! a)) in *.
  assert (account_ok x) as Hx.
  { unfold x. destruct (share_accounts db !! a) eqn:E; [by apply (Hok _ _ E)|apply map_Forall_empty]. }
  assert (as_i64 (get_position x mid i + n) = get_position x mid i + n) as Hadd.
  { apply as_i64_small. split; lia. }
  unfold add_shares. fold (get_position x mid i). rewrite Hadd. split.
  - apply map_Forall_insert_2; [|done]. split; [|apply insert_non_empty].
    apply map_Forall_insert_2; [lia|done].
  - intros a' k. rewrite held_insert. unfold moved. simpl.
    destruct (decide (a' = a)) as [->|Hne].
    2: { rewrite !bool_decide_false by naive_solver. lia. }
    rewrite (bool_decide_true (a = a)) by done. destruct (decide (k = (mid, i))) as [->|Hk].
    + rewrite lookup_insert_eq, bool_decide_true by done. rewrite held_get. done.
    + rewrite lookup_insert_ne, bool_decide_false by naive_solver. destruct k as [mid' i'].
      rewrite held_get. fold x. unfold get_position. lia.
Qed.

Lemma remove_from_account db a mid i n h db' :
  accounts_ok (share_accounts db) → 0 < n →
  remove_shares_from_account db a mid i n h = Ok db' →
  ∃ accts, db' = set_share_accounts db accts ∧ accounts_ok accts ∧
    n ≤ held (share_accounts db) a (mid, i) ∧
    ∀ a' k, held accts a' k = held (share_accounts db) a' k - moved a a' (mid, i) k n.
Proof.
  intros Hok Hn Hr. pose proof (held_range _ a (mid, i) Hok) as Hrange.
  unfold remove_shares_from_account, remove_shares in Hr. inv_ok.
  rename a0 into x, E0 into E. destruct (Hok _ _ E) as [Hx _].
  assert (held (share_accounts db) a (mid, i) = get_position x mid i) as Hheld
    by (rewrite held_get; by rewrite E).
  rewrite Hheld in *. clear Hheld.
  fold (get_position x mid i) in *. destruct (Z.ltb_spec (get_position x mid i) n); [discriminate|].
  injection E1 as <-. rewrite as_i64_small in * by (split; lia).
  set (ps := if 0 <? get_position x mid i - n then _ else _).
  assert (∀ k, default 0 (ps !! k) = default 0 (positions x !! k) - moved a a (mid, i) k n) as Hps.
  { intros k. unfold ps, moved. destruct (decide (k = (mid, i))) as [->|Hk].
    - rewrite bool_decide_true by done. fold (get_position x mid i). destruct (Z.ltb_spec 0 (get_position x mid i - n)).
      + by rewrite lookup_insert_eq.
      + rewrite lookup_delete_eq. simpl. lia.
    - rewrite bool_decide_false by naive_solver. destruct (Z.ltb_spec 0 (get_position x mid i - n)).
      + rewrite lookup_insert_ne by done. lia.
      + rewrite lookup_delete_ne by done. lia. }
  assert (map_Forall (fun _ n => 0 < n ≤ I64_MAX) ps) as Hps'.
  { unfold ps. destruct (Z.ltb_spec 0 (get_position x mid i - n)).
    - apply map_Forall_insert_2; [lia|done].
    - by apply map_Forall_delete. }
  eexists. split; [reflexivity|]. cbn [positions]. split_and!; [|done|].
  - case_bool_decide; [by apply map_Forall_delete|]. by apply map_Forall_insert_2.
  - intros a' k. destruct (decide (a' = a)) as [->|Hne].
    + assert (held (share_accounts db) a k = default 0 (positions x !! k)) as ->
        by (unfold held; by rewrite E). rewrite <- Hps.
      case_bool_decide as He; [|by rewrite held_insert, bool_decide_true].
      unfold held. rewrite lookup_delete_eq, He. by rewrite lookup_empty.
    + unfold moved. rewrite (bool_decide_false (a' = a ∧ _)) by naive_solver.
      case_bool_decide; [|by rewrite held_insert, bool_decide_false, Z.sub_0_r].
      unfold held. rewrite lookup_delete_ne by done. lia.
Qed.

End Positions.

(** ** Payouts *)

Section Payouts.
Context (payout_hash : MarketId → Address → Z → Z → bytes).

Notation gen := (generate_share_payout_outpoint payout_hash).

(** The outputs a settlement creates, with the sequence number of each. *)
Definition share_outs (height q : Z) (ps : list SharePayoutRecord) : list (OutPoint * FilledOutput) :=
  flat_map (fun e => if 0 <? sp_payout_sats e.2
    then [(gen (sp_market_id e.2) (sp_address e.2) height e.1,
           bitcoin_output (sp_address e.2) (sp_payout_sats e.2))] else []) (enumerate q ps).
Definition fee_outs (id : MarketId) (height q : Z) (fs : list FeePayoutRecord)
  : list (OutPoint * FilledOutput) :=
  map (fun e => (gen id (fp_address e.2) height e.1,
                 bitcoin_output (fp_address e.2) (fp_amount_sats e.2))) (enumerate q fs).
Definition refund_outs (id : MarketId) (height q : Z) (r : option (Address * Z))
  : list (OutPoint * FilledOutput) :=
  match r with
  | Some (a, amount) => [(gen id a height q, bitcoin_output a amount)]
  | None => []
  end.
Definition payout_outs (height : Z) (m : MarketPayoutSummary) : list (OutPoint * FilledOutput) :=
  let n := Z.of_nat (length (mp_payouts m)) in
  let f := Z.of_nat (length (mp_fee_payouts m)) in
  share_outs height 0 (mp_payouts m) ++ fee_outs (mp_market_id m) height n (mp_fee_payouts m) ++
  refund_outs (mp_market_id m) height (n + f) (mp_creator_refund m).

(** The shares of [k] that the payouts take from [a]. *)
Definition redeemed (ps : list SharePayoutRecord) (a : Address) (k : MarketId * Z) : Z :=
  sumZ (map (fun p => moved (sp_address p) a (sp_market_id p, sp_outcome_index p) k
                        (sp_shares_redeemed p)) ps).

Lemma inserts_app u l l' : inserts u (l ++ l') = inserts (inserts u l) l'.
Proof. apply foldl_app. Qed.
Lemma deletes_app u l l' : deletes u (l ++ l') = deletes (deletes u l) l'.
Proof. apply foldl_app. Qed.

Lemma redeemed_nonneg ps a k : Forall (fun p => 0 < sp_shares_redeemed p) ps → 0 ≤ redeemed ps a k.
Proof.
  intros Hps. apply sumZ_nonneg, Forall_map. eapply Forall_impl; [exact Hps|].
  intros p Hp. cbn beta in *. unfold moved. case_bool_decide; lia.
Qed.

Lemma share_outs_cons height q p ps :
  share_outs height q (p :: ps) = share_outs height q [p] ++ share_outs height (q + 1) ps.
Proof. unfold share_outs. cbn [enumerate flat_map]. by rewrite app_nil_r. Qed.

Lemma apply_share_step height s q p s' q' :
  apply_share_payout payout_hash height (s, q) p = Ok (s', q') →
  q' = as_u32 (q + 1) ∧ st_utxos s' = inserts (st_utxos s) (share_outs height q [p]) ∧
  remove_shares_from_account (st_markets s) (sp_address p) (sp_market_id p) (sp_outcome_index p)
    (sp_shares_redeemed p) height = Ok (st_markets s').
Proof.
  unfold apply_share_payout, share_outs. cbn [enumerate flat_map fst snd].
  destruct (0 <? sp_payout_sats p); simpl; intros Hr;
    (destruct (remove_shares_from_account _ _ _ _ _ _); [|discriminate]);
    simpl in Hr; by injection Hr as <- <-.
Qed.

Lemma revert_share_step height s q p :
  let '(s', q') := revert_share_payout payout_hash height (s, q) p in
  q' = as_u32 (q + 1) ∧ st_utxos s' = deletes (st_utxos s) (share_outs height q [p]) ∧
  st_markets s' = add_shares_to_account (st_markets s) (sp_address p) (sp_market_id p)
    (sp_outcome_index p) (sp_shares_redeemed p) height.
Proof.
  unfold revert_share_payout, share_outs. cbn [enumerate flat_map fst snd].
  by destruct (0 <? sp_payout_sats p).
Qed.

Lemma redeemed_cons p ps a k :
  redeemed (p :: ps) a k
  = moved (sp_address p) a (sp_market_id p, sp_outcome_index p) k (sp_shares_redeemed p)
    + redeemed ps a k.
Proof. done. Qed.

Lemma set_share_accounts_twice db x y :
  set_share_accounts (set_share_accounts db x) y = set_share_accounts db y.
Proof. done. Qed.

Lemma set_share_accounts_id db : db = set_share_accounts db (share_accounts db).
Proof. by destruct db. Qed.

Lemma apply_shares_spec height ps s q s' q' :
  0 ≤ q → q + Z.of_nat (length ps) ≤ U32_MAX → Forall (fun p => 0 < sp_shares_redeemed p) ps →
  accounts_ok (share_accounts (st_markets s)) →
  try_fold (apply_share_payout payout_hash height) (s, q) ps = Ok (s', q') →
  q' = q + Z.of_nat (length ps) ∧
  st_utxos s' = inserts (st_utxos s) (share_outs height q ps) ∧
  ∃ accts, st_markets s' = set_share_accounts (st_markets s) accts ∧ accounts_ok accts ∧
    ∀ a k, held accts a k = held (share_accounts (st_markets s)) a k - redeemed ps a k.
Proof.
  intros Hq Hmax Hps. revert s q Hq Hmax. induction Hps as [|p ps Hp _ IH]; intros s q Hq Hmax Hacc Hf.
  - injection Hf as <- <-. split_and!; [simpl; lia|done|].
    exists (share_accounts (st_markets s)). split_and!; [apply set_share_accounts_id|done|].
    intros. cbn. lia.
  - cbn [length] in Hmax. cbn [try_fold] in Hf.
    destruct (apply_share_payout _ _ _ _) as [[s1 q1]|] eqn:E1; [|discriminate]. cbn in Hf.
    apply apply_share_step in E1 as (-> & Hu1 & Hr).
    apply remove_from_account in Hr as (accts1 & Hm1 & Hok1 & _ & Hheld1); [|done|done].
    rewrite as_u32_small in Hf by (split; lia).
    apply IH in Hf as (-> & Hu & accts & Hm & Hok & Hheld); [|lia|lia|by rewrite Hm1].
    split_and!; [cbn [length]; lia|by rewrite Hu, Hu1, (share_outs_cons _ _ p ps), inserts_app|].
    exists accts. rewrite Hm1 in Hm, Hheld. split_and!; [exact Hm|done|].
    intros a k. rewrite Hheld. cbn [share_accounts set_share_accounts]. rewrite Hheld1, redeemed_cons. lia.
Qed.

Lemma revert_shares_spec height ps s q :
  0 ≤ q → q + Z.of_nat (length ps) ≤ U32_MAX → Forall (fun p => 0 < sp_shares_redeemed p) ps →
  accounts_ok (share_accounts (st_markets s)) →
  (∀ a k, held (share_accounts (st_markets s)) a k + redeemed ps a k ≤ I64_MAX) →
  let '(s', q') := foldl (revert_share_payout payout_hash height) (s, q) ps in
  q' = q + Z.of_nat (length ps) ∧
  st_utxos s' = deletes (st_utxos s) (share_outs height q ps) ∧
  ∃ accts, st_markets s' = set_share_accounts (st_markets s) accts ∧ accounts_ok accts ∧
    ∀ a k, held accts a k = held (share_accounts (st_markets s)) a k + redeemed ps a k.
Proof.
  intros Hq Hmax Hps. revert s q Hq Hmax. induction Hps as [|p ps Hp Hps IH]; intros s q Hq Hmax Hacc Hfit.
  - split_and!; [simpl; lia|done|].
    exists (share_accounts (st_markets s)). split_and!; [apply set_share_accounts_id|done|].
    intros. cbn. lia.
  - cbn [length] in Hmax. cbn [foldl]. pose proof (revert_share_step height s q p) as Hstep.
    destruct (revert_share_payout _ _ _ _) as [s1 q1]. destruct Hstep as (-> & Hu1 & Hm1).
    destruct (add_to_account (st_markets s) (sp_address p) (sp_market_id p) (sp_outcome_index p)
      (sp_shares_redeemed p) height Hacc Hp) as (accts1 & Ha1 & Hok1 & Hheld1).
    { specialize (Hfit (sp_address p) (sp_market_id p, sp_outcome_index p)). rewrite redeemed_cons in Hfit.
      unfold moved in Hfit. rewrite bool_decide_true in Hfit by done.
      pose proof (redeemed_nonneg ps (sp_address p) (sp_market_id p, sp_outcome_index p) Hps). lia. }
    rewrite Ha1 in Hm1. rewrite as_u32_small by (split; lia).
    specialize (IH s1 (q + 1) ltac:(lia) ltac:(lia)). rewrite Hm1 in IH.
    cbn [share_accounts set_share_accounts] in IH. specialize (IH Hok1).
    destruct (foldl _ _ _) as [s' q']. destruct IH as (-> & Hu & accts & Hm & Hok & Hheld).
    { intros a k. rewrite Hheld1, <- Z.add_assoc, <- redeemed_cons. apply Hfit. }
    split_and!; [cbn [length]; lia|by rewrite Hu, Hu1, (share_outs_cons _ _ p ps), deletes_app|].
    exists accts. split_and!; [exact Hm|done|].
    intros a k. rewrite Hheld, Hheld1, redeemed_cons. lia.
Qed.

Lemma apply_fees_spec id height fs s q :
  0 ≤ q → q + Z.of_nat (length fs) ≤ U32_MAX →
  foldl (apply_fee_payout payout_hash id height) (s, q) fs
  = (with_utxos s (inserts (st_utxos s) (fee_outs id height q fs)), q + Z.of_nat (length fs)).
Proof.
  revert s q. induction fs as [|f fs IH]; intros s q Hq Hmax.
  - cbn. rewrite Z.add_0_r. by destruct s.
  - cbn [length] in Hmax. cbn [foldl apply_fee_payout]. rewrite as_u32_small by (split; lia).
    rewrite IH by lia. cbn [length]. f_equal. lia.
Qed.

Lemma revert_fees_spec id height fs s q :
  0 ≤ q → q + Z.of_nat (length fs) ≤ U32_MAX →
  foldl (revert_fee_payout payout_hash id height) (s, q) fs
  = (with_utxos s (deletes (st_utxos s) (fee_outs id height q fs)), q + Z.of_nat (length fs)).
Proof.
  revert s q. induction fs as [|f fs IH]; intros s q Hq Hmax.
  - cbn. rewrite Z.add_0_r. by destruct s.
  - cbn [length] in Hmax. cbn [foldl revert_fee_payout]. rewrite as_u32_small by (split; lia).
    rewrite IH by lia. cbn [length]. f_equal. lia.
Qed.

(** The outpoints of the payouts carry distinct sequence numbers. *)
Definition sequence_of (op : OutPoint) : Z := match op with OpPayout _ q => q | _ => 0 end.
Definition sequences (l : list (OutPoint * FilledOutput)) : list Z := map (fun e => sequence_of e.1) l.

Definition payout_of (id : MarketId) (height : Z) (op : OutPoint) : Prop :=
  ∃ a q, op = gen id a height q ∧ is_u32 q.

(** [l] lists payouts of a market with distinct sequence numbers in [[a, b)]. *)
Definition numbered (id : MarketId) (height a b : Z) (l : list (OutPoint * FilledOutput)) : Prop :=
  Forall (fun e => payout_of id height e.1) l ∧ NoDup (sequences l) ∧
  Forall (fun q => a ≤ q < b) (sequences l).

Lemma numbered_app id height a b c l l' :
  a ≤ b ≤ c → numbered id height a b l → numbered id height b c l' →
  numbered id height a c (l ++ l').
Proof.
  intros Hab (Hp & Hn & Hr) (Hp' & Hn' & Hr'). unfold numbered, sequences in *.
  rewrite map_app, !Forall_app. rewrite Forall_forall in Hr, Hr'. split_and!; [done|done| |..].
  - apply NoDup_app. split_and!; [done| |done]. intros q Hq Hq'.
    specialize (Hr q Hq). specialize (Hr' q Hq'). simpl in *. lia.
  - apply Forall_forall. intros q Hq. specialize (Hr q Hq). simpl in *. lia.
  - apply Forall_forall. intros q Hq. specialize (Hr' q Hq). simpl in *. lia.
Qed.

Lemma numbered_nil id height a b : numbered id height a b [].
Proof. split_and!; constructor. Qed.

Lemma numbered_one id height a q o :
  is_u32 q → numbered id height q (q + 1) [(gen id a height q, o)].
Proof.
  intros Hq. split_and!; repeat constructor; simpl; try lia; [|apply not_elem_of_nil]. by exists a, q.
Qed.

Lemma share_outs_numbered id height ps q :
  0 ≤ q → q + Z.of_nat (length ps) ≤ U32_MAX → Forall (fun p => sp_market_id p = id) ps →
  numbered id height q (q + Z.of_nat (length ps)) (share_outs height q ps).
Proof.
  intros Hq Hmax Hps. revert q Hq Hmax. induction Hps as [|p ps <- _ IH]; intros q Hq Hmax.
  - apply numbered_nil.
  - cbn [length] in *. rewrite share_outs_cons. apply (numbered_app _ _ _ (q + 1)); [lia| |].
    + unfold share_outs. cbn [enumerate flat_map fst snd]. destruct (0 <? sp_payout_sats p).
      * apply numbered_one. split; lia.
      * apply numbered_nil.
    + replace (q + Z.of_nat (S (length ps))) with (q + 1 + Z.of_nat (length ps)) by lia.
      apply IH; lia.
Qed.

Lemma fee_outs_numbered id height fs q :
  0 ≤ q → q + Z.of_nat (length fs) ≤ U32_MAX →
  numbered id height q (q + Z.of_nat (length fs)) (fee_outs id height q fs).
Proof.
  revert q. induction fs as [|f fs IH]; intros q Hq Hmax.
  - apply numbered_nil.
  - cbn [length] in *. apply (numbered_app _ _ _ (q + 1) _ [_]); [lia| |].
    + apply numbered_one. split; simpl; lia.
    + replace (q + Z.of_nat (S (length fs))) with (q + 1 + Z.of_nat (length fs)) by lia.
      apply IH; lia.
Qed.

Definition payout_count (m : MarketPayoutSummary) : Z :=
  Z.of_nat (length (mp_payouts m)) + Z.of_nat (length (mp_fee_payouts m)).

Lemma payout_outs_numbered height m :
  payout_count m ≤ U32_MAX → Forall (fun p => sp_market_id p = mp_market_id m) (mp_payouts m) →
  numbered (mp_market_id m) height 0 (payout_count m + 1) (payout_outs height m).
Proof.
  intros Hmax Hps. unfold payout_outs, payout_count in *.
  apply (numbered_app _ _ _ (Z.of_nat (length (mp_payouts m)))); [lia| |].
  { apply (share_outs_numbered _ _ _ 0); [lia|lia|done]. }
  eapply numbered_app; [|apply fee_outs_numbered; lia|]; [lia|].
  destruct (mp_creator_refund m) as [[a n]|]; [|apply numbered_nil].
  apply numbered_one. split; lia.
Qed.

Context (payout_hash_length : ∀ id a h q, length (payout_hash id a h q) = 32%nat).

Lemma numbered_outpoints id height a b l :
  numbered id height a b l → Forall (fun e => outpoint_ok e.1) l ∧ NoDup (map fst l).
Proof.
  intros (Hp & Hn & _). split.
  - eapply Forall_impl; [exact Hp|]. intros e (x & q & -> & Hq). by split.
  - apply (NoDup_fmap_1 sequence_of). unfold sequences in Hn. by rewrite <- list_fmap_compose.
Qed.

End Payouts.

(** ** The funds of a market *)

Section Funds.
Context {AM : BitcoinAmount}.
Implicit Types (s : SettleState) (id : MarketId).

(** The pointers of a market to its funds lead to unspent outputs. *)
Definition backed s id : Prop :=
  ∀ b op, market_funds_utxos (st_markets s) !! (id, b) = Some op →
    is_Some (utxos (st_utxos s) !! from_outpoint op).

Definition funds_list s id : list (OutPoint * FilledOutput) :=
  option_list (funds_utxo s id false) ++ option_list (funds_utxo s id true).

Lemma funds_sats_backed s id v w :
  get_market_funds_sats s id false = Ok v → get_market_funds_sats s id true = Ok w → backed s id.
Proof.
  unfold get_market_funds_sats. intros Hf Ht b op Hp.
  destruct b; [rewrite Hp in Ht; clear Hf; rename Ht into H|rewrite Hp in Hf; rename Hf into H];
    inv_ok; eauto.
Qed.

Lemma funds_utxo_cases s id b :
  backed s id →
  match market_funds_utxos (st_markets s) !! (id, b) with
  | Some op => ∃ o, utxos (st_utxos s) !! from_outpoint op = Some o ∧ funds_utxo s id b = Some (op, o)
  | None => funds_utxo s id b = None
  end.
Proof.
  intros Hb. unfold funds_utxo. destruct (_ !! (id, b)) as [op|] eqn:E; simpl; [|done].
  destruct (Hb b op E) as [o Ho]. exists o. by rewrite Ho.
Qed.

Lemma funds_list_held s id :
  (∀ k op, market_funds_utxos (st_markets s) !! k = Some op → outpoint_ok op) → backed s id →
  Forall (fun e => outpoint_ok e.1 ∧ utxos (st_utxos s) !! from_outpoint e.1 = Some e.2)
    (funds_list s id).
Proof.
  intros Hop Hb. unfold funds_list. apply Forall_app. split.
  all: match goal with |- Forall _ (option_list (funds_utxo _ _ ?b)) =>
    pose proof (funds_utxo_cases s id b Hb) as Hc end.
  all: destruct (_ !! (id, _)) as [op|] eqn:E; [destruct Hc as (o & Ho & ->)|rewrite Hc; constructor].
  all: repeat constructor; [by apply (Hop _ _ E)|done].
Qed.

(** Consuming both funds of [s0] in a state with the same pointers. *)
Lemma consume_both s0 s id :
  backed s0 id → market_funds_utxos (st_markets s) = market_funds_utxos (st_markets s0) →
  consume_funds (consume_funds s id false) id true
  = {| st_markets := set_funds (st_markets s)
         (delete (id, true) (delete (id, false) (market_funds_utxos (st_markets s))));
       st_utxos := deletes (st_utxos s) (funds_list s0 id) |}.
Proof.
  intros Hb Hf. pose proof (funds_utxo_cases s0 id false Hb) as Hc.
  pose proof (funds_utxo_cases s0 id true Hb) as Hc'. rewrite <- Hf in Hc, Hc'.
  assert (∀ s1 : SettleState, market_funds_utxos (st_markets s1) !! (id, true)
    = market_funds_utxos (st_markets s) !! (id, true) → consume_funds s1 id true
    = {| st_markets := set_funds (st_markets s1) (delete (id, true) (market_funds_utxos (st_markets s1)));
         st_utxos := deletes (st_utxos s1) (option_list (funds_utxo s0 id true)) |}) as Htrue.
  { intros [db u] Hs1. unfold consume_funds. cbn [st_markets st_utxos] in *. rewrite Hs1.
    destruct (market_funds_utxos (st_markets s) !! (id, true)) as [op|] eqn:E.
    - by destruct Hc' as (o & _ & ->).
    - rewrite Hc'. cbn. rewrite delete_id by done. by destruct db. }
  unfold funds_list. rewrite deletes_app. unfold consume_funds at 2.
  destruct (market_funds_utxos (st_markets s) !! (id, false)) as [op|] eqn:E.
  - destruct Hc as (o & _ & ->). rewrite Htrue; [done|]. cbn. by rewrite lookup_delete_ne.
  - rewrite Hc, Htrue by done. cbn. by rewrite (delete_id _ (id, false)).
Qed.

(** Restoring both funds of [s0] after they were consumed. *)
Lemma restore_both s0 s id :
  backed s0 id →
  market_funds_utxos (st_markets s)
    = delete (id, true) (delete (id, false) (market_funds_utxos (st_markets s0))) →
  restore_funds (restore_funds s id false (funds_utxo s0 id false)) id true (funds_utxo s0 id true)
  = {| st_markets := set_funds (st_markets s) (market_funds_utxos (st_markets s0));
       st_utxos := inserts (st_utxos s) (funds_list s0 id) |}.
Proof.
  intros Hb Hf. pose proof (funds_utxo_cases s0 id false Hb) as Hc.
  pose proof (funds_utxo_cases s0 id true Hb) as Hc'. unfold funds_list. rewrite inserts_app.
  destruct s as [[ms si ei di sa mf mp] u]. cbn in Hf. subst mf.
  set (m := market_funds_utxos (st_markets s0)) in *.
  destruct (m !! (id, false)) as [op|] eqn:E, (m !! (id, true)) as [op'|] eqn:E';
    [destruct Hc as (o & _ & ->), Hc' as (o' & _ & ->)|destruct Hc as (o & _ & ->); rewrite Hc'|
     rewrite Hc; destruct Hc' as (o' & _ & ->)|rewrite Hc, Hc'];
    cbn; unfold set_market_funds_utxo, set_funds; cbn; repeat f_equal.
  all: apply map_eq; intros k; destruct (decide (k = (id, true))) as [->|Hk];
    [|destruct (decide (k = (id, false))) as [->|Hk']];
    rewrite ?lookup_insert_eq, ?lookup_insert_ne, ?lookup_insert_eq, ?lookup_delete_eq by congruence;
    try congruence; rewrite ?lookup_insert_ne, ?lookup_delete_ne, ?lookup_delete_eq by congruence;
    try congruence.
Qed.

End Funds.

(** ** One market *)

Section Market.
Context {AM : BitcoinAmount}.
Context (payout_hash : MarketId → Address → Z → Z → bytes).
Context (nd_sum : list f64 → f64).
Context (payout_hash_length : ∀ id a h q, length (payout_hash id a h q) = 32%nat).
Implicit Types (s : SettleState) (m : Market).

Lemma write_market_frame db m o :
  let db' := write_market_and_indexes db m (Some o) in
  markets db' = <[m_id m := m]> (markets db) ∧ share_accounts db' = share_accounts db ∧
  market_funds_utxos db' = market_funds_utxos db ∧ mempool_shares db' = mempool_shares db.
Proof.
  unfold write_market_and_indexes. simpl.
  match goal with |- context [update_decisions (update_decisions ?d ?i ?g false) ?i ?n true] =>
    destruct (update_decisions_frame (update_decisions d i g false) i n true) as (-> & _ & _ & -> & -> & ->);
    destruct (update_decisions_frame d i g false) as (-> & _ & _ & -> & -> & ->) end.
  by do 2 case_bool_decide.
Qed.

Lemma update_market_frame db m db' o :
  get_market db (m_id m) = Some o → update_market db m = Ok db' →
  markets db' = <[m_id m := m]> (markets db) ∧ share_accounts db' = share_accounts db ∧
  market_funds_utxos db' = market_funds_utxos db ∧ mempool_shares db' = mempool_shares db.
Proof.
  unfold update_market. intros Ho. rewrite Ho. destruct (validate_market_state_transition _ _); [|discriminate].
  intros [= <-]. apply write_market_frame.
Qed.

Lemma shareholder_positions db id a i n :
  accounts_ok (share_accounts db) →
  (a, (i, n)) ∈ flat_map (fun h => map (fun p => (h.1, p)) h.2) (get_shareholders_for_market db id) →
  0 < n.
Proof.
  intros Hok Hin. apply list_elem_of_In, in_flat_map in Hin as ([a' ps] & Hh & Hp).
  apply list_elem_of_In, list_elem_of_omap in Hh as ([a'' x] & Hx & Hps).
  apply elem_of_db_iter in Hx. destruct (Hok _ _ Hx) as [Hacc _]. cbn in Hps.
  destruct (map _ (filter _ _)) as [|p0 l] eqn:El; [discriminate|]. injection Hps as -> <-.
  apply in_map_iff in Hp as ([i' n'] & [= <- <- <-] & Hp). rewrite <- El in Hp.
  apply in_map_iff in Hp as (e & [= <- <-] & He%list_elem_of_In%list_elem_of_filter).
  destruct e as [k n]. destruct He as [_ He%elem_of_db_iter]. by apply Hacc in He as [].
Qed.

Lemma settle_payouts_Forall (P : SharePayoutRecord → Prop) ps treasury ps' refund :
  (∀ p, P p → P (minus_one_sat p)) → Forall P ps →
  settle_payouts ps treasury = Ok (ps', refund) → Forall P ps'.
Proof.
  intros HP Hps Hs. unfold settle_payouts in Hs. inv_ok.
  destruct (treasury <? payout_total ps); [|done]. unfold reclaim_payout_roundups.
  generalize (payout_total ps - treasury) as e. generalize (reclaim_order ps) as js.
  intros js. clear - HP Hps. revert ps Hps. induction js as [|j js IH]; intros ps Hps e; [done|]. cbn [foldl].
  destruct (reclaim_step (ps, e) j) as [ps1 e1] eqn:E. apply IH. revert E. unfold reclaim_step.
  repeat case_match; intros [= <- <-]; try done. apply Forall_alter; [done|]. eauto.
Qed.

Lemma calculate_payouts_spec s vdb reps m height outcomes decisions summary :
  accounts_ok (share_accounts (st_markets s)) →
  calculate_share_payouts s vdb reps m height outcomes decisions = Some (Ok summary) →
  backed s (m_id m) ∧ mp_market_id summary = m_id m ∧
  Forall (fun p => sp_market_id p = m_id m) (mp_payouts summary) ∧
  Forall (fun p => 0 < sp_shares_redeemed p) (mp_payouts summary).
Proof.
  intros Hacc. unfold calculate_share_payouts.
  destruct (get_market_funds_sats s (m_id m) false) as [treasury|] eqn:Et; [|discriminate].
  destruct (share_payouts _ _) as [ps|] eqn:Eps; simpl; [|discriminate]. intros [= H].
  destruct (settle_payouts ps treasury) as [[ps' refund]|] eqn:Es; simpl in H; [|discriminate].
  destruct (get_market_funds_sats s (m_id m) true) eqn:Ef; simpl in H; [|discriminate].
  destruct (calculate_fee_distribution _ _ _ _ _ _); simpl in H; [|discriminate].
  injection H as <-. cbn [mp_market_id mp_payouts].
  assert (Forall (fun p => sp_market_id p = m_id m ∧ 0 < sp_shares_redeemed p) ps) as Hps.
  { unfold share_payouts in Eps. apply mapM_Some_1 in Eps.
    apply Forall_forall. intros p Hp. apply list_elem_of_lookup in Hp as [j Hj].
    destruct (Forall2_lookup_r _ _ _ _ _ Eps Hj) as ([x [i n]] & Hin & Hp).
    apply list_elem_of_lookup_2, shareholder_positions in Hin; [|done].
    unfold share_payout in Hp. destruct (m_final_prices m !! _); [|discriminate].
    injection Hp as <-. done. }
  split_and!; [exact (funds_sats_backed s _ _ _ Et Ef)|done|..];
    eapply settle_payouts_Forall; [|by eapply Forall_impl; [exact Hps|naive_solver]|exact Es| |
      by eapply Forall_impl; [exact Hps|naive_solver]|exact Es]; done.
Qed.

Lemma apply_automatic_spec s summary height s' :
  accounts_ok (share_accounts (st_markets s)) → backed s (mp_market_id summary) →
  Forall (fun p => 0 < sp_shares_redeemed p) (mp_payouts summary) →
  payout_count summary ≤ U32_MAX →
  apply_automatic_share_payouts payout_hash s summary height = Ok s' →
  let id := mp_market_id summary in
  st_utxos s' = deletes (inserts (st_utxos s) (payout_outs payout_hash height summary))
                  (funds_list s id) ∧
  ∃ accts, st_markets s' = set_funds (set_share_accounts (st_markets s) accts)
      (delete (id, true) (delete (id, false) (market_funds_utxos (st_markets s)))) ∧
    accounts_ok accts ∧
    ∀ a k, held accts a k
      = held (share_accounts (st_markets s)) a k - redeemed (mp_payouts summary) a k.
Proof.
  intros Hacc Hb Hpos Hcount Ha id. unfold apply_automatic_share_payouts, payout_count in *.
  destruct (try_fold _ _ _) as [[s1 q1]|] eqn:Ef; simpl in Ha; [|discriminate].
  apply apply_shares_spec in Ef as (-> & Hu1 & accts & Hm1 & Hok & Hheld); [|lia|lia|done|done].
  rewrite Z.add_0_l, apply_fees_spec in Ha by lia. injection Ha as <-.
  match goal with |- context [consume_funds (consume_funds ?x _ _) _ _] =>
    assert (st_markets x = st_markets s1) as Hmx by (by destruct (mp_creator_refund summary) as [[]|]);
    assert (st_utxos x = inserts (st_utxos s) (payout_outs payout_hash height summary)) as Hux;
    [|revert Hmx Hux; generalize x; intros y Hmx Hux] end.
  { unfold payout_outs. rewrite !inserts_app, <- Hu1. by destruct (mp_creator_refund summary) as [[]|]. }
  rewrite (consume_both s) by (done || (rewrite Hmx, Hm1; done)). cbn [st_utxos st_markets].
  rewrite Hux, Hmx, Hm1. split; [done|]. exists accts. by split.
Qed.

Lemma revert_automatic_spec s summary height :
  accounts_ok (share_accounts (st_markets s)) →
  Forall (fun p => 0 < sp_shares_redeemed p) (mp_payouts summary) →
  payout_count summary ≤ U32_MAX →
  (∀ a k, held (share_accounts (st_markets s)) a k + redeemed (mp_payouts summary) a k ≤ I64_MAX) →
  let s' := revert_automatic_share_payouts payout_hash s summary height in
  st_utxos s' = deletes (st_utxos s) (payout_outs payout_hash height summary) ∧
  ∃ accts, st_markets s' = set_share_accounts (st_markets s) accts ∧ accounts_ok accts ∧
    ∀ a k, held accts a k
      = held (share_accounts (st_markets s)) a k + redeemed (mp_payouts summary) a k.
Proof.
  intros Hacc Hpos Hcount Hfit. unfold revert_automatic_share_payouts, payout_count in *.
  pose proof (revert_shares_spec payout_hash height (mp_payouts summary) s 0
    ltac:(lia) ltac:(lia) Hpos Hacc Hfit) as Hr.
  destruct (foldl (revert_share_payout _ _) _ _) as [s1 q1].
  destruct Hr as (-> & Hu1 & accts & Hm1 & Hok & Hheld).
  rewrite Z.add_0_l, revert_fees_spec by lia. unfold payout_outs. rewrite !deletes_app, <- Hu1.
  destruct (mp_creator_refund summary) as [[a n]|]; (split; [done|]); by exists accts.
Qed.

(** The states a settlement starts from: exact indexes, positive positions,
    funds pointers that are well-formed outpoints. *)
Record settle_ok (s : SettleState) : Prop := {
  ss_db : db_ok (st_markets s);
  ss_accounts : accounts_ok (share_accounts (st_markets s));
  ss_index : index_ok (st_utxos s);
  ss_funds : ∀ k op, market_funds_utxos (st_markets s) !! k = Some op → outpoint_ok op
}.

(** The same UTXO tables, markets, funds pointers and positions. *)
Record same_tables (s s' : SettleState) : Prop := {
  same_utxos : st_utxos s = st_utxos s';
  same_markets : markets (st_markets s) = markets (st_markets s');
  same_funds : market_funds_utxos (st_markets s) = market_funds_utxos (st_markets s');
  same_mempool : mempool_shares (st_markets s) = mempool_shares (st_markets s');
  same_positions : ∀ a, positions <$> share_accounts (st_markets s) !! a
                      = positions <$> share_accounts (st_markets s') !! a
}.

#[export] Instance same_tables_equiv : Equivalence same_tables.
Proof.
  split.
  - by split.
  - intros s s' []. by split.
  - intros s1 s2 s3 [] []. split; etrans; eauto.
Qed.

Lemma held_same s s' a k :
  same_tables s s' →
  held (share_accounts (st_markets s)) a k = held (share_accounts (st_markets s')) a k.
Proof.
  intros [_ _ _ _ Hp]. specialize (Hp a). unfold held.
  destruct (_ !! a) as [x|], (_ !! a) as [x'|]; simplify_eq/=; [congruence|done].
Qed.

Definition payouts_unused (height : Z) (s : SettleState) (id : MarketId) : Prop :=
  ∀ a q, is_u32 q →
    utxos (st_utxos s) !! from_outpoint (generate_share_payout_outpoint payout_hash id a height q)
    = None.

Lemma settle_market_inv vdb reps height outcomes decisions s m s1 undo :
  settle_market payout_hash nd_sum vdb reps height outcomes decisions s m = Some (Ok (s1, undo)) →
  ∃ m1 m2 sa db, let summary := su_payout_summary undo in
    m_id m1 = m_id m ∧ m_id m2 = m_id m ∧
    calculate_share_payouts s vdb reps m1 height outcomes decisions = Some (Ok summary) ∧
    apply_automatic_share_payouts payout_hash s summary height = Ok sa ∧
    update_market (st_markets sa) m2 = Ok db ∧ s1 = with_markets sa db ∧
    undo = {| su_pre_settlement_market := m; su_payout_summary := summary;
              su_treasury_utxo := funds_utxo s (m_id m) false;
              su_fee_utxo := funds_utxo s (m_id m) true |}.
Proof.
  unfold settle_market. destruct (mbind _ _) as [m1|] eqn:E1; [|discriminate].
  destruct (calculate_share_payouts _ _ _ _ _ _ _) as [[summary|]|] eqn:Ec; [|discriminate..].
  simpl. intros [= H]. destruct (apply_automatic_share_payouts _ _ _ _) as [sa|] eqn:Ea; [|discriminate].
  simpl in H. destruct (update_state m1 _ _ _ _) as [m2|] eqn:E2; [|discriminate]. simpl in H.
  destruct (update_market _ _) as [db|] eqn:Eu; [|discriminate]. injection H as <- <-.
  exists m1, m2, sa, db. cbn [su_payout_summary].
  assert (m_id m1 = m_id m) as Hid.
  { unfold mbind, result_bind in E1. destruct (map_err _ _) as [prices|]; [|discriminate].
    destruct (update_state m _ _ _ _) as [m'|] eqn:E; [|discriminate]. injection E1 as <-.
    by eapply update_state_id. }
  apply update_state_id in E2. rewrite <- Hid. split_and!; done || congruence.
Qed.

(** What settling one market does to the tables. *)
Record settled (height : Z) (m : Market) (s s1 : SettleState) (undo : SettlementUndoEntry) : Prop := {
  sd_backed : backed s (m_id m);
  sd_positive : Forall (fun p => 0 < sp_shares_redeemed p) (mp_payouts (su_payout_summary undo));
  sd_numbered : numbered payout_hash (m_id m) height 0 (payout_count (su_payout_summary undo) + 1)
                  (payout_outs payout_hash height (su_payout_summary undo));
  sd_utxos : st_utxos s1 = deletes (inserts (st_utxos s)
               (payout_outs payout_hash height (su_payout_summary undo))) (funds_list s (m_id m));
  sd_markets : ∃ m2, m_id m2 = m_id m ∧
                 markets (st_markets s1) = <[m_id m := m2]> (markets (st_markets s));
  sd_db : db_ok (st_markets s1);
  sd_funds : market_funds_utxos (st_markets s1)
    = delete (m_id m, true) (delete (m_id m, false) (market_funds_utxos (st_markets s)));
  sd_mempool : mempool_shares (st_markets s1) = mempool_shares (st_markets s);
  sd_accounts : accounts_ok (share_accounts (st_markets s1));
  sd_held : ∀ a k, held (share_accounts (st_markets s1)) a k
    = held (share_accounts (st_markets s)) a k - redeemed (mp_payouts (su_payout_summary undo)) a k;
  sd_undo : undo = {| su_pre_settlement_market := m; su_payout_summary := su_payout_summary undo;
                      su_treasury_utxo := funds_utxo s (m_id m) false;
                      su_fee_utxo := funds_utxo s (m_id m) true |}
}.

Lemma settle_market_settled vdb reps height outcomes decisions s m s1 undo :
  settle_ok s → get_market (st_markets s) (m_id m) = Some m →
  settle_market payout_hash nd_sum vdb reps height outcomes decisions s m = Some (Ok (s1, undo)) →
  payout_count (su_payout_summary undo) ≤ U32_MAX →
  settled height m s s1 undo.
Proof.
  intros [Hdb Hacc Hidx Hfunds] Hm Hs Hcount.
  apply settle_market_inv in Hs as (m1 & m2 & sa & db & Hid1 & Hid2 & Hc & Ha & Hu & -> & Hundo).
  apply calculate_payouts_spec in Hc as (Hb & Hmid & Hids & Hpos); [|done]. rewrite Hid1 in *.
  rewrite <- Hmid in Hb, Hids. destruct (apply_automatic_spec _ _ _ _ Hacc Hb Hpos Hcount Ha)
    as (Hua & accts & Hma & Hok & Hheld). rewrite Hmid in *.
  rewrite <- Hid2 in Hm.
  assert (get_market (st_markets sa) (m_id m2) = Some m) as Hm' by (by rewrite Hma).
  destruct (update_market_frame _ _ _ _ Hm' Hu) as (Hmk & Hsa & Hfu & Hmp).
  split; cbn [st_utxos st_markets with_markets]; [done|done| |done|..].
  - rewrite <- Hmid. by apply payout_outs_numbered; rewrite ?Hmid.
  - exists m2. split; [done|]. by rewrite Hmk, Hma, Hid2.
  - apply (update_market_ok (st_markets sa) m2); [|by eexists|done]. rewrite Hma. by destruct Hdb.
  - by rewrite Hfu, Hma.
  - by rewrite Hmp, Hma.
  - by rewrite Hsa, Hma.
  - intros a k. by rewrite Hsa, Hma.
  - exact Hundo.
Qed.

Lemma unused_keys height s id a b l :
  payouts_unused height s id → numbered payout_hash id height a b l →
  Forall (fun k => utxos (st_utxos s) !! k = None) (keys_of l).
Proof.
  intros Hun (Hp & _). apply Forall_map. eapply Forall_impl; [exact Hp|].
  intros e (x & q & Hop & Hq). cbn beta in *. rewrite Hop. by apply Hun.
Qed.

Lemma settled_ok height m s s1 undo :
  settle_ok s → payouts_unused height s (m_id m) → settled height m s s1 undo → settle_ok s1.
Proof.
  intros [Hdb Hacc Hidx Hfunds] Hun []. split; [done|done| |].
  - destruct (numbered_outpoints _ payout_hash_length _ _ _ _ _ sd_numbered0) as [Hop Hnd].
    rewrite sd_utxos0. eapply batch_roundtrip; [done|done|done| |by apply funds_list_held].
    exact (unused_keys _ _ _ _ _ _ Hun sd_numbered0).
  - intros k op. rewrite sd_funds0. intros [_ Hk%lookup_delete_Some]%lookup_delete_Some.
    destruct Hk as [_ Hk]. by eapply Hfunds.
Qed.

(** The payouts of another market are still unused. *)
Lemma settled_unused height m s s1 undo id :
  settle_ok s → payouts_unused height s (m_id m) → settled height m s s1 undo →
  (∀ a a' q, payout_hash id a height q ≠ payout_hash (m_id m) a' height q) →
  payouts_unused height s id → payouts_unused height s1 id.
Proof.
  intros [Hdb Hacc Hidx Hfunds] Hun [] Hapart Hid a q Hq.
  destruct (numbered_outpoints _ payout_hash_length _ _ _ _ _ sd_numbered0) as [Hop Hnd].
  destruct (fresh_reference (st_utxos s) _ Hop Hnd) as (t & Ht & Hsub); [exact (unused_keys _ _ _ _ _ _ Hun sd_numbered0)|].
  destruct (inserts_spec _ _ t Hidx Ht Hsub) as (Hi1 & _ & Hk1).
  rewrite sd_utxos0. edestruct (deletes_spec _ (funds_list s (m_id m)) Hi1) as (_ & _ & ->).
  { eapply Forall_impl; [by apply funds_list_held|naive_solver]. }
  case_bool_decide; [done|]. rewrite Hk1. case_bool_decide as Hin; [exfalso|by apply Hid].
  apply list_elem_of_fmap in Hin as (e & He & Hin). destruct sd_numbered0 as (Hp & _).
  rewrite Forall_forall in Hp, Hop. destruct (Hp e Hin) as (a' & q' & Heq & _).
  apply from_outpoint_inj in He; [|by split|by apply Hop]. rewrite Heq in He.
  unfold generate_share_payout_outpoint in He. injection He as Hh ->. by eapply Hapart.
Qed.

(** Reverting the entry of a settled market, from any state with the tables
    the settlement left. *)
Lemma settled_reverted height m s s1 undo s1' :
  settle_ok s → get_market (st_markets s) (m_id m) = Some m → payouts_unused height s (m_id m) →
  payout_count (su_payout_summary undo) ≤ U32_MAX → settled height m s s1 undo →
  settle_ok s1' → same_tables s1' s1 →
  let s2 := revert_settlement_entry payout_hash height s1' undo in settle_ok s2 ∧ same_tables s2 s.
Proof.
  intros [Hdb Hacc Hidx Hfunds] Hm Hun Hcount [] [Hdb' Hacc' Hidx' Hfunds'] Hsame.
  destruct sd_markets0 as (m2 & Hid2 & Hmk). rewrite sd_undo0 in *.
  set (summary := su_payout_summary undo) in *. cbn [su_payout_summary] in *.
  unfold revert_settlement_entry. cbn [su_payout_summary su_pre_settlement_market su_treasury_utxo su_fee_utxo].
  assert (∀ a k, held (share_accounts (st_markets s1')) a k + redeemed (mp_payouts summary) a k
    = held (share_accounts (st_markets s)) a k) as Hback.
  { intros a k. rewrite (held_same s1' s1), sd_held0 by done. lia. }
  destruct (revert_automatic_spec s1' summary height Hacc' sd_positive0 Hcount)
    as (Hur & accts & Hmr & Hokr & Hheldr).
  { intros a k. rewrite Hback. by apply held_range. }
  set (sr := revert_automatic_share_payouts _ _ _ _) in *. destruct Hsame as [Hsu Hsm Hsf Hsp _].
  rewrite (restore_both s sr) by (done || (rewrite Hmr; cbn; congruence)).
  cbn [with_markets st_markets st_utxos]. set (dbr := set_funds _ _).
  assert (markets dbr = markets (st_markets s1')) as Hmdbr by (unfold dbr; by rewrite Hmr).
  assert (get_market dbr (m_id m) = Some m2) as Hm2.
  { unfold get_market. by rewrite Hmdbr, Hsm, Hmk, lookup_insert_eq. }
  unfold restore_market. rewrite Hm2. destruct (write_market_frame dbr m m2) as (Hw1 & Hw2 & Hw3 & Hw4).
  assert (inserts (st_utxos sr) (funds_list s (m_id m)) = st_utxos s) as Hu.
  { rewrite Hur, Hsu, sd_utxos0.
    destruct (numbered_outpoints _ payout_hash_length _ _ _ _ _ sd_numbered0) as [Hop Hnd].
    apply batch_roundtrip; [done..| |by apply funds_list_held].
    exact (unused_keys _ _ _ _ _ _ Hun sd_numbered0). }
  assert (share_accounts dbr = accts) as Hdbracc by (unfold dbr; by rewrite Hmr).
  assert (markets (write_market_and_indexes dbr m (Some m2)) = markets (st_markets s)) as Hmks.
  { rewrite Hw1, Hmdbr, Hsm, Hmk, insert_insert_eq. by apply insert_id. }
  split; (split; cbn [with_markets st_markets st_utxos]).
  - apply write_market_ok; [|done]. unfold dbr. rewrite Hmr. by destruct Hdb'.
  - by rewrite Hw2, Hdbracc.
  - by rewrite Hu.
  - rewrite Hw3. exact Hfunds.
  - exact Hu.
  - exact Hmks.
  - by rewrite Hw3.
  - rewrite Hw4. unfold dbr. rewrite Hmr. cbn. congruence.
  - rewrite Hw2, Hdbracc. apply held_ext; [done|done|]. intros a k. by rewrite Hheldr, Hback.
Qed.

(** ** All resolved markets of a block *)

(** The markets to settle are stored under distinct ids, their payouts of this
    height are unused, and the hash keeps the payouts of two markets apart. *)
Record settleable (height : Z) (s : SettleState) (ms : list Market) : Prop := {
  se_distinct : NoDup (map m_id ms);
  se_stored : Forall (fun m => get_market (st_markets s) (m_id m) = Some m) ms;
  se_unused : Forall (fun m => payouts_unused height s (m_id m)) ms;
  se_apart : ∀ m m', m ∈ ms → m' ∈ ms → m_id m ≠ m_id m' →
    ∀ a a' q, payout_hash (m_id m) a height q ≠ payout_hash (m_id m') a' height q
}.

Lemma settleable_tail height s m ms : settleable height s (m :: ms) → settleable height s ms.
Proof.
  intros [Hd Hs Hu Ha]. simpl in Hd. apply NoDup_cons in Hd as [_ Hd].
  split; [done|by inversion Hs|by inversion Hu|]. intros. apply Ha; by try right.
Qed.

Lemma settleable_next height s m ms s1 undo :
  settle_ok s → settleable height s (m :: ms) → settled height m s s1 undo →
  settleable height s1 ms.
Proof.
  intros Hok Hse Hsd. pose proof (settleable_tail _ _ _ _ Hse) as [Hd' Hs' Hu' Ha'].
  destruct Hse as [Hd Hs Hu Ha]. simpl in Hd. apply NoDup_cons in Hd as [Hni _].
  assert (∀ m', m' ∈ ms → m_id m' ≠ m_id m) as Hne.
  { intros m' Hin He. apply Hni. rewrite <- He. by apply (list_elem_of_fmap_2 m_id). }
  rewrite Forall_forall in Hs', Hu'. apply Forall_cons in Hu as [Hum _].
  split; [done|apply Forall_forall; intros m' Hin; specialize (Hne m' Hin)..|done].
  - destruct (sd_markets _ _ _ _ _ Hsd) as (m2 & _ & Hmk). unfold get_market. rewrite Hmk.
    rewrite lookup_insert_ne by congruence. by apply Hs'.
  - eapply settled_unused; [exact Hok|exact Hum|exact Hsd| |by apply Hu'].
    apply Ha; [by right|by left|done].
Qed.

Lemma settle_markets_undone ddb vdb reps height ms s s' undos :
  settle_ok s → settleable height s ms →
  settle_markets payout_hash nd_sum ddb vdb reps height s ms = Some (Ok (s', undos)) →
  Forall (fun u => payout_count (su_payout_summary u) ≤ U32_MAX) undos →
  settle_ok s' ∧ ∀ s'', settle_ok s'' → same_tables s'' s' →
    settle_ok (revert_settlement payout_hash height s'' undos) ∧
    same_tables (revert_settlement payout_hash height s'' undos) s.
Proof.
  revert s s' undos. induction ms as [|m ms IH]; intros s s' undos Hok Hse Hs Hcount.
  { injection Hs as <- <-. by split. }
  simpl in Hs. pose proof (settleable_tail _ _ _ _ Hse) as Htail.
  case_bool_decide as Hd; [by eauto|]. clear Hd.
  destruct (gather_outcomes _ _ _ _) as [[outcomes decisions]|]; [|by eauto].
  destruct (settle_market _ _ _ _ _ _ _ _ _) as [[[s1 undo]|]|] eqn:Em; simpl in Hs; [|discriminate..].
  destruct (settle_markets _ _ _ _ _ _ _ _) as [[[s2 undos2]|]|] eqn:Es; simpl in Hs; [|discriminate..].
  injection Hs as <- <-. apply Forall_cons in Hcount as [Hc Hcount].
  pose proof (Forall_inv (se_stored _ _ _ Hse)) as Hm. pose proof (Forall_inv (se_unused _ _ _ Hse)) as Hu.
  cbn beta in Hm, Hu. pose proof (settle_market_settled _ _ _ _ _ _ _ _ _ Hok Hm Em Hc) as Hsd.
  destruct (IH s1 s2 undos2) as [Hok2 Hrev]; [by eapply settled_ok|by eapply settleable_next|done|done|].
  split; [done|]. intros s'' Hok'' Hsame. destruct (Hrev s'' Hok'' Hsame) as [Hokr Hsamer].
  unfold revert_settlement in *. cbn [rev]. rewrite foldl_app. cbn [foldl].
  by apply (settled_reverted height m s s1 undo).
Qed.

Lemma index_exact_perm {K} `{Countable K} (ms : gmap MarketId Market)
  (idx idx' : gmap K (list MarketId)) (applies : Market → K → Prop) k :
  index_exact ms idx applies → index_exact ms idx' applies → ids_at idx k ≡ₚ ids_at idx' k.
Proof.
  intros [Hs He] [Hs' He']. apply NoDup_Permutation; [by apply index_shape_NoDup..|].
  intros id. by rewrite He, He'.
Qed.

(** C6: disconnecting a settlement.  Settling every resolved market of a block
    and then reverting the settlement from its undo records gives back the
    UTXO tables, the markets, the pointers to their funds and the positions
    of every account, and the indexes list the same markets.  The payouts of
    the height must be unused and kept apart by the hash, and a market must
    have fewer than 2^32 payouts. *)
Theorem settlement_roundtrip ddb vdb reps height s s' undos :
  settle_ok s → settleable height s (get_markets_by_state (st_markets s) Trading) →
  transition_and_payout_resolved_markets payout_hash nd_sum ddb vdb reps height s
    = Some (Ok (s', undos)) →
  Forall (fun u => payout_count (su_payout_summary u) ≤ U32_MAX) undos →
  let s0 := revert_settlement payout_hash height s' undos in
  settle_ok s' ∧ settle_ok s0 ∧ same_tables s0 s ∧
  (∀ st, get_markets_by_state (st_markets s0) st ≡ₚ get_markets_by_state (st_markets s) st) ∧
  (∀ h, ids_at (expiry_index (st_markets s0)) h ≡ₚ ids_at (expiry_index (st_markets s)) h) ∧
  (∀ d, ids_at (decision_index (st_markets s0)) d ≡ₚ ids_at (decision_index (st_markets s)) d).
Proof.
  intros Hok Hse Hs Hcount s0.
  destruct (settle_markets_undone _ _ _ _ _ _ _ _ Hok Hse Hs Hcount) as [Hok' Hrev].
  destruct (Hrev s' Hok') as [Hok0 Hsame]; [done|]. fold s0 in Hok0, Hsame.
  split_and!; [done..| | |]; destruct (ss_db _ Hok0) as [_ Hst Hex Hde], (ss_db _ Hok) as [_ Hst' Hex' Hde'];
    rewrite (same_markets _ _ Hsame) in Hst, Hex, Hde; intros k; [|by eapply index_exact_perm..].
  unfold get_markets_by_state. rewrite (index_exact_perm _ _ _ _ k Hst Hst' : default [] _ ≡ₚ default [] _).
  unfold get_market. by rewrite (same_markets _ _ Hsame).
Qed.

End Market.

(** ** A settlement *)

Section Sample.

(** The market over rain and colour, both decided: it rains and the colour is
    blue.  One trader holds 30 shares of that outcome, another 12 of a losing
    one, and the treasury of 31 satoshis leaves one for the author. *)
Definition sample_hash (id : MarketId) (a : Address) (h q : Z) : bytes := replicate 32 q.
Definition settled_history : list (DecisionState * Z * option f64) :=
  [(Claimed, 1, None); (Voting, 20, None); (Resolved, 40, Some f64_one)].
Definition sample_entry (id : DecisionId) : DecisionEntry :=
  {| decision_id := id; decision := sample_decisions !! id; claiming_txid := replicate 32 8 |}.
Definition sample_ddb : Dbs :=
  {| period_decisions :=
       {[ period_index sample_binary := [sample_entry sample_binary; sample_entry sample_category] ]};
     decision_state_histories := {[ sample_binary := settled_history; sample_category := settled_history ]};
     period_pricing := ∅; period_pricing_undo := ∅; config := config_testing 10 |}.
Definition sample_outcome (id : DecisionId) (v : Z) : DecisionOutcome :=
  oracle_outcome 1 3 f64_one ∅ (id, Some (f64_of_Z v)).
Definition sample_vdb : VotingDatabases :=
  put_decision_outcome (put_decision_outcome
    {| votes := ∅; ballots := ∅; decision_outcomes := ∅; period_stats := ∅ |}
    (sample_outcome sample_binary 1)) (sample_outcome sample_category 2).

Definition sample_id : MarketId := replicate 6 5.
Definition sample_treasury : OutPoint := OpMarketFunds sample_id 0 false.
Definition sample_funds : FilledOutput :=
  {| out_address := replicate 20 0; out_content := FMarketFunds sample_id 31 false; out_memo := [] |}.
Definition sample_markets_db : MarketsDatabase :=
  add_shares_to_account
    (add_shares_to_account
       (set_market_funds_utxo (add_market empty_markets (sample_market 0)) sample_id false sample_treasury)
       (replicate 20 6) sample_id 5 30 14)
    (replicate 20 7) sample_id 0 12 15.
Definition sample_settle : SettleState :=
  {| st_markets := sample_markets_db;
     st_utxos := insert_utxo {| utxos := ∅; utxos_by_address := ∅; stxos := ∅ |} sample_treasury sample_funds |}.

Definition sample_run : option (result Error (SettleState * list SettlementUndoEntry)) :=
  transition_and_payout_resolved_markets sample_hash f64_sum sample_ddb sample_vdb ∅ 50 sample_settle.

Lemma sample_run_pays :
  match sample_run with
  | Some (Ok (s', undos)) =>
      map (fun u => (map sp_payout_sats (mp_payouts (su_payout_summary u)),
                     mp_creator_refund (su_payout_summary u))) undos
      = [([30; 0], Some (replicate 20 3, 1))] ∧
      map (fun u => payout_count (su_payout_summary u)) undos = [2]
  | _ => False
  end.
Proof. vm_compute. split; reflexivity. Qed.

Lemma sample_accounts_ok : accounts_ok (share_accounts sample_markets_db).
Proof.
  unfold sample_markets_db. set (db := set_market_funds_utxo _ _ _ _).
  assert (accounts_ok (share_accounts db)) as Hdb by apply map_Forall_empty.
  destruct (add_to_account db (replicate 20 6) sample_id 5 30 14 Hdb) as (x & -> & Hx & Hheld);
    [lia|vm_compute; discriminate|].
  destruct (add_to_account (set_share_accounts db x) (replicate 20 7) sample_id 0 12 15 Hx)
    as (y & -> & Hy & _); [lia| |exact Hy].
  cbn [share_accounts set_share_accounts]. rewrite Hheld. vm_compute. discriminate.
Qed.

Lemma sample_settle_ok : settle_ok sample_settle.
Proof.
  split.
  - change (db_ok sample_markets_db). unfold sample_markets_db.
    eapply db_step_ok; [|apply db_buy]. eapply db_step_ok; [|apply db_buy].
    eapply db_step_ok; [|apply db_fund]. eapply db_step_ok; [apply empty_markets_ok|].
    apply db_add. apply lookup_empty.
  - apply sample_accounts_ok.
  - apply insert_index_ok; [|by split|done]. intros a op. simpl. split; [done|].
    intros (_ & o & Ho & _). by rewrite lookup_empty in Ho.
  - assert (market_funds_utxos (st_markets sample_settle) = {[ (sample_id, false) := sample_treasury ]})
      as -> by (vm_compute; reflexivity).
    intros k op [_ <-]%lookup_singleton_Some. by split.
Qed.

Lemma sample_settleable :
  settleable sample_hash 50 sample_settle (get_markets_by_state (st_markets sample_settle) Trading).
Proof.
  change (st_markets sample_settle) with sample_markets_db.
  assert (get_markets_by_state sample_markets_db Trading = [sample_market 0]) as ->
    by (vm_compute; reflexivity).
  split.
  - apply NoDup_singleton.
  - apply Forall_singleton. vm_compute. reflexivity.
  - apply Forall_singleton. intros a q Hq. cbn. rewrite lookup_insert_ne; [apply lookup_empty|].
    intros He. apply from_outpoint_inj in He; [discriminate|by split|by split].
  - intros m m' ->%list_elem_of_singleton ->%list_elem_of_singleton. done.
Qed.

Lemma settlement_roundtrip_witness :
  ∃ s' undos, sample_run = Some (Ok (s', undos)) ∧ length undos = 1%nat ∧
    same_tables (revert_settlement sample_hash 50 s' undos) sample_settle.
Proof.
  pose proof sample_run_pays as Hpays. destruct sample_run as [[[s' undos]|]|] eqn:E; [|destruct Hpays..].
  exists s', undos. split; [reflexivity|]. unfold sample_run in E.
  destruct Hpays as [_ Hc].
  assert (length undos = 1%nat) as Hl by (apply (f_equal length) in Hc; by rewrite length_map in Hc).
  split; [exact Hl|].
  destruct (settlement_roundtrip sample_hash f64_sum (fun _ _ _ q => length_replicate 32 q) sample_ddb
    sample_vdb ∅ 50 sample_settle s' undos sample_settle_ok sample_settleable E) as (_ & _ & H & _);
    [|exact H].
  apply (Forall_map (fun u => payout_count (su_payout_summary u)) (fun n => n ≤ U32_MAX)).
  rewrite Hc. repeat constructor. lia.
Defined.

End Sample.
