(* ===== verification/TxPow.v ===== *)
(** * Proof of work of trades

    Model of src/lib/types/tx_pow.rs: the configuration of a market's proof of
    work, the chain of hash functions it selects and orders, the encoding of a
    trade that is hashed, and the search for a nonce.  The hash functions come
    from external crates and are a parameter. *)

From stdpp Require Import base numbers list strings.
From S2P Require Import Prelude Float64 StateErrors.

(** ** Model *)

Record TxPowConfig : Type := { tp_hash_selector : Z; tp_ordering : Z; tp_difficulty : Z }.

Inductive HashFunction : Type :=
| Sha256 | Sha512 | Sha3_256 | Sha3_512 | Sha512_256 | Sha384 | Blake3 | Shake256.
#[export] Instance HashFunction_eq_dec : EqDecision HashFunction.
Proof. solve_decision. Defined.

Definition ALL_HASH_FUNCTIONS : list HashFunction :=
  [Sha256; Sha512; Sha3_256; Sha3_512; Sha512_256; Sha384; Blake3; Shake256].

Definition MAX_POW_DIFFICULTY : Z := 32.
Definition POW_BOUND_WINDOW_BLOCKS : Z := 10.

(** The first 32 bytes of each function's digest. *)
Class PowHashes : Type := { pow_hash : HashFunction → bytes → bytes }.

Definition is_enabled (c : TxPowConfig) : bool := 0 <? tp_difficulty c.

Definition selected_functions (c : TxPowConfig) : list HashFunction :=
  map snd (filter (fun e : Z * HashFunction => Z.land (tp_hash_selector c) (Z.shiftl 1 e.1) ≠ 0)
             (enumerate 0 ALL_HASH_FUNCTIONS)).

(** [(1..=n).product()]; at most 8 functions are selected. *)
Definition factorial (n : nat) : nat := foldl Nat.mul 1%nat (seq 1 n).

(** The loop over [(1..=n).rev()]; [None] is the panic of [remove] past the end. *)
Fixpoint lehmer_loop {T} (i : nat) (available : list T) (index : nat) : option (list T) :=
  match i with
  | O => Some []
  | S k =>
      let chosen := (index / factorial k)%nat in
      x ← available !! chosen;
      rest ← lehmer_loop k (delete chosen available) (index mod factorial k)%nat;
      Some (x :: rest)
  end.
Definition apply_lehmer_permutation {T} (items : list T) (index : nat) : option (list T) :=
  lehmer_loop (length items) items index.

Definition ordered_functions (c : TxPowConfig) : option (list HashFunction) :=
  let selected := selected_functions c in
  let n := length selected in
  if (n <=? 1)%nat then Some selected else
  apply_lehmer_permutation selected (Z.to_nat (tp_ordering c) mod factorial n)%nat.

(** Leading zeros of a byte that is not zero. *)
Definition leading_zeros_u8 (b : Z) : Z := 7 - Z.log2 b.
Fixpoint count_leading_zero_bits (data : bytes) : Z :=
  match data with
  | [] => 0
  | b :: data => if b =? 0 then 8 + count_leading_zero_bits data else leading_zeros_u8 b
  end.

Section Verify.
Context {PH : PowHashes}.

Definition compute_hash (c : TxPowConfig) (data : bytes) : option bytes :=
  functions ← ordered_functions c;
  match functions with
  | [] => Some (replicate 32 0)
  | f :: functions => Some (foldl (fun current g => pow_hash g current) (pow_hash f data) functions)
  end.

(** The little-endian bytes of a machine integer. *)
Fixpoint le_bytes_n (n : nat) (z : Z) : bytes :=
  match n with O => [] | S n => z mod 256 :: le_bytes_n n (z / 256) end.

Definition pow_verify (c : TxPowConfig) (data : bytes) (nonce : Z) : option bool :=
  if negb (is_enabled c) then Some true else
  hash ← compute_hash c (data ++ le_bytes_n 8 nonce);
  Some (tp_difficulty c <=? count_leading_zero_bits hash).

(** [find] over the nonces from [nonce] on, at most [fuel] of them. *)
Fixpoint mine_loop (fuel : nat) (c : TxPowConfig) (data : bytes) (nonce : Z) : option Z :=
  match fuel with
  | O => None
  | S fuel =>
      b ← pow_verify c data nonce;
      if b : bool then Some nonce else mine_loop fuel c data (nonce + 1)
  end.
Definition mine (fuel : nat) (c : TxPowConfig) (data : bytes) : option Z :=
  if negb (is_enabled c) then Some 0 else mine_loop fuel c data 0.

End Verify.

Definition pow_config_validate (c : TxPowConfig) : bool :=
  if tp_difficulty c =? 0 then true
  else if MAX_POW_DIFFICULTY <? tp_difficulty c then false
  else negb (tp_hash_selector c =? 0).

(** Borsh: fixed arrays as they are, integers little-endian. *)
Definition serialize_trade_for_pow (market_id : MarketId) (outcome_index shares : Z)
  (trader : Address) (limit_sats : Z) (prev_block_hash : bytes) : bytes :=
  market_id ++ le_bytes_n 4 outcome_index ++ le_bytes_n 8 (shares mod 2 ^ 64) ++ trader
  ++ le_bytes_n 8 limit_sats ++ prev_block_hash.

(** ** The order of the functions *)

Lemma factorial_S n : factorial (S n) = (factorial n * S n)%nat.
Proof. unfold factorial. rewrite seq_S, foldl_snoc. done. Qed.

Lemma factorial_pos n : (0 < factorial n)%nat.
Proof. induction n as [|n IH]; [vm_compute; lia|]. rewrite factorial_S. lia. Qed.

Section Lehmer.
Context {T : Type}.
Implicit Types (l : list T).

Lemma lehmer_loop_perm (i : nat) l index :
  length l = i → (index < factorial i)%nat → ∃ r, lehmer_loop i l index = Some r ∧ r ≡ₚ l.
Proof.
  revert l index. induction i as [|k IH]; intros l index Hl Hi; cbn [lehmer_loop].
  { destruct l; [|discriminate]. by exists []. }
  rewrite factorial_S in Hi. pose proof (factorial_pos k).
  assert (index / factorial k < S k)%nat as Hc by (apply Nat.Div0.div_lt_upper_bound; lia).
  destruct (lookup_lt_is_Some_2 l (index / factorial k)) as [x Hx]; [lia|]. rewrite Hx. simpl.
  destruct (IH (delete (index / factorial k)%nat l) (index mod factorial k)%nat) as (r & Hr & Hp).
  { rewrite length_delete by eauto. lia. }
  { apply Nat.mod_upper_bound. lia. }
  rewrite Hr. simpl. exists (x :: r). split; [done|]. rewrite Hp. symmetry. by apply delete_Permutation.
Qed.

(** Different indices give different orders of distinct items. *)
Lemma lehmer_loop_inj (i : nat) l index index' r :
  NoDup l → length l = i → (index < factorial i)%nat → (index' < factorial i)%nat →
  lehmer_loop i l index = Some r → lehmer_loop i l index' = Some r → index = index'.
Proof.
  revert l index index' r. induction i as [|k IH]; intros l index index' r Hnd Hl Hi Hi' H H'.
  { unfold factorial in *. simpl in *. lia. }
  rewrite factorial_S in Hi, Hi'. pose proof (factorial_pos k). cbn [lehmer_loop] in H, H'.
  destruct (l !! (index / factorial k)%nat) as [x|] eqn:Ex; [|discriminate].
  destruct (l !! (index' / factorial k)%nat) as [x'|] eqn:Ex'; [|discriminate]. simpl in H, H'.
  destruct (lehmer_loop k (delete (index / factorial k)%nat l) _) as [r1|] eqn:E1; [|discriminate].
  destruct (lehmer_loop k (delete (index' / factorial k)%nat l) _) as [r2|] eqn:E2; [|discriminate].
  simpl in H, H'. injection H as <-. injection H' as -> ->.
  assert (index / factorial k = index' / factorial k)%nat as Ed by (by eapply NoDup_lookup).
  rewrite <- Ed in E2. assert (index mod factorial k = index' mod factorial k)%nat as Em; [eapply IH; [..|exact E1|exact E2]|].
  - eapply sublist_NoDup; [exact Hnd|apply sublist_delete].
  - rewrite length_delete by eauto. lia.
  - apply Nat.mod_upper_bound. lia.
  - apply Nat.mod_upper_bound. lia.
  - rewrite (Nat.div_mod_eq index (factorial k)), (Nat.div_mod_eq index' (factorial k)). congruence.
Qed.

End Lehmer.

Lemma selected_NoDup c : NoDup (selected_functions c).
Proof.
  unfold selected_functions. eapply sublist_NoDup; [|apply fmap_sublist, sublist_filter].
  apply (bool_decide_unpack (NoDup _)). vm_compute. done.
Qed.

(** The order of a market's hash functions.  The selected functions are
    chained in some order, each once and never with a panic, and two ordering
    numbers below the number of orders give the same chain only when they are
    equal. *)
Theorem ordered_functions_spec c :
  (∃ l, ordered_functions c = Some l ∧ l ≡ₚ selected_functions c) ∧
  ∀ o o', 0 ≤ o → 0 ≤ o' →
    let n := Z.of_nat (factorial (length (selected_functions c))) in o < n → o' < n →
    ordered_functions {| tp_hash_selector := tp_hash_selector c; tp_ordering := o; tp_difficulty := tp_difficulty c |}
    = ordered_functions {| tp_hash_selector := tp_hash_selector c; tp_ordering := o'; tp_difficulty := tp_difficulty c |}
    → o = o'.
Proof.
  pose proof (factorial_pos (length (selected_functions c))) as Hpos.
  split.
  - unfold ordered_functions. destruct (length (selected_functions c) <=? 1)%nat; [by eexists|].
    apply lehmer_loop_perm; [done|]. apply Nat.mod_upper_bound. lia.
  - intros o o' Ho Ho' n Hn Hn' H. unfold ordered_functions in H.
    change (selected_functions {| tp_hash_selector := _; tp_ordering := o; tp_difficulty := _ |}) with (selected_functions c) in H.
    change (selected_functions {| tp_hash_selector := _; tp_ordering := o'; tp_difficulty := _ |}) with (selected_functions c) in H.
    cbn [tp_ordering] in H. destruct (length (selected_functions c) <=? 1)%nat eqn:E.
    { apply Nat.leb_le in E. subst n. destruct (length (selected_functions c)) as [|[|]]; [..|lia];
        unfold factorial in *; simpl in *; lia. }
    subst n. rewrite !Nat.mod_small in H by lia.
    destruct (lehmer_loop_perm (length (selected_functions c)) (selected_functions c) (Z.to_nat o)) as (r & Hr & _); [done|lia|].
    unfold apply_lehmer_permutation in H.
    assert (Z.to_nat o = Z.to_nat o'); [|lia].
    eapply (lehmer_loop_inj _ (selected_functions c)); [apply selected_NoDup|done|lia|lia|exact Hr|congruence].
Qed.

(** ** The difficulty *)

(** A hash as a big-endian number. *)
Definition be_value (l : bytes) : Z := foldl (fun acc b => acc * 256 + b) 0 l.

Lemma be_value_acc l acc :
  foldl (fun acc b => acc * 256 + b) acc l = acc * 256 ^ Z.of_nat (length l) + be_value l.
Proof.
  unfold be_value. revert acc. induction l as [|b l IH]; intros acc; cbn [foldl length]; [simpl; lia|].
  rewrite IH, (IH (0 * 256 + b)), Nat2Z.inj_succ, Z.pow_succ_r by lia. lia.
Qed.

Lemma be_value_cons b l : be_value (b :: l) = b * 256 ^ Z.of_nat (length l) + be_value l.
Proof. unfold be_value at 1. cbn [foldl]. rewrite be_value_acc. lia. Qed.

Definition is_bytes (l : bytes) : Prop := Forall (fun b => 0 ≤ b < 256) l.

Lemma be_value_range l : is_bytes l → 0 ≤ be_value l < 256 ^ Z.of_nat (length l).
Proof.
  induction 1 as [|b l Hb _ IH]; [unfold be_value; simpl; lia|].
  rewrite be_value_cons. cbn [length]. rewrite Nat2Z.inj_succ, Z.pow_succ_r by lia. nia.
Qed.

Lemma count_leading_range l : is_bytes l → 0 ≤ count_leading_zero_bits l ≤ 8 * Z.of_nat (length l).
Proof.
  induction 1 as [|b l Hb _ IH]; [simpl; lia|]. cbn [count_leading_zero_bits length]. rewrite Nat2Z.inj_succ.
  destruct (Z.eqb_spec b 0); [lia|]. unfold leading_zeros_u8. pose proof (Z.log2_nonneg b).
  assert (Z.log2 b < 8) by (apply Z.log2_lt_pow2; simpl; lia). lia.
Qed.

Lemma leading_zeros_spec l k :
  is_bytes l → 0 ≤ k ≤ 8 * Z.of_nat (length l) →
  k ≤ count_leading_zero_bits l ↔ be_value l < 2 ^ (8 * Z.of_nat (length l) - k).
Proof.
  intros Hl. revert k. induction Hl as [|b l Hb Hl IH]; intros k Hk.
  { simpl in *. assert (k = 0) as -> by lia. unfold be_value. simpl. lia. }
  cbn [count_leading_zero_bits length] in *. rewrite be_value_cons. rewrite Nat2Z.inj_succ in *.
  pose proof (be_value_range l Hl) as Hr. set (n := Z.of_nat (length l)) in *.
  replace 256 with (2 ^ 8) in Hr |- * by done. rewrite <- Z.pow_mul_r in Hr |- * by lia.
  destruct (Z.eqb_spec b 0) as [->|Hne].
  - rewrite Z.mul_0_l, Z.add_0_l. destruct (Z.le_gt_cases k 8).
    + split; [|pose proof (count_leading_range l Hl); lia]. intros _.
      eapply Z.lt_le_trans; [apply Hr|]. apply Z.pow_le_mono_r; lia.
    + replace (8 * Z.succ n - k) with (8 * n - (k - 8)) by lia. rewrite <- IH by lia. lia.
  - unfold leading_zeros_u8. destruct (Z.log2_spec b ltac:(lia)) as [Hlo Hhi].
    assert (0 ≤ Z.log2 b < 8) as Hlog by (split; [apply Z.log2_nonneg|apply Z.log2_lt_pow2; simpl; lia]).
    rewrite Z.pow_succ_r in Hhi by lia. split.
    + intros Hle. apply Z.lt_le_trans with (2 ^ (Z.log2 b + 1) * 2 ^ (8 * n)).
      { rewrite Z.pow_add_r by lia. nia. }
      rewrite <- Z.pow_add_r by lia. apply Z.pow_le_mono_r; lia.
    + intros Hlt. apply Z.lt_succ_r. destruct (Z.le_gt_cases k (7 - Z.log2 b)) as [|Hgt]; [lia|]. exfalso.
      assert (2 ^ (8 * Z.succ n - k) ≤ 2 ^ (Z.log2 b) * 2 ^ (8 * n)) as Hle.
      { rewrite <- Z.pow_add_r by lia. apply Z.pow_le_mono_r; lia. }
      nia.
Qed.

Section MineFacts.
Context {PH : PowHashes}.

Lemma mine_loop_spec (fuel : nat) c data nonce n :
  mine_loop fuel c data nonce = Some n →
  nonce ≤ n ∧ pow_verify c data n = Some true ∧
  ∀ m, nonce ≤ m < n → pow_verify c data m = Some false.
Proof.
  revert nonce. induction fuel as [|fuel IH]; intros nonce H; simpl in H; [discriminate|].
  destruct (pow_verify c data nonce) as [b|] eqn:E; [|discriminate]. simpl in H. destruct b.
  - injection H as <-. split_and!; [lia|done|]. intros m Hm. lia.
  - destruct (IH _ H) as (H1 & H2 & H3). split_and!; [lia|done|]. intros m Hm.
    destruct (decide (m = nonce)) as [->|]; [done|]. apply H3. lia.
Qed.

(** Mining returns the least nonce that verifies; a nonce verifies exactly
    when the chained hash of the trade and the nonce, read as a 256-bit number,
    is below [2^(256 - difficulty)]. *)
Theorem mine_least_nonce (fuel : nat) c data n :
  is_enabled c = true → tp_difficulty c ≤ MAX_POW_DIFFICULTY →
  (∀ x h, compute_hash c x = Some h → length h = 32%nat ∧ is_bytes h) →
  mine fuel c data = Some n →
  let below m := ∃ h, compute_hash c (data ++ le_bytes_n 8 m) = Some h ∧
                      be_value h < 2 ^ (256 - tp_difficulty c) in
  0 ≤ n ∧ below n ∧ ∀ m, 0 ≤ m < n → ¬ below m.
Proof.
  intros He Hd Hh H below. unfold mine in H. rewrite He in H. simpl in H.
  assert (0 < tp_difficulty c) as Hpos by (unfold is_enabled in He; lia). unfold MAX_POW_DIFFICULTY in Hd.
  assert (∀ m b, pow_verify c data m = Some b → b = true ↔ below m) as Hb.
  { intros m b Hv. unfold pow_verify in Hv. rewrite He in Hv. cbn [negb] in Hv. unfold below.
    destruct (compute_hash c (data ++ le_bytes_n 8 m)) as [h|] eqn:E; [|discriminate].
    cbn [mbind option_bind] in Hv. injection Hv as <-. destruct (Hh _ _ E) as [Hl Hby]. rewrite Z.leb_le, (leading_zeros_spec h) by (done || rewrite Hl; lia).
    rewrite Hl. split; [eauto|by intros (? & [= <-] & ?)]. }
  destruct (mine_loop_spec _ _ _ _ _ H) as (H1 & H2 & H3). split_and!; [done|by apply (Hb n true)|].
  intros m Hm Hbelow. pose proof (H3 m Hm) as Hf. apply Hb in Hf. naive_solver.
Qed.

End MineFacts.

(** ** The encoded trade *)

Lemma le_bytes_n_length n z : length (le_bytes_n n z) = n.
Proof. revert z. induction n as [|n IH]; intros z; simpl; [done|]. by rewrite IH. Qed.

Lemma le_bytes_n_inj n a b :
  0 ≤ a < 256 ^ Z.of_nat n → 0 ≤ b < 256 ^ Z.of_nat n → le_bytes_n n a = le_bytes_n n b → a = b.
Proof.
  revert a b. induction n as [|n IH]; intros a b Ha Hb H; [simpl in *; lia|].
  rewrite Nat2Z.inj_succ, Z.pow_succ_r in Ha, Hb by lia. injection H as H0 H1.
  apply IH in H1; [|split; [apply Z.div_pos; lia|apply Z.div_lt_upper_bound; lia]..].
  rewrite (Z.div_mod a 256), (Z.div_mod b 256) by lia. congruence.
Qed.

(** The bytes hashed for a trade determine the trade: market, outcome,
    shares, trader, limit and the block it refers to. *)
Theorem trade_pow_binds id id' o o' s s' t t' l l' h h' :
  length id = 6%nat → length id' = 6%nat → length t = 20%nat → length t' = 20%nat →
  is_u32 o → is_u32 o' → is_i64 s → is_i64 s' → is_u64 l → is_u64 l' →
  serialize_trade_for_pow id o s t l h = serialize_trade_for_pow id' o' s' t' l' h' →
  id = id' ∧ o = o' ∧ s = s' ∧ t = t' ∧ l = l' ∧ h = h'.
Proof.
  unfold serialize_trade_for_pow, is_u32, is_u64, is_i64. intros Hi Hi' Ht Ht' Ho Ho' Hs Hs' Hl Hl' H.
  apply app_inj_1 in H as [-> H]; [|congruence].
  apply app_inj_1 in H as [H1 H]; [|by rewrite !le_bytes_n_length].
  apply app_inj_1 in H as [H2 H]; [|by rewrite !le_bytes_n_length].
  apply app_inj_1 in H as [-> H]; [|congruence].
  apply app_inj_1 in H as [H3 ->]; [|by rewrite !le_bytes_n_length].
  apply le_bytes_n_inj in H1; [|lia..]. apply le_bytes_n_inj in H3; [|lia..].
  apply le_bytes_n_inj in H2; [|apply Z.mod_pos_bound; lia..].
  split_and!; try done. apply (f_equal (fun x => wrap_signed 64 x)) in H2. unfold wrap_signed in H2.
  rewrite !Zplus_mod_idemp_l in H2. change (wrap_signed 64 s = wrap_signed 64 s') in H2.
  rewrite !wrap_signed_small in H2; lia.
Qed.

(** ** A concrete configuration *)

Definition toy_config : TxPowConfig := {| tp_hash_selector := 69; tp_ordering := 3; tp_difficulty := 9 |}.

Example toy_order : ordered_functions toy_config = Some [Sha3_256; Blake3; Sha256].
Proof. vm_compute. reflexivity. Qed.

Lemma ordered_functions_spec_witness :
  ∃ l, ordered_functions toy_config = Some l ∧ l ≡ₚ selected_functions toy_config.
Proof. apply (ordered_functions_spec toy_config). Defined.

(** A toy hash: zero from the third nonce on. *)
#[local] Instance toy_pow : PowHashes := {|
  pow_hash _ d := replicate 32 (if sumZ d <? 3 then 255 else 0)
|}.
Definition toy_single : TxPowConfig := {| tp_hash_selector := 1; tp_ordering := 0; tp_difficulty := 9 |}.

Lemma mine_least_nonce_witness :
  let below m := ∃ h, compute_hash toy_single ([] ++ le_bytes_n 8 m) = Some h ∧
                      be_value h < 2 ^ (256 - tp_difficulty toy_single) in
  0 ≤ 3 ∧ below 3 ∧ ∀ m, 0 ≤ m < 3 → ¬ below m.
Proof.
  apply (mine_least_nonce 10 toy_single [] 3).
  - reflexivity.
  - vm_compute. discriminate.
  - intros x h H. change (Some (replicate 32 (if sumZ x <? 3 then 255 else 0)) = Some h) in H.
    assert (h = replicate 32 (if sumZ x <? 3 then 255 else 0)) as -> by congruence. clear H.
    split; [by rewrite length_replicate|]. apply Forall_replicate. destruct (sumZ x <? 3); lia.
  - vm_compute. reflexivity.
Defined.

Lemma trade_pow_binds_witness :
  let id := replicate 6 1 in let t := replicate 20 2 in let h := replicate 32 3 in
  id = id ∧ 1 = 1 ∧ -5 = -5 ∧ t = t ∧ 100 = 100 ∧ h = h.
Proof.
  intros id t h.
  apply (trade_pow_binds id id 1 1 (-5) (-5) t t 100 100 h h); try reflexivity; vm_compute; split; discriminate.
Defined.
