(* ===== verification/Authorization.v ===== *)
(** * Signatures of transactions

    Model of src/lib/authorization.rs: the message a transaction is signed as,
    the batch verifier, the verification of transactions and bodies and the
    authorization of a transaction by a list of keys.  The curve, the hash and
    the serialization come from external crates and are the parameter
    [SignatureScheme]. *)

From stdpp Require Import base numbers list strings gmap.
From S2P Require Import Prelude Float64 StateErrors Transactions Bodies TxPow.

(** [sig_sign] takes the number of the draw from the generator, which is passed
    by reference and advances with every signature. *)
Class SignatureScheme : Type := {
  vk_of_sk : bytes → bytes;
  address_hash : bytes → Address;
  seed_hash : bytes → bytes → bytes;
  sig_sign : nat → bytes → bytes → bytes;
  sig_verify : bytes → bytes → bytes → bool;
  batch_item_new : bytes → bytes → bytes → bool;
  batch_verify : bytes → list (bytes * bytes * bytes) → bool;
  borsh_transaction : Transaction → bytes
}.

Inductive AuthError : Type :=
| SignatureVerification
| WrongKeyForAddress (address hash_verifying_key : Address)
| SignatureCountMismatch (expected actual : Z).

(** Domain separation tags: [Dst::Transaction] is 0, [Dst::Arbitrary] is 255. *)
Inductive Dst : Type := DstTransaction | DstArbitrary.
Definition dst_byte (d : Dst) : Z := match d with DstTransaction => 0 | DstArbitrary => 255 end.

(** The items queued, with what the seed of the generator is hashed from. *)
Record BatchVerifier : Type := {
  bv_key : bytes;
  bv_hasher : bytes;
  bv_inner : list (bytes * bytes * bytes);
  bv_items : Z
}.

Definition CHUNK_SIZE : nat := Z.to_nat (Z.shiftl 1 14).

(** [slice::chunks]: pieces of [S n] elements, the last one possibly shorter. *)
Fixpoint chunks_go {A} (n : nat) (current : list A) (room : nat) (l : list A) : list (list A) :=
  match l with
  | [] => match current with [] => [] | _ => [rev current] end
  | a :: l =>
      match room with
      | O => rev current :: chunks_go n [a] n l
      | S room => chunks_go n (a :: current) room l
      end
  end.
Definition chunks {A} (size : nat) (l : list A) : list (list A) := chunks_go (pred size) [] size l.

Section Authorization.
Context {SS : SignatureScheme}.

Definition verifier (mac_key : bytes) : BatchVerifier :=
  {| bv_key := mac_key; bv_hasher := []; bv_inner := []; bv_items := 0 |}.

Definition queue_item (v : BatchVerifier) (vk sig msg : bytes) : result AuthError BatchVerifier :=
  if batch_item_new vk sig msg
  then Ok {| bv_key := bv_key v; bv_hasher := bv_hasher v ++ vk ++ sig ++ msg;
             bv_inner := bv_inner v ++ [(vk, sig, msg)]; bv_items := as_u64 (bv_items v + 1) |}
  else Err SignatureVerification.

Definition batch_seed (v : BatchVerifier) : bytes :=
  seed_hash (bv_key v) (bv_hasher v ++ le_bytes_n 8 (bv_items v)).

Definition verifier_verify (v : BatchVerifier) : result AuthError unit :=
  bail_if (negb (batch_verify (batch_seed v) (bv_inner v))) SignatureVerification.

Definition get_address (vk : bytes) : Address := address_hash vk.

(** [GetAddress for Authorization]. *)
Definition auth_address (a : Authorization) : Address := get_address (verifying_key a).

Definition tx_msg_canonical (tx : Transaction) : bytes := dst_byte DstTransaction :: borsh_transaction tx.

Definition verify_actor_proof (t : AuthorizedTransaction) : result AuthError unit :=
  match at_actor_proof t with
  | None => Ok tt
  | Some proof =>
      bail_if (negb (sig_verify (verifying_key proof) (tx_msg_canonical (at_transaction t)) (signature proof)))
        SignatureVerification
  end.

(** Queue pairs of an authorization and its message, then verify them. *)
Definition queue_pair (v : BatchVerifier) (e : Authorization * bytes) : result AuthError BatchVerifier :=
  queue_item v (verifying_key e.1) (signature e.1) e.2.
Definition verify_chunk (mac_key : bytes) (pairs : list (Authorization * bytes)) : result AuthError unit :=
  v ← try_fold queue_pair (verifier mac_key) pairs;
  verifier_verify v.

Definition verify_authorized_transaction (mac_key : bytes) (t : AuthorizedTransaction) : result AuthError unit :=
  let inputs := Z.of_nat (length (tx_inputs (at_transaction t))) in
  let auths := Z.of_nat (length (at_authorizations t)) in
  _ ← bail_if (negb (auths =? inputs)) (SignatureCountMismatch inputs auths);
  if bool_decide (at_authorizations t = []) then Ok tt else
  let msg := tx_msg_canonical (at_transaction t) in
  verify_chunk mac_key (map (fun a => (a, msg)) (at_authorizations t)).

(** The message of each input, transaction by transaction. *)
Definition input_messages (txs : list Transaction) : list bytes :=
  flat_map (fun tx => replicate (length (tx_inputs tx)) (tx_msg_canonical tx)) txs.

Definition verify_authorizations (mac_key : bytes) (b : Body) : result AuthError unit :=
  let total := sumZ (map (fun tx => Z.of_nat (length (tx_inputs tx))) (transactions b)) in
  let auths := Z.of_nat (length (authorizations b)) in
  _ ← bail_if (negb (auths =? total)) (SignatureCountMismatch total auths);
  if total =? 0 then Ok tt else
  try_fold (fun _ => verify_chunk mac_key) tt
    (chunks CHUNK_SIZE (zip (authorizations b) (input_messages (transactions b)))).

Definition verify_transaction_auth (mac_key : bytes) (t : AuthorizedTransaction) : result AuthError unit :=
  _ ← verify_authorized_transaction mac_key t;
  verify_actor_proof t.

Definition verify_body_auth (mac_key : bytes) (b : Body) : result AuthError unit :=
  _ ← verify_authorizations mac_key b;
  ts ← map_err (fun _ => SignatureCountMismatch 0 0) (authorized_transactions b);
  try_fold (fun _ => verify_actor_proof) tt ts.

(** ** Signing *)

Definition sign (draw : nat) (sk : bytes) (dst : Dst) (msg : bytes) : bytes :=
  sig_sign draw sk (dst_byte dst :: msg).
Definition verify_msg (sig vk : bytes) (dst : Dst) (msg : bytes) : bool :=
  sig_verify vk (dst_byte dst :: msg) sig.
Definition sign_tx (draw : nat) (sk : bytes) (tx : Transaction) : bytes :=
  sign draw sk DstTransaction (borsh_transaction tx).

Definition authorize_input (tx : Transaction) (acc : nat * list Authorization) (e : Address * bytes)
  : result AuthError (nat * list Authorization) :=
  let '(draw, auths) := acc in
  let '(address, sk) := e in
  let vk := vk_of_sk sk in
  let hash_vk := get_address vk in
  if negb (bool_decide (address = hash_vk)) then Err (WrongKeyForAddress address hash_vk) else
  Ok (S draw, auths ++ [{| verifying_key := vk;
                           signature := sign draw sk DstTransaction (borsh_transaction tx) |}]).

Definition authorize (draw : nat) (keys : list (Address * bytes)) (tx : Transaction)
  : result AuthError AuthorizedTransaction :=
  '(_, auths) ← try_fold (authorize_input tx) (draw, []) keys;
  Ok {| at_transaction := tx; at_authorizations := auths; at_actor_proof := None |}.

End Authorization.

(** ** Facts *)

Lemma chunks_go_concat {A} n (current : list A) room l :
  concat (chunks_go n current room l) = rev current ++ l.
Proof.
  revert current room. induction l as [|a l IH]; intros current room; simpl.
  - destruct current; simpl; [done|]. by rewrite app_nil_r.
  - destruct room as [|room]; simpl; rewrite IH; simpl; [done|]. by rewrite <- app_assoc.
Qed.

Lemma chunks_go_nonempty {A} n (current : list A) room l c :
  (room = 0%nat → current ≠ []) → c ∈ chunks_go n current room l → c ≠ [].
Proof.
  revert current room. induction l as [|a l IH]; intros current room Hr; simpl.
  - destruct current as [|x current]; [set_solver|]. intros ->%list_elem_of_singleton. simpl.
    intros H%app_eq_nil. naive_solver.
  - destruct room as [|room].
    + intros [->|Hc]%elem_of_cons; [|by apply (IH [a] n)].
      specialize (Hr eq_refl). destruct current as [|x current]; [done|]. simpl. intros H%app_eq_nil. naive_solver.
    + by apply IH.
Qed.

(** The pieces of a list join to it, and none is empty. *)
Lemma chunks_spec {A} size (l : list A) : (0 < size)%nat →
  concat (chunks size l) = l ∧ Forall (fun c => c ≠ []) (chunks size l).
Proof.
  intros Hs. unfold chunks. split; [apply chunks_go_concat|]. apply Forall_forall. intros c.
  apply chunks_go_nonempty. lia.
Qed.

Lemma forallb_map {A B} (f : A → B) (g : B → bool) l : forallb g (map f l) = forallb (fun a => g (f a)) l.
Proof. induction l as [|a l IH]; simpl; [done|]. by rewrite IH. Qed.

Lemma and_iff_compat_l' (P Q R : Prop) : (P → (Q ↔ R)) → (P ∧ Q ↔ P ∧ R).
Proof. tauto. Qed.

Section Facts.
Context {SS : SignatureScheme}.

(** What the crates document: a non-empty batch is accepted when each of its
    signatures is valid, a valid signature can be queued, and a signature made
    with a key is valid under its verifying key. *)
Hypothesis batch_verify_all : ∀ seed l, l ≠ [] →
  batch_verify seed l = forallb (fun e => sig_verify e.1.1 e.2 e.1.2) l.
Hypothesis batch_item_valid : ∀ vk sig msg, sig_verify vk msg sig = true → batch_item_new vk sig msg = true.
Hypothesis sign_valid : ∀ draw sk msg, sig_verify (vk_of_sk sk) msg (sig_sign draw sk msg) = true.

Definition pair_valid (e : Authorization * bytes) : bool := sig_verify (verifying_key e.1) e.2 (signature e.1).

Lemma queue_pairs v pairs :
  match try_fold queue_pair v pairs with
  | Ok v' => bv_inner v' = bv_inner v ++ map (fun e => (verifying_key e.1, signature e.1, e.2)) pairs
  | Err e => e = SignatureVerification ∧ forallb pair_valid pairs = false
  end.
Proof.
  revert v. induction pairs as [|e pairs IH]; intros v; simpl; [by rewrite app_nil_r|].
  unfold queue_pair at 1, queue_item. destruct (batch_item_new _ _ _) eqn:Ei.
  - specialize (IH {| bv_key := bv_key v;
      bv_hasher := bv_hasher v ++ verifying_key e.1 ++ signature e.1 ++ e.2;
      bv_inner := bv_inner v ++ [(verifying_key e.1, signature e.1, e.2)];
      bv_items := as_u64 (bv_items v + 1) |}).
    destruct (try_fold queue_pair _ pairs); simpl in IH |- *.
    + by rewrite IH, <- app_assoc.
    + destruct IH as [-> ->]. by rewrite andb_false_r.
  - split; [done|]. unfold pair_valid at 1. destruct (sig_verify _ _ _) eqn:Ev; [|done].
    apply batch_item_valid in Ev. congruence.
Qed.

Lemma verify_chunk_spec mac_key pairs : pairs ≠ [] →
  verify_chunk mac_key pairs = if forallb pair_valid pairs then Ok tt else Err SignatureVerification.
Proof.
  intros Hne. unfold verify_chunk. pose proof (queue_pairs (verifier mac_key) pairs) as Hq.
  destruct (try_fold queue_pair _ pairs) as [v|e]; simpl in *; [|by destruct Hq as [-> ->]].
  unfold verifier_verify. rewrite Hq, batch_verify_all by (by destruct pairs).
  rewrite forallb_map. by destruct (forallb _ pairs).
Qed.

(** A whole body, chunk by chunk. *)
Lemma verify_chunks_spec mac_key l :
  Forall (fun c => c ≠ []) l →
  try_fold (fun _ => verify_chunk mac_key) tt l = Ok tt ↔ forallb pair_valid (concat l) = true.
Proof.
  induction 1 as [|c l Hc _ IH]; simpl; [done|].
  rewrite verify_chunk_spec, forallb_app by done. by destruct (forallb pair_valid c).
Qed.

Definition tx_pairs (t : AuthorizedTransaction) : list (Authorization * bytes) :=
  map (fun a => (a, tx_msg_canonical (at_transaction t))) (at_authorizations t).

Lemma verify_authorized_spec mac_key t :
  verify_authorized_transaction mac_key t = Ok tt ↔
  length (at_authorizations t) = length (tx_inputs (at_transaction t)) ∧ forallb pair_valid (tx_pairs t) = true.
Proof.
  unfold verify_authorized_transaction, bail_if.
  destruct (Z.eqb_spec (Z.of_nat (length (at_authorizations t)))
              (Z.of_nat (length (tx_inputs (at_transaction t))))) as [He|He]; simpl; [|split; [done|lia]].
  case_bool_decide as Hn.
  - unfold tx_pairs. rewrite Hn in *. split; [split; [lia|done]|done].
  - fold (tx_pairs t). rewrite verify_chunk_spec.
    + destruct (forallb pair_valid (tx_pairs t)); split; try done; [intros _; split; [lia|done]|naive_solver].
    + unfold tx_pairs. by destruct (at_authorizations t).
Qed.

Lemma take_authorizations_spec n l :
  match take_authorizations n l with
  | Ok (a, r) => l = a ++ r ∧ length a = n
  | Err _ => (length l < n)%nat
  end.
Proof.
  revert l. induction n as [|n IH]; intros l; simpl; [done|]. destruct l as [|a l]; simpl; [lia|].
  specialize (IH l). destruct (take_authorizations n l) as [[a' r]|]; simpl; [|lia].
  destruct IH as [-> <-]. done.
Qed.

(** Taking authorizations apart succeeds when there are enough of them. *)
Lemma authorize_each_spec txs auths proofs :
  match authorize_each txs auths proofs with
  | Ok ts => map at_transaction ts = txs ∧
             Forall (fun t => length (at_authorizations t) = length (tx_inputs (at_transaction t))) ts ∧
             ∃ rest, auths = flat_map at_authorizations ts ++ rest
  | Err _ => (length auths < length (flat_map tx_inputs txs))%nat
  end.
Proof.
  revert auths proofs. induction txs as [|tx txs IH]; intros auths proofs; simpl; [by eauto|].
  pose proof (take_authorizations_spec (length (tx_inputs tx)) auths) as Ht.
  destruct (take_authorizations _ _) as [[a r]|]; simpl; [|rewrite length_app; lia].
  destruct Ht as [-> Hlen]. specialize (IH r (tail proofs)).
  destruct (authorize_each txs r (tail proofs)); simpl.
  - destruct IH as (<- & Hall & rest & ->). split; [done|]. split; [by constructor|].
    exists rest. by rewrite <- app_assoc.
  - rewrite !length_app. lia.
Qed.

Lemma body_pairs ts :
  Forall (fun t => length (at_authorizations t) = length (tx_inputs (at_transaction t))) ts →
  zip (flat_map at_authorizations ts) (input_messages (map at_transaction ts)) = flat_map tx_pairs ts.
Proof.
  intros H. unfold input_messages. induction H as [|t ts Ht _ IH]; simpl; [done|].
  rewrite zip_with_app by (by rewrite length_replicate). rewrite <- Ht. f_equal; [|done].
  unfold tx_pairs. clear. induction (at_authorizations t) as [|a l IH]; simpl; [done|]. by f_equal.
Qed.

Lemma total_inputs txs :
  sumZ (map (fun tx => Z.of_nat (length (tx_inputs tx))) txs) = Z.of_nat (length (flat_map tx_inputs txs)).
Proof. induction txs as [|tx txs IH]; [done|]. unfold sumZ in *. cbn [map flat_map foldr]. rewrite length_app, IH. lia. Qed.

Lemma verify_authorizations_spec mac_key b :
  verify_authorizations mac_key b = Ok tt ↔
  length (authorizations b) = length (flat_map tx_inputs (transactions b)) ∧
  forallb pair_valid (zip (authorizations b) (input_messages (transactions b))) = true.
Proof.
  unfold verify_authorizations, bail_if. rewrite total_inputs.
  destruct (Z.eqb_spec (Z.of_nat (length (authorizations b)))
              (Z.of_nat (length (flat_map tx_inputs (transactions b))))) as [He|He]; simpl; [|split; [done|lia]].
  destruct (Z.eqb_spec (Z.of_nat (length (flat_map tx_inputs (transactions b)))) 0) as [Hz|Hz].
  - destruct (authorizations b); simpl in *; [|lia]. split; [split; [lia|done]|done].
  - destruct (chunks_spec CHUNK_SIZE (zip (authorizations b) (input_messages (transactions b)))) as [Hc Hn];
      [by apply Nat.ltb_lt|].
    rewrite verify_chunks_spec, Hc by done. split; [intros; split; [lia|done]|tauto].
Qed.

Lemma try_fold_unit_all {E A} (f : A → result E unit) l :
  try_fold (fun _ => f) tt l = Ok tt ↔ Forall (fun a => f a = Ok tt) l.
Proof.
  induction l as [|a l IH]; simpl; [done|]. rewrite Forall_cons.
  destruct (f a) as [[]|] eqn:E1; rewrite ?E1; [|naive_solver]. rewrite IH. naive_solver.
Qed.

(** The authorizations of a body are those of its transactions. *)
Lemma body_authorizations b ts :
  authorized_transactions b = Ok ts → length (authorizations b) = length (get_inputs b) →
  authorizations b = flat_map at_authorizations ts ∧ transactions b = map at_transaction ts ∧
  Forall (fun t => length (at_authorizations t) = length (tx_inputs (at_transaction t))) ts.
Proof.
  unfold authorized_transactions, get_inputs. intros Hts Hlen.
  pose proof (authorize_each_spec (transactions b) (authorizations b) (actor_proofs b)) as H.
  rewrite Hts in H. destruct H as (Htx & Hall & rest & Hauth). split_and!; [|done|done].
  rewrite Hauth in Hlen |- *. rewrite <- Htx, length_app in Hlen.
  enough (length (flat_map at_authorizations ts) = length (flat_map tx_inputs (map at_transaction ts))).
  { destruct rest; simpl in *; [by rewrite app_nil_r|lia]. }
  clear - Hall. induction Hall as [|t ts Ht _ IH]; simpl; [done|]. rewrite !length_app. lia.
Qed.

Lemma verify_authorizations_each mac_key b ts :
  authorized_transactions b = Ok ts →
  verify_authorizations mac_key b = Ok tt ↔
  length (authorizations b) = length (get_inputs b) ∧
  Forall (fun t => verify_authorized_transaction mac_key t = Ok tt) ts.
Proof.
  intros Hts. rewrite verify_authorizations_spec. fold (get_inputs b). apply and_iff_compat_l'. intros Hlen.
  destruct (body_authorizations b ts Hts Hlen) as (-> & -> & Hall). rewrite body_pairs by done.
  clear - Hall batch_verify_all batch_item_valid. induction Hall as [|t ts Ht _ IH]; simpl; [done|].
  rewrite forallb_app, andb_true_iff, IH, Forall_cons, verify_authorized_spec. tauto.
Qed.

Lemma verify_transactions_split mac_key ts :
  Forall (fun t => verify_transaction_auth mac_key t = Ok tt) ts ↔
  Forall (fun t => verify_authorized_transaction mac_key t = Ok tt) ts ∧
  Forall (fun t => verify_actor_proof t = Ok tt) ts.
Proof.
  rewrite <- Forall_and. apply Forall_iff. intros t. unfold verify_transaction_auth.
  destruct (verify_authorized_transaction mac_key t) as [[]|]; simpl; [tauto|naive_solver].
Qed.

(** C12: verifying the signatures of a block in batches is verifying each of its
    transactions: a body is accepted exactly when it carries one authorization
    per input and every transaction taken out of it, with its own
    authorizations and its actor's proof, is accepted. *)
Theorem verify_body_exact mac_key b :
  verify_body_auth mac_key b = Ok tt ↔
  ∃ ts, authorized_transactions b = Ok ts ∧
    length (authorizations b) = length (get_inputs b) ∧
    Forall (fun t => verify_transaction_auth mac_key t = Ok tt) ts.
Proof.
  unfold verify_body_auth. split.
  - intros H. destruct (verify_authorizations mac_key b) as [[]|] eqn:Ev; [|done]. cbn [mbind result_bind] in H.
    destruct (authorized_transactions b) as [ts|] eqn:Ets; [|done]. simpl in H. exists ts.
    destruct (proj1 (verify_authorizations_each _ _ _ Ets) Ev) as [Hl Ha]. apply try_fold_unit_all in H.
    split_and!; [done|done|]. by apply verify_transactions_split.
  - intros (ts & Ets & Hl & [Ha Hp]%verify_transactions_split).
    rewrite (proj2 (verify_authorizations_each _ _ _ Ets)) by done. rewrite Ets. simpl.
    by apply try_fold_unit_all.
Qed.

Lemma authorize_inputs_spec tx keys draw auths draw' auths' :
  try_fold (authorize_input tx) (draw, auths) keys = Ok (draw', auths') →
  ∃ new, auths' = auths ++ new ∧
    map auth_address new = map fst keys ∧
    forallb pair_valid (map (fun a => (a, tx_msg_canonical tx)) new) = true.
Proof.
  revert draw auths. induction keys as [|[a sk] keys IH]; intros draw auths; cbn [try_fold authorize_input].
  - intros [= _ ->]. exists []. by rewrite app_nil_r.
  - case_bool_decide as Ha; simpl; [|done]. intros H. apply IH in H as (new & -> & Hm & Hv).
    eexists (_ :: new). rewrite <- app_assoc. split; [done|]. simpl. rewrite Hm, Hv. split; [by f_equal|].
    unfold pair_valid, sign. simpl. by rewrite sign_valid.
Qed.

(** What the wallet signs is accepted.  When one key is given per input and
    each belongs to its address, authorization succeeds with a transaction whose
    signatures verify, by the owners of those addresses in that order; a key of
    another address makes it fail. *)
Theorem authorize_verifies draw keys tx mac_key :
  length keys = length (tx_inputs tx) →
  match authorize draw keys tx with
  | Ok t => at_transaction t = tx ∧ verify_transaction_auth mac_key t = Ok tt ∧
            map auth_address (at_authorizations t) = map fst keys
  | Err _ => ∃ a sk, (a, sk) ∈ keys ∧ a ≠ get_address (vk_of_sk sk)
  end.
Proof.
  intros Hlen. unfold authorize.
  destruct (try_fold _ _ keys) as [[d auths]|e] eqn:E; simpl.
  - apply authorize_inputs_spec in E as (new & -> & Hm & Hv). split_and!; [done| |done].
    unfold verify_transaction_auth. rewrite (proj2 (verify_authorized_spec mac_key _)); [done|]. simpl.
    split; [|done]. rewrite <- Hlen. apply (f_equal length) in Hm. by rewrite !length_map in Hm.
  - clear Hlen. revert draw E. generalize (@nil Authorization).
    induction keys as [|[a sk] keys IH]; intros auths draw; cbn [try_fold authorize_input]; [done|].
    case_bool_decide as Ha; simpl.
    + intros H. destruct (IH _ _ H) as (a' & sk' & ? & ?). exists a', sk'. set_solver.
    + intros _. exists a, sk. set_solver.
Qed.
End Facts.

(** ** Examples *)

(** A scheme in which a key signs with itself and the message. *)
#[local] Instance toy_scheme : SignatureScheme := {|
  vk_of_sk sk := sk;
  address_hash vk := rev vk;
  seed_hash key input := key ++ input;
  sig_sign _ sk msg := sk ++ msg;
  sig_verify vk msg sig := bool_decide (sig = vk ++ msg);
  batch_item_new _ _ _ := true;
  batch_verify _ l := forallb (fun e => bool_decide (e.1.2 = e.1.1 ++ e.2)) l;
  borsh_transaction tx := [Z.of_nat (length (tx_inputs tx))]
|}.

Definition toy_signed (n : nat) (key : Z) : AuthorizedTransaction :=
  {| at_transaction := toy_tx n;
     at_authorizations := replicate n {| verifying_key := [key]; signature := [key; 0; Z.of_nat n] |};
     at_actor_proof := Some {| verifying_key := [7]; signature := [7; 0; Z.of_nat n] |} |}.
Definition toy_body : Body := Body_new [toy_signed 2 3; toy_signed 0 4; toy_signed 1 5] toy_coinbase.

Lemma verify_body_exact_witness : verify_body_auth [1] toy_body = Ok tt.
Proof.
  apply (verify_body_exact (SS := toy_scheme)).
  - intros seed l _. reflexivity.
  - reflexivity.
  - eexists. split; [vm_compute; reflexivity|]. split; [reflexivity|].
    repeat constructor.
Defined.

Lemma authorize_verifies_witness :
  match authorize 5 [([1], [1]); ([9; 2], [2; 9])] (toy_tx 2) with
  | Ok t => at_transaction t = toy_tx 2 ∧ verify_transaction_auth [1] t = Ok tt ∧
            map auth_address (at_authorizations t) = [[1]; [9; 2]]
  | Err _ => False
  end.
Proof.
  pose proof (authorize_verifies (SS := toy_scheme)
    (fun seed l _ => eq_refl) (fun vk sig msg _ => eq_refl)
    (fun draw sk msg => bool_decide_eq_true_2 _ eq_refl)
    5 [([1], [1]); ([9; 2], [2; 9])] (toy_tx 2) [1] eq_refl) as H.
  exact H.
Defined.
