(* ===== verification/StateModel.v ===== *)
(** * The state of the sidechain and the views of its transactions

    [State] (src/lib/state/mod.rs) with the tables a block reads and writes, the
    undo records (src/lib/state/undo.rs), and the typed views of the data of a
    transaction (src/lib/types/transaction/mod.rs).  The tables of the two-way
    peg are in [PegState]. *)

From stdpp Require Import base numbers list strings gmap.
From S2P Require Import Prelude Float64 SafeMath StateErrors DecisionTypes Periods Pricing DecisionsDb.
From S2P Require Import Markets Transactions Bodies Voting MarketsDb.

(** ** Undo records *)

Record ReputationTransferUndoEntry : Type := {
  rt_sender : Address;
  rt_sender_pre_reputation : f64;
  rt_receiver : Address;
  rt_receiver_pre_reputation : f64
}.

Record ConsolidationUndoEntry : Type := {
  cn_market_id : MarketId;
  cn_old_treasury_utxos : list (OutPoint * FilledOutput);
  cn_old_fee_utxos : list (OutPoint * FilledOutput);
  cn_old_treasury_pointer : option OutPoint;
  cn_old_fee_pointer : option OutPoint;
  cn_new_treasury_utxo : option OutPoint;
  cn_new_fee_utxo : option OutPoint;
  cn_sell_payout_utxos : list OutPoint;
  cn_buy_change_utxos : list OutPoint
}.

Record ConsolidationUndoData : Type := {
  cn_entries : list ConsolidationUndoEntry;
  cn_sell_input_change_utxos : list OutPoint
}.

(** ** The state *)

Record State : Type := {
  s_tip : option bytes;
  s_height : option Z;
  s_mainchain_timestamp : option Z;
  s_genesis_timestamp : option Z;
  s_reputation : Reputations;
  s_decisions : Dbs;
  s_markets : MarketsDatabase;
  s_voting : VotingDatabases;
  s_utxos : UtxoTables;
  s_settlement_undo : gmap Z (list SettlementUndoEntry);
  s_consensus_undo : gmap Z (list ConsensusUndoEntry);
  s_consolidation_undo : gmap Z ConsolidationUndoData;
  s_minting_undo : gmap Z Z;
  s_reputation_transfer_undo : gmap Z (list ReputationTransferUndoEntry);
  s_skipped_tx_indices_undo : gmap Z (list Z)
}.

(** *** Writing one table *)

Definition set_s_tip (s : State) v : State :=
  {| s_tip := v; s_height := s_height s; s_mainchain_timestamp := s_mainchain_timestamp s;
     s_genesis_timestamp := s_genesis_timestamp s; s_reputation := s_reputation s; s_decisions :=
     s_decisions s; s_markets := s_markets s; s_voting := s_voting s; s_utxos := s_utxos s;
     s_settlement_undo := s_settlement_undo s; s_consensus_undo := s_consensus_undo s;
     s_consolidation_undo := s_consolidation_undo s; s_minting_undo := s_minting_undo s;
     s_reputation_transfer_undo := s_reputation_transfer_undo s; s_skipped_tx_indices_undo :=
     s_skipped_tx_indices_undo s |}.
Definition set_s_height (s : State) v : State :=
  {| s_tip := s_tip s; s_height := v; s_mainchain_timestamp := s_mainchain_timestamp s;
     s_genesis_timestamp := s_genesis_timestamp s; s_reputation := s_reputation s; s_decisions :=
     s_decisions s; s_markets := s_markets s; s_voting := s_voting s; s_utxos := s_utxos s;
     s_settlement_undo := s_settlement_undo s; s_consensus_undo := s_consensus_undo s;
     s_consolidation_undo := s_consolidation_undo s; s_minting_undo := s_minting_undo s;
     s_reputation_transfer_undo := s_reputation_transfer_undo s; s_skipped_tx_indices_undo :=
     s_skipped_tx_indices_undo s |}.
Definition set_s_mainchain_timestamp (s : State) v : State :=
  {| s_tip := s_tip s; s_height := s_height s; s_mainchain_timestamp := v; s_genesis_timestamp :=
     s_genesis_timestamp s; s_reputation := s_reputation s; s_decisions := s_decisions s;
     s_markets := s_markets s; s_voting := s_voting s; s_utxos := s_utxos s; s_settlement_undo :=
     s_settlement_undo s; s_consensus_undo := s_consensus_undo s; s_consolidation_undo :=
     s_consolidation_undo s; s_minting_undo := s_minting_undo s; s_reputation_transfer_undo :=
     s_reputation_transfer_undo s; s_skipped_tx_indices_undo := s_skipped_tx_indices_undo s |}.
Definition set_s_genesis_timestamp (s : State) v : State :=
  {| s_tip := s_tip s; s_height := s_height s; s_mainchain_timestamp := s_mainchain_timestamp s;
     s_genesis_timestamp := v; s_reputation := s_reputation s; s_decisions := s_decisions s;
     s_markets := s_markets s; s_voting := s_voting s; s_utxos := s_utxos s; s_settlement_undo :=
     s_settlement_undo s; s_consensus_undo := s_consensus_undo s; s_consolidation_undo :=
     s_consolidation_undo s; s_minting_undo := s_minting_undo s; s_reputation_transfer_undo :=
     s_reputation_transfer_undo s; s_skipped_tx_indices_undo := s_skipped_tx_indices_undo s |}.
Definition set_s_reputation (s : State) v : State :=
  {| s_tip := s_tip s; s_height := s_height s; s_mainchain_timestamp := s_mainchain_timestamp s;
     s_genesis_timestamp := s_genesis_timestamp s; s_reputation := v; s_decisions := s_decisions
     s; s_markets := s_markets s; s_voting := s_voting s; s_utxos := s_utxos s; s_settlement_undo
     := s_settlement_undo s; s_consensus_undo := s_consensus_undo s; s_consolidation_undo :=
     s_consolidation_undo s; s_minting_undo := s_minting_undo s; s_reputation_transfer_undo :=
     s_reputation_transfer_undo s; s_skipped_tx_indices_undo := s_skipped_tx_indices_undo s |}.
Definition set_s_decisions (s : State) v : State :=
  {| s_tip := s_tip s; s_height := s_height s; s_mainchain_timestamp := s_mainchain_timestamp s;
     s_genesis_timestamp := s_genesis_timestamp s; s_reputation := s_reputation s; s_decisions :=
     v; s_markets := s_markets s; s_voting := s_voting s; s_utxos := s_utxos s; s_settlement_undo
     := s_settlement_undo s; s_consensus_undo := s_consensus_undo s; s_consolidation_undo :=
     s_consolidation_undo s; s_minting_undo := s_minting_undo s; s_reputation_transfer_undo :=
     s_reputation_transfer_undo s; s_skipped_tx_indices_undo := s_skipped_tx_indices_undo s |}.
Definition set_s_markets (s : State) v : State :=
  {| s_tip := s_tip s; s_height := s_height s; s_mainchain_timestamp := s_mainchain_timestamp s;
     s_genesis_timestamp := s_genesis_timestamp s; s_reputation := s_reputation s; s_decisions :=
     s_decisions s; s_markets := v; s_voting := s_voting s; s_utxos := s_utxos s;
     s_settlement_undo := s_settlement_undo s; s_consensus_undo := s_consensus_undo s;
     s_consolidation_undo := s_consolidation_undo s; s_minting_undo := s_minting_undo s;
     s_reputation_transfer_undo := s_reputation_transfer_undo s; s_skipped_tx_indices_undo :=
     s_skipped_tx_indices_undo s |}.
Definition set_s_voting (s : State) v : State :=
  {| s_tip := s_tip s; s_height := s_height s; s_mainchain_timestamp := s_mainchain_timestamp s;
     s_genesis_timestamp := s_genesis_timestamp s; s_reputation := s_reputation s; s_decisions :=
     s_decisions s; s_markets := s_markets s; s_voting := v; s_utxos := s_utxos s;
     s_settlement_undo := s_settlement_undo s; s_consensus_undo := s_consensus_undo s;
     s_consolidation_undo := s_consolidation_undo s; s_minting_undo := s_minting_undo s;
     s_reputation_transfer_undo := s_reputation_transfer_undo s; s_skipped_tx_indices_undo :=
     s_skipped_tx_indices_undo s |}.
Definition set_s_utxos (s : State) v : State :=
  {| s_tip := s_tip s; s_height := s_height s; s_mainchain_timestamp := s_mainchain_timestamp s;
     s_genesis_timestamp := s_genesis_timestamp s; s_reputation := s_reputation s; s_decisions :=
     s_decisions s; s_markets := s_markets s; s_voting := s_voting s; s_utxos := v;
     s_settlement_undo := s_settlement_undo s; s_consensus_undo := s_consensus_undo s;
     s_consolidation_undo := s_consolidation_undo s; s_minting_undo := s_minting_undo s;
     s_reputation_transfer_undo := s_reputation_transfer_undo s; s_skipped_tx_indices_undo :=
     s_skipped_tx_indices_undo s |}.
Definition set_s_settlement_undo (s : State) v : State :=
  {| s_tip := s_tip s; s_height := s_height s; s_mainchain_timestamp := s_mainchain_timestamp s;
     s_genesis_timestamp := s_genesis_timestamp s; s_reputation := s_reputation s; s_decisions :=
     s_decisions s; s_markets := s_markets s; s_voting := s_voting s; s_utxos := s_utxos s;
     s_settlement_undo := v; s_consensus_undo := s_consensus_undo s; s_consolidation_undo :=
     s_consolidation_undo s; s_minting_undo := s_minting_undo s; s_reputation_transfer_undo :=
     s_reputation_transfer_undo s; s_skipped_tx_indices_undo := s_skipped_tx_indices_undo s |}.
Definition set_s_consensus_undo (s : State) v : State :=
  {| s_tip := s_tip s; s_height := s_height s; s_mainchain_timestamp := s_mainchain_timestamp s;
     s_genesis_timestamp := s_genesis_timestamp s; s_reputation := s_reputation s; s_decisions :=
     s_decisions s; s_markets := s_markets s; s_voting := s_voting s; s_utxos := s_utxos s;
     s_settlement_undo := s_settlement_undo s; s_consensus_undo := v; s_consolidation_undo :=
     s_consolidation_undo s; s_minting_undo := s_minting_undo s; s_reputation_transfer_undo :=
     s_reputation_transfer_undo s; s_skipped_tx_indices_undo := s_skipped_tx_indices_undo s |}.
Definition set_s_consolidation_undo (s : State) v : State :=
  {| s_tip := s_tip s; s_height := s_height s; s_mainchain_timestamp := s_mainchain_timestamp s;
     s_genesis_timestamp := s_genesis_timestamp s; s_reputation := s_reputation s; s_decisions :=
     s_decisions s; s_markets := s_markets s; s_voting := s_voting s; s_utxos := s_utxos s;
     s_settlement_undo := s_settlement_undo s; s_consensus_undo := s_consensus_undo s;
     s_consolidation_undo := v; s_minting_undo := s_minting_undo s; s_reputation_transfer_undo :=
     s_reputation_transfer_undo s; s_skipped_tx_indices_undo := s_skipped_tx_indices_undo s |}.
Definition set_s_minting_undo (s : State) v : State :=
  {| s_tip := s_tip s; s_height := s_height s; s_mainchain_timestamp := s_mainchain_timestamp s;
     s_genesis_timestamp := s_genesis_timestamp s; s_reputation := s_reputation s; s_decisions :=
     s_decisions s; s_markets := s_markets s; s_voting := s_voting s; s_utxos := s_utxos s;
     s_settlement_undo := s_settlement_undo s; s_consensus_undo := s_consensus_undo s;
     s_consolidation_undo := s_consolidation_undo s; s_minting_undo := v;
     s_reputation_transfer_undo := s_reputation_transfer_undo s; s_skipped_tx_indices_undo :=
     s_skipped_tx_indices_undo s |}.
Definition set_s_reputation_transfer_undo (s : State) v : State :=
  {| s_tip := s_tip s; s_height := s_height s; s_mainchain_timestamp := s_mainchain_timestamp s;
     s_genesis_timestamp := s_genesis_timestamp s; s_reputation := s_reputation s; s_decisions :=
     s_decisions s; s_markets := s_markets s; s_voting := s_voting s; s_utxos := s_utxos s;
     s_settlement_undo := s_settlement_undo s; s_consensus_undo := s_consensus_undo s;
     s_consolidation_undo := s_consolidation_undo s; s_minting_undo := s_minting_undo s;
     s_reputation_transfer_undo := v; s_skipped_tx_indices_undo := s_skipped_tx_indices_undo s |}.
Definition set_s_skipped_tx_indices_undo (s : State) v : State :=
  {| s_tip := s_tip s; s_height := s_height s; s_mainchain_timestamp := s_mainchain_timestamp s;
     s_genesis_timestamp := s_genesis_timestamp s; s_reputation := s_reputation s; s_decisions :=
     s_decisions s; s_markets := s_markets s; s_voting := s_voting s; s_utxos := s_utxos s;
     s_settlement_undo := s_settlement_undo s; s_consensus_undo := s_consensus_undo s;
     s_consolidation_undo := s_consolidation_undo s; s_minting_undo := s_minting_undo s;
     s_reputation_transfer_undo := s_reputation_transfer_undo s; s_skipped_tx_indices_undo := v |}.

(** ** Views of a transaction's data *)

Record MarketCreationView : Type := {
  mv_title : string;
  mv_description : string;
  mv_dimension_specs : list DimensionSpec;
  mv_trading_fee : option f64;
  mv_tx_pow_hash_selector : option Z;
  mv_tx_pow_ordering : option Z;
  mv_tx_pow_difficulty : option Z;
  mv_new_claims : list ClaimDecisionPayload
}.

Record TradeView : Type := {
  tv_market_id : MarketId;
  tv_outcome_index : Z;
  tv_shares : Z;
  tv_trader : Address;
  tv_limit_sats : Z;
  tv_tx_pow_nonce : option Z;
  tv_prev_block_hash : bytes
}.

Definition is_buy (t : TradeView) : bool := 0 <? tv_shares t.
Definition is_sell (t : TradeView) : bool := tv_shares t <? 0.
(** [unsigned_abs]. *)
Definition shares_abs (t : TradeView) : Z := Z.abs (tv_shares t).

Record SubmitVoteView : Type := {
  sv_voter : Address;
  sv_decision_id_bytes : bytes;
  sv_vote_value : f64;
  sv_voting_period : Z
}.

Record SubmitBallotView : Type := {
  sb_voter : Address;
  sb_votes : list BallotItem;
  sb_voting_period : Z
}.

Record TransferReputationView : Type := { tr_sender : Address; tr_dest : Address; tr_amount : f64 }.

Record AmplifyBetaView : Type := {
  ab_market_id : MarketId;
  ab_amount : Z;
  ab_market_author : Address
}.

Section Views.
Implicit Types (tx : FilledTransaction).

Definition data tx : option TransactionData := tx_data (transaction tx).

Definition is_claim_decision tx : bool := match data tx with Some (ClaimDecision _) => true | _ => false end.
Definition is_create_market tx : bool :=
  match data tx with Some (CreateMarket _ _ _ _ _ _ _ _) => true | _ => false end.
Definition is_trade tx : bool := match data tx with Some (Trade _ _ _ _ _ _ _) => true | _ => false end.
Definition is_submit_vote tx : bool := match data tx with Some (SubmitVote _ _ _ _) => true | _ => false end.
Definition is_submit_ballot tx : bool := match data tx with Some (SubmitBallot _ _ _) => true | _ => false end.
Definition is_transfer_reputation tx : bool :=
  match data tx with Some (TransferReputation _ _ _) => true | _ => false end.
Definition is_amplify_beta tx : bool := match data tx with Some (AmplifyBeta _ _ _) => true | _ => false end.

Definition claim_decision_of tx : option ClaimDecisionPayload :=
  match data tx with Some (ClaimDecision payload) => Some payload | _ => None end.

Definition as_market_creation tx : option MarketCreationView :=
  match data tx with
  | Some (CreateMarket title description specs new_claims fee selector ordering difficulty) =>
      Some {| mv_title := title; mv_description := description; mv_dimension_specs := specs;
              mv_trading_fee := fee; mv_tx_pow_hash_selector := selector;
              mv_tx_pow_ordering := ordering; mv_tx_pow_difficulty := difficulty;
              mv_new_claims := new_claims |}
  | _ => None
  end.

Definition trade tx : option TradeView :=
  match data tx with
  | Some (Trade market_id outcome_index shares trader limit_sats nonce prev) =>
      Some {| tv_market_id := market_id; tv_outcome_index := outcome_index; tv_shares := shares;
              tv_trader := trader; tv_limit_sats := limit_sats; tv_tx_pow_nonce := nonce;
              tv_prev_block_hash := prev |}
  | _ => None
  end.

Definition submit_vote tx : option SubmitVoteView :=
  match data tx with
  | Some (SubmitVote voter id value period) =>
      Some {| sv_voter := voter; sv_decision_id_bytes := id; sv_vote_value := value;
              sv_voting_period := period |}
  | _ => None
  end.

Definition submit_ballot tx : option SubmitBallotView :=
  match data tx with
  | Some (SubmitBallot voter votes period) =>
      Some {| sb_voter := voter; sb_votes := votes; sb_voting_period := period |}
  | _ => None
  end.

Definition transfer_reputation tx : option TransferReputationView :=
  match data tx with
  | Some (TransferReputation sender dest amount) =>
      Some {| tr_sender := sender; tr_dest := dest; tr_amount := amount |}
  | _ => None
  end.

Definition amplify_beta tx : option AmplifyBetaView :=
  match data tx with
  | Some (AmplifyBeta market_id amount author) =>
      Some {| ab_market_id := market_id; ab_amount := amount; ab_market_author := author |}
  | _ => None
  end.

(** The proof that an address takes part in a transaction: it owns an input, or
    signed the transaction as its actor. *)
Definition has_input_of tx (a : Address) : bool := existsb (fun u => bool_decide (out_address u = a)) (spent_utxos tx).
Definition has_actor_proof tx (a : Address) : bool := bool_decide (actor_address tx = Some a).

End Views.

(** [[u8; 3]] to [DecisionId]; arrays of another length do not exist. *)
Definition decision_id_of_bytes (b : bytes) : result Error DecisionId :=
  match b with
  | [b0; b1; b2] => from_bytes b0 b1 b2
  | _ => Err (Panicked "not an array of three bytes")
  end.
