(* ===== verification/Validation.v ===== *)
(** * Validation of transactions and blocks

    Model of src/lib/validation: claims of decisions (decision.rs), market
    creation, trades and liquidity (market.rs), votes, ballots and reputation
    transfers (vote.rs), and whole transactions and blocks (block.rs).  The
    trait [DecisionValidationInterface] is a type class with the two instances of
    the source, the state and the decisions database alone. *)

From stdpp Require Import base numbers list strings gmap.
From S2P Require Import Prelude Float64 SafeMath MarketMath StateErrors DecisionTypes Periods Pricing DecisionsDb.
From S2P Require Import Markets Transactions TwoWayPeg Bodies Archive Voting MarketsDb TxPow Authorization StateModel.

(** ** The interface to the decisions *)

Class DecisionValidationInterface (T : Type) : Type := {
  dvi_validate_decision_claim : T → DecisionId → Z → option Z → Z → result Error unit;
  dvi_try_get_height : T → option Z;
  dvi_try_get_genesis_timestamp : T → option Z;
  dvi_try_get_mainchain_timestamp : T → option Z;
  dvi_get_standard_claimed_count_in_period : T → Z → Z;
  dvi_get_available_decisions : T → Z → Z → option Z → Z → result Error Z;
  dvi_fee_for_decision_id : T → DecisionId → result Error Z
}.

#[export] Instance State_decisions : DecisionValidationInterface State := {|
  dvi_validate_decision_claim s := validate_decision_claim (s_decisions s);
  dvi_try_get_height := s_height;
  dvi_try_get_genesis_timestamp := s_genesis_timestamp;
  dvi_try_get_mainchain_timestamp := s_mainchain_timestamp;
  dvi_get_standard_claimed_count_in_period s := get_standard_claimed_count_in_period (s_decisions s);
  dvi_get_available_decisions s := get_available_decisions (s_decisions s);
  dvi_fee_for_decision_id s := fee_for_decision_id (s_decisions s)
|}.

(** The database alone knows no clock. *)
#[export] Instance Dbs_decisions : DecisionValidationInterface Dbs := {|
  dvi_validate_decision_claim := validate_decision_claim;
  dvi_try_get_height _ := None;
  dvi_try_get_genesis_timestamp _ := None;
  dvi_try_get_mainchain_timestamp _ := None;
  dvi_get_standard_claimed_count_in_period := get_standard_claimed_count_in_period;
  dvi_get_available_decisions := get_available_decisions;
  dvi_fee_for_decision_id := fee_for_decision_id
|}.

(** What validation takes from external crates: the encoded size of a body, the
    signature scheme and the hash of a market; [mac_key] is the key of the batch
    verification context, drawn when the program starts. *)
Class ValidationEnv : Type := {
  validation_scheme :: SignatureScheme;
  mac_key : bytes;
  body_size : Body → Z;
  compute_market_id : string → string → Address → list DimensionSpec → MarketId
}.

(** ** Claims *)

(** The checks of a payload on its type. *)
Definition validate_payload_type (p : ClaimDecisionPayload) : result Error unit :=
  match cdp_decision_type p, cdp_decisions p with
  | (Binary | Scaled _ _ _), [entry] =>
      match dce_option_labels entry with
      | Some _ => Err (InvalidTransaction "option_labels must not be set for binary/scaled decisions")
      | None => Ok tt
      end
  | (Binary | Scaled _ _ _), _ => Err (InvalidTransaction "claim must have exactly 1 decision")
  | Category options, [entry] =>
      if Z.of_nat (length options) <? 2
      then Err (InvalidTransaction "Category claim requires at least 2 options") else
      match dce_option_labels entry with
      | None => Err (InvalidTransaction "Category claim entry must have option_labels")
      | Some labels =>
          if Z.of_nat (length labels) <? 2
          then Err (InvalidTransaction "Category claim entry must have at least 2 option_labels")
          else if negb (bool_decide (labels = options))
          then Err (InvalidTransaction "option_labels must match decision_type options")
          else Ok tt
      end
  | Category _, _ => Err (InvalidTransaction "Category claim must have exactly 1 decision entry")
  end.

Definition claim_error (e : Error) : Error :=
  match e with
  | DecisionNotAvailable _ reason => InvalidDecisionId reason
  | DecisionAlreadyClaimed _ => InvalidDecisionId "already claimed"
  | other => other
  end.

(** The decision an entry of a payload describes. *)
Definition decision_of_entry (maker : Address) (t : DecisionType) (entry : DecisionClaimEntry)
  : result Error Decision :=
  Decision_new maker t (dce_header entry) (dce_description entry) (dce_option_0_label entry)
    (dce_option_1_label entry) (default [] (dce_tags entry)).

Section Claims.
Context {T : Type} {DV : DecisionValidationInterface T}.

Definition validate_entry (db : T) (p : ClaimDecisionPayload) (maker : Address) (ts : Z)
  (height : option Z) (genesis_ts : Z) (entry : DecisionClaimEntry) : result Error unit :=
  id ← decision_id_of_bytes (dce_decision_id_bytes entry);
  _ ← decision_of_entry maker (cdp_decision_type p) entry;
  map_err claim_error (dvi_validate_decision_claim db id ts height genesis_ts).

Definition add_listing_fee (db : T) (total : Z) (entry : DecisionClaimEntry) : result Error Z :=
  id ← decision_id_of_bytes (dce_decision_id_bytes entry);
  if negb (is_standard id) then Ok total else
  fee ← dvi_fee_for_decision_id db id;
  ok_or (checked_add_u64 total fee) (InvalidTransaction "Listing fee overflow").

Definition validate_claim_payload (db : T) (p : ClaimDecisionPayload) (maker : Address)
  (override_height : option Z) : result Error Z :=
  _ ← validate_payload_type p;
  let current_ts := default 0 (dvi_try_get_mainchain_timestamp db) in
  let current_height := match override_height with
                        | Some h => Some h
                        | None => dvi_try_get_height db
                        end in
  let genesis_ts := default 0 (dvi_try_get_genesis_timestamp db) in
  _ ← try_fold (fun _ => validate_entry db p maker current_ts current_height genesis_ts) tt (cdp_decisions p);
  try_fold (add_listing_fee db) 0 (cdp_decisions p).

End Claims.

Definition validate_maker_auth (tx : FilledTransaction) : result Error Address :=
  if bool_decide (tx_inputs (transaction tx) = [])
  then Err (InvalidTransaction "Transaction must have at least one input") else
  match spent_utxos tx with
  | [] => Err (InvalidTransaction "No spent UTXOs found")
  | first_utxo :: _ => Ok (out_address first_utxo)
  end.

Section Payment.
Context {AM : BitcoinAmount}.

(** The fee of a transaction must cover the listing fees it owes. *)
Definition check_listing_fee (tx : FilledTransaction) (total_listing_fee : Z) : result Error unit :=
  if total_listing_fee <=? 0 then Ok tt else
  o ← map_err (fun _ => InvalidTransaction "Failed to compute tx fee") (bitcoin_fee tx);
  tx_fee ← ok_or o NotEnoughValueIn;
  bail_if (tx_fee <? total_listing_fee) (InvalidTransaction "Insufficient listing fee").

Definition validate_complete_decision_claim {T} {DV : DecisionValidationInterface T} (db : T)
  (tx : FilledTransaction) (override_height : option Z) : result Error unit :=
  payload ← ok_or (claim_decision_of tx) (InvalidTransaction "Not a decision claim transaction");
  maker ← validate_maker_auth tx;
  fee ← validate_claim_payload db payload maker override_height;
  check_listing_fee tx fee.

End Payment.

(** ** Market creation *)

(** What the loop over the new claims gathers: the types of the claimed
    decisions and the fees owed. *)
Abbreviation Pending := (gmap DecisionId DecisionType * Z)%type.

Definition add_pending_entry (s : State) (t : DecisionType) (pending : gmap DecisionId DecisionType)
  (entry : DecisionClaimEntry) : result Error (gmap DecisionId DecisionType) :=
  id ← decision_id_of_bytes (dce_decision_id_bytes entry);
  if bool_decide (is_Some (pending !! id))
  then Err (InvalidTransaction "Duplicate new claim for decision") else
  if match get_decision_entry (s_decisions s) id with Some e => entry_claimed e | None => false end
  then Err (InvalidTransaction "New claim collides with already-claimed decision") else
  Ok (<[id := t]> pending).

Definition add_pending_payload (s : State) (maker : Address) (override_height : option Z)
  (acc : Pending) (p : ClaimDecisionPayload) : result Error Pending :=
  let '(pending, total) := acc in
  fee ← validate_claim_payload (s_decisions s) p maker override_height;
  total ← ok_or (checked_add_u64 total fee) (InvalidTransaction "Listing fee overflow");
  pending ← try_fold (add_pending_entry s (cdp_decision_type p)) pending (cdp_decisions p);
  Ok (pending, total).

Definition validate_dimension (s : State) (pending : gmap DecisionId DecisionType)
  (spec : DimensionSpec) : result Error unit :=
  match pending !! spec_id spec with
  | Some t =>
      match spec, t with
      | Single _, _ => Ok tt
      | Categorical _, Category options =>
          bail_if (Z.of_nat (length options) <? 2)
            (InvalidTransaction "Categorical dimensions require at least 2 options")
      | Categorical _, _ =>
          Err (InvalidTransaction "Categorical dimension references new decision which is not a Category type")
      end
  | None =>
      entry ← ok_or (get_decision_entry (s_decisions s) (spec_id spec))
                (InvalidTransaction "Referenced decision does not exist");
      d ← ok_or (decision entry) (InvalidTransaction "Referenced decision was never claimed");
      match spec with
      | Single _ => Ok tt
      | Categorical _ =>
          if negb (is_categorical d)
          then Err (InvalidTransaction "Categorical dimension references decision which is not a Category type")
          else bail_if (default 0 (option_count d) <? 2)
                 (InvalidTransaction "Categorical dimensions require at least 2 options")
      end
  end.

(** The treasury output of a new market: the first one with its id. *)
Definition treasury_output (id : MarketId) (o : Output) : option Z :=
  match out_content o with
  | CMarketFunds market_id amount false => if bool_decide (market_id = id) then Some amount else None
  | _ => None
  end.

Definition view_tx_pow (v : MarketCreationView) (difficulty : Z) : TxPowConfig :=
  {| tp_hash_selector := default 0 (mv_tx_pow_hash_selector v);
     tp_ordering := default 0 (mv_tx_pow_ordering v); tp_difficulty := difficulty |}.

Section MarketValidator.
Context {AM : BitcoinAmount} {VE : ValidationEnv}.

Definition validate_market_creation (s : State) (tx : FilledTransaction) (override_height : option Z)
  : result Error unit :=
  view ← ok_or (as_market_creation tx) (InvalidTransaction "Not a market creation transaction");
  maker ← validate_maker_auth tx;
  '(pending, total_listing_fee) ← try_fold (add_pending_payload s maker override_height) (∅, 0) (mv_new_claims view);
  _ ← bail_if (bool_decide (mv_dimension_specs view = []))
        (InvalidTransaction "Market must have at least one dimension");
  _ ← try_fold (fun _ => validate_dimension s pending) tt (mv_dimension_specs view);
  _ ← bail_if (match mv_trading_fee view with
               | Some fee => negb (f64_le f64_zero fee && f64_le fee f64_one)
               | None => false
               end) (InvalidTransaction "Trading fee must be between 0.0 and 1.0");
  _ ← bail_if (match mv_tx_pow_difficulty view with
               | Some difficulty => (0 <? difficulty) && negb (pow_config_validate (view_tx_pow view difficulty))
               | None => false
               end) (InvalidTransaction "TX-PoW config invalid");
  let id := compute_market_id (mv_title view) (mv_description view) maker (mv_dimension_specs view) in
  treasury ← ok_or (head (omap (treasury_output id) (tx_outputs (transaction tx))))
               (InvalidTransaction "CreateMarket tx must have MarketFunds (treasury) output");
  _ ← bail_if (treasury =? 0) (InvalidTransaction "CreateMarket treasury output must be positive");
  check_listing_fee tx total_listing_fee.

(** ** Trades *)

Definition tx_pow_config (m : Market) : TxPowConfig :=
  {| tp_hash_selector := m_tx_pow_hash_selector m; tp_ordering := m_tx_pow_ordering m;
     tp_difficulty := m_tx_pow_difficulty m |}.

Definition get_user_share_account (db : MarketsDatabase) (a : Address) : option ShareAccount :=
  share_accounts db !! a.

(** The shares an address holds of an outcome. *)
Definition owned_shares (db : MarketsDatabase) (a : Address) (id : MarketId) (outcome_index : Z) : Z :=
  default 0 (account ← get_user_share_account db a; positions account !! (id, outcome_index)).

Context {PH : PowHashes}.

(** The block a trade refers to is on the active chain, at most ten blocks old. *)
Definition validate_trade_block (s : State) (a : Archive) (prev : bytes) : result Error unit :=
  tip ← ok_or (s_tip s) (InvalidTransaction "No chain tip when validating trade");
  tip_height ← ok_or (s_height s) (InvalidTransaction "No chain height when validating trade");
  prev_height ← ok_or (try_get_height a prev)
    (InvalidTransaction "Trade prev_block_hash does not reference a known block");
  on_chain ← (if bool_decide (prev = tip) then Ok true
              else map_err (fun _ => ArchiveFailed) (is_descendant a prev tip));
  _ ← bail_if (negb on_chain) (InvalidTransaction "Trade prev_block_hash is not on the active chain");
  bail_if (POW_BOUND_WINDOW_BLOCKS <? sat_sub tip_height prev_height)
    (InvalidTransaction "Trade prev_block_hash is too far behind tip").

(** [None] stands for the panic the order of the hash functions cannot cause. *)
Definition validate_trade_pow (m : Market) (t : TradeView) : result Error unit :=
  if negb (is_enabled (tx_pow_config m)) then Ok tt else
  nonce ← ok_or (tv_tx_pow_nonce t) (InvalidTransaction "Trade requires TX-PoW nonce for this market");
  let pow_data := serialize_trade_for_pow (m_id m) (tv_outcome_index t) (tv_shares t) (tv_trader t)
                    (tv_limit_sats t) (tv_prev_block_hash t) in
  match pow_verify (tx_pow_config m) pow_data nonce with
  | None => Err (Panicked "order of hash functions")
  | Some ok => bail_if (negb ok) (InvalidTransaction "TX-PoW verification failed")
  end.

Definition validate_trade (s : State) (a : Archive) (tx : FilledTransaction) : result Error unit :=
  t ← ok_or (trade tx) (InvalidTransaction "Not a trade transaction");
  m ← ok_or (get_market (s_markets s) (tv_market_id t)) (InvalidTransaction "Market does not exist");
  _ ← bail_if (negb (bool_decide (m_market_state m = Trading)))
        (InvalidTransaction "Market not in trading state");
  _ ← validate_trade_block s a (tv_prev_block_hash t);
  _ ← validate_trade_pow m t;
  _ ← bail_if (Z.of_nat (length (m_shares m)) <=? tv_outcome_index t)
        (InvalidTransaction "Outcome index out of range");
  _ ← bail_if (tv_shares t =? 0) (InvalidTransaction "Shares to trade must be non-zero");
  _ ← bail_if (negb (bool_decide (tx_outputs (transaction tx) = [])))
        (InvalidTransaction "Trade transactions must have no outputs");
  _ ← validate_maker_auth tx;
  input_value ← map_err (fun _ => InvalidTransaction "Failed to compute input value")
                  (spent_bitcoin_value tx);
  if is_buy t then
    _ ← bail_if (tv_limit_sats t =? 0) (InvalidTransaction "Buy limit (max_cost) must be positive");
    bail_if (input_value <? tv_limit_sats t) (InvalidTransaction "Input value insufficient for limit_sats")
  else
    _ ← bail_if (negb (has_input_of tx (tv_trader t)) && negb (has_actor_proof tx (tv_trader t)))
          (InvalidTransaction "Sell transaction has no proof of trader identity");
    let owned := owned_shares (s_markets s) (tv_trader t) (tv_market_id t) (tv_outcome_index t) in
    _ ← bail_if ((owned <? 0) || (owned <? shares_abs t)) (InvalidTransaction "Insufficient shares");
    bail_if (input_value <? Trading.TRADE_MINER_FEE_SATS)
      (InvalidTransaction "Input value insufficient for miner fee").

Definition validate_amplify_beta (s : State) (tx : FilledTransaction) : result Error unit :=
  amplify ← ok_or (amplify_beta tx) (InvalidTransaction "Not an amplify_beta transaction");
  _ ← bail_if (ab_amount amplify =? 0) (InvalidTransaction "AmplifyBeta amount must be positive");
  m ← ok_or (get_market (s_markets s) (ab_market_id amplify)) (InvalidTransaction "Market does not exist");
  _ ← bail_if (negb (bool_decide (m_market_state m = Trading)))
        (InvalidTransaction "Market not in trading state");
  _ ← bail_if (negb (bool_decide (m_creator_address m = ab_market_author amplify)))
        (InvalidTransaction "AmplifyBeta author does not match market creator");
  _ ← bail_if (negb (has_input_of tx (ab_market_author amplify))
               && negb (has_actor_proof tx (ab_market_author amplify)))
        (InvalidTransaction "AmplifyBeta has no proof of market author identity");
  _ ← bail_if (negb (bool_decide (tx_outputs (transaction tx) = [])))
        (InvalidTransaction "AmplifyBeta transactions must have no outputs");
  input_value ← map_err (fun _ => InvalidTransaction "Failed to compute input value")
                  (spent_bitcoin_value tx);
  required ← ok_or (checked_add_u64 (ab_amount amplify) Trading.TRADE_MINER_FEE_SATS)
               (InvalidTransaction "AmplifyBeta amount overflow");
  bail_if (input_value <? required) (InvalidTransaction "Input value insufficient for amplify amount").

End MarketValidator.

Definition validate_market_shares (shares : list Z) : result Error unit :=
  _ ← bail_if (existsb (fun q => q <? 0) shares) (InvalidTransaction "Share quantity must be non-negative");
  bail_if (Z.of_nat (length shares) <? 2) (InvalidTransaction "Market must have at least 2 outcomes").

(** ** Votes *)

Definition convert_vote_value_with_decision (vote_value : f64) (d : option Decision) : VoteValue :=
  if is_nan vote_value then VAbstain else
  if match d with Some d => is_categorical d | None => false end
  then VCategorical (f64_as_u16 (f64_round vote_value)) else
  if f64_eq vote_value f64_zero || f64_eq vote_value f64_one
  then VBinary (f64_eq vote_value f64_one) else VScalar vote_value.
Definition convert_vote_value (vote_value : f64) : VoteValue :=
  convert_vote_value_with_decision vote_value None.

Definition validate_voter_eligibility (s : State) (voter : Address) : result Error unit :=
  bail_if (f64_le (get_reputation (s_reputation s) voter) f64_zero)
    (InvalidTransaction "Voter has no reputation (voting rights)").

Definition validate_decision_entry (s : State) (id : DecisionId) : result Error Decision :=
  entry ← ok_or (get_decision_entry (s_decisions s) id) (InvalidDecisionId "does not exist");
  ok_or (decision entry) (InvalidDecisionId "has no decision").

Definition validate_vote_value (d : Decision) (vote_value : f64) : result Error unit :=
  if is_nan vote_value then Ok tt else
  if is_categorical d then
    let max_idx := f64_of_Z (default 0 (option_count d)) in
    let idx := f64_as_usize vote_value in
    bail_if (negb (f64_ge vote_value f64_zero && f64_eq vote_value (f64_of_Z idx) && f64_le vote_value max_idx))
      (InvalidTransaction "Categorical vote value must be an integer index")
  else bail_if (negb (f64_le f64_zero vote_value && f64_le vote_value f64_one))
         (InvalidTransaction "Vote value outside valid normalized range").

Definition validate_voting_period (s : State) (id : DecisionId) : result Error unit :=
  bail_if (negb (is_decision_in_voting (s_decisions s) id))
    (InvalidTransaction "Decision is not in voting period").

Definition validate_no_duplicate_vote (s : State) (voter : Address) (period : Z) (id : DecisionId)
  : result Error unit :=
  bail_if (bool_decide (is_Some (get_vote (s_voting s) period voter id)))
    (InvalidTransaction "Duplicate vote: voter already voted on this decision in this period").

(** The voter owns an input or signed as the actor. *)
Definition validate_voter_proof (tx : FilledTransaction) (voter : Address) : result Error unit :=
  bail_if (negb (has_input_of tx voter) && negb (has_actor_proof tx voter))
    (InvalidTransaction "No proof of voter identity").

Definition validate_vote_submission (s : State) (tx : FilledTransaction) : result Error unit :=
  v ← ok_or (submit_vote tx) (InvalidTransaction "Not a vote submission transaction");
  _ ← validate_voter_proof tx (sv_voter v);
  _ ← validate_voter_eligibility s (sv_voter v);
  id ← decision_id_of_bytes (sv_decision_id_bytes v);
  d ← validate_decision_entry s id;
  _ ← validate_vote_value d (sv_vote_value v);
  _ ← validate_voting_period s id;
  validate_no_duplicate_vote s (sv_voter v) (voting_period id) id.

(** One item of a ballot; the accumulator is the set of votes seen. *)
Definition validate_ballot_item (s : State) (voter : Address) (seen : gset (Z * DecisionId))
  (item : BallotItem) : result Error (gset (Z * DecisionId)) :=
  id ← decision_id_of_bytes (bi_decision_id_bytes item);
  let period := voting_period id in
  if bool_decide ((period, id) ∈ seen)
  then Err (InvalidTransaction "Ballot item: duplicate vote for decision") else
  d ← validate_decision_entry s id;
  _ ← validate_vote_value d (bi_vote_value item);
  _ ← validate_voting_period s id;
  _ ← validate_no_duplicate_vote s voter period id;
  Ok ({[ (period, id) ]} ∪ seen).

Definition validate_ballot (s : State) (tx : FilledTransaction) : result Error unit :=
  b ← ok_or (submit_ballot tx) (InvalidTransaction "Not a ballot submission transaction");
  _ ← validate_voter_proof tx (sb_voter b);
  _ ← validate_voter_eligibility s (sb_voter b);
  _ ← try_fold (validate_ballot_item s (sb_voter b)) ∅ (sb_votes b);
  Ok tt.

Definition validate_reputation_transfer (s : State) (tx : FilledTransaction) : result Error unit :=
  t ← ok_or (transfer_reputation tx) (InvalidTransaction "Not a reputation transfer transaction");
  _ ← bail_if (negb (has_input_of tx (tr_sender t)))
        (InvalidTransaction "Reputation transfer must spend a Bitcoin UTXO owned by the sender");
  _ ← bail_if (f64_le (tr_amount t) f64_zero) (InvalidTransaction "Transfer amount must be positive");
  _ ← bail_if (negb (is_finite (tr_amount t))) (InvalidTransaction "Transfer amount must be a finite number");
  _ ← bail_if (negb (f64_eq (tr_amount t) (round_reputation (tr_amount t))))
        (InvalidTransaction "Transfer amount exceeds reputation precision");
  _ ← bail_if (bool_decide (tr_sender t = tr_dest t)) (InvalidTransaction "Cannot transfer reputation to self");
  bail_if (f64_lt (get_reputation (s_reputation s) (tr_sender t)) (tr_amount t))
    (InvalidTransaction "Insufficient reputation").

Definition validate_decision_in_period (period : VotingPeriod) (id : DecisionId) : result Error unit :=
  bail_if (negb (bool_decide (id ∈ decision_ids period)))
    (InvalidTransaction "Decision not available in period").

(** ** Transactions and blocks *)

Definition is_withdrawal (o : FilledOutput) : bool :=
  match out_content o with FBitcoinWithdrawal _ => true | _ => false end.

(** The decision ids a transaction claims, in order. *)
Definition claimed_ids_of (data : option TransactionData) : list bytes :=
  let payloads := match data with
                  | Some (ClaimDecision payload) => [payload]
                  | Some (CreateMarket _ _ _ new_claims _ _ _ _) => new_claims
                  | _ => []
                  end in
  flat_map (fun p => map dce_decision_id_bytes (cdp_decisions p)) payloads.

Definition claim_once (seen : gset bytes) (id : bytes) : result Error (gset bytes) :=
  if bool_decide (id ∈ seen) then Err (DuplicateDecisionClaim id) else Ok ({[id]} ∪ seen).

Definition check_duplicate_decision_claims (txs : list Transaction) : result Error unit :=
  _ ← try_fold (fun seen tx => try_fold claim_once seen (claimed_ids_of (tx_data tx))) ∅ txs;
  Ok tt.

(** [windows(2).any(|w| w[0] == w[1])]. *)
Fixpoint adjacent_equal (l : list bytes) : bool :=
  match l with
  | a :: (b :: _) as l' => bool_decide (a = b) || adjacent_equal l'
  | _ => false
  end.

Definition has_double_spend (txs : list FilledTransaction) : bool :=
  let keys := flat_map (fun tx => map from_outpoint (tx_inputs (transaction tx))) txs in
  adjacent_equal (sort_by bytes_cmp keys).

Definition MAX_SIZE : Z := 8 * 1024 * 1024.

Record PrevalidatedBlock : Type := {
  pb_filled_transactions : list FilledTransaction;
  pb_computed_merkle_root : bytes;
  pb_coinbase_value : Z;
  pb_next_height : Z
}.

Section BlockValidator.
Context {AM : BitcoinAmount} {BH : BodyHashes} {PH : PowHashes} {VE : ValidationEnv}.

Definition amount_err {A} (c : result AmountOverflowError A) : result Error A :=
  map_err (fun _ => AmountOverflowed) c.

Definition validate_filled_transaction (s : State) (a : Archive) (tx : FilledTransaction)
  (override_height : option Z) : result Error Z :=
  _ ← try_fold (fun _ e => bail_if (is_withdrawal e.2) (SpendWithdrawalOutput e.1)) tt (spent_inputs tx);
  _ ← (if is_claim_decision tx then validate_complete_decision_claim s tx override_height else Ok tt);
  _ ← (if is_create_market tx then validate_market_creation s tx override_height else Ok tt);
  if is_trade tx then (_ ← validate_trade s a tx; Ok Trading.TRADE_MINER_FEE_SATS) else
  if is_amplify_beta tx then (_ ← validate_amplify_beta s tx; Ok Trading.TRADE_MINER_FEE_SATS) else
  _ ← (if is_submit_vote tx then validate_vote_submission s tx else Ok tt);
  _ ← (if is_submit_ballot tx then validate_ballot s tx else Ok tt);
  _ ← (if is_transfer_reputation tx then validate_reputation_transfer s tx else Ok tt);
  o ← amount_err (bitcoin_fee tx);
  ok_or o NotEnoughValueIn.

Definition with_actor (tx : FilledTransaction) (actor : option Address) : FilledTransaction :=
  {| transaction := transaction tx; spent_utxos := spent_utxos tx; actor_address := actor |}.

(** Each authorization is by the owner of the output it spends. *)
Definition check_authorizations (auths : list Authorization) (spent : list FilledOutput) : result Error unit :=
  bail_if (negb (forallb (fun e => bool_decide (auth_address e.1 = out_address e.2)) (zip auths spent)))
    WrongPubKeyForAddress.

Definition validate_transaction (s : State) (a : Archive) (t : AuthorizedTransaction) : result Error Z :=
  tx ← fill_transaction (s_utxos s) (at_transaction t);
  let tx := with_actor tx (auth_address <$> at_actor_proof t) in
  _ ← bail_if (negb (length (at_authorizations t) =? length (spent_utxos tx))%nat) AuthorizationError;
  _ ← check_authorizations (at_authorizations t) (spent_utxos tx);
  _ ← map_err (fun _ => AuthorizationError) (verify_transaction_auth mac_key t);
  validate_filled_transaction s a tx None.

(** The coinbase value, output by output. *)
Definition coinbase_value (outputs : list Output) : result Error Z :=
  ok_or (amount_checked_sum (map output_bitcoin_value outputs)) AmountOverflowed.

Definition fill_body (s : State) (body : Body) : result Error (list FilledTransaction) :=
  txs ← try_map (fill_transaction (s_utxos s)) (transactions body);
  Ok (map (fun e => with_actor e.2 (auth_address <$> (mjoin (actor_proofs body !! Z.to_nat e.1)))) (enumerate 0 txs)).

Definition prevalidate (s : State) (a : Archive) (header : Header) (body : Body)
  : result Error PrevalidatedBlock :=
  _ ← bail_if (MAX_SIZE <? body_size body) BodyTooLarge;
  _ ← bail_if (negb (bool_decide (prev_side_hash header = s_tip s)))
        (InvalidHeaderPrevSideHash (s_tip s) (prev_side_hash header));
  let root := compute_merkle_root (coinbase body) (transactions body) in
  _ ← bail_if (negb (bool_decide (root = merkle_root header))) (InvalidBody (merkle_root header) root);
  let next_height := match s_height s with Some h => as_u32 (h + 1) | None => 0 end in
  value ← coinbase_value (cb_outputs (coinbase body));
  filled ← fill_body s body;
  _ ← bail_if (has_double_spend filled) UtxoDoubleSpent;
  _ ← check_duplicate_decision_claims (transactions body);
  _ ← try_fold (fun _ tx => _ ← validate_filled_transaction s a tx (Some next_height); Ok tt) tt filled;
  let total_inputs := length (flat_map tx_inputs (transactions body)) in
  _ ← bail_if (negb (length (authorizations body) =? total_inputs)%nat) AuthorizationError;
  _ ← check_authorizations (authorizations body) (flat_map spent_utxos filled);
  _ ← map_err (fun _ => AuthorizationError) (verify_body_auth mac_key body);
  Ok {| pb_filled_transactions := filled; pb_computed_merkle_root := root;
        pb_coinbase_value := value; pb_next_height := next_height |}.

Definition validate_coinbase_outputs (outputs : list Output) : result Error unit :=
  bail_if (existsb (fun o => match out_content o with CMarketFunds _ _ _ => true | _ => false end) outputs)
    BadCoinbaseOutputContent.

(** The fee a transaction leaves to the coinbase. *)
Definition miner_fee (tx : FilledTransaction) : result Error Z :=
  if is_trade tx || is_amplify_beta tx then Ok Trading.TRADE_MINER_FEE_SATS else
  o ← amount_err (bitcoin_fee tx);
  ok_or o NotEnoughValueIn.

Definition add_fee (skipped : gset Z) (total : Z) (e : Z * FilledTransaction) : result Error Z :=
  if bool_decide (e.1 ∈ skipped) then Ok total else
  fee ← miner_fee e.2;
  ok_or (amount_checked_add total fee) AmountOverflowed.

Definition validate_fees (value : Z) (txs : list FilledTransaction) (skipped : gset Z) : result Error unit :=
  total ← try_fold (add_fee skipped) 0 (enumerate 0 txs);
  bail_if (total <? value) NotEnoughFees.

End BlockValidator.
