(* ===== verification/BlockUpdate.v ===== *)
(** * The effects of the transactions of a block

    Model of the first half of src/lib/state/block.rs: [StateUpdate], which
    collects the effects of market transactions and applies them at the end of
    the block, and the handlers [apply_trade], [apply_market_creation],
    [apply_decision_claim], [apply_submit_vote], [apply_submit_ballot],
    [apply_transfer_reputation] and [apply_amplify_beta].  A handler that fails
    returns no state: the write transaction is dropped. *)

From stdpp Require Import base numbers list strings gmap.
From S2P Require Import Prelude Float64 SafeMath MarketMath StateErrors DecisionTypes Periods Pricing DecisionsDb.
From S2P Require Import Markets Transactions TwoWayPeg Bodies Archive Voting Oracle MarketsDb TxPow StateModel Validation.

(** ** Parameters *)

(** What the block code takes from external crates: the hashes behind derived
    outpoints and addresses, the transcendental functions, the sum of the array
    crate, the linear algebra of the oracle, and the order in which a [HashMap] is visited, which is
    some order of its entries. *)
Class BlockEnv : Type := {
  sell_payout_hash : MarketId → Address → Txid → bytes;
  buy_change_hash : MarketId → Address → Txid → bytes;
  sell_input_change_hash : Address → Txid → bytes;
  share_payout_hash : MarketId → Address → Z → Z → bytes;
  generate_market_treasury_address : MarketId → Address;
  generate_market_author_fee_address : MarketId → Address;
  coinbase_txid : Header → bytes;
  f64_exp : f64 → f64;
  f64_ln : f64 → f64;
  array_sum : list f64 → f64;
  block_algebra :: LinearAlgebra;
  block_columns :: ColumnOrder;
  market_iter : ∀ V : Type, gmap MarketId V → list (MarketId * V);
  market_iter_perm V (m : gmap MarketId V) : market_iter V m ≡ₚ map_to_list m;
  account_iter : gmap (Address * MarketId) (gmap Z Z) → list (Address * MarketId * gmap Z Z);
  account_iter_perm m : account_iter m ≡ₚ map_to_list m;
  outcome_iter : gmap Z Z → list (Z * Z);
  outcome_iter_perm m : outcome_iter m ≡ₚ map_to_list m
}.
Arguments market_iter {_ V}.

(** ** The update of a block *)

Record MarketStateUpdate : Type := {
  mu_market_id : MarketId;
  mu_share_delta : option (Z * Z);
  mu_transaction_id : option bytes;
  mu_volume_sats : option Z;
  mu_fee_sats : option Z
}.

Record PendingSellPayout : Type := {
  sp_market : MarketId;
  sp_seller_address : Address;
  sp_payout : Z;
  sp_fee_sats : Z;
  sp_outcome : Z;
  sp_transaction_id : bytes
}.

Record PendingBuySettlement : Type := {
  bs_market_id : MarketId;
  bs_trader_address : Address;
  bs_input_value_sats : Z;
  bs_lmsr_cost_sats : Z;
  bs_market_fee_sats : Z;
  bs_transaction_id : bytes;
  bs_is_amplify : bool
}.

Inductive TradeApplyResult : Type := Applied | Skipped (reason : string).

Record StateUpdate : Type := {
  up_market_updates : list MarketStateUpdate;
  up_market_creations : list Market;
  up_share_account_changes : gmap (Address * MarketId) (gmap Z Z);
  up_vote_submissions : list Vote;
  up_pending_sell_payouts : list PendingSellPayout;
  up_pending_buy_settlements : list PendingBuySettlement;
  up_pending_sell_input_changes : list (Address * Z * bytes)
}.

Definition StateUpdate_new : StateUpdate :=
  {| up_market_updates := []; up_market_creations := []; up_share_account_changes := ∅;
     up_vote_submissions := []; up_pending_sell_payouts := []; up_pending_buy_settlements := [];
     up_pending_sell_input_changes := [] |}.

Definition add_market_update (u : StateUpdate) (x : MarketStateUpdate) : StateUpdate :=
  {| up_market_updates := up_market_updates u ++ [x]; up_market_creations := up_market_creations u;
     up_share_account_changes := up_share_account_changes u; up_vote_submissions := up_vote_submissions u;
     up_pending_sell_payouts := up_pending_sell_payouts u;
     up_pending_buy_settlements := up_pending_buy_settlements u;
     up_pending_sell_input_changes := up_pending_sell_input_changes u |}.
Definition add_market_creation (u : StateUpdate) (m : Market) : StateUpdate :=
  {| up_market_updates := up_market_updates u; up_market_creations := up_market_creations u ++ [m];
     up_share_account_changes := up_share_account_changes u; up_vote_submissions := up_vote_submissions u;
     up_pending_sell_payouts := up_pending_sell_payouts u;
     up_pending_buy_settlements := up_pending_buy_settlements u;
     up_pending_sell_input_changes := up_pending_sell_input_changes u |}.
Definition add_share_account_change (u : StateUpdate) (a : Address) (id : MarketId)
  (outcome delta : Z) : StateUpdate :=
  let changes := default ∅ (up_share_account_changes u !! (a, id)) in
  let changes := <[outcome := as_i64 (default 0 (changes !! outcome) + delta)]> changes in
  {| up_market_updates := up_market_updates u; up_market_creations := up_market_creations u;
     up_share_account_changes := <[(a, id) := changes]> (up_share_account_changes u);
     up_vote_submissions := up_vote_submissions u;
     up_pending_sell_payouts := up_pending_sell_payouts u;
     up_pending_buy_settlements := up_pending_buy_settlements u;
     up_pending_sell_input_changes := up_pending_sell_input_changes u |}.
Definition add_vote_submission (u : StateUpdate) (v : Vote) : StateUpdate :=
  {| up_market_updates := up_market_updates u; up_market_creations := up_market_creations u;
     up_share_account_changes := up_share_account_changes u;
     up_vote_submissions := up_vote_submissions u ++ [v];
     up_pending_sell_payouts := up_pending_sell_payouts u;
     up_pending_buy_settlements := up_pending_buy_settlements u;
     up_pending_sell_input_changes := up_pending_sell_input_changes u |}.
Definition add_pending_sell_payout (u : StateUpdate) (p : PendingSellPayout) : StateUpdate :=
  {| up_market_updates := up_market_updates u; up_market_creations := up_market_creations u;
     up_share_account_changes := up_share_account_changes u; up_vote_submissions := up_vote_submissions u;
     up_pending_sell_payouts := up_pending_sell_payouts u ++ [p];
     up_pending_buy_settlements := up_pending_buy_settlements u;
     up_pending_sell_input_changes := up_pending_sell_input_changes u |}.
Definition add_pending_buy_settlement (u : StateUpdate) (b : PendingBuySettlement) : StateUpdate :=
  {| up_market_updates := up_market_updates u; up_market_creations := up_market_creations u;
     up_share_account_changes := up_share_account_changes u; up_vote_submissions := up_vote_submissions u;
     up_pending_sell_payouts := up_pending_sell_payouts u;
     up_pending_buy_settlements := up_pending_buy_settlements u ++ [b];
     up_pending_sell_input_changes := up_pending_sell_input_changes u |}.
Definition add_pending_sell_input_change (u : StateUpdate) (a : Address) (change : Z) (txid : bytes)
  : StateUpdate :=
  {| up_market_updates := up_market_updates u; up_market_creations := up_market_creations u;
     up_share_account_changes := up_share_account_changes u; up_vote_submissions := up_vote_submissions u;
     up_pending_sell_payouts := up_pending_sell_payouts u;
     up_pending_buy_settlements := up_pending_buy_settlements u;
     up_pending_sell_input_changes := up_pending_sell_input_changes u ++ [(a, change, txid)] |}.

(** The two loops over the created and the updated markets. *)
Definition verify_internal_consistency (u : StateUpdate) : result Error unit :=
  created ← try_fold (fun (created : gset MarketId) m =>
              if bool_decide (m_id m ∈ created)
              then Err (InvalidTransaction "Duplicate market creation") else Ok ({[m_id m]} ∪ created))
              ∅ (up_market_creations u);
  try_fold (fun _ x => bail_if (bool_decide (mu_market_id x ∈ created))
              (InvalidTransaction "Market cannot be both created and updated in same block"))
    tt (up_market_updates u).

Definition validate_all_changes (u : StateUpdate) (s : State) : result Error unit :=
  _ ← verify_internal_consistency u;
  _ ← try_fold (fun _ x => bail_if (bool_decide (get_market (s_markets s) (mu_market_id x) = None))
                 (InvalidTransaction "Market does not exist")) tt (up_market_updates u);
  try_fold (fun _ m =>
    _ ← bail_if (bool_decide (is_Some (get_market (s_markets s) (m_id m))))
          (InvalidTransaction "Market already exists");
    validate_market_shares (m_shares m)) tt (up_market_creations u).

(** [shares[i] += delta] on an array of [i64]; the index panics out of range. *)
Definition add_at (shares : list Z) (i delta : Z) : result Error (list Z) :=
  x ← ok_or (shares !! Z.to_nat i) (Panicked "outcome index out of range");
  Ok (<[Z.to_nat i := as_i64 (x + delta)]> shares).

Definition set_liquidity_base (m : Market) (sats : Z) : Market :=
  {| m_id := m_id m; m_title := m_title m; m_description := m_description m;
     m_tags := m_tags m; m_creator_address := m_creator_address m;
     m_dimension_specs := m_dimension_specs m; m_decision_ids := m_decision_ids m;
     m_state_combos := m_state_combos m; m_created_at_height := m_created_at_height m;
     m_expires_at_height := m_expires_at_height m; m_tau_from_now := m_tau_from_now m;
     m_storage_fee_sats := m_storage_fee_sats m; m_market_state := m_market_state m;
     m_trading_fee := m_trading_fee m; m_liquidity_base_sats := sats;
     m_shares := m_shares m; m_final_prices := m_final_prices m; m_version := m_version m;
     m_last_updated_height := m_last_updated_height m; m_total_volume_sats := m_total_volume_sats m;
     m_outcome_volumes_sats := m_outcome_volumes_sats m;
     m_tx_pow_hash_selector := m_tx_pow_hash_selector m;
     m_tx_pow_ordering := m_tx_pow_ordering m; m_tx_pow_difficulty := m_tx_pow_difficulty m |}.

(** ** Pricing against the running state *)

Section Apply.
Context {AM : BitcoinAmount} {BH : BodyHashes} {VE : ValidationEnv} {BE : BlockEnv}.
Implicit Types (s : State) (u : StateUpdate) (tx : FilledTransaction).

Definition txid tx : Txid := tx_txid (transaction tx).

Definition market_beta (m : Market) : f64 :=
  Trading.derive_beta_from_liquidity f64_ln (m_liquidity_base_sats m) (Z.of_nat (length (m_shares m))).

(** The share deltas of a market among the updates, in order. *)
Definition deltas_of (id : MarketId) (l : list MarketStateUpdate) : list (Z * Z) :=
  omap (fun x => if bool_decide (mu_market_id x = id) then mu_share_delta x else None) l.

Definition add_delta (shares : list Z) (d : Z * Z) : result Error (list Z) := add_at shares d.1 d.2.

(** The deposits of a market among the settlements. *)
Definition amplify_of (id : MarketId) (l : list PendingBuySettlement) : list Z :=
  map bs_lmsr_cost_sats (filter (fun b => bs_market_id b = id ∧ bs_is_amplify b = true) l).

Definition running_market_state (id : MarketId) (m : Market) u : result Error (list Z * f64) :=
  shares ← try_fold add_delta (m_shares m) (deltas_of id (up_market_updates u));
  let pending_amplify := sum_u64 (amplify_of id (up_pending_buy_settlements u)) in
  let running_base := sat_add_u64 (m_liquidity_base_sats m) pending_amplify in
  Ok (shares, Trading.derive_beta_from_liquidity f64_ln running_base (Z.of_nat (length shares))).

(** ** Trades *)

Definition lmsr_cost (from to : list Z) (beta : f64) (reason : string) : result Error f64 :=
  map_err (fun _ => InvalidTransaction reason)
    (Trading.calculate_update_cost f64_exp f64_ln from to beta).

(** A buy: the settlement and the volume and fee it records, or the reason to
    skip it. *)
Definition apply_buy (t : TradeView) (m : Market) (input_value : Z) (id : Txid)
  (effective_shares new_shares : list Z) (beta : f64) u
  : result Error (string + StateUpdate * Z * Z) :=
  base_cost ← lmsr_cost effective_shares new_shares beta "Failed to calculate trade cost";
  cost ← map_err (fun _ => InvalidTransaction "Buy cost calculation failed")
           (Trading.calculate_buy_cost base_cost (m_trading_fee m));
  if tv_limit_sats t <? as_u64 (Trading.total_cost_sats cost + Trading.TRADE_MINER_FEE_SATS)
  then Ok (inl "Buy cost plus miner fee exceeds max cost"%string) else
  Ok (inr (add_pending_buy_settlement u
             {| bs_market_id := tv_market_id t; bs_trader_address := tv_trader t;
                bs_input_value_sats := input_value; bs_lmsr_cost_sats := Trading.base_cost_sats cost;
                bs_market_fee_sats := Trading.buy_trading_fee_sats cost; bs_transaction_id := id;
                bs_is_amplify := false |},
           Trading.total_cost_sats cost, Trading.buy_trading_fee_sats cost)).

(** The shares pending for an address from earlier transactions of the block. *)
Definition pending_shares u (a : Address) (id : MarketId) (outcome : Z) : Z :=
  default 0 (changes ← up_share_account_changes u !! (a, id); changes !! outcome).

Definition apply_sell s (t : TradeView) (m : Market) (input_value : Z) (id : Txid)
  (effective_shares new_shares : list Z) (beta : f64) u
  : result Error (string + StateUpdate * Z * Z) :=
  let owned := owned_shares (s_markets s) (tv_trader t) (tv_market_id t) (tv_outcome_index t) in
  let pending := pending_shares u (tv_trader t) (tv_market_id t) (tv_outcome_index t) in
  _ ← bail_if (as_i64 (owned + pending) <? as_i64 (shares_abs t)) (InvalidTransaction "Insufficient shares");
  proceeds ← lmsr_cost new_shares effective_shares beta "Failed to calculate sell proceeds";
  sell ← map_err (fun _ => InvalidTransaction "Sell proceeds calculation failed")
           (Trading.calculate_sell_proceeds proceeds (m_trading_fee m));
  let net := Trading.net_proceeds_sats sell in
  let fee := Trading.sell_trading_fee_sats sell in
  if net <? tv_limit_sats t then Ok (inl "Sell proceeds below minimum"%string) else
  let u := add_pending_sell_payout u
             {| sp_market := tv_market_id t; sp_seller_address := tv_trader t; sp_payout := net;
                sp_fee_sats := fee; sp_outcome := tv_outcome_index t; sp_transaction_id := id |} in
  let change := sat_sub input_value Trading.TRADE_MINER_FEE_SATS in
  let u := if 0 <? change then add_pending_sell_input_change u (tv_trader t) change id else u in
  Ok (inr (u, net, fee)).

Definition apply_trade s tx u : result Error (TradeApplyResult * StateUpdate) :=
  t ← ok_or (trade tx) (InvalidTransaction "Not a trade transaction");
  m ← ok_or (get_market (s_markets s) (tv_market_id t)) (InvalidTransaction "Market does not exist");
  _ ← bail_if (negb (allows_trading (m_market_state m))) (InvalidTransaction "Cannot trade");
  '(effective_shares, beta) ← running_market_state (tv_market_id t) m u;
  new_shares ← add_at effective_shares (tv_outcome_index t) (tv_shares t);
  _ ← bail_if (match new_shares !! Z.to_nat (tv_outcome_index t) with Some q => q <? 0 | None => false end)
        (InvalidTransaction "Trade would result in negative market shares");
  input_value ← map_err (fun _ => InvalidTransaction "Failed to compute input value")
                  (spent_bitcoin_value tx);
  r ← (if is_buy t then apply_buy t m input_value (txid tx) effective_shares new_shares beta u
       else apply_sell s t m input_value (txid tx) effective_shares new_shares beta u);
  match r with
  | inl reason => Ok (Skipped reason, u)
  | inr (u, volume, fee) =>
      let u := add_market_update u
                 {| mu_market_id := tv_market_id t;
                    mu_share_delta := Some (tv_outcome_index t, tv_shares t);
                    mu_transaction_id := Some (txid tx); mu_volume_sats := Some volume;
                    mu_fee_sats := Some fee |} in
      Ok (Applied, add_share_account_change u (tv_trader t) (tv_market_id t) (tv_outcome_index t) (tv_shares t))
  end.

Definition apply_amplify_beta tx u : result Error StateUpdate :=
  amplify ← ok_or (amplify_beta tx) (InvalidTransaction "Not an amplify_beta transaction");
  input_value ← map_err (fun _ => InvalidTransaction "Failed to compute input value")
                  (spent_bitcoin_value tx);
  Ok (add_pending_buy_settlement u
        {| bs_market_id := ab_market_id amplify; bs_trader_address := ab_market_author amplify;
           bs_input_value_sats := input_value; bs_lmsr_cost_sats := ab_amount amplify;
           bs_market_fee_sats := 0; bs_transaction_id := txid tx; bs_is_amplify := true |}).

(** ** Claims and market creation *)

Definition extract_creator_address tx : result Error Address :=
  ok_or (out_address <$> head (spent_utxos tx)) (InvalidTransaction "No spent UTXOs found").

Definition claim_entry (maker : Address) (id : Txid) (height : Z) (t : DecisionType) (db : Dbs)
  (entry : DecisionClaimEntry) : result Error Dbs :=
  did ← decision_id_of_bytes (dce_decision_id_bytes entry);
  d ← decision_of_entry maker t entry;
  claim_decision db did d id (Some height).

Definition claim_payload (maker : Address) (id : Txid) (height : Z) (db : Dbs) (p : ClaimDecisionPayload)
  : result Error Dbs :=
  try_fold (claim_entry maker id height (cdp_decision_type p)) db (cdp_decisions p).

Definition apply_decision_claim s tx (height : Z) : result Error State :=
  payload ← ok_or (claim_decision_of tx) (InvalidTransaction "Not a decision claim transaction");
  maker ← extract_creator_address tx;
  db ← claim_payload maker (txid tx) height (s_decisions s) payload;
  Ok (set_s_decisions s db).

Definition unclaim_payload (db : Dbs) (p : ClaimDecisionPayload) : result Error Dbs :=
  try_fold (fun db entry =>
    did ← decision_id_of_bytes (dce_decision_id_bytes entry);
    Ok (DecisionsDb.revert_decision_claim db did)) db (cdp_decisions p).

(** [revert_decision_claim] of block.rs. *)
Definition revert_claim_transaction s tx : result Error State :=
  payload ← ok_or (claim_decision_of tx) (InvalidTransaction "Not a decision claim transaction");
  db ← unclaim_payload (s_decisions s) payload;
  Ok (set_s_decisions s db).

(** The sorted set of the tags of the decisions. *)
Definition compute_market_tags (decisions : gmap DecisionId Decision) : list string :=
  sort_by String.compare (remove_dups (flat_map (fun e => tags e.2) (map_to_list decisions))).

Definition DEFAULT_TRADING_FEE : f64 := f64_dec 5 3.

Definition gather_decision (db : Dbs) (acc : gmap DecisionId Decision) (spec : DimensionSpec)
  : result Error (gmap DecisionId Decision) :=
  entry ← ok_or (get_decision_entry db (spec_id spec)) (InvalidDecisionId "does not exist");
  d ← ok_or (decision entry) (InvalidDecisionId "has no decision");
  Ok (<[spec_id spec := d]> acc).

(** The first output that funds the treasury of the market, with its index. *)
Definition find_treasury (id : MarketId) (outputs : list Output) : option (Z * Z) :=
  head (omap (fun e => (fun amount => (e.1, amount)) <$> treasury_output id e.2) (enumerate 0 outputs)).

Definition apply_market_creation s tx u (height : Z) : result Error (State * StateUpdate) :=
  view ← ok_or (as_market_creation tx) (InvalidTransaction "Not a market creation transaction");
  creator ← extract_creator_address tx;
  db ← try_fold (claim_payload creator (txid tx) height) (s_decisions s) (mv_new_claims view);
  decisions ← try_fold (gather_decision db) ∅ (mv_dimension_specs view);
  m ← map_err (fun _ => InvalidTransaction "Market creation failed")
        (build_market compute_market_id (mv_title view) (mv_description view) (compute_market_tags decisions)
           creator (Some (mv_dimension_specs view)) (default DEFAULT_TRADING_FEE (mv_trading_fee view))
           height None decisions (default 0 (mv_tx_pow_hash_selector view))
           (default 0 (mv_tx_pow_ordering view)) (default 0 (mv_tx_pow_difficulty view)));
  let s := set_s_decisions s db in
  match find_treasury (m_id m) (tx_outputs (transaction tx)) with
  | Some (vout, amount) =>
      Ok (set_s_markets s (set_market_funds_utxo (s_markets s) (m_id m) false (OpRegular (txid tx) (as_u32 vout))),
          add_market_creation u (set_liquidity_base m amount))
  | None => Ok (s, add_market_creation u m)
  end.

Definition revert_create_market s tx : result Error State :=
  view ← ok_or (as_market_creation tx) (InvalidTransaction "Not a market creation transaction");
  creator ← extract_creator_address tx;
  let id := compute_market_id (mv_title view) (mv_description view) creator (mv_dimension_specs view) in
  let s := set_s_markets s (delete_market (s_markets s) id).2 in
  db ← try_fold unclaim_payload (s_decisions s) (mv_new_claims view);
  Ok (set_s_decisions s db).

(** ** Votes and reputation *)

Definition vote_of s (voter : Address) (id : DecisionId) (value : f64) (timestamp height : Z) (hash : Txid) : Vote :=
  let d := e ← get_decision_entry (s_decisions s) id; decision e in
  {| v_voter_address := voter; v_period_id := voting_period id; v_decision_id := id;
     v_value := convert_vote_value_with_decision value d; v_timestamp := timestamp;
     v_block_height := height; v_tx_hash := hash |}.

Definition apply_submit_vote s tx u (height : Z) : result Error StateUpdate :=
  v ← ok_or (submit_vote tx) (InvalidTransaction "Not a vote submission transaction");
  id ← decision_id_of_bytes (sv_decision_id_bytes v);
  _ ← bail_if (negb (sv_voting_period v =? voting_period id)) (InvalidTransaction "Vote period mismatch");
  timestamp ← ok_or (s_mainchain_timestamp s) (InvalidTransaction "No mainchain timestamp available");
  Ok (add_vote_submission u (vote_of s (sv_voter v) id (sv_vote_value v) timestamp height (txid tx))).

(** One item of a ballot; the accumulator carries the period of the first. *)
Definition apply_ballot_item s (voter : Address) (ballot_period timestamp height : Z) (hash : Txid)
  (acc : option Z * StateUpdate) (item : BallotItem) : result Error (option Z * StateUpdate) :=
  let '(expected, u) := acc in
  id ← decision_id_of_bytes (bi_decision_id_bytes item);
  let period := voting_period id in
  _ ← match expected with
      | Some e => bail_if (negb (period =? e)) (InvalidTransaction "Ballot period mismatch")
      | None => bail_if (negb (ballot_period =? period)) (InvalidTransaction "Ballot period mismatch")
      end;
  Ok (Some (default period expected),
      add_vote_submission u (vote_of s voter id (bi_vote_value item) timestamp height hash)).

Definition apply_submit_ballot s tx u (height : Z) : result Error StateUpdate :=
  b ← ok_or (submit_ballot tx) (InvalidTransaction "Not a ballot submission transaction");
  timestamp ← ok_or (s_mainchain_timestamp s) (InvalidTransaction "No mainchain timestamp available");
  '(_, u) ← try_fold (apply_ballot_item s (sb_voter b) (sb_voting_period b) timestamp height (txid tx))
              (None, u) (sb_votes b);
  Ok u.

Definition retract_vote (voter : Address) (db : VotingDatabases) (id_bytes : bytes)
  : result Error VotingDatabases :=
  id ← decision_id_of_bytes id_bytes;
  Ok (delete_vote db (voting_period id) voter id).

Definition revert_submit_vote s tx : result Error State :=
  v ← ok_or (submit_vote tx) (InvalidTransaction "Not a vote submission transaction");
  db ← retract_vote (sv_voter v) (s_voting s) (sv_decision_id_bytes v);
  Ok (set_s_voting s db).

Definition revert_submit_ballot s tx : result Error State :=
  b ← ok_or (submit_ballot tx) (InvalidTransaction "Not a ballot submission transaction");
  db ← try_fold (retract_vote (sb_voter b)) (s_voting s) (map bi_decision_id_bytes (sb_votes b));
  Ok (set_s_voting s db).

Definition apply_transfer_reputation s tx (height : Z) : result Error State :=
  t ← ok_or (transfer_reputation tx) (InvalidTransaction "Not a reputation transfer transaction");
  let sender_rep := get_reputation (s_reputation s) (tr_sender t) in
  _ ← bail_if (f64_lt sender_rep (tr_amount t)) (InvalidTransaction "Insufficient reputation at apply");
  let receiver_rep := get_reputation (s_reputation s) (tr_dest t) in
  let entry := {| rt_sender := tr_sender t; rt_sender_pre_reputation := sender_rep;
                  rt_receiver := tr_dest t; rt_receiver_pre_reputation := receiver_rep |} in
  let undo := default [] (s_reputation_transfer_undo s !! height) ++ [entry] in
  let s := set_s_reputation_transfer_undo s (<[height := undo]> (s_reputation_transfer_undo s)) in
  let reps := set_reputation (s_reputation s) (tr_sender t) (f64_sub sender_rep (tr_amount t)) in
  Ok (set_s_reputation s (set_reputation reps (tr_dest t) (f64_add receiver_rep (tr_amount t)))).

(** One entry of the reversal of transfers. *)
Definition revert_transfer (reps : Reputations) (e : ReputationTransferUndoEntry) : Reputations :=
  set_reputation (set_reputation reps (rt_sender e) (rt_sender_pre_reputation e))
    (rt_receiver e) (rt_receiver_pre_reputation e).

Definition revert_amplify_beta s tx : result Error State :=
  amplify ← ok_or (amplify_beta tx) (InvalidTransaction "Not an amplify_beta transaction");
  m ← ok_or (get_market (s_markets s) (ab_market_id amplify))
        (InvalidTransaction "Market not found during amplify_beta revert");
  base ← ok_or (checked_sub (m_liquidity_base_sats m) (ab_amount amplify))
           (InvalidTransaction "Liquidity base underflow during amplify_beta revert");
  db ← update_market (s_markets s) (set_liquidity_base m base);
  Ok (set_s_markets s db).

End Apply.
