(* ===== verification/ValidationFacts.v ===== *)
(** * What validation guarantees

    The checks on a whole block are exact: the sorted-neighbours test finds every
    double spend and the running set every duplicate claim.  A ballot
    that passes is stored as votes within the range of their decisions, and
    never overwrites a vote. *)

From stdpp Require Import base numbers list strings gmap sorting.
From S2P Require Import Prelude Float64 SafeMath MarketMath StateErrors DecisionTypes Periods Pricing DecisionsDb.
From S2P Require Import Markets Transactions TwoWayPeg Bodies Archive Voting MarketsDb TxPow StateModel Validation.
From S2P Require Import BlockUpdate.

(** ** Double spends *)

Section DoubleSpend.

Lemma lex_cmp_antisym (l k : list Z) :
  lex_cmp Z.compare l k ≠ Gt → lex_cmp Z.compare k l ≠ Gt → l = k.
Proof.
  revert k. induction l as [|a l IH]; intros [|b k]; simpl; try done. unfold then_cmp.
  destruct (Z.compare_spec a b), (Z.compare_spec b a); try done; try lia. intros ? ?. f_equal; [done|by apply IH].
Qed.

Lemma adjacent_sorted (l : list bytes) :
  StronglySorted (le_cmp bytes_cmp) l → adjacent_equal l = false ↔ NoDup l.
Proof.
  induction 1 as [|x l Hl IH Hx]; [split; [constructor|done]|]. destruct l as [|y l].
  { split; [intros _; apply NoDup_singleton|done]. }
  change (adjacent_equal (x :: y :: l)) with (bool_decide (x = y) || adjacent_equal (y :: l)).
  rewrite orb_false_iff, IH, (NoDup_cons x), bool_decide_eq_false. split; intros [Hn Hd]; (split; [|done]).
  - intros [->|Hin]%elem_of_cons; [done|]. apply Hn. apply lex_cmp_antisym.
    + apply Forall_cons in Hx as [Hxy _]. exact Hxy.
    + apply StronglySorted_inv in Hl as [_ Hy]. by eapply Forall_forall in Hy.
  - intros ->. apply Hn. apply list_elem_of_here.
Qed.

(** The keys of all the inputs of the transactions. *)
Definition spent_keys (txs : list FilledTransaction) : list bytes :=
  flat_map (fun tx => map from_outpoint (tx_inputs (transaction tx))) txs.

(** Claiming ids one after the other succeeds when none repeats. *)
Lemma claim_all (seen : gset bytes) ids :
  (∃ s, try_fold claim_once seen ids = Ok s) ↔ NoDup ids ∧ Forall (fun id => id ∉ seen) ids.
Proof.
  revert seen. induction ids as [|id ids IH]; intros seen; simpl; [split; [by repeat constructor|by eexists]|].
  unfold claim_once at 1. rewrite NoDup_cons, Forall_cons. case_bool_decide as Hin; simpl.
  { split; [by intros [? ?]|by intros [_ [? _]]]. }
  rewrite IH. split.
  - intros [Hnd Hf]. rewrite Forall_forall in Hf. split_and!; [|done|done|].
    + intros Hid%Hf. set_solver.
    + apply Forall_forall. intros x Hx%Hf. set_solver.
  - intros [[Hn Hnd] [_ Hf]]. split; [done|]. rewrite Forall_forall in *. intros x Hx. specialize (Hf x Hx). set_solver.
Qed.

Lemma try_fold_flat {A B S E} (f : S → B → result E S) (g : A → list B) s l :
  try_fold (fun s a => try_fold f s (g a)) s l = try_fold f s (flat_map g l).
Proof.
  revert s. induction l as [|a l IH]; intros s; simpl; [done|]. rewrite try_fold_app.
  destruct (try_fold f s (g a)); simpl; [apply IH|done].
Qed.

(** The two block-wide checks are exact.  The sorted-neighbours test
    reports a double spend exactly when two inputs of the block have the same
    outpoint key, and the claim check passes exactly when no decision is claimed
    twice, whether by a claim or inside a market creation. *)
Theorem block_duplicates_exact (txs : list FilledTransaction) (ts : list Transaction) :
  (has_double_spend txs = true ↔ ¬ NoDup (spent_keys txs)) ∧
  (check_duplicate_decision_claims ts = Ok tt ↔ NoDup (flat_map (fun t => claimed_ids_of (tx_data t)) ts)).
Proof.
  split.
  - unfold has_double_spend. fold (spent_keys txs).
    pose proof (adjacent_sorted _ (sort_by_sorted bytes_cmp (spent_keys txs))) as Ha.
    rewrite (sort_by_perm bytes_cmp (spent_keys txs)) in Ha at 2.
    destruct (adjacent_equal _); split; naive_solver.
  - unfold check_duplicate_decision_claims. rewrite try_fold_flat.
    pose proof (claim_all ∅ (flat_map (fun t => claimed_ids_of (tx_data t)) ts)) as Hc.
    split.
    + intros H. inv_ok. apply Hc. by eexists.
    + intros Hnd. destruct (proj2 Hc) as [s ->]; [|done]. split; [done|]. apply Forall_true. set_solver.
Qed.

End DoubleSpend.

(** ** Ballots *)

Section Ballots.
Context {AM : BitcoinAmount} {BH : BodyHashes}.
Implicit Types (s : State) (tx : FilledTransaction) (u : StateUpdate).

(** The vote stored for the value [x] of a ballot.  No number abstains.  On a
    category the value is the index of an option, or the number of options for
    an inconclusive vote; the index is a [u16].  On any other decision the value
    is in the unit interval, and is stored as binary when it is zero or one,
    whether the decision is binary or scaled. *)
Definition vote_typed (d : Decision) (x : f64) (v : VoteValue) : Prop :=
  if is_nan x then v = VAbstain else
  if is_categorical d then
    ∃ i count, option_count d = Some count ∧ v = VCategorical i ∧ 0 ≤ i ≤ count ∧
      (count ≤ U16_MAX → f64_eq x (f64_of_Z i) = true)
  else f64_le f64_zero x = true ∧ f64_le x f64_one = true ∧
       v = if f64_eq x f64_one then VBinary true else if f64_eq x f64_zero then VBinary false else VScalar x.

(** The index of a checked value is in range, and is the value. *)
Lemma category_index x c :
  f64_valid x = true → f64_ge x f64_zero = true → f64_eq x (f64_of_Z (f64_as_usize x)) = true →
  f64_le x (f64_of_Z c) = true → 0 ≤ c →
  let i := f64_as_u16 (f64_round x) in 0 ≤ i ≤ c ∧ (c ≤ U16_MAX → f64_eq x (f64_of_Z i) = true).
Proof.
  intros Hv H0 He Hle Hc i. unfold f64_as_usize, f64_as_u64 in He.
  pose proof (f64_cast_range 0 U16_MAX (f64_round x) ltac:(lia)) as Hi. fold (f64_as_u16 (f64_round x)) in Hi. fold i in Hi.
  destruct (Z.le_gt_cases (2 ^ 53) c) as [Hbig|Hsmall]; [split; lia|].
  pose proof (cast_le_int x c Hv H0 Hle ltac:(lia)) as Hk. pose proof (f64_cast_range 0 U64_MAX x ltac:(lia)) as [Hk0 _].
  set (k := f64_cast 0 U64_MAX x) in *.
  assert (i = Z.max 0 (Z.min U16_MAX k)) as ->.
  { apply cast_round_int; [done| |lia]. eapply int_repr_eq; [exact He|]. apply f64_of_Z_int_repr. lia. }
  split; [lia|]. intros Hcu. by replace (Z.max 0 (Z.min U16_MAX k)) with k by lia.
Qed.

Lemma converted_typed d x :
  f64_valid x = true → validate_vote_value d x = Ok tt →
  vote_typed d x (convert_vote_value_with_decision x (Some d)).
Proof.
  unfold validate_vote_value, convert_vote_value_with_decision, vote_typed. intros Hv. destruct (is_nan x); [done|].
  destruct (is_categorical d) eqn:Ed; simpl; intros H; inv_ok.
  - match goal with H : negb _ = false |- _ => apply negb_false_iff, andb_true_iff in H as [[H0 He]%andb_true_iff Hle] end.
    assert (∃ c, option_count d = Some c ∧ 0 ≤ c) as (c & Hoc & Hc).
    { unfold is_categorical in Ed. unfold option_count. destruct (decision_type d); try done. eexists. split; [done|lia]. }
    rewrite Hoc in *. simpl in Hle. exists (f64_as_u16 (f64_round x)), c.
    split; [done|]. split; [done|]. by apply category_index.
  - match goal with H : negb _ = false |- _ => apply negb_false_iff, andb_true_iff in H as [H0 H1] end.
    split_and!; [done|done|]. by destruct (f64_eq x f64_one), (f64_eq x f64_zero).
Qed.

(** What a vote of [voter] stored for the value [x] must satisfy in the state it
    was checked in. *)
Definition vote_checked s (voter : Address) (x : f64) (v : Vote) : Prop :=
  v_voter_address v = voter ∧ v_period_id v = voting_period (v_decision_id v) ∧
  get_vote (s_voting s) (v_period_id v) voter (v_decision_id v) = None ∧
  is_decision_in_voting (s_decisions s) (v_decision_id v) = true ∧
  ∃ e d, get_decision_entry (s_decisions s) (v_decision_id v) = Some e ∧ decision e = Some d ∧ vote_typed d x (v_value v).

(** The vote is that of the item. *)
Definition item_vote s (voter : Address) (item : BallotItem) (v : Vote) : Prop :=
  decision_id_of_bytes (bi_decision_id_bytes item) = Ok (v_decision_id v) ∧ vote_checked s voter (bi_vote_value item) v.

Lemma ballot_item_spec s voter p ts h hash seen item seen' acc acc' :
  f64_valid (bi_vote_value item) = true → validate_ballot_item s voter seen item = Ok seen' →
  apply_ballot_item s voter p ts h hash acc item = Ok acc' →
  ∃ v, acc'.2 = add_vote_submission acc.2 v ∧ item_vote s voter item v ∧
    (voting_period (v_decision_id v), v_decision_id v) ∉ seen ∧
    seen' = {[ (voting_period (v_decision_id v), v_decision_id v) ]} ∪ seen.
Proof.
  unfold validate_ballot_item, apply_ballot_item. destruct acc as [e u]. intros Hval Hv Ha. inv_ok. simplify_eq.
  cbn [mbind result_bind] in Hv. case_bool_decide as Hseen; [discriminate|].
  unfold validate_decision_entry, validate_voting_period, validate_no_duplicate_vote in Hv.
  destruct (get_decision_entry _ a) as [en|] eqn:Een; cbn [ok_or mbind result_bind] in Hv; [|discriminate].
  destruct (decision en) as [d|] eqn:Ed; cbn [ok_or mbind result_bind] in Hv; [|discriminate]. inv_ok.
  eexists. split; [done|]. unfold item_vote, vote_checked, vote_of. simpl. rewrite Een. simpl. rewrite Ed.
  match goal with H : validate_vote_value _ _ = Ok ?x |- _ => destruct x end.
  split_and!; try done.
  - match goal with H : bool_decide (is_Some _) = false |- _ => by apply bool_decide_eq_false, eq_None_not_Some in H end.
  - match goal with H : negb (is_decision_in_voting _ _) = false |- _ => by apply negb_false_iff in H end.
  - eexists _, _. split_and!; [done..|]. by apply converted_typed.
Qed.

Lemma ballot_items_spec s voter p ts h hash items seen seen' acc acc' :
  Forall (fun item => f64_valid (bi_vote_value item) = true) items →
  try_fold (validate_ballot_item s voter) seen items = Ok seen' →
  try_fold (apply_ballot_item s voter p ts h hash) acc items = Ok acc' →
  ∃ vs, acc'.2 = foldl add_vote_submission acc.2 vs ∧ Forall2 (item_vote s voter) items vs ∧
    NoDup (map v_decision_id vs) ∧
    Forall (fun v => (voting_period (v_decision_id v), v_decision_id v) ∉ seen) vs.
Proof.
  intros Hval. revert seen acc. induction Hval as [|item items Hx _ IH]; intros seen acc Hv Ha.
  { simplify_eq/=. exists []. split_and!; by constructor. }
  cbn [try_fold] in *. destruct (validate_ballot_item _ _ _ _) as [seen1|] eqn:Ev; [|discriminate].
  destruct (apply_ballot_item _ _ _ _ _ _ _ _) as [acc1|] eqn:Ea; [|discriminate].
  destruct (ballot_item_spec _ _ _ _ _ _ _ _ _ _ _ Hx Ev Ea) as (v & Hu & Hc & Hn & ->).
  destruct (IH _ _ Hv Ha) as (vs & Hu' & Hcs & Hnd & Hseen).
  exists (v :: vs). rewrite Hu', Hu. split_and!; [done|by constructor| |].
  - simpl. constructor; [|done]. intros (v' & Heq & Hin)%list_elem_of_fmap. rewrite Forall_forall in Hseen.
    apply (Hseen v' Hin). rewrite <- Heq. set_solver.
  - constructor; [done|]. eapply Forall_impl; [exact Hseen|]. set_solver.
Qed.

Lemma add_votes_submissions vs u :
  up_vote_submissions (foldl add_vote_submission u vs) = up_vote_submissions u ++ vs.
Proof.
  revert u. induction vs as [|v vs IH]; intros u; simpl; [by rewrite app_nil_r|]. rewrite IH. simpl. by rewrite <- app_assoc.
Qed.

(** Putting fresh votes and deleting them in the same order. *)
Lemma delete_put_vote db v vs voter :
  v_voter_address v = voter → v_period_id v = voting_period (v_decision_id v) →
  v_decision_id v ∉ map v_decision_id vs → Forall (fun w => v_voter_address w = voter) vs →
  get_vote db (v_period_id v) voter (v_decision_id v) = None →
  delete_vote (foldl put_vote (put_vote db v) vs) (voting_period (v_decision_id v)) voter (v_decision_id v)
  = foldl put_vote db vs.
Proof.
  intros <- Hp Hn Hw Hf. revert db Hf. induction vs as [|w vs IH]; intros db Hf; simpl.
  - unfold delete_vote, put_vote, get_vote in *. rewrite <- Hp. simpl. destruct db as [m b o st]. simpl in *.
    unfold set_votes. simpl. by rewrite delete_insert_id.
  - apply not_elem_of_cons in Hn as [Hne Hn]. apply Forall_cons in Hw as [Hwa Hw].
    assert (put_vote (put_vote db v) w = put_vote (put_vote db w) v) as ->.
    { unfold put_vote, set_votes. simpl. f_equal. apply insert_insert_ne. intros [= _ ?]. congruence. }
    apply (IH Hn Hw). unfold get_vote, put_vote in *. simpl. rewrite lookup_insert_ne; [done|].
    intros [= _ ?]. congruence.
Qed.

Lemma retract_all s voter items vs db :
  Forall2 (item_vote s voter) items vs → NoDup (map v_decision_id vs) →
  Forall (fun v => get_vote db (v_period_id v) voter (v_decision_id v) = None) vs →
  try_fold (retract_vote voter) (foldl put_vote db vs) (map bi_decision_id_bytes items) = Ok db.
Proof.
  intros Hi. revert db. induction Hi as [|item v items vs [Hid (Hva & Hvp & _)] Hi IH]; intros db Hnd Hf; [done|].
  apply Forall_cons in Hf as [Hf Hfs]. simpl in Hnd. apply NoDup_cons in Hnd as [Hn Hnd].
  simpl. unfold retract_vote at 1. rewrite Hid. simpl. rewrite (delete_put_vote _ _ _ _ Hva Hvp Hn); [by apply IH| |done].
  clear -Hi. induction Hi as [|item w items vs [_ (? & _)] _ IH]; by constructor.
Qed.

(** C23: ballots.  When a ballot of binary64 values passes validation and is
    applied, it adds one vote per item, in order, by the voter, for distinct
    decisions that are in voting and that the voter had not voted on; each vote
    is the one [vote_typed] prescribes for the item's value and its decision: an
    abstention, an option of the category or the inconclusive index, or a number
    in the unit interval; and once the votes are stored, reverting the
    transaction gives back exactly the voting tables from before. *)
Theorem ballot_recorded s tx u height u' b :
  submit_ballot tx = Some b → Forall (fun item => f64_valid (bi_vote_value item) = true) (sb_votes b) →
  validate_ballot s tx = Ok tt → apply_submit_ballot s tx u height = Ok u' →
  ∃ vs, up_vote_submissions u' = up_vote_submissions u ++ vs ∧ Forall2 (item_vote s (sb_voter b)) (sb_votes b) vs ∧
    NoDup (map v_decision_id vs) ∧
    revert_submit_ballot (set_s_voting s (foldl put_vote (s_voting s) vs)) tx = Ok s.
Proof.
  intros Hb Hval. unfold validate_ballot, apply_submit_ballot, revert_submit_ballot. rewrite Hb. intros Hv Ha.
  cbn [ok_or mbind result_bind] in *. inv_ok.
  match goal with H : try_fold (apply_ballot_item _ _ _ _ _ _) _ _ = Ok ?x |- _ => destruct x as [e u1] end. inv_ok.
  match goal with H : try_fold (validate_ballot_item _ _) _ _ = Ok _, H' : try_fold (apply_ballot_item _ _ _ _ _ _) _ _ = Ok _ |- _ =>
    destruct (ballot_items_spec _ _ _ _ _ _ _ _ _ _ _ Hval H H') as (vs & Hu & Hi & Hnd & _); clear H H' end.
  simpl in Hu. subst. exists vs. rewrite add_votes_submissions. split_and!; try done. simpl.
  rewrite (retract_all s (sb_voter b) (sb_votes b) vs (s_voting s)); [by destruct s|done|done|].
  clear -Hi. induction Hi as [|item v items vs [_ (_ & _ & ? & _)] _ IH]; by constructor.
Qed.

End Ballots.
