(* ===== verification/Consolidation.v ===== *)
(** * The money of the markets at the end of a block

    Model of [StateUpdate::consolidate_market_utxos] and [revert_consolidation]
    (src/lib/state/block.rs).  The trades of a block only record what they owe;
    at the end of the block each market that traded has its treasury and its fee
    output replaced by one output each, the sellers are paid out of the treasury
    and the buyers get their change.  Both functions write the markets table and
    the UTXO tables, the [SettleState] of a settlement. *)

From stdpp Require Import base numbers list strings gmap.
From S2P Require Import Prelude Float64 SafeMath MarketMath StateErrors DecisionTypes Markets Transactions.
From S2P Require Import MarketsDb StateModel BlockUpdate.

Section Consolidation.
Context {AM : BitcoinAmount} {BE : BlockEnv}.
Implicit Types (s : SettleState) (id : MarketId).

(** ** The outpoints of payouts and change *)

Definition generate_sell_payout_outpoint id (seller : Address) (transaction_id : bytes) : OutPoint :=
  OpPayout (sell_payout_hash id seller transaction_id) 0.
Definition generate_buy_change_outpoint id (trader : Address) (transaction_id : bytes) : OutPoint :=
  OpPayout (buy_change_hash id trader transaction_id) 0.
Definition generate_sell_input_change_outpoint (trader : Address) (transaction_id : bytes) : OutPoint :=
  OpPayout (sell_input_change_hash trader transaction_id) 0.

(** ** One market *)

(** The records of a market among those of the block. *)
Definition market_sells id (l : list PendingSellPayout) : list PendingSellPayout :=
  filter (fun p => sp_market p = id) l.
Definition market_buys id (l : list PendingBuySettlement) : list PendingBuySettlement :=
  filter (fun b => bs_market_id b = id) l.

Definition funds_sats (o : option (OutPoint * FilledOutput)) : Z :=
  from_option (fun e => get_bitcoin_value e.2) 0 o.

(** The accumulators of the loop body, added up as [u64]. *)
Definition treasury_total s id (buys : list PendingBuySettlement) : Z :=
  sum_u64 (funds_sats (funds_utxo s id false) :: map bs_lmsr_cost_sats buys).
Definition fee_total s id (buys : list PendingBuySettlement) (sells : list PendingSellPayout) : Z :=
  as_u64 (sum_u64 (funds_sats (funds_utxo s id true) :: map bs_market_fee_sats buys)
          + sum_u64 (map sp_fee_sats sells)).

Definition pay_seller id (acc : UtxoTables * list OutPoint) (p : PendingSellPayout)
  : UtxoTables * list OutPoint :=
  let outpoint := generate_sell_payout_outpoint id (sp_seller_address p) (sp_transaction_id p) in
  (insert_utxo acc.1 outpoint (bitcoin_output (sp_seller_address p) (sp_payout p)), acc.2 ++ [outpoint]).

Definition buy_change (b : PendingBuySettlement) : option Z :=
  v ← checked_sub (bs_input_value_sats b) Trading.TRADE_MINER_FEE_SATS;
  v ← checked_sub v (bs_lmsr_cost_sats b);
  checked_sub v (bs_market_fee_sats b).

Definition return_change id (acc : UtxoTables * list OutPoint) (b : PendingBuySettlement)
  : result Error (UtxoTables * list OutPoint) :=
  change ← ok_or (buy_change b) (InvalidTransaction "Buy change underflow");
  if 0 <? change then
    let outpoint := generate_buy_change_outpoint id (bs_trader_address b) (bs_transaction_id b) in
    Ok (insert_utxo acc.1 outpoint (bitcoin_output (bs_trader_address b) change), acc.2 ++ [outpoint])
  else Ok acc.

(** Delete the output a fund was found in, if any, and its pointer. *)
Definition consume_old s id (is_fee : bool) : SettleState :=
  {| st_markets := clear_market_funds_utxo (st_markets s) id is_fee;
     st_utxos := match funds_utxo s id is_fee with
                 | Some (outpoint, _) => (delete_utxo (st_utxos s) outpoint).2
                 | None => st_utxos s
                 end |}.

(** The new output of a fund, and the pointer to it. *)
Definition place_funds s id (height : Z) (is_fee : bool) (address : Address) (amount : Z) : SettleState :=
  let outpoint := OpMarketFunds id height is_fee in
  {| st_markets := set_market_funds_utxo (st_markets s) id is_fee outpoint;
     st_utxos := insert_utxo (st_utxos s) outpoint
                   {| out_address := address; out_content := FMarketFunds id amount is_fee; out_memo := [] |} |}.

(** The treasury half of the loop body, with the outpoints it creates: the new
    treasury, the payouts and the change. *)
Definition consolidate_treasury (height : Z) (buys : list PendingBuySettlement)
  (sells : list PendingSellPayout) s id
  : result Error (SettleState * (option OutPoint * list OutPoint * list OutPoint)) :=
  let total := treasury_total s id buys in
  let payouts := sum_u64 (map sp_payout sells) in
  let fees := sum_u64 (map sp_fee_sats sells) in
  let has_work := bool_decide (is_Some (funds_utxo s id false))
                  || negb (bool_decide (sells = [])) || negb (bool_decide (buys = [])) in
  if has_work && ((0 <? total) || negb (bool_decide (sells = []))) then
    let s := consume_old s id false in
    let '(tables, paid) := foldl (pay_seller id) (st_utxos s, []) sells in
    '(tables, changed) ← try_fold (return_change id) (tables, []) buys;
    let s := with_utxos s tables in
    remaining ← ok_or (v ← checked_sub total payouts; checked_sub v fees)
                  (InvalidTransaction "Treasury remainder underflow");
    if 0 <? remaining
    then Ok (place_funds s id height false (generate_market_treasury_address id) remaining,
             (Some (OpMarketFunds id height false), paid, changed))
    else Ok (s, (None, paid, changed))
  else Ok (s, (None, [], [])).

(** The fee half; the output it replaces is the one found at the start. *)
Definition consolidate_fees (height : Z) (buys : list PendingBuySettlement)
  (sells : list PendingSellPayout) (total : Z) s id (old : option (OutPoint * FilledOutput))
  : SettleState * option OutPoint :=
  let has_work := bool_decide (is_Some old) || (0 <? sum_u64 (map sp_fee_sats sells))
                  || negb (bool_decide (buys = [])) in
  if has_work && (0 <? total) then
    let s := {| st_markets := clear_market_funds_utxo (st_markets s) id true;
                st_utxos := match old with
                            | Some (outpoint, _) => (delete_utxo (st_utxos s) outpoint).2
                            | None => st_utxos s
                            end |} in
    (place_funds s id height true (generate_market_author_fee_address id) total,
     Some (OpMarketFunds id height true))
  else (s, None).

Definition consolidate_market (height : Z) (all_buys : list PendingBuySettlement)
  (all_sells : list PendingSellPayout) s id : result Error (SettleState * ConsolidationUndoEntry) :=
  let buys := market_buys id all_buys in
  let sells := market_sells id all_sells in
  let old_treasury := funds_utxo s id false in
  let old_fee := funds_utxo s id true in
  let fees := fee_total s id buys sells in
  let gross := as_u64 (sum_u64 (map sp_payout sells) + sum_u64 (map sp_fee_sats sells)) in
  _ ← bail_if (treasury_total s id buys <? gross) (InvalidTransaction "Treasury underflow");
  '(s1, (new_treasury, paid, changed)) ← consolidate_treasury height buys sells s id;
  let '(s2, new_fee) := consolidate_fees height buys sells fees s1 id old_fee in
  Ok (s2, {| cn_market_id := id;
             cn_old_treasury_utxos := option_list old_treasury;
             cn_old_fee_utxos := option_list old_fee;
             cn_old_treasury_pointer := market_funds_utxos (st_markets s) !! (id, false);
             cn_old_fee_pointer := market_funds_utxos (st_markets s) !! (id, true);
             cn_new_treasury_utxo := new_treasury; cn_new_fee_utxo := new_fee;
             cn_sell_payout_utxos := paid; cn_buy_change_utxos := changed |}).

(** ** The block *)

Definition markets_to_consolidate (sells : list PendingSellPayout) (buys : list PendingBuySettlement)
  : gset MarketId := list_to_set (map sp_market sells ++ map bs_market_id buys).

(** The elements of a [HashSet] of market ids, in the order it is visited. *)
Definition market_set_iter (m : gset MarketId) : list MarketId := map fst (market_iter (gset_to_gmap tt m)).

Definition return_input_change (acc : UtxoTables * list OutPoint) (e : Address * Z * bytes)
  : UtxoTables * list OutPoint :=
  let '(address, change, transaction_id) := e in
  if 0 <? change then
    let outpoint := generate_sell_input_change_outpoint address transaction_id in
    (insert_utxo acc.1 outpoint (bitcoin_output address change), acc.2 ++ [outpoint])
  else acc.

Definition consolidate_step (height : Z) (sells : list PendingSellPayout) (buys : list PendingBuySettlement)
  (acc : SettleState * list ConsolidationUndoEntry) id
  : result Error (SettleState * list ConsolidationUndoEntry) :=
  '(s, e) ← consolidate_market height buys sells acc.1 id;
  Ok (s, acc.2 ++ [e]).

Definition consolidate_market_utxos (height : Z) (sells : list PendingSellPayout)
  (buys : list PendingBuySettlement) (input_changes : list (Address * Z * bytes)) s
  : result Error (SettleState * option ConsolidationUndoData) :=
  let ids := markets_to_consolidate sells buys in
  if bool_decide (ids = ∅) && bool_decide (input_changes = []) then Ok (s, None) else
  '(s, entries) ← try_fold (consolidate_step height sells buys) (s, []) (market_set_iter ids);
  let '(tables, changed) := foldl return_input_change (st_utxos s, []) input_changes in
  Ok (with_utxos s tables,
      Some {| cn_entries := entries; cn_sell_input_change_utxos := changed |}).

(** ** The reversal *)

Definition revert_delete_utxo s (outpoint : OutPoint) : SettleState :=
  with_utxos s (delete_utxo (st_utxos s) outpoint).2.

Definition restore_utxo s (e : OutPoint * FilledOutput) : SettleState :=
  with_utxos s (insert_utxo (st_utxos s) e.1 e.2).

Definition restore_pointer s id (is_fee : bool) (pointer : option OutPoint) : SettleState :=
  with_markets s match pointer with
                 | Some outpoint => set_market_funds_utxo (st_markets s) id is_fee outpoint
                 | None => clear_market_funds_utxo (st_markets s) id is_fee
                 end.

Definition revert_consolidation_entry s (e : ConsolidationUndoEntry) : SettleState :=
  let s := foldl revert_delete_utxo s
             (option_list (cn_new_treasury_utxo e) ++ option_list (cn_new_fee_utxo e)
              ++ cn_sell_payout_utxos e ++ cn_buy_change_utxos e) in
  let s := foldl restore_utxo s (cn_old_treasury_utxos e ++ cn_old_fee_utxos e) in
  let s := restore_pointer s (cn_market_id e) false (cn_old_treasury_pointer e) in
  restore_pointer s (cn_market_id e) true (cn_old_fee_pointer e).

Definition revert_consolidation s (undo : ConsolidationUndoData) : SettleState :=
  foldl revert_delete_utxo (foldl revert_consolidation_entry s (rev (cn_entries undo)))
    (cn_sell_input_change_utxos undo).

End Consolidation.
