(* ===== verification/ConsolidationFacts.v ===== *)
(** * Consolidation conserves the money of a market

    Bounds on the value of the UTXO set after [consolidate_market_utxos]. *)

From stdpp Require Import base numbers list strings gmap.
From S2P Require Import Prelude Float64 SafeMath MarketMath StateErrors DecisionTypes Markets Transactions.
From S2P Require Import TransactionsFacts UtxoValue MarketsDb StateModel BlockUpdate Consolidation.

(** ** Sums over sublists *)

Section Sums.

Lemma as_u64_le z : 0 ≤ z → as_u64 z ≤ z.
Proof. intros. unfold as_u64, wrap_unsigned. apply Z.mod_le; lia. Qed.

Lemma sum_u64_le l : Forall (fun z => 0 ≤ z) l → sum_u64 l ≤ sumZ l.
Proof. intros Hl. rewrite sum_u64_sumZ. by apply as_u64_le, sumZ_nonneg. Qed.

Lemma sum_u64_nonneg l : 0 ≤ sum_u64 l.
Proof. rewrite sum_u64_sumZ. apply wrap_unsigned_range; lia. Qed.

Lemma sumZ_map_add {A} (f g : A → Z) l : sumZ (map (fun x => f x + g x) l) = sumZ (map f l) + sumZ (map g l).
Proof. induction l as [|x l IH]; simpl; lia. Qed.

Lemma sumZ_map_le {A} (f g : A → Z) l : Forall (fun x => f x ≤ g x) l → sumZ (map f l) ≤ sumZ (map g l).
Proof. induction 1; simpl; lia. Qed.

Lemma sumZ_filter_le {A} (P : A → Prop) `{!∀ x, base.Decision (P x)} (f : A → Z) l :
  Forall (fun x => 0 ≤ f x) l → sumZ (map f (filter P l)) ≤ sumZ (map f l).
Proof.
  induction 1 as [|x l Hx _ IH]; [done|]. rewrite filter_cons. case_decide; simpl; lia.
Qed.

Lemma checked_sub_Some a b v : checked_sub a b = Some v → b ≤ a ∧ v = a - b.
Proof. unfold checked_sub. destruct (Z.leb_spec b a); intros; by simplify_eq. Qed.

(** Splitting a list by a key and adding up the parts. *)
Lemma sumZ_parts {A K} `{EqDecision K} (key : A → K) (f : A → Z) ids l :
  NoDup ids → Forall (fun x => 0 ≤ f x) l →
  sumZ (map (fun id => sumZ (map f (filter (fun x => key x = id) l))) ids) ≤ sumZ (map f l).
Proof.
  intros Hnd. revert l. induction Hnd as [|id ids Hid Hnd IH]; intros l Hl; simpl.
  { apply sumZ_nonneg. by apply Forall_map. }
  assert (sumZ (map f l) = sumZ (map f (filter (fun x => key x = id) l))
                           + sumZ (map f (filter (fun x => key x ≠ id) l))) as ->.
  { clear. induction l as [|x l IH]; simpl; [done|]. rewrite !filter_cons.
    case_decide; case_decide; simpl; try done; lia. }
  assert (Forall (fun x => 0 ≤ f x) (filter (fun x => key x ≠ id) l)) as Hl'.
  { apply Forall_forall. intros x [_ Hx]%list_elem_of_filter. by eapply Forall_forall in Hl. }
  specialize (IH _ Hl'). enough (map (fun id0 => sumZ (map f (filter (fun x => key x = id0) l))) ids
    = map (fun id0 => sumZ (map f (filter (fun x => key x = id0) (filter (fun x => key x ≠ id) l)))) ids)
    as Heq by (rewrite Heq; lia).
  apply map_ext_in. intros id' Hin%list_elem_of_In. rewrite list_filter_filter. do 2 f_equal.
  apply list_filter_iff. intros x. split; [|tauto]. intros Hk. split; [done|]. intros He. apply Hid. by rewrite <- He, Hk.
Qed.

End Sums.

(** ** One market *)

Section Market.
Context {AM : BitcoinAmount} {BE : BlockEnv}.
Implicit Types (s : SettleState) (id : MarketId).

(** Amounts are satoshis and the deposit covers cost, fee and miner fee. *)
Definition buy_ok (b : PendingBuySettlement) : Prop :=
  0 ≤ bs_lmsr_cost_sats b ∧ 0 ≤ bs_market_fee_sats b ∧
  bs_lmsr_cost_sats b + bs_market_fee_sats b + Trading.TRADE_MINER_FEE_SATS ≤ bs_input_value_sats b.
Definition sell_ok (p : PendingSellPayout) : Prop := 0 ≤ sp_payout p ∧ 0 ≤ sp_fee_sats p.

(** What a buy brings in beyond the miner fee, and what a sell takes out. *)
Definition brought (b : PendingBuySettlement) : Z := bs_input_value_sats b - Trading.TRADE_MINER_FEE_SATS.
Definition gross (p : PendingSellPayout) : Z := sp_payout p + sp_fee_sats p.

(** The pointers to the funds of the markets: the fee output is always one a
    consolidation made, the treasury may still be the output that created it. *)
Definition pointer_ok id (is_fee : bool) (p : OutPoint) : Prop :=
  (∃ h, p = OpMarketFunds id h is_fee) ∨ (is_fee = false ∧ ∃ txid vout, p = OpRegular txid vout).
Definition pointers_ok (db : MarketsDatabase) : Prop :=
  ∀ id is_fee p, market_funds_utxos db !! (id, is_fee) = Some p → pointer_ok id is_fee p.

(** Keys differ when the kinds of the outpoints do. *)
Lemma fee_key_distinct id h p :
  (∃ hash n, p = OpPayout hash n) ∨ pointer_ok id false p →
  from_outpoint p ≠ from_outpoint (OpMarketFunds id h true).
Proof.
  intros Hp Heq. destruct Hp as [(hash & n & ->)|[[h' ->]|[_ (txid & n & ->)]]]; [discriminate| |discriminate].
  unfold from_outpoint, borsh_outpoint in Heq.
  set (r := replicate _ 0) in Heq at 1. set (r' := replicate _ 0) in Heq. clearbody r r'.
  rewrite <- !app_comm_cons, <- !app_assoc in Heq. injection Heq as Heq.
  apply app_inv_head in Heq. congruence.
Qed.

(** [t'] holds the same output as [t] at [k]. *)
Definition agree (k : bytes) (t t' : UtxoTables) : Prop := utxos t' !! k = utxos t !! k.

Lemma insert_agree k t t' op o : from_outpoint op ≠ k → agree k t t' → agree k t (insert_utxo t' op o).
Proof. intros Hne Ha. unfold agree. simpl. by rewrite lookup_insert_ne. Qed.

Lemma delete_agree k t t' op : from_outpoint op ≠ k → agree k t t' → agree k t (delete_utxo t' op).2.
Proof.
  intros Hne Ha. unfold agree, delete_utxo. destruct (utxos t' !! from_outpoint op); [|done].
  simpl. by rewrite lookup_delete_ne.
Qed.

Lemma bitcoin_output_value a v : get_bitcoin_value (bitcoin_output a v) = v.
Proof. done. Qed.

(** What a phase may do to the tables: the total grows by at most [d], and the
    output at [k] stays. *)
Definition phase (k : bytes) (d : Z) (t t' : UtxoTables) : Prop :=
  values_ok t → values_ok t' ∧ utxo_total t' ≤ utxo_total t + d ∧ agree k t t'.

Lemma phase_refl k t : phase k 0 t t.
Proof. intros Hok. split_and!; [done|lia|done]. Qed.

Lemma phase_trans k d e t t' t'' : phase k d t t' → phase k e t' t'' → phase k (d + e) t t''.
Proof.
  intros H1 H2 Hok. destruct (H1 Hok) as (Hok1 & Hle1 & Ha1), (H2 Hok1) as (Hok2 & Hle2 & Ha2).
  split_and!; [done|lia|]. unfold agree in *. congruence.
Qed.

Lemma phase_insert k t op o :
  0 ≤ get_bitcoin_value o → from_outpoint op ≠ k → phase k (get_bitcoin_value o) t (insert_utxo t op o).
Proof.
  intros Ho Hne Hok. split_and!; [by apply insert_values_ok|by apply insert_value_le|by apply insert_agree].
Qed.

Lemma pay_sellers_phase id h acc sells :
  Forall sell_ok sells →
  phase (from_outpoint (OpMarketFunds id h true)) (sumZ (map sp_payout sells)) acc.1
    (foldl (pay_seller id) acc sells).1.
Proof.
  intros Hs. revert acc. induction Hs as [|p sells [Hp _] _ IH]; intros acc; simpl; [apply phase_refl|].
  eapply phase_trans; [|apply IH]. simpl. rewrite <- (bitcoin_output_value (sp_seller_address p)) at 1.
  apply phase_insert; [done|]. apply fee_key_distinct. left. by eexists _, _.
Qed.

Lemma buy_change_value b : buy_ok b → buy_change b = Some (brought b - bs_lmsr_cost_sats b - bs_market_fee_sats b).
Proof.
  intros (Hc & Hf & Hi). unfold buy_change, checked_sub, brought, Trading.TRADE_MINER_FEE_SATS in *.
  rewrite (proj2 (Z.leb_le 1000 _)) by lia. simpl. rewrite (proj2 (Z.leb_le (bs_lmsr_cost_sats b) _)) by lia.
  simpl. by rewrite (proj2 (Z.leb_le (bs_market_fee_sats b) _)) by lia.
Qed.

Lemma return_change_phase id h acc buys acc' :
  Forall buy_ok buys → try_fold (return_change id) acc buys = Ok acc' →
  phase (from_outpoint (OpMarketFunds id h true))
    (sumZ (map (fun b => brought b - bs_lmsr_cost_sats b - bs_market_fee_sats b) buys)) acc.1 acc'.1.
Proof.
  intros Hb. revert acc. induction Hb as [|b buys Hb _ IH]; intros acc; simpl.
  { intros [= <-]. apply phase_refl. }
  unfold return_change at 1. rewrite (buy_change_value b Hb). simpl.
  destruct Hb as (Hc & Hf & Hi). unfold brought in *. set (v := bs_input_value_sats b - _ - _ - _) in *.
  assert (0 ≤ v) by lia. destruct (Z.ltb_spec 0 v) as [Hv|Hv]; intros Hr.
  - eapply phase_trans; [|by apply IH in Hr; exact Hr]. simpl.
    rewrite <- (bitcoin_output_value (bs_trader_address b) v) at 1.
    apply phase_insert; [done|]. apply fee_key_distinct. left. by eexists _, _.
  - replace v with 0 by lia. rewrite Z.add_0_l. by apply IH.
Qed.

Lemma funds_utxo_some s id b op o :
  funds_utxo s id b = Some (op, o) →
  market_funds_utxos (st_markets s) !! (id, b) = Some op ∧ utxos (st_utxos s) !! from_outpoint op = Some o.
Proof.
  unfold funds_utxo. intros (op' & Hp & (o' & Ho & Heq)%bind_Some)%bind_Some. by simplify_eq.
Qed.

Lemma funds_sats_nonneg s id b : values_ok (st_utxos s) → 0 ≤ funds_sats (funds_utxo s id b).
Proof.
  intros Hok. destruct (funds_utxo s id b) as [[op o]|] eqn:E; simpl; [|done].
  apply funds_utxo_some in E as [_ E]. exact (Hok _ _ E).
Qed.

Lemma consume_phase s id h :
  pointers_ok (st_markets s) →
  phase (from_outpoint (OpMarketFunds id h true)) (- funds_sats (funds_utxo s id false))
    (st_utxos s) (st_utxos (consume_old s id false)).
Proof.
  intros Hp Hok. unfold consume_old. destruct (funds_utxo s id false) as [[op o]|] eqn:E; simpl.
  - apply funds_utxo_some in E as [Hop Ho]. split_and!.
    + by apply delete_values_ok.
    + rewrite (delete_value _ _ _ Ho). lia.
    + apply delete_agree; [|done]. apply fee_key_distinct. right. by apply Hp.
  - split_and!; [done|lia|done].
Qed.

(** The pointers after one fund of a market was written or cleared. *)
Lemma pointers_set db id b op : pointers_ok db → pointer_ok id b op → pointers_ok (set_market_funds_utxo db id b op).
Proof.
  intros Hp Hop id' b' p. simpl. destruct (decide ((id, b) = (id', b'))) as [[= <- <-]|Hne].
  - rewrite lookup_insert_eq. by intros [= <-].
  - rewrite lookup_insert_ne by done. apply Hp.
Qed.

Lemma pointers_clear db id b : pointers_ok db → pointers_ok (clear_market_funds_utxo db id b).
Proof. intros Hp id' b' p. simpl. intros [_ Hl]%lookup_delete_Some. by apply Hp. Qed.

Lemma place_phase s id h h' v a :
  0 ≤ v → phase (from_outpoint (OpMarketFunds id h' true)) v (st_utxos s)
            (st_utxos (place_funds s id h false a v)).
Proof.
  intros Hv. apply (phase_insert _ _ _ {| out_address := a; out_content := FMarketFunds id v false; out_memo := [] |}).
  - done.
  - apply fee_key_distinct. right. left. by eexists.
Qed.

(** The treasury after the buys paid in, and the payouts of its sells. *)
Lemma treasury_total_le s id buys :
  values_ok (st_utxos s) → Forall buy_ok buys →
  treasury_total s id buys ≤ funds_sats (funds_utxo s id false) + sumZ (map bs_lmsr_cost_sats buys).
Proof.
  intros Hok Hb. unfold treasury_total. etrans; [apply sum_u64_le|done]. constructor.
  - by apply funds_sats_nonneg.
  - apply Forall_map. eapply Forall_impl; [exact Hb|]. by intros b (? & ? & ?).
Qed.

Lemma sells_fit sells :
  Forall sell_ok sells → sumZ (map gross sells) ≤ U64_MAX →
  sum_u64 (map sp_payout sells) = sumZ (map sp_payout sells) ∧
  sum_u64 (map sp_fee_sats sells) = sumZ (map sp_fee_sats sells) ∧
  0 ≤ sumZ (map sp_payout sells) ∧ 0 ≤ sumZ (map sp_fee_sats sells).
Proof.
  intros Hs Hm. unfold gross in Hm. rewrite sumZ_map_add in Hm.
  assert (0 ≤ sumZ (map sp_payout sells)) by (apply sumZ_nonneg, Forall_map; eapply Forall_impl; [exact Hs|]; by intros ? []).
  assert (0 ≤ sumZ (map sp_fee_sats sells)) by (apply sumZ_nonneg, Forall_map; eapply Forall_impl; [exact Hs|]; by intros ? []).
  rewrite !sum_u64_sumZ, !as_u64_small by (unfold is_u64; lia). done.
Qed.

Definition spendable (b : PendingBuySettlement) : Z := brought b - bs_market_fee_sats b.

Lemma spendable_nonneg buys : Forall buy_ok buys → 0 ≤ sumZ (map spendable buys).
Proof.
  intros Hb. apply sumZ_nonneg, Forall_map. eapply Forall_impl; [exact Hb|].
  intros b (? & ? & ?). unfold spendable, brought. lia.
Qed.

Lemma consolidate_treasury_phase height buys sells s id s' r h :
  values_ok (st_utxos s) → pointers_ok (st_markets s) →
  Forall buy_ok buys → Forall sell_ok sells → sumZ (map gross sells) ≤ U64_MAX →
  consolidate_treasury height buys sells s id = Ok (s', r) →
  phase (from_outpoint (OpMarketFunds id h true))
    (sumZ (map spendable buys) - sumZ (map sp_fee_sats sells)) (st_utxos s) (st_utxos s') ∧
  pointers_ok (st_markets s').
Proof.
  intros Hok Hp Hb Hs Hfit. pose proof (treasury_total_le s id buys Hok Hb) as Ht.
  destruct (sells_fit _ Hs Hfit) as (EP & EF & HP & HF). unfold consolidate_treasury.
  rewrite EP, EF. set (T := treasury_total s id buys) in *. destruct (_ && _) eqn:Ework; simpl.
  - destruct (foldl (pay_seller id) _ sells) as [t1 paid] eqn:E1.
    pose proof (pay_sellers_phase id h (st_utxos (consume_old s id false), []) sells Hs) as P1.
    simpl in E1, P1. rewrite E1 in P1. simpl in P1.
    destruct (try_fold _ _ _) as [[t2 changed]|] eqn:E2; simpl; [|discriminate].
    pose proof (return_change_phase id h _ _ _ Hb E2) as P2. simpl in P2.
    pose proof (phase_trans _ _ _ _ _ _ (phase_trans _ _ _ _ _ _ (consume_phase s id h Hp) P1) P2) as P3.
    destruct (checked_sub T _ ≫= _) as [R|] eqn:ER; simpl; [|discriminate].
    apply bind_Some in ER as (v & [HPT ->]%checked_sub_Some & [HFT ->]%checked_sub_Some).
    set (R := T - _ - _). assert (0 ≤ R) by (unfold R; lia).
    assert (sumZ (map spendable buys) = sumZ (map (fun b => brought b - bs_lmsr_cost_sats b - bs_market_fee_sats b) buys)
              + sumZ (map bs_lmsr_cost_sats buys)) as Esp.
    { rewrite <- sumZ_map_add. f_equal. apply map_ext. intros b. unfold spendable. lia. }
    destruct (Z.ltb_spec 0 R) as [HR|HR]; intros [= <- <-].
    + split; [|apply pointers_set; [by apply pointers_clear|left; by eexists]].
      pose proof (phase_trans _ _ _ _ _ _ P3
        (place_phase (with_utxos (consume_old s id false) t2) id height h R
           (generate_market_treasury_address id) ltac:(lia))) as P4.
      intros _. destruct (P4 Hok) as (? & ? & ?). split_and!; [done| |done]. unfold R in *. lia.
    + split; [|by apply pointers_clear]. intros _. destruct (P3 Hok) as (? & ? & ?).
      split_and!; [done| |done]. simpl. unfold R in *. lia.
  - intros [= <- <-]. split; [|done]. intros _. split_and!; [done| |done].
    destruct (decide (sells = [])) as [->|Hne]; [simpl; pose proof (spendable_nonneg _ Hb); lia|].
    rewrite (bool_decide_false (sells = [])) in Ework by done. simpl in Ework.
    by rewrite !orb_true_r in Ework.
Qed.

Lemma fee_total_le s id buys sells :
  values_ok (st_utxos s) → Forall buy_ok buys → Forall sell_ok sells → sumZ (map gross sells) ≤ U64_MAX →
  0 ≤ fee_total s id buys sells
    ≤ funds_sats (funds_utxo s id true) + sumZ (map bs_market_fee_sats buys) + sumZ (map sp_fee_sats sells).
Proof.
  intros Hok Hb Hs Hfit. destruct (sells_fit _ Hs Hfit) as (_ & EF & _ & HF). unfold fee_total. rewrite EF.
  set (l := funds_sats _ :: _). assert (Forall (fun z => 0 ≤ z) l) as Hl.
  { constructor; [by apply funds_sats_nonneg|]. apply Forall_map. eapply Forall_impl; [exact Hb|].
    by intros b (? & ? & ?). }
  pose proof (sum_u64_le l Hl) as Hle. pose proof (sum_u64_nonneg l). simpl in Hle. split.
  - apply wrap_unsigned_range. lia.
  - etrans; [apply as_u64_le; lia|]. lia.
Qed.

(** The fee output consumed is the one found before the treasury phase. *)
Lemma consolidate_fees_total height buys sells v s id old s' new :
  values_ok (st_utxos s) → pointers_ok (st_markets s) → 0 ≤ v →
  (∀ op o, old = Some (op, o) → utxos (st_utxos s) !! from_outpoint op = Some o) →
  consolidate_fees height buys sells v s id old = (s', new) →
  values_ok (st_utxos s') ∧ pointers_ok (st_markets s') ∧
  utxo_total (st_utxos s') ≤ utxo_total (st_utxos s) + Z.max 0 (v - funds_sats old).
Proof.
  intros Hok Hp Hv Hold. unfold consolidate_fees. destruct (_ && _) eqn:Ework.
  - intros [= <- _]. simpl. set (t := match old with Some (op, _) => _ | None => _ end).
    assert (values_ok t ∧ utxo_total t = utxo_total (st_utxos s) - funds_sats old) as [Hokt Ht].
    { unfold t. destruct old as [[op o]|]; simpl; [|split; [done|lia]]. specialize (Hold _ _ eq_refl).
      split; [by apply delete_values_ok|by apply delete_value]. }
    split_and!.
    + by apply insert_values_ok.
    + apply pointers_set; [by apply pointers_clear|]. left. by eexists.
    + etrans; [by apply insert_value_le|]. rewrite Ht. unfold get_bitcoin_value. simpl. lia.
  - intros [= <- _]. split_and!; [done|done|lia].
Qed.

(** A market gains at most what its buys brought beyond the miner fees. *)
Lemma consolidate_market_total height all_buys all_sells s id s' e :
  values_ok (st_utxos s) → pointers_ok (st_markets s) →
  Forall buy_ok all_buys → Forall sell_ok all_sells → sumZ (map gross all_sells) ≤ U64_MAX →
  consolidate_market height all_buys all_sells s id = Ok (s', e) →
  values_ok (st_utxos s') ∧ pointers_ok (st_markets s') ∧
  utxo_total (st_utxos s') ≤ utxo_total (st_utxos s) + sumZ (map brought (market_buys id all_buys)).
Proof.
  intros Hok Hp Hab Has Hafit. unfold consolidate_market. set (buys := market_buys id all_buys).
  set (sells := market_sells id all_sells).
  assert (Forall buy_ok buys) as Hb by (apply Forall_forall; intros b [_ ?]%list_elem_of_filter; by eapply Forall_forall in Hab).
  assert (Forall sell_ok sells) as Hs by (apply Forall_forall; intros b [_ ?]%list_elem_of_filter; by eapply Forall_forall in Has).
  assert (sumZ (map gross sells) ≤ U64_MAX) as Hfit.
  { etrans; [apply sumZ_filter_le|exact Hafit]. eapply Forall_impl; [exact Has|]. intros p []. unfold gross. lia. }
  destruct (bail_if _ _); cbn [mbind result_bind]; [|discriminate].
  destruct (consolidate_treasury _ _ _ _ _) as [[s1 [[nt paid] changed]]|] eqn:E1; cbn [mbind result_bind]; [|discriminate].
  destruct (consolidate_fees _ _ _ _ _ _ _) as [s2 nf] eqn:E2. intros [= <- _].
  pose proof (fee_total_le s id buys sells Hok Hb Hs Hfit) as [Hf0 Hf].
  assert (∃ h, ∀ op o, funds_utxo s id true = Some (op, o) → op = OpMarketFunds id h true) as [h Hh].
  { destruct (funds_utxo s id true) as [[op o]|] eqn:E; [|by exists 0].
    apply funds_utxo_some in E as [E _]. destruct (Hp _ _ _ E) as [[h ->]|[? _]]; [|done].
    exists h. by intros ? ? [= <- <-]. }
  destruct (consolidate_treasury_phase _ _ _ _ _ _ _ h Hok Hp Hb Hs Hfit E1) as [HT Hp1].
  destruct (HT Hok) as (Hok1 & Ht1 & Ha).
  destruct (consolidate_fees_total _ _ _ _ _ _ _ _ _ Hok1 Hp1 Hf0
    ltac:(intros op o E; rewrite (Hh _ _ E), Ha; rewrite <- (Hh _ _ E); by apply funds_utxo_some in E as [_ E]) E2)
    as (? & ? & Ht2).
  split_and!; [done..|]. assert (sumZ (map brought buys) = sumZ (map spendable buys) + sumZ (map bs_market_fee_sats buys)) as ->.
  { rewrite <- sumZ_map_add. f_equal. apply map_ext. intros b. unfold spendable. lia. }
  destruct (sells_fit _ Hs Hfit) as (_ & _ & _ & HF).
  assert (0 ≤ sumZ (map bs_market_fee_sats buys)).
  { apply sumZ_nonneg, Forall_map. eapply Forall_impl; [exact Hb|]. by intros b (? & ? & ?). }
  pose proof (funds_sats_nonneg s id true Hok). lia.
Qed.

(** ** The block *)

Lemma input_changes_total l acc :
  values_ok acc.1 → Forall (fun e : Address * Z * bytes => 0 ≤ e.1.2) l →
  values_ok (foldl return_input_change acc l).1 ∧
  utxo_total (foldl return_input_change acc l).1 ≤ utxo_total acc.1 + sumZ (map (fun e => e.1.2) l).
Proof.
  intros Hok Hl. revert acc Hok. induction Hl as [|[[a v] i] l Hv _ IH]; intros acc Hok; simpl; [split; [done|lia]|].
  simpl in Hv. destruct (Z.ltb_spec 0 v) as [Hpos|Hz].
  - destruct (IH (insert_utxo acc.1 (generate_sell_input_change_outpoint a i) (bitcoin_output a v),
                  acc.2 ++ [generate_sell_input_change_outpoint a i])) as [? Hle]; [by apply insert_values_ok|].
    split; [done|]. simpl in Hle. etrans; [exact Hle|].
    pose proof (insert_value_le acc.1 (generate_sell_input_change_outpoint a i) (bitcoin_output a v) Hok) as Hi.
    rewrite bitcoin_output_value in Hi. lia.
  - destruct (IH acc Hok) as [? Hle]. split; [done|lia].
Qed.

Lemma market_set_iter_NoDup (m : gset MarketId) : NoDup (market_set_iter m).
Proof. unfold market_set_iter. rewrite market_iter_perm. apply NoDup_fst_map_to_list. Qed.

(** The whole consolidation gains at most what the buys brought and what the
    sellers get back of their inputs. *)
Lemma consolidate_total height sells buys changes s s' undo :
  values_ok (st_utxos s) → pointers_ok (st_markets s) →
  Forall buy_ok buys → Forall sell_ok sells → sumZ (map gross sells) ≤ U64_MAX →
  Forall (fun e : Address * Z * bytes => 0 ≤ e.1.2) changes →
  consolidate_market_utxos height sells buys changes s = Ok (s', undo) →
  values_ok (st_utxos s') ∧ pointers_ok (st_markets s') ∧
  utxo_total (st_utxos s') ≤ utxo_total (st_utxos s) + sumZ (map brought buys) + sumZ (map (fun e => e.1.2) changes).
Proof.
  intros Hok Hp Hb Hs Hfit Hc. unfold consolidate_market_utxos.
  assert (Forall (fun b => 0 ≤ brought b) buys) as Hbr.
  { eapply Forall_impl; [exact Hb|]. intros b (? & ? & ?). unfold brought. lia. }
  destruct (_ && _) eqn:E.
  { intros [= <- _]. apply andb_true_iff in E as [_ ->%bool_decide_eq_true_1]. simpl. split_and!; [done..|].
    pose proof (sumZ_nonneg (map brought buys) ltac:(by apply Forall_map)). lia. }
  clear E. destruct (try_fold _ _ _) as [[s1 entries]|] eqn:E1; cbn [mbind result_bind]; [|discriminate].
  destruct (foldl return_input_change _ _) as [t changed] eqn:E2. intros [= <- _].
  pose proof (market_set_iter_NoDup (markets_to_consolidate sells buys)) as Hnd.
  apply (try_fold_inv (fun l (acc : SettleState * list ConsolidationUndoEntry) =>
    values_ok (st_utxos acc.1) ∧ pointers_ok (st_markets acc.1) ∧
    utxo_total (st_utxos acc.1) ≤ utxo_total (st_utxos s)
      + sumZ (map (fun id => sumZ (map brought (market_buys id buys))) l))) in E1 as (Hok1 & Hp1 & Ht1).
  - destruct (input_changes_total changes (st_utxos s1, []) Hok1 Hc) as [Hok2 Ht2]. rewrite E2 in Hok2, Ht2.
    simpl in *. split_and!; [done..|].
    pose proof (sumZ_parts bs_market_id brought _ buys Hnd Hbr) as Hparts. unfold market_buys in Ht1. lia.
  - simpl. split_and!; [done..|lia].
  - intros l [s0 es] id acc' (Hok0 & Hp0 & Ht0) _. unfold consolidate_step. simpl.
    destruct (consolidate_market _ _ _ _ _) as [[s2 e]|] eqn:E; cbn [mbind result_bind]; [|discriminate].
    intros [= <-]. simpl in *.
    destruct (consolidate_market_total _ _ _ _ _ _ _ Hok0 Hp0 Hb Hs Hfit E) as (? & ? & ?).
    split_and!; [done..|]. rewrite map_app, sumZ_app. simpl. lia.
Qed.

End Market.
