(* ===== verification/ConsolidationUndo.v ===== *)
(** * Disconnecting a consolidation

    [revert_consolidation] takes back exactly what [consolidate_market_utxos]
    did, in its own order: the markets last first, and the change of the sells
    after all of them.  The proof follows the two sets of keys that tell the
    tables apart from the ones before: those created and those consumed. *)

From stdpp Require Import base numbers list strings gmap.
From S2P Require Import Prelude Float64 SafeMath MarketMath StateErrors DecisionTypes Markets Transactions.
From S2P Require Import TransactionsFacts UtxoValue MarketsDb MarketsDbFacts SettlementFacts StateModel BlockUpdate.
From S2P Require Import Consolidation ConsolidationFacts.

#[local] Arguments from_outpoint _ : simpl never.

(** ** Tables that differ by created and consumed outputs *)

Section Edits.
Implicit Types (u t : UtxoTables) (L F : gset bytes).

(** [t] is [u] with outputs created at the keys [L], unused in [u], and the
    outputs at the keys [F] consumed. *)
Record edited u L F t : Prop := {
  ed_index : index_ok t;
  ed_stxos : stxos t = stxos u;
  ed_fresh : ∀ k, k ∈ L → utxos u !! k = None;
  ed_lookup : ∀ k, k ∉ L → utxos t !! k = if bool_decide (k ∈ F) then None else utxos u !! k
}.

Lemma edited_refl u : index_ok u → edited u ∅ ∅ u.
Proof. intros Hu. split; [done|done|set_solver|]. intros k _. by rewrite bool_decide_false by set_solver. Qed.

Lemma edited_done u t : index_ok u → edited u ∅ ∅ t → t = u.
Proof.
  intros Hu [Hi Hs _ Hl]. apply tables_ext; [done|done| |done]. apply map_eq. intros k.
  rewrite Hl by set_solver. by rewrite bool_decide_false by set_solver.
Qed.

Lemma edited_create u L F t op o :
  edited u L F t → outpoint_ok op → utxos u !! from_outpoint op = None → from_outpoint op ∉ L →
  edited u ({[from_outpoint op]} ∪ L) F (insert_utxo t op o).
Proof.
  intros [Hi Hs Hf Hl] Hop Hu Hn. split.
  - apply insert_index_ok; [done|done|]. intros o' Ho'. rewrite Hl in Ho' by done. case_bool_decide; congruence.
  - done.
  - set_solver.
  - intros k Hk. simpl. rewrite lookup_insert_ne by set_solver. apply Hl. set_solver.
Qed.

Lemma edited_consume u L F t op :
  edited u L F t → outpoint_ok op → from_outpoint op ∉ L →
  edited u L ({[from_outpoint op]} ∪ F) (delete_utxo t op).2.
Proof.
  intros [Hi Hs Hf Hl] Hop Hn. split.
  - by apply delete_index_ok.
  - unfold delete_utxo. by destruct (utxos t !! _).
  - done.
  - intros k Hk. unfold delete_utxo. destruct (decide (k = from_outpoint op)) as [->|Hne].
    + rewrite (bool_decide_true (_ ∈ _)) by set_solver.
      destruct (utxos t !! from_outpoint op) eqn:E; simpl; [apply lookup_delete_eq|done].
    + rewrite (bool_decide_ext _ (k ∈ F)) by set_solver. rewrite <- Hl by done.
      destruct (utxos t !! from_outpoint op); simpl; [by rewrite lookup_delete_ne|done].
Qed.

Lemma edited_uncreate u L F t op :
  edited u L F t → outpoint_ok op → utxos u !! from_outpoint op = None →
  edited u (L ∖ {[from_outpoint op]}) F (delete_utxo t op).2.
Proof.
  intros [Hi Hs Hf Hl] Hop Hn. split.
  - by apply delete_index_ok.
  - unfold delete_utxo. by destruct (utxos t !! _).
  - set_solver.
  - intros k Hk. unfold delete_utxo. destruct (decide (k = from_outpoint op)) as [->|Hne].
    + rewrite Hn. transitivity (@None FilledOutput); [|by case_bool_decide].
      destruct (utxos t !! from_outpoint op) eqn:E; simpl; [apply lookup_delete_eq|done].
    + rewrite <- (Hl k) by set_solver.
      destruct (utxos t !! from_outpoint op); simpl; [by rewrite lookup_delete_ne|done].
Qed.

Lemma edited_unconsume u L F t op o :
  edited u L F t → outpoint_ok op → utxos u !! from_outpoint op = Some o →
  edited u L (F ∖ {[from_outpoint op]}) (insert_utxo t op o).
Proof.
  intros [Hi Hs Hf Hl] Hop Hu. assert (from_outpoint op ∉ L) as Hn by (intros ?%Hf; congruence). split.
  - apply insert_index_ok; [done|done|]. intros o' Ho'. rewrite Hl in Ho' by done. case_bool_decide; congruence.
  - done.
  - done.
  - intros k Hk. simpl. destruct (decide (k = from_outpoint op)) as [->|Hne].
    + rewrite lookup_insert_eq. by rewrite bool_decide_false by set_solver.
    + rewrite lookup_insert_ne, Hl by done. by rewrite (bool_decide_ext (k ∈ F) (k ∈ F ∖ {[from_outpoint op]})) by set_solver.
Qed.

End Edits.

(** ** Batches *)

Definition keyset (l : list OutPoint) : gset bytes := list_to_set (map from_outpoint l).

Lemma keyset_cons op l : keyset (op :: l) = {[from_outpoint op]} ∪ keyset l.
Proof. done. Qed.
Lemma keyset_app l k : keyset (l ++ k) = keyset l ∪ keyset k.
Proof. unfold keyset. by rewrite map_app, list_to_set_app_L. Qed.

#[export] Instance keyset_perm : Proper ((≡ₚ) ==> (=)) keyset.
Proof.
  intros l k Hp. unfold keyset. apply set_eq. intros x. rewrite !elem_of_list_to_set. by rewrite Hp.
Qed.

Lemma flat_map_rev_perm {A B} (f : A → list B) l : flat_map f (rev l) ≡ₚ flat_map f l.
Proof.
  induction l as [|x l IH]; [done|]. simpl. rewrite flat_map_app, IH. simpl. rewrite app_nil_r.
  apply Permutation_app_comm.
Qed.

(** Outpoints that can be created: well formed, unused and not created yet. *)
Record creatable (u : UtxoTables) (L : gset bytes) (l : list OutPoint) : Prop := {
  cr_ok : Forall outpoint_ok l;
  cr_unused : Forall (fun op => utxos u !! from_outpoint op = None) l;
  cr_distinct : NoDup (map from_outpoint l);
  cr_new : Forall (fun op => from_outpoint op ∉ L) l
}.

Lemma creatable_app u L l k : creatable u L (l ++ k) ↔ creatable u L l ∧ creatable u (keyset l ∪ L) k.
Proof.
  unfold keyset. split.
  - intros [[H1 H1']%Forall_app [H2 H2']%Forall_app H3 [H4 H4']%Forall_app].
    rewrite map_app in H3. apply NoDup_app in H3 as (H3 & Hd & H3'). split; split; try done.
    apply Forall_forall. intros op Hop. rewrite not_elem_of_union, elem_of_list_to_set. split.
    + intros Hin. by apply (Hd _ Hin), list_elem_of_fmap_2.
    + by eapply Forall_forall in H4'.
  - intros [[H1 H2 H3 H4] [H1' H2' H3' H4']]. split; try by apply Forall_app.
    + rewrite map_app. apply NoDup_app. split_and!; [done| |done]. intros k0 Hk (op & -> & Hop)%list_elem_of_fmap.
      eapply Forall_forall in H4'; [|exact Hop]. set_solver.
    + apply Forall_app. split; [done|]. eapply Forall_impl; [exact H4'|]. set_solver.
Qed.

#[export] Instance creatable_perm u L : Proper ((≡ₚ) ==> iff) (creatable u L).
Proof.
  intros l k Hp. split; intros []; split; by rewrite Hp || by rewrite <- Hp.
Qed.

Lemma edited_creates u L F t (l : list (OutPoint * FilledOutput)) :
  edited u L F t → creatable u L (map fst l) → edited u (keyset (map fst l) ∪ L) F (inserts t l).
Proof.
  revert L t. induction l as [|[op o] l IH]; intros L t He Hc; simpl in *.
  { by replace (keyset [] ∪ L) with L by (unfold keyset; set_solver). }
  apply (creatable_app u L [op]) in Hc as [Hop Hc].
  destruct Hop as [[Hok _]%Forall_cons [Hun _]%Forall_cons _ [Hn _]%Forall_cons].
  replace (keyset [op] ∪ L) with ({[from_outpoint op]} ∪ L) in Hc by (rewrite keyset_cons; unfold keyset; set_solver).
  pose proof (IH _ _ (edited_create u L F t op o He Hok Hun Hn) Hc) as He'.
  replace (keyset (op :: map fst l) ∪ L) with (keyset (map fst l) ∪ ({[from_outpoint op]} ∪ L))
    by (rewrite keyset_cons; set_solver). done.
Qed.

(** ** One market *)

Section Market.
Context {AM : BitcoinAmount} {BE : BlockEnv}.
(** The hash is BLAKE3, of 32 bytes. *)
Context (sell_payout_hash_length : ∀ id a t, length (sell_payout_hash id a t) = 32%nat).
Context (buy_change_hash_length : ∀ id a t, length (buy_change_hash id a t) = 32%nat).
Context (sell_input_change_hash_length : ∀ a t, length (sell_input_change_hash a t) = 32%nat).
Implicit Types (s : SettleState) (id : MarketId).

Lemma pay_sellers_inserts id sells acc :
  ∃ l, foldl (pay_seller id) acc sells = (inserts acc.1 l, acc.2 ++ map fst l) ∧
       Forall outpoint_ok (map fst l).
Proof.
  revert acc. induction sells as [|p sells IH]; intros acc; simpl.
  { exists []. rewrite app_nil_r. by destruct acc. }
  destruct (IH (pay_seller id acc p)) as (l & -> & Hok).
  exists ((generate_sell_payout_outpoint id (sp_seller_address p) (sp_transaction_id p),
           bitcoin_output (sp_seller_address p) (sp_payout p)) :: l). simpl. split; [by rewrite <- app_assoc|].
  constructor; [|done]. split; [apply sell_payout_hash_length|unfold is_u32; lia].
Qed.

Lemma return_changes_inserts id buys acc acc' :
  try_fold (return_change id) acc buys = Ok acc' →
  ∃ l, acc' = (inserts acc.1 l, acc.2 ++ map fst l) ∧ Forall outpoint_ok (map fst l).
Proof.
  revert acc. induction buys as [|b buys IH]; intros acc H; simpl in H.
  { simplify_eq. exists []. rewrite app_nil_r. by destruct acc'. }
  destruct (return_change id acc b) as [acc1|] eqn:E; [|discriminate].
  destruct (IH _ H) as (l & -> & Hok). unfold return_change in E. inv_ok.
  destruct (0 <? a); simplify_eq; [|by exists l].
  exists ((generate_buy_change_outpoint id (bs_trader_address b) (bs_transaction_id b),
           bitcoin_output (bs_trader_address b) a) :: l). simpl. split; [by rewrite <- app_assoc|].
  constructor; [|done]. split; [apply buy_change_hash_length|unfold is_u32; lia].
Qed.

Lemma input_changes_inserts changes acc :
  ∃ l, foldl return_input_change acc changes = (inserts acc.1 l, acc.2 ++ map fst l) ∧
       Forall outpoint_ok (map fst l).
Proof.
  revert acc. induction changes as [|[[a v] t] changes IH]; intros acc; simpl.
  { exists []. rewrite app_nil_r. by destruct acc. }
  destruct (0 <? v); [|apply IH].
  destruct (IH (insert_utxo acc.1 (generate_sell_input_change_outpoint a t) (bitcoin_output a v),
                acc.2 ++ [generate_sell_input_change_outpoint a t])) as (l & -> & Hok).
  exists ((generate_sell_input_change_outpoint a t, bitcoin_output a v) :: l). simpl.
  split; [by rewrite <- app_assoc|]. constructor; [|done].
  split; [apply sell_input_change_hash_length|unfold is_u32; lia].
Qed.

(** What an undo entry says was created and consumed. *)
Definition created (e : ConsolidationUndoEntry) : list OutPoint :=
  option_list (cn_new_treasury_utxo e) ++ option_list (cn_new_fee_utxo e)
  ++ cn_sell_payout_utxos e ++ cn_buy_change_utxos e.
Definition consumed (e : ConsolidationUndoEntry) : list (OutPoint * FilledOutput) :=
  cn_old_treasury_utxos e ++ cn_old_fee_utxos e.

(** The same markets but for the pointers to the funds of [id]. *)
Definition only_funds id (db db' : MarketsDatabase) : Prop :=
  db' = set_funds db (market_funds_utxos db') ∧
  ∀ id' b, id' ≠ id → market_funds_utxos db' !! (id', b) = market_funds_utxos db !! (id', b).

Lemma only_funds_refl id db : only_funds id db db.
Proof. split; [by destruct db|done]. Qed.
Lemma only_funds_set id db db' b op : only_funds id db db' → only_funds id db (set_market_funds_utxo db' id b op).
Proof.
  intros [He Hl]. split; [by rewrite He|]. intros id' b' Hne. simpl. rewrite lookup_insert_ne by congruence. by apply Hl.
Qed.
Lemma only_funds_clear id db db' b : only_funds id db db' → only_funds id db (clear_market_funds_utxo db' id b).
Proof.
  intros [He Hl]. split; [by rewrite He|]. intros id' b' Hne. simpl. rewrite lookup_delete_ne by congruence. by apply Hl.
Qed.

(** The outpoints of the funds found are well formed and not new. *)
Definition old_ok (L : gset bytes) s id (b : bool) : Prop :=
  ∀ op o, funds_utxo s id b = Some (op, o) → outpoint_ok op ∧ from_outpoint op ∉ L.

Lemma treasury_edits u L F height buys sells s id s' nt paid changed :
  length id = 6%nat → is_u32 height →
  edited u L F (st_utxos s) → old_ok L s id false →
  consolidate_treasury height buys sells s id = Ok (s', (nt, paid, changed)) →
  Forall outpoint_ok (option_list nt ++ paid ++ changed) ∧
  only_funds id (st_markets s) (st_markets s') ∧
  (creatable u L (paid ++ changed ++ option_list nt) →
   ∃ F', edited u (keyset (paid ++ changed ++ option_list nt) ∪ L) F' (st_utxos s') ∧
         F' ⊆ keyset (map fst (option_list (funds_utxo s id false))) ∪ F).
Proof.
  intros Hid Hh He Hold H. unfold consolidate_treasury in H. destruct (_ && _); cycle 1.
  { simplify_eq. split_and!; [constructor|apply only_funds_refl|]. intros _. exists F.
    split; [by replace (keyset _ ∪ L) with L by (unfold keyset; set_solver)|set_solver]. }
  destruct (pay_sellers_inserts id sells (st_utxos (consume_old s id false), [])) as (lp & Ep & Hlp).
  rewrite Ep in H. simpl in H. inv_ok. destruct a as [t2 ch]. inv_ok.
  match goal with H : try_fold (return_change id) _ _ = Ok _ |- _ =>
    apply return_changes_inserts in H as (lc & [= -> ->] & Hlc) end.
  assert (∃ F', edited u L F' (st_utxos (consume_old s id false)) ∧
    F' ⊆ keyset (map fst (option_list (funds_utxo s id false))) ∪ F) as (F' & He' & HF').
  { unfold consume_old. simpl. destruct (funds_utxo s id false) as [[op o]|] eqn:E; simpl.
    - destruct (Hold _ _ E) as [Hok Hn]. exists ({[from_outpoint op]} ∪ F). split; [by apply edited_consume|].
      rewrite keyset_cons. set_solver.
    - exists F. split; [done|set_solver]. }
  assert (creatable u L (map fst lp ++ map fst lc) →
    edited u (keyset (map fst lp ++ map fst lc) ∪ L) F' (inserts (inserts (st_utxos (consume_old s id false)) lp) lc)) as Hed.
  { intros [Hc1 Hc2]%creatable_app. rewrite keyset_app.
    replace (keyset (map fst lp) ∪ keyset (map fst lc) ∪ L) with (keyset (map fst lc) ∪ (keyset (map fst lp) ∪ L))
      by set_solver. apply edited_creates; [|done]. by apply edited_creates. }
  assert (outpoint_ok (OpMarketFunds id height false)) as Hfok by done.
  match goal with H : context [0 <? ?r] |- _ => destruct (0 <? r) end; simplify_eq; simpl; split_and!.
  - constructor; [done|]. by apply Forall_app.
  - apply only_funds_set, only_funds_clear, only_funds_refl.
  - rewrite app_assoc. intros [Hc Hn]%creatable_app. exists F'. split; [|done].
    destruct Hn as [_ [Hun _]%Forall_cons _ [Hnew _]%Forall_cons].
    rewrite (keyset_app (_ ++ _)), keyset_cons.
    replace (keyset (map fst lp ++ map fst lc) ∪ ({[from_outpoint (OpMarketFunds id height false)]} ∪ keyset []) ∪ L)
      with ({[from_outpoint (OpMarketFunds id height false)]} ∪ (keyset (map fst lp ++ map fst lc) ∪ L))
      by (unfold keyset; set_solver).
    apply edited_create; [by apply Hed|done|done|done].
  - by apply Forall_app.
  - apply only_funds_clear, only_funds_refl.
  - rewrite !app_nil_r. intros Hc. exists F'. split; [by apply Hed|done].
Qed.

Lemma only_funds_trans id db db' db'' : only_funds id db db' → only_funds id db' db'' → only_funds id db db''.
Proof.
  intros [He Hl] [He' Hl']. split; [rewrite He', He; by destruct db|]. intros id' b Hne. rewrite Hl', Hl; done.
Qed.

Lemma fees_edits height buys sells v s id old s' nf :
  length id = 6%nat → is_u32 height →
  consolidate_fees height buys sells v s id old = (s', nf) →
  Forall outpoint_ok (option_list nf) ∧ only_funds id (st_markets s) (st_markets s') ∧
  ∀ u L F, edited u L F (st_utxos s) → creatable u L (option_list nf) →
    (∀ op o, old = Some (op, o) → outpoint_ok op ∧ from_outpoint op ∉ L) →
    ∃ F', edited u (keyset (option_list nf) ∪ L) F' (st_utxos s') ∧
          F' ⊆ keyset (map fst (option_list old)) ∪ F.
Proof.
  intros Hid Hh H. unfold consolidate_fees in H. destruct (_ && _); simplify_eq; simpl; cycle 1.
  { split_and!; [constructor|apply only_funds_refl|]. intros u L F He _ _. exists F.
    split; [by replace (keyset _ ∪ L) with L by (unfold keyset; set_solver)|set_solver]. }
  split_and!.
  - by constructor.
  - apply only_funds_set, only_funds_clear, only_funds_refl.
  - intros u L F He [_ [Hun _]%Forall_cons _ [Hn _]%Forall_cons] Hold. rewrite keyset_cons.
    replace ({[from_outpoint (OpMarketFunds id height true)]} ∪ keyset [] ∪ L)
      with ({[from_outpoint (OpMarketFunds id height true)]} ∪ L) by (unfold keyset; set_solver).
    destruct old as [[op o]|]; simpl.
    + destruct (Hold op o eq_refl) as [Hok Hnew]. exists ({[from_outpoint op]} ∪ F).
      split; [|rewrite keyset_cons; set_solver]. apply edited_create; [by apply edited_consume|done..].
    + exists F. split; [by apply edited_create|set_solver].
Qed.

(** The funds of a market point to well-formed outpoints of [u]. *)
Definition backed_by (u : UtxoTables) (db : MarketsDatabase) id : Prop :=
  ∀ b op, market_funds_utxos db !! (id, b) = Some op → outpoint_ok op ∧ is_Some (utxos u !! from_outpoint op).

Lemma backed_found u L F s id b op o :
  edited u L F (st_utxos s) → backed_by u (st_markets s) id → funds_utxo s id b = Some (op, o) →
  outpoint_ok op ∧ from_outpoint op ∉ L ∧ utxos u !! from_outpoint op = Some o.
Proof.
  intros [_ _ Hf Hl] Hb E. apply funds_utxo_some in E as [Hp Ho]. destruct (Hb _ _ Hp) as [Hok [o' Ho']].
  assert (from_outpoint op ∉ L) as Hn by (intros ?%Hf; congruence). split_and!; [done|done|].
  rewrite Hl in Ho by done. by case_bool_decide.
Qed.

Lemma market_edits u L F height buys sells s id s' e :
  length id = 6%nat → is_u32 height → edited u L F (st_utxos s) → backed_by u (st_markets s) id →
  consolidate_market height buys sells s id = Ok (s', e) →
  (cn_market_id e = id ∧ cn_old_treasury_pointer e = market_funds_utxos (st_markets s) !! (id, false) ∧
   cn_old_fee_pointer e = market_funds_utxos (st_markets s) !! (id, true)) ∧
  Forall outpoint_ok (created e) ∧
  Forall (fun x => outpoint_ok x.1 ∧ utxos u !! from_outpoint x.1 = Some x.2) (consumed e) ∧
  only_funds id (st_markets s) (st_markets s') ∧
  (creatable u L (created e) →
   ∃ F', edited u (keyset (created e) ∪ L) F' (st_utxos s') ∧ F' ⊆ keyset (map fst (consumed e)) ∪ F).
Proof.
  intros Hid Hh He Hb H. unfold consolidate_market in H. inv_ok.
  destruct a0 as [s1 [[nt paid] changed]]. destruct (consolidate_fees _ _ _ _ _ _ _) as [s2 nf] eqn:Ef. inv_ok.
  simplify_eq. unfold created, consumed. simpl.
  assert (old_ok L s id false) as Hold
    by (intros op o E; by destruct (backed_found _ _ _ _ _ _ _ _ He Hb E) as (? & ? & ?)).
  match goal with H : consolidate_treasury _ _ _ _ _ = Ok _ |- _ =>
    eapply treasury_edits in H as (Hok1 & Hm1 & Ht); [|done|done|exact He|done] end.
  destruct (fees_edits _ _ _ _ _ _ _ _ _ Hid Hh Ef) as (Hok2 & Hm2 & Hfee). split_and!; [done..| | | |].
  - apply Forall_app in Hok1 as [? ?]. by do 2 (apply Forall_app; split; [done|]).
  - apply Forall_app. split; [destruct (funds_utxo s id false) as [[op o]|] eqn:E|
      destruct (funds_utxo s id true) as [[op o]|] eqn:E]; repeat constructor; by destruct (backed_found _ _ _ _ _ _ _ _ He Hb E) as (? & ? & ?).
  - by eapply only_funds_trans.
  - intros Hc. assert (creatable u L ((paid ++ changed ++ option_list nt) ++ option_list nf)) as [Hc1 Hc2]%creatable_app.
    { eapply creatable_perm; [|exact Hc]. rewrite app_assoc, <- (Permutation_app_comm (option_list nt)).
      rewrite <- !app_assoc. do 1 f_equiv. by rewrite (Permutation_app_comm (option_list nf)), <- app_assoc. }
    destruct (Ht Hc1) as (F1 & He1 & HF1).
    destruct (Hfee _ _ _ He1 Hc2) as (F2 & He2 & HF2).
    { intros op o E. destruct (backed_found _ _ _ _ _ _ _ _ He Hb E) as (Hok & Hn & Hu). split; [done|].
      destruct He1 as [_ _ Hfr _]. intros ?%Hfr. congruence. }
    exists F2. split.
    + replace (keyset (option_list nt ++ option_list nf ++ paid ++ changed) ∪ L)
        with (keyset (option_list nf) ∪ (keyset (paid ++ changed ++ option_list nt) ∪ L)); [done|].
      rewrite !keyset_app. clear. set_solver.
    + rewrite map_app, keyset_app. clear -HF1 HF2. set_solver.
Qed.

(** ** The block *)

(** The states between the markets: [s0] with the edits of the entries. *)
Record forward s0 s (es : list ConsolidationUndoEntry) (F : gset bytes) : Prop := {
  fw_tables : edited (st_utxos s0) (keyset (flat_map created es)) F (st_utxos s);
  fw_consumed : F ⊆ keyset (map fst (flat_map consumed es));
  fw_held : Forall (fun x => outpoint_ok x.1 ∧ utxos (st_utxos s0) !! from_outpoint x.1 = Some x.2)
              (flat_map consumed es);
  fw_created : Forall outpoint_ok (flat_map created es);
  fw_markets : st_markets s = set_funds (st_markets s0) (market_funds_utxos (st_markets s));
  fw_others : ∀ id b, id ∉ map cn_market_id es →
    market_funds_utxos (st_markets s) !! (id, b) = market_funds_utxos (st_markets s0) !! (id, b);
  fw_pointers : Forall (fun e =>
    cn_old_treasury_pointer e = market_funds_utxos (st_markets s0) !! (cn_market_id e, false) ∧
    cn_old_fee_pointer e = market_funds_utxos (st_markets s0) !! (cn_market_id e, true)) es
}.

Lemma forward_step height sells buys s0 s es F id acc' :
  length id = 6%nat → is_u32 height → backed_by (st_utxos s0) (st_markets s0) id → id ∉ map cn_market_id es →
  forward s0 s es F → consolidate_step height sells buys (s, es) id = Ok acc' →
  ∃ e, acc'.2 = es ++ [e] ∧ cn_market_id e = id ∧ Forall outpoint_ok (created e) ∧
    (creatable (st_utxos s0) (keyset (flat_map created es)) (created e) → ∃ F', forward s0 acc'.1 acc'.2 F').
Proof.
  intros Hid Hh Hb Hni [Ht Hc Hheld Hcr Hm Ho Hp] H. unfold consolidate_step in H. simpl in H. inv_ok.
  destruct a as [s1 e]. inv_ok. simpl. exists e.
  assert (backed_by (st_utxos s0) (st_markets s) id) as Hb' by (intros b op; rewrite Ho by done; apply Hb).
  match goal with H : consolidate_market _ _ _ _ _ = Ok _ |- _ =>
    destruct (market_edits _ _ _ _ _ _ _ _ _ _ Hid Hh Ht Hb' H) as ((Eid & Et & Ef) & Hok & Hcons & [Hm1 Ho1] & He) end.
  split_and!; [done..|]. intros Hcr'. destruct (He Hcr') as (F' & He' & HF'). exists F'. subst id. split.
  - rewrite flat_map_app, keyset_app. simpl. rewrite app_nil_r.
    by replace (keyset (flat_map created es) ∪ keyset (created e))
      with (keyset (created e) ∪ keyset (flat_map created es)) by (clear; set_solver).
  - rewrite flat_map_app, map_app, keyset_app. simpl. rewrite app_nil_r. clear -HF' Hc. set_solver.
  - rewrite flat_map_app. simpl. rewrite app_nil_r. by apply Forall_app.
  - rewrite flat_map_app. simpl. rewrite app_nil_r. by apply Forall_app.
  - rewrite Hm1, Hm. by destruct (st_markets s0).
  - intros id b Hn. rewrite map_app, elem_of_app in Hn. simpl in Hn. rewrite Ho1 by set_solver. apply Ho. tauto.
  - apply Forall_app. split; [done|]. constructor; [|done]. by rewrite Et, Ef, !Ho by done.
Qed.

Lemma steps_prefix height sells buys ids acc acc' :
  try_fold (consolidate_step height sells buys) acc ids = Ok acc' → ∃ more, acc'.2 = acc.2 ++ more.
Proof.
  revert acc. induction ids as [|id ids IH]; intros acc H; simplify_eq/=; [exists []; by rewrite app_nil_r|].
  destruct (consolidate_step _ _ _ acc id) as [acc1|] eqn:E; [|discriminate].
  destruct (IH _ H) as [more ->]. unfold consolidate_step in E. inv_ok. destruct a. inv_ok. simpl.
  eexists (_ :: more). by rewrite <- app_assoc.
Qed.

(** Distinct outpoints that the tables do not hold. *)
Definition unused (u : UtxoTables) (l : list OutPoint) : Prop :=
  Forall (fun op => utxos u !! from_outpoint op = None) l ∧ NoDup (map from_outpoint l).

Lemma unused_app u l k : unused u (l ++ k) → unused u l.
Proof. intros [[H _]%Forall_app Hn]. rewrite map_app in Hn. by apply NoDup_app in Hn as [? _]. Qed.

Lemma unused_creatable u l : Forall outpoint_ok l → unused u l → creatable u ∅ l.
Proof. intros Hok [Hu Hn]. split; [done|done|done|]. apply Forall_true. set_solver. Qed.

Lemma forward_steps height sells buys s0 ids s es F s' es' :
  is_u32 height → Forall (fun id => length id = 6%nat ∧ backed_by (st_utxos s0) (st_markets s0) id) ids →
  NoDup (map cn_market_id es ++ ids) → unused (st_utxos s0) (flat_map created es') →
  forward s0 s es F → try_fold (consolidate_step height sells buys) (s, es) ids = Ok (s', es') →
  ∃ F', forward s0 s' es' F'.
Proof.
  intros Hh Hids Hnd Hun. revert s es F Hnd. induction Hids as [|id ids [Hid Hb] _ IH]; intros s es F Hnd Hf H.
  { simplify_eq/=. by exists F. }
  cbn [try_fold] in H. destruct (consolidate_step _ _ _ (s, es) id) as [[s1 es1]|] eqn:E; [|discriminate].
  destruct (forward_step _ _ _ _ _ _ _ _ _ Hid Hh Hb ltac:(apply NoDup_app in Hnd as (_ & Hd & _); intros Hin;
    by apply (Hd id Hin), list_elem_of_here) Hf E) as (e & Ees & Eid & Hok & Hnext). simpl in Ees, Hnext. subst es1.
  destruct (steps_prefix _ _ _ _ _ _ H) as [more Hmore]. simpl in Hmore. subst es'.
  rewrite !flat_map_app in Hun. apply unused_app in Hun as Hpre. simpl in Hpre. rewrite app_nil_r in Hpre.
  destruct Hnext as [F1 Hf1].
  { apply unused_creatable in Hpre as [_ Hc]%creatable_app; [|apply Forall_app; by destruct Hf].
    by replace (keyset (flat_map created es) ∪ ∅) with (keyset (flat_map created es)) in Hc by (clear; set_solver). }
  eapply IH; [|exact Hf1|done].
  rewrite map_app. simpl. by rewrite <- app_assoc, Eid.
Qed.

(** ** The reversal *)

Lemma revert_deletes u L F s l :
  Forall outpoint_ok l → Forall (fun op => utxos u !! from_outpoint op = None) l → edited u L F (st_utxos s) →
  edited u (L ∖ keyset l) F (st_utxos (foldl revert_delete_utxo s l)) ∧
  st_markets (foldl revert_delete_utxo s l) = st_markets s.
Proof.
  intros Hok Hun. revert L s Hun. induction Hok as [|op l Hop _ IH]; intros L s Hun He.
  { simpl. by replace (L ∖ keyset []) with L by (unfold keyset; set_solver). }
  apply Forall_cons in Hun as [Hop' Hun]. simpl.
  destruct (IH (L ∖ {[from_outpoint op]}) (revert_delete_utxo s op) Hun) as [He' ->]; [by apply edited_uncreate|].
  split; [|done]. rewrite keyset_cons.
  by replace (L ∖ ({[from_outpoint op]} ∪ keyset l)) with (L ∖ {[from_outpoint op]} ∖ keyset l) by (clear; set_solver).
Qed.

Lemma revert_restores u L F s (l : list (OutPoint * FilledOutput)) :
  Forall (fun x => outpoint_ok x.1 ∧ utxos u !! from_outpoint x.1 = Some x.2) l → edited u L F (st_utxos s) →
  edited u L (F ∖ keyset (map fst l)) (st_utxos (foldl restore_utxo s l)) ∧
  st_markets (foldl restore_utxo s l) = st_markets s.
Proof.
  intros Hl. revert F s. induction Hl as [|[op o] l [Hok Hu] _ IH]; intros F s He.
  { simpl. by replace (F ∖ keyset []) with F by (unfold keyset; set_solver). }
  simpl. destruct (IH (F ∖ {[from_outpoint op]}) (restore_utxo s (op, o))) as [He' ->]; [by apply edited_unconsume|].
  split; [|done]. rewrite keyset_cons.
  by replace (F ∖ ({[from_outpoint op]} ∪ keyset (map fst l))) with (F ∖ {[from_outpoint op]} ∖ keyset (map fst l))
    by (clear; set_solver).
Qed.

Lemma restore_pointer_lookup s id b p k :
  market_funds_utxos (st_markets (restore_pointer s id b p)) !! k
  = if bool_decide (k = (id, b)) then p else market_funds_utxos (st_markets s) !! k.
Proof.
  unfold restore_pointer. case_bool_decide as Hk; [subst|]; destruct p; simpl.
  - apply lookup_insert_eq.
  - apply lookup_delete_eq.
  - by apply lookup_insert_ne.
  - by apply lookup_delete_ne.
Qed.

Lemma restore_pointer_markets s id b p :
  st_utxos (restore_pointer s id b p) = st_utxos s ∧
  st_markets (restore_pointer s id b p)
  = set_funds (st_markets s) (market_funds_utxos (st_markets (restore_pointer s id b p))).
Proof. by destruct p. Qed.

(** The states between the reverted entries: what is left of the edits, and of
    the markets whose pointers are not back yet. *)
Record backward s0 s (L F : gset bytes) (ids : list MarketId) : Prop := {
  bw_tables : edited (st_utxos s0) L F (st_utxos s);
  bw_markets : st_markets s = set_funds (st_markets s0) (market_funds_utxos (st_markets s));
  bw_others : ∀ id b, id ∉ ids →
    market_funds_utxos (st_markets s) !! (id, b) = market_funds_utxos (st_markets s0) !! (id, b)
}.

(** An entry of [forward] whose outpoints were unused. *)
Definition entry_ok s0 (e : ConsolidationUndoEntry) : Prop :=
  Forall outpoint_ok (created e) ∧ Forall (fun op => utxos (st_utxos s0) !! from_outpoint op = None) (created e) ∧
  Forall (fun x => outpoint_ok x.1 ∧ utxos (st_utxos s0) !! from_outpoint x.1 = Some x.2) (consumed e) ∧
  cn_old_treasury_pointer e = market_funds_utxos (st_markets s0) !! (cn_market_id e, false) ∧
  cn_old_fee_pointer e = market_funds_utxos (st_markets s0) !! (cn_market_id e, true).

Lemma backward_step s0 s L F ids e :
  entry_ok s0 e → backward s0 s L F ids →
  backward s0 (revert_consolidation_entry s e) (L ∖ keyset (created e)) (F ∖ keyset (map fst (consumed e)))
    (filter (fun id => id ≠ cn_market_id e) ids).
Proof.
  intros (Hok & Hun & Hheld & Et & Ef) [He Hm Ho]. unfold revert_consolidation_entry.
  destruct (revert_deletes _ _ _ _ _ Hok Hun He) as [He1 Hm1]. unfold created in *.
  set (s1 := foldl revert_delete_utxo s _) in *.
  destruct (revert_restores _ _ _ _ _ Hheld He1) as [He2 Hm2]. unfold consumed in *.
  set (s2 := foldl restore_utxo s1 _) in *. clearbody s1 s2. rewrite Hm1 in Hm2.
  destruct (restore_pointer_markets s2 (cn_market_id e) false (cn_old_treasury_pointer e)) as [Hu3 Hm3].
  pose proof (restore_pointer_lookup s2 (cn_market_id e) false (cn_old_treasury_pointer e)) as Hl3.
  set (s3 := restore_pointer s2 _ _ _) in *. clearbody s3.
  destruct (restore_pointer_markets s3 (cn_market_id e) true (cn_old_fee_pointer e)) as [Hu4 Hm4].
  pose proof (restore_pointer_lookup s3 (cn_market_id e) true (cn_old_fee_pointer e)) as Hl4.
  set (s4 := restore_pointer s3 _ _ _) in *. clearbody s4. split.
  - by rewrite Hu4, Hu3.
  - rewrite Hm4, Hm3, Hm2, Hm. by destruct (st_markets s0).
  - intros id b Hn. rewrite Hl4, Hl3, Hm2. repeat case_bool_decide; simplify_eq; [done|done|].
    apply Ho. intros Hin. apply Hn, list_elem_of_filter. split; [|done]. intros ->. destruct b; congruence.
Qed.

Lemma backward_steps s0 es s L F :
  Forall (entry_ok s0) es → backward s0 s L F (map cn_market_id es) →
  backward s0 (foldl revert_consolidation_entry s es) (L ∖ keyset (flat_map created es))
    (F ∖ keyset (map fst (flat_map consumed es))) [].
Proof.
  intros Hes. revert s L F. induction Hes as [|e es He _ IH]; intros s L F Hb; simpl.
  - replace (L ∖ keyset []) with L by (unfold keyset; set_solver).
    by replace (F ∖ keyset []) with F by (unfold keyset; set_solver).
  - pose proof (backward_step _ _ _ _ _ _ He Hb) as [Ht Hm Ho].
    rewrite keyset_app, map_app, keyset_app.
    replace (L ∖ (keyset (created e) ∪ keyset (flat_map created es)))
      with (L ∖ keyset (created e) ∖ keyset (flat_map created es)) by (clear; set_solver).
    replace (F ∖ (keyset (map fst (consumed e)) ∪ keyset (map fst (flat_map consumed es))))
      with (F ∖ keyset (map fst (consumed e)) ∖ keyset (map fst (flat_map consumed es))) by (clear; set_solver).
    apply IH. split; [done|done|]. intros id b Hn. apply Ho. simpl.
    intros [Hne [->|Hin]%elem_of_cons]%list_elem_of_filter; done.
Qed.

Lemma elem_of_market_set_iter (m : gset MarketId) id : id ∈ market_set_iter m → id ∈ m.
Proof.
  unfold market_set_iter. intros ([id' x] & -> & Hin)%list_elem_of_fmap.
  rewrite (market_iter_perm unit), elem_of_map_to_list in Hin. by apply lookup_gset_to_gmap_Some in Hin as [? _].
Qed.

Lemma forward_refl s0 : index_ok (st_utxos s0) → forward s0 s0 [] ∅.
Proof.
  intros Hi. split; simpl; [by apply edited_refl|done|constructor|constructor|by destruct (st_markets s0)|done|constructor].
Qed.

Lemma forward_entries s0 s es F :
  forward s0 s es F → Forall (fun op => utxos (st_utxos s0) !! from_outpoint op = None) (flat_map created es) →
  Forall (entry_ok s0) es.
Proof.
  intros [_ _ Hheld Hcr _ _ Hp] Hun. apply Forall_forall. intros e He. rewrite Forall_forall in Hheld.
  rewrite Forall_forall in Hcr, Hun. rewrite Forall_forall in Hp.
  split_and!; try (apply Hp; done); apply Forall_forall; intros x Hx; [apply Hcr|apply Hun|apply Hheld];
    apply list_elem_of_In, in_flat_map; exists e; by split; apply list_elem_of_In.
Qed.

(** C7: disconnecting a consolidation.  After the end-of-block consolidation
    of any number of markets, with sells, buys and change, reverting it from its
    undo record gives back exactly the UTXO tables, the address index and the
    markets with their pointers: provided the outpoints it created are distinct
    and were unused, and the funds of the markets were backed. *)
Theorem consolidation_roundtrip height sells buys changes s s' undo :
  is_u32 height → index_ok (st_utxos s) →
  (∀ id, id ∈ markets_to_consolidate sells buys →
     length id = 6%nat ∧ backed_by (st_utxos s) (st_markets s) id) →
  consolidate_market_utxos height sells buys changes s = Ok (s', Some undo) →
  unused (st_utxos s) (flat_map created (cn_entries undo) ++ cn_sell_input_change_utxos undo) →
  revert_consolidation s' undo = s.
Proof.
  intros Hh Hi Hids H Hun. unfold consolidate_market_utxos in H. destruct (_ && _); [discriminate|]. inv_ok.
  destruct a as [s1 es]. destruct (input_changes_inserts changes (st_utxos s1, [])) as (lc & Elc & Hlc).
  rewrite Elc in H. simplify_eq. simpl in *. unfold revert_consolidation. simpl.
  destruct (forward_steps height sells buys s (market_set_iter (markets_to_consolidate sells buys)) s [] ∅ s1 es Hh)
    as [F Hf]; [|apply market_set_iter_NoDup|by eapply unused_app|by apply forward_refl|done|].
  { apply Forall_forall. intros id Hin. by apply Hids, elem_of_market_set_iter. }
  destruct Hun as [[Hun1 Hun2]%Forall_app Hnd].
  pose proof (forward_entries _ _ _ _ Hf Hun1) as Hes. destruct Hf as [Ht HF _ Hcr Hm Ho _].
  assert (creatable (st_utxos s) (keyset (flat_map created es)) (map fst lc)) as Hc.
  { assert (creatable (st_utxos s) ∅ (flat_map created es ++ map fst lc)) as [_ Hc]%creatable_app.
    { apply unused_creatable; [by apply Forall_app|]. split; [by apply Forall_app|done]. }
    by replace (keyset (flat_map created es) ∪ ∅) with (keyset (flat_map created es)) in Hc by (clear; set_solver). }
  pose proof (edited_creates _ _ _ _ lc Ht Hc) as Ht'.
  assert (backward s (with_utxos s1 (inserts (st_utxos s1) lc)) (keyset (map fst lc) ∪ keyset (flat_map created es)) F
    (map cn_market_id (rev es))) as Hb.
  { split; [done|done|]. intros id b Hn. apply Ho. by rewrite map_rev, <- Permutation_rev in Hn. }
  destruct (backward_steps s (rev es) _ _ _ ltac:(by apply Forall_rev) Hb) as [Hte Hme Hoe].
  rewrite !flat_map_rev_perm in Hte.
  destruct (revert_deletes _ _ _ _ (map fst lc) Hlc Hun2 Hte) as [Htf Hmf].
  set (r := foldl revert_delete_utxo _ _) in *. destruct r as [db t]. simpl in *. destruct s as [db0 t0]. simpl in *.
  f_equal.
  - rewrite Hmf, Hme. assert (market_funds_utxos db = market_funds_utxos db0) as Heq.
    { apply map_eq. intros [id b]. rewrite Hmf. apply Hoe. set_solver. }
    rewrite <- Hmf, Heq. by destruct db0.
  - apply edited_done; [done|]. clear -Htf HF.
    replace ((keyset (map fst lc) ∪ keyset (flat_map created es)) ∖ keyset (flat_map created es) ∖ keyset (map fst lc))
      with (∅ : gset bytes) in Htf by set_solver.
    by replace (F ∖ keyset (map fst (flat_map consumed es))) with (∅ : gset bytes) in Htf by set_solver.
Qed.

End Market.
