(* ===== verification/BlockConnect.v ===== *)
(** * Connecting and disconnecting a block

    Model of [StateUpdate::apply_all_changes], [connect_prevalidated],
    [revert_trade_market_state] and [disconnect_tip] (src/lib/state/block.rs) and
    of [State::apply_block] (src/lib/state/mod.rs).  Every function is given the
    tables and returns the tables it leaves; an error returns none, since the
    write transaction is dropped. *)

From stdpp Require Import base numbers list strings gmap.
From S2P Require Import Prelude Float64 SafeMath MarketMath StateErrors DecisionTypes Periods Pricing DecisionsDb.
From S2P Require Import Markets Transactions TwoWayPeg Bodies Archive Voting Oracle MarketsDb TxPow StateModel Validation.
From S2P Require Import BlockUpdate Consolidation.

Section BlockConnect.
Context {AM : BitcoinAmount} {BH : BodyHashes} {AE : ArchiveEnv} {VE : ValidationEnv} {BE : BlockEnv}.
Implicit Types (s : State) (u : StateUpdate) (tx : FilledTransaction).

(** ** Applying the update of a block *)

(** The deltas of each market, in the order of the updates. *)
Definition push_delta (acc : gmap MarketId (list (Z * Z * option Z))) (x : MarketStateUpdate)
  : gmap MarketId (list (Z * Z * option Z)) :=
  match mu_share_delta x with
  | Some (i, delta) =>
      <[mu_market_id x := default [] (acc !! mu_market_id x) ++ [(i, delta, mu_volume_sats x)]]> acc
  | None => acc
  end.
Definition aggregated_deltas u : gmap MarketId (list (Z * Z * option Z)) :=
  foldl push_delta ∅ (up_market_updates u).

Definition apply_delta (acc : Market * list Z) (d : Z * Z * option Z) : result Error (Market * list Z) :=
  let '(i, delta, volume) := d in
  shares ← add_at acc.2 i delta;
  m ← match volume with
      | Some v => map_err (fun _ => InvalidTransaction "Failed to update volume")
                    (update_trading_volume acc.1 i v)
      | None => Ok acc.1
      end;
  Ok (m, shares).

Definition apply_market_deltas (height : Z) (db : MarketsDatabase) (e : MarketId * list (Z * Z * option Z))
  : result Error MarketsDatabase :=
  m ← ok_or (get_market db e.1) (InvalidTransaction "Market not found");
  '(m, shares) ← try_fold apply_delta (m, m_shares m) e.2;
  m ← map_err (fun _ => InvalidTransaction "Failed to update market state")
        (update_state m height None (Some shares) None);
  db ← update_market db m;
  Ok (clear_mempool_shares db e.1).

Definition push_amplify (acc : gmap MarketId Z) (b : PendingBuySettlement) : gmap MarketId Z :=
  if bs_is_amplify b
  then <[bs_market_id b := as_u64 (default 0 (acc !! bs_market_id b) + bs_lmsr_cost_sats b)]> acc
  else acc.
Definition amplify_by_market u : gmap MarketId Z := foldl push_amplify ∅ (up_pending_buy_settlements u).

Definition apply_amplify (db : MarketsDatabase) (e : MarketId * Z) : result Error MarketsDatabase :=
  m ← ok_or (get_market db e.1) (InvalidTransaction "Market not found");
  base ← ok_or (checked_add_u64 (m_liquidity_base_sats m) e.2) (InvalidTransaction "Liquidity base overflow");
  update_market db (set_liquidity_base m base).

(** One change of a position: shares are added, or removed if it is negative. *)
Definition change_shares (height : Z) (address : Address) (id : MarketId) (db : MarketsDatabase)
  (e : Z * Z) : result Error MarketsDatabase :=
  if 0 <? e.2 then Ok (add_shares_to_account db address id e.1 e.2 height) else
  if e.2 <? 0 then remove_shares_from_account db address id e.1 (as_i64 (- e.2)) height else Ok db.

Definition change_account (height : Z) (db : MarketsDatabase) (e : Address * MarketId * gmap Z Z)
  : result Error MarketsDatabase :=
  try_fold (change_shares height e.1.1 e.1.2) db (outcome_iter e.2).

Definition traded_markets u : gset MarketId :=
  list_to_set (map (fun e => e.1.2) (map_to_list (up_share_account_changes u))).

Definition set_settled s (t : SettleState) : State := set_s_utxos (set_s_markets s (st_markets t)) (st_utxos t).
Definition settle_state s : SettleState := {| st_markets := s_markets s; st_utxos := s_utxos s |}.

Definition apply_all_changes u s (height : Z) : result Error (State * option ConsolidationUndoData) :=
  let db := foldl add_market (s_markets s) (up_market_creations u) in
  db ← try_fold (apply_market_deltas height) db (market_iter (aggregated_deltas u));
  db ← try_fold apply_amplify db (market_iter (amplify_by_market u));
  db ← try_fold (change_account height) db (account_iter (up_share_account_changes u));
  _ ← try_fold (fun _ => verify_share_invariant db) tt (market_set_iter (traded_markets u));
  let s := set_s_voting (set_s_markets s db) (foldl put_vote (s_voting s) (up_vote_submissions u)) in
  '(t, undo) ← consolidate_market_utxos height (up_pending_sell_payouts u) (up_pending_buy_settlements u)
                 (up_pending_sell_input_changes u) (settle_state s);
  Ok (set_settled s t, undo).

(** ** Connecting *)

Definition genesis_reputation (body : Body) (r : Reputations) : Reputations :=
  match cb_outputs (coinbase body) with
  | o :: _ => set_reputation r (out_address o) f64_one
  | [] => r
  end.

(** What is written before the transactions: the genesis records, the pricing
    snapshot and the minting undo, then the decisions whose period came. *)
Definition begin_block s (body : Body) (timestamp height : Z) : result Error (State * Z * Z) :=
  let s := if height =? 0
           then set_s_reputation (set_s_genesis_timestamp s (Some timestamp))
                  (genesis_reputation body (s_reputation s))
           else s in
  let genesis_ts := default 0 (s_genesis_timestamp s) in
  let prev_highest := default 0 (get_highest_minted_period (s_decisions s)) in
  let s := set_s_decisions s (snapshot_period_pricing (s_decisions s) height) in
  let s := set_s_minting_undo s (<[height := prev_highest]> (s_minting_undo s)) in
  current_period ← dbs_get_current_period (s_decisions s) timestamp (Some height) genesis_ts;
  db ← try_fold (fun db id => transition_decision_to_voting db id height) (s_decisions s)
         (get_claimed_decisions_needing_voting (s_decisions s) current_period);
  Ok (set_s_decisions s db, genesis_ts, current_period).

Definition coinbase_content (c : Content) : result Error FilledContent :=
  match c with
  | CBitcoin value => Ok (FBitcoin value)
  | CWithdrawal w => Ok (FBitcoinWithdrawal w)
  | CMarketFunds _ _ _ => Err (Panicked "coinbase output of market funds")
  end.

Definition create_coinbase (id : bytes) (tables : UtxoTables) (e : Z * Output) : result Error UtxoTables :=
  content ← coinbase_content (out_content e.2);
  Ok (insert_utxo tables (OpCoinbase id (as_u32 e.1))
        {| out_address := out_address e.2; out_content := content; out_memo := out_memo e.2 |}).

Definition connect_coinbase (header : Header) (body : Body) (tables : UtxoTables) : result Error UtxoTables :=
  _ ← validate_coinbase_outputs (cb_outputs (coinbase body));
  try_fold (create_coinbase (coinbase_txid header)) tables (enumerate 0 (cb_outputs (coinbase body))).

(** One transaction of the loop; the accumulator is the state, the update and
    the indices skipped so far. *)
Definition apply_tx (height : Z) (acc : State * StateUpdate * gset Z) (e : Z * FilledTransaction)
  : result Error (State * StateUpdate * gset Z) :=
  let '(s, u, skipped) := acc in
  let '(idx, tx) := e in
  match tx_data (transaction tx) with
  | Some (Trade _ _ _ _ _ _ _) =>
      '(r, u) ← apply_trade s tx u;
      Ok (s, u, match r with Applied => skipped | Skipped _ => {[idx]} ∪ skipped end)
  | Some (CreateMarket _ _ _ _ _ _ _ _) => '(s, u) ← apply_market_creation s tx u height; Ok (s, u, skipped)
  | Some (ClaimDecision _) => s ← apply_decision_claim s tx height; Ok (s, u, skipped)
  | Some (SubmitVote _ _ _ _) => u ← apply_submit_vote s tx u height; Ok (s, u, skipped)
  | Some (SubmitBallot _ _ _) => u ← apply_submit_ballot s tx u height; Ok (s, u, skipped)
  | Some (TransferReputation _ _ _) => s ← apply_transfer_reputation s tx height; Ok (s, u, skipped)
  | Some (AmplifyBeta _ _ _) => u ← apply_amplify_beta tx u; Ok (s, u, skipped)
  | None => Ok (s, u, skipped)
  end.

Definition spend_tx (skipped : gset Z) (tables : UtxoTables) (e : Z * FilledTransaction)
  : result Error UtxoTables :=
  if bool_decide (e.1 ∈ skipped) then Ok tables else apply_utxo_changes tx_txid tables e.2.

Definition put_consolidation_undo s (height : Z) (undo : option ConsolidationUndoData) : State :=
  match undo with
  | Some d => set_s_consolidation_undo s (<[height := d]> (s_consolidation_undo s))
  | None => s
  end.

(** The transactions of the block, their fees, and the update they built. *)
Definition connect_transactions s (height value : Z) (txs : list FilledTransaction)
  : result Error (State * gset Z) :=
  '(s, u, skipped) ← try_fold (apply_tx height) (s, StateUpdate_new, ∅) (enumerate 0 txs);
  _ ← validate_all_changes u s;
  _ ← validate_fees value txs skipped;
  tables ← try_fold (spend_tx skipped) (s_utxos s) (enumerate 0 txs);
  '(s, undo) ← apply_all_changes u (set_s_utxos s tables) height;
  Ok (put_consolidation_undo s height undo, skipped).

(** *** Closing periods *)

Definition push_period (acc : gmap Z (list DecisionId)) (id : DecisionId) : gmap Z (list DecisionId) :=
  <[voting_period id := default [] (acc !! voting_period id) ++ [id]]> acc.
Definition periods_to_resolve (ids : list DecisionId) : list (Z * list DecisionId) :=
  db_iter Z.compare (foldl push_period ∅ ids).

Definition consensus_state s : ConsensusState :=
  {| cs_voting := s_voting s; cs_reputation := s_reputation s; cs_decisions := s_decisions s |}.
Definition set_consensus s (c : ConsensusState) : State :=
  set_s_decisions (set_s_reputation (set_s_voting s (cs_voting c)) (cs_reputation c)) (cs_decisions c).

Definition closed_period (config : DecisionConfig) (genesis_ts : Z) (e : Z * list DecisionId) : VotingPeriod :=
  let '(start_ts, end_ts) := calculate_period_boundaries e.1 config genesis_ts in
  {| vp_id := e.1; start_timestamp := start_ts; end_timestamp := end_ts; status := Closed;
     decision_ids := e.2 |}.

Definition resolve_period (genesis_ts timestamp height : Z)
  (acc : ConsensusState * list ConsensusUndoEntry) (e : Z * list DecisionId)
  : result Error (ConsensusState * list ConsensusUndoEntry) :=
  let '(c, undos) := acc in
  '(c, undo) ← calculate_and_store_consensus run_consensus c
                 (closed_period (config (cs_decisions c)) genesis_ts e) timestamp height;
  Ok (c, match undo with Some x => undos ++ [x] | None => undos end).

Definition resolve_periods s (genesis_ts timestamp height current_period : Z) : result Error State :=
  let ready := get_voting_decisions_needing_resolution (s_decisions s) current_period in
  '(c, undos) ← try_fold (resolve_period genesis_ts timestamp height) (consensus_state s, [])
                  (periods_to_resolve ready);
  let s := set_consensus s c in
  Ok (if bool_decide (undos = []) then s
      else set_s_consensus_undo s (<[height := undos]> (s_consensus_undo s))).

Definition settle_resolved s (height : Z) : result Error State :=
  match transition_and_payout_resolved_markets share_payout_hash array_sum (s_decisions s) (s_voting s)
          (s_reputation s) height (settle_state s) with
  | None => Err (Panicked "price of an outcome")
  | Some r =>
      '(t, undos) ← r;
      let s := set_settled s t in
      Ok (if bool_decide (undos = []) then s
          else set_s_settlement_undo s (<[height := undos]> (s_settlement_undo s)))
  end.

Definition update_pricing s (timestamp height genesis_ts : Z) : result Error State :=
  db ← (if height =? 0 then mint_genesis (s_decisions s) timestamp height genesis_ts
        else process_block_pricing (s_decisions s) height timestamp genesis_ts);
  Ok (set_s_decisions s db).

(** The last writes: the skipped indices and the tip. *)
Definition finish_block s (header : Header) (timestamp height : Z) (skipped : gset Z) : State :=
  let s := if bool_decide (skipped = ∅) then s
           else set_s_skipped_tx_indices_undo s
                  (<[height := sort_by Z.compare (map as_u32 (elements skipped))]>
                     (s_skipped_tx_indices_undo s)) in
  set_s_mainchain_timestamp (set_s_height (set_s_tip s (Some (header_hash header))) (Some height))
    (Some timestamp).

Definition connect_prevalidated s (header : Header) (body : Body) (timestamp : Z) (p : PrevalidatedBlock)
  : result Error State :=
  let height := pb_next_height p in
  '(s, genesis_ts, current_period) ← begin_block s body timestamp height;
  tables ← connect_coinbase header body (s_utxos s);
  '(s, skipped) ← connect_transactions (set_s_utxos s tables) height (pb_coinbase_value p)
                    (pb_filled_transactions p);
  s ← update_pricing s timestamp height genesis_ts;
  s ← resolve_periods s genesis_ts timestamp height current_period;
  s ← settle_resolved s height;
  Ok (finish_block s header timestamp height skipped).

Context {PH : PowHashes}.

Definition apply_block s (a : Archive) (header : Header) (body : Body) (timestamp : Z) : result Error State :=
  p ← prevalidate s a header body;
  connect_prevalidated s header body timestamp p.

(** ** Disconnecting *)

(** The record a reverted trade leaves for the accounts. *)
Record TradeShareDelta : Type := {
  td_address : Address;
  td_market_id : MarketId;
  td_outcome_index : Z;
  td_share_delta : Z
}.

(** The market before a buy, from the one after it: the cost is computed again
    to take back the volume. *)
Definition revert_buy (m : Market) (outcome delta height : Z) : result Error Market :=
  pre_trade_shares ← add_at (m_shares m) outcome (- delta);
  base_cost ← lmsr_cost pre_trade_shares (m_shares m) (market_beta m) "LMSR calc failed during buy trade revert";
  cost ← map_err (fun _ => InvalidTransaction "Buy cost calc failed during trade revert")
           (Trading.calculate_buy_cost base_cost (m_trading_fee m));
  m ← map_err (fun _ => InvalidTransaction "Volume revert failed during buy trade revert")
        (revert_trading_volume m outcome (Trading.total_cost_sats cost));
  map_err (fun _ => InvalidTransaction "Failed to revert market shares")
    (update_shares m pre_trade_shares height).

Definition revert_sell (m : Market) (outcome delta height : Z) : result Error Market :=
  pre_trade_shares ← add_at (m_shares m) outcome delta;
  base_cost ← lmsr_cost (m_shares m) pre_trade_shares (market_beta m) "LMSR calc failed during sell trade revert";
  proceeds ← map_err (fun _ => InvalidTransaction "Sell proceeds calc failed during trade revert")
               (Trading.calculate_sell_proceeds base_cost (m_trading_fee m));
  m ← map_err (fun _ => InvalidTransaction "Volume revert failed during sell trade revert")
        (revert_trading_volume m outcome (Trading.gross_proceeds_sats proceeds));
  map_err (fun _ => InvalidTransaction "Failed to revert market shares")
    (update_shares m pre_trade_shares height).

Definition delete_utxos (tables : UtxoTables) (l : list OutPoint) : UtxoTables :=
  foldl (fun tables o => (delete_utxo tables o).2) tables l.

Definition revert_trade_market_state s tx : result Error (State * TradeShareDelta) :=
  t ← ok_or (trade tx) (InvalidTransaction "Not a trade transaction");
  let height := default 0 (s_height s) in
  m ← ok_or (get_market (s_markets s) (tv_market_id t))
        (InvalidTransaction "Market not found during trade revert");
  let delta := as_i64 (shares_abs t) in
  m ← (if is_buy t then revert_buy m (tv_outcome_index t) delta height
       else revert_sell m (tv_outcome_index t) delta height);
  db ← update_market (s_markets s) m;
  let outpoints := if is_buy t
    then [generate_buy_change_outpoint (tv_market_id t) (tv_trader t) (txid tx)]
    else [generate_sell_payout_outpoint (tv_market_id t) (tv_trader t) (txid tx);
          generate_sell_input_change_outpoint (tv_trader t) (txid tx)] in
  Ok (set_s_utxos (set_s_markets s db) (delete_utxos (s_utxos s) outpoints),
      {| td_address := tv_trader t; td_market_id := tv_market_id t; td_outcome_index := tv_outcome_index t;
         td_share_delta := if is_buy t then as_i64 (- delta) else delta |}).

(** One transaction of the loop, taken last first. *)
Definition revert_tx_data s tx : result Error (State * list TradeShareDelta) :=
  let only c := s ← c; Ok (s, []) in
  match tx_data (transaction tx) with
  | None | Some (TransferReputation _ _ _) => Ok (s, [])
  | Some (ClaimDecision _) => only (revert_claim_transaction s tx)
  | Some (CreateMarket _ _ _ _ _ _ _ _) => only (revert_create_market s tx)
  | Some (Trade _ _ _ _ _ _ _) => '(s, d) ← revert_trade_market_state s tx; Ok (s, [d])
  | Some (SubmitVote _ _ _ _) => only (revert_submit_vote s tx)
  | Some (SubmitBallot _ _ _) => only (revert_submit_ballot s tx)
  | Some (AmplifyBeta _ _ _) => only (revert_amplify_beta s tx)
  end.

Definition revert_tx (skipped : gset Z) (acc : State * list TradeShareDelta) (e : Z * Transaction)
  : result Error (State * list TradeShareDelta) :=
  let '(s, deltas) := acc in
  if bool_decide (as_u32 e.1 ∈ skipped) then Ok acc else
  tx ← match fill_transaction_from_stxos tx_txid (s_utxos s) e.2 with
       | Some r => r
       | None => Err (Panicked "inpoint of a spent output")
       end;
  '(s, new) ← revert_tx_data s tx;
  tables ← revert_utxo_changes tx_txid (s_utxos s) e.2;
  Ok (set_s_utxos s tables, deltas ++ new).

Definition batch_delta (acc : gmap (Address * MarketId) (gmap Z Z)) (d : TradeShareDelta)
  : gmap (Address * MarketId) (gmap Z Z) :=
  let key := (td_address d, td_market_id d) in
  let changes := default ∅ (acc !! key) in
  let changes := match changes !! td_outcome_index d with
                 | Some v => <[td_outcome_index d := as_i64 (v + td_share_delta d)]> changes
                 | None => <[td_outcome_index d := td_share_delta d]> changes
                 end in
  <[key := changes]> acc.

Definition revert_accounts (height : Z) (db : MarketsDatabase) (deltas : list TradeShareDelta)
  : result Error MarketsDatabase :=
  try_fold (change_account height) db (account_iter (foldl batch_delta ∅ deltas)).

(** *** The undo records *)

Definition undo_settlement s (height : Z) : State :=
  match s_settlement_undo s !! height with
  | Some undo =>
      let s := set_settled s (revert_settlement share_payout_hash height (settle_state s) undo) in
      set_s_settlement_undo s (delete height (s_settlement_undo s))
  | None => s
  end.

Definition undo_consensus s (height : Z) : State :=
  match s_consensus_undo s !! height with
  | Some undo =>
      let s := set_consensus s (revert_consensus (consensus_state s) undo) in
      set_s_consensus_undo s (delete height (s_consensus_undo s))
  | None => s
  end.

Definition undo_consolidation s (height : Z) : State :=
  match s_consolidation_undo s !! height with
  | Some undo =>
      let s := set_settled s (revert_consolidation (settle_state s) undo) in
      set_s_consolidation_undo s (delete height (s_consolidation_undo s))
  | None => s
  end.

Definition undo_reputation_transfers s (height : Z) : State :=
  match s_reputation_transfer_undo s !! height with
  | Some entries =>
      let s := set_s_reputation s (foldl revert_transfer (s_reputation s) (rev entries)) in
      set_s_reputation_transfer_undo s (delete height (s_reputation_transfer_undo s))
  | None => s
  end.

Definition undo_transactions s (height : Z) (txs : list Transaction) : result Error State :=
  let skipped : gset Z := list_to_set (default [] (s_skipped_tx_indices_undo s !! height)) in
  '(s, deltas) ← try_fold (revert_tx skipped) (s, []) (rev (enumerate 0 txs));
  let s := if bool_decide (skipped = ∅) then s
           else set_s_skipped_tx_indices_undo s (delete height (s_skipped_tx_indices_undo s)) in
  db ← revert_accounts height (s_markets s) deltas;
  Ok (set_s_markets s db).

Definition remove_coinbase (id : bytes) (tables : UtxoTables) (vout : Z) : result Error UtxoTables :=
  let outpoint := OpCoinbase id (as_u32 vout) in
  match delete_utxo tables outpoint with
  | (true, tables) => Ok tables
  | (false, _) => Err (NoUtxo outpoint)
  end.

Definition disconnect_coinbase (header : Header) (body : Body) (tables : UtxoTables) : result Error UtxoTables :=
  try_fold (remove_coinbase (coinbase_txid header)) tables
    (rev (range 0 (Z.of_nat (length (cb_outputs (coinbase body)))))).

Definition undo_decisions s (height : Z) : State :=
  let s := if 0 <? height
           then set_s_decisions s (rollback_decision_states_to_height (s_decisions s) (height - 1)) else s in
  let s := match s_minting_undo s !! height with
           | Some prev_highest =>
               set_s_minting_undo (set_s_decisions s (delete_periods_above (s_decisions s) prev_highest))
                 (delete height (s_minting_undo s))
           | None => s
           end in
  set_s_decisions s (restore_period_pricing_undo (s_decisions s) height).

Definition previous_tip s (header : Header) (height : Z) : result Error State :=
  match prev_side_hash header with
  | None => if height =? 0 then Ok (set_s_height (set_s_tip s None) None) else Err NoTip
  | Some prev => if height =? 0 then Err NoTip
                 else Ok (set_s_height (set_s_tip s (Some prev)) (Some (height - 1)))
  end.

Definition disconnect_tip s (header : Header) (body : Body) : result Error State :=
  tip ← ok_or (s_tip s) NoTip;
  _ ← bail_if (negb (bool_decide (tip = header_hash header))) (InvalidHeaderBlockHash tip (header_hash header));
  let root := compute_merkle_root (coinbase body) (transactions body) in
  _ ← bail_if (negb (bool_decide (root = merkle_root header))) (InvalidBody (merkle_root header) root);
  height ← ok_or (s_height s) NoTip;
  let s := undo_settlement s height in
  let s := undo_consensus s height in
  let s := undo_consolidation s height in
  s ← undo_transactions s height (transactions body);
  let s := undo_reputation_transfers s height in
  tables ← disconnect_coinbase header body (s_utxos s);
  let s := undo_decisions (set_s_utxos s tables) height in
  previous_tip s header height.

End BlockConnect.
