(* ===== verification/BlockFacts.v ===== *)
(** * What a block commits and takes back

    Transfers of reputation are undone exactly, and the shares and liquidity a
    trade is priced at inside a block are those the block commits. *)

From stdpp Require Import base numbers list strings gmap.
From S2P Require Import Prelude Float64 SafeMath MarketMath StateErrors DecisionTypes Periods Pricing DecisionsDb.
From S2P Require Import Markets Transactions TwoWayPeg Bodies Archive Voting MarketsDb MarketsDbFacts SettlementFacts.
From S2P Require Import TxPow StateModel Validation BlockUpdate Consolidation BlockConnect.

(** ** Reputation transfers *)

Section Transfers.
Context {AM : BitcoinAmount} {BH : BodyHashes}.
Implicit Types (s : State) (r : Reputations).

(** The table holds no reputation that [set_reputation] would delete. *)
Definition reputations_ok r : Prop := map_Forall (fun _ v => f64_le v f64_zero = false) r.

Lemma set_reputation_ok r a v : reputations_ok r → reputations_ok (set_reputation r a v).
Proof.
  intros Hr. unfold set_reputation. destruct (f64_le v f64_zero) eqn:E; [by apply map_Forall_delete|].
  by apply map_Forall_insert_2.
Qed.

Lemma set_reputation_ne r a v k : k ≠ a → set_reputation r a v !! k = r !! k.
Proof. intros Hne. unfold set_reputation. case_match; [by rewrite lookup_delete_ne|by rewrite lookup_insert_ne]. Qed.

(** Writing back what another table says of an address. *)
Lemma restore_reputation r r' a k :
  reputations_ok r → set_reputation r' a (get_reputation r a) !! k = if decide (k = a) then r !! k else r' !! k.
Proof.
  intros Hr. destruct (decide (k = a)) as [->|Hne]; [|by apply set_reputation_ne].
  unfold set_reputation, get_reputation. destruct (r !! a) as [v|] eqn:E; simpl.
  - rewrite (Hr _ _ E). by rewrite lookup_insert_eq.
  - change (f64_le f64_zero f64_zero) with true. apply lookup_delete_eq.
Qed.

Lemma revert_transfer_step r a b x y :
  reputations_ok r →
  revert_transfer (set_reputation (set_reputation r a x) b y)
    {| rt_sender := a; rt_sender_pre_reputation := get_reputation r a;
       rt_receiver := b; rt_receiver_pre_reputation := get_reputation r b |} = r.
Proof.
  intros Hr. apply map_eq. intros k. unfold revert_transfer. simpl.
  rewrite (restore_reputation r) by done. destruct (decide (k = b)) as [->|Hb]; [done|].
  rewrite (restore_reputation r) by done. destruct (decide (k = a)) as [->|Ha]; [done|].
  by rewrite !set_reputation_ne.
Qed.

(** Transfers of reputation are undone exactly.  Whatever transfers a block
    makes, in any order and between any holders, undoing them from the records
    they left gives back the state before the first one, bit for bit. *)
Theorem transfers_roundtrip s height txs s' :
  reputations_ok (s_reputation s) → s_reputation_transfer_undo s !! height = None → txs ≠ [] →
  try_fold (fun s tx => apply_transfer_reputation s tx height) s txs = Ok s' →
  undo_reputation_transfers s' height = s.
Proof.
  intros Hr Hn Hne H.
  apply (try_fold_inv (fun seen t => seen = [] ∧ t = s ∨ reputations_ok (s_reputation t) ∧
    ∃ es, t = set_s_reputation_transfer_undo (set_s_reputation s (s_reputation t))
                (<[height := es]> (s_reputation_transfer_undo s)) ∧
          foldl revert_transfer (s_reputation t) (rev es) = s_reputation s)) in H as [[-> _]|(_ & es & -> & Hes)].
  - done.
  - unfold undo_reputation_transfers. simpl. rewrite lookup_insert_eq. simpl in *. rewrite Hes.
    unfold set_s_reputation_transfer_undo, set_s_reputation. simpl. rewrite delete_insert_id by done. by destruct s.
  - by left.
  - intros seen t tx t' Hinv _ Ht. right. unfold apply_transfer_reputation in Ht. inv_ok.
    assert (reputations_ok (s_reputation t)) as Hrt by (destruct Hinv as [[_ ->]|[? _]]; done).
    split; [by apply set_reputation_ok, set_reputation_ok|].
    destruct Hinv as [[_ ->]|(_ & es & Et & Hes)].
    + eexists [_]. rewrite Hn. split; [done|]. simpl. by apply revert_transfer_step.
    + exists (es ++ [{| rt_sender := tr_sender a;
                        rt_sender_pre_reputation := get_reputation (s_reputation t) (tr_sender a);
                        rt_receiver := tr_dest a;
                        rt_receiver_pre_reputation := get_reputation (s_reputation t) (tr_dest a) |}]). split.
      * rewrite Et. simpl. rewrite lookup_insert_eq. simpl. by rewrite insert_insert_eq.
      * rewrite rev_app_distr. simpl. by rewrite revert_transfer_step.
Qed.

End Transfers.

(** ** The running state of a market *)

Section Running.
Context {AM : BitcoinAmount} {BH : BodyHashes} {BE : BlockEnv}.
Implicit Types (s : State) (u : StateUpdate) (db : MarketsDatabase) (id : MarketId).

(** Every market is stored under its own id. *)
Definition ids_ok db : Prop := map_Forall (fun id m => m_id m = id) (markets db).

Lemma update_market_markets db m db' :
  update_market db m = Ok db' → markets db' = <[m_id m := m]> (markets db).
Proof.
  unfold update_market. intros H. inv_ok. destruct (get_market db (m_id m)) as [o|]; [|done].
  by destruct (write_market_frame db m o) as [-> _].
Qed.

Lemma add_market_markets db m : markets (add_market db m) = <[m_id m := m]> (markets db).
Proof.
  unfold add_market.
  match goal with |- context [update_decisions ?d ?i ?l true] =>
    destruct (update_decisions_frame d i l true) as (-> & _) end. by case_match.
Qed.

(** A loop over the entries of a map that writes at the key of the entry: a key
    is written by its own entry, once. *)
Lemma keyed_fold {A} (f : MarketsDatabase → MarketId * A → result Error MarketsDatabase) l id db db' :
  (∀ db e db', ids_ok db → f db e = Ok db' → ids_ok db' ∧ ∀ k, k ≠ e.1 → get_market db' k = get_market db k) →
  NoDup (map fst l) → ids_ok db → try_fold f db l = Ok db' →
  ids_ok db' ∧
  (id ∉ map fst l ∧ get_market db' id = get_market db id ∨
   ∃ a db1 db2, (id, a) ∈ l ∧ get_market db1 id = get_market db id ∧ ids_ok db1 ∧ f db1 (id, a) = Ok db2 ∧
     get_market db' id = get_market db2 id).
Proof.
  intros Hf. revert db. induction l as [|[k a] l IH]; intros db Hnd Hok H; simpl in *.
  { simplify_eq. split; [done|]. left. by split; [apply not_elem_of_nil|]. }
  destruct (f db (k, a)) as [db1|] eqn:E; [|discriminate]. apply NoDup_cons in Hnd as [Hk Hnd].
  destruct (Hf _ _ _ Hok E) as [Hok1 Hother]. destruct (IH db1 Hnd Hok1 H) as [Hok' Hcase]. split; [done|].
  destruct (decide (id = k)) as [->|Hne].
  - right. destruct Hcase as [[_ Hg]|(a' & db2 & db3 & Hin & _)].
    + exists a, db, db1. split_and!; [apply list_elem_of_here|done..].
    + exfalso. apply Hk. by apply (list_elem_of_fmap_2 fst) in Hin.
  - rewrite Hother in Hcase by done. destruct Hcase as [[Hn Hg]|(a' & db2 & db3 & Hin & ? & ? & ? & ?)].
    + left. split; [set_solver|done].
    + right. exists a', db2, db3. split_and!; [by apply list_elem_of_further|done..].
Qed.

Lemma written_at db m db' id :
  ids_ok db → m_id m = id → markets db' = <[m_id m := m]> (markets db) →
  ids_ok db' ∧ (∀ k, k ≠ id → get_market db' k = get_market db k) ∧ get_market db' id = Some m.
Proof.
  intros Hok <- Hm. unfold ids_ok, get_market. rewrite Hm. split_and!.
  - by apply map_Forall_insert_2.
  - intros k Hk. by rewrite lookup_insert_ne.
  - apply lookup_insert_eq.
Qed.

(** The loop over the deltas of a market adds up the shares as the running
    state does; identity and liquidity are untouched. *)
Lemma apply_deltas_shares ds m sh m' sh' :
  try_fold apply_delta (m, sh) ds = Ok (m', sh') →
  try_fold add_delta sh (map fst ds) = Ok sh' ∧ m_id m' = m_id m ∧ length (m_shares m') = length (m_shares m) ∧
  m_liquidity_base_sats m' = m_liquidity_base_sats m.
Proof.
  revert m sh. induction ds as [|[[i d] v] ds IH]; intros m sh H; [by simplify_eq/=|]. simpl in H.
  destruct (add_at sh i d) as [sh1|] eqn:E1; cbn [mbind result_bind] in H; [|discriminate].
  unfold add_delta. simpl. rewrite E1. destruct v as [v|]; cbn [mbind result_bind] in H; [|by apply IH].
  unfold update_trading_volume in H. destruct (_ <=? _); [discriminate|]. by apply IH in H.
Qed.

Lemma apply_market_deltas_at h db e db' :
  ids_ok db → apply_market_deltas h db e = Ok db' →
  (ids_ok db' ∧ ∀ k, k ≠ e.1 → get_market db' k = get_market db k) ∧
  ∃ m m', get_market db e.1 = Some m ∧ get_market db' e.1 = Some m' ∧
    try_fold add_delta (m_shares m) (map fst e.2) = Ok (m_shares m') ∧
    m_liquidity_base_sats m' = m_liquidity_base_sats m.
Proof.
  intros Hok H. unfold apply_market_deltas in H. destruct (get_market db e.1) as [m|] eqn:Em; [|discriminate].
  cbn [ok_or mbind result_bind] in H. inv_ok. destruct a as [m1 sh]. inv_ok.
  match goal with H : try_fold apply_delta _ _ = Ok _ |- _ => apply apply_deltas_shares in H as (Hs & Hid & Hlen & Hbase) end.
  match goal with H : update_state _ _ _ _ _ = Ok ?x |- _ =>
    unfold update_state in H; cbn [mbind result_bind] in H; case_match; cbn [mbind result_bind] in H; [|discriminate];
    injection H as <- end.
  match goal with H : update_market _ _ = Ok ?x |- _ => apply update_market_markets in H as Hm; rename x into db1 end.
  pose proof (Hok _ _ Em) as Hmid. simpl in Hmid.
  match type of Hm with _ = <[_ := ?x]> _ => set (m2 := x) in * end.
  destruct (written_at db m2 (clear_mempool_shares db1 e.1) e.1 Hok ltac:(simpl; congruence) Hm) as (? & ? & Hg).
  split; [done|]. exists m, m2. by split_and!.
Qed.

Lemma apply_amplify_at db e db' :
  ids_ok db → apply_amplify db e = Ok db' →
  (ids_ok db' ∧ ∀ k, k ≠ e.1 → get_market db' k = get_market db k) ∧
  ∃ m m', get_market db e.1 = Some m ∧ get_market db' e.1 = Some m' ∧ m_shares m' = m_shares m ∧
    m_liquidity_base_sats m' = m_liquidity_base_sats m + e.2 ∧ m_liquidity_base_sats m + e.2 ≤ U64_MAX.
Proof.
  intros Hok H. unfold apply_amplify in H. destruct (get_market db e.1) as [m|] eqn:Em; [|discriminate].
  cbn [ok_or mbind result_bind] in H. inv_ok. apply update_market_markets in H as Hm.
  pose proof (Hok _ _ Em) as Hmid. simpl in Hmid.
  match goal with H : checked_add_u64 _ _ = Some _ |- _ => unfold checked_add_u64 in H; case_match end; simplify_eq; to_prop.
  match type of Hm with _ = <[_ := ?x]> _ => set (m2 := x) in * end.
  destruct (written_at db m2 db' e.1 Hok ltac:(done) Hm) as (? & ? & Hg).
  split; [done|]. exists m, m2. split_and!; [done..|]. lia.
Qed.

Lemma aggregated_lookup l acc id :
  map fst (default [] (foldl push_delta acc l !! id)) = map fst (default [] (acc !! id)) ++ deltas_of id l.
Proof.
  revert acc. induction l as [|x l IH]; intros acc; simpl; [by rewrite app_nil_r|]. rewrite IH.
  unfold push_delta, deltas_of. simpl. destruct (mu_share_delta x) as [[i d]|] eqn:Ed.
  - destruct (decide (mu_market_id x = id)) as [<-|Hne].
    + rewrite lookup_insert_eq, bool_decide_true by done. simpl. by rewrite map_app, <- app_assoc.
    + by rewrite lookup_insert_ne, bool_decide_false by done.
  - by destruct (bool_decide _).
Qed.

Lemma amplified_lookup l acc id :
  default 0 (foldl push_amplify acc l !! id)
  = foldl (fun a b => as_u64 (a + b)) (default 0 (acc !! id)) (amplify_of id l).
Proof.
  revert acc. induction l as [|b l IH]; intros acc; simpl; [done|]. rewrite IH.
  unfold push_amplify, amplify_of. rewrite filter_cons. destruct (bs_is_amplify b) eqn:Ea.
  - destruct (decide (bs_market_id b = id)) as [<-|Hne].
    + by rewrite lookup_insert_eq, decide_True by done.
    + by rewrite lookup_insert_ne, decide_False by (done || by intros []).
  - by rewrite decide_False by (by intros []).
Qed.

Lemma change_account_markets h db e db' : change_account h db e = Ok db' → markets db' = markets db.
Proof.
  unfold change_account. intros H. apply (try_fold_inv (fun _ db' => markets db' = markets db)) in H; [done|done|].
  intros _ c x c' Hc _ Hx. rewrite <- Hc. unfold change_shares, remove_shares_from_account in Hx.
  repeat case_match; inv_ok; done.
Qed.

Lemma consolidate_market_markets h buys sells t id t' e :
  consolidate_market h buys sells t id = Ok (t', e) → markets (st_markets t') = markets (st_markets t).
Proof.
  unfold consolidate_market. intros H. inv_ok. destruct a0 as [c2 [[nt paid] changed]].
  destruct (consolidate_fees _ _ _ _ _ _ _) as [c3 nf] eqn:Ef. simplify_eq. transitivity (markets (st_markets c2)).
  - unfold consolidate_fees in Ef. destruct (_ && _); by simplify_eq.
  - match goal with H : consolidate_treasury _ _ _ _ _ = Ok _ |- _ => revert H end. unfold consolidate_treasury.
    destruct (_ && _); [|by intros [= <- _]]. destruct (foldl _ _ _) as [t0 p0]. intros H. inv_ok. destruct a0. inv_ok.
    match goal with H : context [0 <? ?r] |- _ => destruct (0 <? r) end; by simplify_eq.
Qed.

Lemma consolidate_markets h sells buys changes t t' undo :
  consolidate_market_utxos h sells buys changes t = Ok (t', undo) →
  markets (st_markets t') = markets (st_markets t).
Proof.
  unfold consolidate_market_utxos. destruct (_ && _); [by intros [= <- _]|]. intros H. inv_ok.
  destruct a as [t1 es]. destruct (foldl _ _ _) as [t2 ch]. inv_ok. simplify_eq. simpl.
  match goal with H : try_fold _ _ _ = Ok _ |- _ =>
    apply (try_fold_inv (fun _ (acc : SettleState * list ConsolidationUndoEntry) =>
      markets (st_markets acc.1) = markets (st_markets t))) in H; [done|done|] end.
  intros _ [c es0] id c' Hc _ Hx. simpl in Hc. rewrite <- Hc. unfold consolidate_step in Hx. simpl in Hx.
  destruct (consolidate_market _ _ _ _ _) as [[c1 e]|] eqn:Ec; [|discriminate]. injection Hx as <-. simpl.
  by eapply consolidate_market_markets.
Qed.

(** The markets a valid block creates are new: a market that exists is still the
    one stored at its identifier. *)
Lemma creations_keep u s id m :
  ids_ok (s_markets s) → get_market (s_markets s) id = Some m → validate_all_changes u s = Ok tt →
  ids_ok (foldl add_market (s_markets s) (up_market_creations u)) ∧
  get_market (foldl add_market (s_markets s) (up_market_creations u)) id = Some m.
Proof.
  intros Hok Hm Hval. assert (Forall (fun c => m_id c ≠ id) (up_market_creations u)) as Hc.
  { unfold validate_all_changes in Hval. inv_ok.
    apply (try_fold_inv (fun seen _ => Forall (fun c => m_id c ≠ id) seen)) in Hval; [done|constructor|].
    intros seen x c x' Hs _ Hx. inv_ok. apply Forall_app_2; [done|]. constructor; [|done]. intros <-.
    match goal with H : bool_decide (is_Some _) = false |- _ => apply bool_decide_eq_false in H; apply H; by rewrite Hm end. }
  clear -Hok Hm Hc. revert Hok Hm. generalize (s_markets s). induction Hc as [|c cs Hc _ IH]; intros db Hok Hm; [done|].
  simpl. destruct (written_at db c (add_market db c) (m_id c) Hok eq_refl (add_market_markets db c)) as (? & Ho & _).
  apply IH; [done|]. rewrite Ho; [done|congruence].
Qed.

(** C16: what a block prices is what it commits.  For every market that existed
    before the block, the shares and the liquidity parameter the next trade
    would be priced at, computed from the pending updates, are those of the
    market the block stores, in whatever order the maps of pending updates are
    visited. *)
Theorem running_state_committed u s height s' undo id m shares beta :
  ids_ok (s_markets s) → get_market (s_markets s) id = Some m → m_liquidity_base_sats m ≤ U64_MAX →
  validate_all_changes u s = Ok tt →
  running_market_state id m u = Ok (shares, beta) →
  apply_all_changes u s height = Ok (s', undo) →
  ∃ m', get_market (s_markets s') id = Some m' ∧ m_shares m' = shares ∧ market_beta m' = beta.
Proof.
  intros Hok Hm Hbase Hval Hrun H. unfold apply_all_changes in H.
  destruct (creations_keep u s id m Hok Hm Hval) as [Hok0 Hm0].
  set (db0 := foldl add_market _ _) in *. clearbody db0. inv_ok. destruct a3 as [t undo']. inv_ok. simplify_eq.
  unfold running_market_state in Hrun. inv_ok. simplify_eq.
  destruct (keyed_fold (apply_market_deltas height) (market_iter (aggregated_deltas u)) id db0 a) as [Hok1 Hc1];
    [by intros; eapply apply_market_deltas_at|rewrite market_iter_perm; apply NoDup_fst_map_to_list|done|done|].
  assert (∃ m1, get_market a id = Some m1 ∧ m_shares m1 = shares ∧ m_liquidity_base_sats m1 = m_liquidity_base_sats m)
    as (m1 & Hm1 & Hs1 & Hb1).
  { pose proof (aggregated_lookup (up_market_updates u) ∅ id) as Hagg. rewrite lookup_empty in Hagg. simpl in Hagg.
    fold (aggregated_deltas u) in Hagg. destruct Hc1 as [[Hn Hg]|(ds & db1 & db2 & Hin & Hg1 & Hok' & Hd & Hg2)].
    - exists m. rewrite Hg. split_and!; [done| |done].
      destruct (aggregated_deltas u !! id) as [ds|] eqn:Eag.
      + exfalso. apply Hn. rewrite (market_iter_perm (list (Z * Z * option Z))).
        apply elem_of_map_to_list in Eag. by apply (list_elem_of_fmap_2 fst) in Eag.
      + simpl in Hagg. rewrite <- Hagg in *. by simplify_eq/=.
    - rewrite (market_iter_perm (list (Z * Z * option Z))), elem_of_map_to_list in Hin. rewrite Hin in Hagg. simpl in Hagg.
      destruct (apply_market_deltas_at _ _ _ _ Hok' Hd) as [_ (m0 & m1 & Hm0' & Hm1 & Hsh & Hb)]. simpl in *.
      exists m1. rewrite Hg2. rewrite Hg1, Hm0 in Hm0'. simplify_eq. split_and!; [done| |done]. congruence. }
  destruct (keyed_fold apply_amplify (market_iter (amplify_by_market u)) id a a0) as [_ Hc2];
    [by intros; eapply apply_amplify_at|rewrite market_iter_perm; apply NoDup_fst_map_to_list|done|done|].
  pose proof (amplified_lookup (up_pending_buy_settlements u) ∅ id) as Hamp. rewrite lookup_empty in Hamp. simpl in Hamp.
  fold (amplify_by_market u) in Hamp. fold (sum_u64 (amplify_of id (up_pending_buy_settlements u))) in Hamp.
  assert (∃ m2, get_market a0 id = Some m2 ∧ m_shares m2 = shares ∧ m_liquidity_base_sats m2
    = sat_add_u64 (m_liquidity_base_sats m) (sum_u64 (amplify_of id (up_pending_buy_settlements u)))) as (m2 & Hm2 & Hs2 & Hb2).
  { rewrite <- Hamp. unfold sat_add_u64. destruct Hc2 as [[Hn Hg]|(v & db1 & db2 & Hin & Hg1 & Hok' & Hd & Hg2)].
    - exists m1. rewrite Hg. split_and!; [done..|]. destruct (amplify_by_market u !! id) as [v|] eqn:Eag.
      + exfalso. apply Hn. rewrite (market_iter_perm Z). apply elem_of_map_to_list in Eag.
        by apply (list_elem_of_fmap_2 fst) in Eag.
      + simpl. lia.
    - rewrite (market_iter_perm Z), elem_of_map_to_list in Hin. rewrite Hin. simpl.
      destruct (apply_amplify_at _ _ _ Hok' Hd) as [_ (m0 & m2 & Hm0' & Hm2 & Hsh & Hb & Hle)]. simpl in *.
      exists m2. rewrite Hg2. rewrite Hg1, Hm1 in Hm0'. simplify_eq. split_and!; [done|done|]. lia. }
  exists m2. split_and!; [|done|].
  - match goal with H : consolidate_market_utxos _ _ _ _ _ = Ok _ |- _ => apply consolidate_markets in H as Hmk end.
    simpl in Hmk. unfold get_market in *. simpl. rewrite Hmk.
    match goal with H : try_fold (change_account _) _ _ = Ok _ |- _ =>
      apply (try_fold_inv (fun _ db' => markets db' = markets a0)) in H as ->; [done|done|] end.
    intros _ c x c' Hc _ Hx%change_account_markets. congruence.
  - unfold market_beta. by rewrite Hb2, Hs2.
Qed.

End Running.
