(* ===== verification/BlockSupply.v ===== *)
(** * A block does not create satoshis

    The value of all unspent outputs before and after a block: the coinbase and
    the market payouts are covered by what the transactions of the block spend. *)

From stdpp Require Import base numbers list strings gmap.
From S2P Require Import Prelude Float64 SafeMath MarketMath StateErrors DecisionTypes Periods Pricing DecisionsDb.
From S2P Require Import Markets MarketsFacts Transactions TransactionsFacts UtxoValue TwoWayPeg Bodies Archive Voting MarketsDb MarketsDbFacts SettlementFacts.
From S2P Require Import TxPow StateModel Validation BlockUpdate Consolidation ConsolidationFacts BlockConnect.

Section Supply.
Context {AM : BitcoinAmount} {BH : BodyHashes} {AE : ArchiveEnv} {VE : ValidationEnv} {BE : BlockEnv}.
Implicit Types (s : State) (u : StateUpdate) (tx : FilledTransaction).

(** ** What validation establishes about money *)

(** Market transactions have no outputs, and their inputs cover the limit, the
    miner fee or the deposit. *)
Definition tx_funded tx : Prop :=
  match data tx with
  | Some (Trade _ _ shares _ limit _ _) =>
      tx_outputs (transaction tx) = [] ∧
      if 0 <? shares then limit ≤ value_in tx else Trading.TRADE_MINER_FEE_SATS ≤ value_in tx
  | Some (AmplifyBeta _ amount _) =>
      tx_outputs (transaction tx) = [] ∧ amount + Trading.TRADE_MINER_FEE_SATS ≤ value_in tx
  | _ => True
  end.

Lemma spent_value tx v : spent_bitcoin_value tx = Ok v → v = value_in tx.
Proof.
  unfold spent_bitcoin_value. intros H. destruct (amount_checked_sum _) eqn:E; simplify_eq/=.
  by apply amount_checked_sum_spec in E as [-> _].
Qed.

Context {PH : PowHashes}.

Lemma validate_trade_funded s a tx : validate_trade s a tx = Ok tt → tx_funded tx.
Proof.
  unfold validate_trade, trade, tx_funded. destruct (data tx) as [[]|]; try done. cbn [ok_or mbind result_bind].
  intros H. inv_ok. to_prop. split; [done|]. apply spent_value in E8 as ->. unfold is_buy in H. simpl in H.
  destruct (0 <? shares); inv_ok; to_prop; lia.
Qed.

Lemma validate_amplify_funded s tx : validate_amplify_beta s tx = Ok tt → tx_funded tx.
Proof.
  unfold validate_amplify_beta, amplify_beta, tx_funded. destruct (data tx) as [[]|]; try done.
  cbn [ok_or mbind result_bind]. intros H. inv_ok. to_prop. split; [done|].
  match goal with H : spent_bitcoin_value tx = Ok _ |- _ => apply spent_value in H as -> end.
  match goal with H : checked_add_u64 _ _ = Some _ |- _ => unfold checked_add_u64 in H; case_match end; simplify_eq/=; lia.
Qed.

Lemma validate_filled_funded s a tx h fee :
  validate_filled_transaction s a tx h = Ok fee → tx_funded tx.
Proof.
  unfold validate_filled_transaction. intros H. inv_ok. unfold is_trade, is_amplify_beta in H.
  destruct (data tx) as [[]|] eqn:Ed; try (by unfold tx_funded; rewrite Ed).
  - inv_ok. match goal with H : validate_trade _ _ _ = Ok ?x |- _ => destruct x; by apply validate_trade_funded in H end.
  - inv_ok. match goal with H : validate_amplify_beta _ _ = Ok ?x |- _ => destruct x; by apply validate_amplify_funded in H end.
Qed.

(** ** What a block owes *)

Definition owed u : Z :=
  sumZ (map brought (up_pending_buy_settlements u))
  + sumZ (map (fun e : Address * Z * bytes => e.1.2) (up_pending_sell_input_changes u)).

(** A buy whose cost was checked against the limit; the sum may have wrapped. *)
Definition buy_checked (b : PendingBuySettlement) : Prop :=
  0 ≤ bs_lmsr_cost_sats b ∧ 0 ≤ bs_market_fee_sats b ∧
  as_u64 (bs_lmsr_cost_sats b + bs_market_fee_sats b + Trading.TRADE_MINER_FEE_SATS) ≤ bs_input_value_sats b.

Definition pending_ok u : Prop :=
  Forall buy_checked (up_pending_buy_settlements u) ∧ Forall sell_ok (up_pending_sell_payouts u) ∧
  Forall (fun e : Address * Z * bytes => 0 ≤ e.1.2) (up_pending_sell_input_changes u).

Lemma pending_add_buy u b : pending_ok u → buy_checked b → pending_ok (add_pending_buy_settlement u b).
Proof. intros (? & ? & ?) Hb. split_and!; try done. simpl. by apply Forall_app_2; [|constructor]. Qed.

Lemma owed_add_buy u b : owed (add_pending_buy_settlement u b) = owed u + brought b.
Proof. unfold owed. simpl. rewrite map_app, sumZ_app. simpl. lia. Qed.

Lemma apply_buy_pending t m v id sh sh' beta u u1 volume fee :
  pending_ok u → tv_limit_sats t ≤ v → apply_buy t m v id sh sh' beta u = Ok (inr (u1, volume, fee)) →
  pending_ok u1 ∧ owed u1 = owed u + v - Trading.TRADE_MINER_FEE_SATS.
Proof.
  intros Hp Hl H. unfold apply_buy in H. inv_ok. destruct (Z.ltb_spec (tv_limit_sats t)
    (as_u64 (Trading.total_cost_sats a0 + Trading.TRADE_MINER_FEE_SATS))) as [|Hle]; [discriminate|].
  injection H as <- _ _. 
  match goal with H : Trading.calculate_buy_cost _ _ = Ok _ |- _ =>
    apply buy_cost_facts in H as (Hb%to_sats_range & Hf & Ht) end. split.
  - apply pending_add_buy; [done|]. unfold buy_checked, is_u64, Trading.MIN_TRADING_FEE_SATS in *. simpl.
    split_and!; [lia|lia|]. rewrite Ht in Hle. unfold as_u64 in Hle. rewrite wrap_unsigned_add_l in Hle.
    unfold as_u64. lia.
  - rewrite owed_add_buy. unfold brought. simpl. lia.
Qed.

Lemma apply_sell_pending s t m v id sh sh' beta u u1 volume fee :
  pending_ok u → Trading.TRADE_MINER_FEE_SATS ≤ v →
  apply_sell s t m v id sh sh' beta u = Ok (inr (u1, volume, fee)) →
  pending_ok u1 ∧ owed u1 = owed u + v - Trading.TRADE_MINER_FEE_SATS.
Proof.
  intros (Hb & Hs & Hc) Hl H. unfold apply_sell in H. inv_ok. case_match; [discriminate|]. inv_ok.
  match goal with H : Trading.calculate_sell_proceeds _ _ = Ok _ |- _ =>
    apply sell_proceeds_facts in H as (_ & Hf & _ & Hn) end. unfold Trading.MIN_TRADING_FEE_SATS in Hf.
  assert (sat_sub v Trading.TRADE_MINER_FEE_SATS = v - Trading.TRADE_MINER_FEE_SATS) as Hsub
    by (unfold sat_sub; lia).
  rewrite Hsub in *. assert (0 ≤ v - Trading.TRADE_MINER_FEE_SATS) by lia. simplify_eq.
  destruct (Z.ltb_spec 0 (v - Trading.TRADE_MINER_FEE_SATS)); unfold pending_ok, owed; simpl; split_and!;
    try done; try (apply Forall_app_2; [done|]; constructor; [|done]; try split; simpl; lia).
  - rewrite map_app, sumZ_app. simpl. lia.
  - lia.
Qed.

(** [add_market_update] and [add_share_account_change] leave the money alone. *)
Lemma apply_trade_pending s tx u r u1 :
  pending_ok u → tx_funded tx → apply_trade s tx u = Ok (r, u1) →
  match r with
  | Applied => pending_ok u1 ∧ owed u1 = owed u + value_in tx - Trading.TRADE_MINER_FEE_SATS
  | Skipped _ => u1 = u
  end.
Proof.
  intros Hp Hf H. unfold apply_trade, trade in H. unfold tx_funded in Hf.
  destruct (data tx) as [[]|]; cbn [ok_or mbind result_bind] in H; try discriminate.
  inv_ok. destruct a1 as [sh beta]. inv_ok. destruct Hf as [_ Hf].
  match goal with H : spent_bitcoin_value tx = Ok _ |- _ => apply spent_value in H; subst end.
  destruct a4 as [reason|[[u2 volume] fee]]; inv_ok; simplify_eq; [done|].
  unfold is_buy in *. simpl in *. match goal with |- pending_ok ?x ∧ _ => change (pending_ok u2 ∧
    owed u2 = owed u + value_in tx - Trading.TRADE_MINER_FEE_SATS) end. destruct (0 <? shares).
  - eapply apply_buy_pending; [done| |eassumption]. done.
  - eapply apply_sell_pending; [done| |eassumption]. done.
Qed.

Lemma apply_amplify_pending tx u u1 :
  pending_ok u → tx_funded tx → 0 ≤ from_option ab_amount 0 (amplify_beta tx) →
  apply_amplify_beta tx u = Ok u1 →
  pending_ok u1 ∧ owed u1 = owed u + value_in tx - Trading.TRADE_MINER_FEE_SATS.
Proof.
  intros Hp Hf Ha H. unfold apply_amplify_beta, amplify_beta in *. unfold tx_funded in Hf.
  destruct (data tx) as [[]|]; cbn [ok_or mbind result_bind] in H; try discriminate. inv_ok. simpl in Ha.
  match goal with H : spent_bitcoin_value tx = Ok _ |- _ => apply spent_value in H; subst end. split.
  - apply pending_add_buy; [done|]. unfold buy_checked. simpl. split_and!; [done|done|].
    etrans; [apply as_u64_le; unfold Trading.TRADE_MINER_FEE_SATS; lia|]. destruct Hf as [_ Hf]. lia.
  - rewrite owed_add_buy. unfold brought. simpl. lia.
Qed.

(** ** The loop over the transactions *)

Definition market_tx tx : bool := is_trade tx || is_amplify_beta tx.

(** What the inputs of an indexed transaction hold beyond the miner fee, for a
    market transaction that was not skipped. *)
Definition deposit (skipped : gset Z) (e : Z * FilledTransaction) : Z :=
  if bool_decide (e.1 ∈ skipped) then 0
  else if market_tx e.2 then value_in e.2 - Trading.TRADE_MINER_FEE_SATS else 0.

(** The amounts of a transaction are not negative, as their types say. *)
Definition tx_ok tx : Prop :=
  outputs_ok (transaction tx) ∧ 0 ≤ from_option ab_amount 0 (amplify_beta tx).

(** What no handler changes before the end of the block. *)
Definition same_money s s' : Prop := s_utxos s' = s_utxos s ∧ (pointers_ok (s_markets s) → pointers_ok (s_markets s')).

Lemma same_money_refl s : same_money s s.
Proof. done. Qed.
Lemma same_money_trans s s' s'' : same_money s s' → same_money s' s'' → same_money s s''.
Proof. intros [H1 P1] [H2 P2]. split; [congruence|tauto]. Qed.

Lemma apply_claim_money s tx h s' : apply_decision_claim s tx h = Ok s' → same_money s s'.
Proof. unfold apply_decision_claim. intros H. inv_ok. done. Qed.

Lemma apply_transfer_money s tx h s' : apply_transfer_reputation s tx h = Ok s' → same_money s s'.
Proof. unfold apply_transfer_reputation. intros H. inv_ok. done. Qed.

Lemma apply_creation_money s tx u h s' u' :
  apply_market_creation s tx u h = Ok (s', u') →
  same_money s s' ∧ owed u' = owed u ∧ (pending_ok u → pending_ok u').
Proof.
  unfold apply_market_creation. intros H. inv_ok.
  destruct (find_treasury _ _) as [[vout amount]|]; simplify_eq; split_and!; try done.
  split; [done|]. intros Hp. apply pointers_set; [done|]. right. split; [done|]. by eexists _, _.
Qed.

Lemma apply_votes_money s tx u h u' :
  apply_submit_vote s tx u h = Ok u' → owed u' = owed u ∧ (pending_ok u → pending_ok u').
Proof. unfold apply_submit_vote. intros H. inv_ok. done. Qed.

Lemma apply_ballot_money s tx u h u' :
  apply_submit_ballot s tx u h = Ok u' → owed u' = owed u ∧ (pending_ok u → pending_ok u').
Proof.
  unfold apply_submit_ballot. intros H. inv_ok. destruct a1 as [e u1]. inv_ok.
  match goal with H : try_fold _ _ _ = Ok (?e, ?x) |- _ =>
    apply (try_fold_inv (fun _ (acc : option Z * StateUpdate) =>
      owed acc.2 = owed u ∧ (pending_ok u → pending_ok acc.2))) in H end; [done|done|].
  intros _ [e0 u0] item [e2 u2] [Ho Hp] _ Hi. unfold apply_ballot_item in Hi. inv_ok. done.
Qed.

Lemma apply_tx_step h s u sk i tx s' u' sk' :
  pending_ok u → tx_funded tx → tx_ok tx → i ∉ sk →
  apply_tx h (s, u, sk) (i, tx) = Ok (s', u', sk') →
  same_money s s' ∧ pending_ok u' ∧ owed u' = owed u + deposit sk' (i, tx) ∧
  (sk' = sk ∨ sk' = {[i]} ∪ sk).
Proof.
  intros Hp Hf [_ Ha] Hi H. unfold apply_tx in H. unfold deposit, market_tx, is_trade, is_amplify_beta, data. simpl.
  destruct (tx_data (transaction tx)) as [[]|] eqn:Ed; simpl;
    try (inv_ok; simplify_eq; rewrite (bool_decide_false (i ∈ sk')) by done).
  - match goal with H : apply_decision_claim _ _ _ = _ |- _ => apply apply_claim_money in H end.
    split_and!; [done|done|lia|by left].
  - inv_ok. destruct a as [s1 u1]. simplify_eq. rewrite (bool_decide_false (i ∈ sk')) by done.
    match goal with H : apply_market_creation _ _ _ _ = _ |- _ => apply apply_creation_money in H as (? & ? & ?) end.
    split_and!; [done|auto|lia|by left].
  - inv_ok. destruct a as [r u1]. simplify_eq.
    match goal with H : apply_trade _ _ _ = _ |- _ => apply (apply_trade_pending _ _ _ _ _ Hp Hf) in H end.
    destruct r.
    + rewrite (bool_decide_false (i ∈ sk)) by done. destruct E as [? ?].
      split_and!; [done|done|lia|by left].
    + subst. rewrite bool_decide_true by set_solver. split_and!; [done|done|lia|by right].
  - match goal with H : apply_submit_vote _ _ _ _ = _ |- _ => apply apply_votes_money in H as [? ?] end.
    split_and!; [done|auto|lia|by left].
  - match goal with H : apply_submit_ballot _ _ _ _ = _ |- _ => apply apply_ballot_money in H as [? ?] end.
    split_and!; [done|auto|lia|by left].
  - match goal with H : apply_transfer_reputation _ _ _ = _ |- _ => apply apply_transfer_money in H end.
    split_and!; [done|done|lia|by left].
  - match goal with H : apply_amplify_beta _ _ = _ |- _ => apply (apply_amplify_pending _ _ _ Hp Hf Ha) in H as [? ?] end.
    split_and!; [done|done|lia|by left].
  - split_and!; [done|done|lia|by left].
Qed.

Lemma apply_txs_money h txs i s u sk s' u' sk' :
  pending_ok u → Forall tx_funded txs → Forall tx_ok txs → (∀ j, j ∈ sk → j < i) →
  try_fold (apply_tx h) (s, u, sk) (enumerate i txs) = Ok (s', u', sk') →
  same_money s s' ∧ pending_ok u' ∧
  owed u' = owed u + sumZ (map (deposit sk') (enumerate i txs)) ∧ (∀ j, j < i → j ∈ sk' ↔ j ∈ sk).
Proof.
  intros Hp Hf Ho. revert i s u sk Hp. induction Hf as [|tx txs Htx _ IH]; intros i s u sk Hp Hsk H.
  { simplify_eq/=. split_and!; [done..|lia|done]. }
  inversion Ho as [|? ? Hox Hox']; subst. cbn [enumerate try_fold] in H.
  destruct (apply_tx _ _ _) as [[[s1 u1] sk1]|] eqn:E; [|discriminate].
  assert (i ∉ sk) as Hi by (intros Hi%Hsk; lia).
  destruct (apply_tx_step _ _ _ _ _ _ _ _ _ Hp Htx Hox Hi E) as (Hm & Hp1 & How & Hsk1).
  destruct (IH Hox' (i + 1) s1 u1 sk1 Hp1) as (Hm' & Hp' & How' & Hiff); [|done|].
  { intros j Hj. destruct Hsk1 as [->| ->]; [apply Hsk in Hj; lia|].
    apply elem_of_union in Hj as [->%elem_of_singleton|Hj%Hsk]; lia. }
  split_and!.
  - by eapply same_money_trans.
  - done.
  - simpl. rewrite How', How. unfold deposit at 1 3. simpl.
    rewrite (bool_decide_ext (i ∈ sk') (i ∈ sk1)) by (apply Hiff; lia). lia.
  - intros j Hj. rewrite Hiff by lia. destruct Hsk1 as [->| ->]; [done|].
    rewrite elem_of_union, elem_of_singleton. split; [intros [->|?]; [lia|done]|by right].
Qed.

(** ** Spending and fees *)

Definition spent (skipped : gset Z) (e : Z * FilledTransaction) : Z :=
  if bool_decide (e.1 ∈ skipped) then 0 else value_in e.2 - value_out e.2.

Definition fee_of (skipped : gset Z) (e : Z * FilledTransaction) : Z :=
  if bool_decide (e.1 ∈ skipped) then 0
  else if market_tx e.2 then Trading.TRADE_MINER_FEE_SATS else value_in e.2 - value_out e.2.

Lemma miner_fee_value tx fee :
  miner_fee tx = Ok fee → fee = if market_tx tx then Trading.TRADE_MINER_FEE_SATS else value_in tx - value_out tx.
Proof.
  unfold miner_fee, market_tx. destruct (_ || _); [by intros [= <-]|]. intros H. inv_ok.
  unfold amount_err in *. inv_ok. unfold bitcoin_fee in *. inv_ok. case_match; simplify_eq.
  match goal with H : spent_bitcoin_value tx = Ok _ |- _ => apply spent_value in H as -> end.
  unfold bitcoin_value_out in *. inv_ok.
  match goal with H : amount_checked_sum _ = Some _ |- _ => apply amount_checked_sum_spec in H as [-> _] end. done.
Qed.

Lemma fees_total skipped l t t' :
  try_fold (add_fee skipped) t l = Ok t' → t' = t + sumZ (map (fee_of skipped) l).
Proof.
  revert t. induction l as [|e l IH]; intros t H; simplify_eq/=; [lia|].
  destruct (add_fee skipped t e) as [t1|] eqn:E; [|discriminate]. apply IH in H as ->.
  unfold add_fee in E. unfold fee_of at 2. destruct (bool_decide (e.1 ∈ skipped)); [simplify_eq; lia|].
  inv_ok. unfold amount_checked_add in *. case_match; simplify_eq.
  match goal with H : miner_fee _ = Ok _ |- _ => apply miner_fee_value in H as -> end. lia.
Qed.

Lemma validate_fees_bound value txs skipped :
  validate_fees value txs skipped = Ok tt → value ≤ sumZ (map (fee_of skipped) (enumerate 0 txs)).
Proof.
  unfold validate_fees. intros H. inv_ok. to_prop.
  match goal with H : try_fold _ _ _ = Ok _ |- _ => apply fees_total in H as -> end. lia.
Qed.

Lemma spend_txs_total base keys sk txs i t t' :
  untouched base keys t → values_ok t →
  Forall (fun tx => input_keys (tx_inputs (transaction tx)) ⊆ keys ∧ filled_from base tx ∧ outputs_ok (transaction tx) ∧
    Forall (fun k => k ∉ keys)
      (output_keys (tx_txid (transaction tx)) (length (tx_outputs (transaction tx))))) txs →
  try_fold (spend_tx sk) t (enumerate i txs) = Ok t' →
  values_ok t' ∧ utxo_total t' ≤ utxo_total t - sumZ (map (spent sk) (enumerate i txs)).
Proof.
  intros Hun Hok Htxs. revert i t Hun Hok. induction Htxs as [|tx txs (Hk & Hfill & Ho & Hn) _ IH]; intros i t Hun Hok H.
  { simplify_eq/=. split; [done|lia]. }
  cbn [enumerate try_fold] in H. destruct (spend_tx sk t (i, tx)) as [t1|] eqn:E; [|discriminate].
  assert (untouched base keys t1 ∧ values_ok t1 ∧ utxo_total t1 ≤ utxo_total t - spent sk (i, tx)) as (Hun1 & Hok1 & Ht1).
  { unfold spend_tx, spent in *. simpl in *. destruct (bool_decide (i ∈ sk)); [simplify_eq; split_and!; [done..|lia]|].
    destruct (apply_utxo_total _ _ _ _ _ _ Hun Hok Hk Hfill Ho Hn E) as (? & ? & ?). split_and!; [done..|lia]. }
  destruct (IH _ _ Hun1 Hok1 H) as [? ?]. split; [done|]. simpl. lia.
Qed.

(** Spending and depositing a transaction leaves its fee. *)
Lemma spent_deposit sk e : tx_funded e.2 → spent sk e - deposit sk e = fee_of sk e.
Proof.
  intros Hf. unfold spent, deposit, fee_of. destruct (bool_decide _); [done|].
  destruct (market_tx e.2) eqn:Hm; [|lia]. enough (value_out e.2 = 0) by lia.
  unfold market_tx, is_trade, is_amplify_beta, tx_funded, value_out in *.
  destruct (data e.2) as [[]|]; try done; destruct Hf as [-> _]; done.
Qed.

(** ** The end of the block *)

Definition same_funds (db db' : MarketsDatabase) : Prop := market_funds_utxos db' = market_funds_utxos db.

Lemma same_funds_fold {A} (f : MarketsDatabase → A → result Error MarketsDatabase) db l db' :
  (∀ db x db', f db x = Ok db' → same_funds db db') → try_fold f db l = Ok db' → same_funds db db'.
Proof.
  intros Hf. apply (try_fold_inv (fun _ => same_funds db)); [done|].
  intros _ c x c' Hc _ Hx%Hf. unfold same_funds in *. congruence.
Qed.

Lemma update_market_funds db m db' : update_market db m = Ok db' → same_funds db db'.
Proof.
  unfold update_market. intros H. inv_ok. unfold same_funds. destruct (get_market db (m_id m)); [|done].
  apply write_market_frame.
Qed.

Lemma add_market_funds db m : same_funds db (add_market db m).
Proof.
  unfold add_market, same_funds.
  match goal with |- context [update_decisions ?d ?i ?l true] =>
    destruct (update_decisions_frame d i l true) as (_ & _ & _ & _ & -> & _) end. by case_match.
Qed.

Lemma add_markets_funds db ms : same_funds db (foldl add_market db ms).
Proof.
  revert db. induction ms as [|m ms IH]; intros db; [done|]. simpl. unfold same_funds in *. rewrite IH.
  apply add_market_funds.
Qed.

Lemma apply_deltas_funds h db e db' : apply_market_deltas h db e = Ok db' → same_funds db db'.
Proof.
  unfold apply_market_deltas. intros H. inv_ok. destruct a0 as [m shares]. inv_ok.
  match goal with H : update_market _ _ = Ok _ |- _ => by apply update_market_funds in H end.
Qed.

Lemma apply_amplify_funds db e db' : apply_amplify db e = Ok db' → same_funds db db'.
Proof.
  unfold apply_amplify. intros H. inv_ok. by apply update_market_funds in H.
Qed.

Lemma change_account_funds h db e db' : change_account h db e = Ok db' → same_funds db db'.
Proof.
  apply same_funds_fold. intros db1 x db2. unfold change_shares, remove_shares_from_account.
  intros H. repeat case_match; inv_ok; done.
Qed.

(** The amounts of the block add up within 64 bits: what the sells take, and
    the cost of each buy with its fees. *)
Definition update_fits u : Prop :=
  sumZ (map gross (up_pending_sell_payouts u)) ≤ U64_MAX ∧
  Forall (fun b => bs_lmsr_cost_sats b + bs_market_fee_sats b + Trading.TRADE_MINER_FEE_SATS ≤ U64_MAX)
    (up_pending_buy_settlements u).

Lemma buys_checked_ok u : pending_ok u → update_fits u → Forall buy_ok (up_pending_buy_settlements u).
Proof.
  intros (Hb & _ & _) [_ Hfit]. eapply Forall_impl; [apply Forall_and; split; [exact Hb|exact Hfit]|].
  simpl. intros b [(Hc & Hf & Hle) Hm]. split_and!; [done..|].
  rewrite as_u64_small in Hle; [done|]. unfold is_u64, Trading.TRADE_MINER_FEE_SATS in *. lia.
Qed.

Lemma apply_all_total u s h s' undo :
  values_ok (s_utxos s) → pointers_ok (s_markets s) → pending_ok u → update_fits u →
  apply_all_changes u s h = Ok (s', undo) →
  values_ok (s_utxos s') ∧ pointers_ok (s_markets s') ∧ utxo_total (s_utxos s') ≤ utxo_total (s_utxos s) + owed u.
Proof.
  intros Hok Hp Hpend Hfit H. pose proof (buys_checked_ok _ Hpend Hfit) as Hb.
  destruct Hpend as (_ & Hs & Hc). destruct Hfit as [Hfit _]. unfold apply_all_changes in H. inv_ok.
  pose proof (add_markets_funds (s_markets s) (up_market_creations u)) as H0.
  repeat match goal with
  | H : try_fold (apply_market_deltas _) _ _ = Ok _ |- _ => apply (same_funds_fold _ _ _ _ (apply_deltas_funds h)) in H
  | H : try_fold apply_amplify _ _ = Ok _ |- _ => apply (same_funds_fold _ _ _ _ apply_amplify_funds) in H
  | H : try_fold (change_account _) _ _ = Ok _ |- _ => apply (same_funds_fold _ _ _ _ (change_account_funds h)) in H
  end.
  destruct a3 as [t undo']. inv_ok. simplify_eq.
  match goal with H : consolidate_market_utxos _ _ _ _ _ = Ok _ |- _ =>
    apply consolidate_total in H as (? & ? & ?) end; [|done| |done..].
  - split_and!; [done..|]. simpl in *. unfold owed. lia.
  - unfold pointers_ok, same_funds in *. simpl in *. by rewrite E1, E0, E, H0.
Qed.

Lemma connect_transactions_total base keys s h value txs s' sk :
  untouched base keys (s_utxos s) → values_ok (s_utxos s) → pointers_ok (s_markets s) →
  Forall tx_funded txs → Forall tx_ok txs →
  Forall (fun tx => input_keys (tx_inputs (transaction tx)) ⊆ keys ∧ filled_from base tx ∧
    Forall (fun k => k ∉ keys)
      (output_keys (tx_txid (transaction tx)) (length (tx_outputs (transaction tx))))) txs →
  (∀ s1 u sk1, try_fold (apply_tx h) (s, StateUpdate_new, ∅) (enumerate 0 txs) = Ok (s1, u, sk1) → update_fits u) →
  connect_transactions s h value txs = Ok (s', sk) →
  values_ok (s_utxos s') ∧ pointers_ok (s_markets s') ∧
  utxo_total (s_utxos s') + value ≤ utxo_total (s_utxos s).
Proof.
  intros Hun Hok Hp Hf Hto Htxs Hfit H. unfold connect_transactions in H. inv_ok. destruct a as [[s1 u] sk1].
  specialize (Hfit _ _ _ eq_refl). inv_ok. destruct a2 as [s2 undo]. inv_ok. simplify_eq.
  destruct a0.
  apply validate_fees_bound in E1 as Hfees.
  assert (pending_ok StateUpdate_new) as Hnew by (split_and!; constructor).
  assert (∀ j : Z, j ∈ (∅ : gset Z) → j < 0) as Hemp by set_solver.
  destruct (apply_txs_money _ _ _ _ _ _ _ _ _ Hnew Hf Hto Hemp E) as ([Hu Hps] & Hpend & How & _).
  rewrite Hu in E2. destruct (spend_txs_total base keys _ _ _ _ _ Hun Hok
    ltac:(eapply Forall_impl; [apply Forall_and; split; [exact Htxs|exact Hto]|]; simpl;
          intros x [(? & ? & ?) [? _]]; by split_and!) E2) as [Hok1 Ht1].
  destruct (apply_all_total u (set_s_utxos s1 a1) h s2 undo Hok1 (Hps Hp) Hpend Hfit E3) as (Hok2 & Hp2 & Ht2).
  assert (sumZ (map (spent sk) (enumerate 0 txs)) = sumZ (map (deposit sk) (enumerate 0 txs))
    + sumZ (map (fee_of sk) (enumerate 0 txs))) as Hsum.
  { rewrite <- sumZ_map_add. f_equal. apply map_ext_in. intros e He%list_elem_of_In.
    assert (tx_funded e.2) as Hfe.
    { eapply Forall_forall in Hf; [exact Hf|]. rewrite <- (enumerate_snd_list 0 txs). by apply list_elem_of_fmap_2. }
    pose proof (spent_deposit sk e Hfe). lia. }
  assert (s_utxos (put_consolidation_undo s2 h undo) = s_utxos s2 ∧
    s_markets (put_consolidation_undo s2 h undo) = s_markets s2) as [-> ->] by by destruct undo.
  split_and!; [done..|]. simpl in *. unfold owed in How at 2. simpl in How. lia.
Qed.

(** ** The coinbase *)

Definition coinbase_keys (header : Header) (n : nat) : list bytes :=
  map (fun v => from_outpoint (OpCoinbase (coinbase_txid header) (as_u32 v))) (range 0 (Z.of_nat n)).

Lemma connect_coinbase_total base keys header body t t' :
  untouched base keys t → values_ok t →
  Forall (fun k => k ∉ keys) (coinbase_keys header (length (cb_outputs (coinbase body)))) →
  Forall (fun o => content_amounts_ok (out_content o)) (cb_outputs (coinbase body)) →
  connect_coinbase header body t = Ok t' →
  untouched base keys t' ∧ values_ok t' ∧
  utxo_total t' ≤ utxo_total t + sumZ (map output_bitcoin_value (cb_outputs (coinbase body))).
Proof.
  intros Hun Hok Hn Ho H. unfold connect_coinbase in H. inv_ok. revert H. clear E.
  unfold coinbase_keys in Hn. revert Hn Ho. set (outs := cb_outputs (coinbase body)). clearbody outs.
  rewrite <- (Z.add_0_l (Z.of_nat (length outs))), <- enumerate_fst, map_map, Forall_map. simpl.
  generalize 0. revert t Hun Hok. induction outs as [|o outs IH]; intros t Hun Hok i Hn Ho H.
  { simplify_eq/=. split_and!; [done..|lia]. }
  inversion Hn as [|? ? Hi Hn']; subst. inversion Ho as [|? ? Hv Ho']; subst. cbn [enumerate try_fold] in H.
  destruct (create_coinbase _ t (i, o)) as [t1|] eqn:E; [|discriminate]. unfold create_coinbase in E. inv_ok.
  simpl in *. set (f := {| out_address := _; out_content := _; out_memo := _ |}) in *.
  assert (get_bitcoin_value f = output_bitcoin_value o) as Hf.
  { unfold get_bitcoin_value, output_bitcoin_value, f, coinbase_content in *. destruct (out_content o); by simplify_eq/=. }
  assert (0 ≤ output_bitcoin_value o) by by apply content_value_nonneg.
  pose proof (insert_value_le t (OpCoinbase (coinbase_txid header) (as_u32 i)) f Hok) as Hle.
  destruct (IH _ (insert_untouched base keys t _ f Hi Hun) (insert_values_ok t _ f Hok ltac:(lia)) _ Hn' Ho' H)
    as (? & ? & Ht). split_and!; [done..|]. lia.
Qed.

(** ** Filled bodies *)

Lemma fill_body_spec s body txs :
  fill_body s body = Ok txs → map transaction txs = transactions body ∧ Forall (filled_from (utxos (s_utxos s))) txs.
Proof.
  unfold fill_body. intros H. inv_ok. apply try_map_Forall2 in E. generalize 0.
  induction E as [|t tx ts txs Ht _ IH]; intros i; simpl; [by split; constructor|].
  destruct (IH (i + 1)) as [-> Hf]. unfold fill_transaction in Ht. inv_ok. split; [done|].
  constructor; [|done]. unfold filled_from. simpl.
  match goal with H : try_map _ _ = Ok _ |- _ => apply try_map_Forall2 in H; eapply Forall2_impl; [exact H|] end.
  simpl. intros x o Hx. by inv_ok.
Qed.

(** ** The whole block *)

(** The keys of the inputs of a body, and of the outputs its block creates
    before the market payouts. *)
Definition body_inputs (body : Body) : list bytes := input_keys (get_inputs body).
Definition created_keys (header : Header) (body : Body) : list bytes :=
  coinbase_keys header (length (cb_outputs (coinbase body)))
  ++ flat_map (fun t => output_keys (tx_txid t) (length (tx_outputs t))) (transactions body).

(** No transaction of the block spends an outpoint the block creates. *)
Definition fresh_outpoints (header : Header) (body : Body) : Prop :=
  Forall (fun k => k ∉ body_inputs body) (created_keys header body).

(** The amounts in a body are not negative. *)
Definition body_amounts_ok (body : Body) : Prop :=
  Forall (fun o => content_amounts_ok (out_content o)) (cb_outputs (coinbase body)) ∧
  Forall (fun t => outputs_ok t ∧ match tx_data t with Some (AmplifyBeta _ amount _) => 0 ≤ amount | _ => True end)
    (transactions body).

(** The update the transactions of a block build. *)
Definition block_update s (a : Archive) (header : Header) (body : Body) (timestamp : Z) : result Error StateUpdate :=
  p ← prevalidate s a header body;
  '(s, _, _) ← begin_block s body timestamp (pb_next_height p);
  tables ← connect_coinbase header body (s_utxos s);
  '(_, u, _) ← try_fold (apply_tx (pb_next_height p)) (set_s_utxos s tables, StateUpdate_new, ∅)
                 (enumerate 0 (pb_filled_transactions p));
  Ok u.

Definition next_height s : Z := match s_height s with Some h => as_u32 (h + 1) | None => 0 end.

Lemma prevalidate_spec s a header body p :
  prevalidate s a header body = Ok p →
  pb_next_height p = next_height s ∧
  pb_coinbase_value p = sumZ (map output_bitcoin_value (cb_outputs (coinbase body))) ∧
  map transaction (pb_filled_transactions p) = transactions body ∧
  Forall (filled_from (utxos (s_utxos s))) (pb_filled_transactions p) ∧
  Forall tx_funded (pb_filled_transactions p).
Proof.
  unfold prevalidate. intros H. inv_ok. simpl.
  match goal with H : fill_body _ _ = Ok _ |- _ => apply fill_body_spec in H as [Hmap Hfill] end.
  match goal with H : coinbase_value _ = Ok _ |- _ => unfold coinbase_value in H end. inv_ok.
  match goal with H : amount_checked_sum _ = Some _ |- _ => apply amount_checked_sum_spec in H as [-> _] end.
  split_and!; try done. apply Forall_forall. intros tx Htx.
  match goal with H : try_fold (fun _ tx => _) tt ?l = Ok _ |- _ =>
    apply (try_fold_inv (fun seen _ => Forall tx_funded seen)) in H; [by eapply Forall_forall in H|constructor|] end.
  intros seen c x c' Hs _ Hx. inv_ok. apply Forall_app_2; [done|]. constructor; [|done].
  by eapply validate_filled_funded.
Qed.

Lemma begin_block_money s body ts h s' g c : begin_block s body ts h = Ok (s', g, c) → same_money s s'.
Proof. unfold begin_block. intros H. inv_ok. simplify_eq. by destruct (h =? 0). Qed.

Lemma settle_none_unchanged ddb vdb reps h ms t t' :
  settle_markets share_payout_hash array_sum ddb vdb reps h t ms = Some (Ok (t', [])) → t' = t.
Proof.
  revert t. induction ms as [|m ms IH]; intros t H; simpl in H; [by simplify_eq|].
  case_bool_decide; [by apply IH|]. destruct (gather_outcomes _ _ _ _) as [[outcomes decisions]|]; [|by apply IH].
  apply bind_Some in H as (r & _ & H). destruct r as [[t1 undo]|]; [|discriminate].
  apply bind_Some in H as (r2 & _ & H). injection H as H. inv_ok. destruct a. simplify_eq.
Qed.

(** A settlement stage that records no undo changes nothing. *)
Lemma settle_resolved_none s h s' :
  settle_resolved s h = Ok s' → s_settlement_undo s' !! h = None → same_money s s'.
Proof.
  unfold settle_resolved. destruct (transition_and_payout_resolved_markets _ _ _ _ _ _ _) as [r|] eqn:E; [|discriminate].
  intros H Hn. inv_ok. destruct a as [t undos]. inv_ok. case_bool_decide as Hu.
  - subst. apply settle_none_unchanged in E as ->. done.
  - exfalso. simpl in Hn. by rewrite lookup_insert_eq in Hn.
Qed.

Lemma resolve_periods_money s g ts h c s' : resolve_periods s g ts h c = Ok s' → same_money s s'.
Proof. unfold resolve_periods. intros H. inv_ok. destruct a. inv_ok. by case_bool_decide. Qed.

Lemma update_pricing_money s ts h g s' : update_pricing s ts h g = Ok s' → same_money s s'.
Proof. unfold update_pricing. intros H. inv_ok. done. Qed.

Lemma finish_block_money s header ts h sk : same_money s (finish_block s header ts h sk).
Proof. unfold finish_block. by case_bool_decide. Qed.

(** The transactions of a body against the tables after the coinbase. *)
Lemma body_transactions header body txs base :
  fresh_outpoints header body → body_amounts_ok body → map transaction txs = transactions body →
  Forall (filled_from base) txs →
  Forall tx_ok txs ∧
  Forall (fun tx => input_keys (tx_inputs (transaction tx)) ⊆ body_inputs body ∧ filled_from base tx ∧
    Forall (fun k => k ∉ body_inputs body)
      (output_keys (tx_txid (transaction tx)) (length (tx_outputs (transaction tx))))) txs.
Proof.
  intros Hfresh [_ Ham] Hmap Hfill. assert (∀ tx, tx ∈ txs → transaction tx ∈ transactions body) as Hin.
  { intros tx Htx. rewrite <- Hmap. by apply list_elem_of_fmap_2. }
  split; apply Forall_forall; intros tx Htx; pose proof (Hin tx Htx) as Hb.
  - eapply Forall_forall in Ham as [Ho Ha]; [|exact Hb]. split; [done|].
    unfold amplify_beta, data. by destruct (tx_data (transaction tx)) as [[]|].
  - split_and!.
    + intros k Hk. unfold body_inputs, input_keys, get_inputs in *. apply list_elem_of_fmap in Hk as (i & -> & Hi).
      apply list_elem_of_fmap_2. apply list_elem_of_In, in_flat_map. exists (transaction tx).
      by split; apply list_elem_of_In.
    + by eapply Forall_forall in Hfill.
    + unfold fresh_outpoints, created_keys in Hfresh. apply Forall_app in Hfresh as [_ Hfresh].
      apply Forall_forall. intros k Hk. eapply Forall_forall in Hfresh; [exact Hfresh|].
      apply list_elem_of_In, in_flat_map. exists (transaction tx). by split; apply list_elem_of_In.
Qed.

(** C1: a block creates no satoshis.  When a block is validated and connected
    and settles no market, the values of all unspent outputs add up to no more
    than before: the coinbase is covered by the fees of the transactions that
    were not skipped, and the payouts, change and new treasuries of the markets
    by what their buyers paid in and the treasuries held.  The pointers to the
    treasuries stay well formed.  The block must not spend outpoints it creates
    itself, and its trades must add up within 64 bits. *)
Theorem block_creates_no_value s a header body timestamp s' :
  values_ok (s_utxos s) → pointers_ok (s_markets s) →
  body_amounts_ok body → fresh_outpoints header body →
  (∀ u, block_update s a header body timestamp = Ok u → update_fits u) →
  apply_block s a header body timestamp = Ok s' →
  s_settlement_undo s' !! next_height s = None →
  utxo_total (s_utxos s') ≤ utxo_total (s_utxos s) ∧
  values_ok (s_utxos s') ∧ pointers_ok (s_markets s').
Proof.
  intros Hok Hp Ham Hfresh Hfit H Hnone. unfold apply_block in H. unfold block_update in Hfit.
  destruct (prevalidate s a header body) as [p|] eqn:Epre; cbn [mbind result_bind] in *; [|discriminate].
  apply prevalidate_spec in Epre as (Eh & Ev & Emap & Efill & Efund).
  unfold connect_prevalidated in H. rewrite Eh in *. set (h := next_height s) in *. inv_ok.
  destruct a0 as [[s1 g] c]. inv_ok. destruct a1 as [s2 sk]. inv_ok.
  destruct (begin_block_money _ _ _ _ _ _ _ E) as [Hu1 Hp1]. rewrite Hu1 in *.
  destruct (body_transactions header body _ _ Hfresh Ham Emap Efill) as [Htok Htxs].
  destruct (connect_coinbase_total (utxos (s_utxos s)) (body_inputs body) header body (s_utxos s) a0)
    as (Hun & Hok1 & Ht1); [by right|done| |by destruct Ham|done|].
  { unfold fresh_outpoints, created_keys in Hfresh. by apply Forall_app in Hfresh as [? _]. }
  destruct (connect_transactions_total (utxos (s_utxos s)) (body_inputs body) (set_s_utxos s1 a0) h
    (pb_coinbase_value p) (pb_filled_transactions p) s2 sk) as (Hok2 & Hp2 & Ht2); try (by simpl; auto).
  { intros s3 u sk1 Hu. apply (Hfit u). cbn [mbind result_bind]. rewrite Hu1, E0. cbn [mbind result_bind]. by rewrite Hu. }
  match goal with H : update_pricing _ _ _ _ = Ok _ |- _ => apply update_pricing_money in H as [Hu3 Hp3] end.
  match goal with H : resolve_periods _ _ _ _ _ = Ok _ |- _ => apply resolve_periods_money in H as [Hu4 Hp4] end.
  match goal with H : settle_resolved _ _ = Ok ?x |- _ => apply settle_resolved_none in H as [Hu5 Hp5];
    [destruct (finish_block_money x header timestamp h sk) as [Hu6 Hp6]|] end.
  - rewrite Hu6, Hu5, Hu4, Hu3. split_and!; [|done|auto]. simpl in *. lia.
  - unfold finish_block in Hnone. by case_bool_decide.
Qed.

End Supply.
