(* ===== verification/Dimensions.v ===== *)
(** * The bracket notation of market dimensions

    Model of [parse_dimensions] and [parse_single_decision]
    (src/lib/state/markets/types.rs).  Text is ASCII; [const_hex::decode] is a
    parameter.  The index of the source is the suffix not read yet. *)

From stdpp Require Import base numbers list strings gmap.
From Stdlib Require Import Ascii.
From S2P Require Import Prelude Float64 StateErrors DecisionTypes Markets.

#[local] Arguments Ascii.eqb : simpl never.
#[local] Arguments N_of_ascii : simpl never.

Definition is_whitespace (c : ascii) : bool :=
  let n := Z.of_N (N_of_ascii c) in ((9 <=? n) && (n <=? 13)) || (n =? 32).

(** [skip_while], and [str::trim] on both sides. *)
Fixpoint skip_while (f : ascii → bool) (l : list ascii) : list ascii :=
  match l with
  | c :: l' => if f c then skip_while f l' else l
  | [] => []
  end.
Definition trim (l : list ascii) : list ascii :=
  rev (skip_while is_whitespace (rev (skip_while is_whitespace l))).

Definition is_separator (c : ascii) : bool := is_whitespace c || Ascii.eqb c ",".

(** The characters up to the bracket that closes the open ones, and the rest. *)
Fixpoint take_bracket (bracket_count : nat) (l : list ascii) : option (list ascii * list ascii) :=
  match l with
  | [] => None
  | c :: l =>
      if Ascii.eqb c "[" then '(inner, rest) ← take_bracket (S bracket_count) l; Some (c :: inner, rest)
      else if Ascii.eqb c "]" then
        match bracket_count with
        | S (S n) => '(inner, rest) ← take_bracket (S n) l; Some (c :: inner, rest)
        | _ => Some ([], l)
        end
      else '(inner, rest) ← take_bracket bracket_count l; Some (c :: inner, rest)
  end.

(** The characters before the next comma or bracket, and the rest. *)
Fixpoint take_single (l : list ascii) : list ascii * list ascii :=
  match l with
  | [] => ([], [])
  | c :: l' => if Ascii.eqb c "," || Ascii.eqb c "[" then ([], l)
               else let '(word, rest) := take_single l' in (c :: word, rest)
  end.

Section Parser.
Context (hex_decode : list ascii → option bytes).

Definition parse_single_decision (l : list ascii) : result MarketError DecisionId :=
  match hex_decode l with
  | Some [b0; b1; b2] => map_err (fun _ => InvalidDimensions) (from_bytes b0 b1 b2)
  | _ => Err InvalidDimensions
  end.

(** The outer loop: every round reads a character, so the length of the text is
    fuel enough; [None] when it runs out. *)
Fixpoint parse_loop (fuel : nat) (l : list ascii) (dimensions : list DimensionSpec)
  : option (result MarketError (list DimensionSpec)) :=
  match skip_while is_separator l with
  | [] => Some (Ok dimensions)
  | c :: l' =>
      match fuel with
      | O => None
      | S fuel =>
          if Ascii.eqb c "[" then
            match take_bracket 1 l' with
            | None => Some (Err InvalidDimensions)
            | Some (inner, rest) =>
                match parse_single_decision (trim inner) with
                | Ok id => parse_loop fuel rest (dimensions ++ [Categorical id])
                | Err e => Some (Err e)
                end
            end
          else
            let '(word, rest) := take_single (c :: l') in
            match parse_single_decision (trim word) with
            | Ok id => parse_loop fuel rest (dimensions ++ [Single id])
            | Err e => Some (Err e)
            end
      end
  end.

(** [starts_with], [ends_with] and the slice between the outer brackets. *)
Definition strip_brackets (l : list ascii) : option (list ascii) :=
  match l with
  | c :: l' => if Ascii.eqb c "[" && bool_decide (last l = Some "]"%char) then Some (removelast l') else None
  | [] => None
  end.

Definition parse_dimensions (dimensions_str : string) : option (result MarketError (list DimensionSpec)) :=
  match strip_brackets (trim (String.list_ascii_of_string dimensions_str)) with
  | None => Some (Err InvalidDimensions)
  | Some inner => parse_loop (length inner) inner []
  end.

(** ** Facts *)

Lemma skip_while_length f l : (length (skip_while f l) <= length l)%nat.
Proof. induction l as [|c l IH]; simpl; [done|]. destruct (f c); simpl; lia. Qed.

Lemma take_bracket_length n l inner rest :
  take_bracket n l = Some (inner, rest) → (length rest <= length l)%nat.
Proof.
  revert n inner. induction l as [|c l IH]; intros n inner; simpl; [done|].
  destruct (Ascii.eqb c "["); [|destruct (Ascii.eqb c "]"); [destruct n as [|[|n]]|]].
  1, 4, 5: intros ([i r] & E & [= _ <-])%bind_Some; apply IH in E; lia.
  all: intros [= _ <-]; lia.
Qed.

Lemma take_single_length l : (length (take_single l).2 <= length l)%nat.
Proof.
  induction l as [|c l IH]; simpl; [done|]. destruct (_ || _); [done|].
  destruct (take_single l). simpl in *. lia.
Qed.

(** The parser always answers. *)
Lemma parse_loop_total fuel l acc :
  (length l <= fuel)%nat → is_Some (parse_loop fuel l acc).
Proof.
  revert l acc. induction fuel as [|fuel IH]; intros l acc Hl; cbn [parse_loop];
    pose proof (skip_while_length is_separator l) as Hs;
    (destruct (skip_while is_separator l) as [|c l'] eqn:E; [by eexists|]); simpl in Hs; [lia|].
  destruct (Ascii.eqb c "[") eqn:Ec.
  - destruct (take_bracket 1 l') as [[inner rest]|] eqn:Et; [|by eexists].
    apply take_bracket_length in Et. destruct (parse_single_decision _); [apply IH; lia|by eexists].
  - assert (length (take_single (c :: l')).2 < length (c :: l'))%nat as Ht.
    { simpl. rewrite Ec, orb_false_r. assert (is_separator c = false) as Hc.
      { clear - E. induction l as [|x l IH]; simpl in E; [done|].
        destruct (is_separator x) eqn:Ex; [auto|]. by injection E as -> _. }
      unfold is_separator in Hc. apply orb_false_iff in Hc as [_ ->].
      pose proof (take_single_length l'). destruct (take_single l'). simpl in *. lia. }
    destruct (take_single (c :: l')) as [word rest]. simpl in Ht.
    destruct (parse_single_decision _); [apply IH; lia|by eexists].
Qed.

(** ** The notation *)

(** A decision id as it is written: text without blanks, commas and brackets
    that decodes to its bytes. *)
Context (encode : DecisionId → list ascii).
Definition plain (c : ascii) : bool :=
  negb (is_separator c) && negb (Ascii.eqb c "[") && negb (Ascii.eqb c "]").
#[local] Arguments plain : simpl never.
Hypothesis encode_plain : ∀ id, wf_id id → forallb plain (encode id) = true.
Hypothesis encode_nonempty : ∀ id, encode id ≠ [].
Hypothesis encode_decode : ∀ id, wf_id id → hex_decode (encode id) = Some (as_bytes id).

Definition print_spec (s : DimensionSpec) : list ascii :=
  match s with
  | Single id => encode id
  | Categorical id => ["["%char] ++ encode id ++ ["]"%char]
  end.
Fixpoint print_specs (specs : list DimensionSpec) : list ascii :=
  match specs with
  | [] => []
  | [s] => print_spec s
  | s :: specs => print_spec s ++ [","%char] ++ print_specs specs
  end.
Definition print_dimensions (specs : list DimensionSpec) : string :=
  String.string_of_list_ascii (["["%char] ++ print_specs specs ++ ["]"%char]).

Definition valid_id (id : DecisionId) : Prop := wf_id id ∧ from_bytes (byte0 id) (byte1 id) (byte2 id) = Ok id.

Lemma skip_while_stop f c l : f c = false → skip_while f (c :: l) = c :: l.
Proof. simpl. by intros ->. Qed.

Lemma plain_facts c : plain c = true →
  is_whitespace c = false ∧ is_separator c = false ∧ Ascii.eqb c "," = false ∧
  Ascii.eqb c "[" = false ∧ Ascii.eqb c "]" = false.
Proof.
  unfold plain. intros [[H1 H2]%andb_true_iff H3]%andb_true_iff. apply negb_true_iff in H1, H2, H3.
  pose proof H1 as [Hw Hc]%orb_false_elim. done.
Qed.

Lemma forallb_rev {A} (f : A → bool) l : forallb f (rev l) = forallb f l.
Proof.
  induction l as [|a l IH]; simpl; [done|]. rewrite forallb_app, IH. simpl. by destruct (f a), (forallb f l).
Qed.

Lemma trim_plain l : forallb plain l = true → trim l = l.
Proof.
  assert (∀ l, forallb plain l = true → skip_while is_whitespace l = l) as H.
  { intros [|c k] Hk; [done|]. simpl in Hk. apply andb_true_iff in Hk as [Hc _].
    by apply skip_while_stop, plain_facts. }
  intros Hl. unfold trim. rewrite (H l Hl), H by (by rewrite forallb_rev). apply rev_involutive.
Qed.

Lemma take_bracket_plain l rest :
  forallb plain l = true → take_bracket 1 (l ++ "]"%char :: rest) = Some (l, rest).
Proof.
  induction l as [|c l IH]; intros H; [reflexivity|]. cbn [forallb] in H. apply andb_true_iff in H as [Hc Hl].
  destruct (plain_facts c Hc) as (_ & _ & _ & H1 & H2). cbn [app take_bracket].
  rewrite H1, H2, IH by exact Hl. reflexivity.
Qed.

(** What may follow a decision in the text: nothing or a comma. *)
Definition ends_word (rest : list ascii) : Prop := rest = [] ∨ ∃ r, rest = ","%char :: r.

Lemma take_single_plain l rest :
  forallb plain l = true → ends_word rest → take_single (l ++ rest) = (l, rest).
Proof.
  induction l as [|c l IH]; intros H Hr; [by destruct Hr as [->|[r ->]]|].
  cbn [forallb] in H. apply andb_true_iff in H as [Hc Hl]. destruct (plain_facts c Hc) as (_ & _ & H1 & H2 & _).
  cbn [app take_single]. rewrite H1, H2, IH by done. reflexivity.
Qed.

Lemma parse_loop_spec s fuel rest acc :
  valid_id (spec_id s) → ends_word rest →
  parse_loop (S fuel) (print_spec s ++ rest) acc = parse_loop fuel rest (acc ++ [s]).
Proof.
  intros [Hw Hv] Hr.
  assert (parse_single_decision (encode (spec_id s)) = Ok (spec_id s)) as Hd
    by (unfold parse_single_decision; rewrite encode_decode by done; cbn [as_bytes]; by rewrite Hv).
  pose proof (encode_plain (spec_id s) Hw) as Hp. cbn [parse_loop].
  destruct s as [id|id]; cbn [print_spec spec_id] in *.
  - pose proof (encode_nonempty id). destruct (encode id) as [|c l] eqn:E; [done|].
    pose proof Hp as [Hc _]%andb_true_iff. destruct (plain_facts c Hc) as (_ & Hs & Hk & Hb & _).
    cbn [app]. rewrite skip_while_stop, Hb by done. change (c :: l ++ rest) with ((c :: l) ++ rest).
    rewrite take_single_plain, trim_plain, Hd by done. reflexivity.
  - rewrite <- !app_assoc. cbn [app]. rewrite skip_while_stop by reflexivity.
    change (Ascii.eqb "[" "[") with true. cbv iota.
    rewrite take_bracket_plain, trim_plain, Hd by done. reflexivity.
Qed.

Lemma skip_comma l : skip_while is_separator (","%char :: l) = skip_while is_separator l.
Proof. done. Qed.

Lemma parse_loop_comma fuel l acc : parse_loop fuel (","%char :: l) acc = parse_loop fuel l acc.
Proof. by destruct fuel. Qed.

Lemma parse_print_specs specs fuel acc :
  Forall (fun s => valid_id (spec_id s)) specs → (length specs <= fuel)%nat →
  parse_loop fuel (print_specs specs) acc = Some (Ok (acc ++ specs)).
Proof.
  intros Hv. revert fuel acc. induction Hv as [|s specs Hs Hv IH]; intros fuel acc Hf.
  - simpl. rewrite app_nil_r. by destruct fuel.
  - destruct fuel as [|fuel]; simpl in Hf; [lia|]. destruct specs as [|s' specs].
    + pose proof (parse_loop_spec s fuel [] acc Hs (or_introl eq_refl)) as H. rewrite app_nil_r in H.
      cbn [print_specs]. rewrite H. by destruct fuel.
    + change (print_specs (s :: s' :: specs)) with (print_spec s ++ [","%char] ++ print_specs (s' :: specs)).
      rewrite parse_loop_spec; [|done|right; by eexists]. cbn [app].
      rewrite parse_loop_comma, IH by (clear - Hf; cbn [length] in *; lia).
      by rewrite <- app_assoc.
Qed.

Lemma print_specs_length specs : (length specs <= length (print_specs specs))%nat.
Proof.
  assert (∀ s, (1 <= length (print_spec s))%nat) as H.
  { intros [id|id]; cbn [print_spec app length]; [|lia]. pose proof (encode_nonempty id).
    destruct (encode id); cbn [length]; [done|lia]. }
  induction specs as [|s [|s' specs] IH]; [done|cbn [print_specs length]; specialize (H s); lia|].
  change (print_specs (s :: s' :: specs)) with (print_spec s ++ [","%char] ++ print_specs (s' :: specs)).
  rewrite !length_app. cbn [length] in *. specialize (H s). lia.
Qed.

Lemma trim_brackets l : trim ("["%char :: l ++ ["]"%char]) = "["%char :: l ++ ["]"%char].
Proof.
  unfold trim. rewrite skip_while_stop by reflexivity.
  change ("["%char :: l ++ ["]"%char]) with (("["%char :: l) ++ ["]"%char]).
  rewrite rev_app_distr. change (rev ["]"%char]) with ["]"%char]. cbn [app].
  rewrite skip_while_stop by reflexivity. cbn [rev]. by rewrite rev_app_distr, rev_involutive.
Qed.

(** The dimensions of a market survive the notation.  Written in brackets,
    separated by commas, categorical ones in brackets of their own, any list of
    valid decision ids is parsed back to the same list; and the parser answers
    on every text. *)
Theorem parse_dimensions_roundtrip specs :
  Forall (fun s => valid_id (spec_id s)) specs →
  parse_dimensions (print_dimensions specs) = Some (Ok specs) ∧
  (∀ text, is_Some (parse_dimensions text)).
Proof.
  intros Hv. split.
  - unfold parse_dimensions, print_dimensions. rewrite String.list_ascii_of_string_of_list_ascii.
    assert (trim (["["%char] ++ print_specs specs ++ ["]"%char]) = "["%char :: print_specs specs ++ ["]"%char]) as ->.
    { apply trim_brackets. }
    unfold strip_brackets. rewrite removelast_last.
    change ("["%char :: print_specs specs ++ ["]"%char]) with (("["%char :: print_specs specs) ++ ["]"%char]).
    rewrite last_snoc, bool_decide_eq_true_2 by done. cbn [Ascii.eqb andb]. simpl.
    by rewrite parse_print_specs by (try done; apply print_specs_length).
  - intros text. unfold parse_dimensions. destruct (strip_brackets _); [|by eexists]. by apply parse_loop_total.
Qed.
End Parser.

(** ** Examples *)

Fixpoint toy_decode (l : list ascii) : option bytes :=
  match l with
  | [] => Some []
  | c :: d :: l => b ← hex_digit_value c; b' ← hex_digit_value d; r ← toy_decode l; Some (b * 16 + b' :: r)
  | _ => None
  end.
Definition toy_encode (id : DecisionId) : list ascii :=
  flat_map (fun b => [hex_digit (b / 16); hex_digit (b mod 16)]) (as_bytes id).

Lemma toy_digit n : 0 ≤ n < 16 → hex_digit_value (hex_digit n) = Some n ∧ plain (hex_digit n) = true.
Proof.
  intros Hn. assert (n ∈ range 0 16) as Hin by (by apply elem_of_range).
  assert (Forall (fun n => hex_digit_value (hex_digit n) = Some n ∧ plain (hex_digit n) = true) (range 0 16)) as H
    by (repeat constructor).
  rewrite Forall_forall in H. by apply H.
Qed.

Lemma toy_digit_value n : 0 ≤ n < 16 → hex_digit_value (hex_digit n) = Some n.
Proof. apply toy_digit. Qed.
Lemma toy_digit_plain n : 0 ≤ n < 16 → plain (hex_digit n) = true.
Proof. apply toy_digit. Qed.

Lemma toy_byte b : is_u8 b → 0 ≤ b / 16 < 16 ∧ 0 ≤ b mod 16 < 16 ∧ b / 16 * 16 + b mod 16 = b.
Proof. unfold is_u8. intros. zify_div. Qed.

Lemma toy_encode_plain id : wf_id id → forallb plain (toy_encode id) = true.
Proof.
  intros (H0 & H1 & H2). unfold toy_encode, as_bytes. cbn [flat_map app forallb].
  pose proof (toy_byte _ H0) as (? & ? & _). pose proof (toy_byte _ H1) as (? & ? & _).
  pose proof (toy_byte _ H2) as (? & ? & _). by rewrite !toy_digit_plain by done.
Qed.

Lemma toy_encode_decode id : wf_id id → toy_decode (toy_encode id) = Some (as_bytes id).
Proof.
  intros (H0 & H1 & H2). unfold toy_encode, as_bytes. cbn [flat_map app toy_decode].
  pose proof (toy_byte _ H0) as (? & ? & E0). pose proof (toy_byte _ H1) as (? & ? & E1).
  pose proof (toy_byte _ H2) as (? & ? & E2). rewrite !toy_digit_value by done. cbn [mbind option_bind].
  by rewrite E0, E1, E2.
Qed.

Definition toy_specs : list DimensionSpec :=
  [Single {| byte0 := 132; byte1 := 0; byte2 := 8 |}; Categorical {| byte0 := 4; byte1 := 200; byte2 := 9 |}].

Lemma parse_dimensions_roundtrip_witness :
  print_dimensions toy_encode toy_specs = "[840008,[04c809]]"%string ∧
  parse_dimensions toy_decode "[840008,[04c809]]" = Some (Ok toy_specs).
Proof.
  split; [reflexivity|].
  refine (proj1 (parse_dimensions_roundtrip toy_decode toy_encode toy_encode_plain _ toy_encode_decode toy_specs _)).
  - intros id. discriminate.
  - repeat constructor; vm_compute; congruence.
Defined.

(** The notation of several decisions in one pair of inner brackets, which the
    documentation of the wallet gives as an example, is refused. *)
Lemma categorical_list_refused :
  parse_dimensions toy_decode "[[004008,004009,00400a]]" = Some (Err InvalidDimensions).
Proof. reflexivity. Qed.
