(* ===== verification/Wallet.v ===== *)
(** * The wallet

    Model of [Wallet] (src/lib/wallet.rs): the tables of keys and coins, the
    selection of coins, the transactions the wallet builds and their
    authorization.  Every method opens its own database transaction, so what a
    method wrote before it failed stays written: methods are computations over
    the wallet that return an error beside the tables they leave. *)

From stdpp Require Import base numbers list strings gmap.
From Stdlib Require Import Ascii.
From S2P Require Import Prelude Float64 SafeMath MarketMath StateErrors DecisionTypes Markets Transactions.
From S2P Require Import TwoWayPeg Bodies TxPow StateModel Validation BlockUpdate Authorization Dimensions.

Inductive WalletError : Type :=
| AddressDoesNotExist (address : Address)
| WalletAmountOverflow
| WalletBip32
| WalletEcies
| EpkDoesNotExist (epk : bytes)
| NoIndex (address : Address)
| NoSeed
| NotEnoughFunds
| NoTransferDestination
| WalletNoUtxo
| ParseMnemonic
| SeedAlreadyExists
| VkDoesNotExist (vk : bytes)
| WalletInvalidDecisionId (reason : string)
| WalletPanicked (what : string).

(** A spent output of either kind, with the input that spends it. *)
Record Wallet : Type := {
  w_seed : option bytes;
  w_address_to_index : gmap Address Z;
  w_epk_to_index : gmap bytes Z;
  w_index_to_address : gmap Z Address;
  w_index_to_epk : gmap Z bytes;
  w_index_to_vk : gmap Z bytes;
  w_unconfirmed_utxos : gmap OutPoint Output;
  w_utxos : gmap OutPoint FilledOutput;
  w_stxos : gmap OutPoint SpentOutput;
  w_spent_unconfirmed_utxos : gmap OutPoint (Output * InPoint);
  w_vk_to_index : gmap bytes Z
}.

Definition Wallet_new : Wallet :=
  {| w_seed := None; w_address_to_index := ∅; w_epk_to_index := ∅; w_index_to_address := ∅; w_index_to_epk := ∅;
     w_index_to_vk := ∅; w_unconfirmed_utxos := ∅; w_utxos := ∅; w_stxos := ∅; w_spent_unconfirmed_utxos := ∅;
     w_vk_to_index := ∅ |}.

(** *** Writing tables *)

Definition set_w_addresses (w : Wallet) a i : Wallet :=
  {| w_seed := w_seed w; w_address_to_index := a; w_epk_to_index := w_epk_to_index w; w_index_to_address := i;
     w_index_to_epk := w_index_to_epk w; w_index_to_vk := w_index_to_vk w;
     w_unconfirmed_utxos := w_unconfirmed_utxos w; w_utxos := w_utxos w; w_stxos := w_stxos w;
     w_spent_unconfirmed_utxos := w_spent_unconfirmed_utxos w; w_vk_to_index := w_vk_to_index w |}.
Definition set_w_epks (w : Wallet) a i : Wallet :=
  {| w_seed := w_seed w; w_address_to_index := w_address_to_index w; w_epk_to_index := a;
     w_index_to_address := w_index_to_address w; w_index_to_epk := i; w_index_to_vk := w_index_to_vk w;
     w_unconfirmed_utxos := w_unconfirmed_utxos w; w_utxos := w_utxos w; w_stxos := w_stxos w;
     w_spent_unconfirmed_utxos := w_spent_unconfirmed_utxos w; w_vk_to_index := w_vk_to_index w |}.
Definition set_w_vks (w : Wallet) a i : Wallet :=
  {| w_seed := w_seed w; w_address_to_index := w_address_to_index w; w_epk_to_index := w_epk_to_index w;
     w_index_to_address := w_index_to_address w; w_index_to_epk := w_index_to_epk w; w_index_to_vk := i;
     w_unconfirmed_utxos := w_unconfirmed_utxos w; w_utxos := w_utxos w; w_stxos := w_stxos w;
     w_spent_unconfirmed_utxos := w_spent_unconfirmed_utxos w; w_vk_to_index := a |}.
Definition set_w_coins (w : Wallet) confirmed unconfirmed spent spent_unconfirmed : Wallet :=
  {| w_seed := w_seed w; w_address_to_index := w_address_to_index w; w_epk_to_index := w_epk_to_index w;
     w_index_to_address := w_index_to_address w; w_index_to_epk := w_index_to_epk w;
     w_index_to_vk := w_index_to_vk w; w_unconfirmed_utxos := unconfirmed; w_utxos := confirmed;
     w_stxos := spent; w_spent_unconfirmed_utxos := spent_unconfirmed; w_vk_to_index := w_vk_to_index w |}.

(** ** Computations over the wallet *)

Definition walletM (A : Type) : Type := Wallet → result WalletError A * Wallet.

#[export] Instance walletM_ret : MRet walletM := fun A a w => (Ok a, w).
#[export] Instance walletM_bind : MBind walletM := fun A B f c w =>
  match c w with
  | (Ok a, w) => f a w
  | (Err e, w) => (Err e, w)
  end.

(** A computation that reads the tables only. *)
Definition reading {A} (f : Wallet → result WalletError A) : walletM A := fun w => (f w, w).

(** ** Parameters *)

(** Key derivation and mnemonics of external crates, the order an unstable sort
    by decreasing value leaves coins of equal value in, the order of a
    [HashMap]'s keys, and [const_hex::decode]. *)
Class WalletEnv {AM : BitcoinAmount} : Type := {
  derive_key : bytes → Z → Z → option bytes;
  epk_of_secret : bytes → bytes;
  ecies_decrypt : bytes → bytes → option bytes;
  seed_of_mnemonic : string → option bytes;
  coin_sort : list (OutPoint * Output) → list (OutPoint * Output);
  coin_sort_perm l : coin_sort l ≡ₚ l;
  coin_sort_sorted l i j (a b : OutPoint * Output) : coin_sort l !! i = Some a → coin_sort l !! j = Some b → (i ≤ j)%nat →
    output_bitcoin_value b.2 ≤ output_bitcoin_value a.2;
  coin_iter : gmap OutPoint Output → list (OutPoint * Output);
  coin_iter_perm m : coin_iter m ≡ₚ map_to_list m;
  wallet_hex_decode : list ascii → option bytes
}.

Section Wallet.
Context {AM : BitcoinAmount} {VE : ValidationEnv} {WE : WalletEnv}.
Implicit Types (w : Wallet).

(** ** Keys *)

(** [get_master_xpriv] and the derivation along a hardened branch. *)
Definition derive_secret w (branch index : Z) : result WalletError bytes :=
  seed ← ok_or (w_seed w) NoSeed;
  ok_or (derive_key seed branch index) WalletBip32.

Definition get_tx_signing_key w (index : Z) : result WalletError bytes := derive_secret w 0 index.
Definition get_encryption_secret w (index : Z) : result WalletError bytes := derive_secret w 1 index.
Definition get_message_signing_key w (index : Z) : result WalletError bytes := derive_secret w 2 index.

Definition get_encryption_secret_for_epk w (epk : bytes) : result WalletError bytes :=
  index ← ok_or (w_epk_to_index w !! epk) (EpkDoesNotExist epk);
  secret ← get_encryption_secret w index;
  if bool_decide (epk = epk_of_secret secret) then Ok secret else Err (WalletPanicked "secret of another key").

Definition get_tx_signing_key_for_addr w (address : Address) : result WalletError bytes :=
  index ← ok_or (w_address_to_index w !! address) (AddressDoesNotExist address);
  sk ← get_tx_signing_key w index;
  if bool_decide (address = get_address (vk_of_sk sk)) then Ok sk else Err (WalletPanicked "key of another address").

Definition get_message_signing_key_for_vk w (vk : bytes) : result WalletError bytes :=
  index ← ok_or (w_vk_to_index w !! vk) (VkDoesNotExist vk);
  sk ← get_message_signing_key w index;
  if bool_decide (vk = vk_of_sk sk) then Ok sk else Err (WalletPanicked "key of another verifying key").

(** The last entry of a table with big-endian keys, and the index after it. *)
Definition last_entry {V} (m : gmap Z V) : option (Z * V) := last (db_iter Z.compare m).
Definition next_index {V} (m : gmap Z V) : Z :=
  match last_entry m with Some (i, _) => as_u32 (i + 1) | None => 0 end.

Definition put_address (index : Z) (address : Address) : walletM Address := fun w =>
  (Ok address, set_w_addresses w (<[address := index]> (w_address_to_index w))
                 (<[index := address]> (w_index_to_address w))).

Definition voter_address : walletM Address := fun w =>
  match w_index_to_address w !! 0 with
  | Some address => (Ok address, w)
  | None => (sk ← reading (fun w => get_tx_signing_key w 0); put_address 0 (get_address (vk_of_sk sk))) w
  end.

Definition get_new_address : walletM Address := fun w =>
  let index := next_index (w_index_to_address w) in
  (sk ← reading (fun w => get_tx_signing_key w index); put_address index (get_address (vk_of_sk sk))) w.

Definition address_received w (address : Address) : bool :=
  existsb (fun e => bool_decide (out_address e.2 = address)) (map_to_list (w_utxos w))
  || existsb (fun e => bool_decide (out_address e.2 = address)) (map_to_list (w_unconfirmed_utxos w))
  || existsb (fun e => bool_decide (out_address (so_output e.2) = address)) (map_to_list (w_stxos w)).

Definition get_receive_address : walletM Address := fun w =>
  match last_entry (w_index_to_address w) with
  | Some (_, address) => if negb (address_received w address) then (Ok address, w) else get_new_address w
  | None => get_new_address w
  end.

Definition put_epk (index : Z) (epk : bytes) : walletM bytes := fun w =>
  (Ok epk, set_w_epks w (<[epk := index]> (w_epk_to_index w)) (<[index := epk]> (w_index_to_epk w))).
Definition put_vk (index : Z) (vk : bytes) : walletM bytes := fun w =>
  (Ok vk, set_w_vks w (<[vk := index]> (w_vk_to_index w)) (<[index := vk]> (w_index_to_vk w))).

Definition get_new_encryption_key : walletM bytes := fun w =>
  let index := next_index (w_index_to_epk w) in
  (secret ← reading (fun w => get_encryption_secret w index); put_epk index (epk_of_secret secret)) w.

Definition get_new_verifying_key : walletM bytes := fun w =>
  let index := next_index (w_index_to_vk w) in
  (sk ← reading (fun w => get_message_signing_key w index); put_vk index (vk_of_sk sk)) w.

(** The tables of encryption and verifying keys are not cleared. *)
Definition overwrite_seed (seed : bytes) : walletM unit := fun w =>
  (Ok tt, {| w_seed := Some seed; w_address_to_index := ∅; w_epk_to_index := w_epk_to_index w;
             w_index_to_address := ∅; w_index_to_epk := w_index_to_epk w; w_index_to_vk := w_index_to_vk w;
             w_unconfirmed_utxos := ∅; w_utxos := ∅; w_stxos := ∅; w_spent_unconfirmed_utxos := ∅;
             w_vk_to_index := w_vk_to_index w |}).

Definition has_seed w : bool := bool_decide (is_Some (w_seed w)).

Definition set_seed (seed : bytes) : walletM unit := fun w =>
  match w_seed w with
  | Some current => (if bool_decide (current = seed) then Ok tt else Err SeedAlreadyExists, w)
  | None => overwrite_seed seed w
  end.

Definition set_seed_from_mnemonic (mnemonic : string) : walletM unit :=
  seed ← reading (fun _ => ok_or (seed_of_mnemonic mnemonic) ParseMnemonic);
  set_seed seed.

Definition decrypt_msg w (epk ciphertext : bytes) : result WalletError bytes :=
  secret ← get_encryption_secret_for_epk w epk;
  ok_or (ecies_decrypt secret ciphertext) WalletEcies.

(** ** Coins *)

(** [From<FilledOutput> for Output]. *)
Definition output_of_filled (o : FilledOutput) : Output :=
  {| out_address := out_address o; out_content := content_of_filled (out_content o); out_memo := out_memo o |}.

Definition spendable_coin (o : FilledOutput) : bool :=
  is_bitcoin o && negb (is_withdrawal o) && (0 <? get_bitcoin_value o).

(** The coins a loop over the table keeps. *)
Definition coins_of w (keep : FilledOutput → bool) : list (OutPoint * Output) :=
  map (fun e => (e.1, output_of_filled e.2)) (filter (fun e => keep e.2 = true) (map_to_list (w_utxos w))).

Fixpoint select_loop (value total : Z) (selected : gmap OutPoint Output) (coins : list (OutPoint * Output))
  : result WalletError (Z * gmap OutPoint Output) :=
  match coins with
  | [] => Err NotEnoughFunds
  | (outpoint, output) :: coins =>
      match amount_checked_add total (output_bitcoin_value output) with
      | None => Err WalletAmountOverflow
      | Some total =>
          let selected := <[outpoint := output]> selected in
          if value <=? total then Ok (total, selected) else select_loop value total selected coins
      end
  end.

Definition select_bitcoins w (value : Z) : result WalletError (Z * gmap OutPoint Output) :=
  select_loop value 0 ∅ (coin_sort (coins_of w spendable_coin)).

Definition select_bitcoins_from_address w (value : Z) (address : Address)
  : result WalletError (Z * gmap OutPoint Output) :=
  select_loop value 0 ∅ (coin_sort (coins_of w (fun o => bool_decide (out_address o = address) && spendable_coin o))).

(** [Amount]'s subtraction, which panics below zero. *)
Definition amount_sub (a b : Z) : result WalletError Z :=
  ok_or (checked_sub a b) (WalletPanicked "Amount subtraction").

Definition amount_add (a b : Z) : result WalletError Z := ok_or (amount_checked_add a b) WalletAmountOverflow.

Definition inputs_of (coins : gmap OutPoint Output) : list OutPoint := map fst (coin_iter coins).

Definition sorted_outpoints (coins : gmap OutPoint Output) : list OutPoint :=
  map fst (sort_by (fun a b => OutPoint_cmp a.1 b.1) (coin_iter coins)).

(** ** Transactions *)

Definition Output_new (address : Address) (content : Content) : Output :=
  {| out_address := address; out_content := content; out_memo := [] |}.
Definition Transaction_new (inputs : list OutPoint) (outputs : list Output) : Transaction :=
  {| tx_inputs := inputs; tx_outputs := outputs; tx_memo := []; tx_data := None |}.
Definition with_data (tx : Transaction) (data : TransactionData) : Transaction :=
  {| tx_inputs := tx_inputs tx; tx_outputs := tx_outputs tx; tx_memo := tx_memo tx; tx_data := Some data |}.

Definition push_bitcoin_change (outputs : list Output) (change : Z) : walletM (list Output) :=
  if 0 <? change then
    address ← get_new_address;
    mret (outputs ++ [Output_new address (CBitcoin change)])
  else mret outputs.

Definition create_withdrawal (main_address : bytes) (value main_fee fee : Z) : walletM Transaction :=
  needed ← reading (fun _ => v ← amount_add value fee; amount_add v main_fee);
  '(total, coins) ← reading (fun w => select_bitcoins w needed);
  change ← reading (fun _ => v ← amount_sub total value; v ← amount_sub v fee; amount_sub v main_fee);
  address ← get_new_address;
  outputs ← push_bitcoin_change
    [Output_new address (CWithdrawal {| w_value := value; w_main_fee := main_fee; w_main_address := main_address |})]
    change;
  mret (Transaction_new (inputs_of coins) outputs).

Definition create_transfer_to (outputs : list Output) (fee : Z) : walletM Transaction :=
  value ← reading (fun _ => ok_or (amount_checked_sum (map output_bitcoin_value outputs)) WalletAmountOverflow);
  needed ← reading (fun _ => amount_add value fee);
  '(total, coins) ← reading (fun w => select_bitcoins w needed);
  change ← reading (fun _ => v ← amount_sub total value; amount_sub v fee);
  outputs ← push_bitcoin_change outputs change;
  mret (Transaction_new (inputs_of coins) outputs).

Definition create_transfer (address : Address) (value fee : Z) (memo : option bytes) : walletM Transaction :=
  create_transfer_to [{| out_address := address; out_content := CBitcoin value; out_memo := default [] memo |}] fee.

(** The destinations are the entries of a [BTreeMap]. *)
Definition create_transfer_many (dests : gmap Address Z) (fee : Z) : walletM Transaction :=
  if bool_decide (dests = ∅) then reading (fun _ => Err NoTransferDestination) else
  create_transfer_to (map (fun e => Output_new e.1 (CBitcoin e.2)) (db_iter bytes_cmp dests)) fee.

(** A transaction whose only output is the change. *)
Definition fee_transaction (fee : Z) (data : TransactionData) : walletM Transaction :=
  '(total, coins) ← reading (fun w => select_bitcoins w fee);
  change ← reading (fun _ => amount_sub total fee);
  outputs ← push_bitcoin_change [] change;
  mret (with_data (Transaction_new (inputs_of coins) outputs) data).

Definition wallet_claim_decision (payload : ClaimDecisionPayload) (fee : Z) : walletM Transaction :=
  fee_transaction fee (ClaimDecision payload).

Definition wallet_submit_ballot (votes : list BallotItem) (voting_period fee : Z) : walletM Transaction :=
  voter ← voter_address;
  fee_transaction fee (SubmitBallot voter votes voting_period).

Definition wallet_transfer_reputation (dest : Address) (amount : f64) (fee : Z) (memo : option bytes)
  : walletM Transaction :=
  voter ← voter_address;
  '(total, coins) ← reading (fun w => select_bitcoins_from_address w fee voter);
  change ← reading (fun _ => amount_sub total fee);
  let outputs := if 0 <? change then [Output_new voter (CBitcoin change)] else [] in
  mret {| tx_inputs := inputs_of coins; tx_outputs := outputs; tx_memo := default [] memo;
          tx_data := Some (TransferReputation voter dest amount) |}.

(** *** Markets *)

Record CreateMarketInput : Type := {
  ci_title : string;
  ci_description : string;
  ci_dimensions : string;
  ci_beta : option f64;
  ci_trading_fee : option f64;
  ci_initial_liquidity : option Z;
  ci_category_option_counts : option (list Z);
  ci_tx_pow_hash_selector : option Z;
  ci_tx_pow_ordering : option Z;
  ci_tx_pow_difficulty : option Z;
  ci_new_claims : list ClaimDecisionPayload
}.

Context {BH : BodyHashes} {BE : BlockEnv} {PH : PowHashes}.

(** The fold over the dimensions; the accumulator is the product and the number
    of categorical dimensions seen. *)
Definition count_outcomes (counts : option (list Z)) (specs : list DimensionSpec) : Z :=
  (foldl (fun acc spec =>
     match spec with
     | Single _ => (as_u64 (acc.1 * 2), acc.2)
     | Categorical _ =>
         let n := default 2 (c ← counts; c !! acc.2) in
         (as_u64 (acc.1 * n), S acc.2)
     end) (1, 0%nat) specs).1.

Definition market_liquidity (beta : f64) (num_outcomes : Z) : result WalletError Z :=
  map_err (fun _ => WalletAmountOverflow)
    (to_sats (Trading.calculate_lmsr_liquidity f64_ln beta num_outcomes) Up).

Definition market_treasury (beta : option f64) (liquidity : option Z) (num_outcomes : Z) : result WalletError Z :=
  match beta, liquidity with
  | Some _, Some _ => Err (WalletInvalidDecisionId "Specify either beta or initial_liquidity, not both")
  | Some b, None => market_liquidity b num_outcomes
  | None, Some liq => Ok liq
  | None, None => market_liquidity Trading.DEFAULT_MARKET_BETA num_outcomes
  end.

Definition parse_input_dimensions (text : string) : result WalletError (list DimensionSpec) :=
  match parse_dimensions wallet_hex_decode text with
  | None => Err (WalletPanicked "dimension parser")
  | Some r => map_err (fun _ => WalletInvalidDecisionId "Failed to parse dimension specification") r
  end.

Definition create_market (input : CreateMarketInput) (fee : Z) : walletM (Transaction * MarketId) :=
  specs ← reading (fun _ => parse_input_dimensions (ci_dimensions input));
  let num_outcomes := count_outcomes (ci_category_option_counts input) specs in
  treasury ← reading (fun _ => market_treasury (ci_beta input) (ci_initial_liquidity input) num_outcomes);
  cost ← reading (fun _ =>
    cost ← amount_add fee (OutcomeSpace.market_storage_fee num_outcomes);
    if 0 <? treasury then amount_add cost treasury else Ok cost);
  '(total, coins) ← reading (fun w => select_bitcoins w cost);
  change ← reading (fun _ => amount_sub total cost);
  let inputs := inputs_of coins in
  creator ← reading (fun _ => ok_or (o ← head inputs; out_address <$> coins !! o) NotEnoughFunds);
  let id := compute_market_id (ci_title input) (ci_description input) creator specs in
  let outputs := if 0 <? treasury
    then [Output_new (generate_market_treasury_address id) (CMarketFunds id treasury false)] else [] in
  outputs ← push_bitcoin_change outputs change;
  mret (with_data (Transaction_new inputs outputs)
          (CreateMarket (ci_title input) (ci_description input) specs (ci_new_claims input)
             (ci_trading_fee input) (ci_tx_pow_hash_selector input) (ci_tx_pow_ordering input)
             (ci_tx_pow_difficulty input)), id).

(** The nonce of a trade; [fuel] bounds the nonces tried, of which the source
    tries all. *)
Definition trade_nonce (fuel : nat) (config : option TxPowConfig) (pow_data : bytes) : result WalletError (option Z) :=
  match config with
  | Some config =>
      if is_enabled config
      then nonce ← ok_or (mine fuel config pow_data) (WalletPanicked "TX-PoW mine"); Ok (Some nonce)
      else Ok None
  | None => Ok None
  end.

Definition wallet_trade (fuel : nat) (market_id : MarketId) (outcome_index shares : Z) (trader : Address)
  (limit_sats : Z) (config : option TxPowConfig) (prev_block_hash : bytes) : walletM Transaction :=
  '(_, coins) ← reading (fun w => select_bitcoins w
                           (if 0 <? shares then limit_sats else Trading.TRADE_MINER_FEE_SATS));
  let inputs := sorted_outpoints coins in
  nonce ← reading (fun _ => trade_nonce fuel config
                     (serialize_trade_for_pow market_id (as_u32 outcome_index) shares trader limit_sats prev_block_hash));
  mret (with_data (Transaction_new inputs [])
          (Trade market_id (as_u32 outcome_index) shares trader limit_sats nonce prev_block_hash)).

Definition wallet_amplify_beta (market_id : MarketId) (amount : Z) (market_author : Address) : walletM Transaction :=
  _ ← reading (fun _ => bail_if (amount =? 0) (WalletInvalidDecisionId "AmplifyBeta amount must be positive"));
  needed ← reading (fun _ => ok_or (checked_add_u64 amount Trading.TRADE_MINER_FEE_SATS) WalletAmountOverflow);
  '(_, coins) ← reading (fun w => select_bitcoins w needed);
  _ ← reading (fun _ => bail_if (negb (existsb (fun e => bool_decide (out_address e.2 = market_author)) (map_to_list coins)))
                 NotEnoughFunds);
  mret (with_data (Transaction_new (sorted_outpoints coins) []) (AmplifyBeta market_id amount market_author)).

(** ** Keeping the coins up to date *)

Definition spend_utxo w (e : OutPoint * InPoint) : Wallet :=
  let '(outpoint, inpoint) := e in
  match w_utxos w !! outpoint with
  | Some output =>
      set_w_coins w (delete outpoint (w_utxos w)) (w_unconfirmed_utxos w)
        (<[outpoint := {| so_output := output; so_inpoint := inpoint |}]> (w_stxos w))
        (w_spent_unconfirmed_utxos w)
  | None =>
      match w_unconfirmed_utxos w !! outpoint with
      | Some output =>
          set_w_coins w (w_utxos w) (delete outpoint (w_unconfirmed_utxos w)) (w_stxos w)
            (<[outpoint := (output, inpoint)]> (w_spent_unconfirmed_utxos w))
      | None => w
      end
  end.
Definition spend_utxos (spent : list (OutPoint * InPoint)) : walletM unit := fun w => (Ok tt, foldl spend_utxo w spent).

(** The entries of the map given are put one by one. *)
Definition put_unconfirmed_utxos (m : gmap OutPoint Output) : walletM unit := fun w =>
  (Ok tt, set_w_coins w (w_utxos w) (m ∪ w_unconfirmed_utxos w) (w_stxos w) (w_spent_unconfirmed_utxos w)).
Definition put_utxos (m : gmap OutPoint FilledOutput) : walletM unit := fun w =>
  (Ok tt, set_w_coins w (m ∪ w_utxos w) (w_unconfirmed_utxos w) (w_stxos w) (w_spent_unconfirmed_utxos w)).

Record Balance : Type := { bal_total : Z; bal_available : Z }.

Definition add_balance (b : Balance) (o : FilledOutput) : result WalletError Balance :=
  let value := get_bitcoin_value o in
  total ← amount_add (bal_total b) value;
  available ← (if is_withdrawal o then Ok (bal_available b) else amount_add (bal_available b) value);
  Ok {| bal_total := total; bal_available := available |}.

Definition get_bitcoin_balance w : result WalletError Balance :=
  try_fold add_balance {| bal_total := 0; bal_available := 0 |} (map snd (map_to_list (w_utxos w))).

Definition get_addresses w : gset Address := list_to_set (map snd (map_to_list (w_index_to_address w))).

Definition try_get_last_address w : option Address := snd <$> last_entry (w_index_to_address w).
Definition get_or_generate_last_address : walletM Address := fun w =>
  match try_get_last_address w with Some a => (Ok a, w) | None => get_new_address w end.
Definition get_num_addresses w : Z := as_u32 (Z.of_nat (size (w_index_to_address w))).

(** ** Signing *)

Definition authorization_of (sk sig : bytes) : Authorization :=
  {| verifying_key := vk_of_sk sk; signature := sig |}.

(** One input; the accumulator is the next draw, the authorizations and the
    addresses of the coins spent. *)
Definition wallet_authorize_input w (tx : Transaction) (acc : nat * list Authorization * list Address)
  (input : OutPoint) : result WalletError (nat * list Authorization * list Address) :=
  let '(draw, auths, addresses) := acc in
  coin ← ok_or (w_utxos w !! input) WalletNoUtxo;
  let address := out_address (output_of_filled coin) in
  index ← ok_or (w_address_to_index w !! address) (NoIndex address);
  sk ← get_tx_signing_key w index;
  Ok (S draw, auths ++ [authorization_of sk (sign_tx draw sk tx)], addresses ++ [address]).

(** The address that has to sign for itself, if it owns no input. *)
Definition actor_of (tx : Transaction) (input_addresses : list Address) : option Address :=
  let unless_input a := if bool_decide (a ∈ input_addresses) then None else Some a in
  match tx_data tx with
  | Some (Trade _ _ shares trader _ _ _) => if shares <? 0 then unless_input trader else None
  | Some (TransferReputation sender _ _) => unless_input sender
  | Some (SubmitVote voter _ _ _) | Some (SubmitBallot voter _ _) => unless_input voter
  | _ => None
  end.

Definition build_actor_proof w (draw : nat) (tx : Transaction) (input_addresses : list Address)
  : result WalletError (option Authorization) :=
  match actor_of tx input_addresses with
  | Some a => sk ← get_tx_signing_key_for_addr w a; Ok (Some (authorization_of sk (sign_tx draw sk tx)))
  | None => Ok None
  end.

Definition wallet_authorize w (draw : nat) (tx : Transaction) : result WalletError AuthorizedTransaction :=
  '(draw, auths, addresses) ← try_fold (wallet_authorize_input w tx) (draw, [], []) (tx_inputs tx);
  proof ← build_actor_proof w draw tx addresses;
  Ok {| at_transaction := tx; at_authorizations := auths; at_actor_proof := proof |}.

Definition sign_arbitrary_msg w (draw : nat) (vk msg : bytes) : result WalletError bytes :=
  sk ← get_message_signing_key_for_vk w vk;
  Ok (sign draw sk DstArbitrary msg).

Definition sign_arbitrary_msg_as_addr w (draw : nat) (address : Address) (msg : bytes) : result WalletError Authorization :=
  sk ← get_tx_signing_key_for_addr w address;
  Ok (authorization_of sk (sign draw sk DstArbitrary msg)).

End Wallet.
