(* ===== verification/WalletFacts.v ===== *)
(** * Facts about the wallet

    The coins selected suffice and are as few as possible; a transfer the wallet
    builds and signs is accepted by validation with the fee asked for; the key
    tables stay derived from the seed, so that no key look-up panics. *)

From stdpp Require Import base numbers list strings gmap relations sorting.
From S2P Require Import Prelude Float64 SafeMath MarketMath StateErrors DecisionTypes Markets Transactions.
From S2P Require Import TransactionsFacts TwoWayPeg Bodies TxPow Authorization StateModel Validation BlockUpdate.
From S2P Require Import Archive Dimensions Wallet.

(** ** Sums of sorted lists *)

Lemma sorted_of_lookup {A} (R : A → A → Prop) (l : list A) :
  (∀ i j a b, l !! i = Some a → l !! j = Some b → (i ≤ j)%nat → R a b) → StronglySorted R l.
Proof.
  induction l as [|x l IH]; intros H; constructor.
  - apply IH. intros i j a b Hi Hj Hij. by apply (H (S i) (S j)); try lia.
  - apply Forall_forall. intros y [j Hj]%list_elem_of_lookup. by apply (H 0%nat (S j)); try lia.
Qed.

Lemma sumZ_take_shift x l n :
  0 ≤ x → Forall (fun y => y ≤ x) l → sumZ (take (S n) l) ≤ x + sumZ (take n l).
Proof.
  intros Hx Hl. revert n. induction Hl as [|y l Hy Hl IH]; intros n; [rewrite !take_nil; simpl; lia|].
  destruct n as [|n]; unfold sumZ in *; [simpl; lia|].
  specialize (IH n). cbn [take foldr] in *. lia.
Qed.

Lemma sumZ_take_le l n m :
  Forall (fun z => 0 ≤ z) l → (n ≤ m)%nat → sumZ (take n l) ≤ sumZ (take m l).
Proof.
  intros Hl. revert n m. unfold sumZ. induction Hl as [|z l Hz Hl IH]; intros n m Hnm; [by rewrite !take_nil|].
  destruct n as [|n], m as [|m]; cbn [take foldr]; [lia| |lia|].
  - apply Z.add_nonneg_nonneg; [done|]. by apply sumZ_nonneg, Forall_take.
  - specialize (IH n m ltac:(lia)). lia.
Qed.

(** No [n] elements of a decreasing list sum to more than its first [n]. *)
Lemma sumZ_take_largest l k :
  StronglySorted (fun a b => b ≤ a) l → Forall (fun z => 0 ≤ z) l → k ⊆+ l →
  sumZ k ≤ sumZ (take (length k) l).
Proof.
  intros Hs Hn. revert k. induction Hs as [|x l Hs IH Hx]; intros k.
  - intros ->%submseteq_nil_r. simpl. lia.
  - apply Forall_cons in Hn as [Hx0 Hn]. specialize (IH Hn).
    intros [Hk|(k' & Hk & Hk')]%submseteq_cons_r.
    + specialize (IH k Hk). destruct k as [|z k]; [simpl; lia|].
      cbn [length take foldr sumZ] in *. pose proof (sumZ_take_shift x l (length k) Hx0 Hx).
      unfold sumZ in *. simpl in *. lia.
    + rewrite Hk. cbn [length take]. specialize (IH k' Hk'). unfold sumZ in *. simpl. lia.
Qed.

(** ** Coin selection *)

Section Selection.
Context {AM : BitcoinAmount}.

Definition coin_value (e : OutPoint * Output) : Z := output_bitcoin_value e.2.
Definition coin_total (m : gmap OutPoint Output) : Z := sumZ (map coin_value (map_to_list m)).

Lemma fresh_after_insert (selected : gmap OutPoint Output) o c (coins : list (OutPoint * Output)) :
  o ∉ map fst coins → Forall (fun e => selected !! e.1 = None) coins →
  Forall (fun e => <[o := c]> selected !! e.1 = None) coins.
Proof.
  intros Ho Hsel. apply Forall_forall. intros e He.
  rewrite lookup_insert_ne; [by apply (proj1 (Forall_forall _ _) Hsel)|].
  intros ->. apply Ho. apply list_elem_of_In, in_map, list_elem_of_In, He.
Qed.

Lemma select_loop_spec value total selected coins :
  NoDup (map fst coins) → Forall (fun e => selected !! e.1 = None) coins →
  Forall (fun e => 0 ≤ coin_value e) coins → total + sumZ (map coin_value coins) ≤ AMOUNT_MAX →
  match select_loop value total selected coins with
  | Ok (t, s) => ∃ k, (k < length coins)%nat ∧ s = list_to_map (take (S k) coins) ∪ selected ∧
      t = total + sumZ (map coin_value (take (S k) coins)) ∧ value ≤ t ∧
      (k = 0%nat ∨ total + sumZ (map coin_value (take k coins)) < value)
  | Err e => e = NotEnoughFunds ∧ (coins = [] ∨ total + sumZ (map coin_value coins) < value)
  end.
Proof.
  revert total selected. induction coins as [|[o c] coins IH]; intros total selected Hnd Hsel Hpos Hmax; [by simpl; auto|].
  cbn [map fst] in Hnd. apply NoDup_cons in Hnd as [Ho Hnd]. apply Forall_cons in Hsel as [Hos Hsel].
  apply Forall_cons in Hpos as [Hc Hpos]. cbn [map sumZ foldr] in Hmax. fold (sumZ (map coin_value coins)) in Hmax.
  assert (0 ≤ sumZ (map coin_value coins)) by (by apply sumZ_nonneg, Forall_map).
  cbn [select_loop]. unfold amount_checked_add. change (output_bitcoin_value c) with (coin_value (o, c)).
  destruct (Z.ltb_spec AMOUNT_MAX (total + coin_value (o, c))) as [?|Hle]; [lia|].
  cbn [coin_value snd] in *. destruct (Z.leb_spec value (total + coin_value (o, c))) as [Hv|Hv].
  - exists 0%nat. cbn [take length]. split_and!; [simpl; lia| | |done|by left].
    + by rewrite (insert_union_singleton_l selected o c).
    + unfold sumZ, coin_value. simpl. lia.
  - specialize (IH (total + coin_value (o, c)) (<[o := c]> selected)).
    destruct (select_loop _ _ _ coins) as [[t s]|e].
    + destruct IH as (k & Hk & -> & -> & Ht & Hlt); [done| |done|lia|].
      { by apply fresh_after_insert. }
      exists (S k). split_and!.
      * simpl. lia.
      * change (take (S (S k)) ((o, c) :: coins)) with ((o, c) :: take (S k) coins).
        rewrite list_to_map_cons. simpl. rewrite <- insert_union_l, insert_union_r; [done|].
        apply not_elem_of_list_to_map_1. intros Hin. apply Ho.
        apply list_elem_of_fmap in Hin as (e & -> & He). apply list_elem_of_In, in_map, list_elem_of_In.
        by eapply elem_of_take in He as (i & Hi & _); eapply list_elem_of_lookup_2.
      * cbn [take map]. unfold sumZ. simpl. lia.
      * lia.
      * right. destruct Hlt as [->|Hlt]; [unfold sumZ; simpl; lia|].
        cbn [take map]. unfold sumZ in *. simpl in *. lia.
    + destruct IH as [-> Hs]; [done| |done|lia|].
      { by apply fresh_after_insert. }
      split; [done|]. right. unfold sumZ in *. simpl. destruct Hs as [->|Hs]; simpl in *; lia.
Qed.

Context {WE : WalletEnv}.

(** The coins a wallet can pay with. *)
Definition kept_coins (w : Wallet) (keep : FilledOutput → bool) : gmap OutPoint Output :=
  output_of_filled <$> filter (fun e => keep e.2 = true) (w_utxos w).
Definition spendable_coins (w : Wallet) : gmap OutPoint Output := kept_coins w spendable_coin.

Lemma coins_of_perm w keep : coins_of w keep ≡ₚ map_to_list (kept_coins w keep).
Proof.
  unfold coins_of, kept_coins. rewrite map_to_list_fmap, map_filter_alt.
  rewrite map_to_list_to_map; [done|].
  eapply sublist_NoDup; [|apply fmap_sublist, sublist_filter]. apply NoDup_fst_map_to_list.
Qed.

Lemma coin_total_nonneg w keep m :
  (∀ f, keep f = true → 0 ≤ get_bitcoin_value f) → m ⊆ kept_coins w keep →
  Forall (fun e => 0 ≤ coin_value e) (map_to_list m).
Proof.
  intros Hk Hm. apply Forall_forall. intros [o c] Hc%elem_of_map_to_list.
  pose proof (lookup_weaken _ _ _ _ Hc Hm) as H. unfold kept_coins in H. rewrite lookup_fmap in H.
  destruct (filter _ _ !! o) as [f|] eqn:Ef; simplify_eq/=.
  apply map_lookup_filter_Some in Ef as [_ Hf]. apply (Hk f), Hf.
Qed.

Lemma coin_total_subset w keep m :
  (∀ f, keep f = true → 0 ≤ get_bitcoin_value f) → m ⊆ kept_coins w keep →
  coin_total m ≤ coin_total (kept_coins w keep).
Proof.
  intros Hk Hm. pose proof (coin_total_nonneg w keep _ Hk (reflexivity (kept_coins w keep))) as Hnn.
  pose proof (map_to_list_submseteq _ _ Hm) as [r Hr]%submseteq_Permutation. unfold coin_total. rewrite Hr in Hnn |- *.
  rewrite map_app, sumZ_app. apply Forall_app in Hnn as [_ Hnn].
  pose proof (sumZ_nonneg (map coin_value r) ltac:(by apply Forall_map)). lia.
Qed.

(** Any [n] coins hold at most what the [n] first in decreasing order hold. *)
Lemma coin_total_largest w keep m :
  (∀ f, keep f = true → 0 ≤ get_bitcoin_value f) → m ⊆ kept_coins w keep →
  coin_total m ≤ sumZ (map coin_value (take (size m) (coin_sort (coins_of w keep)))).
Proof.
  intros Hk Hm. unfold coin_total. rewrite <- length_map_to_list, <- (length_map coin_value (map_to_list m)).
  rewrite <- firstn_map. apply sumZ_take_largest.
  - apply sorted_of_lookup. intros i j a b Hi Hj Hij.
    apply list_lookup_fmap_Some in Hi as (ea & -> & Hi). apply list_lookup_fmap_Some in Hj as (eb & -> & Hj).
    by eapply coin_sort_sorted.
  - rewrite coin_sort_perm, coins_of_perm. apply Forall_map. by eapply coin_total_nonneg.
  - rewrite coin_sort_perm, coins_of_perm. apply fmap_submseteq. by apply map_to_list_submseteq.
Qed.

Definition selection_ok (coins : gmap OutPoint Output) (value : Z)
  (r : result WalletError (Z * gmap OutPoint Output)) : Prop :=
  match r with
  | Ok (total, selected) =>
      selected ⊆ coins ∧ total = coin_total selected ∧ value ≤ total ∧
      ∀ m, m ⊆ coins → value ≤ coin_total m → (size selected ≤ size m)%nat
  | Err e => e = NotEnoughFunds ∧ coin_total coins < value
  end.

Lemma select_kept_spec w keep value :
  (∀ f, keep f = true → 0 ≤ get_bitcoin_value f) → coin_total (kept_coins w keep) ≤ AMOUNT_MAX → 0 < value →
  selection_ok (kept_coins w keep) value (select_loop value 0 ∅ (coin_sort (coins_of w keep))).
Proof.
  intros Hk Hmax Hv. set (l := coin_sort (coins_of w keep)).
  assert (l ≡ₚ map_to_list (kept_coins w keep)) as Hl by (unfold l; by rewrite coin_sort_perm, coins_of_perm).
  assert (NoDup (l.*1)) as Hnd by (rewrite Hl; apply NoDup_fst_map_to_list).
  assert (coin_total (kept_coins w keep) = sumZ (map coin_value l)) as Ht by (unfold coin_total; by rewrite Hl).
  pose proof (select_loop_spec value 0 ∅ l Hnd) as H. rewrite Ht in Hmax.
  specialize (H ltac:(apply Forall_forall; intros; apply lookup_empty)).
  specialize (H ltac:(rewrite Hl; by eapply coin_total_nonneg) Hmax).
  unfold selection_ok. destruct (select_loop _ _ _ l) as [[t s]|e].
  - destruct H as (k & Hklen & -> & -> & Hge & Hlt). rewrite (right_id_L ∅ (∪)).
    assert (map_to_list (list_to_map (M := gmap OutPoint Output) (take (S k) l)) ≡ₚ take (S k) l) as Hp.
    { apply map_to_list_to_map. eapply sublist_NoDup; [exact Hnd|]. apply fmap_sublist, sublist_take. }
    split_and!.
    + apply map_subseteq_spec. intros o c Hc%elem_of_map_to_list. rewrite Hp in Hc.
      apply elem_of_map_to_list. rewrite <- Hl. by eapply elem_of_take in Hc as (i & Hi & _); eapply list_elem_of_lookup_2.
    + unfold coin_total. by rewrite Hp.
    + lia.
    + intros m Hm Hcov. pose proof (coin_total_largest w keep m Hk Hm) as Hb. fold l in Hb.
      rewrite <- length_map_to_list, Hp, length_take.
      destruct (decide (size m ≤ k)%nat) as [Hsm|]; [exfalso|lia].
      assert (sumZ (map coin_value (take (size m) l)) ≤ sumZ (map coin_value (take k l))).
      { rewrite <- !firstn_map. apply sumZ_take_le; [|done]. apply Forall_map. rewrite Hl.
        by eapply coin_total_nonneg. }
      destruct Hlt as [->|Hlt]; simpl in *; lia.
  - destruct H as [-> [Hn|Hlt]]; (split; [done|]); rewrite Ht; [rewrite Hn; simpl; lia|lia].
Qed.

Lemma spendable_value f : spendable_coin f = true → 0 ≤ get_bitcoin_value f.
Proof. unfold spendable_coin. rewrite !andb_true_iff, Z.ltb_lt. lia. Qed.

(** Coin selection.  The coins selected for a payment are confirmed coins of
    the wallet that can be spent, hold the total reported and cover the payment,
    and no smaller number of its coins would; selection fails only when all
    coins together do not suffice. *)
Theorem select_bitcoins_spec w value :
  coin_total (spendable_coins w) ≤ AMOUNT_MAX → 0 < value →
  selection_ok (spendable_coins w) value (select_bitcoins w value).
Proof. intros. apply select_kept_spec; [exact spendable_value|done|done]. Qed.

End Selection.

(** ** Signing *)

Section Signing.
Context {AM : BitcoinAmount} {BH : BodyHashes} {PH : PowHashes} {VE : ValidationEnv} {WE : WalletEnv}.

(** What the signature crate documents, as in [Authorization]. *)
Hypothesis batch_verify_all : ∀ seed l, l ≠ [] →
  batch_verify seed l = forallb (fun e => sig_verify e.1.1 e.2 e.1.2) l.
Hypothesis batch_item_valid : ∀ vk sig msg, sig_verify vk msg sig = true → batch_item_new vk sig msg = true.
Hypothesis sign_valid : ∀ draw sk msg, sig_verify (vk_of_sk sk) msg (sig_sign draw sk msg) = true.

(** Every address in the table is that of the key derived at its index. *)
Definition address_keys_ok (w : Wallet) : Prop :=
  ∀ a i, w_address_to_index w !! a = Some i →
    ∃ sk, get_tx_signing_key w i = Ok sk ∧ a = get_address (vk_of_sk sk).

Definition owned (w : Wallet) (a : Address) : Prop := is_Some (w_address_to_index w !! a).
Definition coins_owned (w : Wallet) : Prop := ∀ o f, w_utxos w !! o = Some f → owned w (out_address f).

Lemma signing_key_for_owned w a : address_keys_ok w → owned w a →
  ∃ sk, get_tx_signing_key_for_addr w a = Ok sk ∧ auth_address (authorization_of sk []) = a.
Proof.
  intros Hk [i Hi]. destruct (Hk a i Hi) as (sk & Hsk & ->). exists sk. split; [|done].
  unfold get_tx_signing_key_for_addr. rewrite Hi. cbn [ok_or mbind result_bind]. rewrite Hsk. simpl.
  by rewrite bool_decide_true.
Qed.

Lemma wallet_authorize_inputs w tx inputs draw auths addresses :
  address_keys_ok w → coins_owned w → Forall (fun i => is_Some (w_utxos w !! i)) inputs →
  ∃ draw' new spent,
    try_fold (wallet_authorize_input w tx) (draw, auths, addresses) inputs
      = Ok (draw', auths ++ new, addresses ++ map out_address spent) ∧
    Forall2 (fun i f => w_utxos w !! i = Some f) inputs spent ∧
    map auth_address new = map out_address spent ∧
    forallb pair_valid (map (fun a => (a, tx_msg_canonical tx)) new) = true.
Proof.
  intros Hk Hc Hin. revert draw auths addresses. induction Hin as [|i inputs [f Hf] _ IH]; intros draw auths addresses.
  - exists draw, [], []. simpl. by rewrite !app_nil_r.
  - destruct (Hc i f Hf) as [j Hj]. destruct (Hk _ j Hj) as (sk & Hsk & Ha).
    destruct (IH (S draw) (auths ++ [authorization_of sk (sign_tx draw sk tx)]) (addresses ++ [out_address f]))
      as (draw' & new & spent & Heq & Hsp & Hm & Hv).
    exists draw', (authorization_of sk (sign_tx draw sk tx) :: new), (f :: spent).
    split_and!.
    + cbn [try_fold]. unfold wallet_authorize_input at 1. rewrite Hf. cbn [ok_or mbind result_bind output_of_filled out_address].
      rewrite Hj. cbn [ok_or mbind result_bind]. rewrite Hsk. cbn [mbind result_bind].
      rewrite Heq, <- !app_assoc. done.
    + by constructor.
    + simpl. by rewrite Hm, Ha.
    + simpl. rewrite Hv. unfold pair_valid, sign_tx, sign. simpl. by rewrite sign_valid.
Qed.

Lemma wallet_authorize_spec w draw tx :
  address_keys_ok w → coins_owned w → Forall (fun i => is_Some (w_utxos w !! i)) (tx_inputs tx) →
  (∀ a, actor_of tx [] = Some a → owned w a) →
  ∃ t spent, wallet_authorize w draw tx = Ok t ∧ at_transaction t = tx ∧
    Forall2 (fun i f => w_utxos w !! i = Some f) (tx_inputs tx) spent ∧
    map auth_address (at_authorizations t) = map out_address spent ∧
    verify_transaction_auth mac_key t = Ok tt ∧
    (auth_address <$> at_actor_proof t) = actor_of tx (map out_address spent).
Proof.
  intros Hk Hc Hin Ha. unfold wallet_authorize.
  destruct (wallet_authorize_inputs w tx (tx_inputs tx) draw [] [] Hk Hc Hin) as (d & new & spent & -> & Hsp & Hm & Hv).
  cbn [mbind result_bind app]. unfold build_actor_proof.
  assert (length new = length (tx_inputs tx)) as Hlen.
  { apply (f_equal length) in Hm. rewrite !length_map in Hm. apply Forall2_length in Hsp. lia. }
  assert (∀ proof, (∀ p, proof = Some p → sig_verify (verifying_key p) (tx_msg_canonical tx) (signature p) = true) →
    verify_transaction_auth mac_key {| at_transaction := tx; at_authorizations := new; at_actor_proof := proof |} = Ok tt)
    as Hver.
  { intros proof Hp. unfold verify_transaction_auth.
    rewrite (proj2 (verify_authorized_spec batch_verify_all batch_item_valid mac_key _)); [|split; [exact Hlen|exact Hv]].
    simpl. unfold verify_actor_proof. simpl. destruct proof as [p|]; [|done]. by rewrite (Hp p). }
  destruct (actor_of tx (map out_address spent)) as [a|] eqn:Eact.
  - destruct (signing_key_for_owned w a Hk) as (sk & -> & Hsk).
    { apply Ha. revert Eact. unfold actor_of. destruct (tx_data tx) as [[]|]; try done;
        repeat case_match; repeat case_bool_decide; try done; set_solver. }
    simpl. eexists _, spent. split_and!; [done|done|done|done| |rewrite Eact; simpl; by rewrite <- Hsk].
    apply Hver. intros p [= <-]. simpl. apply sign_valid.
  - simpl. eexists _, spent. split_and!; [done|done|done|done| |done]. by apply Hver.
Qed.

(** ** From the wallet to the state *)

(** The wallet's coins are unspent outputs of the state. *)
Definition synced (s : State) (w : Wallet) : Prop :=
  ∀ o f, w_utxos w !! o = Some f → utxos (s_utxos s) !! from_outpoint o = Some f.

Lemma checked_sum_small l : Forall (fun z => 0 ≤ z) l → sumZ l ≤ AMOUNT_MAX → amount_checked_sum l = Some (sumZ l).
Proof.
  intros Hl Hmax. unfold amount_checked_sum.
  enough (∀ a, a + sumZ l ≤ AMOUNT_MAX →
    foldl (fun acc v => b ← acc; amount_checked_add b v) (Some a) l = Some (a + sumZ l)) as H
    by (rewrite H; [done|lia]).
  clear Hmax. induction Hl as [|z l Hz Hl IH]; intros a Ha; cbn [foldl sumZ foldr] in *; [by rewrite Z.add_0_r|].
  fold (sumZ l) in *. pose proof (sumZ_nonneg l Hl). simpl. unfold amount_checked_add at 2.
  destruct (Z.ltb_spec AMOUNT_MAX (a + z)); [lia|]. rewrite IH by lia. f_equal. lia.
Qed.

Lemma fill_synced s w tx spent :
  synced s w → Forall2 (fun i f => w_utxos w !! i = Some f) (tx_inputs tx) spent →
  fill_transaction (s_utxos s) tx = Ok {| transaction := tx; spent_utxos := spent; actor_address := None |}.
Proof.
  intros Hs H. unfold fill_transaction.
  enough (try_map (fun input => ok_or (utxos (s_utxos s) !! from_outpoint input) (NoUtxo input)) (tx_inputs tx) = Ok spent)
    as -> by done.
  induction H as [|i f l k Hi _ IH]; simpl; [done|]. rewrite (Hs i f Hi). simpl. by rewrite IH.
Qed.

Lemma spent_not_withdrawal w l spent :
  Forall2 (fun i f => w_utxos w !! i = Some f) l spent → Forall (fun i => is_Some (spendable_coins w !! i)) l →
  try_fold (fun _ e => bail_if (is_withdrawal e.2) (SpendWithdrawalOutput e.1)) tt (zip l spent) = Ok tt.
Proof.
  induction 1 as [|i f l k Hi _ IH]; intros Hsp; simpl; [done|]. apply Forall_cons in Hsp as [[c Hc] Hsp].
  unfold spendable_coins, kept_coins in Hc. rewrite lookup_fmap in Hc.
  destruct (filter _ _ !! i) as [g|] eqn:Eg; simplify_eq/=. apply map_lookup_filter_Some in Eg as [Hg Hs].
  rewrite Hi in Hg. simplify_eq/=. unfold spendable_coin in Hs. apply andb_true_iff in Hs as [[_ Hs]%andb_true_iff _].
  apply negb_true_iff in Hs. rewrite Hs. simpl. by apply IH.
Qed.

Lemma check_authorizations_match auths spent :
  map auth_address auths = map out_address spent → check_authorizations auths spent = Ok tt.
Proof.
  intros H. unfold check_authorizations.
  enough (forallb (fun e => bool_decide (auth_address e.1 = out_address e.2)) (zip auths spent) = true) as -> by done.
  revert spent H. induction auths as [|a auths IH]; intros [|f spent] H; simplify_eq/=; [done|].
  rewrite bool_decide_true by done. by apply IH.
Qed.

(** The values of the outputs spent are those of the coins selected. *)
Lemma spent_values w coins spent :
  coins ⊆ spendable_coins w →
  Forall2 (fun i f => w_utxos w !! i = Some f) (inputs_of coins) spent →
  sumZ (map get_bitcoin_value spent) = coin_total coins ∧ Forall (fun z => 0 ≤ z) (map get_bitcoin_value spent).
Proof.
  intros Hsub H.
  assert (Forall2 (fun e f => w_utxos w !! e.1 = Some f) (coin_iter coins) spent) as H2.
  { unfold inputs_of in H. by apply Forall2_fmap_l in H. }
  assert (map get_bitcoin_value spent = map coin_value (coin_iter coins)) as ->.
  { symmetry. assert (Forall (fun e => e ∈ map_to_list coins) (coin_iter coins)) as Hall.
    { rewrite coin_iter_perm. apply Forall_forall. done. }
    clear H. induction H2 as [|[o c] f l k Hf _ IH]; simpl in *; [done|]. apply Forall_cons in Hall as [Hc Hall].
    rewrite IH by done. f_equal. apply elem_of_map_to_list in Hc. pose proof (lookup_weaken _ _ _ _ Hc Hsub) as Hk.
    unfold spendable_coins, kept_coins in Hk. rewrite lookup_fmap in Hk.
    destruct (filter _ _ !! o) as [g|] eqn:Eg; simplify_eq/=. apply map_lookup_filter_Some in Eg as [Hg _].
    rewrite Hf in Hg. by simplify_eq/=. }
  rewrite coin_iter_perm. split; [done|]. apply Forall_map.
  by eapply (coin_total_nonneg w spendable_coin); [exact spendable_value|].
Qed.

(** A transaction that spends coins of the wallet and leaves a fee is signed by
    the wallet and accepted with that fee. *)
Lemma payment_accepted s a w w' draw coins tx fee :
  address_keys_ok w' → coins_owned w' → synced s w' → w_utxos w' = w_utxos w →
  coin_total (spendable_coins w) ≤ AMOUNT_MAX → coins ⊆ spendable_coins w →
  tx_inputs tx = inputs_of coins → tx_data tx = None →
  Forall (fun o => 0 ≤ output_bitcoin_value o) (tx_outputs tx) → 0 ≤ fee → coin_total coins ≤ AMOUNT_MAX →
  coin_total coins = sumZ (map output_bitcoin_value (tx_outputs tx)) + fee →
  ∃ t, wallet_authorize w' draw tx = Ok t ∧ at_transaction t = tx ∧ validate_transaction s a t = Ok fee.
Proof.
  intros Hk Hown Hsync Hu Hmax Hsub Hins Hdata Hout Hfee Hcmax Hsum.
  assert (Forall (fun i => is_Some (spendable_coins w !! i)) (tx_inputs tx)) as Hsp.
  { rewrite Hins. unfold inputs_of. apply Forall_map. rewrite coin_iter_perm. apply Forall_forall.
    intros [o c] Hc%elem_of_map_to_list. exists c. by eapply lookup_weaken. }
  destruct (wallet_authorize_spec w' draw tx Hk Hown) as (t & spent & Ht & Htx & H2 & Hm & Hv & Hact).
  { rewrite Hu. eapply Forall_impl; [exact Hsp|]. intros i [c Hc]. unfold spendable_coins, kept_coins in Hc.
    rewrite lookup_fmap in Hc. destruct (filter _ _ !! i) as [g|] eqn:Eg; simplify_eq/=.
    apply map_lookup_filter_Some in Eg as [-> _]. done. }
  { intros x. unfold actor_of. by rewrite Hdata. }
  exists t. split; [done|]. split; [done|]. unfold validate_transaction. rewrite Htx.
  rewrite (fill_synced s w' tx spent) by done. cbn [mbind result_bind with_actor spent_utxos].
  assert (length (at_authorizations t) = length spent) as ->.
  { apply (f_equal length) in Hm. by rewrite !length_map in Hm. }
  rewrite Nat.eqb_refl. cbn [negb bail_if mbind result_bind].
  rewrite check_authorizations_match by done. cbn [mbind result_bind]. rewrite Hv. cbn [map_err mbind result_bind].
  unfold validate_filled_transaction, spent_inputs. cbn [with_actor transaction spent_utxos].
  rewrite Hu in H2. rewrite (spent_not_withdrawal w) by done. rewrite Hins in H2.
  destruct (spent_values w coins spent Hsub H2) as [Hsv Hnn].
  unfold is_claim_decision, is_create_market, is_trade, is_amplify_beta, is_submit_vote, is_submit_ballot,
    is_transfer_reputation, data, bitcoin_fee, spent_bitcoin_value, bitcoin_value_out.
  cbn [with_actor transaction spent_utxos]. rewrite Hdata. cbn [mbind result_bind].
  pose proof (sumZ_nonneg (map output_bitcoin_value (tx_outputs tx)) ltac:(by apply Forall_map)).
  rewrite (checked_sum_small (map get_bitcoin_value spent)) by (done || lia).
  rewrite (checked_sum_small (map output_bitcoin_value (tx_outputs tx))) by (by apply Forall_map || lia).
  cbn [ok_or mbind result_bind]. rewrite Hsv.
  destruct (Z.ltb_spec (coin_total coins) (sumZ (map output_bitcoin_value (tx_outputs tx)))); [lia|].
  simpl. f_equal. lia.
Qed.

(** ** New addresses *)

(** The next address can be derived. *)
Definition can_derive (w : Wallet) : Prop :=
  ∃ sk, get_tx_signing_key w (next_index (w_index_to_address w)) = Ok sk.

(** What stays when an address is added. *)
Definition keeps_coins (w w' : Wallet) : Prop :=
  w_utxos w' = w_utxos w ∧ ∀ a, owned w a → owned w' a.

Lemma put_address_ok w i sk :
  address_keys_ok w → get_tx_signing_key w i = Ok sk →
  let w' := (put_address i (get_address (vk_of_sk sk)) w).2 in
  address_keys_ok w' ∧ keeps_coins w w' ∧ owned w' (get_address (vk_of_sk sk)).
Proof.
  intros Hk Hsk. simpl. split_and!.
  - intros a j. simpl. intros [[<- <-]|[_ Hj]]%lookup_insert_Some; [by exists sk|]. apply Hk, Hj.
  - split; [done|]. intros a [j Hj]. unfold owned. simpl. destruct (decide (get_address (vk_of_sk sk) = a)) as [<-|Hne].
    + by rewrite lookup_insert_eq.
    + rewrite lookup_insert_ne by done. by exists j.
  - unfold owned. simpl. by rewrite lookup_insert_eq.
Qed.

Lemma get_new_address_ok w :
  address_keys_ok w → can_derive w →
  ∃ a w', get_new_address w = (Ok a, w') ∧ address_keys_ok w' ∧ keeps_coins w w' ∧ owned w' a.
Proof.
  intros Hk [sk Hsk]. unfold get_new_address, mbind, walletM_bind, reading. rewrite Hsk.
  destruct (put_address_ok w (next_index (w_index_to_address w)) sk Hk Hsk) as (H1 & H2 & H3).
  eexists _, _. split; [reflexivity|]. done.
Qed.

Lemma push_change_ok w outputs change :
  address_keys_ok w → can_derive w → 0 ≤ change →
  ∃ new w', push_bitcoin_change outputs change w = (Ok (outputs ++ new), w') ∧ address_keys_ok w' ∧ keeps_coins w w' ∧
    Forall (fun o => 0 ≤ output_bitcoin_value o ∧ owned w' (out_address o)) new ∧
    sumZ (map output_bitcoin_value new) = change.
Proof.
  intros Hk Hd Hc. unfold push_bitcoin_change. destruct (Z.ltb_spec 0 change).
  - destruct (get_new_address_ok w Hk Hd) as (a & w' & Ha & Hk' & Hkeep & Hown).
    exists [Output_new a (CBitcoin change)], w'. unfold mbind, walletM_bind. rewrite Ha.
    split_and!; [done|done|done| |unfold sumZ, output_bitcoin_value; simpl; lia]. constructor; [|done].
    split; [unfold output_bitcoin_value; simpl; lia|done].
  - exists [], w. rewrite app_nil_r. split_and!; try done. simpl. lia.
Qed.

Lemma coins_owned_keeps w w' : keeps_coins w w' → coins_owned w → coins_owned w'.
Proof. intros [Hu Ho] Hc o f Hf. rewrite Hu in Hf. by eapply Ho, Hc. Qed.

Lemma synced_keeps s w w' : keeps_coins w w' → synced s w → synced s w'.
Proof. intros [Hu _] Hs o f Hf. rewrite Hu in Hf. by apply Hs. Qed.

(** A wallet that follows a state and can pay. *)
Definition wallet_follows (s : State) (w : Wallet) : Prop :=
  address_keys_ok w ∧ coins_owned w ∧ synced s w ∧ can_derive w ∧ coin_total (spendable_coins w) ≤ AMOUNT_MAX.

(** C11: a transfer the wallet makes is accepted.  A wallet whose coins are unspent
    outputs of the state either reports that it has not enough coins, unchanged,
    or builds a transaction with the outputs asked for and change to addresses
    of its own, signs it, and validation accepts it with exactly the fee
    asked for. *)
Theorem transfer_accepted s a w draw outputs fee :
  wallet_follows s w → Forall (fun o => 0 ≤ output_bitcoin_value o) outputs → 0 ≤ fee →
  let needed := sumZ (map output_bitcoin_value outputs) + fee in
  0 < needed ≤ AMOUNT_MAX →
  if coin_total (spendable_coins w) <? needed
  then create_transfer_to outputs fee w = (Err NotEnoughFunds, w)
  else ∃ tx w' t change, create_transfer_to outputs fee w = (Ok tx, w') ∧
    tx_outputs tx = outputs ++ change ∧ Forall (fun o => owned w' (out_address o)) change ∧
    wallet_authorize w' draw tx = Ok t ∧ at_transaction t = tx ∧ validate_transaction s a t = Ok fee.
Proof.
  intros (Hk & Hown & Hsync & Hd & Hmax) Hout Hfee needed [Hpos Hneed].
  pose proof (sumZ_nonneg (map output_bitcoin_value outputs) ltac:(by apply Forall_map)) as Hnn.
  unfold create_transfer_to, mbind, walletM_bind, reading.
  rewrite (checked_sum_small (map output_bitcoin_value outputs)) by (by apply Forall_map || lia).
  simpl. unfold amount_add, amount_checked_add.
  destruct (Z.ltb_spec AMOUNT_MAX (sumZ (map output_bitcoin_value outputs) + fee)); [lia|]. simpl. fold needed.
  pose proof (select_kept_spec w spendable_coin needed spendable_value Hmax Hpos) as Hsel.
  unfold select_bitcoins, selection_ok in *. destruct (select_loop _ _ _ _) as [[total coins]|e].
  - destruct Hsel as (Hsub & -> & Hge & _).
    assert (coin_total coins ≤ coin_total (spendable_coins w)) as Hle
      by (by apply (coin_total_subset w spendable_coin); [exact spendable_value|]).
    destruct (Z.ltb_spec (coin_total (spendable_coins w)) needed); [lia|].
    unfold amount_sub, checked_sub.
    destruct (Z.leb_spec (sumZ (map output_bitcoin_value outputs)) (coin_total coins)); [|lia]. simpl.
    destruct (Z.leb_spec fee (coin_total coins - sumZ (map output_bitcoin_value outputs))); [|lia]. simpl.
    destruct (push_change_ok w outputs (coin_total coins - sumZ (map output_bitcoin_value outputs) - fee) Hk Hd)
      as (new & w' & -> & Hk' & Hkeep & Hnew & Hsum); [lia|].
    destruct (payment_accepted s a w w' draw coins (Transaction_new (inputs_of coins) (outputs ++ new)) fee)
      as (t & Ht & Htx & Hv); try done.
    + by eapply coins_owned_keeps.
    + by eapply synced_keeps.
    + apply Hkeep.
    + simpl. apply Forall_app. split; [done|]. by eapply Forall_impl; [exact Hnew|]; intros ? [].
    + lia.
    + simpl. rewrite map_app, sumZ_app. lia.
    + eexists _, w', t, new. split_and!; [reflexivity|done| |done|done|done].
      by eapply Forall_impl; [exact Hnew|]; intros ? [].
  - destruct Hsel as [-> Hlt]. destruct (Z.ltb_spec (coin_total (spendable_coins w)) needed); [done|].
    unfold spendable_coins in *. lia.
Qed.

End Signing.

(** ** The key tables *)

Create HintDb wallet.

Section Keys.
Context {AM : BitcoinAmount} {BH : BodyHashes} {PH : PowHashes} {VE : ValidationEnv} {BE : BlockEnv} {WE : WalletEnv}.

(** A pair of tables agrees with the keys derived: an entry is the name of the
    key at its index, and every name listed by index is an entry. *)
Definition table_ok (key_at : Z → result WalletError bytes) (name : bytes → bytes)
  (to_index : gmap bytes Z) (of_index : gmap Z bytes) : Prop :=
  (∀ a i, to_index !! a = Some i → ∃ sk, key_at i = Ok sk ∧ a = name sk) ∧
  (∀ i a, of_index !! i = Some a → is_Some (to_index !! a)).

Definition wallet_keys_ok (w : Wallet) : Prop :=
  table_ok (get_tx_signing_key w) (fun sk => get_address (vk_of_sk sk)) (w_address_to_index w) (w_index_to_address w) ∧
  table_ok (get_encryption_secret w) epk_of_secret (w_epk_to_index w) (w_index_to_epk w) ∧
  table_ok (get_message_signing_key w) vk_of_sk (w_vk_to_index w) (w_index_to_vk w).

Lemma table_ok_empty key_at name : table_ok key_at name ∅ ∅.
Proof. split; intros; by rewrite lookup_empty in *. Qed.

Lemma table_ok_put key_at name to_index of_index i sk :
  table_ok key_at name to_index of_index → key_at i = Ok sk →
  table_ok key_at name (<[name sk := i]> to_index) (<[i := name sk]> of_index).
Proof.
  intros [H1 H2] Hk. split.
  - intros a j [[<- <-]|[_ Hj]]%lookup_insert_Some; [by exists sk|by apply H1].
  - intros j a [[<- <-]|[_ Hj]]%lookup_insert_Some; [by rewrite lookup_insert_eq|].
    destruct (H2 j a Hj) as [k Hk']. destruct (decide (name sk = a)) as [->|]; [by rewrite lookup_insert_eq|].
    rewrite lookup_insert_ne by done. by exists k.
Qed.

(** Without a seed no key is derived, so the tables are empty. *)
Lemma table_ok_no_key key_at name to_index of_index :
  table_ok key_at name to_index of_index → (∀ i, ∃ e, key_at i = Err e) → to_index = ∅ ∧ of_index = ∅.
Proof.
  intros [H1 H2] Hno. assert (to_index = ∅) as ->.
  { apply map_eq. intros a. rewrite lookup_empty. apply eq_None_not_Some. intros [i Hi].
    destruct (H1 a i Hi) as (sk & Hsk & _), (Hno i). congruence. }
  split; [done|]. apply map_eq. intros i. rewrite lookup_empty. apply eq_None_not_Some. intros [a Ha].
  destruct (H2 i a Ha) as [k Hk]. by rewrite lookup_empty in Hk.
Qed.

(** A computation that keeps the tables right, whether it fails or not. *)
Definition preserves {A} (c : walletM A) : Prop := ∀ w, wallet_keys_ok w → wallet_keys_ok (c w).2.

Lemma preserves_ret {A} (a : A) : preserves (mret a).
Proof. intros w Hw. exact Hw. Qed.
Lemma preserves_reading {A} (f : Wallet → result WalletError A) : preserves (reading f).
Proof. intros w Hw. exact Hw. Qed.
Lemma preserves_bind {A B} (c : walletM A) (f : A → walletM B) :
  preserves c → (∀ a, preserves (f a)) → preserves (c ≫= f).
Proof.
  intros Hc Hf w Hw. specialize (Hc w Hw). unfold mbind, walletM_bind.
  destruct (c w) as [[a|e] w']; simpl in *; [by apply Hf|done].
Qed.
Lemma preserves_pair {A B C} (f : A → B → walletM C) :
  (∀ a b, preserves (f a b)) → ∀ p, preserves (let '(a, b) := p in f a b).
Proof. intros H [a b]. apply H. Qed.

Lemma preserves_new_address : preserves get_new_address.
Proof.
  intros w (H1 & H2 & H3). unfold get_new_address, mbind, walletM_bind, reading.
  destruct (get_tx_signing_key w _) as [sk|] eqn:E; simpl; [|done]. split; [|done].
  by apply (table_ok_put _ (fun sk => get_address (vk_of_sk sk))).
Qed.

Lemma preserves_voter_address : preserves voter_address.
Proof.
  intros w (H1 & H2 & H3). unfold voter_address, mbind, walletM_bind, reading. case_match; [done|].
  destruct (get_tx_signing_key w 0) as [sk|] eqn:E; simpl; [|done]. split; [|done].
  by apply (table_ok_put _ (fun sk => get_address (vk_of_sk sk))).
Qed.

Lemma preserves_receive_address : preserves get_receive_address.
Proof.
  intros w Hw. unfold get_receive_address. repeat case_match; try done; by apply preserves_new_address.
Qed.

Lemma preserves_last_address : preserves get_or_generate_last_address.
Proof. intros w Hw. unfold get_or_generate_last_address. case_match; [done|by apply preserves_new_address]. Qed.

Lemma preserves_new_epk : preserves get_new_encryption_key.
Proof.
  intros w (H1 & H2 & H3). unfold get_new_encryption_key, mbind, walletM_bind, reading.
  destruct (get_encryption_secret w _) as [sk|] eqn:E; simpl; [|done]. split; [done|split; [|done]].
  by apply table_ok_put.
Qed.

Lemma preserves_new_vk : preserves get_new_verifying_key.
Proof.
  intros w (H1 & H2 & H3). unfold get_new_verifying_key, mbind, walletM_bind, reading.
  destruct (get_message_signing_key w _) as [sk|] eqn:E; simpl; [|done]. split; [done|split; [done|]].
  by apply (table_ok_put _ vk_of_sk).
Qed.

(** The seed is only written when there is none. *)
Lemma preserves_set_seed seed : preserves (set_seed seed).
Proof.
  intros w (H1 & H2 & H3). unfold set_seed. destruct (w_seed w) eqn:Es; [by case_bool_decide|].
  assert (∀ branch i, ∃ e, derive_secret w branch i = Err e) as Hno
    by (intros; unfold derive_secret; rewrite Es; by eexists).
  destruct (table_ok_no_key _ _ _ _ H2) as [He1 He2]; [intros; apply Hno|].
  destruct (table_ok_no_key _ _ _ _ H3) as [He3 He4]; [intros; apply Hno|].
  unfold overwrite_seed, wallet_keys_ok. simpl. rewrite He1, He2, He3, He4. split_and!; apply table_ok_empty.
Qed.

Lemma preserves_spend spent : preserves (spend_utxos spent).
Proof.
  intros w Hw. unfold spend_utxos. simpl. revert w Hw. induction spent as [|[o i] spent IH]; intros w Hw; simpl; [done|].
  apply IH. repeat case_match; done.
Qed.

End Keys.

#[export] Hint Resolve preserves_ret preserves_reading preserves_new_address preserves_voter_address
  preserves_receive_address preserves_last_address preserves_new_epk preserves_new_vk preserves_set_seed
  preserves_spend : wallet.

(** Take a computation apart. *)
Ltac preserve :=
  repeat first
    [ solve [eauto with wallet]
    | apply preserves_bind; [|intros ?]
    | apply preserves_pair; intros ? ?
    | progress cbv zeta
    | case_match ].

Section Reach.
Context {AM : BitcoinAmount} {BH : BodyHashes} {PH : PowHashes} {VE : ValidationEnv} {BE : BlockEnv} {WE : WalletEnv}.

(** The calls that write to the wallet. *)
Inductive WalletOp : Type :=
| WSetSeed (seed : bytes)
| WSetMnemonic (mnemonic : string)
| WNewAddress | WVoterAddress | WReceiveAddress | WLastAddress | WNewEncryptionKey | WNewVerifyingKey
| WSpend (spent : list (OutPoint * InPoint))
| WPutUnconfirmed (m : gmap OutPoint Output)
| WPutUtxos (m : gmap OutPoint FilledOutput)
| WWithdraw (main_address : bytes) (value main_fee fee : Z)
| WTransfer (address : Address) (value fee : Z) (memo : option bytes)
| WTransferMany (dests : gmap Address Z) (fee : Z)
| WClaim (payload : ClaimDecisionPayload) (fee : Z)
| WBallot (votes : list BallotItem) (period fee : Z)
| WReputation (dest : Address) (amount : f64) (fee : Z) (memo : option bytes)
| WCreateMarket (input : CreateMarketInput) (fee : Z).

(** The tables a call leaves, whether it succeeds or fails. *)
Definition wallet_run (op : WalletOp) (w : Wallet) : Wallet :=
  match op with
  | WSetSeed seed => (set_seed seed w).2
  | WSetMnemonic m => (set_seed_from_mnemonic m w).2
  | WNewAddress => (get_new_address w).2
  | WVoterAddress => (voter_address w).2
  | WReceiveAddress => (get_receive_address w).2
  | WLastAddress => (get_or_generate_last_address w).2
  | WNewEncryptionKey => (get_new_encryption_key w).2
  | WNewVerifyingKey => (get_new_verifying_key w).2
  | WSpend spent => (spend_utxos spent w).2
  | WPutUnconfirmed m => (put_unconfirmed_utxos m w).2
  | WPutUtxos m => (put_utxos m w).2
  | WWithdraw a v mf f => (create_withdrawal a v mf f w).2
  | WTransfer a v f memo => (create_transfer a v f memo w).2
  | WTransferMany d f => (create_transfer_many d f w).2
  | WClaim p f => (wallet_claim_decision p f w).2
  | WBallot v p f => (wallet_submit_ballot v p f w).2
  | WReputation d a f memo => (wallet_transfer_reputation d a f memo w).2
  | WCreateMarket i f => (create_market i f w).2
  end.

Definition wallet_step (w w' : Wallet) : Prop := ∃ op, w' = wallet_run op w.

Lemma preserves_change outputs change : preserves (push_bitcoin_change outputs change).
Proof. unfold push_bitcoin_change. preserve. Qed.

Lemma preserves_transfer_to outputs fee : preserves (create_transfer_to outputs fee).
Proof. pose proof preserves_change. unfold create_transfer_to. preserve. Qed.

Lemma preserves_fee_transaction fee data : preserves (fee_transaction fee data).
Proof. pose proof preserves_change. unfold fee_transaction. preserve. Qed.

Lemma preserves_run {A} (c : walletM A) w : preserves c → wallet_keys_ok w → wallet_keys_ok (c w).2.
Proof. auto. Qed.

Lemma wallet_run_keys_ok op w : wallet_keys_ok w → wallet_keys_ok (wallet_run op w).
Proof.
  pose proof preserves_change. pose proof preserves_transfer_to. pose proof preserves_fee_transaction.
  intros Hw. destruct op; cbn [wallet_run]; try exact Hw; (eapply preserves_run; [|exact Hw]);
    unfold set_seed_from_mnemonic, create_withdrawal, create_transfer, create_transfer_many, wallet_claim_decision,
      wallet_submit_ballot, wallet_transfer_reputation, create_market; preserve.
Qed.

Lemma reachable_keys_ok w : rtc wallet_step Wallet_new w → wallet_keys_ok w.
Proof.
  revert w. apply rtc_ind_r.
  - unfold wallet_keys_ok. simpl. split_and!; apply table_ok_empty.
  - intros w w' _ [op ->]. apply wallet_run_keys_ok.
Qed.

Lemma table_lookup key_at name to_index of_index a i :
  table_ok key_at name to_index of_index → to_index !! a = Some i → ∃ sk, key_at i = Ok sk ∧ a = name sk.
Proof. intros [H _]. apply H. Qed.

(** The keys of a wallet.  However the wallet is used, failed calls included,
    each key it gave out is found again: the signing key of an address, the
    secret of an encryption key and the signing key of a verifying key are
    derived from the seed and match it, for exactly the names in its tables, so
    that the assertions of the look-ups cannot fail; every address listed has
    its key. *)
Theorem wallet_keys_found w :
  rtc wallet_step Wallet_new w →
  (∀ a, match get_tx_signing_key_for_addr w a with
        | Ok sk => a = get_address (vk_of_sk sk)
        | Err e => e = AddressDoesNotExist a ∧ a ∉ get_addresses w
        end) ∧
  (∀ epk, match get_encryption_secret_for_epk w epk with
          | Ok secret => epk = epk_of_secret secret
          | Err e => e = EpkDoesNotExist epk
          end) ∧
  (∀ vk, match get_message_signing_key_for_vk w vk with
         | Ok sk => vk = vk_of_sk sk
         | Err e => e = VkDoesNotExist vk
         end).
Proof.
  intros (H1 & H2 & H3)%reachable_keys_ok. split_and!.
  - intros a. unfold get_tx_signing_key_for_addr. destruct (w_address_to_index w !! a) as [i|] eqn:Ei; simpl.
    + destruct (table_lookup _ _ _ _ _ _ H1 Ei) as (sk & -> & ->). simpl. by rewrite bool_decide_true.
    + split; [done|]. unfold get_addresses. rewrite elem_of_list_to_set. intros Ha.
      apply list_elem_of_fmap in Ha as ([j b] & -> & Hb%elem_of_map_to_list). simpl in *.
      destruct H1 as [_ H1]. destruct (H1 j b Hb) as [k Hk]. congruence.
  - intros a. unfold get_encryption_secret_for_epk. destruct (w_epk_to_index w !! a) as [i|] eqn:Ei; simpl; [|done].
    destruct (table_lookup _ _ _ _ _ _ H2 Ei) as (sk & -> & ->). simpl. by rewrite bool_decide_true.
  - intros a. unfold get_message_signing_key_for_vk. destruct (w_vk_to_index w !! a) as [i|] eqn:Ei; simpl; [|done].
    destruct (table_lookup _ _ _ _ _ _ H3 Ei) as (sk & -> & ->). simpl. by rewrite bool_decide_true.
Qed.
End Reach.
