(* ===== verification/Mempool.v ===== *)
(** * The pool of unconfirmed transactions

    Model of [MemPool] (src/lib/mempool.rs): the transactions that wait for a
    block with four indexes over them (the outputs they spend, the addresses
    they concern, the decisions they claim and the order in which trades came
    in).  [put] returns no pool when it fails, since its callers drop the write
    transaction; the one error a caller recovers from,
    [DecisionAlreadyClaimedInMempool], is raised before anything is written. *)

From stdpp Require Import base numbers list strings gmap.
From S2P Require Import Prelude Float64 StateErrors Transactions Bodies TxPow Authorization StateModel Validation.

Inductive MempoolError : Type :=
| MissingTransaction (id : Txid)
| MempoolDoubleSpent
| DecisionAlreadyClaimedInMempool (decision_id : bytes)
| MempoolFull (current max : Z).

Record MemPool : Type := {
  mp_transactions : gmap Txid AuthorizedTransaction;
  mp_spent_utxos : gmap OutPoint InPoint;
  mp_address_to_txs : gmap Address (gset Txid);
  mp_pending_decision_claims : gmap bytes Txid;
  mp_trade_insertion_order : gmap Z Txid;
  mp_trade_order_counter : option Z
}.

(** The tables as [MemPool::new] creates them. *)
Definition MemPool_new : MemPool :=
  {| mp_transactions := ∅; mp_spent_utxos := ∅; mp_address_to_txs := ∅;
     mp_pending_decision_claims := ∅; mp_trade_insertion_order := ∅; mp_trade_order_counter := None |}.

Definition MAX_MEMPOOL_TRANSACTIONS : Z := 5000.

(** *** Writing one table *)

Definition set_mp_transactions (p : MemPool) v : MemPool :=
  {| mp_transactions := v; mp_spent_utxos := mp_spent_utxos p; mp_address_to_txs := mp_address_to_txs p;
     mp_pending_decision_claims := mp_pending_decision_claims p;
     mp_trade_insertion_order := mp_trade_insertion_order p;
     mp_trade_order_counter := mp_trade_order_counter p |}.
Definition set_mp_spent_utxos (p : MemPool) v : MemPool :=
  {| mp_transactions := mp_transactions p; mp_spent_utxos := v; mp_address_to_txs := mp_address_to_txs p;
     mp_pending_decision_claims := mp_pending_decision_claims p;
     mp_trade_insertion_order := mp_trade_insertion_order p;
     mp_trade_order_counter := mp_trade_order_counter p |}.
Definition set_mp_address_to_txs (p : MemPool) v : MemPool :=
  {| mp_transactions := mp_transactions p; mp_spent_utxos := mp_spent_utxos p; mp_address_to_txs := v;
     mp_pending_decision_claims := mp_pending_decision_claims p;
     mp_trade_insertion_order := mp_trade_insertion_order p;
     mp_trade_order_counter := mp_trade_order_counter p |}.
Definition set_mp_pending_decision_claims (p : MemPool) v : MemPool :=
  {| mp_transactions := mp_transactions p; mp_spent_utxos := mp_spent_utxos p;
     mp_address_to_txs := mp_address_to_txs p; mp_pending_decision_claims := v;
     mp_trade_insertion_order := mp_trade_insertion_order p;
     mp_trade_order_counter := mp_trade_order_counter p |}.
Definition set_mp_trade_order (p : MemPool) order counter : MemPool :=
  {| mp_transactions := mp_transactions p; mp_spent_utxos := mp_spent_utxos p;
     mp_address_to_txs := mp_address_to_txs p;
     mp_pending_decision_claims := mp_pending_decision_claims p;
     mp_trade_insertion_order := order; mp_trade_order_counter := counter |}.

(** A [u64] key is encoded in eight little-endian bytes. *)
Definition u64_key_cmp (a b : Z) : comparison := bytes_cmp (le_bytes_n 8 a) (le_bytes_n 8 b).

(** ** Spent outputs *)

Definition spend_once (spent : gmap OutPoint InPoint) (e : OutPoint * InPoint)
  : result MempoolError (gmap OutPoint InPoint) :=
  if bool_decide (is_Some (spent !! e.1)) then Err MempoolDoubleSpent else Ok (<[e.1 := e.2]> spent).

Definition put_stxos (p : MemPool) (stxos : list (OutPoint * InPoint)) : result MempoolError MemPool :=
  spent ← try_fold spend_once (mp_spent_utxos p) stxos;
  Ok (set_mp_spent_utxos p spent).

Definition delete_stxos (p : MemPool) (stxos : list OutPoint) : MemPool :=
  set_mp_spent_utxos p (foldl (fun spent o => delete o spent) (mp_spent_utxos p) stxos).

(** ** Addresses *)

Definition assoc_txid_with_address (id : Txid) (index : gmap Address (gset Txid)) (a : Address)
  : gmap Address (gset Txid) :=
  <[a := {[id]} ∪ default ∅ (index !! a)]> index.

Definition unassoc_txid_with_address (id : Txid) (index : gmap Address (gset Txid)) (a : Address)
  : gmap Address (gset Txid) :=
  match index !! a with
  | None => index
  | Some associated =>
      let associated := associated ∖ {[id]} in
      if bool_decide (associated = ∅) then delete a index else <[a := associated]> index
  end.

Section Pool.
Context {BH : BodyHashes} {VE : ValidationEnv}.
Implicit Types (p : MemPool) (t : AuthorizedTransaction).

(** The id of an authorized transaction is that of its transaction. *)
Definition at_txid t : Txid := tx_txid (at_transaction t).

(** [Authorized::relevant_addresses], a [HashSet]. *)
Definition relevant_addresses t : gset Address :=
  list_to_set (map auth_address (at_authorizations t)
               ++ map auth_address (option_list (at_actor_proof t))
               ++ map out_address (tx_outputs (at_transaction t))).

Definition index_tx_addresses p t : MemPool :=
  set_mp_address_to_txs p (foldl (assoc_txid_with_address (at_txid t)) (mp_address_to_txs p)
                             (elements (relevant_addresses t))).

Definition unindex_tx_addresses p t : MemPool :=
  set_mp_address_to_txs p (foldl (unassoc_txid_with_address (at_txid t)) (mp_address_to_txs p)
                             (elements (relevant_addresses t))).

(** ** Claims of decisions *)

Definition is_trade_tx t : bool :=
  match tx_data (at_transaction t) with Some (Trade _ _ _ _ _ _ _) => true | _ => false end.

Definition get_claimed_decision_ids (tx : Transaction) : list bytes :=
  match tx_data tx with
  | Some (ClaimDecision payload) => map dce_decision_id_bytes (cdp_decisions payload)
  | Some (CreateMarket _ _ _ new_claims _ _ _ _) =>
      flat_map (fun payload => map dce_decision_id_bytes (cdp_decisions payload)) new_claims
  | _ => []
  end.

Definition claim_conflict (claims : gmap bytes Txid) (id : Txid) (d : bytes) : bool :=
  match claims !! d with Some existing => negb (bool_decide (existing = id)) | None => false end.

Definition put_decision_claims p (id : Txid) (decision_ids : list bytes) : result MempoolError MemPool :=
  _ ← try_fold (fun _ d => bail_if (claim_conflict (mp_pending_decision_claims p) id d)
                             (DecisionAlreadyClaimedInMempool d)) tt decision_ids;
  Ok (set_mp_pending_decision_claims p
        (foldl (fun claims d => <[d := id]> claims) (mp_pending_decision_claims p) decision_ids)).

Definition delete_decision_claims p t : MemPool :=
  set_mp_pending_decision_claims p
    (foldl (fun claims d => delete d claims) (mp_pending_decision_claims p)
       (get_claimed_decision_ids (at_transaction t))).

(** ** Adding a transaction *)

Definition tx_count p : Z := Z.of_nat (size (mp_transactions p)).

(** The outputs a transaction spends, with the inputs that spend them. *)
Definition stxos_of (tx : Transaction) : list (OutPoint * InPoint) :=
  map (fun e => (e.2, InRegular (tx_txid tx) (as_u32 e.1))) (enumerate 0 (tx_inputs tx)).

(** The insertion number of a trade; the counter is a [u64]. *)
Definition put_trade_order p t : MemPool :=
  if is_trade_tx t then
    let next := as_u64 (default 0 (mp_trade_order_counter p) + 1) in
    set_mp_trade_order p (<[next := at_txid t]> (mp_trade_insertion_order p)) (Some next)
  else p.

Definition put p t : result MempoolError MemPool :=
  _ ← bail_if (MAX_MEMPOOL_TRANSACTIONS <=? tx_count p) (MempoolFull (tx_count p) MAX_MEMPOOL_TRANSACTIONS);
  let claimed := get_claimed_decision_ids (at_transaction t) in
  p ← (if bool_decide (claimed = []) then Ok p else put_decision_claims p (at_txid t) claimed);
  p ← put_stxos p (stxos_of (at_transaction t));
  let p := set_mp_transactions p (<[at_txid t := t]> (mp_transactions p)) in
  Ok (put_trade_order (index_tx_addresses p t) t).

(** ** Removing transactions *)

(** The first entry of the insertion order with the id, in the order of the
    encoded keys. *)
Definition delete_trade_order p (id : Txid) : MemPool :=
  match head (filter (fun e => e.2 = id) (db_iter u64_key_cmp (mp_trade_insertion_order p))) with
  | Some (key, _) => set_mp_trade_order p (delete key (mp_trade_insertion_order p)) (mp_trade_order_counter p)
  | None => p
  end.

(** The writes of the loop body of [delete]. *)
Definition remove_tx p (id : Txid) t : MemPool :=
  let p := delete_stxos p (tx_inputs (at_transaction t)) in
  let p := unindex_tx_addresses p t in
  let p := delete_decision_claims p t in
  let p := if is_trade_tx t then delete_trade_order p id else p in
  set_mp_transactions p (delete id (mp_transactions p)).

(** The transactions of the pool that spend an output of [t]. *)
Definition children_of p (id : Txid) t : list Txid :=
  omap (fun vout => match mp_spent_utxos p !! OpRegular id (as_u32 vout) with
                    | Some (InRegular child _) => Some child
                    | _ => None
                    end)
    (range 0 (Z.of_nat (length (tx_outputs (at_transaction t))))).

(** [while let Some(txid) = pending_deletes.pop_front()]; [None] when the fuel
    runs out. *)
Fixpoint delete_loop (fuel : nat) p (pending : list Txid) : option MemPool :=
  match pending with
  | [] => Some p
  | id :: pending =>
      match fuel with
      | O => None
      | S fuel =>
          match mp_transactions p !! id with
          | None => delete_loop fuel p pending
          | Some t =>
              let p := remove_tx p id t in
              delete_loop fuel p (pending ++ children_of p id t)
          end
      end
  end.

(** A transaction is taken from the queue once for itself and at most once for
    each output of a transaction of the pool. *)
Definition outputs_count p : nat :=
  sum_list_with (fun e => length (tx_outputs (at_transaction e.2))) (map_to_list (mp_transactions p)).
Definition delete_tx p (id : Txid) : option MemPool := delete_loop (S (outputs_count p)) p [id].

Definition evict_step (confirmed : Txid) (acc : MemPool * list Txid) (d : bytes)
  : option (MemPool * list Txid) :=
  match mp_pending_decision_claims acc.1 !! d with
  | Some zombie => if bool_decide (zombie = confirmed) then Some acc else
      p ← delete_tx acc.1 zombie; Some (p, acc.2 ++ [zombie])
  | None => Some acc
  end.

Fixpoint evict_loop (confirmed : Txid) (acc : MemPool * list Txid) (ds : list bytes)
  : option (MemPool * list Txid) :=
  match ds with
  | [] => Some acc
  | d :: ds => acc ← evict_step confirmed acc d; evict_loop confirmed acc ds
  end.

Definition evict_decision_claim_conflicts p (confirmed_tx : Transaction) : option (MemPool * list Txid) :=
  evict_loop (tx_txid confirmed_tx) (p, []) (get_claimed_decision_ids confirmed_tx).

(** ** Reading *)

Definition take_all p : list AuthorizedTransaction := map snd (db_iter bytes_cmp (mp_transactions p)).
Definition take_txs p (number : nat) : list AuthorizedTransaction := take number (take_all p).

Definition take_trades_ordered p : list AuthorizedTransaction :=
  omap (fun e => mp_transactions p !! e.2) (db_iter u64_key_cmp (mp_trade_insertion_order p)).

Definition get_txids_relevant_to_address p (a : Address) : gset Txid :=
  default ∅ (mp_address_to_txs p !! a).

Definition get_txs_relevant_to_address p (a : Address) : result MempoolError (list AuthorizedTransaction) :=
  try_map (fun id => ok_or (mp_transactions p !! id) (MissingTransaction id))
    (elements (get_txids_relevant_to_address p a)).

Definition unconfirmed_of (a : Address) t : list (OutPoint * Output) :=
  omap (fun e => if bool_decide (out_address e.2 = a)
                 then Some (OpRegular (at_txid t) (as_u32 e.1), e.2) else None)
    (enumerate 0 (tx_outputs (at_transaction t))).

(** Collected into a [HashMap]: a later entry replaces an earlier one. *)
Definition get_unconfirmed_utxos p (a : Address) : result MempoolError (gmap OutPoint Output) :=
  txs ← get_txs_relevant_to_address p a;
  Ok (foldl (fun m e => <[e.1 := e.2]> m) ∅ (flat_map (unconfirmed_of a) txs)).

Definition pending_decision_claim_ids p : gset bytes := dom (mp_pending_decision_claims p).

End Pool.
