(* ===== verification/MempoolFacts.v ===== *)
(** * The pool and its indexes

    The spent outputs and pending claims of a pool are exactly those of its
    transactions, and so are its address index and the order of its trades when
    every transaction spends something; removing a transaction removes it with
    everything that depends on it and nothing else, and a confirmed claim leaves
    no rival in the pool. *)

From stdpp Require Import base numbers list strings gmap relations.
From S2P Require Import Prelude Float64 StateErrors Transactions Bodies TxPow Authorization StateModel Validation Mempool.

(** ** Tables *)

Lemma put_stxos_spec l m m' :
  try_fold spend_once m l = Ok m' →
  (∀ o, o ∈ l.*1 → m !! o = None) ∧
  (∀ o ip, m' !! o = Some ip ↔ m !! o = Some ip ∨ (o, ip) ∈ l).
Proof.
  revert m. induction l as [|[o ip] l IH]; simpl; intros m Hf.
  - injection Hf as ->. set_solver.
  - unfold spend_once in Hf. simpl in Hf. case_bool_decide as Hs; [done|].
    apply eq_None_not_Some in Hs. destruct (IH _ Hf) as [Hnew Hlook]. split.
    + intros o' [-> | Ho']%elem_of_cons; [done|]. specialize (Hnew o' Ho').
      by apply lookup_insert_None in Hnew as [? _].
    + intros o' ip'. rewrite Hlook, elem_of_cons. destruct (decide (o = o')) as [<-|Hne].
      * rewrite lookup_insert_eq. split; [naive_solver|]. intros [? | [[= ->] | Hin]]; [congruence|by left|].
        exfalso. specialize (Hnew o). rewrite lookup_insert_eq in Hnew.
        by discriminate Hnew; apply list_elem_of_fmap; exists (o, ip').
      * rewrite lookup_insert_ne by done. split; [tauto|]. intros [?|[[= ? ?]|?]]; [tauto|congruence|tauto].
Qed.

Lemma stxos_of_inputs {BH : BodyHashes} tx o :
  o ∈ tx_inputs tx ↔ ∃ ip, (o, ip) ∈ stxos_of tx.
Proof.
  unfold stxos_of. generalize 0 as i. induction (tx_inputs tx) as [|x l IH]; intros i; simpl; [set_solver|].
  rewrite elem_of_cons, (IH (i + 1)). split.
  - intros [-> | [ip ?]]; eexists; [by left|by right].
  - intros [ip [[= -> ->] | ?]%elem_of_cons]; [by left|right; by exists ip].
Qed.

Lemma stxos_of_txid {BH : BodyHashes} tx o ip :
  (o, ip) ∈ stxos_of tx → ∃ vin, ip = InRegular (tx_txid tx) vin.
Proof. unfold stxos_of. intros ([v x] & [= -> ->] & _)%list_elem_of_fmap. eauto. Qed.

(** ** The address index *)

Definition index_ids (index : gmap Address (gset Txid)) (a : Address) : gset Txid := default ∅ (index !! a).

Lemma assoc_ids id index l a i :
  i ∈ index_ids (foldl (assoc_txid_with_address id) index l) a ↔ i ∈ index_ids index a ∨ (a ∈ l ∧ i = id).
Proof.
  revert index. induction l as [|x l IH]; intros index; simpl; [set_solver|]. rewrite IH.
  unfold index_ids, assoc_txid_with_address. destruct (decide (x = a)) as [<-|Hne].
  - rewrite lookup_insert_eq. simpl. set_solver.
  - rewrite lookup_insert_ne by done. set_solver.
Qed.

Lemma unassoc_ids id index l a i :
  i ∈ index_ids (foldl (unassoc_txid_with_address id) index l) a ↔ i ∈ index_ids index a ∧ ¬ (a ∈ l ∧ i = id).
Proof.
  revert index. induction l as [|x l IH]; intros index; simpl; [set_solver|]. rewrite IH.
  assert (i ∈ index_ids (unassoc_txid_with_address id index x) a ↔ i ∈ index_ids index a ∧ ¬ (a = x ∧ i = id)) as ->;
    [|set_solver].
  unfold index_ids, unassoc_txid_with_address. destruct (index !! x) as [ids|] eqn:E.
  - case_bool_decide as Hemp; (destruct (decide (x = a)) as [<-|Hne];
      [rewrite ?lookup_delete_eq, ?lookup_insert_eq, E|rewrite ?lookup_delete_ne, ?lookup_insert_ne by done]);
      simpl; set_solver.
  - destruct (decide (x = a)) as [<-|Hne]; [rewrite E|]; set_solver.
Qed.

Definition no_empty (index : gmap Address (gset Txid)) : Prop := ∀ a, index !! a ≠ Some ∅.

Lemma assoc_no_empty id index l : no_empty index → no_empty (foldl (assoc_txid_with_address id) index l).
Proof.
  revert index. induction l as [|x l IH]; intros index H; simpl; [done|]. apply IH. intros a.
  unfold assoc_txid_with_address. destruct (decide (x = a)) as [<-|].
  - rewrite lookup_insert_eq. intros [= ?]. set_solver.
  - rewrite lookup_insert_ne by done. apply H.
Qed.

Lemma unassoc_no_empty id index l : no_empty index → no_empty (foldl (unassoc_txid_with_address id) index l).
Proof.
  revert index. induction l as [|x l IH]; intros index H; simpl; [done|]. apply IH. intros a.
  unfold unassoc_txid_with_address. destruct (index !! x) as [ids|]; [|apply H].
  case_bool_decide; (destruct (decide (x = a)) as [<-|];
    [rewrite ?lookup_delete_eq, ?lookup_insert_eq; naive_solver
    |rewrite ?lookup_delete_ne, ?lookup_insert_ne by done; apply H]).
Qed.

(** ** The invariant *)

Section Pool.
Context {BH : BodyHashes} {VE : ValidationEnv}.
Implicit Types (p : MemPool) (t : AuthorizedTransaction).

(** What holds of every pool: the tables of spent outputs and of pending claims
    are those of its transactions. *)
Record pool_core p : Prop := {
  pk_id id t : mp_transactions p !! id = Some t → at_txid t = id;
  pk_spent o ip : mp_spent_utxos p !! o = Some ip ↔
    ∃ id t, mp_transactions p !! id = Some t ∧ (o, ip) ∈ stxos_of (at_transaction t);
  pk_claims d id : mp_pending_decision_claims p !! d = Some id ↔
    ∃ t, mp_transactions p !! id = Some t ∧ d ∈ get_claimed_decision_ids (at_transaction t);
  pk_size : tx_count p ≤ MAX_MEMPOOL_TRANSACTIONS
}.

(** The address index and the order of trades are exact too. *)
Record pool_ok p : Prop := {
  pk_core :> pool_core p;
  pk_addr a id : id ∈ get_txids_relevant_to_address p a ↔
    ∃ t, mp_transactions p !! id = Some t ∧ a ∈ relevant_addresses t;
  pk_no_empty : no_empty (mp_address_to_txs p);
  pk_order id : (∃ n, mp_trade_insertion_order p !! n = Some id) ↔
    ∃ t, mp_transactions p !! id = Some t ∧ is_trade_tx t = true;
  pk_order_inj n m id : mp_trade_insertion_order p !! n = Some id → mp_trade_insertion_order p !! m = Some id → n = m;
  pk_order_le n id : mp_trade_insertion_order p !! n = Some id → 1 ≤ n ≤ default 0 (mp_trade_order_counter p);
  pk_counter : 0 ≤ default 0 (mp_trade_order_counter p)
}.

Lemma pool_core_new : pool_core MemPool_new.
Proof.
  split; simpl; try (intros *; rewrite lookup_empty); try done.
  - split; [done|]. intros (? & ? & ? & ?). done.
  - split; [done|]. intros (? & ? & ?). done.
Qed.

Lemma pool_ok_new : pool_ok MemPool_new.
Proof.
  split; [apply pool_core_new|..]; simpl; try (intros *; rewrite lookup_empty); try done.
  - unfold get_txids_relevant_to_address. simpl. rewrite lookup_empty. simpl. set_solver.
  - split; [intros [? ?]; done|intros (? & ? & ?); done].
Qed.

(** *** Removing *)

(** The trade order without a transaction. *)
Lemma delete_trade_order_spec p id :
  (∀ n m, mp_trade_insertion_order p !! n = Some id → mp_trade_insertion_order p !! m = Some id → n = m) →
  ∀ n i, mp_trade_insertion_order (delete_trade_order p id) !! n = Some i ↔
         mp_trade_insertion_order p !! n = Some i ∧ i ≠ id.
Proof.
  intros Hinj n i. unfold delete_trade_order.
  set (hits := filter _ _). assert (∀ k j, (k, j) ∈ hits ↔ j = id ∧ mp_trade_insertion_order p !! k = Some j) as Hh.
  { intros k j. unfold hits. rewrite list_elem_of_filter, elem_of_db_iter. done. }
  destruct hits as [|[k j] hits]; simpl.
  - split; [|tauto]. intros H. split; [done|]. intros ->. specialize (Hh n id). set_solver.
  - destruct (Hh k j) as [[-> Hk] _]; [set_solver|]. rewrite lookup_delete_Some. split; [|naive_solver].
    intros [Hn H]. split; [done|]. intros ->. apply Hn. eauto.
Qed.

Lemma delete_trade_order_frame p id :
  mp_transactions (delete_trade_order p id) = mp_transactions p ∧
  mp_spent_utxos (delete_trade_order p id) = mp_spent_utxos p ∧
  mp_address_to_txs (delete_trade_order p id) = mp_address_to_txs p ∧
  mp_pending_decision_claims (delete_trade_order p id) = mp_pending_decision_claims p ∧
  mp_trade_order_counter (delete_trade_order p id) = mp_trade_order_counter p.
Proof. unfold delete_trade_order. by destruct (head _) as [[]|]. Qed.

(** The tables after the writes of one round. *)
Lemma remove_tx_tables p id t :
  let q := remove_tx p id t in
  mp_transactions q = delete id (mp_transactions p) ∧
  mp_spent_utxos q = foldl (fun spent o => delete o spent) (mp_spent_utxos p) (tx_inputs (at_transaction t)) ∧
  mp_address_to_txs q = foldl (unassoc_txid_with_address (at_txid t)) (mp_address_to_txs p)
                          (elements (relevant_addresses t)) ∧
  mp_pending_decision_claims q = foldl (fun claims d => delete d claims) (mp_pending_decision_claims p)
                                   (get_claimed_decision_ids (at_transaction t)) ∧
  mp_trade_insertion_order q = (if is_trade_tx t then mp_trade_insertion_order (delete_trade_order p id)
                                else mp_trade_insertion_order p) ∧
  mp_trade_order_counter q = mp_trade_order_counter p.
Proof.
  unfold remove_tx. destruct (is_trade_tx t); simpl; [|done].
  set (q := delete_decision_claims _ t).
  destruct (delete_trade_order_frame q id) as (E1 & E2 & E3 & E4 & E5). rewrite E1, E2, E3, E4, E5.
  repeat split. unfold delete_trade_order. simpl. by destruct (head _) as [[]|].
Qed.

(** A row of the remaining transactions is a row of another transaction. *)
Lemma lookup_other {A} (m : gmap Txid A) id (P : Txid → A → Prop) :
  (∃ i x, delete id m !! i = Some x ∧ P i x) ↔ (∃ i x, m !! i = Some x ∧ P i x ∧ i ≠ id).
Proof. setoid_rewrite lookup_delete_Some. naive_solver. Qed.

Lemma remove_tx_core p id t :
  pool_core p → mp_transactions p !! id = Some t → pool_core (remove_tx p id t).
Proof.
  intros Hp Ht. destruct (remove_tx_tables p id t) as (E1 & E2 & _ & E4 & _).
  pose proof (pk_id _ Hp _ _ Ht) as Hid. split; rewrite ?E1, ?E2, ?E4.
  - intros i x [_ Hx]%lookup_delete_Some. by apply Hp.
  - intros o ip. rewrite foldl_delete_lookup, lookup_other. case_bool_decide as Ho.
    + split; [done|]. intros (i & x & Hx & Hin & Hne). exfalso. apply Hne.
      apply stxos_of_inputs in Ho as [ip' Hin'].
      assert (mp_spent_utxos p !! o = Some ip) as H1 by (apply Hp; eauto).
      assert (mp_spent_utxos p !! o = Some ip') as H2 by (apply Hp; eauto).
      destruct (stxos_of_txid _ _ _ Hin) as [v ->]. destruct (stxos_of_txid _ _ _ Hin') as [v' ->].
      rewrite H1 in H2. injection H2 as H2 _. rewrite <- (pk_id _ Hp _ _ Hx), <- Hid. done.
    + rewrite (pk_spent _ Hp). split; intros (i & x & Hx & Hin); [|naive_solver].
      exists i, x. split_and!; [done..|]. intros ->. apply Ho. apply stxos_of_inputs. naive_solver.
  - intros d i. rewrite foldl_delete_lookup. setoid_rewrite lookup_delete_Some. case_bool_decide as Hd.
    + split; [done|]. intros (x & [Hne Hx] & Hin). exfalso. apply Hne.
      assert (mp_pending_decision_claims p !! d = Some i) as H1 by (apply Hp; eauto).
      assert (mp_pending_decision_claims p !! d = Some id) as H2 by (apply Hp; eauto). congruence.
    + rewrite (pk_claims _ Hp). split; [|naive_solver]. intros (x & Hx & Hin). exists x.
      split_and!; [|done..]. intros <-. naive_solver.
  - pose proof (pk_size _ Hp). unfold tx_count in *. rewrite E1, map_size_delete, Ht. lia.
Qed.

Lemma remove_tx_ok p id t :
  pool_ok p → mp_transactions p !! id = Some t → pool_ok (remove_tx p id t).
Proof.
  intros Hp Ht. destruct (remove_tx_tables p id t) as (E1 & _ & E3 & _ & E5 & E6).
  pose proof (pk_id _ Hp _ _ Ht) as Hid.
  split; [by apply remove_tx_core; [apply Hp|]|..]; unfold get_txids_relevant_to_address; rewrite ?E1, ?E3, ?E5, ?E6.
  - intros a i. pose proof (unassoc_ids (at_txid t) (mp_address_to_txs p) (elements (relevant_addresses t)) a i) as Hu.
    unfold index_ids in Hu. rewrite Hu, elem_of_elements, Hid. setoid_rewrite lookup_delete_Some.
    pose proof (pk_addr _ Hp a i) as Ha. unfold get_txids_relevant_to_address in Ha. rewrite Ha.
    split; [|naive_solver]. intros [(x & Hx & Hin) Hn]. exists x. split_and!; [|done..]. intros <-.
    naive_solver.
  - apply unassoc_no_empty, Hp.
  - intros i. setoid_rewrite lookup_delete_Some. pose proof (pk_order _ Hp i) as Ho.
    destruct (is_trade_tx t) eqn:Etr.
    + setoid_rewrite (delete_trade_order_spec p id); [|intros; by eapply Hp]. naive_solver.
    + rewrite Ho. split; [|naive_solver]. intros (x & Hx & Hin). exists x.
      split_and!; [|done..]. intros <-. rewrite Hx in Ht. injection Ht as ->. congruence.
  - intros n m i. destruct (is_trade_tx t) eqn:Etr; [|apply Hp].
    rewrite !delete_trade_order_spec by (intros; by eapply Hp). intros [? _] [? _]. by eapply Hp.
  - intros n i. destruct (is_trade_tx t) eqn:Etr; [|apply Hp].
    rewrite delete_trade_order_spec by (intros; by eapply Hp). intros [? _]. by eapply Hp.
  - apply Hp.
Qed.

(** *** Adding *)

(** The id of the transaction is not that of a different one of the pool: ids are
    hashes. *)
Definition same_id p t : Prop :=
  ∀ t', mp_transactions p !! at_txid t = Some t' → at_transaction t' = at_transaction t.

(** The transaction spends something, and the trade counter has not run out. *)
Definition spending p t : Prop :=
  tx_inputs (at_transaction t) ≠ [] ∧ default 0 (mp_trade_order_counter p) < U64_MAX.

Lemma put_claims_spec p id l q :
  put_decision_claims p id l = Ok q →
  (∀ d i, d ∈ l → mp_pending_decision_claims p !! d = Some i → i = id) ∧
  q = set_mp_pending_decision_claims p (foldl (fun claims d => <[d := id]> claims) (mp_pending_decision_claims p) l).
Proof.
  unfold put_decision_claims. intros Hf. inv_ok. split; [|done].
  assert (∀ d, d ∈ l → claim_conflict (mp_pending_decision_claims p) id d = false) as Hall.
  { intros d Hd. revert E. generalize (@nil bytes). intros _. induction l as [|x l IH]; simpl; [set_solver|].
    destruct (claim_conflict _ _ x) eqn:Ex; simpl; [done|]. intros E. apply elem_of_cons in Hd as [->|Hd]; eauto. }
  intros d i Hd Hi. specialize (Hall d Hd). unfold claim_conflict in Hall. rewrite Hi in Hall. by to_prop.
Qed.

(** The tables after a transaction is added. *)
Lemma put_tables p t q :
  put p t = Ok q →
  let claimed := get_claimed_decision_ids (at_transaction t) in
  tx_count p < MAX_MEMPOOL_TRANSACTIONS ∧
  mp_transactions q = <[at_txid t := t]> (mp_transactions p) ∧
  try_fold spend_once (mp_spent_utxos p) (stxos_of (at_transaction t)) = Ok (mp_spent_utxos q) ∧
  mp_address_to_txs q = foldl (assoc_txid_with_address (at_txid t)) (mp_address_to_txs p)
                          (elements (relevant_addresses t)) ∧
  (∀ d i, d ∈ claimed → mp_pending_decision_claims p !! d = Some i → i = at_txid t) ∧
  (∀ d, mp_pending_decision_claims q !! d =
          if bool_decide (d ∈ claimed) then Some (at_txid t) else mp_pending_decision_claims p !! d) ∧
  let next := as_u64 (default 0 (mp_trade_order_counter p) + 1) in
  if is_trade_tx t
  then mp_trade_insertion_order q = <[next := at_txid t]> (mp_trade_insertion_order p) ∧
       mp_trade_order_counter q = Some next
  else mp_trade_insertion_order q = mp_trade_insertion_order p ∧
       mp_trade_order_counter q = mp_trade_order_counter p.
Proof.
  intros H claimed. unfold put in H. fold claimed in H. inv_ok. apply Z.leb_gt in E2. split; [done|].
  assert ((∀ d i, d ∈ claimed → mp_pending_decision_claims p !! d = Some i → i = at_txid t) ∧
          a0 = set_mp_pending_decision_claims p
                (foldl (fun claims d => <[d := at_txid t]> claims) (mp_pending_decision_claims p) claimed)) as [Hc ->].
  { case_bool_decide as Hemp; [|by apply put_claims_spec].
    injection E0 as <-. rewrite Hemp. split; [set_solver|]. by destruct p. }
  unfold put_stxos in E1. inv_ok. unfold put_trade_order.
  destruct (is_trade_tx t); simpl; split_and!; try done; intros d; apply foldl_insert_const_lookup.
Qed.

(** Rows of the transactions after one was added, or stored again under its id. *)
Lemma lookup_insert_tx p t i (P : Transaction → Prop) :
  same_id p t →
  (∃ y, <[at_txid t := t]> (mp_transactions p) !! i = Some y ∧ P (at_transaction y)) ↔
  (i = at_txid t ∧ P (at_transaction t)) ∨ (∃ y, mp_transactions p !! i = Some y ∧ P (at_transaction y)).
Proof.
  intros Hsame. split.
  - intros (y & [[<- <-]|[Hne Hy]]%lookup_insert_Some & HP); eauto.
  - destruct (decide (i = at_txid t)) as [->|Hne].
    + rewrite lookup_insert_eq. intros [[_ HP]|(y & Hy & HP)]; [eauto|]. rewrite (Hsame y Hy) in HP. eauto.
    + rewrite lookup_insert_ne by done. naive_solver.
Qed.

Lemma put_core p t q : pool_core p → same_id p t → put p t = Ok q → pool_core q.
Proof.
  intros Hp Hsame Hput. destruct (put_tables _ _ _ Hput) as (Hsz & E1 & Hst & _ & Hown & E4 & _).
  apply put_stxos_spec in Hst as [_ Hst]. split; rewrite ?E1.
  - intros i x [[<- <-]|[_ Hx]]%lookup_insert_Some; [done|]. by apply Hp.
  - intros o ip. rewrite Hst, (pk_spent _ Hp).
    assert (∀ i, (∃ y, <[at_txid t := t]> (mp_transactions p) !! i = Some y ∧ (o, ip) ∈ stxos_of (at_transaction y)) ↔
      (i = at_txid t ∧ (o, ip) ∈ stxos_of (at_transaction t)) ∨
      (∃ y, mp_transactions p !! i = Some y ∧ (o, ip) ∈ stxos_of (at_transaction y))) as Hi
      by (intros i; by apply (lookup_insert_tx p t i (fun x => (o, ip) ∈ stxos_of x))).
    setoid_rewrite Hi. naive_solver.
  - intros d i. rewrite E4, (lookup_insert_tx p t i (fun x => d ∈ get_claimed_decision_ids x)) by done.
    case_bool_decide as Hd.
    + split; [naive_solver|]. intros [[-> _]|Hx]; [done|]. f_equal. symmetry. apply (Hown d); [done|]. by apply Hp.
    + rewrite (pk_claims _ Hp). naive_solver.
  - unfold tx_count in *. rewrite E1, map_size_insert. destruct (mp_transactions p !! at_txid t); simpl; lia.
Qed.

Lemma put_fresh p t q :
  pool_core p → same_id p t → tx_inputs (at_transaction t) ≠ [] → put p t = Ok q → mp_transactions p !! at_txid t = None.
Proof.
  intros Hp Hcol Hin Hput. destruct (put_tables _ _ _ Hput) as (_ & _ & Hst & _).
  apply put_stxos_spec in Hst as [Hnew _].
  destruct (mp_transactions p !! at_txid t) as [t'|] eqn:Et; [|done]. exfalso.
  specialize (Hcol _ Et). destruct (tx_inputs (at_transaction t)) as [|o l] eqn:El; [done|].
  assert (o ∈ tx_inputs (at_transaction t)) as Ho by (rewrite El; set_solver).
  apply stxos_of_inputs in Ho as [ip Hip].
  assert (mp_spent_utxos p !! o = Some ip) as Hs
    by (apply Hp; exists (at_txid t), t'; split; [done|by rewrite Hcol]).
  rewrite Hnew in Hs; [done|]. apply list_elem_of_fmap. by exists (o, ip).
Qed.

(** Rows of the extended table are rows of the new transaction or old rows. *)
Lemma lookup_insert_exists_at {A} (m : gmap Txid A) id x i (P : A → Prop) :
  m !! id = None →
  (∃ y, <[id := x]> m !! i = Some y ∧ P y) ↔ (i = id ∧ P x) ∨ (∃ y, m !! i = Some y ∧ P y).
Proof.
  intros Hn. split.
  - intros (y & [[<- <-]|[Hne Hy]]%lookup_insert_Some & HP); eauto.
  - intros [[-> HP]|(y & Hy & HP)]; [exists x; by rewrite lookup_insert_eq|].
    exists y. rewrite lookup_insert_ne by congruence. done.
Qed.

Lemma put_ok p t q : pool_ok p → same_id p t → spending p t → put p t = Ok q → pool_ok q.
Proof.
  intros Hp Hsame [Hin Hctr] Hput. pose proof (put_fresh _ _ _ (pk_core _ Hp) Hsame Hin Hput) as Hfresh.
  destruct (put_tables _ _ _ Hput) as (Hsz & E1 & _ & E3 & _ & _ & E5). pose proof (pk_counter _ Hp).
  rewrite as_u64_small in E5 by (unfold is_u64; lia). simpl in E5.
  split; [by apply (put_core p t q); [apply Hp|..]|..]; unfold get_txids_relevant_to_address; rewrite ?E1, ?E3.
  - intros a i. pose proof (assoc_ids (at_txid t) (mp_address_to_txs p) (elements (relevant_addresses t)) a i) as Hu.
    unfold index_ids in Hu. rewrite Hu, elem_of_elements, lookup_insert_exists_at by done.
    pose proof (pk_addr _ Hp a i) as Ha. unfold get_txids_relevant_to_address in Ha. rewrite Ha. tauto.
  - apply assoc_no_empty, Hp.
  - intros i. rewrite lookup_insert_exists_at by done. rewrite <- (pk_order _ Hp i).
    destruct (is_trade_tx t); destruct E5 as [-> _]; [|naive_solver].
    split; [intros [n [[_ ->]|[_ ?]]%lookup_insert_Some]; eauto|].
    intros [[-> _]|[n Hn]]; [eexists; apply lookup_insert_eq|]. exists n.
    rewrite lookup_insert_ne; [done|]. intros <-. apply (pk_order_le _ Hp) in Hn. lia.
  - intros n m i. destruct (is_trade_tx t); destruct E5 as [-> _]; [|apply Hp].
    assert (∀ n, mp_trade_insertion_order p !! n ≠ Some (at_txid t)) as Hno.
    { intros k Hk. destruct (proj1 (pk_order _ Hp (at_txid t))) as (x & Hx & _); [by exists k|congruence]. }
    intros [[<- <-]|[? ?]]%lookup_insert_Some [[<- ?]|[? ?]]%lookup_insert_Some; [done| | |by eapply Hp];
      exfalso; naive_solver.
  - intros n i. destruct (is_trade_tx t); destruct E5 as [-> ->]; [|apply Hp]. simpl.
    intros [[<- <-]|[? Hn]]%lookup_insert_Some; [lia|]. apply (pk_order_le _ Hp) in Hn. lia.
  - pose proof (pk_counter _ Hp). destruct (is_trade_tx t); destruct E5 as [_ ->]; simpl; lia.
Qed.

(** ** Deleting with everything that depends on it *)

(** [b] spends an output of [a], both in the pool. *)
Definition depends p (a b : Txid) : Prop :=
  ∃ ta tb vout, mp_transactions p !! a = Some ta ∧ mp_transactions p !! b = Some tb ∧
    0 ≤ vout < Z.of_nat (length (tx_outputs (at_transaction ta))) ∧
    OpRegular a (as_u32 vout) ∈ tx_inputs (at_transaction tb).

Lemma elem_of_children p id t b :
  pool_core p →
  b ∈ children_of p id t ↔
  ∃ tb vout, 0 ≤ vout < Z.of_nat (length (tx_outputs (at_transaction t))) ∧
    mp_transactions p !! b = Some tb ∧ OpRegular id (as_u32 vout) ∈ tx_inputs (at_transaction tb).
Proof.
  intros Hp. unfold children_of. rewrite list_elem_of_omap. split.
  - intros (vout & Hv%elem_of_range & Hb).
    destruct (mp_spent_utxos p !! _) as [ip|] eqn:E; [|done]. apply (pk_spent _ Hp) in E as (i & tb & Htb & Hin).
    destruct (stxos_of_txid _ _ _ Hin) as [vin ->]. injection Hb as <-.
    exists tb, vout. split_and!; try lia; [|by apply stxos_of_inputs; eauto].
    by rewrite <- (pk_id _ Hp _ _ Htb) in Htb.
  - intros (tb & vout & Hv & Htb & [ip Hin]%stxos_of_inputs). exists vout. rewrite elem_of_range. split; [done|].
    rewrite (proj2 (pk_spent _ Hp _ ip)) by eauto. destruct (stxos_of_txid _ _ _ Hin) as [vin ->].
    by rewrite <- (pk_id _ Hp _ _ Htb).
Qed.

Lemma sum_list_with_perm {A} (f : A → nat) l k : l ≡ₚ k → sum_list_with f l = sum_list_with f k.
Proof. induction 1; simpl; lia. Qed.

Lemma outputs_count_remove p id t :
  mp_transactions p !! id = Some t →
  outputs_count p = (length (tx_outputs (at_transaction t)) + outputs_count (remove_tx p id t))%nat.
Proof.
  intros Ht. destruct (remove_tx_tables p id t) as (E1 & _). unfold outputs_count. rewrite E1.
  pose proof (map_to_list_delete (mp_transactions p) id t Ht) as Hperm.
  by rewrite <- (sum_list_with_perm _ _ _ Hperm).
Qed.

Lemma length_omap {A B} (f : A → option B) l : (length (omap f l) <= length l)%nat.
Proof. induction l as [|x l IH]; simpl; [done|]. unfold omap in IH. destruct (f x); simpl; lia. Qed.

Lemma children_length p id t : (length (children_of p id t) <= length (tx_outputs (at_transaction t)))%nat.
Proof.
  unfold children_of. etrans; [apply length_omap|]. unfold range.
  rewrite length_map, length_seq. lia.
Qed.

(** The loop started for [root] in the pool [p0]: what has left the pool depends
    on the root, and what depends on something that left is gone or waiting. *)
Record deleting p0 (root : Txid) p (pending : list Txid) : Prop := {
  dl_ok : pool_core p;
  dl_sub : mp_transactions p ⊆ mp_transactions p0;
  dl_gone id : is_Some (mp_transactions p0 !! id) → mp_transactions p !! id = None → rtc (depends p0) root id;
  dl_closed a b : depends p0 a b → mp_transactions p !! a = None → mp_transactions p !! b = None ∨ b ∈ pending;
  dl_pending b : b ∈ pending → rtc (depends p0) root b;
  dl_root : mp_transactions p !! root = None ∨ root ∈ pending
}.

Lemma deleting_absent p0 root p id pending :
  mp_transactions p !! id = None → deleting p0 root p (id :: pending) → deleting p0 root p pending.
Proof.
  intros Hn [H1 H2 H3 H4 H5 H6]. split; [done..| | |].
  - intros a b Hab Ha. destruct (H4 a b Hab Ha) as [?|[->|?]%elem_of_cons]; auto.
  - set_solver.
  - destruct H6 as [?|[->|?]%elem_of_cons]; auto.
Qed.

Lemma deleting_step p0 root p id t pending :
  mp_transactions p !! id = Some t → deleting p0 root p (id :: pending) →
  deleting p0 root (remove_tx p id t) (pending ++ children_of (remove_tx p id t) id t).
Proof.
  intros Ht [H1 H2 H3 H4 H5 H6]. destruct (remove_tx_tables p id t) as (E1 & _).
  pose proof (remove_tx_core _ _ _ H1 Ht) as Hok.
  assert (mp_transactions p0 !! id = Some t) as Ht0 by (by eapply lookup_weaken).
  split; rewrite ?E1; [done| | | | |].
  - etrans; [apply delete_subseteq|done].
  - intros i Hi [<-|Hn]%lookup_delete_None; [apply H5; set_solver|auto].
  - intros a b Hab Ha. destruct (decide (b = id)) as [->|Hne]; [left; apply lookup_delete_eq|].
    rewrite lookup_delete_ne by done. apply lookup_delete_None in Ha as [<-|Ha].
    + destruct Hab as (ta & tb & vout & Hta & Htb & Hv & Hin). assert (ta = t) as -> by congruence.
      destruct (mp_transactions p !! b) as [tb'|] eqn:Eb; [right|by left].
      assert (tb' = tb) as -> by (eapply lookup_weaken in Eb; [|done]; congruence).
      apply elem_of_app. right. apply elem_of_children; [done|]. exists tb, vout.
      split; [done|]. split; [by rewrite E1, lookup_delete_ne|done].
    + destruct (H4 a b Hab Ha) as [?|[?|?]%elem_of_cons]; [by left|done|right; set_solver].
  - intros b [Hb|Hb]%elem_of_app; [apply H5; set_solver|].
    apply elem_of_children in Hb as (tb & vout & Hv & Htb & Hin); [|done].
    rewrite E1 in Htb. apply lookup_delete_Some in Htb as [_ Htb].
    apply (rtc_r _ id); [apply H5; set_solver|]. exists t, tb, vout.
    split; [done|]. split; [by eapply lookup_weaken|done].
  - destruct H6 as [Hr|[->|Hr]%elem_of_cons].
    + left. apply lookup_delete_None. by right.
    + left. apply lookup_delete_eq.
    + right. set_solver.
Qed.

Lemma delete_loop_spec p0 root fuel p pending :
  deleting p0 root p pending → (length pending + outputs_count p <= fuel)%nat →
  ∃ q, delete_loop fuel p pending = Some q ∧ deleting p0 root q [].
Proof.
  revert p pending. induction fuel as [|fuel IH]; intros p [|id pending] Hd Hf; simpl in *; try lia.
  - eauto.
  - eauto.
  - destruct (mp_transactions p !! id) as [t|] eqn:Et.
    + apply IH; [by apply deleting_step|]. rewrite length_app.
      pose proof (outputs_count_remove _ _ _ Et). pose proof (children_length (remove_tx p id t) id t). lia.
    + apply IH; [by eapply deleting_absent|lia].
Qed.

(** What is left when the loop ends. *)
Lemma deleting_done p0 root q id t :
  deleting p0 root q [] →
  mp_transactions q !! id = Some t ↔ mp_transactions p0 !! id = Some t ∧ ¬ rtc (depends p0) root id.
Proof.
  intros [H1 H2 H3 H4 H5 H6]. split.
  - intros Ht. split; [by eapply lookup_weaken|]. intros Hr.
    assert (∀ a b, rtc (depends p0) a b → mp_transactions q !! a = None → mp_transactions q !! b = None) as Hclosed.
    { intros a b Hab. induction Hab as [|a b c Hab _ IH]; [done|]. intros Ha. apply IH.
      destruct (H4 a b Hab Ha) as [|Hb]; [done|set_solver]. }
    destruct H6 as [H6|H6]; [|set_solver]. rewrite (Hclosed _ _ Hr H6) in Ht. done.
  - intros [Ht Hn]. destruct (mp_transactions q !! id) as [t'|] eqn:E.
    + eapply lookup_weaken in E; [|done]. congruence.
    + exfalso. apply Hn, H3; [by rewrite Ht|done].
Qed.

(** What removing a transaction keeps, the loop keeps. *)
Lemma delete_loop_keeps (I : MemPool → Prop) fuel p pending q :
  (∀ p id t, I p → mp_transactions p !! id = Some t → I (remove_tx p id t)) →
  I p → delete_loop fuel p pending = Some q → I q.
Proof.
  intros Hrem. revert p pending. induction fuel as [|fuel IH]; intros p [|id pending] Hp; simpl; try (by intros [= <-]).
  destruct (mp_transactions p !! id) as [t|] eqn:Et; intros H; [|by eapply IH].
  eapply IH; [|exact H]. by apply Hrem.
Qed.

Lemma delete_tx_spec p root :
  pool_core p →
  ∃ q, delete_tx p root = Some q ∧ pool_core q ∧ (pool_ok p → pool_ok q) ∧
    (∀ id t, mp_transactions q !! id = Some t ↔
             mp_transactions p !! id = Some t ∧ ¬ rtc (depends p) root id) ∧
    (∀ id, is_Some (mp_transactions p !! id) → mp_transactions q !! id = None → rtc (depends p) root id).
Proof.
  intros Hp. destruct (delete_loop_spec p root (S (outputs_count p)) p [root]) as (q & Hq & Hd).
  - split; try done; try set_solver.
    + intros id [? ?] ?. congruence.
    + intros a b (ta & _ & _ & Ha & _) Hn. congruence.
  - simpl. lia.
  - exists q. split_and!; [done|apply Hd| |intros; by apply deleting_done|apply Hd].
    intros Hok. eapply (delete_loop_keeps pool_ok); [exact remove_tx_ok|exact Hok|exact Hq].
Qed.

Lemma delete_tx_ok p root :
  pool_ok p →
  ∃ q, delete_tx p root = Some q ∧ pool_ok q ∧
    (∀ id t, mp_transactions q !! id = Some t ↔
             mp_transactions p !! id = Some t ∧ ¬ rtc (depends p) root id) ∧
    (∀ id, is_Some (mp_transactions p !! id) → mp_transactions q !! id = None → rtc (depends p) root id).
Proof. intros Hp. destruct (delete_tx_spec p root Hp) as (q & ? & _ & Hok & ? & ?). eauto 6. Qed.

(** The claims of a smaller pool are among those of the larger one. *)
Lemma claims_mono p q d id :
  pool_ok p → pool_ok q → mp_transactions q ⊆ mp_transactions p →
  mp_pending_decision_claims q !! d = Some id → mp_pending_decision_claims p !! d = Some id.
Proof.
  intros Hp Hq Hsub (t & Ht & Hd)%(pk_claims _ Hq). apply (pk_claims _ Hp). exists t. split; [|done].
  by eapply lookup_weaken.
Qed.

(** *** Evicting rivals of a confirmed claim *)

(** What the eviction has done after the decisions [seen]. *)
Record evicting p (confirmed : Txid) (seen : list bytes) (acc : MemPool * list Txid) : Prop := {
  ev_ok : pool_ok acc.1;
  ev_sub : mp_transactions acc.1 ⊆ mp_transactions p;
  ev_clear d id : d ∈ seen → mp_pending_decision_claims acc.1 !! d = Some id → id = confirmed;
  ev_rival z : z ∈ acc.2 → z ≠ confirmed ∧ ∃ d, d ∈ seen ∧ mp_pending_decision_claims p !! d = Some z;
  ev_gone id t : mp_transactions p !! id = Some t → mp_transactions acc.1 !! id = None →
                 ∃ z, z ∈ acc.2 ∧ rtc (depends p) z id
}.

Lemma depends_mono p q a b : mp_transactions q ⊆ mp_transactions p → depends q a b → depends p a b.
Proof.
  intros Hsub (ta & tb & v & Ha & Hb & Hv & Hin). exists ta, tb, v.
  split; [by eapply lookup_weaken|]. split; [by eapply lookup_weaken|done].
Qed.

Lemma evict_step_spec p confirmed seen acc d :
  pool_ok p → evicting p confirmed seen acc →
  ∃ acc', evict_step confirmed acc d = Some acc' ∧ evicting p confirmed (seen ++ [d]) acc'.
Proof.
  intros Hp [H1 H2 H3 H4 H5]. destruct acc as [p1 ev]. unfold evict_step. simpl in *.
  destruct (mp_pending_decision_claims p1 !! d) as [z|] eqn:Ez; [case_bool_decide as Hz|].
  - subst z. eexists. split; [done|]. split; simpl; try done; [set_solver|].
    intros z Hz. destruct (H4 z Hz) as (? & d' & ? & ?). set_solver.
  - destruct (delete_tx_ok p1 z H1) as (q & Hq & Hok & Hspec & Hgone). rewrite Hq. simpl. eexists. split; [done|].
    assert (mp_transactions q ⊆ mp_transactions p1) as Hsub.
    { apply map_subseteq_spec. intros i x Hx. by apply Hspec in Hx as [? _]. }
    split; simpl; [done|by etrans| | |].
    + intros d' i [Hd| ->%list_elem_of_singleton]%elem_of_app Hi; [by apply (H3 d'); [|eapply (claims_mono p1 q)]|].
      exfalso. assert (i = z) as -> by (pose proof (claims_mono p1 q d i H1 Hok Hsub Hi); congruence).
      apply (pk_claims _ Hok) in Hi as (t & Ht & _). apply Hspec in Ht as [_ Ht]. by apply Ht.
    + intros z' [Hz'| ->%list_elem_of_singleton]%elem_of_app.
      * destruct (H4 z' Hz') as (? & d' & ? & ?). set_solver.
      * split; [done|]. exists d. split; [set_solver|]. by eapply (claims_mono p p1).
    + intros id t Ht Hn. destruct (mp_transactions p1 !! id) as [t'|] eqn:E1.
      * exists z. split; [set_solver|].
        eapply rtc_subrel; [|apply Hgone; [by rewrite E1|done]]. intros ? ?. by apply depends_mono.
      * destruct (H5 id t Ht E1) as (z' & ? & ?). exists z'. split; [set_solver|done].
  - eexists. split; [done|]. split; simpl; try done.
    + intros d' i [Hd| ->%list_elem_of_singleton]%elem_of_app Hi; [by eapply H3|congruence].
    + intros z Hz. destruct (H4 z Hz) as (? & d' & ? & ?). set_solver.
Qed.

Lemma evict_loop_spec p confirmed ds seen acc :
  pool_ok p → evicting p confirmed seen acc →
  ∃ acc', evict_loop confirmed acc ds = Some acc' ∧ evicting p confirmed (seen ++ ds) acc'.
Proof.
  intros Hp. revert seen acc. induction ds as [|d ds IH]; intros seen acc He; simpl.
  - rewrite app_nil_r. eauto.
  - destruct (evict_step_spec p confirmed seen acc d Hp He) as (acc1 & -> & He1). simpl.
    destruct (IH _ _ He1) as (acc2 & -> & He2). rewrite <- app_assoc in He2. eauto.
Qed.

Lemma evict_ok p tx :
  pool_ok p →
  ∃ q evicted, evict_decision_claim_conflicts p tx = Some (q, evicted) ∧
    evicting p (tx_txid tx) (get_claimed_decision_ids tx) (q, evicted).
Proof.
  intros Hp. destruct (evict_loop_spec p (tx_txid tx) (get_claimed_decision_ids tx) [] (p, []) Hp) as ([q ev] & ? & ?).
  - split; simpl; try done; try set_solver.
  - eauto.
Qed.

Lemma try_map_is_ok {E A B} (f : A → result E B) l :
  (∀ a, a ∈ l → is_ok (f a) = true) → is_ok (try_map f l) = true.
Proof.
  induction l as [|a l IH]; intros H; simpl; [done|].
  assert (is_ok (f a) = true) as Ha by (apply H; set_solver). destruct (f a); [|done].
  assert (is_ok (try_map f l) = true) as Hl by (apply IH; set_solver). by destruct (try_map f l).
Qed.

(** *** Deletions of any pool *)

Lemma evict_loop_core confirmed acc ds acc' :
  pool_core acc.1 → evict_loop confirmed acc ds = Some acc' → pool_core acc'.1.
Proof.
  revert acc. induction ds as [|d ds IH]; intros acc Hp; simpl; [by intros [= <-]|].
  destruct (evict_step confirmed acc d) as [acc1|] eqn:E; simpl; [|done]. apply IH. revert E. unfold evict_step.
  destruct (_ !! d); [|by intros [= <-]]. case_bool_decide; [by intros [= <-]|].
  destruct (delete_tx acc.1 _) as [p|] eqn:Ed; simpl; [|done]. intros [= <-].
  eapply (delete_loop_keeps pool_core); [exact remove_tx_core|exact Hp|exact Ed].
Qed.

(** ** Reachable pools *)

(** The operations of the pool.  [must] is what is asked of a transaction that is
    added, besides that its id is not taken by a different one; a failed [put]
    has no effect, since its callers drop the write transaction. *)
Inductive pool_step (must : MemPool → AuthorizedTransaction → Prop) : MemPool → MemPool → Prop :=
| step_put p t q : same_id p t → must p t → put p t = Ok q → pool_step must p q
| step_delete p id q : delete_tx p id = Some q → pool_step must p q
| step_evict p tx q evicted : evict_decision_claim_conflicts p tx = Some (q, evicted) → pool_step must p q.

(** Nothing is asked. *)
Definition any_tx p t : Prop := True.

Lemma pool_step_core must p q : pool_step must p q → pool_core p → pool_core q.
Proof.
  intros Hs Hp. destruct Hs as [p t q Ha _ Hput|p id q Hd|p tx q ev He].
  - by eapply put_core.
  - eapply (delete_loop_keeps pool_core); [exact remove_tx_core|exact Hp|exact Hd].
  - by apply (evict_loop_core _ (p, []) _ (q, ev) Hp) in He.
Qed.

Lemma pool_step_ok p q : pool_step spending p q → pool_ok p → pool_ok q.
Proof.
  intros Hs Hp. destruct Hs as [p t q Ha Hm Hput|p id q Hd|p tx q ev He].
  - by eapply put_ok.
  - destruct (delete_tx_ok p id Hp) as (q' & Hq & Hok & _). congruence.
  - destruct (evict_ok p tx Hp) as (q' & ev' & Hq & Hev). rewrite Hq in He. injection He as <- <-. apply Hev.
Qed.

Lemma reachable_pool_core must p : rtc (pool_step must) MemPool_new p → pool_core p.
Proof.
  revert p. apply rtc_ind_r; [apply pool_core_new|]. intros p q _ Hs Hp. by eapply pool_step_core.
Qed.

Lemma spending_any p q : rtc (pool_step spending) p q → rtc (pool_step any_tx) p q.
Proof.
  apply rtc_subrel. intros x y [? t ? Hs _ Hp|? id ? Hd|? tx ? ev He];
    [by apply (step_put _ _ t)|by apply (step_delete _ _ id)|by apply (step_evict _ _ tx _ ev)].
Qed.

Lemma reachable_pool_ok p : rtc (pool_step spending) MemPool_new p → pool_ok p.
Proof.
  revert p. apply rtc_ind_r; [apply pool_ok_new|]. intros p q _ Hs Hp. by eapply pool_step_ok.
Qed.

(** *** Building a pool *)

Definition add_tx p t : MemPool := run (put p t) p.

(** What a step needs, as a test. *)
Definition can_add p t : bool :=
  bool_decide (tx_inputs (at_transaction t) ≠ []) && bool_decide (is_Some (mp_transactions p !! at_txid t) → False) &&
  (default 0 (mp_trade_order_counter p) <? U64_MAX) && is_ok (put p t).

Fixpoint can_add_all p (l : list AuthorizedTransaction) : bool :=
  match l with [] => true | t :: l => can_add p t && can_add_all (add_tx p t) l end.

Lemma add_tx_step p t : can_add p t = true → pool_step spending p (add_tx p t).
Proof.
  unfold can_add, add_tx. intros [[[H1 H2]%andb_true_iff H3]%andb_true_iff H4]%andb_true_iff. to_prop.
  apply (step_put _ p t); [|split; [done|lia]|by destruct (put p t)].
  intros t' Ht'. destruct H2. by exists t'.
Qed.

Lemma add_all_steps l p : can_add_all p l = true → rtc (pool_step spending) p (foldl add_tx p l).
Proof.
  revert p. induction l as [|t l IH]; intros p; simpl; [intros _; apply rtc_refl|].
  intros [Ht Hl]%andb_true_iff. eapply rtc_l; [by apply add_tx_step|by apply IH].
Qed.

(** C4: the indexes of the pool are exact.  In every pool the operations produce
    from the empty one, ids being those of distinct transactions, the tables of
    spent outputs and of pending claims describe exactly the transactions of the
    pool, no two of which spend the same output or claim the same decision, and
    it holds at most 5000.  If every transaction added spends something, and
    fewer than 2^64 trades were added, the address index and the order of trades
    are exact too: no listing is empty, trades have distinct numbers up to the
    counter, and no address look-up fails. *)
Theorem mempool_invariant p :
  (rtc (pool_step any_tx) MemPool_new p →
   pool_core p ∧
   (∀ i j t u o, mp_transactions p !! i = Some t → mp_transactions p !! j = Some u →
      o ∈ tx_inputs (at_transaction t) → o ∈ tx_inputs (at_transaction u) → i = j) ∧
   (∀ i j t u d, mp_transactions p !! i = Some t → mp_transactions p !! j = Some u →
      d ∈ get_claimed_decision_ids (at_transaction t) → d ∈ get_claimed_decision_ids (at_transaction u) → i = j)) ∧
  (rtc (pool_step spending) MemPool_new p →
   pool_ok p ∧ ∀ a, is_ok (get_txs_relevant_to_address p a) = true).
Proof.
  split.
  - intros Hr%reachable_pool_core. split_and!; [done| |].
    + intros i j t u o Ht Hu [ip Hi]%stxos_of_inputs [ip' Hi']%stxos_of_inputs.
      assert (mp_spent_utxos p !! o = Some ip) as H1 by (apply Hr; eauto).
      assert (mp_spent_utxos p !! o = Some ip') as H2 by (apply Hr; eauto).
      destruct (stxos_of_txid _ _ _ Hi) as [v ->]. destruct (stxos_of_txid _ _ _ Hi') as [v' ->].
      rewrite H1 in H2. injection H2 as H2 _. by rewrite <- (pk_id _ Hr _ _ Ht), <- (pk_id _ Hr _ _ Hu).
    + intros i j t u d Ht Hu Hi Hj.
      assert (mp_pending_decision_claims p !! d = Some i) as H1 by (apply Hr; eauto).
      assert (mp_pending_decision_claims p !! d = Some j) as H2 by (apply Hr; eauto). congruence.
  - intros Hr%reachable_pool_ok. split; [done|]. intros a. apply try_map_is_ok. intros id Hid%elem_of_elements.
    apply (pk_addr _ Hr) in Hid as (t & -> & _). done.
Qed.

(** C27: deleting a transaction ends, and removes it with exactly those
    transactions of the pool that depend on it, directly or through others;
    the indexes that described the pool describe what is left. *)
Theorem mempool_delete_exact p root :
  rtc (pool_step any_tx) MemPool_new p →
  ∃ q, delete_tx p root = Some q ∧ pool_core q ∧ (pool_ok p → pool_ok q) ∧
    (∀ id t, mp_transactions q !! id = Some t ↔
             mp_transactions p !! id = Some t ∧ ¬ rtc (depends p) root id).
Proof.
  intros Hr%reachable_pool_core. destruct (delete_tx_spec p root Hr) as (q & ? & ? & ? & ? & _). eauto 6.
Qed.

(** A confirmed transaction leaves no rival claim.  The eviction ends; no
    other transaction of the pool then claims one of its decisions, the
    transactions it reports claimed one, and what left the pool depends on a
    reported one. *)
Theorem mempool_evict_exact p tx :
  rtc (pool_step spending) MemPool_new p →
  ∃ q evicted, evict_decision_claim_conflicts p tx = Some (q, evicted) ∧ pool_ok q ∧
    (∀ id t d, mp_transactions q !! id = Some t → d ∈ get_claimed_decision_ids tx →
               d ∈ get_claimed_decision_ids (at_transaction t) → id = tx_txid tx) ∧
    (∀ z, z ∈ evicted → ∃ t d, mp_transactions p !! z = Some t ∧ z ≠ tx_txid tx ∧
               d ∈ get_claimed_decision_ids tx ∧ d ∈ get_claimed_decision_ids (at_transaction t)) ∧
    mp_transactions q ⊆ mp_transactions p ∧
    (∀ id t, mp_transactions p !! id = Some t → mp_transactions q !! id = None →
             ∃ z, z ∈ evicted ∧ rtc (depends p) z id).
Proof.
  intros Hr%reachable_pool_ok. destruct (evict_ok p tx Hr) as (q & ev & Hq & [H1 H2 H3 H4 H5]). simpl in *.
  exists q, ev. split_and!; try done.
  - intros id t d Ht Hd Hdt. apply (H3 d); [done|]. apply H1. eauto.
  - intros z Hz. destruct (H4 z Hz) as (Hne & d & Hd & (t & Ht & Hdt)%(pk_claims _ Hr)). eauto 6.
Qed.
End Pool.
