(* ===== verification/Node.v ===== *)
(** * The node

    Model of the parts of src/lib/node that change what the node stores: the
    connection and disconnection of the tip, the change to another chain and the
    loops that follow the mainchain (net_task.rs), and the submission of
    transactions, the choice of transactions for a block and the queries of
    mod.rs.  The node is its archive, its state, the tables of the two-way peg
    and its pool of transactions; a function that fails before it commits leaves
    them as they were, which a [result] says by carrying no node. *)

From stdpp Require Import base numbers list strings gmap.
From S2P Require Import Prelude Float64 SafeMath MarketMath StateErrors DecisionTypes Markets Transactions.
From S2P Require Import TwoWayPeg Bodies Archive ArchiveStore Voting MarketsDb TxPow Authorization StateModel.
From S2P Require Import Validation BlockUpdate BlockConnect Mempool.

Record Node : Type := {
  n_archive : Archive;
  n_state : State;
  n_peg : PegState;
  n_mempool : MemPool
}.

(** [NodePanicked] stands for a failed assertion, an index out of range and a
    loop that runs longer than its bound. *)
Inductive NodeError : Type :=
| NodeArchive (e : ArchiveError)
| NodeState (e : Error)
| NodeMemPool (e : MempoolError)
| NodeMalformedBody
| ReorgInvariant (reason : string)
| NodeAmountOverflow
| NodeAmountUnderflow
| NotInCurrentChain (block_hash : BlockHash)
| NodeNet
| NodePanicked (what : string).

Definition of_archive {A} (c : result ArchiveError A) : result NodeError A := map_err NodeArchive c.
Definition of_state {A} (c : result Error A) : result NodeError A := map_err NodeState c.
Definition of_mempool {A} (c : result MempoolError A) : result NodeError A := map_err NodeMemPool c.
Definition of_loop {A} (o : option A) : result NodeError A := ok_or o (NodePanicked "loop bound").

Definition set_n_archive (n : Node) a : Node :=
  {| n_archive := a; n_state := n_state n; n_peg := n_peg n; n_mempool := n_mempool n |}.
Definition set_n_state (n : Node) s : Node :=
  {| n_archive := n_archive n; n_state := s; n_peg := n_peg n; n_mempool := n_mempool n |}.
Definition set_n_mempool (n : Node) p : Node :=
  {| n_archive := n_archive n; n_state := n_state n; n_peg := n_peg n; n_mempool := p |}.

(** The two-way peg works on the tip height and the outputs of the state. *)
Definition peg_view (n : Node) : PegState :=
  {| pg_height := s_height (n_state n); pg_tables := s_utxos (n_state n);
     pending_withdrawal_bundle := pending_withdrawal_bundle (n_peg n);
     latest_failed_withdrawal_bundle := latest_failed_withdrawal_bundle (n_peg n);
     withdrawal_bundles := withdrawal_bundles (n_peg n); block_index_events := block_index_events (n_peg n);
     deposit_blocks := deposit_blocks (n_peg n);
     withdrawal_bundle_event_blocks := withdrawal_bundle_event_blocks (n_peg n) |}.
Definition set_n_peg (n : Node) (p : PegState) : Node :=
  {| n_archive := n_archive n; n_state := set_s_utxos (n_state n) (pg_tables p); n_peg := p; n_mempool := n_mempool n |}.

Section Node.
Context {AM : BitcoinAmount} {MT : MainchainTx} {BH : BodyHashes} {AE : ArchiveEnv} {PH : PowHashes}
  {VE : ValidationEnv} {BE : BlockEnv}.
Implicit Types (n : Node).

(** ** Connecting and disconnecting the tip *)

(** A confirmed transaction leaves the pool, with the rivals of its claims. *)
Definition confirm_tx (p : MemPool) (tx : Transaction) : result NodeError MemPool :=
  '(p, _) ← of_loop (evict_decision_claim_conflicts p tx);
  of_loop (delete_tx p (tx_txid tx)).

Definition connect_tip_ n (header : Header) (body : Body) (data : TwoWayPegData) : result NodeError Node :=
  let block_hash := header_hash header in
  prevalidated ← of_state (prevalidate (n_state n) (n_archive n) header body);
  bmm_main_hash ← of_archive (get_best_main_verification (n_archive n) block_hash);
  info ← of_archive (get_main_header_info (n_archive n) bmm_main_hash);
  s ← of_state (connect_prevalidated (n_state n) header body (mh_timestamp info) prevalidated);
  let n := set_n_state n s in
  p ← of_state (connect (peg_view n) data);
  let n := set_n_peg n p in
  a ← of_archive (put_header (n_archive n) header);
  a ← of_archive (put_body a block_hash body);
  pool ← try_fold confirm_tx (n_mempool n) (transactions body);
  Ok (set_n_mempool (set_n_archive n a) pool).

(** The last entry, from the end, applied below a height. *)
Definition last_applied (m : gmap Z (bytes * Z)) (height : Z) : option (bytes * Z) :=
  head (filter (fun e => e.2 < height) (map snd (rev (db_iter u32_key_cmp m)))).

(** The mainchain block after which the tip's peg data start. *)
Definition peg_start_block n (height : Z) : result NodeError (option MainBlockHash) :=
  match last_applied (deposit_blocks (n_peg n)) height,
        last_applied (withdrawal_bundle_event_blocks (n_peg n)) height with
  | None, None => Ok None
  | Some (block_hash, _), None | None, Some (block_hash, _) => Ok (Some block_hash)
  | Some (deposit_block, deposit_height), Some (event_block, event_height) =>
      match deposit_height ?= event_height with
      | Lt => Ok (Some event_block)
      | Gt => Ok (Some deposit_block)
      | Eq =>
          r ← of_archive (is_main_descendant (n_archive n) event_block deposit_block);
          if (r : bool) then Ok (Some event_block) else
          r ← of_archive (is_main_descendant (n_archive n) deposit_block event_block);
          if (r : bool) then Ok (Some deposit_block) else Err (NodePanicked "assert is_main_descendant")
      end
  end.

(** The mainchain ancestors before [stop], newest first, with their events; the
    lazy iterator reads the information of each block before the next header. *)
Fixpoint main_infos_until (fuel : nat) (a : Archive) (stop : option MainBlockHash) (h : MainBlockHash)
  : result ArchiveError (list (MainBlockHash * list BlockEvent)) :=
  match fuel with
  | O => Err LoopBound
  | S fuel =>
      if bool_decide (h = all_zeros) then Ok [] else
      info ← get_main_header_info a h;
      if bool_decide (stop = Some (mh_block_hash info)) then Ok [] else
      block ← get_main_block_info a (mh_block_hash info);
      l ← main_infos_until fuel a stop (mh_prev_block_hash info);
      Ok ((mh_block_hash info, bi_events block) :: l)
  end.
Definition main_infos (a : Archive) (stop : option MainBlockHash) (h : MainBlockHash)
  : result ArchiveError (list (MainBlockHash * list BlockEvent)) :=
  main_infos_until (S (S (size (main_header_infos a)))) a stop h.

(** The peg data of the tip, oldest block first, without the blocks that have
    no events. *)
Definition tip_peg_data n (height : Z) (header : Header) : result NodeError TwoWayPegData :=
  start ← peg_start_block n height;
  infos ← of_archive (main_infos (n_archive n) start (prev_main_hash header));
  Ok (rev (filter (fun e => e.2 ≠ []) infos)).

(** A transaction of the disconnected block returns to the pool. *)
Definition restore_tx (p : MemPool) (t : AuthorizedTransaction) : result NodeError MemPool :=
  match put p t with
  | Ok p => Ok p
  | Err (DecisionAlreadyClaimedInMempool _) =>
      '(p, _) ← of_loop (evict_decision_claim_conflicts p (at_transaction t));
      of_mempool (put p t)
  | Err e => Err (NodeMemPool e)
  end.

Definition disconnect_tip_ n : result NodeError Node :=
  tip ← of_state (ok_or (s_tip (n_state n)) NoTip);
  header ← of_archive (get_header (n_archive n) tip);
  body ← of_archive (get_body (n_archive n) tip);
  height ← of_state (ok_or (s_height (n_state n)) NoTip);
  data ← tip_peg_data n height header;
  p ← of_state (disconnect (peg_view n) data);
  let n := set_n_peg n p in
  s ← of_state (disconnect_tip (n_state n) header body);
  let n := set_n_state n s in
  ts ← map_err (fun _ => NodeMalformedBody) (authorized_transactions body);
  pool ← try_fold restore_tx (n_mempool n) (rev ts);
  Ok (set_n_mempool n pool).

Definition is_fatal_reorg_error (e : NodeError) : bool :=
  match e with NodeState _ => false | _ => true end.

Fixpoint disconnect_times (k : nat) n : result NodeError Node :=
  match k with
  | O => Ok n
  | S k => n ← disconnect_tip_ n; disconnect_times k n
  end.

(** ** Changing to another chain *)

Definition block_at (a : Archive) (h : BlockHash) : result ArchiveError (Header * Body) :=
  header ← get_header a h;
  body ← get_body a h;
  Ok (header, body).

(** The bodies from [block_hash] back to the common ancestor, newest first. *)
Fixpoint blocks_until (fuel : nat) (a : Archive) (common_ancestor block_hash : option BlockHash)
  : result ArchiveError (list (Header * Body)) :=
  match fuel with
  | O => Err LoopBound
  | S fuel =>
      o ← ancestor_headers_next a block_hash;
      match o with
      | None => Ok []
      | Some ((h, _), rest) =>
          if bool_decide (common_ancestor = Some h) then Ok [] else
          b ← block_at a h;
          l ← blocks_until fuel a common_ancestor rest;
          Ok (b :: l)
      end
  end.

Definition blocks_to_apply (a : Archive) (common_ancestor : option BlockHash) (new_tip : BlockHash)
  : result ArchiveError (list (Header * Body)) :=
  head ← block_at a new_tip;
  tail ← (match prev_side_hash head.1 with
          | Some prev => blocks_until (S (S (size (headers a)))) a common_ancestor (Some prev)
          | None => Ok []
          end);
  Ok (head :: tail).

(** The mainchain blocks up to the one a block commits to, oldest first, and
    those left. *)
Fixpoint fill_2wpd (stop : MainBlockHash) (batch : TwoWayPegData) : TwoWayPegData * TwoWayPegData :=
  match batch with
  | [] => ([], [])
  | b :: batch =>
      if bool_decide (b.1 = stop) then ([b], batch) else
      let '(filled, rest) := fill_2wpd stop batch in
      (b :: filled, rest)
  end.

(** One block of the loop; an error of [connect_tip_] keeps the block. *)
Definition apply_one (tip : option Tip) (acc : Node * TwoWayPegData) (block : Header * Body)
  : result (NodeError * option (Header * Body)) (Node * TwoWayPegData) :=
  let '(n, batch) := acc in
  let '(data, batch) := fill_2wpd (prev_main_hash block.1) batch in
  n ← map_err (fun e => (e, Some block)) (connect_tip_ n block.1 block.2 data);
  _ ← map_err (fun e => (e, None))
        (new_tip_hash ← ok_or (s_tip (n_state n)) (ReorgInvariant "missing tip after connect");
         main ← of_archive (get_best_main_verification (n_archive n) new_tip_hash);
         match tip with
         | Some tip => _ ← of_archive (better_tip (n_archive n) tip
                             {| tip_block_hash := new_tip_hash; tip_main_block_hash := main |}); Ok tt
         | None => Ok tt
         end);
  Ok (n, batch).

Definition current_tip n : result NodeError (option Tip) :=
  match s_tip (n_state n) with
  | None => Ok None
  | Some h => main ← of_archive (get_best_main_verification (n_archive n) h);
              Ok (Some {| tip_block_hash := h; tip_main_block_hash := main |})
  end.

Definition common_ancestor_of n (tip : option Tip) (new_tip : Tip) : result NodeError (option BlockHash) :=
  match tip with
  | Some tip => of_archive (last_common_ancestor (n_archive n) (tip_block_hash tip) (tip_block_hash new_tip))
  | None => Ok None
  end.

Definition disconnect_count n (common_ancestor : option BlockHash) : result NodeError nat :=
  match s_height (n_state n) with
  | None => Ok 0%nat
  | Some height =>
      match common_ancestor with
      | Some h => common ← of_archive (get_height (n_archive n) h); Ok (Z.to_nat (as_u32 (height - common)))
      | None => Ok (Z.to_nat (as_u32 (height + 1)))
      end
  end.

(** The mainchain blocks since the common ancestor, oldest first: the source
    pops them from the end. *)
Definition peg_data_batch n (common_ancestor : option BlockHash) (head : Header) : result NodeError TwoWayPegData :=
  stop ← (match common_ancestor with
          | Some h => header ← of_archive (get_header (n_archive n) h); Ok (Some (prev_main_hash header))
          | None => Ok None
          end);
  infos ← of_archive (main_infos (n_archive n) stop (prev_main_hash head));
  Ok (rev infos).

(** The write transaction of a re-org; [None] when none is attempted. *)
Definition reorg_txn n (new_tip : Tip) : result (NodeError * option (Header * Body)) (option Node) :=
  let lift {A} (c : result NodeError A) : result (NodeError * option (Header * Body)) A :=
    map_err (fun e => (e, None)) c in
  tip ← lift (current_tip n);
  better ← lift (match tip with
                 | Some tip => r ← of_archive (better_tip (n_archive n) tip new_tip);
                               Ok (bool_decide (r = Some new_tip))
                 | None => Ok true
                 end);
  if negb better then Ok None else
  common_ancestor ← lift (common_ancestor_of n tip new_tip);
  blocks ← lift (of_archive (blocks_to_apply (n_archive n) common_ancestor (tip_block_hash new_tip)));
  count ← lift (disconnect_count n common_ancestor);
  n ← lift (disconnect_times count n);
  _ ← lift (bail_if (negb (bool_decide (s_tip (n_state n) = common_ancestor)))
              (ReorgInvariant "after disconnect, tip is not the common ancestor"));
  batch ← lift (match blocks with
                | (head, _) :: _ => peg_data_batch n common_ancestor head
                | [] => Ok []
                end);
  '(n, _) ← try_fold (apply_one tip) (n, batch) (rev blocks);
  _ ← lift (bail_if (negb (bool_decide (s_tip (n_state n) = Some (tip_block_hash new_tip))))
              (ReorgInvariant "after reorg, tip is not the expected one"));
  Ok (Some n).

(** [reorg_to_tip]: one commit for the whole re-org; when a stored body turns
    out invalid it alone is discarded, in a transaction of its own. *)
Definition reorg_to_tip n (new_tip : Tip) : result NodeError bool * Node :=
  match reorg_txn n new_tip with
  | Ok (Some n') => (Ok true, n')
  | Ok None => (Ok false, n)
  | Err (e, Some (header, body)) =>
      if is_fatal_reorg_error e then (Err e, n) else
      match delete_body (n_archive n) (header_hash header) body with
      | Ok a => (Err e, set_n_archive n a)
      | Err e' => (Err (NodeArchive e'), n)
      end
  | Err (e, None) => (Err e, n)
  end.

(** ** Following the mainchain *)

(** [while let Some(tip) = tip && !sidechain_tips.contains_key(tip)]; every pass
    lowers the height, which bounds the loop. *)
Fixpoint leave_lost_tips (fuel : nat) n : result NodeError Node :=
  match s_tip (n_state n) with
  | Some tip =>
      if bool_decide (is_Some (sidechain_tips (side_tips (n_archive n)) !! tip)) then Ok n else
      match fuel with
      | O => Err (NodePanicked "loop bound")
      | S fuel => n ← disconnect_tip_ n; leave_lost_tips fuel n
      end
  | None => Ok n
  end.
Definition tip_fuel n : nat := S (Z.to_nat (default 0 (s_height (n_state n)))).

Definition handle_mainchain_block_event n : result NodeError unit * Node :=
  match leave_lost_tips (tip_fuel n) n with
  | Err e => (Err e, n)
  | Ok n =>
      match best_side_tip (side_tips (n_archive n)) with
      | Some (info, h) =>
          let '(r, n) := reorg_to_tip n {| tip_block_hash := h; tip_main_block_hash := ti_main_block_hash info |} in
          (_ ← r; Ok tt, n)
      | None => (Ok tt, n)
      end
  end.

(** A tip reported ready: the re-org it leads to, and whether the network task
    goes on, which only a fatal error stops. *)
Definition handle_new_tip_ready n (new_tip : Tip) : result NodeError bool * Node :=
  match
    (if negb (bool_decide (is_Some (sidechain_tips (side_tips (n_archive n)) !! tip_block_hash new_tip)))
     then Ok false
     else of_archive (is_main_descendant (n_archive n) (tip_main_block_hash new_tip)
                        (mainchain_tip_hash (mainchain_tip (side_tips (n_archive n))))))
  with
  | Err e => (Err e, n)
  | Ok false => (Ok false, n)
  | Ok true =>
      let '(r, n) := reorg_to_tip n new_tip in
      (match r with
       | Err e => if is_fatal_reorg_error e then Err e else Ok false
       | Ok applied => Ok applied
       end, n)
  end.

(** [Node::invalidate_block]. *)
Fixpoint disconnect_to (fuel : nat) (target : option BlockHash) n : result NodeError Node :=
  if bool_decide (s_tip (n_state n) = target) then Ok n else
  match fuel with
  | O => Err (NodePanicked "loop bound")
  | S fuel => n ← disconnect_tip_ n; disconnect_to fuel target n
  end.

Definition node_invalidate_block n (block_hash : BlockHash) : result NodeError Node :=
  match try_get_header (n_archive n) block_hash with
  | None => Ok n
  | Some header =>
      in_active_chain ← (match s_tip (n_state n) with
                         | Some tip => of_archive (is_descendant (n_archive n) block_hash tip)
                         | None => Ok false
                         end);
      n ← (if (in_active_chain : bool) then disconnect_to (S (tip_fuel n)) (prev_side_hash header) n else Ok n);
      a ← of_archive (invalidate_block (n_archive n) block_hash);
      Ok (set_n_archive n a)
  end.

End Node.
