(* ===== verification/NodeTxs.v ===== *)
(** * The node's transactions

    Model of the parts of src/lib/node/mod.rs around the pool: the submission of
    a transaction, the shares its trades are expected to leave, the choice of
    transactions for a block, the queries, and the block the application builds
    from the choice (src/app/app.rs). *)

From stdpp Require Import base numbers list strings gmap.
From S2P Require Import Prelude Float64 SafeMath MarketMath StateErrors DecisionTypes Markets Transactions.
From S2P Require Import TwoWayPeg Bodies Archive ArchiveStore Voting MarketsDb TxPow Authorization StateModel.
From S2P Require Import Validation BlockUpdate BlockConnect Mempool Node Wallet.

(** [Authorized<FilledTransaction>]. *)
Record AuthorizedFilled : Type := {
  af_transaction : FilledTransaction;
  af_authorizations : list Authorization;
  af_actor_proof : option Authorization
}.

Definition fill_authorized_transaction (t : UtxoTables) (a : AuthorizedTransaction) : result Error AuthorizedFilled :=
  tx ← fill_transaction t (at_transaction a);
  Ok {| af_transaction := tx; af_authorizations := at_authorizations a; af_actor_proof := at_actor_proof a |}.

(** The conversion back, for the body of a block. *)
Definition unfill (f : AuthorizedFilled) : AuthorizedTransaction :=
  {| at_transaction := transaction (af_transaction f); at_authorizations := af_authorizations f;
     at_actor_proof := af_actor_proof f |}.

Section NodeTxs.
Context {AM : BitcoinAmount} {MT : MainchainTx} {BH : BodyHashes} {AE : ArchiveEnv} {PH : PowHashes}
  {VE : ValidationEnv} {BE : BlockEnv}.
Implicit Types (n : Node).

(** ** Submitting a transaction *)

Definition indexed {A} (c : result Error A) : result NodeError A :=
  map_err (fun _ => NodePanicked "outcome index out of range") c.

(** [update_mempool_buy] and [update_mempool_sell], which differ in the sign. *)
Definition update_mempool_shares n (id : MarketId) (outcome_index delta : Z) : result NodeError Node :=
  m ← of_state (ok_or (get_market (s_markets (n_state n)) id) (InvalidDecisionId "Market does not exist"));
  if negb (bool_decide (m_market_state m = Trading)) then Ok n else
  _ ← of_state (bail_if (Z.of_nat (length (m_shares m)) <=? outcome_index)
                  (InvalidDecisionId "Outcome index exceeds market outcomes"));
  let current_shares := default (m_shares m) (mempool_shares (s_markets (n_state n)) !! id) in
  new_shares ← indexed (add_at current_shares outcome_index delta);
  _ ← of_state (map_err (fun _ => InvalidDecisionId "Invalid LMSR state after mempool update")
                  (Trading.validate_lmsr_parameters f64_exp f64_ln (market_beta m) new_shares));
  Ok (set_n_state n (set_s_markets (n_state n) (put_mempool_shares (s_markets (n_state n)) id new_shares))).

Definition update_mempool_buy n (id : MarketId) (outcome_index shares_to_buy : Z) : result NodeError Node :=
  update_mempool_shares n id outcome_index shares_to_buy.
Definition update_mempool_sell n (id : MarketId) (outcome_index shares_to_sell : Z) : result NodeError Node :=
  update_mempool_shares n id outcome_index (- shares_to_sell).

Definition submit_transaction n (t : AuthorizedTransaction) : result NodeError Node :=
  _ ← of_state (validate_transaction (n_state n) (n_archive n) t);
  p ← of_mempool (put (n_mempool n) t);
  let n := set_n_mempool n p in
  match tx_data (at_transaction t) with
  | Some (Trade market_id outcome_index shares _ _ _ _) =>
      if 0 <? shares then update_mempool_buy n market_id outcome_index shares
      else update_mempool_sell n market_id outcome_index (as_i64 (Z.abs shares))
  | _ => Ok n
  end.

Definition remove_from_mempool n (id : Txid) : result NodeError Node :=
  p ← of_loop (delete_tx (n_mempool n) id); Ok (set_n_mempool n p).

(** ** Choosing transactions for a block *)

Definition slippage_error {E A} (reason : string) (c : result E A) : result NodeError A :=
  map_err (fun _ => NodeState (InvalidTransaction reason)) c.

(** The shares of a market after the trades chosen so far. *)
Definition cumulative_shares (states : gmap MarketId (list Z)) (m : Market) (id : MarketId) : list Z :=
  default (m_shares m) (states !! id).

Definition buy_within_limit (m : Market) (t : TradeView) (current new : list Z) : result NodeError bool :=
  base_cost ← slippage_error "LMSR calculation failed"
                (Trading.calculate_update_cost f64_exp f64_ln current new (market_beta m));
  cost ← slippage_error "Buy cost calculation failed" (Trading.calculate_buy_cost base_cost (m_trading_fee m));
  Ok (negb (tv_limit_sats t <? Trading.total_cost_sats cost)).

Definition sell_within_limit (m : Market) (t : TradeView) (current new : list Z) : result NodeError bool :=
  gross ← slippage_error "LMSR calculation failed"
            (Trading.calculate_update_cost f64_exp f64_ln new current (market_beta m));
  sell ← slippage_error "Sell proceeds calculation failed"
           (Trading.calculate_sell_proceeds gross (m_trading_fee m));
  Ok (negb ((0 <? tv_limit_sats t) && (Trading.net_proceeds_sats sell <? tv_limit_sats t))).

(** Whether a transaction passes, and the shares its trade leaves. *)
Definition check_trade_slippage n (tx : FilledTransaction) (states : gmap MarketId (list Z))
  : result NodeError (bool * gmap MarketId (list Z)) :=
  match trade tx with
  | None => Ok (true, states)
  | Some t =>
      match get_market (s_markets (n_state n)) (tv_market_id t) with
      | None => Ok (false, states)
      | Some m =>
          let owned := owned_shares (s_markets (n_state n)) (tv_trader t) (tv_market_id t) (tv_outcome_index t) in
          if negb (is_buy t) && ((owned <? 0) || (owned <? shares_abs t)) then Ok (false, states) else
          let current := cumulative_shares states m (tv_market_id t) in
          new ← indexed (add_at current (tv_outcome_index t) (tv_shares t));
          pass ← (if is_buy t then buy_within_limit m t current new else sell_within_limit m t current new);
          if (pass : bool) then Ok (true, <[tv_market_id t := new]> states) else Ok (false, states)
      end
  end.

(** The fee of a transaction chosen. *)
Definition template_fee (tx : FilledTransaction) : result NodeError Z :=
  if is_trade tx then Ok Trading.TRADE_MINER_FEE_SATS else
  value_in ← ok_or (amount_checked_sum (map get_bitcoin_value (spent_utxos tx))) NodeAmountOverflow;
  value_out ← ok_or (amount_checked_sum (map output_bitcoin_value (tx_outputs (transaction tx)))) NodeAmountOverflow;
  ok_or (checked_sub value_in value_out) NodeAmountOverflow.

Record Selection : Type := {
  sel_mempool : MemPool;
  sel_fee : Z;
  sel_returned : list AuthorizedFilled;
  sel_spent_utxos : gset OutPoint;
  sel_states : gmap MarketId (list Z)
}.

Definition drop_tx (sel : Selection) (id : Txid) : result NodeError Selection :=
  p ← of_loop (delete_tx (sel_mempool sel) id);
  Ok {| sel_mempool := p; sel_fee := sel_fee sel; sel_returned := sel_returned sel;
        sel_spent_utxos := sel_spent_utxos sel; sel_states := sel_states sel |}.

(** One transaction of the loop.  A conflicting or unfillable one leaves the
    pool; one that fails the slippage check stays for a later block. *)
Definition select_tx n (sel : Selection) (t : AuthorizedTransaction) : result NodeError Selection :=
  let inputs : gset OutPoint := list_to_set (tx_inputs (at_transaction t)) in
  if negb (bool_decide (sel_spent_utxos sel ## inputs)) then drop_tx sel (at_txid t) else
  match fill_authorized_transaction (s_utxos (n_state n)) t with
  | Err _ => drop_tx sel (at_txid t)
  | Ok filled =>
      match check_trade_slippage n (af_transaction filled) (sel_states sel) with
      | Err (NodePanicked what) => Err (NodePanicked what)
      | Err _ | Ok (false, _) => Ok sel
      | Ok (true, states) =>
          tx_fee ← template_fee (af_transaction filled);
          fee ← ok_or (amount_checked_add (sel_fee sel) tx_fee) NodeAmountUnderflow;
          Ok {| sel_mempool := sel_mempool sel; sel_fee := fee; sel_returned := sel_returned sel ++ [filled];
                sel_spent_utxos := inputs ∪ sel_spent_utxos sel; sel_states := states |}
      end
  end.

(** Transactions that are no trades come first, then trades in the order of
    their insertion numbers. *)
Definition combined_txs (p : MemPool) (number : nat) : list AuthorizedTransaction :=
  let trade_txs := take_trades_ordered p in
  let trade_txids := map at_txid trade_txs in
  let non_trade_txs := filter (fun t => at_txid t ∉ trade_txids) (take_txs p number) in
  take number (non_trade_txs ++ trade_txs).

Definition get_transactions n (number : nat) : result NodeError (list AuthorizedFilled * Z * Node) :=
  sel ← try_fold (select_tx n)
          {| sel_mempool := n_mempool n; sel_fee := 0; sel_returned := []; sel_spent_utxos := ∅; sel_states := ∅ |}
          (combined_txs (n_mempool n) number);
  Ok (sel_returned sel, sel_fee sel, set_n_mempool n (sel_mempool sel)).

(** ** The block built from the choice *)

(** The parent of the block: the tip when the mainchain tip descends from the
    block it commits to, otherwise the first ancestor that commits before the
    fork of the mainchain. *)
Definition template_parent (a : Archive) (tip : option BlockHash) (prev_main : MainBlockHash)
  : result ArchiveError (option BlockHash) :=
  match tip with
  | None => Ok None
  | Some tip_hash =>
      tip_header ← get_header a tip_hash;
      common ← last_common_main_ancestor a prev_main (prev_main_hash tip_header);
      if bool_decide (common = prev_main_hash tip_header) then Ok (Some tip_hash) else
      find_map_ancestor (S (S (size (headers a)))) a (fun h =>
        header ← get_header a h;
        if bool_decide (prev_main_hash header = common) then Ok None else
        d ← is_main_descendant a (prev_main_hash header) common;
        Ok (if (d : bool) then Some h else None)) (Some tip_hash)
  end.

Definition template_coinbase (address : Address) (height tx_fees : Z) : Coinbase :=
  {| cb_memo := [];
     cb_outputs := if (0 <? tx_fees) || (height =? 0) then [Output_new address (CBitcoin tx_fees)] else [] |}.

Definition template_block (txs : list AuthorizedFilled) (cb : Coinbase) (prev_side : option BlockHash)
  (prev_main : MainBlockHash) : Header * Body :=
  ({| merkle_root := compute_merkle_root cb (map (fun f => transaction (af_transaction f)) txs);
      prev_side_hash := prev_side; prev_main_hash := prev_main |},
   Body_new (map unfill txs) cb).

(** ** Queries *)

Definition get_spent_utxos n (l : list OutPoint) : list (OutPoint * SpentOutput) :=
  omap (fun o => pair o <$> (stxos (s_utxos (n_state n)) !! from_outpoint o)) l.

Definition get_unconfirmed_spent_utxos n (l : list OutPoint) : list (OutPoint * InPoint) :=
  omap (fun o => pair o <$> (mp_spent_utxos (n_mempool n) !! o)) l.

(** [HashMap::extend] for each address. *)
Definition get_unconfirmed_utxos_by_addresses n (addresses : gset Address) : result NodeError (gmap OutPoint Output) :=
  try_fold (fun res a => m ← of_mempool (get_unconfirmed_utxos (n_mempool n) a); Ok (m ∪ res)) ∅ (elements addresses).

Definition get_utxos_with_mempool_status n (addresses : gset Address)
  : gmap OutPoint FilledOutput * list (OutPoint * InPoint) :=
  let utxos := get_utxos_by_addresses (s_utxos (n_state n)) addresses in
  (utxos, get_unconfirmed_spent_utxos n (map fst (map_to_list utxos))).

(** [ancestors(tip).nth(k)]. *)
Fixpoint nth_block (k : nat) (a : Archive) (h : option BlockHash) : result ArchiveError (option BlockHash) :=
  o ← ancestor_headers_next a h;
  match o with
  | None => Ok None
  | Some ((h, _), rest) => match k with O => Ok (Some h) | S k => nth_block k a rest end
  end.

Definition try_get_block_hash n (height : Z) : result NodeError (option BlockHash) :=
  match s_tip (n_state n), s_height (n_state n) with
  | Some tip, Some tip_height =>
      if height <=? tip_height
      then of_archive (nth_block (Z.to_nat (tip_height - height)) (n_archive n) (Some tip))
      else Ok None
  | _, _ => Ok None
  end.

Definition get_block_index_events n (block_hash : BlockHash) : result NodeError BlockIndexEvents :=
  height ← of_archive (get_height (n_archive n) block_hash);
  o ← try_get_block_hash n height;
  _ ← bail_if (negb (bool_decide (o = Some block_hash))) (NotInCurrentChain block_hash);
  Ok (default {| ev_deposits := []; ev_bundle_spends := [] |} (block_index_events (n_peg n) !! height)).

Definition get_bmm_inclusions n (block_hash : BlockHash) : list MainBlockHash :=
  map fst (filter (fun e : MainBlockHash * BmmResult => e.2 = Verified)
             (results_iter (get_bmm_results (n_archive n) block_hash))).

Definition tx_index_error : NodeError := NodeState (InvalidTransaction "tx index out of bounds in block").

Definition try_get_transaction n (id : Txid) : result NodeError (option Transaction) :=
  match head (db_iter bytes_cmp (get_tx_inclusions (n_archive n) id)) with
  | Some (block_hash, txin) =>
      body ← of_archive (get_body (n_archive n) block_hash);
      tx ← ok_or (transactions body !! Z.to_nat txin) tx_index_error;
      Ok (Some tx)
  | None => Ok (at_transaction <$> (mp_transactions (n_mempool n) !! id))
  end.

(** The first inclusion on the chain of the tip, in the order of block hashes. *)
Fixpoint find_inclusion (a : Archive) (tip : option BlockHash) (l : list (BlockHash * Z))
  : result ArchiveError (option (BlockHash * Z)) :=
  match l with
  | [] => Ok None
  | e :: l =>
      found ← (match tip with Some tip => is_descendant a e.1 tip | None => Ok true end);
      if (found : bool) then Ok (Some e) else find_inclusion a tip l
  end.

Definition filled_from_stxos n (t : AuthorizedTransaction) : result NodeError AuthorizedFilled :=
  match fill_transaction_from_stxos tx_txid (s_utxos (n_state n)) (at_transaction t) with
  | None => Err (NodePanicked "assert inpoint")
  | Some r => tx ← of_state r;
      Ok {| af_transaction := tx; af_authorizations := at_authorizations t; af_actor_proof := at_actor_proof t |}
  end.

Definition try_get_filled_transaction n (id : Txid)
  : result NodeError (option (AuthorizedFilled * option (BlockHash * Z))) :=
  o ← of_archive (find_inclusion (n_archive n) (s_tip (n_state n))
                    (db_iter bytes_cmp (get_tx_inclusions (n_archive n) id)));
  match o with
  | Some (block_hash, idx) =>
      body ← of_archive (get_body (n_archive n) block_hash);
      ts ← map_err (fun _ => NodeMalformedBody) (authorized_transactions body);
      t ← ok_or (ts !! Z.to_nat idx) tx_index_error;
      filled ← filled_from_stxos n t;
      Ok (Some (filled, Some (block_hash, idx)))
  | None =>
      match mp_transactions (n_mempool n) !! id with
      | None => Ok None
      | Some t =>
          match fill_authorized_transaction (s_utxos (n_state n)) t with
          | Ok filled => Ok (Some (filled, None))
          | Err (NoUtxo _) => Ok None
          | Err e => Err (NodeState e)
          end
      end
  end.

End NodeTxs.
