(* ===== verification/NodeFacts.v ===== *)
(** * Facts about the node

    The choice of transactions for a block, the change to another chain, the
    pool across both, and the cases in which a block the node builds is not
    accepted. *)

From stdpp Require Import base numbers list strings gmap relations.
From S2P Require Import Prelude Float64 SafeMath MarketMath StateErrors DecisionTypes Markets Transactions.
From S2P Require Import TransactionsFacts TwoWayPeg Bodies Archive ArchiveStore Voting MarketsDb TxPow Authorization.
From S2P Require Import StateModel Validation BlockUpdate BlockConnect Mempool MempoolFacts Node NodeTxs.

Lemma enumerate_app {A} i (l k : list A) :
  enumerate i (l ++ k) = enumerate i l ++ enumerate (i + Z.of_nat (length l)) k.
Proof.
  revert i. induction l as [|a l IH]; intros i; cbn [enumerate app length]; [f_equal; lia|].
  rewrite IH. do 3 f_equal. lia.
Qed.

Section NodeFacts.
Context {AM : BitcoinAmount} {MT : MainchainTx} {BH : BodyHashes} {AE : ArchiveEnv} {PH : PowHashes}
  {VE : ValidationEnv} {BE : BlockEnv}.
Implicit Types (n : Node) (sel : Selection).

(** ** Fees *)

Definition amplifies (f : AuthorizedFilled) : bool := is_amplify_beta (af_transaction f).

(** Outside deposits the fee of the choice is the fee validation counts. *)
Lemma template_fee_miner tx v :
  is_amplify_beta tx = false → template_fee tx = Ok v → miner_fee tx = Ok v.
Proof.
  unfold template_fee, miner_fee, bitcoin_fee, spent_bitcoin_value, bitcoin_value_out, checked_sub.
  intros ->. destruct (is_trade tx); simpl; [by intros [= ->]|].
  destruct (amount_checked_sum (map get_bitcoin_value _)) as [vin|]; simpl; [|done].
  destruct (amount_checked_sum (map output_bitcoin_value _)) as [vout|]; simpl; [|done].
  destruct (Z.leb_spec vout vin); simpl; [|done]. intros [= <-].
  destruct (Z.ltb_spec vin vout); [lia|done].
Qed.

Definition inputs_of_filled (f : AuthorizedFilled) : list OutPoint := tx_inputs (transaction (af_transaction f)).

Record choice_ok n (seen : list AuthorizedTransaction) sel : Prop := {
  ch_pool : pool_ok (sel_mempool sel);
  ch_spent o : o ∈ sel_spent_utxos sel ↔ ∃ f, f ∈ sel_returned sel ∧ o ∈ inputs_of_filled f;
  ch_disjoint i j f g o : sel_returned sel !! i = Some f → sel_returned sel !! j = Some g →
    o ∈ inputs_of_filled f → o ∈ inputs_of_filled g → i = j;
  ch_filled f : f ∈ sel_returned sel →
    fill_transaction (s_utxos (n_state n)) (transaction (af_transaction f)) = Ok (af_transaction f) ∧ unfill f ∈ seen;
  ch_length : (length (sel_returned sel) ≤ length seen)%nat;
  ch_fees : ∃ fees, Forall2 (fun f v => template_fee (af_transaction f) = Ok v) (sel_returned sel) fees ∧
    sel_fee sel = sumZ fees;
  ch_cover : existsb amplifies (sel_returned sel) = false →
    try_fold (add_fee ∅) 0 (enumerate 0 (map af_transaction (sel_returned sel))) = Ok (sel_fee sel)
}.

Lemma drop_tx_ok n seen sel t sel' :
  choice_ok n seen sel → drop_tx sel (at_txid t) = Ok sel' → choice_ok n (seen ++ [t]) sel'.
Proof.
  intros [H1 H2 H3 H4 H5 H6 H7]. unfold drop_tx.
  destruct (delete_tx_ok (sel_mempool sel) (at_txid t) H1) as (q & -> & Hq & _). simpl. intros [= <-].
  split; simpl; try done.
  - intros f Hf. destruct (H4 f Hf). split; [done|]. set_solver.
  - rewrite length_app. simpl. lia.
Qed.

Lemma fill_authorized_spec tables t f :
  fill_authorized_transaction tables t = Ok f →
  unfill f = t ∧ fill_transaction tables (transaction (af_transaction f)) = Ok (af_transaction f).
Proof.
  unfold fill_authorized_transaction, fill_transaction. intros H.
  destruct (try_map _ (tx_inputs (at_transaction t))) as [spent|] eqn:E; simpl in H; [|done].
  injection H as <-. simpl. rewrite E. split; [by destruct t|done].
Qed.

Lemma select_tx_ok n seen sel t sel' :
  choice_ok n seen sel → select_tx n sel t = Ok sel' → choice_ok n (seen ++ [t]) sel'.
Proof.
  intros Hc. unfold select_tx. case_bool_decide as Hdis; simpl; [|by apply drop_tx_ok].
  destruct (fill_authorized_transaction _ t) as [f|] eqn:Ef; [|by apply drop_tx_ok].
  apply fill_authorized_spec in Ef as [Hun Hfill].
  assert (choice_ok n (seen ++ [t]) sel) as Hstay.
  { destruct Hc as [H1 H2 H3 H4 H5 H6 H7]. split; try done.
    - intros g Hg. destruct (H4 g Hg). split; [done|set_solver].
    - rewrite length_app. simpl. lia. }
  destruct (check_trade_slippage n (af_transaction f) (sel_states sel)) as [[[] states]|[]]; try done;
    try (intros [= <-]; exact Hstay).
  destruct (template_fee (af_transaction f)) as [v|] eqn:Ev; simpl; [|done].
  destruct (amount_checked_add (sel_fee sel) v) as [fee|] eqn:Efee; simpl; [|done]. intros [= <-].
  assert (fee = sel_fee sel + v) as -> by (unfold amount_checked_add in Efee; case_match; by simplify_eq).
  assert (tx_inputs (at_transaction t) = inputs_of_filled f) as Hin by (by rewrite <- Hun).
  destruct Hc as [H1 H2 H3 H4 H5 (fees & Hfees & Hsum) H7]. split; simpl.
  - done.
  - intros o. rewrite Hin, elem_of_union, elem_of_list_to_set, H2. setoid_rewrite elem_of_app. set_solver.
  - assert (∀ i g o, sel_returned sel !! i = Some g → o ∈ inputs_of_filled g → o ∈ inputs_of_filled f → False) as Hno.
    { intros i g o Hg Hog Hof. apply (Hdis o); [|rewrite Hin; by apply elem_of_list_to_set].
      apply H2. exists g. split; [by eapply list_elem_of_lookup_2|done]. }
    intros i j g h o [[_ Hg]|[-> <-]]%lookup_snoc_Some [[_ Hh]|[-> <-]]%lookup_snoc_Some Hog Hoh.
    + by eapply H3.
    + by destruct (Hno i g o).
    + by destruct (Hno j h o).
    + done.
  - intros g [Hg| ->%list_elem_of_singleton]%elem_of_app; [destruct (H4 g Hg)|]; (split; [done|set_solver]).
  - rewrite !length_app. simpl. lia.
  - exists (fees ++ [v]). split; [by apply Forall2_app; [|constructor]|]. rewrite sumZ_app, Hsum. unfold sumZ. simpl. lia.
  - rewrite existsb_app. intros [Ha Hb]%orb_false_iff. rewrite map_app, enumerate_app, try_fold_app, H7 by done.
    simpl. unfold add_fee at 1. simpl. rewrite bool_decide_false by set_solver.
    rewrite (template_fee_miner _ v); [|simpl in Hb; by apply orb_false_iff in Hb as [? _]|done]. simpl.
    by rewrite Efee.
Qed.

Lemma combined_in_pool p number t :
  pool_ok p → t ∈ combined_txs p number → mp_transactions p !! at_txid t = Some t.
Proof.
  intros Hp Ht. unfold combined_txs in Ht. eapply elem_of_take in Ht as (i & Hi & _).
  apply list_elem_of_lookup_2 in Hi. apply elem_of_app in Hi as [[_ Ht]%list_elem_of_filter|Ht].
  - unfold take_txs, take_all in Ht. eapply elem_of_take in Ht as (j & Hj & _). apply list_elem_of_lookup_2 in Hj.
    apply list_elem_of_fmap in Hj as ([id u] & -> & Hu%elem_of_db_iter). simpl. by rewrite (pk_id _ Hp _ _ Hu).
  - unfold take_trades_ordered in Ht. apply list_elem_of_omap in Ht as ([k id] & _ & Hu). simpl in Hu.
    by rewrite (pk_id _ Hp _ _ Hu).
Qed.

Lemma get_transactions_ok n number txs fee n' :
  pool_ok (n_mempool n) → get_transactions n number = Ok (txs, fee, n') →
  ∃ sel, choice_ok n (combined_txs (n_mempool n) number) sel ∧ txs = sel_returned sel ∧ fee = sel_fee sel ∧
    n' = set_n_mempool n (sel_mempool sel).
Proof.
  intros Hp. unfold get_transactions. destruct (try_fold _ _ _) as [sel|] eqn:E; simpl; [|done].
  intros [= <- <- <-]. exists sel. split; [|done]. revert E. apply try_fold_inv.
  - split; simpl; try done; [set_solver|set_solver|]. by exists [].
  - intros seen c t c' Hc _. by apply select_tx_ok.
Qed.

(** C13: the transactions chosen for a block.  They are distinct members of the
    pool, at most as many as asked for, whose inputs are unspent in the state
    and no two of which spend the same output; the pool stays consistent and
    nothing else changes; and unless one deposits into a market, a coinbase that
    takes exactly the fee reported passes the check of fees, when connecting the
    block skips none of them. *)
Theorem template_sound n number txs fee n' :
  pool_ok (n_mempool n) → get_transactions n number = Ok (txs, fee, n') →
  (length txs ≤ number)%nat ∧
  (∀ f, f ∈ txs → mp_transactions (n_mempool n) !! at_txid (unfill f) = Some (unfill f) ∧
     fill_transaction (s_utxos (n_state n)) (transaction (af_transaction f)) = Ok (af_transaction f)) ∧
  (∀ i j f g o, txs !! i = Some f → txs !! j = Some g →
     o ∈ inputs_of_filled f → o ∈ inputs_of_filled g → i = j) ∧
  pool_ok (n_mempool n') ∧ n_state n' = n_state n ∧ n_archive n' = n_archive n ∧ n_peg n' = n_peg n ∧
  (existsb amplifies txs = false → validate_fees fee (map af_transaction txs) ∅ = Ok tt).
Proof.
  intros Hp Hg. destruct (get_transactions_ok n number txs fee n' Hp Hg) as (sel & [H1 H2 H3 H4 H5 H6 H7] & -> & -> & ->).
  split_and!; try done.
  - etrans; [exact H5|]. unfold combined_txs. rewrite length_take. lia.
  - intros f Hf. destruct (H4 f Hf) as [Hfill Hin]. split; [by eapply combined_in_pool|done].
  - intros Ha. unfold validate_fees. rewrite H7 by done. simpl. by rewrite Z.ltb_irrefl.
Qed.

(** ** Deposits into markets *)

Lemma template_fee_nonneg tx v : template_fee tx = Ok v → 0 ≤ v.
Proof.
  unfold template_fee, checked_sub, Trading.TRADE_MINER_FEE_SATS. destruct (is_trade tx); [intros [= <-]; lia|].
  destruct (amount_checked_sum (map get_bitcoin_value _)) as [vin|]; simpl; [|done].
  destruct (amount_checked_sum (map output_bitcoin_value _)) as [vout|]; simpl; [|done].
  destruct (Z.leb_spec vout vin); simpl; [|done]. intros [= <-]. lia.
Qed.

(** A deposit validation accepts: the choice counts all it spends as its fee. *)
Definition valid_deposit (s : State) (tx : FilledTransaction) : Prop :=
  ∃ actor a, amplify_beta tx = Some a ∧ is_u64 (ab_amount a) ∧
    validate_amplify_beta s (with_actor tx actor) = Ok tt.

Lemma deposit_fee s tx v :
  valid_deposit s tx → template_fee tx = Ok v → is_trade tx = false ∧ Trading.TRADE_MINER_FEE_SATS < v.
Proof.
  intros (actor & a & Ha & Hu & Hval). unfold validate_amplify_beta in Hval.
  assert (amplify_beta (with_actor tx actor) = Some a) as Ha' by done. rewrite Ha' in Hval. simpl in Hval.
  assert (is_trade tx = false) as Htr.
  { unfold amplify_beta, is_trade in *. destruct (data tx) as [[]|]; done. }
  unfold template_fee. rewrite Htr. intros Hv. split; [done|].
  unfold spent_bitcoin_value in Hval. inv_ok. to_prop.
  match goal with H : tx_outputs _ = [] |- _ => rewrite H in * end.
  unfold checked_add_u64, checked_sub, Trading.TRADE_MINER_FEE_SATS, is_u64 in *. simpl in *. simplify_eq.
  assert (∀ z, amount_checked_sum [] = Some z → z = 0) as Hnil by (by intros z [= <-]).
  repeat match goal with H : amount_checked_sum [] = Some _ |- _ => apply Hnil in H end.
  repeat case_match; simplify_eq; lia.
Qed.

Lemma miner_fee_le s f v w :
  (amplifies f = true → valid_deposit s (af_transaction f)) →
  template_fee (af_transaction f) = Ok v → miner_fee (af_transaction f) = Ok w →
  w ≤ v ∧ (amplifies f = true → w < v).
Proof.
  unfold amplifies. intros Hd Hv Hw. destruct (is_amplify_beta (af_transaction f)) eqn:Ea.
  - destruct (deposit_fee s _ v (Hd eq_refl) Hv) as [Htr Hlt]. unfold miner_fee in Hw.
    rewrite Ea, orb_true_r in Hw. injection Hw as <-. lia.
  - rewrite (template_fee_miner _ v Ea Hv) in Hw. injection Hw as <-. lia.
Qed.

(** What validation counts for the transactions chosen. *)
Lemma counted_fees s txs fees skipped total total' i :
  (∀ f, f ∈ txs → amplifies f = true → valid_deposit s (af_transaction f)) →
  Forall2 (fun f v => template_fee (af_transaction f) = Ok v) txs fees →
  try_fold (add_fee skipped) total (enumerate i (map af_transaction txs)) = Ok total' →
  total' ≤ total + sumZ fees ∧ (existsb amplifies txs = true → total' < total + sumZ fees).
Proof.
  intros Hd H. revert total i. induction H as [|f v txs fees Hv H IH]; intros total i; cbn [map enumerate try_fold].
  - intros [= <-]. unfold sumZ. simpl. split; [lia|done].
  - pose proof (template_fee_nonneg _ _ Hv). specialize (Hd f ltac:(set_solver)) as Hdf.
    specialize (IH ltac:(intros; apply Hd; set_solver)). unfold add_fee at 1. cbn [fst snd]. unfold sumZ in *. simpl.
    case_bool_decide.
    + intros Hf. destruct (IH _ _ Hf) as [Hle Hlt]. split; [lia|]. intros Ha. apply orb_true_iff in Ha as [Ha|Ha].
      * destruct (deposit_fee s _ v (Hdf Ha) Hv). unfold Trading.TRADE_MINER_FEE_SATS in *. lia.
      * specialize (Hlt Ha). lia.
    + destruct (miner_fee (af_transaction f)) as [w|] eqn:Ew; simpl; [|done].
      unfold amount_checked_add. destruct (Z.ltb_spec AMOUNT_MAX (total + w)); simpl; [done|].
      intros Hf. destruct (IH _ _ Hf) as [Hle Hlt]. destruct (miner_fee_le s f v w Hdf Hv Ew) as [Hw Hwlt].
      split; [lia|]. intros Ha. apply orb_true_iff in Ha as [Ha|Ha]; [specialize (Hwlt Ha)|specialize (Hlt Ha)]; lia.
Qed.

(** C38: a block with a deposit into a market cannot be mined from the node's own
    choice: the fee reported counts the deposit itself, of which validation
    leaves the miner only the fixed fee, so a block whose coinbase takes the fee
    reported connects to no state. *)
Theorem deposit_template_rejected n number txs fee n' :
  pool_ok (n_mempool n) → get_transactions n number = Ok (txs, fee, n') →
  (∀ f, f ∈ txs → amplifies f = true → valid_deposit (n_state n) (af_transaction f)) →
  existsb amplifies txs = true →
  ∀ s height r, connect_transactions s height fee (map af_transaction txs) ≠ Ok r.
Proof.
  intros Hp Hg Hd Ha s height r Hc.
  destruct (get_transactions_ok n number txs fee n' Hp Hg) as (sel & [_ _ _ _ _ (fees & Hfees & Hsum) _] & -> & -> & _).
  unfold connect_transactions in Hc. destruct (try_fold (apply_tx height) _ _) as [[[s1 u] skipped]|]; [|done].
  cbn [mbind result_bind] in Hc. destruct (validate_all_changes u s1); [|done]. cbn [mbind result_bind] in Hc.
  unfold validate_fees in Hc. destruct (try_fold (add_fee skipped) _ _) as [total|] eqn:Et; [|done].
  destruct (counted_fees (n_state n) _ fees skipped 0 total 0 Hd Hfees Et) as [_ Hlt].
  specialize (Hlt Ha). cbn [mbind result_bind] in Hc. rewrite Hsum in Hc.
  destruct (Z.ltb_spec total (sumZ fees)); [done|lia].
Qed.

(** ** Buys close to their limit *)

(** The first trade of a block in a market meets its confirmed state. *)
Lemma running_state_first id m :
  is_u64 (m_liquidity_base_sats m) → running_market_state id m StateUpdate_new = Ok (m_shares m, market_beta m).
Proof.
  intros Hl. unfold running_market_state, market_beta, amplify_of. simpl.
  unfold sat_add_u64. rewrite Z.add_0_r, Z.min_l by (unfold is_u64 in Hl; lia). done.
Qed.

(** The choice compares the cost of a buy with its limit, without the fee. *)
Lemma buy_passes_slippage n tx t m new base cost :
  trade tx = Some t → is_buy t = true → get_market (s_markets (n_state n)) (tv_market_id t) = Some m →
  add_at (m_shares m) (tv_outcome_index t) (tv_shares t) = Ok new →
  Trading.calculate_update_cost f64_exp f64_ln (m_shares m) new (market_beta m) = Ok base →
  Trading.calculate_buy_cost base (m_trading_fee m) = Ok cost → Trading.total_cost_sats cost ≤ tv_limit_sats t →
  check_trade_slippage n tx ∅ = Ok (true, <[tv_market_id t := new]> ∅).
Proof.
  intros Ht Hb Hm Hadd Hbase Hcost Hle.
  unfold check_trade_slippage, cumulative_shares. rewrite Ht, Hm, Hb, lookup_empty. simpl. rewrite Hadd. simpl.
  unfold buy_within_limit. rewrite Hbase. simpl. rewrite Hcost. simpl.
  destruct (Z.ltb_spec (tv_limit_sats t) (Trading.total_cost_sats cost)); [lia|done].
Qed.

(** Connecting the block adds the fee, and skips the buy. *)
Lemma tight_buy_skipped n tx tv m new base cost spent height :
  trade tx = Some tv → is_buy tv = true → get_market (s_markets (n_state n)) (tv_market_id tv) = Some m →
  allows_trading (m_market_state m) = true → is_u64 (m_liquidity_base_sats m) →
  add_at (m_shares m) (tv_outcome_index tv) (tv_shares tv) = Ok new → Forall (fun q => 0 ≤ q) new →
  spent_bitcoin_value tx = Ok spent →
  Trading.calculate_update_cost f64_exp f64_ln (m_shares m) new (market_beta m) = Ok base →
  Trading.calculate_buy_cost base (m_trading_fee m) = Ok cost → 0 ≤ Trading.total_cost_sats cost →
  tv_limit_sats tv < Trading.total_cost_sats cost + Trading.TRADE_MINER_FEE_SATS ≤ U64_MAX →
  try_fold (apply_tx height) (n_state n, StateUpdate_new, ∅) (enumerate 0 [tx])
    = Ok (n_state n, StateUpdate_new, {[0]}).
Proof.
  intros Ht Hb Hm Hal Hl Hadd Hpos Hsp Hbase Hcost Hc0 Hlim.
  assert (∃ a b c d e f g, tx_data (transaction tx) = Some (Trade a b c d e f g)) as Hdata.
  { unfold trade, data in *. destruct (tx_data (transaction tx)) as [[]|]; simplify_eq. by repeat eexists. }
  cbn [enumerate try_fold]. unfold apply_tx.
  destruct Hdata as (a & b & c & d & e & g & h & ->). unfold apply_trade. rewrite Ht. cbn [ok_or mbind result_bind].
  rewrite Hm. cbn [ok_or mbind result_bind]. rewrite Hal. cbn [negb bail_if mbind result_bind].
  rewrite running_state_first by done. cbn [mbind result_bind]. rewrite Hadd. cbn [mbind result_bind].
  assert (match new !! Z.to_nat (tv_outcome_index tv) with Some q => q <? 0 | None => false end = false) as ->.
  { destruct (new !! _) as [q|] eqn:Eq; [|done]. apply list_elem_of_lookup_2 in Eq. rewrite Forall_forall in Hpos.
    apply Z.ltb_ge. by apply Hpos. }
  cbn [bail_if mbind result_bind]. rewrite Hsp. cbn [map_err mbind result_bind].
  rewrite Hb. unfold apply_buy, lmsr_cost. rewrite Hbase. cbn [map_err mbind result_bind]. rewrite Hcost.
  cbn [map_err mbind result_bind]. rewrite as_u64_small by (unfold is_u64, Trading.TRADE_MINER_FEE_SATS in *; lia).
  destruct (Z.ltb_spec (tv_limit_sats tv) (Trading.total_cost_sats cost + Trading.TRADE_MINER_FEE_SATS)); [|lia].
  cbn [mbind result_bind]. by rewrite (right_id_L ∅ (∪)).
Qed.

(** C39: a buy whose cost is within its limit, but not with the miner's fee added.
    In a market that trades, when it is the only candidate of the pool, it is
    chosen with the fixed miner fee reported; connecting a block of it skips it;
    and a block of it whose coinbase takes the fee reported is refused. *)
Theorem tight_buy_rejected n number t f tv m new base cost spent height :
  let tx := af_transaction f in
  combined_txs (n_mempool n) number = [t] → fill_authorized_transaction (s_utxos (n_state n)) t = Ok f →
  trade tx = Some tv → is_buy tv = true → get_market (s_markets (n_state n)) (tv_market_id tv) = Some m →
  allows_trading (m_market_state m) = true → is_u64 (m_liquidity_base_sats m) →
  add_at (m_shares m) (tv_outcome_index tv) (tv_shares tv) = Ok new → Forall (fun q => 0 ≤ q) new →
  spent_bitcoin_value tx = Ok spent →
  Trading.calculate_update_cost f64_exp f64_ln (m_shares m) new (market_beta m) = Ok base →
  Trading.calculate_buy_cost base (m_trading_fee m) = Ok cost →
  0 ≤ Trading.total_cost_sats cost ≤ tv_limit_sats tv →
  tv_limit_sats tv < Trading.total_cost_sats cost + Trading.TRADE_MINER_FEE_SATS ≤ U64_MAX →  Trading.TRADE_MINER_FEE_SATS ≤ AMOUNT_MAX →
  get_transactions n number = Ok ([f], Trading.TRADE_MINER_FEE_SATS, n) ∧
  try_fold (apply_tx height) (n_state n, StateUpdate_new, ∅) (enumerate 0 [tx])
    = Ok (n_state n, StateUpdate_new, {[0]}) ∧
  connect_transactions (n_state n) height Trading.TRADE_MINER_FEE_SATS [tx] = Err NotEnoughFees.
Proof.
  intros tx Hone Hfill Ht Hb Hm Hal Hl Hadd Hpos Hsp Hbase Hcost [Hc0 Hc1] Hlim Hmax.
  assert (is_trade tx = true) as Htr.
  { unfold trade, is_trade, data in *. by destruct (tx_data (transaction tx)) as [[]|]. }
  assert (try_fold (apply_tx height) (n_state n, StateUpdate_new, ∅) (enumerate 0 [tx])
          = Ok (n_state n, StateUpdate_new, {[0]})) as Hskip by (by eapply tight_buy_skipped).
  split_and!; [|done|].
  - unfold get_transactions. rewrite Hone. cbn [try_fold]. unfold select_tx.
    rewrite bool_decide_true by apply disjoint_empty_l. cbn [negb]. rewrite Hfill. fold tx.
    cbn [sel_states]. rewrite (buy_passes_slippage n tx tv m new base cost) by done.
    unfold template_fee. rewrite Htr. cbn [mbind result_bind sel_fee]. unfold amount_checked_add. rewrite Z.add_0_l.
    destruct (Z.ltb_spec AMOUNT_MAX Trading.TRADE_MINER_FEE_SATS); [lia|]. by destruct n.
  - unfold connect_transactions. rewrite Hskip. cbn [mbind result_bind validate_all_changes].
    unfold validate_fees. cbn [enumerate try_fold]. unfold add_fee. cbn [fst]. by rewrite bool_decide_true by set_solver.
Qed.

(** ** Re-orgs *)

(** Take a computation that succeeds apart. *)
Ltac split_ok H :=
  repeat match type of H with
  | (mbind _ ?c) = _ => destruct c as [?|[? ?]] eqn:?; cbn [mbind result_bind] in H; [|try discriminate H]
  | (if ?b then _ else _) = _ => destruct b eqn:?; try discriminate H
  | (let '(_, _) := ?x in _) = _ => destruct x
  end.

Lemma lifted {A} (c : result NodeError A) e b :
  map_err (fun e => (e, @None (Header * Body))) c = Err (e, Some b) → False.
Proof. by destruct c. Qed.

Lemma apply_one_error tip n batch block e b :
  apply_one tip (n, batch) block = Err (e, Some b) ↔
  b = block ∧ connect_tip_ n block.1 block.2 (fill_2wpd (prev_main_hash block.1) batch).1 = Err e.
Proof.
  unfold apply_one. destruct (fill_2wpd _ _) as [data rest]. cbn [fst].
  destruct (connect_tip_ _ _ _ _) as [n'|]; cbn [map_err mbind result_bind].
  - split; [|by intros [_ [=]]].
    destruct (map_err (fun e => (e, None)) _) as [|[e' o]] eqn:E; cbn [mbind result_bind]; [done|].
    intros [= -> ->]. by apply lifted in E.
  - split; [by intros [= -> <-]|by intros [-> [= ->]]].
Qed.

(** The block the loop stops at: the blocks before it were applied, and the
    state they lead to refuses it. *)
Lemma apply_blocks_error tip n batch blocks e b :
  try_fold (apply_one tip) (n, batch) blocks = Err (e, Some b) ↔
  ∃ before after m rest, blocks = before ++ b :: after ∧
    try_fold (apply_one tip) (n, batch) before = Ok (m, rest) ∧
    connect_tip_ m b.1 b.2 (fill_2wpd (prev_main_hash b.1) rest).1 = Err e.
Proof.
  split.
  - revert n batch. induction blocks as [|x blocks IH]; intros n batch; cbn [try_fold]; [done|].
    destruct (apply_one tip (n, batch) x) as [[m rest]|[e' o]] eqn:E.
    + intros (before & after & m' & rest' & -> & Hf & Hc)%IH.
      exists (x :: before), after, m', rest'. cbn [app try_fold]. by rewrite E.
    + intros [= -> ->]. apply apply_one_error in E as [-> Hc]. by exists [], blocks, n, batch.
  - intros (before & after & m & rest & -> & Hf & Hc). rewrite try_fold_app, Hf. cbn [mbind result_bind try_fold].
    assert (apply_one tip (m, rest) b = Err (e, Some b)) as -> by (by apply apply_one_error). done.
Qed.

(** A re-org from [n] to [new_tip], the better tip, gets to the block [b] on the
    way from the last common ancestor, in the state [m], which refuses it with
    the error [e]. *)
Definition reorg_refuses n (new_tip : Tip) (m : Node) (b : Header * Body) (e : NodeError) : Prop :=
  ∃ tip common blocks count n1 batch before after rest,
    current_tip n = Ok tip ∧ (∀ t, tip = Some t → better_tip (n_archive n) t new_tip = Ok (Some new_tip)) ∧
    common_ancestor_of n tip new_tip = Ok common ∧
    blocks_to_apply (n_archive n) common (tip_block_hash new_tip) = Ok blocks ∧
    disconnect_count n common = Ok count ∧ disconnect_times count n = Ok n1 ∧ s_tip (n_state n1) = common ∧
    match blocks with (head, _) :: _ => peg_data_batch n1 common head | [] => Ok [] end = Ok batch ∧
    rev blocks = before ++ b :: after ∧ try_fold (apply_one tip) (n1, batch) before = Ok (m, rest) ∧
    connect_tip_ m b.1 b.2 (fill_2wpd (prev_main_hash b.1) rest).1 = Err e.

(** What the transaction of a re-org commits, and the body it reports. *)
Lemma reorg_txn_commits n new_tip n' :
  reorg_txn n new_tip = Ok (Some n') →
  s_tip (n_state n') = Some (tip_block_hash new_tip) ∧
  ∀ tip, current_tip n = Ok (Some tip) → better_tip (n_archive n) tip new_tip = Ok (Some new_tip).
Proof.
  unfold reorg_txn. intros H. split_ok H. injection H as <-. split.
  - match goal with H : map_err _ (bail_if (negb (bool_decide (s_tip (n_state ?m) = Some _))) _) = Ok _ |- _ =>
      destruct (bool_decide (s_tip (n_state m) = Some (tip_block_hash new_tip))) eqn:E; [|done] end.
    by apply bool_decide_eq_true in E.
  - intros tip Htip. rewrite Htip in *. simplify_eq/=.
    destruct (better_tip (n_archive n) tip new_tip) as [r|]; simplify_eq/=.
    to_prop. by subst.
Qed.

Lemma lift_ok {A} (c : result NodeError A) x : map_err (fun e => (e, @None (Header * Body))) c = Ok x → c = Ok x.
Proof. destruct c; [by intros [= ->]|done]. Qed.

Lemma of_archive_ok {A} (c : result ArchiveError A) x : of_archive c = Ok x → c = Ok x.
Proof. destruct c; [by intros [= ->]|done]. Qed.

Lemma reorg_txn_refused n new_tip e b :
  reorg_txn n new_tip = Err (e, Some b) ↔ ∃ m, reorg_refuses n new_tip m b e.
Proof.
  split.
  - unfold reorg_txn. intros H. repeat match type of H with
    | (mbind _ (try_fold _ _ _)) = _ => fail 1
    | (mbind _ ?c) = _ => destruct c as [?|[? [?|]]] eqn:?; cbn [mbind result_bind] in H;
        [|exfalso; by eapply lifted|discriminate H]
    | (if ?b then _ else _) = _ => destruct b eqn:?; try discriminate H
    end.
    destruct (try_fold _ _ _) as [[m rest]|[e' o]] eqn:Ef; cbn [mbind result_bind] in H.
    { by apply lifted in H || (destruct (map_err _ _) as [|[e' [?|]]] eqn:E in H; [done|by apply lifted in E|done]). }
    injection H as -> ->. apply apply_blocks_error in Ef as (before & after & m & rest & Hbl & Hf & Hc).
    repeat match goal with H : map_err _ _ = Ok _ |- _ => apply lift_ok in H end.
    match goal with H : of_archive (blocks_to_apply _ _ _) = Ok _ |- _ => apply of_archive_ok in H end.
    match goal with H : bail_if (negb ?x) _ = Ok _ |- _ =>
      destruct x eqn:Etip; [apply bool_decide_eq_true in Etip|discriminate H] end.
    exists m. unfold reorg_refuses. do 9 eexists. split_and!; try done.
    intros t ->. destruct (better_tip (n_archive n) t new_tip) as [o|]; simplify_eq/=. to_prop. by subst.
  - intros (m & tip & common & blocks & count & n1 & batch & before & after & rest & Ht & Hb & Hca & Hbl & Hcnt & Hn1 & Htip & Hbatch & Hrev & Hf & Hc).
    unfold reorg_txn. rewrite Ht. cbn [map_err mbind result_bind].
    assert (match tip with
            | Some tip => r ← of_archive (better_tip (n_archive n) tip new_tip); Ok (bool_decide (r = Some new_tip))
            | None => Ok true
            end = Ok true) as ->.
    { destruct tip as [t|]; [|done]. rewrite (Hb t eq_refl). cbn [of_archive map_err mbind result_bind]. by rewrite bool_decide_true. }
    cbn [map_err mbind result_bind negb]. rewrite Hca. cbn [map_err mbind result_bind].
    rewrite Hbl. cbn [of_archive map_err mbind result_bind]. rewrite Hcnt. cbn [map_err mbind result_bind].
    rewrite Hn1. cbn [map_err mbind result_bind]. rewrite bool_decide_true by done. cbn [negb bail_if map_err mbind result_bind].
    rewrite Hbatch. cbn [map_err mbind result_bind].
    assert (try_fold (apply_one tip) (n1, batch) (rev blocks) = Err (e, Some b)) as ->; [|done].
    apply apply_blocks_error. eauto 10.
Qed.

(** C2: a re-org is all or nothing.  It ends with the new tip, which was better
    than the old one, or it leaves the state, the peg and the pool as they were.
    When the state reached on the way refuses a block, for a reason that is the
    block's, the body of exactly that block is discarded from the archive; a
    re-org that fails for any other reason changes nothing. *)
Theorem reorg_atomic n new_tip r n' :
  reorg_to_tip n new_tip = (r, n') →
  match r with
  | Ok true => s_tip (n_state n') = Some (tip_block_hash new_tip) ∧
      ∀ tip, current_tip n = Ok (Some tip) → better_tip (n_archive n) tip new_tip = Ok (Some new_tip)
  | Ok false => n' = n
  | Err e => n' = n ∨
      ∃ m header body a, reorg_refuses n new_tip m (header, body) e ∧ is_fatal_reorg_error e = false ∧
        delete_body (n_archive n) (header_hash header) body = Ok a ∧ n' = set_n_archive n a
  end ∧
  (∀ m header body e, reorg_refuses n new_tip m (header, body) e → is_fatal_reorg_error e = false →
     match delete_body (n_archive n) (header_hash header) body with
     | Ok a => r = Err e ∧ n' = set_n_archive n a
     | Err e' => r = Err (NodeArchive e') ∧ n' = n
     end).
Proof.
  unfold reorg_to_tip. intros H. split.
  - pose proof (reorg_txn_commits n new_tip) as Hc. pose proof (reorg_txn_refused n new_tip) as Hr.
    destruct (reorg_txn n new_tip) as [[m|]|[e [[header body]|]]]; try (injection H as <- <-; by auto).
    destruct (is_fatal_reorg_error e) eqn:Ef; [injection H as <- <-; by auto|].
    destruct (delete_body _ _ _) as [a|] eqn:Ed; injection H as <- <-; [right|by auto].
    destruct (Hr e (header, body)) as [[m Hm] _]; [done|]. eauto 10.
  - intros m header body e Hm Hf. assert (reorg_txn n new_tip = Err (e, Some (header, body))) as E
      by (apply reorg_txn_refused; eauto). rewrite E, Hf in H.
    destruct (delete_body _ _ _); by injection H as <- <-.
Qed.

(** ** The pool across the tip *)

Lemma put_stxos_taken m l o ip : m !! o = Some ip → o ∈ l.*1 → try_fold spend_once m l = Err MempoolDoubleSpent.
Proof.
  intros Hm Ho. destruct (try_fold spend_once m l) as [m'|e] eqn:E.
  - apply put_stxos_spec in E as [E _]. rewrite (E o Ho) in Hm. done.
  - revert m E Hm Ho. induction l as [|x l IH]; intros m E Hm Ho; simpl in *; [done|].
    unfold spend_once in E at 1. case_bool_decide as Hx; [by simplify_eq|].
    apply (IH _ E).
    + rewrite lookup_insert_ne; [done|]. intros <-. apply Hx. by exists ip.
    + apply elem_of_cons in Ho as [->|?]; [|done]. exfalso. apply Hx. by exists ip.
Qed.

Lemma restore_taken p t o ip :
  get_claimed_decision_ids (at_transaction t) = [] → mp_spent_utxos p !! o = Some ip →
  o ∈ tx_inputs (at_transaction t) → ∃ e, restore_tx p t = Err e ∧ is_fatal_reorg_error e = true.
Proof.
  intros Hc Hp Ho. unfold restore_tx, put, bail_if. destruct (MAX_MEMPOOL_TRANSACTIONS <=? tx_count p); simpl; [by eexists|].
  rewrite Hc. simpl. unfold put_stxos. rewrite (put_stxos_taken _ _ o ip Hp); [by eexists|].
  apply stxos_of_inputs in Ho as [ip' Hip]. apply list_elem_of_fmap. by exists (o, ip').
Qed.

(** Restoring a transaction that claims nothing only adds to the pool. *)
Lemma restore_keeps p t p' o ip :
  get_claimed_decision_ids (at_transaction t) = [] → restore_tx p t = Ok p' →
  mp_spent_utxos p !! o = Some ip → mp_spent_utxos p' !! o = Some ip.
Proof.
  intros Hc Hr Hp. assert (put p t = Ok p') as Hput.
  { unfold restore_tx in Hr. destruct (put p t) as [q|e] eqn:Eq; [by simplify_eq|]. exfalso.
    unfold put, bail_if in Eq. destruct (MAX_MEMPOOL_TRANSACTIONS <=? tx_count p); simpl in Eq; [by simplify_eq|].
    rewrite Hc in Eq. simpl in Eq. unfold put_stxos in Eq.
    destruct (try_fold spend_once _ _) as [?|e'] eqn:Et; simpl in Eq; [done|]. simplify_eq.
    clear -Et Hr. revert Et. generalize (mp_spent_utxos p). induction (stxos_of (at_transaction t)) as [|x l IH]; simpl;
      [done|]. intros m. unfold spend_once at 1. case_bool_decide; [intros; by simplify_eq|apply IH]. }
  destruct (put_tables _ _ _ Hput) as (_ & _ & Hst & _). apply put_stxos_spec in Hst as [_ Hst]. apply Hst. by left.
Qed.

Lemma restore_all_fails p ts t o ip :
  Forall (fun t => get_claimed_decision_ids (at_transaction t) = []) ts → t ∈ ts →
  mp_spent_utxos p !! o = Some ip → o ∈ tx_inputs (at_transaction t) →
  ∀ p', try_fold restore_tx p ts ≠ Ok p'.
Proof.
  intros Hall Ht Hp Ho p' Hf. revert p Hp Hf. induction Hall as [|x ts Hx Hall IH]; intros p Hp Hf; [by apply not_elem_of_nil in Ht|].
  simpl in Hf. destruct (restore_tx p x) as [q|] eqn:Eq; [|done].
  apply elem_of_cons in Ht as [->|Ht]; [|by eapply (IH Ht q); [eapply restore_keeps|]].
  destruct (restore_taken p x o ip Hx Hp Ho) as (e & He & _). congruence.
Qed.

Lemma confirm_tx_spec p tx :
  pool_ok p → get_claimed_decision_ids tx = [] →
  ∃ q, confirm_tx p tx = Ok q ∧ pool_ok q ∧
    (∀ id t, mp_transactions q !! id = Some t ↔ mp_transactions p !! id = Some t ∧ ¬ rtc (depends p) (tx_txid tx) id).
Proof.
  intros Hp Hc. unfold confirm_tx, evict_decision_claim_conflicts. rewrite Hc. simpl.
  destruct (delete_tx_ok p (tx_txid tx) Hp) as (q & -> & Hq & Hspec & _). by exists q.
Qed.

Lemma confirm_all_keep p txs id u :
  pool_ok p → Forall (fun tx => get_claimed_decision_ids tx = []) txs → mp_transactions p !! id = Some u →
  (∀ tx, tx ∈ txs → ¬ rtc (depends p) (tx_txid tx) id) →
  ∃ q, try_fold confirm_tx p txs = Ok q ∧ pool_ok q ∧ mp_transactions q !! id = Some u.
Proof.
  intros Hp Hall. revert p Hp. induction Hall as [|tx txs Htx Hall IH]; intros p Hp Hu Hno; [by exists p|].
  destruct (confirm_tx_spec p tx Hp Htx) as (q & Hq & Hqok & Hspec). simpl. rewrite Hq. apply IH; [done| |].
  - apply Hspec. split; [done|]. apply Hno. set_solver.
  - intros tx' Htx' Hr. apply (Hno tx'); [set_solver|].
    eapply rtc_subrel in Hr; [exact Hr|]. intros a b Hab. eapply depends_mono; [|exact Hab].
    apply map_subseteq_spec. intros i x Hx. by apply Hspec.
Qed.

(** *** The body stored *)

Lemma update_side_tips_bodies main_tip a h hd q a' q' :
  update_side_tips main_tip a h hd q = Ok (a', q') → bodies a' = bodies a.
Proof.
  unfold update_side_tips. intros H. destruct (try_fold _ _ _) as [[a1 b]|] eqn:E; [|discriminate].
  assert (bodies a1 = bodies a) as Hs.
  { apply (try_fold_inv (fun _ st => bodies st.1 = bodies a) _ (a, false) _ (a1, b)) in E; [done|done|].
    intros seen [a2 b2] [m r] [a3 b3] Hb _. cbn [fst] in *. unfold connect_verified. intros Hc. cbn [fst snd] in Hc.
    repeat (case_match; try discriminate); inv_ok; repeat (case_match; try discriminate); inv_ok; by simplify_eq/=. }
  cbn [mbind result_bind] in H. destruct b; [|by injection H as <- _].
  destruct (get_successors a1 (Some h)); [|discriminate]. by injection H as <- _.
Qed.

Lemma update_loop_bodies (fuel : nat) main_tip a q a' :
  update_side_tips_loop fuel main_tip a q = Ok a' → bodies a' = bodies a.
Proof.
  revert a q. induction fuel as [|fuel IH]; intros a [|h q] H; simpl in H; try discriminate; try (by injection H as <-).
  destruct (negb (contains_body a h)); [by apply (IH a q)|].
  destruct (get_header a h) as [hd|]; [|discriminate]. cbn [mbind result_bind] in H.
  destruct (update_side_tips main_tip a h hd q) as [[a1 q1]|] eqn:E; [|discriminate]. cbn [mbind result_bind] in H.
  rewrite (IH a1 q1 H). by eapply update_side_tips_bodies.
Qed.

Lemma put_body_stored a h body a' : put_body a h body = Ok a' → get_body a' h = Ok body.
Proof.
  unfold put_body. intros H. destruct (get_header a h) as [hd|]; [|discriminate]. cbn [mbind result_bind] in H.
  destruct (update_side_tips _ _ _ _ _) as [[a1 q]|] eqn:E; [|discriminate]. cbn [mbind result_bind] in H.
  apply update_side_tips_bodies in E. apply update_loop_bodies in H. unfold get_body. rewrite H, E.
  assert (∀ l a0, bodies (foldl (add_inclusion h) a0 l) = bodies a0) as ->.
  { induction l as [|x l IH]; intros a0; [done|]. simpl. by rewrite IH. }
  simpl. by rewrite lookup_insert_eq.
Qed.

Lemma connect_tip_spec n header body data n' :
  connect_tip_ n header body data = Ok n' →
  s_tip (n_state n') = Some (header_hash header) ∧ get_body (n_archive n') (header_hash header) = Ok body ∧
  try_fold confirm_tx (n_mempool n) (transactions body) = Ok (n_mempool n').
Proof.
  unfold connect_tip_. intros H.
  destruct (of_state (prevalidate _ _ _ _)) as [pv|]; [|done]. cbn [mbind result_bind] in H.
  destruct (of_archive (get_best_main_verification _ _)) as [main|]; [|done]. cbn [mbind result_bind] in H.
  destruct (of_archive (get_main_header_info _ _)) as [info|]; [|done]. cbn [mbind result_bind] in H.
  destruct (connect_prevalidated _ _ _ _ _) as [s|] eqn:Ec; [|done]. cbn [of_state map_err mbind result_bind] in H.
  destruct (connect _ _) as [p|]; [|done]. cbn [of_state map_err mbind result_bind] in H.
  destruct (put_header _ _) as [a|]; [|done]. cbn [of_archive map_err mbind result_bind] in H.
  destruct (put_body _ _ _) as [a'|] eqn:Eb; [|done]. cbn [of_archive map_err mbind result_bind] in H.
  destruct (try_fold confirm_tx _ _) as [pool|] eqn:Ep; [|done]. cbn [mbind result_bind] in H. injection H as <-.
  split_and!; [|by eapply put_body_stored|done]. simpl. clear -Ec. unfold connect_prevalidated in Ec.
  destruct (begin_block _ _ _ _) as [[[s1 g] c]|]; [|done]. cbn [mbind result_bind] in Ec.
  destruct (connect_coinbase _ _ _); [|done]. cbn [mbind result_bind] in Ec.
  destruct (connect_transactions _ _ _ _) as [[s2 sk]|]; [|done]. cbn [mbind result_bind] in Ec.
  destruct (update_pricing _ _ _ _); [|done]. cbn [mbind result_bind] in Ec.
  destruct (resolve_periods _ _ _ _ _); [|done]. cbn [mbind result_bind] in Ec.
  destruct (settle_resolved _ _); [|done]. cbn [mbind result_bind] in Ec. injection Ec as <-. done.
Qed.

(** C40: a rival in the pool makes a block irreversible.  When a block whose
    transactions claim no decision confirms a transaction, and the pool holds
    another that spends one of the same outputs and depends on no transaction of
    the block, connecting the block leaves that rival in the pool, and from then
    on the tip cannot be disconnected. *)
Theorem rival_blocks_disconnect n header body data n' ts t o id u :
  pool_ok (n_mempool n) → connect_tip_ n header body data = Ok n' →
  authorized_transactions body = Ok ts →
  Forall (fun tx => get_claimed_decision_ids tx = []) (transactions body) →
  t ∈ ts → o ∈ tx_inputs (at_transaction t) →
  mp_transactions (n_mempool n) !! id = Some u → o ∈ tx_inputs (at_transaction u) →
  (∀ tx, tx ∈ transactions body → ¬ rtc (depends (n_mempool n)) (tx_txid tx) id) →
  mp_transactions (n_mempool n') !! id = Some u ∧ ∀ n'', disconnect_tip_ n' ≠ Ok n''.
Proof.
  intros Hp Hc Hts Hall Ht Ho Hu Huo Hno.
  pose proof (authorize_each_spec (transactions body) (authorizations body) (actor_proofs body)) as Hmap.
  unfold authorized_transactions in Hts. rewrite Hts in Hmap. destruct Hmap as [Hmap _].
  destruct (connect_tip_spec _ _ _ _ _ Hc) as (Htip & Hbody & Hpool).
  destruct (confirm_all_keep _ _ id u Hp Hall Hu Hno) as (q & Hq & Hqok & Hqu). rewrite Hpool in Hq. injection Hq as <-.
  split; [done|]. intros n''. unfold disconnect_tip_. rewrite Htip. cbn [of_state map_err ok_or mbind result_bind].
  destruct (get_header _ _); [|done]. cbn [of_archive map_err mbind result_bind]. rewrite Hbody.
  cbn [of_archive map_err mbind result_bind].
  destruct (ok_or (s_height _) _); [|done]. cbn [of_state map_err mbind result_bind].
  destruct (tip_peg_data _ _ _); [|done]. cbn [mbind result_bind].
  destruct (disconnect _ _); [|done]. cbn [of_state map_err mbind result_bind].
  destruct (disconnect_tip _ _ _); [|done]. cbn [of_state map_err mbind result_bind].
  unfold authorized_transactions. rewrite Hts.
  cbn [map_err mbind result_bind]. destruct (try_fold restore_tx _ _) as [q|] eqn:Er; [|done]. exfalso. simpl in Er.
  apply stxos_of_inputs in Huo as [ip Hip].
  eapply (restore_all_fails (n_mempool n') (rev ts) t o ip); [| | |exact Ho|exact Er].
  - apply Forall_rev. rewrite <- Hmap in Hall. by apply Forall_map in Hall.
  - by apply list_elem_of_In, in_rev; rewrite rev_involutive; apply list_elem_of_In.
  - apply (pk_spent _ Hqok). eauto.
Qed.
End NodeFacts.
