(* ===== verification/Addresses.v ===== *)
(** * Addresses and deposit addresses

    Model of src/lib/types/address.rs: the base 58 form of an address, and the
    form a deposit carries, with the sidechain's prefix and a checksum.  Text is
    the list of its bytes in UTF-8; base 58, hexadecimal and SHA-256 come from
    other packages and are parameters with their documented laws. *)

From stdpp Require Import base numbers list strings.
From Stdlib Require Import Ascii.
From S2P Require Import Prelude Float64 StateErrors.

(** A literal of the source. *)
Definition text (s : string) : bytes := map (fun c => Z.of_N (N_of_ascii c)) (String.list_ascii_of_string s).

Inductive AddressParseError : Type :=
| Bs58
| MissingDepositChecksum (s : bytes)
| MissingDepositPrefix (s : bytes)
| WrongDepositChecksum (address checksum : bytes)
| WrongLength (len : Z).

(** ** Text *)

Definition underscore : Z := 95.

(** [str::strip_prefix] and [str::starts_with]. *)
Fixpoint strip_prefix_of (p s : bytes) : option bytes :=
  match p, s with
  | [], _ => Some s
  | c :: p, d :: s => if c =? d then strip_prefix_of p s else None
  | _ :: _, [] => None
  end.
Definition starts_with (s p : bytes) : bool := bool_decide (is_Some (strip_prefix_of p s)).

(** [str::rsplit_once]: split at the last occurrence. *)
Fixpoint rsplit_once (sep : Z) (s : bytes) : option (bytes * bytes) :=
  match s with
  | [] => None
  | c :: s =>
      match rsplit_once sep s with
      | Some (before, after) => Some (c :: before, after)
      | None => if c =? sep then Some ([], s) else None
      end
  end.

(** [str::to_lowercase] on ASCII letters.  No other character has a lower case
    that is a hexadecimal digit, so the comparison with a digest does not see
    the rest. *)
Definition to_lowercase (s : bytes) : bytes :=
  map (fun c => if (65 <=? c) && (c <=? 90) then c + 32 else c) s.

(** What the code takes from other packages: base 58 of the [bitcoin] crate,
    lowercase hexadecimal of [const_hex], SHA-256. *)
Class TextCodecs : Type := {
  base58_encode : bytes → bytes;
  base58_decode : bytes → option bytes;
  base58_roundtrip b : base58_decode (base58_encode b) = Some b;
  base58_chars b : Forall (fun c => 48 ≤ c ≤ 57 ∨ 65 ≤ c ≤ 90 ∨ 97 ≤ c ≤ 122) (base58_encode b);
  hex_encode : bytes → bytes;
  hex_decode : bytes → option bytes;
  hex_roundtrip b : Forall is_u8 b → hex_decode (hex_encode b) = Some b;
  hex_app b c : hex_encode (b ++ c) = hex_encode b ++ hex_encode c;
  hex_length b : length (hex_encode b) = (2 * length b)%nat;
  hex_digits b : Forall (fun c => 48 ≤ c ≤ 57 ∨ 97 ≤ c ≤ 102) (hex_encode b);
  sha256 : bytes → bytes;
  sha256_length b : length (sha256 b) = 32%nat
}.

Section Addresses.
Context {TC : TextCodecs}.
Implicit Types (s p : bytes).

(** ** Addresses *)

Definition Address_ALL_ZEROS : Address := replicate 20 0.

Definition as_base58 (a : Address) : bytes := base58_encode a.

Definition Address_from_str s : result AddressParseError Address :=
  b ← ok_or (base58_decode s) Bs58;
  if bool_decide (length b = 20%nat) then Ok b else Err (WrongLength (Z.of_nat (length b))).

(** [THIS_SIDECHAIN] is 13. *)
Definition deposit_prefix : bytes := text "s13_".

Definition format_for_deposit (a : Address) : bytes :=
  let prefix := deposit_prefix ++ as_base58 a ++ text "_" in
  let prefix_digest := sha256 prefix in
  prefix ++ hex_encode (take 3 prefix_digest).

Definition from_deposit_address s : result AddressParseError Address :=
  rest ← ok_or (strip_prefix_of deposit_prefix s) (MissingDepositPrefix s);
  '(address_str, checksum) ←
    ok_or (o ← rsplit_once underscore rest; if bool_decide (o.2 = []) then None else Some o)
      (MissingDepositChecksum s);
  let digest := sha256 (deposit_prefix ++ address_str ++ text "_") in
  if negb (starts_with (hex_encode digest) (to_lowercase checksum))
  then Err (WrongDepositChecksum s checksum)
  else Address_from_str address_str.

(** ** What the text operations do *)

Lemma strip_prefix_app p s r : strip_prefix_of p s = Some r ↔ s = p ++ r.
Proof.
  revert s. induction p as [|c p IH]; intros s; simpl; [split; congruence|].
  destruct s as [|d s]; [done|]. destruct (Z.eqb_spec c d) as [->|Hne]; [|split; congruence].
  rewrite IH. split; congruence.
Qed.

Lemma starts_with_app s p : starts_with s p = true ↔ p `prefix_of` s.
Proof.
  unfold starts_with. rewrite bool_decide_eq_true. split.
  - intros [r Hr%strip_prefix_app]. by exists r.
  - intros [r Hr]. exists r. by apply strip_prefix_app.
Qed.

Lemma rsplit_once_spec sep s before after :
  rsplit_once sep s = Some (before, after) ↔ s = before ++ sep :: after ∧ sep ∉ after.
Proof.
  revert before. assert (∀ s, rsplit_once sep s = None ↔ sep ∉ s) as Hnone.
  { intros s0. induction s0 as [|c s0 IH]; simpl; [split; [intros _; apply not_elem_of_nil|done]|].
    rewrite not_elem_of_cons. destruct (rsplit_once sep s0) as [[b a]|].
    - split; [done|]. intros [_ H%IH]. done.
    - destruct (Z.eqb_spec c sep) as [->|Hne]; [split; [done|by intros []]|]. split; [|done]. intros _. split; [congruence|by apply IH]. }
  induction s as [|c s IH]; intros before; simpl.
  { split; [done|]. intros [H _]. by destruct before. }
  destruct (rsplit_once sep s) as [[b a]|] eqn:E.
  - split.
    + intros [= <- <-]. destruct (proj1 (IH b)) as [-> Hni]; done.
    + intros [Hs Hni]. destruct before as [|c' before]; simplify_eq/=.
      * apply Hnone in Hni. congruence.
      * pose proof (proj2 (IH before) (conj eq_refl Hni)) as [= -> ->]. done.
  - apply Hnone in E. split.
    + destruct (Z.eqb_spec c sep) as [->|]; [|done]. intros [= <- <-]. done.
    + intros [Hs Hni]. destruct before as [|c' before]; simplify_eq/=; [by rewrite Z.eqb_refl|].
      exfalso. apply E. apply elem_of_app. right. by left.
Qed.

Lemma to_lowercase_hex s : Forall (fun c => 48 ≤ c ≤ 57 ∨ 97 ≤ c ≤ 102) s → to_lowercase s = s.
Proof.
  induction 1 as [|c s Hc _ IH]; [done|]. cbn [to_lowercase map]. fold (to_lowercase s). rewrite IH. f_equal.
  destruct (Z.leb_spec 65 c), (Z.leb_spec c 90); simpl; lia.
Qed.

Lemma hex_no_underscore b : underscore ∉ hex_encode b.
Proof.
  intros Hin. pose proof (hex_digits b) as Hd. rewrite Forall_forall in Hd. specialize (Hd _ Hin).
  unfold underscore in Hd. lia.
Qed.

(** ** Deposit addresses *)

(** The text is the prefix, the address, and a checksum which, in lower case,
    starts the digest. *)
Definition deposit_form s (a : Address) : Prop :=
  ∃ address_str checksum, s = deposit_prefix ++ address_str ++ text "_" ++ checksum ∧
    checksum ≠ [] ∧ underscore ∉ checksum ∧
    to_lowercase checksum `prefix_of` hex_encode (sha256 (deposit_prefix ++ address_str ++ text "_")) ∧
    Address_from_str address_str = Ok a.

Lemma from_deposit_form s a : from_deposit_address s = Ok a ↔ deposit_form s a.
Proof.
  unfold from_deposit_address, deposit_form. split.
  - destruct (strip_prefix_of deposit_prefix s) as [rest|] eqn:E1; [|discriminate]. cbn [ok_or mbind result_bind].
    apply strip_prefix_app in E1. destruct (rsplit_once underscore rest) as [[str sum]|] eqn:E2; [|discriminate].
    cbn [ok_or mbind result_bind option_bind snd]. apply rsplit_once_spec in E2 as [-> Hni].
    case_bool_decide as Hne; [discriminate|]. cbn [ok_or mbind result_bind].
    destruct (starts_with _ _) eqn:E3; [|discriminate]. cbn [negb]. intros Ha. exists str, sum.
    apply starts_with_app in E3. split_and!; [by rewrite E1|done..].
  - intros (str & sum & -> & Hne & Hni & Hp & Ha).
    rewrite (proj2 (strip_prefix_app _ _ (str ++ text "_" ++ sum))) by done. cbn [ok_or mbind result_bind].
    rewrite (proj2 (rsplit_once_spec underscore _ str sum)) by done.
    cbn [ok_or mbind result_bind option_bind snd]. rewrite bool_decide_false by done. cbn [ok_or mbind result_bind].
    rewrite (proj2 (starts_with_app _ _)) by done. done.
Qed.

(** A deposit address is accepted exactly when it is the sidechain's
    prefix, the base 58 form of twenty bytes, and a checksum that is not empty
    and starts the digest of the rest. *)
Theorem deposit_address_exact s a : from_deposit_address s = Ok a ↔ deposit_form s a.
Proof. apply from_deposit_form. Qed.

Lemma deposit_form_read (a : Address) :
  length a = 20%nat → from_deposit_address (format_for_deposit a) = Ok a.
Proof.
  intros Ha. apply from_deposit_form. unfold format_for_deposit.
  set (digest := sha256 _). exists (as_base58 a), (hex_encode (take 3 digest)).
  split_and!.
  - by rewrite <- !app_assoc.
  - intros Hn. apply (f_equal length) in Hn. rewrite hex_length, length_take in Hn. subst digest.
    rewrite sha256_length in Hn. simpl in Hn. lia.
  - apply hex_no_underscore.
  - rewrite to_lowercase_hex by apply hex_digits. exists (hex_encode (drop 3 digest)).
    by rewrite <- hex_app, take_drop.
  - unfold Address_from_str, as_base58. rewrite base58_roundtrip. cbn [ok_or mbind result_bind].
    by rewrite bool_decide_true.
Qed.

(** The deposit form of an address is read back as that address. *)
Theorem deposit_address_roundtrip (a : Address) :
  length a = 20%nat → from_deposit_address (format_for_deposit a) = Ok a.
Proof. apply deposit_form_read. Qed.

(** A bare address is accepted as a deposit only through [from_str]. *)
Lemma bare_address_parses (a : Address) : length a = 20%nat → Address_from_str (as_base58 a) = Ok a.
Proof.
  intros Ha. unfold Address_from_str, as_base58. rewrite base58_roundtrip. cbn [ok_or mbind result_bind].
  by rewrite bool_decide_true.
Qed.

End Addresses.
