(* ===== verification/Proto.v ===== *)
(** * Messages of the mainchain node

    Model of src/lib/types/proto.rs: the hexadecimal fields, the conversions
    from the messages of the mainchain node to the types of the program, and the
    clients that call it.  A message is a record of the fields the conversions
    take apart; the service itself, its transport and the consensus encoding of
    the [bitcoin] crate are parameters.

    An accepted list of infos is a chain from the newest block back; hashes
    survive their two hexadecimal forms; a deposit whose fields are there and
    whose address is hexadecimal is credited, to its address or to nobody. *)

From stdpp Require Import base numbers list strings gmap.
From Stdlib Require Import Ascii.
From S2P Require Import Prelude Float64 StateErrors Transactions TwoWayPeg Bodies Archive Addresses.

Inductive GNetwork : Type := GUnknown | GUnspecified | GMainnet | GRegtest | GSignet | GTestnet.

(** ** Errors *)

(** A message is named by its type; the value of an invalid field is its text,
    that of a repeated field the item's position. *)
Inductive ProtoError : Type :=
| Grpc
| InvalidEnumVariant (field_name message_name : string) (variant : GNetwork)
| InvalidFieldValue (field_name message_name : string) (value : bytes)
| InvalidRepeatedValue (field_name message_name : string)
| MissingField (field_name message_name : string)
| UnknownEnumTag (field_name message_name : string) (tag : Z).

(** ** Generated messages *)

Record ConsensusHex : Type := { ch_hex : option bytes }.
Record Hex : Type := { hx_hex : option bytes }.
Record ReverseHex : Type := { rh_hex : option bytes }.

Record GOutPoint : Type := { go_txid : option ReverseHex; go_vout : option Z }.
Record GDepositOutput : Type := { gd_address : option Hex; gd_value_sats : option Z }.
Record GDeposit : Type := {
  gd_sequence_number : option Z; gd_outpoint : option GOutPoint; gd_output : option GDepositOutput
}.
Inductive GBundleEventKind : Type := GFailed | GSubmitted | GSucceeded.
Record GBundleEvent : Type := { gb_m6id : option ConsensusHex; gb_event : option (option GBundleEventKind) }.
Inductive GBlockEvent : Type :=
| GEvDeposit (d : GDeposit)
| GEvWithdrawalBundle (e : GBundleEvent).
Record GBlockInfo : Type := { gi_bmm_commitment : option ConsensusHex; gi_events : list (option GBlockEvent) }.
Record GBlockHeaderInfo : Type := {
  gh_block_hash : option ReverseHex; gh_prev_block_hash : option ReverseHex;
  gh_height : Z; gh_work : option ConsensusHex; gh_timestamp : Z
}.
Record GInfo : Type := { gf_header_info : option GBlockHeaderInfo; gf_block_info : option GBlockInfo }.
Inductive GEvent : Type :=
| GConnectBlock (info : GInfo)
| GDisconnectBlock (block_hash : option ReverseHex).
Record GCommitment : Type := {
  gc_commitment : option ConsensusHex; gc_ancestor_commitments : list (option ConsensusHex)
}.
Inductive GCommitmentResult : Type :=
| GBlockNotFound (block_hash : option ReverseHex)
| GCommitments (c : GCommitment).

(** ** The program's types *)

Inductive MainEvent : Type :=
| ConnectBlock (header_info : BlockHeaderInfo) (block_info : BlockInfo)
| DisconnectBlock (block_hash : MainBlockHash).

Inductive BitcoinNetwork : Type := NetBitcoin | NetRegtest | NetSignet | NetTestnet.

(** Requests to the services; [THIS_SIDECHAIN] is 13. *)
Definition THIS_SIDECHAIN : Z := 13.
Record GetBlockRequestMsg : Type := {
  rq_block_hash : ReverseHex; rq_sidechain_id : option Z; rq_max_ancestors : Z
}.
Record BmmRequestMsg : Type := {
  bq_sidechain_id : Z; bq_value_sats : Z; bq_height : Z;
  bq_critical_hash : ConsensusHex; bq_prev_bytes : ReverseHex
}.
Record DepositRequestMsg : Type := {
  dq_sidechain_id : Z; dq_address : bytes; dq_value_sats : Z; dq_fee_sats : Z
}.

(** The consensus encoding of a hash of 32 bytes, in binary and hexadecimal, and
    the reading of a [Work]. *)
Class ConsensusCodecs : Type := {
  serialize_hash : bytes → bytes;
  serialize_hash_u8 h : Forall is_u8 h → Forall is_u8 (serialize_hash h);
  deserialize_hash : bytes → option bytes;
  hash_roundtrip h : length h = 32%nat → deserialize_hash (serialize_hash h) = Some h;
  serialize_hash_hex : bytes → bytes;
  deserialize_hash_hex : bytes → option bytes;
  hash_hex_roundtrip h : length h = 32%nat → deserialize_hash_hex (serialize_hash_hex h) = Some h;
  work_from_le_bytes : bytes → Z
}.

(** What the mainchain node answers; an error is a transport status. *)
Class MainchainService : Type := {
  svc_get_block_header_info : GetBlockRequestMsg → result unit (list GBlockHeaderInfo);
  svc_get_block_info : GetBlockRequestMsg → result unit (list GInfo);
  svc_get_bmm_h_star_commitment : GetBlockRequestMsg → result unit (option GCommitmentResult);
  svc_get_chain_info : result unit Z;
  svc_network_of_tag : Z → option GNetwork;
  svc_get_chain_tip : result unit (option GBlockHeaderInfo);
  svc_subscribe_events : result unit (list (result unit (option (option GEvent))));
  svc_create_bmm_critical_data : BmmRequestMsg → result unit (option ReverseHex);
  svc_create_deposit : DepositRequestMsg → result unit (option ReverseHex);
  svc_create_new_address : result unit bytes;
  svc_parse_bitcoin_address : bytes → option bytes;
  svc_generate_to_address : Z → bytes → result unit unit
}.

Section Decode.
Context {TC : TextCodecs} {CC : ConsensusCodecs}.

(** ** Hexadecimal fields *)

Definition ConsensusHex_decode (message_name field_name : string) (v : ConsensusHex) : result ProtoError bytes :=
  hex ← ok_or (ch_hex v) (MissingField "hex" "ConsensusHex");
  ok_or (deserialize_hash_hex hex) (InvalidFieldValue field_name message_name hex).
Definition ConsensusHex_encode (h : bytes) : ConsensusHex := {| ch_hex := Some (serialize_hash_hex h) |}.

Definition decode_bytes (message_name field_name : string) (v : Hex) : result ProtoError bytes :=
  hex ← ok_or (hx_hex v) (MissingField "hex" "Hex");
  ok_or (hex_decode hex) (InvalidFieldValue field_name message_name hex).
Definition Hex_encode (b : bytes) : Hex := {| hx_hex := Some (hex_encode b) |}.

Definition ReverseHex_decode (message_name field_name : string) (v : ReverseHex) : result ProtoError bytes :=
  hex ← ok_or (rh_hex v) (MissingField "hex" "ReverseHex");
  b ← ok_or (hex_decode hex) (InvalidFieldValue field_name message_name hex);
  ok_or (deserialize_hash (rev b)) (InvalidFieldValue field_name message_name hex).
Definition ReverseHex_encode (h : bytes) : ReverseHex :=
  {| rh_hex := Some (hex_encode (rev (serialize_hash h))) |}.

(** A field that must be there. *)
Definition field {A} (message_name field_name : string) (o : option A) : result ProtoError A :=
  ok_or o (MissingField field_name message_name).

(** [Option::map] of a decoder, then [transpose]. *)
Definition decode_opt {A B} (f : A → result ProtoError B) (o : option A) : result ProtoError (option B) :=
  match o with None => Ok None | Some x => y ← f x; Ok (Some y) end.

Definition Network_decode (message_name field_name : string) (n : GNetwork) : result ProtoError BitcoinNetwork :=
  match n with
  | GUnknown => Err (InvalidEnumVariant field_name message_name n)
  | GUnspecified => Err (InvalidEnumVariant field_name message_name n)
  | GMainnet => Ok NetBitcoin
  | GRegtest => Ok NetRegtest
  | GSignet => Ok NetSignet
  | GTestnet => Ok NetTestnet
  end.

(** ** Commitments *)

Definition decode_block_not_found (h : option ReverseHex) : result ProtoError MainBlockHash :=
  h ← field "BlockNotFoundError" "block_hash" h;
  ReverseHex_decode "BlockNotFoundError" "block_hash" h.

Definition decode_optional_commitment (c : option ConsensusHex) : result ProtoError (option BlockHash) :=
  decode_opt (ConsensusHex_decode "OptionalCommitment" "commitment") c.

Definition decode_commitment (c : GCommitment) : result ProtoError (option BlockHash * list (option BlockHash)) :=
  head ← decode_opt (ConsensusHex_decode "Commitment" "commitment") (gc_commitment c);
  tail ← try_map decode_optional_commitment (gc_ancestor_commitments c);
  Ok (head, tail).

Definition decode_commitment_result (r : GCommitmentResult)
  : result ProtoError (result MainBlockHash (option BlockHash * list (option BlockHash))) :=
  match r with
  | GBlockNotFound h => h ← decode_block_not_found h; Ok (Err h)
  | GCommitments c => l ← decode_commitment c; Ok (Ok l)
  end.

(** ** Deposits *)

Definition decode_outpoint (o : GOutPoint) : result ProtoError (bytes * Z) :=
  txid ← field "OutPoint" "txid" (go_txid o);
  txid ← ReverseHex_decode "OutPoint" "txid" txid;
  vout ← field "OutPoint" "vout" (go_vout o);
  Ok (txid, vout).

(** [std::str::from_utf8]. *)
Definition utf8_tail (c : Z) : bool := (128 <=? c) && (c <=? 191).
Definition utf8_second (b c : Z) : bool :=
  if b =? 224 then (160 <=? c) && (c <=? 191)
  else if b =? 237 then (128 <=? c) && (c <=? 159)
  else if b =? 240 then (144 <=? c) && (c <=? 191)
  else if b =? 244 then (128 <=? c) && (c <=? 143)
  else utf8_tail c.
Fixpoint from_utf8 (s : bytes) : bool :=
  match s with
  | [] => true
  | b :: s1 =>
      if b <? 128 then from_utf8 s1 else
      if (194 <=? b) && (b <=? 223) then
        match s1 with c :: s2 => utf8_tail c && from_utf8 s2 | _ => false end
      else if (224 <=? b) && (b <=? 239) then
        match s1 with c :: d :: s3 => utf8_second b c && utf8_tail d && from_utf8 s3 | _ => false end
      else if (240 <=? b) && (b <=? 244) then
        match s1 with
        | c :: d :: e :: s4 => utf8_second b c && utf8_tail d && utf8_tail e && from_utf8 s4
        | _ => false
        end
      else false
  end.

(** The address of a deposit: in the deposit form, bare, or else nobody's. *)
Definition deposit_output_address (address_bytes : bytes) : Address :=
  if negb (from_utf8 address_bytes) then Address_ALL_ZEROS else
  match from_deposit_address address_bytes with
  | Ok a => a
  | Err _ => match Address_from_str address_bytes with Ok a => a | Err _ => Address_ALL_ZEROS end
  end.

Definition decode_deposit_output (o : GDepositOutput) : result ProtoError FilledOutput :=
  address ← field "Output" "address" (gd_address o);
  address_bytes ← decode_bytes "Output" "address" address;
  value ← field "Output" "value_sats" (gd_value_sats o);
  Ok {| out_address := deposit_output_address address_bytes; out_content := FBitcoin value; out_memo := [] |}.

(** The sequence number must be there; the state does not use it. *)
Definition decode_deposit (d : GDeposit) : result ProtoError Deposit :=
  _ ← field "Deposit" "sequence_number" (gd_sequence_number d);
  outpoint ← field "Deposit" "outpoint" (gd_outpoint d);
  output ← field "Deposit" "output" (gd_output d);
  outpoint ← decode_outpoint outpoint;
  output ← decode_deposit_output output;
  Ok {| dep_txid := outpoint.1; dep_vout := outpoint.2; dep_output := output |}.

(** ** Blocks *)

Definition bundle_event_status (e : GBundleEventKind) : WithdrawalBundleEventStatus :=
  match e with GFailed => EvFailed | GSubmitted => EvSubmitted | GSucceeded => EvConfirmed end.
Definition decode_bundle_event_status (e : option GBundleEventKind) : result ProtoError WithdrawalBundleEventStatus :=
  e ← field "Event" "event" e; Ok (bundle_event_status e).
Definition decode_bundle_event (e : GBundleEvent) : result ProtoError WithdrawalBundleEvent :=
  m6id ← field "WithdrawalBundleEvent" "m6id" (gb_m6id e);
  m6id ← ConsensusHex_decode "WithdrawalBundleEvent" "m6id" m6id;
  status ← field "WithdrawalBundleEvent" "event" (gb_event e);
  status ← decode_bundle_event_status status;
  Ok {| we_m6id := m6id; we_status := status |}.

Definition decode_block_event_kind (e : GBlockEvent) : result ProtoError BlockEvent :=
  match e with
  | GEvDeposit d => d ← decode_deposit d; Ok (EvDeposit d)
  | GEvWithdrawalBundle e => e ← decode_bundle_event e; Ok (EvWithdrawalBundle e)
  end.
Definition decode_block_event (e : option GBlockEvent) : result ProtoError BlockEvent :=
  e ← field "Event" "event" e; decode_block_event_kind e.

Definition decode_block_info (b : GBlockInfo) : result ProtoError BlockInfo :=
  commitment ← decode_opt (ConsensusHex_decode "BlockInfo" "bmm_commitment") (gi_bmm_commitment b);
  events ← try_map decode_block_event (gi_events b);
  Ok {| bmm_commitment := commitment; bi_events := events |}.

Definition decode_header_info (h : GBlockHeaderInfo) : result ProtoError BlockHeaderInfo :=
  block_hash ← field "BlockHeaderInfo" "block_hash" (gh_block_hash h);
  block_hash ← ReverseHex_decode "BlockHeaderInfo" "block_hash" block_hash;
  prev_block_hash ← field "BlockHeaderInfo" "prev_block_hash" (gh_prev_block_hash h);
  prev_block_hash ← ReverseHex_decode "BlockHeaderInfo" "prev_block_hash" prev_block_hash;
  work ← field "BlockHeaderInfo" "work" (gh_work h);
  work ← ConsensusHex_decode "BlockHeaderInfo" "work" work;
  Ok {| mh_block_hash := block_hash; mh_prev_block_hash := prev_block_hash; mh_height := gh_height h;
        mh_work := work_from_le_bytes work; mh_timestamp := gh_timestamp h |}.

Definition decode_info (i : GInfo) : result ProtoError (BlockHeaderInfo * BlockInfo) :=
  header_info ← field "Info" "header_info" (gf_header_info i);
  header_info ← decode_header_info header_info;
  block_info ← field "Info" "block_info" (gf_block_info i);
  block_info ← decode_block_info block_info;
  Ok (header_info, block_info).

(** [BlockInfo::deposits] and [withdrawal_bundle_events]. *)
Definition block_deposits (b : BlockInfo) : list Deposit :=
  omap (fun e => match e with EvDeposit d => Some d | EvWithdrawalBundle _ => None end) (bi_events b).
Definition block_bundle_events (b : BlockInfo) : list WithdrawalBundleEvent :=
  omap (fun e => match e with EvWithdrawalBundle e => Some e | EvDeposit _ => None end) (bi_events b).

(** ** Events of the mainchain *)

(** Both fields of a connected block are looked for before either is read. *)
Definition decode_event_kind (e : GEvent) : result ProtoError MainEvent :=
  match e with
  | GConnectBlock i =>
      header_info ← field "ConnectBlock" "header_info" (gf_header_info i);
      block_info ← field "ConnectBlock" "block_info" (gf_block_info i);
      header_info ← decode_header_info header_info;
      block_info ← decode_block_info block_info;
      Ok (ConnectBlock header_info block_info)
  | GDisconnectBlock h =>
      h ← field "DisconnectBlock" "disconnect_block" h;
      h ← ReverseHex_decode "DisconnectBlock" "disconnect_block" h;
      Ok (DisconnectBlock h)
  end.
Definition decode_event (e : option GEvent) : result ProtoError MainEvent :=
  e ← field "Event" "event" e; decode_event_kind e.
Definition decode_subscribe_response (e : option (option GEvent)) : result ProtoError MainEvent :=
  e ← field "SubscribeEventsResponse" "event" e; decode_event e.

(** ** Clients *)

Context {MS : MainchainService}.

Definition of_grpc {A} (r : result unit A) : result ProtoError A := map_err (fun _ => Grpc) r.

Definition get_block_header_info (h : MainBlockHash) : result ProtoError (option BlockHeaderInfo) :=
  infos ← of_grpc (svc_get_block_header_info
    {| rq_block_hash := ReverseHex_encode h; rq_sidechain_id := None; rq_max_ancestors := 0 |});
  match infos with
  | [] => Ok None
  | i :: _ => i ← decode_header_info i; Ok (Some i)
  end.

(** The check that each info is of the parent of the one before. *)
Fixpoint sequential {A} (header : A → BlockHeaderInfo) (e : ProtoError) (expected : MainBlockHash) (l : list A)
  : result ProtoError unit :=
  match l with
  | [] => Ok tt
  | i :: l =>
      if bool_decide (mh_block_hash (header i) = expected)
      then sequential header e (mh_prev_block_hash (header i)) l
      else Err e
  end.

Definition get_block_header_infos (h : MainBlockHash) (max_ancestors : Z)
  : result ProtoError (option (list BlockHeaderInfo)) :=
  infos ← of_grpc (svc_get_block_header_info
    {| rq_block_hash := ReverseHex_encode h; rq_sidechain_id := None; rq_max_ancestors := max_ancestors |});
  if bool_decide (length infos = 0%nat) then Ok None else
  infos ← try_map decode_header_info infos;
  match infos with
  | [] => Ok None
  | head :: tail =>
      _ ← sequential id (InvalidRepeatedValue "header_infos" "GetBlockHeaderInfoResponse")
            (mh_prev_block_hash head) tail;
      Ok (Some (head :: tail))
  end.

Definition get_block_infos (h : MainBlockHash) (max_ancestors : Z)
  : result ProtoError (option (list (BlockHeaderInfo * BlockInfo))) :=
  infos ← of_grpc (svc_get_block_info
    {| rq_block_hash := ReverseHex_encode h; rq_sidechain_id := Some THIS_SIDECHAIN;
       rq_max_ancestors := max_ancestors |});
  if bool_decide (length infos = 0%nat) then Ok None else
  infos ← try_map decode_info infos;
  match infos with
  | [] => Ok None
  | head :: tail =>
      _ ← sequential fst (InvalidRepeatedValue "infos" "GetBlockInfoResponse") (mh_prev_block_hash head.1) tail;
      Ok (Some (head :: tail))
  end.

Definition get_bmm_hstar_commitments (h : MainBlockHash) (max_ancestors : Z)
  : result ProtoError (result MainBlockHash (option BlockHash * list (option BlockHash))) :=
  r ← of_grpc (svc_get_bmm_h_star_commitment
    {| rq_block_hash := ReverseHex_encode h; rq_sidechain_id := Some THIS_SIDECHAIN;
       rq_max_ancestors := max_ancestors |});
  r ← field "GetBmmHStarCommitmentResponse" "result" r;
  decode_commitment_result r.

Definition get_chain_info : result ProtoError BitcoinNetwork :=
  tag ← of_grpc svc_get_chain_info;
  n ← ok_or (svc_network_of_tag tag) (UnknownEnumTag "network" "GetChainInfoResponse" tag);
  Network_decode "GetChainInfoResponse" "network" n.

Definition get_chain_tip : result ProtoError BlockHeaderInfo :=
  i ← of_grpc svc_get_chain_tip;
  i ← field "GetChainTipResponse" "block_header_info" i;
  decode_header_info i.

(** The stream of events, as the items it gives. *)
Definition subscribe_events : result ProtoError (list (result ProtoError MainEvent)) :=
  stream ← of_grpc svc_subscribe_events;
  Ok (map (fun item => e ← of_grpc item; decode_subscribe_response e) stream).

Definition create_bmm_critical_data_tx (value_sats height : Z) (critical_hash : bytes)
  (prev_bytes : MainBlockHash) : result ProtoError Txid :=
  txid ← of_grpc (svc_create_bmm_critical_data
    {| bq_sidechain_id := THIS_SIDECHAIN; bq_value_sats := value_sats; bq_height := height;
       bq_critical_hash := ConsensusHex_encode critical_hash; bq_prev_bytes := ReverseHex_encode prev_bytes |});
  txid ← field "CreateBmmCriticalDataTransactionResponse" "txid" txid;
  ReverseHex_decode "CreateBmmCriticalDataTransactionResponse" "txid" txid.

Definition create_deposit_tx (address : Address) (value_sats fee_sats : Z) : result ProtoError Txid :=
  txid ← of_grpc (svc_create_deposit
    {| dq_sidechain_id := THIS_SIDECHAIN; dq_address := as_base58 address;
       dq_value_sats := value_sats; dq_fee_sats := fee_sats |});
  txid ← field "CreateDepositTransactionResponse" "txid" txid;
  ReverseHex_decode "CreateDepositTransactionResponse" "txid" txid.

Definition create_new_address : result ProtoError bytes :=
  address ← of_grpc svc_create_new_address;
  ok_or (svc_parse_bitcoin_address address) (InvalidFieldValue "address" "CreateNewAddressResponse" address).

Definition generate_to_address (blocks : Z) (address : bytes) : result ProtoError unit :=
  of_grpc (svc_generate_to_address blocks address).

End Decode.

(** ** What the answers become *)

(** Each info is of the parent of the one before. *)
Definition linked (l : list BlockHeaderInfo) : Prop :=
  ∀ i x y, l !! i = Some x → l !! S i = Some y → mh_block_hash y = mh_prev_block_hash x.

Lemma linked_cons x l :
  (∀ y, head l = Some y → mh_block_hash y = mh_prev_block_hash x) → linked l → linked (x :: l).
Proof.
  intros Hh Hl [|i] a b Ha Hb; simpl in *.
  - injection Ha as <-. apply Hh. by destruct l.
  - by eapply Hl.
Qed.
Lemma linked_tail x l : linked (x :: l) → linked l.
Proof. intros H i a b Ha Hb. by apply (H (S i)). Qed.

Lemma linked_app l k :
  linked l → linked k →
  (∀ x y, last l = Some x → head k = Some y → mh_block_hash y = mh_prev_block_hash x) → linked (l ++ k).
Proof.
  induction l as [|a l IH]; intros Hl Hk Hj; [done|]. simpl. apply linked_cons.
  - intros y Hy. destruct l as [|b l]; simpl in Hy; [by apply Hj|]. injection Hy as <-. by apply (Hl 0%nat).
  - apply IH; [by eapply linked_tail|done|]. intros x y Hx. apply Hj. destruct l; [done|]. by rewrite last_cons, Hx.
Qed.

Lemma sequential_linked {A} (header : A → BlockHeaderInfo) e x l :
  sequential header e (mh_prev_block_hash x) l = Ok tt → linked (x :: map header l).
Proof.
  revert x. induction l as [|y l IH]; intros x H; simpl in H.
  - apply linked_cons; [done|]. intros i a b Ha. by destruct i.
  - case_bool_decide as Hy; [|discriminate]. simpl. apply linked_cons; [|by apply IH]. by intros ? [= <-].
Qed.

Section Facts.
Context {TC : TextCodecs} {CC : ConsensusCodecs} {MS : MainchainService}.

(** What [request_ancestor_infos] relies on. *)
Lemma get_block_infos_linked h n l :
  get_block_infos h n = Ok (Some l) → l ≠ [] ∧ linked (map fst l).
Proof.
  unfold get_block_infos. intros H. destruct (of_grpc _) as [infos|]; [|discriminate]. cbn [mbind result_bind] in H.
  destruct (bool_decide _); [discriminate|]. destruct (try_map decode_info infos) as [[|x k]|]; try discriminate.
  cbn [mbind result_bind] in H. destruct (sequential _ _ _ _) as [[]|] eqn:E; [|discriminate].
  injection H as <-. split; [done|]. simpl. by eapply sequential_linked.
Qed.

Lemma get_block_header_infos_linked h n l :
  get_block_header_infos h n = Ok (Some l) → l ≠ [] ∧ linked l.
Proof.
  unfold get_block_header_infos. intros H. destruct (of_grpc _) as [infos|]; [|discriminate]. cbn [mbind result_bind] in H.
  destruct (bool_decide _); [discriminate|]. destruct (try_map decode_header_info infos) as [[|x k]|]; try discriminate.
  cbn [mbind result_bind] in H. destruct (sequential _ _ _ _) as [[]|] eqn:E; [|discriminate].
  injection H as <-. split; [done|]. apply sequential_linked in E. by rewrite map_id in E.
Qed.

(** ** Hashes *)

Theorem reverse_hex_roundtrip m f h :
  length h = 32%nat → Forall is_u8 h → ReverseHex_decode m f (ReverseHex_encode h) = Ok h.
Proof.
  intros Hl Hb. unfold ReverseHex_decode, ReverseHex_encode. cbn [rh_hex ok_or mbind result_bind].
  rewrite hex_roundtrip by (by apply Forall_rev, serialize_hash_u8). cbn [ok_or mbind result_bind].
  rewrite rev_involutive, hash_roundtrip by done. done.
Qed.

Theorem consensus_hex_roundtrip m f h :
  length h = 32%nat → ConsensusHex_decode m f (ConsensusHex_encode h) = Ok h.
Proof.
  intros Hl. unfold ConsensusHex_decode, ConsensusHex_encode. cbn [ch_hex ok_or mbind result_bind].
  by rewrite hash_hex_roundtrip.
Qed.

(** ** Deposits *)

Lemma from_utf8_ascii s : Forall (fun c => 0 ≤ c < 128) s → from_utf8 s = true.
Proof.
  induction 1 as [|c s Hc _ IH]; [done|]. cbn [from_utf8]. destruct (Z.ltb_spec c 128); [done|lia].
Qed.

Lemma base58_ascii b : Forall (fun c => 0 ≤ c < 128) (base58_encode b).
Proof. eapply Forall_impl; [apply base58_chars|]. simpl. lia. Qed.

Lemma deposit_ascii a : Forall (fun c => 0 ≤ c < 128) (format_for_deposit a).
Proof.
  unfold format_for_deposit. repeat (apply Forall_app; split).
  - apply (bool_decide_unpack _). vm_compute. exact I.
  - apply base58_ascii.
  - apply (bool_decide_unpack _). vm_compute. exact I.
  - eapply Forall_impl; [apply hex_digits|]. simpl. lia.
Qed.

(** Base 58 has no underscore, so a bare address is not a deposit address. *)
Lemma bare_not_deposit b a : from_deposit_address (base58_encode b) ≠ Ok a.
Proof.
  intros (str & sum & Hb & _)%from_deposit_form. pose proof (base58_chars b) as Hc.
  rewrite Hb, Forall_forall in Hc. specialize (Hc underscore).
  destruct Hc as [H|[H|H]]; [|unfold underscore in H; lia..].
  apply elem_of_app. left. apply (bool_decide_unpack _). vm_compute. exact I.
Qed.

Definition no_address (b : bytes) : Prop :=
  (∀ a, from_deposit_address b ≠ Ok a) ∧ (∀ a, Address_from_str b ≠ Ok a).

Lemma deposit_address_cases b :
  (∀ a, length a = 20%nat → b = format_for_deposit a ∨ b = as_base58 a → deposit_output_address b = a) ∧
  (from_utf8 b = false ∨ no_address b → deposit_output_address b = Address_ALL_ZEROS).
Proof.
  unfold deposit_output_address. split.
  - intros a Ha [-> | ->].
    + rewrite from_utf8_ascii by apply deposit_ascii. cbn [negb].
      by rewrite deposit_form_read.
    + rewrite from_utf8_ascii by apply base58_ascii. cbn [negb].
      destruct (from_deposit_address (as_base58 a)) as [x|] eqn:E; [by apply bare_not_deposit in E|].
      by rewrite bare_address_parses.
  - intros [Hu|[Hd Hf]]; [by rewrite Hu|]. destruct (from_utf8 b); [|done]. cbn [negb].
    destruct (from_deposit_address b) as [a|]; [by destruct (Hd a)|].
    destruct (Address_from_str b) as [a|]; [by destruct (Hf a)|done].
Qed.

(** C32: a deposit is an error exactly when a field of it is missing or the
    address field is not hexadecimal.  Otherwise it is credited to the address
    its bytes name, in the deposit form or bare, and to the address of nobody
    when they are not text or name no address. *)
Theorem deposit_credited o :
  match gd_address o ≫= hx_hex, gd_value_sats o with
  | Some hex, Some value =>
      match hex_decode hex with
      | None => decode_deposit_output o = Err (InvalidFieldValue "address" "Output" hex)
      | Some b => ∃ address,
          decode_deposit_output o = Ok {| out_address := address; out_content := FBitcoin value; out_memo := [] |} ∧
          (∀ a, length a = 20%nat → b = format_for_deposit a ∨ b = as_base58 a → address = a) ∧
          (from_utf8 b = false ∨ no_address b → address = Address_ALL_ZEROS)
      end
  | _, _ => is_ok (decode_deposit_output o) = false
  end.
Proof.
  destruct o as [[[[hex|]]|] [value|]]; cbn [gd_address gd_value_sats hx_hex mbind option_bind];
    unfold decode_deposit_output, decode_bytes, field; cbn [gd_address gd_value_sats hx_hex ok_or mbind result_bind]; try done.
  - destruct (hex_decode hex) as [b|]; cbn [ok_or mbind result_bind]; [|done].
    exists (deposit_output_address b). split; [done|apply deposit_address_cases].
  - by destruct (hex_decode hex).
Qed.

End Facts.
