(* ===== verification/MainTask.v ===== *)
(** * The task that follows the mainchain

    Model of src/lib/node/mainchain_task.rs: fetching the missing ancestors of a
    mainchain block from the mainchain node, moving the archive's mainchain tip
    to another block, following the events of the mainchain node, and the
    requests of the other tasks.  The task writes to the archive and sends
    events; a failed write transaction leaves the archive as it was. *)

From stdpp Require Import base numbers list strings gmap.
From S2P Require Import Prelude Float64 StateErrors Transactions TwoWayPeg Bodies Archive ArchiveStore.
From S2P Require Import Addresses Proto.

(** ** Messages *)

Inductive MainRequest : Type := ReqAncestorInfos (block_hash : MainBlockHash).

Inductive ResponseError : Type :=
| RespArchive (e : ArchiveError)
| RespMainchain (e : ProtoError).

(** The flag says whether the requested header was available. *)
Inductive MainResponse : Type :=
| RespAncestorInfos (block_hash : MainBlockHash) (r : result ResponseError bool).

Definition request_of_response (r : MainResponse) : MainRequest :=
  match r with RespAncestorInfos h _ => ReqAncestorInfos h end.

Inductive TaskEvent : Type :=
| TaskBlock (e : MainEvent)
| TaskResponse (r : MainResponse).

Inductive MainTaskError : Type :=
| AncestorInfoUnavailable (tip : MainBlockHash)
| HandleBlockEvent (e : ArchiveError)
| TaskMainchain (e : ProtoError)
| RequestAncestorInfos (tip : MainBlockHash) (e : ResponseError)
| SyncSideTipsToTip (tip : MainBlockHash) (e : ArchiveError).

(** ** Progress *)

Inductive MainchainSyncPhase : Type := Idle | SyncHeaders | Writing.
Record MainchainSyncProgress : Type := {
  sp_phase : MainchainSyncPhase; sp_done : Z; sp_total : Z; sp_tip_height : Z
}.

Definition fetched_headers (tip_height : Z) (next_height : option Z) : MainchainSyncProgress :=
  {| sp_phase := SyncHeaders; sp_done := as_u32 (tip_height - default 0 next_height);
     sp_total := tip_height; sp_tip_height := tip_height |}.
Definition start_writing (tip_height total : Z) : MainchainSyncProgress :=
  {| sp_phase := Writing; sp_done := 0; sp_total := total; sp_tip_height := tip_height |}.
Definition wrote_headers (p : MainchainSyncProgress) (n : Z) : MainchainSyncProgress :=
  {| sp_phase := sp_phase p; sp_done := as_u32 (sp_done p + n); sp_total := sp_total p;
     sp_tip_height := sp_tip_height p |}.
Definition set_idle : MainchainSyncProgress :=
  {| sp_phase := Idle; sp_done := 0; sp_total := 0; sp_tip_height := 0 |}.

(** The task: the archive, the progress shown to others, the events sent and
    the answers to requests that wait for one. *)
Record MainTask : Type := {
  mt_archive : Archive;
  mt_progress : MainchainSyncProgress;
  mt_events : list TaskEvent;
  mt_replies : list MainResponse
}.

Definition BATCH_REQUEST_SIZE : Z := 20000.

Abbreviation Infos := (list (BlockHeaderInfo * BlockInfo)) (only parsing).

Section Task.
Context {AE : ArchiveEnv}.

(** ** Fetching ancestors *)

(** [try_get_main_header_info(..).is_some()]. *)
Definition knows_main (a : Archive) (h : MainBlockHash) : bool := bool_decide (is_Some (main_header_infos a !! h)).

(** Whether the loop has reached the first block or a known one. *)
Definition at_known (a : Archive) (h : MainBlockHash) : bool := bool_decide (h = all_zeros) || knows_main a h.

Section Fetch.
(** The mainchain client. *)
Context (get_infos : MainBlockHash → Z → result ProtoError (option Infos)).

(** The loop asks the mainchain node for [fuel] batches at most; [Ok None] when
    a block was not available. *)
Fixpoint fetch_infos (fuel : nat) (a : Archive) (current : MainBlockHash) (infos : Infos)
  (p : MainchainSyncProgress) : result ResponseError (option Infos) * MainchainSyncProgress :=
  match fuel with
  | O => (Err (RespArchive LoopBound), p)
  | S fuel =>
      match get_infos current (BATCH_REQUEST_SIZE - 1) with
      | Err e => (Err (RespMainchain e), p)
      | Ok None => (Ok None, p)
      | Ok (Some resp) =>
          match last resp with
          | None => (Err (RespArchive (ArchivePanic "empty NonEmpty")), p)
          | Some (current_header, _) =>
              let current := mh_prev_block_hash current_header in
              let current_height := checked_sub (mh_height current_header) 1 in
              let infos := infos ++ resp in
              let tip_height := match infos with (i, _) :: _ => mh_height i | [] => 0 end in
              let p := fetched_headers tip_height current_height in
              if at_known a current then (Ok (Some infos), p) else fetch_infos fuel a current infos p
          end
      end
  end.

(** The write transaction: the progress moves even when it fails. *)
Fixpoint store_infos (a : Archive) (p : MainchainSyncProgress) (l : Infos)
  : result ArchiveError Archive * MainchainSyncProgress :=
  match l with
  | [] => (Ok a, p)
  | (header_info, block_info) :: l =>
      match (a ← put_main_header_info a header_info;
             put_main_block_info a (mh_block_hash header_info) block_info) with
      | Err e => (Err e, p)
      | Ok a => store_infos a (wrote_headers p 1) l
      end
  end.

Definition request_ancestor_infos (fuel : nat) (a : Archive) (p : MainchainSyncProgress) (h : MainBlockHash)
  : result ResponseError bool * Archive * MainchainSyncProgress :=
  if at_known a h then (Ok true, a, p) else
  match fetch_infos fuel a h [] p with
  | (Err e, p) => (Err e, a, p)
  | (Ok None, p) => (Ok false, a, p)
  | (Ok (Some infos), p) =>
      let tip_height := match infos with (i, _) :: _ => mh_height i | [] => 0 end in
      match store_infos a (start_writing tip_height (as_u32 (Z.of_nat (length infos)))) (rev infos) with
      | (Err e, p) => (Err (RespArchive e), a, p)
      | (Ok a, p) => (Ok true, a, p)
      end
  end.

End Fetch.

(** ** Moving the mainchain tip *)

(** The sidechain block a mainchain block connects: the one it commits to, if
    its body is stored, its parent is a tip, and the commitment is verified. *)
Definition bmm_commitment_at (a : Archive) (main : MainBlockHash) (info : BlockInfo)
  : result ArchiveError (option (BlockHash * Header)) :=
  match bmm_commitment info with
  | None => Ok None
  | Some side =>
      if negb (contains_body a side) then Ok None else
      header ← get_header a side;
      if match prev_side_hash header with
         | Some parent => negb (bool_decide (is_Some (sidechain_tips (side_tips a) !! parent)))
         | None => false
         end
      then Ok None else
      r ← get_bmm_result a side main;
      Ok (match r with Verified => Some (side, header) | BmmFailed => None end)
  end.

Definition with_tips (a : Archive) (r : result SideTipsError SideTips) : result ArchiveError Archive :=
  tips ← map_err SideTipsErr r; Ok (with_side_tips a tips).

(** [while let Some(info) = side_tips_tip_info]; every turn goes to the parent,
    so the number of mainchain headers bounds the turns. *)
Fixpoint disconnect_main (fuel : nat) (a : Archive) (common : MainBlockHash) (tip : option BlockHeaderInfo)
  (events : list MainEvent) : result ArchiveError (Archive * option BlockHeaderInfo * list MainEvent) :=
  match tip with
  | None => Ok (a, None, events)
  | Some info =>
      if bool_decide (mh_block_hash info = common) then Ok (a, tip, events) else
      match fuel with
      | O => Err LoopBound
      | S fuel =>
          prev ← main_parent_header_info a info;
          block ← get_main_block_info a (mh_block_hash info);
          a ← with_tips a (disconnect_mainchain_tip (side_tips a) prev (bmm_commitment block));
          disconnect_main fuel a common prev (events ++ [DisconnectBlock (mh_block_hash info)])
      end
  end.

(** One block of a batch. *)
Definition connect_main_one (st : Archive * option BlockHeaderInfo * list MainEvent) (info : BlockHeaderInfo)
  : result ArchiveError (Archive * option BlockHeaderInfo * list MainEvent) :=
  let '(a, _, events) := st in
  block ← get_main_block_info a (mh_block_hash info);
  commitment ← bmm_commitment_at a (mh_block_hash info) block;
  a ← with_tips a (connect_mainchain_tip (side_tips a) info commitment);
  Ok (a, Some info, events ++ [ConnectBlock info block]).

(** [take(n)] of the iterator from old to new. *)
Fixpoint take_main_rev (n : nat) (a : Archive) (h : MainBlockHash) (it : AncestorsRev BlockHeaderInfo)
  : result ArchiveError (list BlockHeaderInfo) :=
  match n with
  | O => Ok []
  | S n =>
      '(o, it) ← main_ancestors_rev_next a h it;
      match o with
      | None => Ok []
      | Some info => l ← take_main_rev n a h it; Ok (info :: l)
      end
  end.

Definition BATCH_SIZE : nat := 32.
Definition extract_tip (tip : option BlockHeaderInfo) : MainBlockHash :=
  match tip with Some info => mh_block_hash info | None => all_zeros end.

(** [while extract_tip(tip) != mainchain_tip], a batch at a time. *)
Fixpoint connect_main (fuel : nat) (a : Archive) (target : MainBlockHash) (tip : option BlockHeaderInfo)
  (events : list MainEvent) : result ArchiveError (Archive * list MainEvent) :=
  if bool_decide (extract_tip tip = target) then Ok (a, events) else
  match fuel with
  | O => Err LoopBound
  | S fuel =>
      let start_height := match tip with Some info => mh_height info + 1 | None => 0 end in
      batch ← take_main_rev BATCH_SIZE a target (AncestorsRev_new start_height);
      '(a, tip, events) ← try_fold connect_main_one (a, tip, events) batch;
      connect_main fuel a target tip events
  end.

Definition main_common_ancestor (a : Archive) (target : MainBlockHash) : result ArchiveError MainBlockHash :=
  let current := mainchain_tip_hash (mainchain_tip (side_tips a)) in
  if bool_decide (current = all_zeros) || bool_decide (target = all_zeros) then Ok all_zeros
  else last_common_main_ancestor a target current.

(** The archive at the new tip and the events to send once it is committed. *)
Definition sync_side_tips_to_tip (a : Archive) (target : MainBlockHash)
  : result ArchiveError (Archive * list MainEvent) :=
  common ← main_common_ancestor a target;
  '(a, tip, events) ← disconnect_main (S (size (main_header_infos a))) a common
                        (tip_info (mainchain_tip (side_tips a))) [];
  connect_main (S (size (main_header_infos a))) a target tip events.

(** ** Events of the mainchain node *)

Definition store_block_event (a : Archive) (event : MainEvent) : result ArchiveError Archive :=
  match event with
  | ConnectBlock header_info block_info =>
      a ← put_main_header_info a header_info;
      a ← put_main_block_info a (mh_block_hash header_info) block_info;
      commitment ← bmm_commitment_at a (mh_block_hash header_info) block_info;
      with_tips a (connect_mainchain_tip (side_tips a) header_info commitment)
  | DisconnectBlock block_hash =>
      header_info ← get_main_header_info a block_hash;
      block ← get_main_block_info a block_hash;
      parent ← main_parent_header_info a header_info;
      with_tips a (disconnect_mainchain_tip (side_tips a) parent (bmm_commitment block))
  end.

Definition send_events (t : MainTask) (l : list TaskEvent) : MainTask :=
  {| mt_archive := mt_archive t; mt_progress := mt_progress t; mt_events := mt_events t ++ l;
     mt_replies := mt_replies t |}.
Definition set_mt (t : MainTask) (a : Archive) (p : MainchainSyncProgress) : MainTask :=
  {| mt_archive := a; mt_progress := p; mt_events := mt_events t; mt_replies := mt_replies t |}.

Definition handle_block_event (t : MainTask) (event : MainEvent) : result MainTaskError unit * MainTask :=
  match store_block_event (mt_archive t) event with
  | Err e => (Err (HandleBlockEvent e), t)
  | Ok a => (Ok tt, send_events (set_mt t a (mt_progress t)) [TaskBlock event])
  end.

(** ** The task *)

Section Run.
Context (get_infos : MainBlockHash → Z → result ProtoError (option Infos)).

(** [oneshot] says whether the sender of the request waits for the answer. *)
Definition handle_request (fuel : nat) (t : MainTask) (request : MainRequest) (oneshot : bool) : MainTask :=
  match request with
  | ReqAncestorInfos h =>
      let '(res, a, _) := request_ancestor_infos get_infos fuel (mt_archive t) (mt_progress t) h in
      let t := set_mt t a set_idle in
      let response := RespAncestorInfos h res in
      if oneshot then
        {| mt_archive := mt_archive t; mt_progress := mt_progress t; mt_events := mt_events t;
           mt_replies := mt_replies t ++ [response] |}
      else send_events t [TaskResponse response]
  end.

Inductive MailboxItem : Type :=
| MailBlockEvent (e : result ProtoError MainEvent)
| MailRequest (request : MainRequest) (oneshot : bool).

(** The messages in the order they arrive; the first error ends the run. *)
Fixpoint run_mailbox (fuel : nat) (t : MainTask) (items : list MailboxItem) : result MainTaskError unit * MainTask :=
  match items with
  | [] => (Ok tt, t)
  | MailBlockEvent (Err e) :: _ => (Err (TaskMainchain e), t)
  | MailBlockEvent (Ok e) :: items =>
      match handle_block_event t e with
      | (Err e, t) => (Err e, t)
      | (Ok _, t) => run_mailbox fuel t items
      end
  | MailRequest request oneshot :: items => run_mailbox fuel (handle_request fuel t request oneshot) items
  end.

(** [run_once] after the subscription gave [best_main_tip]. *)
Definition run_once (fuel : nat) (t : MainTask) (best_main_tip : MainBlockHash) (items : list MailboxItem)
  : result MainTaskError unit * MainTask :=
  let '(res, a, _) := request_ancestor_infos get_infos fuel (mt_archive t) (mt_progress t) best_main_tip in
  let t := set_mt t a set_idle in
  match res with
  | Err e => (Err (RequestAncestorInfos best_main_tip e), t)
  | Ok false => (Err (AncestorInfoUnavailable best_main_tip), t)
  | Ok true =>
      match sync_side_tips_to_tip (mt_archive t) best_main_tip with
      | Err e => (Err (SyncSideTipsToTip best_main_tip e), t)
      | Ok (a, events) => run_mailbox fuel (send_events (set_mt t a (mt_progress t)) (map TaskBlock events)) items
      end
  end.

End Run.

End Task.
