(* ===== verification/MainTaskFacts.v ===== *)
(** * Following the mainchain

    [sync_side_tips_to_tip] leads from the current mainchain tip to any known
    block: the blocks that are not its ancestors are disconnected, newest first,
    then the missing ones are connected, oldest first, and the events tell
    exactly that path.  A commitment to a side block that was never connected
    stops it. *)

From stdpp Require Import base numbers list strings gmap.
From S2P Require Import Prelude Float64 StateErrors Transactions TwoWayPeg Bodies Archive ArchiveStore.
From S2P Require Import ArchiveFacts ArchiveStoreFacts ArchiveInvalidation ArchiveReach ArchiveQueries ArchiveTips.
From S2P Require Import Addresses Proto MainTask.

(** ** Taking from the batched iterator *)

Section Take.
Context {Item : Type} (end_height : Z) (block_at : Z → bytes) (item_at : Z → Item).
Context (nth : Z → result ArchiveError bytes) (take_items : nat → bytes → result ArchiveError (list Item)).
Context (Hend : end_height ≤ U32_MAX)
  (Hnth : ∀ k, 0 ≤ k ≤ end_height → nth k = Ok (block_at (end_height - k)))
  (Htake : ∀ (n : nat) j, Z.of_nat n ≤ j + 1 → j ≤ end_height →
     take_items n (block_at j) = Ok (map item_at (rev (range (j + 1 - Z.of_nat n) (j + 1))))).

Lemma rev_next_ext e take_items' it :
  (∀ k h, take_items k h = take_items' k h) → rev_next e nth take_items it = rev_next e nth take_items' it.
Proof.
  intros H. unfold rev_next. destruct (match rv_inner it with Some _ => _ | None => _ end) as [[h b]|]; [|done].
  cbn [mbind result_bind]. destruct b; [|done]. destruct (rv_batch_start_height it) as [s|]; [|done].
  destruct (h <? s); [done|]. destruct (nth _); [|done]. cbn [mbind result_bind]. by rewrite H.
Qed.

Fixpoint rev_take (n : nat) (it : AncestorsRev Item) : result ArchiveError (list Item) :=
  match n with
  | O => Ok []
  | S n =>
      '(o, it) ← rev_next (Ok end_height) nth take_items it;
      match o with None => Ok [] | Some x => l ← rev_take n it; Ok (x :: l) end
  end.

Lemma rev_take_ok (n : nat) it :
  iter_ok end_height it → rev_take n it = Ok (take n (rest_of end_height item_at it)).
Proof.
  revert it. induction n as [|n IH]; intros it Hok; [done|].
  destruct (rev_next_ok end_height block_at item_at nth take_items Hend Hnth Htake it Hok) as (it' & Hn & Hok' & Hr).
  cbn [rev_take]. rewrite Hn. cbn [mbind result_bind].
  destruct (rest_of end_height item_at it) as [|x l] eqn:E; [done|]. cbn [head] in *.
  rewrite IH by done. cbn [mbind result_bind]. by rewrite Hr.
Qed.

End Take.

Lemma elem_of_reverse_range k lo hi : k ∈ rev (range lo hi) ↔ lo ≤ k < hi.
Proof. by rewrite <- elem_of_range, !list_elem_of_In, <- in_rev. Qed.

Section Sync.
Context {AE : ArchiveEnv} {BH : BodyHashes}.
Implicit Types (a : Archive) (h : MainBlockHash) (st : SideTips).

(** ** The mainchain under a block *)

(** The infos from the first block to [h], by height. *)
Record main_at a h (n : Z) (info : Z → BlockHeaderInfo) : Prop := {
  ma_nonneg : 0 ≤ n;
  ma_top : mh_block_hash (info n) = h;
  ma_height i : 0 ≤ i ≤ n → main_block_hash_to_height a !! mh_block_hash (info i) = Some i;
  ma_info i : 0 ≤ i ≤ n → main_header_infos a !! mh_block_hash (info i) = Some (info i);
  ma_prev i : 0 ≤ i ≤ n →
    mh_prev_block_hash (info i) = if decide (i = 0) then all_zeros else mh_block_hash (info (i - 1));
  ma_nonzero i : 0 ≤ i ≤ n → mh_block_hash (info i) ≠ all_zeros
}.

Lemma known_info a h n : main_chain_ok a → main_block_hash_to_height a !! h = Some n →
  ∃ i, main_header_infos a !! h = Some i ∧ mh_block_hash i = h ∧ h ≠ all_zeros ∧
    mh_prev_block_hash i = match n with
                           | 0 => all_zeros
                           | _ => mh_prev_block_hash i
                           end ∧
    (0 < n → main_block_hash_to_height a !! mh_prev_block_hash i = Some (n - 1)).
Proof.
  intros Ha Hn. destruct (mc_info a Ha h n Hn) as [i Hi]. exists i.
  destruct (mc_height a Ha h i Hi) as (Hh & Hz & Hp). split_and!; [done..| |].
  - destruct n; try done. case_bool_decide; [done|]. destruct Hp as (m & w & Hm & Hm' & _).
    assert (m + 1 = 0) by congruence. apply height_is_main in Hm. destruct (io_range _ (mc_index a Ha) _ m Hm). lia.
  - intros Hpos. case_bool_decide; [destruct Hp; simplify_eq; lia|]. destruct Hp as (m & w & Hm & Hm' & _).
    rewrite Hm. f_equal. assert (m + 1 = n) by congruence. lia.
Qed.

Lemma main_at_exists a h n : main_chain_ok a → main_block_hash_to_height a !! h = Some n → ∃ info, main_at a h n info.
Proof.
  intros Ha Hn. assert (0 ≤ n) as H0 by (apply height_is_main in Hn; by destruct (io_range _ (mc_index a Ha) _ n Hn)).
  revert h Hn. pattern n. apply natlike_ind; [..|done].
  - intros h Hn. destruct (known_info a h 0 Ha Hn) as (i & Hi & Hh & Hz & Hp & _). exists (fun _ => i).
    assert (∀ j, 0 ≤ j ≤ 0 → j = 0) as Hj by lia.
    split; [lia|done|..]; intros j ->%Hj; simpl; rewrite ?Hh; done.
  - clear n H0. intros n H0 IH h Hn. destruct (known_info a h (Z.succ n) Ha Hn) as (i & Hi & Hh & Hz & _ & Hp).
    specialize (Hp ltac:(lia)). replace (Z.succ n - 1) with n in Hp by lia.
    destruct (IH _ Hp) as [f Hf]. exists (fun j => if decide (j ≤ n) then f j else i).
    assert (∀ j, 0 ≤ j ≤ Z.succ n → j ≤ n ∨ j = Z.succ n) as Hj by lia.
    split; [lia|by rewrite decide_False by lia|..]; intros j Hr; destruct (Hj j Hr) as [Hle| ->];
      rewrite ?(decide_True (P := j ≤ n)) by done; rewrite ?(decide_False (P := Z.succ n ≤ n)) by lia.
    + apply Hf; lia.
    + by rewrite Hh.
    + apply Hf; lia.
    + by rewrite Hh.
    + rewrite (ma_prev _ _ _ _ Hf) by lia. destruct (decide (j = 0)); [done|]. by rewrite (decide_True (P := j - 1 ≤ n)) by lia.
    + rewrite (decide_False (P := Z.succ n = 0)), (decide_True (P := Z.succ n - 1 ≤ n)) by lia.
      replace (Z.succ n - 1) with n by lia. by rewrite (ma_top _ _ _ _ Hf).
    + apply Hf; lia.
    + by rewrite Hh.
Qed.

Lemma main_at_height a h n f i : main_at a h n f → 0 ≤ i ≤ n → height_is (main_index a) (mh_block_hash (f i)) i.
Proof. intros Hf Hi. apply height_is_main. by apply (ma_height _ _ _ _ Hf). Qed.

Lemma main_at_parent a h n f (k : nat) i :
  main_at a h n f → Z.of_nat k ≤ i → i ≤ n →
  nth_parent (main_index a) k (mh_block_hash (f i)) = Some (mh_block_hash (f (i - Z.of_nat k))).
Proof.
  intros Hf. revert i. induction k as [|k IH]; intros i Hk Hi.
  { simpl. by rewrite Z.sub_0_r. }
  cbn [nth_parent main_index ix_parent]. unfold get_main_header_info. rewrite (ma_info _ _ _ _ Hf) by lia.
  cbn [ok_or mbind result_bind]. rewrite (ma_prev _ _ _ _ Hf), decide_False by lia.
  rewrite IH by lia. do 3 f_equal. lia.
Qed.

Lemma main_at_ancestor a h n f i :
  main_at a h n f → 0 ≤ i ≤ n → ancestor_of (main_index a) (mh_block_hash (f i)) h.
Proof.
  intros Hf Hi. exists n, (Z.to_nat (n - i)). pose proof (ma_top _ _ _ _ Hf) as Ht. split_and!.
  - rewrite <- Ht. apply (main_at_height a h n f); [done|]. lia.
  - lia.
  - rewrite <- Ht, (main_at_parent a h n f) by (done || lia). do 3 f_equal. lia.
Qed.

Lemma ancestor_main_at a h n f x :
  main_chain_ok a → main_at a h n f → ancestor_of (main_index a) x h → ∃ i, 0 ≤ i ≤ n ∧ x = mh_block_hash (f i).
Proof.
  intros Ha Hf (m & k & Hh & Hx & Hk & Hp)%ancestor_of_height; [|apply Ha].
  pose proof (ma_top _ _ _ _ Hf) as Ht. rewrite <- Ht in Hh, Hp.
  pose proof (ma_nonneg _ _ _ _ Hf). pose proof (height_is_fun _ _ _ _ Hh (main_at_height a h n f n Hf ltac:(lia))).
  subst m. exists (n - k). split; [lia|]. rewrite (main_at_parent a h n f) in Hp by (done || lia).
  rewrite Z2Nat.id in Hp by lia. congruence.
Qed.

Lemma main_at_size a h n f : main_at a h n f → n + 1 ≤ Z.of_nat (size (main_header_infos a)).
Proof.
  intros Hf. pose proof (ma_nonneg _ _ _ _ Hf) as Hn. set (g := fun i => mh_block_hash (f i)).
  assert (NoDup (map g (range 0 (n + 1)))) as Hnd.
  { apply NoDup_fmap_2_strong; [|apply range_NoDup]. intros i j Hi%elem_of_range Hj%elem_of_range Heq.
    pose proof (ma_height _ _ _ _ Hf i ltac:(lia)) as H1. pose proof (ma_height _ _ _ _ Hf j ltac:(lia)) as H2.
    fold (g i) in H1. fold (g j) in H2. congruence. }
  assert (map g (range 0 (n + 1)) ⊆+ elements (dom (main_header_infos a))) as Hsub.
  { apply NoDup_submseteq; [done|]. intros x (i & -> & Hi%elem_of_range)%list_elem_of_fmap.
    apply elem_of_elements, elem_of_dom. unfold g. rewrite (ma_info _ _ _ _ Hf) by lia. eauto. }
  apply submseteq_length in Hsub. rewrite length_map, range_length in Hsub.
  change (length (elements (dom (main_header_infos a)))) with (size (dom (main_header_infos a))) in Hsub.
  rewrite size_dom in Hsub. lia.
Qed.

Lemma take_main_chain a h n f (k : nat) j :
  main_at a h n f → Z.of_nat k ≤ j + 1 → j ≤ n →
  take_main_ancestors a k (if decide (j < 0) then all_zeros else mh_block_hash (f j))
  = Ok (map f (rev (range (j + 1 - Z.of_nat k) (j + 1)))).
Proof.
  intros Hf. revert j. induction k as [|k IH]; intros j Hk Hj.
  { by rewrite range_empty by lia. }
  rewrite decide_False by lia. cbn [take_main_ancestors].
  rewrite bool_decide_false by (apply (ma_nonzero _ _ _ _ Hf); lia).
  unfold get_main_header_info. rewrite (ma_info _ _ _ _ Hf) by lia. cbn [ok_or mbind result_bind].
  rewrite (ma_prev _ _ _ _ Hf) by lia.
  replace (if decide (j = 0) then all_zeros else mh_block_hash (f (j - 1)))
    with (if decide (j - 1 < 0) then all_zeros else mh_block_hash (f (j - 1)))
    by (destruct (decide (j = 0)), (decide (j - 1 < 0)); try done; lia).
  rewrite IH by lia. cbn [mbind result_bind]. f_equal.
  rewrite (range_snoc (j + 1 - Z.of_nat (S k)) j), rev_app_distr by lia. simpl.
  replace (j - 1 + 1) with j by lia. by replace (j + 1 - Z.of_nat (S k)) with (j - Z.of_nat k) by lia.
Qed.

(** ** Moving the tip *)

(** The mainchain node's heights are those of the chain, and the archive knows
    the block of every header and the result of every commitment to a stored
    body; nothing else of the archive is assumed. *)
Record followable a : Prop := {
  fo_tip : match tip_info (mainchain_tip (side_tips a)) with
           | Some i => main_header_infos a !! mh_block_hash i = Some i
           | None => True
           end;
  fo_heights h i : main_header_infos a !! h = Some i → main_block_hash_to_height a !! h = Some (mh_height i);
  fo_infos h : is_Some (main_header_infos a !! h) → is_Some (main_block_infos a !! h);
  fo_bodies c : is_Some (bodies a !! c) → is_Some (headers a !! c);
  fo_results h b c : main_block_infos a !! h = Some b → bmm_commitment b = Some c →
    is_Some (bodies a !! c) → is_Some (try_get_bmm_result a c h);
  fo_range h n : main_block_hash_to_height a !! h = Some n → n < 2 ^ 31
}.

(** A block can be disconnected: the side block it commits to is a known tip, in
    order when it was connected for this block. *)
Definition leavable a st h : Prop :=
  ∀ b c, main_block_infos a !! h = Some b → bmm_commitment b = Some c →
    ∃ t, sidechain_tips st !! c = Some t ∧
      (ti_main_block_hash t = h → is_Some (ordered_sidechain_tips st !! t)).

Lemma with_side_tips_twice a st st' : with_side_tips (with_side_tips a st) st' = with_side_tips a st'.
Proof. done. Qed.
Lemma with_side_tips_same a : with_side_tips a (side_tips a) = a.
Proof. by destruct a. Qed.

Section Path.
Context (a : Archive) (Ha : main_chain_ok a) (Hfo : followable a).

Lemma info_height h n f i : main_at a h n f → 0 ≤ i ≤ n → mh_height (f i) = i.
Proof.
  intros Hf Hi. pose proof (fo_heights _ Hfo _ _ (ma_info _ _ _ _ Hf i Hi)) as H1.
  rewrite (ma_height _ _ _ _ Hf i Hi) in H1. by injection H1.
Qed.

(** The tip at a height, none below the first block. *)
Definition tip_at (f : Z → BlockHeaderInfo) (j : Z) : option BlockHeaderInfo :=
  if decide (j < 0) then None else Some (f j).

Lemma extract_tip_at f j : extract_tip (tip_at f j) = if decide (j < 0) then all_zeros else mh_block_hash (f j).
Proof. unfold tip_at. by destruct (decide (j < 0)). Qed.

Lemma parent_at h n f j : main_at a h n f → 0 ≤ j ≤ n → main_parent_header_info a (f j) = Ok (tip_at f (j - 1)).
Proof.
  intros Hf Hj. unfold main_parent_header_info, tip_at. rewrite (ma_prev _ _ _ _ Hf) by done.
  destruct (decide (j = 0)) as [->|Hne]; [by rewrite bool_decide_true|].
  rewrite bool_decide_false by (apply (ma_nonzero _ _ _ _ Hf); lia). unfold get_main_header_info.
  rewrite (ma_info _ _ _ _ Hf) by lia. by rewrite decide_False by lia.
Qed.

(** The parent is accepted as the previous tip. *)
Lemma previous_accepted h n f j :
  main_at a h n f → 0 ≤ j ≤ n →
  match tip_at f (j - 1) with
  | Some prev =>
      if negb (bool_decide (mh_block_hash prev = mh_prev_block_hash (f j)))
      then Err (DisconnectInvalidMainchainParent (mh_prev_block_hash (f j)))
      else if negb (mh_height prev + 1 =? mh_height (f j))
      then Err (InvalidMainchainParentHeight (mh_height (f j)))
      else Ok (if bool_decide (mh_prev_block_hash (f j) = all_zeros) then None else Some prev)
  | None =>
      if bool_decide (mh_prev_block_hash (f j) = all_zeros) then Ok None
      else Err (DisconnectInvalidMainchainParent (mh_prev_block_hash (f j)))
  end = Ok (tip_at f (j - 1)).
Proof.
  intros Hf Hj. unfold tip_at. rewrite (ma_prev _ _ _ _ Hf) by done. destruct (decide (j - 1 < 0)).
  - by rewrite decide_True, bool_decide_true by (done || lia).
  - rewrite decide_False, bool_decide_true by (done || lia). cbn [negb].
    rewrite !(info_height h n f) by (done || lia). rewrite (proj2 (Z.eqb_eq _ _)) by lia. cbn [negb].
    rewrite bool_decide_false; [done|]. apply (ma_nonzero _ _ _ _ Hf). lia.
Qed.

(** Disconnecting one block. *)
Lemma disconnect_one h n f j st b :
  main_at a h n f → 0 ≤ j ≤ n → tip_info (mainchain_tip st) = Some (f j) →
  main_block_infos a !! mh_block_hash (f j) = Some b → leavable a st (mh_block_hash (f j)) →
  ∃ st', disconnect_mainchain_tip st (tip_at f (j - 1)) (bmm_commitment b) = Ok st' ∧
    tip_info (mainchain_tip st') = tip_at f (j - 1) ∧ sidechain_tips st' = sidechain_tips st ∧
    ∀ t, ti_main_block_hash t ≠ mh_block_hash (f j) → ordered_sidechain_tips st' !! t = ordered_sidechain_tips st !! t.
Proof.
  intros Hf Hj Ht Hb Hl. unfold disconnect_mainchain_tip. rewrite Ht. cbn [ok_or mbind result_bind].
  rewrite (previous_accepted h n f) by done. cbn [mbind result_bind]. destruct (bmm_commitment b) as [c|] eqn:Ec.
  - destruct (Hl b c Hb Ec) as (t & Hst & Hord). rewrite Hst. cbn [ok_or mbind result_bind].
    destruct (decide (ti_main_block_hash t = mh_block_hash (f j))) as [Hm|Hm];
      [rewrite (bool_decide_true (ti_main_block_hash t = _)) by done|rewrite (bool_decide_false (ti_main_block_hash t = _)) by done].
    + rewrite (bool_decide_true (is_Some (ordered_sidechain_tips st !! t))) by (by apply Hord). cbn [mbind result_bind].
      eexists. split_and!; [reflexivity|done|done|]. cbn [ordered_sidechain_tips]. intros t' Ht'.
      apply lookup_delete_ne. congruence.
    + cbn [mbind result_bind]. by eexists.
  - cbn [mbind result_bind]. by eexists.
Qed.

(** The first loop. *)
Lemma disconnect_main_ok h n f (fuel : nat) j m st events :
  main_at a h n f → -1 ≤ j → j ≤ m → m ≤ n → m - j ≤ Z.of_nat fuel →
  tip_info (mainchain_tip st) = tip_at f m →
  (∀ i, j < i ≤ m → leavable a st (mh_block_hash (f i))) →
  ∃ st', disconnect_main fuel (with_side_tips a st) (extract_tip (tip_at f j)) (tip_at f m) events
    = Ok (with_side_tips a st', tip_at f j,
          events ++ map (fun i => DisconnectBlock (mh_block_hash (f i))) (rev (range (j + 1) (m + 1)))) ∧
    tip_info (mainchain_tip st') = tip_at f j.
Proof.
  intros Hf Hj. revert m st events. induction fuel as [|fuel IH]; intros m st events Hjm Hmn Hfuel Ht Hl.
  all: destruct (decide (m = j)) as [->|Hne]; [|try lia].
  1, 2: exists st; split; [|done]; rewrite range_empty, app_nil_r by lia; unfold tip_at; destruct (decide (j < 0)) as [?|?];
    cbn [disconnect_main extract_tip]; [done|]; by rewrite bool_decide_true.
  assert (tip_at f m = Some (f m)) as Etm by (unfold tip_at; by rewrite decide_False by lia).
  rewrite Etm in *. cbn [disconnect_main]. rewrite bool_decide_false.
  2: { rewrite extract_tip_at. destruct (decide (j < 0)); [apply (ma_nonzero _ _ _ _ Hf); lia|]. intros Heq.
       pose proof (ma_height _ _ _ _ Hf m ltac:(lia)) as H1. pose proof (ma_height _ _ _ _ Hf j ltac:(lia)). congruence. }
  change (main_parent_header_info (with_side_tips a st)) with (main_parent_header_info a).
  rewrite (parent_at h n f) by (done || lia). cbn [mbind result_bind].
  unfold get_main_block_info. cbn [main_block_infos with_side_tips].
  destruct (fo_infos _ Hfo (mh_block_hash (f m))) as [b Hb]; [rewrite (ma_info _ _ _ _ Hf) by lia; eauto|].
  rewrite Hb. cbn [ok_or mbind result_bind].
  destruct (disconnect_one h n f m st b) as (st1 & Hd & Ht1 & Hs1 & Ho1); [done|lia|done|done|apply Hl; lia|].
  unfold with_tips. cbn [side_tips with_side_tips]. rewrite Hd. cbn [map_err mbind result_bind].
  rewrite with_side_tips_twice.
  destruct (IH (m - 1) st1 (events ++ [DisconnectBlock (mh_block_hash (f m))])) as (st' & Hr & Ht');
    [lia|lia|lia|done| |].
  { intros i Hi b' c Hb' Hc. destruct (Hl i ltac:(lia) b' c Hb' Hc) as (t & Hst & Hord). exists t. rewrite Hs1.
    split; [done|]. intros Hm. rewrite Ho1; [by apply Hord|]. rewrite Hm. intros Heq.
    pose proof (ma_height _ _ _ _ Hf m ltac:(lia)) as H1. pose proof (ma_height _ _ _ _ Hf i ltac:(lia)) as H2.
    rewrite Heq in H2. assert (m = i) by congruence. lia. }
  exists st'. split; [|done]. rewrite Hr. do 2 f_equal. rewrite <- app_assoc. f_equal.
  rewrite (range_snoc (j + 1) m), rev_app_distr by lia. simpl. by replace (m - 1 + 1) with m by lia.
Qed.

(** A block's commitment is decided; connecting it cannot fail for its parent. *)
Lemma commitment_decided st h b :
  main_block_infos a !! h = Some b →
  ∃ c, bmm_commitment_at (with_side_tips a st) h b = Ok c ∧
    ∀ s hd p, c = Some (s, hd) → prev_side_hash hd = Some p → is_Some (sidechain_tips st !! p).
Proof.
  intros Hb. unfold bmm_commitment_at. destruct (bmm_commitment b) as [c|] eqn:Ec; [|by exists None].
  unfold contains_body. cbn [bodies with_side_tips]. case_bool_decide as Hbody; cbn [negb]; [|by exists None].
  destruct (fo_bodies _ Hfo c Hbody) as [hd Hhd]. unfold get_header, try_get_header. cbn [headers with_side_tips].
  rewrite Hhd. cbn [ok_or mbind result_bind side_tips with_side_tips].
  destruct (fo_results _ Hfo h b c Hb Ec Hbody) as [r Hr]. unfold get_bmm_result.
  change (try_get_bmm_result (with_side_tips a st) c h) with (try_get_bmm_result a c h). rewrite Hr.
  cbn [ok_or mbind result_bind]. destruct (prev_side_hash hd) as [p|] eqn:Ep.
  - case_bool_decide; cbn [negb]; [|by exists None]. eexists. split; [reflexivity|].
    intros s hd' p' Hc Hp'. destruct r; simplify_eq. done.
  - eexists. split; [reflexivity|]. intros s hd' p' Hc Hp'. destruct r; simplify_eq.
Qed.

Lemma connect_one h n f j st b events :
  main_at a h n f → 0 ≤ j ≤ n → tip_info (mainchain_tip st) = tip_at f (j - 1) →
  main_block_infos a !! mh_block_hash (f j) = Some b → 
  ∃ st', connect_main_one (with_side_tips a st, tip_at f (j - 1), events) (f j)
    = Ok (with_side_tips a st', tip_at f j, events ++ [ConnectBlock (f j) b]) ∧
    tip_info (mainchain_tip st') = tip_at f j.
Proof.
  intros Hf Hj Ht Hb. unfold connect_main_one, get_main_block_info. cbn [main_block_infos with_side_tips].
  rewrite Hb. cbn [ok_or mbind result_bind].
  destruct (commitment_decided st _ b Hb) as (c & Hc & Hpar). rewrite Hc. cbn [mbind result_bind].
  unfold with_tips. cbn [side_tips with_side_tips]. unfold connect_mainchain_tip.
  rewrite (bool_decide_true (mh_prev_block_hash (f j) = _)).
  2: { unfold mainchain_tip_hash. rewrite Ht, (ma_prev _ _ _ _ Hf) by done. unfold tip_at.
       destruct (decide (j = 0)), (decide (j - 1 < 0)); try done; lia. }
  cbn [negb bail_if mbind result_bind]. rewrite Ht.
  assert (match tip_at f (j - 1) with
          | Some t => bail_if (negb (mh_height (f j) =? mh_height t + 1)) (InvalidTipHeight (mh_height t + 1))
          | None => Ok tt end = Ok tt) as ->.
  { unfold tip_at. destruct (decide (j - 1 < 0)); [done|]. rewrite !(info_height h n f) by (done || lia).
    by rewrite (proj2 (Z.eqb_eq _ _)) by lia. }
  cbn [mbind result_bind].
  assert (∃ st1, match c with
    | Some (s, hd) => connect_sidechain_tip st (mh_block_hash (f j))
                        (work_add (cumulative_work (mainchain_tip st)) (mh_work (f j))) s hd
    | None => Ok st end = Ok st1) as [st1 ->].
  { destruct c as [[s hd]|]; [|by eexists]. unfold connect_sidechain_tip. destruct (prev_side_hash hd) as [p|] eqn:Ep.
    - destruct (Hpar s hd p eq_refl Ep) as [t ->]. cbn [ok_or mbind result_bind]. destruct (bool_decide _); by eexists.
    - cbn [mbind result_bind]. destruct (bool_decide _); by eexists. }
  cbn [mbind result_bind map_err]. rewrite with_side_tips_twice. eexists. split; [|cbn [mainchain_tip tip_info]].
  - do 3 f_equal. unfold tip_at. by rewrite decide_False by lia.
  - unfold tip_at. by rewrite decide_False by lia.
Qed.

(** The events of connecting a range of the chain. *)
Definition connects (f : Z → BlockHeaderInfo) (lo hi : Z) : list MainEvent :=
  map (fun i => ConnectBlock (f i) (default {| bmm_commitment := None; bi_events := [] |}
                                     (main_block_infos a !! mh_block_hash (f i)))) (range lo hi).

Lemma connect_batch h n f lo hi st events :
  main_at a h n f → 0 ≤ lo → lo ≤ hi → hi ≤ n + 1 → tip_info (mainchain_tip st) = tip_at f (lo - 1) →
  ∃ st', try_fold connect_main_one (with_side_tips a st, tip_at f (lo - 1), events) (map f (range lo hi))
    = Ok (with_side_tips a st', tip_at f (hi - 1), events ++ connects f lo hi) ∧
    tip_info (mainchain_tip st') = tip_at f (hi - 1).
Proof.
  intros Hf Hlo Hle. remember (Z.to_nat (hi - lo)) as k eqn:Ek. revert lo st events Hlo Hle Ek.
  induction k as [|k IH]; intros lo st events Hlo Hle Ek Hhi Ht.
  { assert (hi = lo) as -> by lia. exists st. unfold connects. by rewrite range_empty, app_nil_r by lia. }
  unfold connects. rewrite range_cons by lia. cbn [map try_fold].
  destruct (fo_infos _ Hfo (mh_block_hash (f lo))) as [b Hb]; [rewrite (ma_info _ _ _ _ Hf) by lia; eauto|].
  destruct (connect_one h n f lo st b events) as (st1 & Hc & Ht1); [done|lia|done..|]. rewrite Hc.
  cbn [mbind result_bind]. destruct (IH (lo + 1) st1 (events ++ [ConnectBlock (f lo) b])) as (st' & Hr & Ht');
    [lia|lia|lia|lia|by replace (lo + 1 - 1) with lo by lia|].
  replace (lo + 1 - 1) with lo in Hr by lia. exists st'. split; [|done]. rewrite Hr, Hb. cbn [default].
  do 2 f_equal. by rewrite <- app_assoc.
Qed.

(** The next batch of the chain of the target. *)
Lemma take_batch h n f (k : nat) st start :
  main_at a h n f → n ≤ U32_MAX → 0 ≤ start →
  take_main_rev k (with_side_tips a st) h (AncestorsRev_new start)
  = Ok (take k (map f (range start (n + 1)))).
Proof.
  intros Hf Hmax Hs. pose proof (ma_nonneg _ _ _ _ Hf) as H0. pose proof (ma_top _ _ _ _ Hf) as Htop.
  assert (∀ it, main_ancestors_rev_next (with_side_tips a st) h it
    = rev_next (Ok n) (get_nth_main_ancestor a h) (take_main_ancestors a) it) as Hnext.
  { intros it. unfold main_ancestors_rev_next.
    change (get_main_header_info (with_side_tips a st) h) with (get_main_header_info a h).
    change (get_nth_main_ancestor (with_side_tips a st) h) with (get_nth_main_ancestor a h).
    rewrite (rev_next_ext (get_nth_main_ancestor a h) (take_main_ancestors (with_side_tips a st)) _ (take_main_ancestors a)).
    2: { intros m. induction m as [|m IH]; intros x; [done|]. cbn [take_main_ancestors].
         destruct (bool_decide _); [done|].
         change (get_main_header_info (with_side_tips a st) x) with (get_main_header_info a x).
         destruct (get_main_header_info a x); [|done]. cbn [mbind result_bind]. by rewrite IH. }
    unfold get_main_header_info.
    rewrite <- Htop, (ma_info _ _ _ _ Hf) by lia. cbn [ok_or mbind result_bind].
    by rewrite (info_height h n f) by (done || lia). }
  assert (∀ k it, take_main_rev k (with_side_tips a st) h it
    = rev_take n (get_nth_main_ancestor a h) (take_main_ancestors a) k it) as Htake.
  { clear k. induction k as [|k IH]; intros it; [done|]. cbn [take_main_rev rev_take]. rewrite Hnext.
    destruct (rev_next _ _ _ it) as [[[x|] it']|]; try done. cbn [mbind result_bind]. by rewrite IH. }
  rewrite Htake, (rev_take_ok n (fun i => mh_block_hash (f i)) f); [done|done|..|done].
  - intros j Hj. destruct (nth_ancestor_ok _ (mc_index a Ha) h n j) as (x & Hx & Hp & _); [|done|].
    { rewrite <- Htop. by apply (main_at_height a h n f). }
    unfold get_nth_main_ancestor. rewrite Hx. f_equal.
    rewrite <- Htop, (main_at_parent a h n f) in Hp by (done || lia). rewrite Z2Nat.id in Hp by lia. congruence.
  - intros m j Hm Hj. destruct (decide (j < 0)) as [Hj0|Hj0].
    { assert (m = 0%nat) as -> by lia. by rewrite range_empty by lia. }
    pose proof (take_main_chain a h n f m j Hf Hm Hj) as Ht. by rewrite decide_False in Ht.
Qed.

Lemma take_range (k : nat) lo hi : lo ≤ hi → take k (range lo hi) = range lo (Z.min hi (lo + Z.of_nat k)).
Proof.
  revert lo. induction k as [|k IH]; intros lo Hle; [by rewrite (range_empty lo (Z.min _ _)) by lia|].
  destruct (decide (lo = hi)) as [->|Hne]; [by rewrite !range_empty by lia|].
  rewrite range_cons by lia. cbn [take]. rewrite IH, (range_cons lo (Z.min _ _)) by lia. do 2 f_equal. lia.
Qed.

(** The second loop. *)
Lemma connect_main_ok h n f (fuel : nat) j st events :
  main_at a h n f → n ≤ U32_MAX → -1 ≤ j ≤ n → n - j ≤ Z.of_nat fuel → tip_info (mainchain_tip st) = tip_at f j →
  ∃ st', connect_main fuel (with_side_tips a st) h (tip_at f j) events
    = Ok (with_side_tips a st', events ++ connects f (j + 1) (n + 1)) ∧
    tip_info (mainchain_tip st') = Some (f n).
Proof.
  intros Hf Hmax. pose proof (ma_nonneg _ _ _ _ Hf) as H0. pose proof (ma_top _ _ _ _ Hf) as Htop.
  revert j st events. induction fuel as [|fuel IH]; intros j st events Hj Hfuel Ht.
  all: destruct (decide (j = n)) as [->|Hne]; [|try lia].
  1, 2: exists st; unfold connects; rewrite range_empty, app_nil_r by lia; cbn [connect_main];
    rewrite extract_tip_at, Htop; destruct (decide (n < 0)); [lia|]; rewrite bool_decide_true by done; split; [done|];
    rewrite Ht; unfold tip_at; by rewrite decide_False by lia.
  cbn [connect_main]. rewrite bool_decide_false.
  2: { rewrite extract_tip_at, <- Htop. destruct (decide (j < 0)).
       - apply not_eq_sym, (ma_nonzero _ _ _ _ Hf). lia.
       - intros Heq. pose proof (ma_height _ _ _ _ Hf j ltac:(lia)) as H1.
         pose proof (ma_height _ _ _ _ Hf n ltac:(lia)) as H2. rewrite Heq in H1. congruence. }
  replace (match tip_at f j with Some info => mh_height info + 1 | None => 0 end) with (j + 1).
  2: { unfold tip_at. destruct (decide (j < 0)); [lia|]. rewrite (info_height h n f) by (done || lia). done. }
  rewrite (take_batch h n f) by (done || lia). cbn [mbind result_bind].
  rewrite firstn_map, take_range by lia. set (hi := Z.min (n + 1) (j + 1 + Z.of_nat BATCH_SIZE)).
  assert (j + 1 < hi ≤ n + 1) as Hhi by (subst hi; unfold BATCH_SIZE; lia).
  destruct (connect_batch h n f (j + 1) hi st events) as (st1 & Hc & Ht1);
    [done|lia|lia|lia|by replace (j + 1 - 1) with j by lia|].
  replace (j + 1 - 1) with j in Hc by lia. rewrite Hc. cbn [mbind result_bind].
  destruct (IH (hi - 1) st1 (events ++ connects f (j + 1) hi)) as (st' & Hr & Ht'); [lia|lia|done|].
  exists st'. split; [|done]. rewrite Hr. do 2 f_equal. rewrite <- app_assoc. f_equal. unfold connects.
  rewrite <- map_app, (range_split (j + 1) hi (n + 1)) by lia. do 3 f_equal. lia.
Qed.

End Path.

(** ** The whole move *)

(** The events lead from one block to another. *)
Inductive event_path a : MainBlockHash → list MainEvent → MainBlockHash → Prop :=
| path_done h : event_path a h [] h
| path_disconnect i l h :
    main_header_infos a !! mh_block_hash i = Some i → event_path a (mh_prev_block_hash i) l h →
    event_path a (mh_block_hash i) (DisconnectBlock (mh_block_hash i) :: l) h
| path_connect i b l h :
    main_header_infos a !! mh_block_hash i = Some i → main_block_infos a !! mh_block_hash i = Some b →
    event_path a (mh_block_hash i) l h → event_path a (mh_prev_block_hash i) (ConnectBlock i b :: l) h.

Lemma event_path_app a h l h1 k h2 : event_path a h l h1 → event_path a h1 k h2 → event_path a h (l ++ k) h2.
Proof. induction 1; [done|..]; intros Hk; simpl; constructor; auto. Qed.

Section Events.
Context (a : Archive) (Hfo : followable a).

Lemma disconnect_path h n f j m :
  main_at a h n f → -1 ≤ j ≤ m → m ≤ n →
  event_path a (extract_tip (tip_at f m))
    (map (fun i => DisconnectBlock (mh_block_hash (f i))) (rev (range (j + 1) (m + 1)))) (extract_tip (tip_at f j)).
Proof.
  intros Hf Hj. remember (Z.to_nat (m - j)) as k eqn:Ek. revert m Hj Ek.
  induction k as [|k IH]; intros m Hj Ek Hm.
  { assert (m = j) as -> by lia. rewrite range_empty by lia. constructor. }
  rewrite range_snoc, rev_app_distr by lia. cbn [rev app map]. rewrite (extract_tip_at f m).
  destruct (decide (m < 0)); [lia|]. constructor; [apply (ma_info _ _ _ _ Hf); lia|].
  specialize (IH (m - 1) ltac:(lia) ltac:(lia) ltac:(lia)). replace (m - 1 + 1) with m in IH by lia.
  rewrite (ma_prev _ _ _ _ Hf) by lia. rewrite (extract_tip_at f (m - 1)) in IH.
  destruct (decide (m = 0)), (decide (m - 1 < 0)); try done; lia.
Qed.

Lemma connect_path h n f lo :
  main_at a h n f → 0 ≤ lo ≤ n + 1 → event_path a (extract_tip (tip_at f (lo - 1))) (connects a f lo (n + 1)) h.
Proof.
  intros Hf. pose proof (ma_nonneg _ _ _ _ Hf) as H0. pose proof (ma_top _ _ _ _ Hf) as Htop.
  remember (Z.to_nat (n + 1 - lo)) as k eqn:Ek. revert lo Ek. induction k as [|k IH]; intros lo Ek Hlo.
  { assert (lo = n + 1) as -> by lia. unfold connects. rewrite range_empty by lia.
    replace (n + 1 - 1) with n by lia. rewrite extract_tip_at. destruct (decide (n < 0)); [lia|]. rewrite Htop. constructor. }
  unfold connects. rewrite range_cons by lia. cbn [map]. fold (connects a f (lo + 1) (n + 1)).
  destruct (fo_infos _ Hfo (mh_block_hash (f lo))) as [b Hb]; [rewrite (ma_info _ _ _ _ Hf) by lia; eauto|].
  replace (extract_tip (tip_at f (lo - 1))) with (mh_prev_block_hash (f lo)).
  2: { rewrite extract_tip_at, (ma_prev _ _ _ _ Hf) by lia. destruct (decide (lo = 0)), (decide (lo - 1 < 0)); try done; lia. }
  rewrite Hb. cbn [default]. constructor; [apply (ma_info _ _ _ _ Hf); lia|done|].
  specialize (IH (lo + 1) ltac:(lia) ltac:(lia)). replace (lo + 1 - 1) with lo in IH by lia.
  rewrite extract_tip_at in IH. by destruct (decide (lo < 0)); [lia|].
Qed.

End Events.

Section Move.
Context (a : Archive) (Ha : main_chain_ok a) (Hg : one_genesis a) (Hfo : followable a).
Context (target : MainBlockHash) (n : Z) (Hn : main_block_hash_to_height a !! target = Some n).
Let current := mainchain_tip_hash (mainchain_tip (side_tips a)).
Context (Hleave : ∀ h, ancestor_of (main_index a) h current → ¬ ancestor_of (main_index a) h target →
  leavable a (side_tips a) h).

(** What the move ends with. *)
Definition moved (a' : Archive) (events : list MainEvent) : Prop :=
  a' = with_side_tips a (side_tips a') ∧
  tip_info (mainchain_tip (side_tips a')) = main_header_infos a !! target ∧
  event_path a current events target ∧
  (∀ h, DisconnectBlock h ∈ events ↔
     ancestor_of (main_index a) h current ∧ ¬ ancestor_of (main_index a) h target) ∧
  (∀ i b, ConnectBlock i b ∈ events →
     ancestor_of (main_index a) (mh_block_hash i) target ∧ ¬ ancestor_of (main_index a) (mh_block_hash i) current).

Lemma zeros_unknown : main_block_hash_to_height a !! all_zeros = None.
Proof.
  destruct (main_block_hash_to_height a !! all_zeros) as [k|] eqn:E; [|done].
  destruct (known_info a all_zeros k Ha E) as (_ & _ & _ & Hz & _). done.
Qed.

Lemma connects_elem f lo hi i b :
  ConnectBlock i b ∈ connects a f lo hi → ∃ j, lo ≤ j < hi ∧ i = f j.
Proof. unfold connects. intros (j & Hj & Hr%elem_of_range)%list_elem_of_fmap. simplify_eq. eauto. Qed.
Lemma connects_no_disconnect f lo hi h : DisconnectBlock h ∉ connects a f lo hi.
Proof. unfold connects. by intros (j & Hj & _)%list_elem_of_fmap. Qed.

(** From nothing: the whole chain is connected. *)
Lemma move_from_nothing f :
  main_at a target n f → tip_info (mainchain_tip (side_tips a)) = None →
  ∃ a' events, sync_side_tips_to_tip a target = Ok (a', events) ∧ moved a' events.
Proof.
  intros Hf Ht. pose proof (ma_nonneg _ _ _ _ Hf) as H0. pose proof (fo_range _ Hfo _ _ Hn) as Hr.
  assert (current = all_zeros) as Hcur by (unfold current, mainchain_tip_hash; by rewrite Ht).
  unfold sync_side_tips_to_tip, main_common_ancestor. fold current. rewrite Hcur, bool_decide_true by done.
  cbn [orb mbind result_bind]. rewrite Ht. cbn [disconnect_main mbind result_bind].
  pose proof (main_at_size a target n f Hf) as Hsz.
  destruct (connect_main_ok a Ha Hfo target n f (S (size (main_header_infos a))) (-1) (side_tips a) []) as (st & Hc & Hst);
    [done|lia|lia|lia|done|].
  rewrite with_side_tips_same in Hc. change (tip_at f (-1)) with (@None BlockHeaderInfo) in Hc. rewrite Hc.
  eexists _, _. split; [reflexivity|]. pose proof (ma_top _ _ _ _ Hf) as Htop.
  pose proof (ma_info _ _ _ _ Hf n ltac:(lia)) as Hi. rewrite Htop in Hi. pose proof zeros_unknown as Hzu.
  assert (∀ h, ¬ ancestor_of (main_index a) h all_zeros) as Hnone.
  { intros h (k & _ & Hk%height_is_main & _). congruence. }
  unfold moved. cbn [side_tips with_side_tips app]. change (-1 + 1) with 0. split_and!.
  - done.
  - congruence.
  - rewrite Hcur. exact (connect_path a Hfo target n f 0 Hf ltac:(lia)).
  - intros h. rewrite Hcur. split; [by intros H%connects_no_disconnect|]. intros [H _]. by apply Hnone in H.
  - intros i b (j & Hj & ->)%connects_elem. rewrite Hcur. split; [|apply Hnone].
    apply (main_at_ancestor a target n f); [done|lia].
Qed.

(** The blocks of one chain that the other shares are those up to the last
    common ancestor. *)
Lemma shared_below h k p f g j :
  main_at a h k f → main_at a current p g → 0 ≤ j ≤ k → j ≤ p → f j = g j →
  (∀ y, ancestor_of (main_index a) y h → ancestor_of (main_index a) y current →
     ancestor_of (main_index a) y (mh_block_hash (f j))) →
  ∀ i, 0 ≤ i ≤ p → (ancestor_of (main_index a) (mh_block_hash (g i)) h ↔ i ≤ j).
Proof.
  intros Hf Hgm Hj Hjp Efg Hmax i Hi. split.
  - intros Hanc. specialize (Hmax _ Hanc (main_at_ancestor a current p g i Hgm Hi)).
    apply ancestor_of_height in Hmax as (u & v & Hu & Hv & Huv & _); [|apply Ha].
    pose proof (height_is_fun _ _ _ _ Hv (main_at_height a current p g i Hgm Hi)).
    pose proof (height_is_fun _ _ _ _ Hu (main_at_height a h k f j Hf Hj)). lia.
  - intros Hle. assert (nth_parent (main_index a) (Z.to_nat (j - i)) (mh_block_hash (f j)) = Some (mh_block_hash (g i))) as Hp.
    { rewrite Efg, (main_at_parent a current p g) by (done || lia). do 3 f_equal. lia. }
    rewrite (main_at_parent a h k f) in Hp by (done || lia). injection Hp as Hp. rewrite <- Hp.
    apply (main_at_ancestor a h k f); [done|lia].
Qed.

(** Where the chains of the target and of the current tip part. *)
Lemma parting f m g :
  main_at a target n f → main_at a current m g →
  ∃ j, 0 ≤ j ≤ n ∧ j ≤ m ∧ f j = g j ∧ main_common_ancestor a target = Ok (mh_block_hash (f j)) ∧
    (∀ i, 0 ≤ i ≤ m → (ancestor_of (main_index a) (mh_block_hash (g i)) target ↔ i ≤ j)) ∧
    (∀ i, 0 ≤ i ≤ n → ancestor_of (main_index a) (mh_block_hash (f i)) current → i ≤ j).
Proof.
  clear Hleave. intros Hf Hgm. pose proof (ma_nonneg _ _ _ _ Hgm) as H0m.
  pose proof (ma_height _ _ _ _ Hgm m ltac:(lia)) as Hm.
  pose proof (fo_range _ Hfo _ _ Hm) as Hrm. rewrite (ma_top _ _ _ _ Hgm) in Hm.
  pose proof (fo_range _ Hfo _ _ Hn) as Hr. pose proof zeros_unknown as Hzu.
  destruct (last_common_main_ancestor_in_ok _ (mc_index a Ha) target current n m) as (x & Hx & Hax & Hbx & Hmax);
    [by apply height_is_main..|done|done|apply main_roots; [done|done|by apply height_is_main..]|].
  destruct (ancestor_main_at a target n f x Ha Hf Hax) as (j & Hj & ->).
  destruct (ancestor_main_at a current m g _ Ha Hgm Hbx) as (j' & Hj' & Hxg).
  pose proof (ma_height _ _ _ _ Hf j Hj) as H1. pose proof (ma_height _ _ _ _ Hgm j' Hj') as H2.
  assert (j' = j) as -> by congruence.
  pose proof (ma_info _ _ _ _ Hf j Hj) as H3. pose proof (ma_info _ _ _ _ Hgm j Hj') as H4.
  assert (f j = g j) as Efg by congruence. exists j. split_and!; [lia|lia|lia|done| | |].
  - unfold main_common_ancestor. fold current.
    rewrite !bool_decide_false by (intros E; rewrite E in *; congruence). exact Hx.
  - apply (shared_below target n m f g j); done || lia.
  - intros i Hi Hanc. specialize (Hmax _ (main_at_ancestor a target n f i Hf Hi) Hanc).
    apply ancestor_of_height in Hmax as (u & v & Hu & Hv & Huv & _); [|apply Ha].
    pose proof (height_is_fun _ _ _ _ Hv (main_at_height a target n f i Hf Hi)).
    pose proof (height_is_fun _ _ _ _ Hu (main_at_height a target n f j Hf Hj)). lia.
Qed.

(** The events of the move, and what they name. *)
Lemma moved_events f m g j st :
  main_at a target n f → main_at a current m g → 0 ≤ j ≤ n → j ≤ m → f j = g j →
  (∀ i, 0 ≤ i ≤ m → (ancestor_of (main_index a) (mh_block_hash (g i)) target ↔ i ≤ j)) →
  (∀ i, 0 ≤ i ≤ n → ancestor_of (main_index a) (mh_block_hash (f i)) current → i ≤ j) →
  tip_info (mainchain_tip st) = Some (f n) →
  moved (with_side_tips a st)
    (map (fun i => DisconnectBlock (mh_block_hash (g i))) (rev (range (j + 1) (m + 1))) ++ connects a f (j + 1) (n + 1)).
Proof.
  intros Hf Hgm Hj Hjm Efg Hin Hout Hst. pose proof (ma_top _ _ _ _ Hf) as Htop. pose proof (ma_top _ _ _ _ Hgm) as Htopm.
  pose proof (ma_info _ _ _ _ Hf n ltac:(lia)) as Hi. rewrite Htop in Hi.
  unfold moved. cbn [side_tips with_side_tips]. split_and!.
  - done.
  - congruence.
  - eapply event_path_app.
    + pose proof (disconnect_path a current m g j m Hgm ltac:(lia) ltac:(lia)) as Hp.
      rewrite !extract_tip_at in Hp. destruct (decide (m < 0)), (decide (j < 0)); try lia. rewrite Htopm in Hp. exact Hp.
    + pose proof (connect_path a Hfo target n f (j + 1) Hf ltac:(lia)) as Hp. replace (j + 1 - 1) with j in Hp by lia.
      rewrite extract_tip_at in Hp. destruct (decide (j < 0)); [lia|]. by rewrite <- Efg.
  - intros h. rewrite elem_of_app. split.
    + intros [(k & [= ->] & Hk%elem_of_reverse_range)%list_elem_of_fmap|H%connects_no_disconnect]; [|done].
      split; [apply (main_at_ancestor a current m g); [done|lia]|]. intros Hanc%Hin; lia.
    + intros [Hc1 Hc2]. left. destruct (ancestor_main_at a current m g h Ha Hgm Hc1) as (k & Hk & ->).
      apply list_elem_of_fmap. exists k. split; [done|]. apply elem_of_reverse_range.
      destruct (decide (k ≤ j)) as [Hle|]; [|lia]. exfalso. by apply Hc2, Hin.
  - intros i' b [(k & [=] & _)%list_elem_of_fmap|(k & Hk & ->)%connects_elem]%elem_of_app.
    split; [apply (main_at_ancestor a target n f); [done|lia]|]. intros Hanc%Hout; lia.
Qed.

(** From another block: through the last common ancestor. *)
Lemma move_from_tip f m g i :
  main_at a target n f → main_at a current m g → tip_info (mainchain_tip (side_tips a)) = Some i →
  ∃ a' events, sync_side_tips_to_tip a target = Ok (a', events) ∧ moved a' events.
Proof.
  intros Hf Hgm Ht. pose proof (ma_nonneg _ _ _ _ Hgm) as H0m. pose proof (fo_range _ Hfo _ _ Hn) as Hr.
  destruct (parting f m g Hf Hgm) as (j & Hj & Hjm & Efg & Hcommon & Hin & Hout).
  assert (tip_at g m = Some i) as Htm.
  { unfold tip_at. rewrite decide_False by lia. pose proof (fo_tip _ Hfo) as Hti. rewrite Ht in Hti.
    pose proof (ma_info _ _ _ _ Hgm m ltac:(lia)) as Hi. rewrite (ma_top _ _ _ _ Hgm) in Hi.
    unfold current, mainchain_tip_hash in Hi. rewrite Ht in Hi. congruence. }
  assert (mh_block_hash (f j) = extract_tip (tip_at g j)) as Hxj.
  { rewrite extract_tip_at, Efg. by destruct (decide (j < 0)); [lia|]. }
  unfold sync_side_tips_to_tip. rewrite Hcommon. cbn [mbind result_bind]. rewrite Ht, <- Htm, Hxj.
  pose proof (main_at_size a current m g Hgm) as Hsz. pose proof (main_at_size a target n f Hf) as Hszn.
  destruct (disconnect_main_ok a Hfo current m g (S (size (main_header_infos a))) j m (side_tips a) []) as (st1 & Hd & Hst1);
    [done|lia|lia|lia|lia|by rewrite Htm| |].
  { intros k Hk. apply Hleave; [apply (main_at_ancestor a current m g); [done|lia]|]. intros Hanc%Hin; lia. }
  rewrite with_side_tips_same in Hd. rewrite Hd. cbn [mbind result_bind app].
  assert (tip_at g j = tip_at f j) as Etip by (unfold tip_at; by rewrite !decide_False, Efg by lia).
  destruct (connect_main_ok a Ha Hfo target n f (S (size (main_header_infos a))) j st1
    (map (fun i => DisconnectBlock (mh_block_hash (g i))) (rev (range (j + 1) (m + 1))))) as (st2 & Hc & Hst2);
    [done|lia|lia|lia|congruence|].
  rewrite Etip. cbn [main_header_infos with_side_tips]. rewrite Hc. eexists _, _. split; [reflexivity|].
  by apply (moved_events f m g j).
Qed.

Lemma move_ok : ∃ a' events, sync_side_tips_to_tip a target = Ok (a', events) ∧ moved a' events.
Proof.
  destruct (main_at_exists a target n Ha Hn) as [f Hf].
  destruct (tip_info (mainchain_tip (side_tips a))) as [i|] eqn:Ht; [|by eapply move_from_nothing].
  pose proof (fo_tip _ Hfo) as Hti. rewrite Ht in Hti.
  assert (current = mh_block_hash i) as Hcur by (unfold current, mainchain_tip_hash; by rewrite Ht).
  pose proof (fo_heights _ Hfo _ _ Hti) as Hm. rewrite <- Hcur in Hm.
  destruct (main_at_exists a current _ Ha Hm) as [g Hgm]. by eapply move_from_tip.
Qed.

End Move.

(** C10: moving the archive to a known mainchain block always succeeds, within
    the bounds of its loops, when the blocks to leave can be left: only the tips
    change, the tip is the requested block, the events are a path from the old
    tip to the new one, and they disconnect exactly the blocks that are not
    ancestors of the new tip and connect only ancestors that the old tip does
    not have. *)
Theorem sync_moves_tip a target n :
  reachable a → one_genesis a → followable a → get_main_height a target = Ok n →
  (∀ h, ancestor_of (main_index a) h (mainchain_tip_hash (mainchain_tip (side_tips a))) →
     ¬ ancestor_of (main_index a) h target → leavable a (side_tips a) h) →
  ∃ a' events, sync_side_tips_to_tip a target = Ok (a', events) ∧ moved a target a' events.
Proof.
  intros [_ Ha]%reachable_ok Hg Hfo Hn%height_is_main Hl. by eapply move_ok.
Qed.

(** A mainchain block that commits to a side block without a tip cannot be
    left. *)
Lemma stuck_at_tip a target n i b c :
  main_chain_ok a → one_genesis a → followable a → main_block_hash_to_height a !! target = Some n →
  tip_info (mainchain_tip (side_tips a)) = Some i →
  ¬ ancestor_of (main_index a) (mh_block_hash i) target →
  main_block_infos a !! mh_block_hash i = Some b → bmm_commitment b = Some c →
  sidechain_tips (side_tips a) !! c = None →
  sync_side_tips_to_tip a target = Err (SideTipsErr (MissingSidechainTip c)).
Proof.
  intros Ha Hg Hfo Hn Ht Hna Hb Hc Hnone. pose proof (fo_tip _ Hfo) as Hti. rewrite Ht in Hti.
  assert (mainchain_tip_hash (mainchain_tip (side_tips a)) = mh_block_hash i) as Hcur
    by (unfold mainchain_tip_hash; by rewrite Ht).
  pose proof (fo_heights _ Hfo _ _ Hti) as Hm. destruct (main_at_exists a target n Ha Hn) as [f Hf].
  destruct (main_at_exists a (mh_block_hash i) _ Ha Hm) as [g Hgm]. pose proof Hgm as Hgm'. rewrite <- Hcur in Hgm.
  pose proof (ma_nonneg _ _ _ _ Hgm) as H0.
  destruct (parting a Ha Hg Hfo target n Hn f _ g Hf Hgm) as (j & Hj & Hjm & Efg & Hcommon & Hin & _).
  assert (i = g (mh_height i)) as Hig.
  { pose proof (ma_info _ _ _ _ Hgm (mh_height i) ltac:(lia)) as Hi. rewrite (ma_top _ _ _ _ Hgm), Hcur in Hi. congruence. }
  unfold sync_side_tips_to_tip. rewrite Hcommon. cbn [mbind result_bind]. rewrite Ht. cbn [disconnect_main].
  rewrite bool_decide_false.
  2: { intros Heq. apply Hna. rewrite Heq. apply (main_at_ancestor a target n f); [done|lia]. }
  pose proof (parent_at a (mh_block_hash i) _ g (mh_height i) Hgm' ltac:(lia)) as Hpar. rewrite <- Hig in Hpar.
  rewrite Hpar. cbn [mbind result_bind]. unfold get_main_block_info. rewrite Hb. cbn [ok_or mbind result_bind].
  unfold with_tips, disconnect_mainchain_tip. rewrite Ht, Hc, Hnone. cbn [ok_or mbind result_bind].
  pose proof (previous_accepted a Hfo (mh_block_hash i) _ g (mh_height i) Hgm' ltac:(lia)) as Hprev.
  rewrite <- Hig in Hprev. rewrite Hprev. done.
Qed.

(** C37: when the mainchain leaves a block that commits to a side block the
    archive never connected, the task stops: it reports the missing tip, moves
    nothing, and stops the same way each time it is started again with that
    mainchain tip. *)
Theorem unconnected_commitment_stops_task get_infos (fuel : nat) t target n i b c items :
  reachable (mt_archive t) → one_genesis (mt_archive t) → followable (mt_archive t) →
  get_main_height (mt_archive t) target = Ok n →
  tip_info (mainchain_tip (side_tips (mt_archive t))) = Some i →
  ¬ ancestor_of (main_index (mt_archive t)) (mh_block_hash i) target →
  main_block_infos (mt_archive t) !! mh_block_hash i = Some b → bmm_commitment b = Some c →
  sidechain_tips (side_tips (mt_archive t)) !! c = None →
  run_once get_infos fuel t target items
  = (Err (SyncSideTipsToTip target (SideTipsErr (MissingSidechainTip c))), set_mt t (mt_archive t) set_idle).
Proof.
  intros [_ Ha]%reachable_ok Hg Hfo Hn%height_is_main Ht Hna Hb Hc Hnone.
  unfold run_once, request_ancestor_infos.
  assert (at_known (mt_archive t) target = true) as ->.
  { unfold at_known, knows_main. apply orb_true_iff. right. apply bool_decide_eq_true. by eapply (mc_info _ Ha). }
  cbn [mt_archive set_mt]. by rewrite (stuck_at_tip _ target n i b c).
Qed.

End Sync.

