(* ===== verification/MainFetch.v ===== *)
(** * Fetching mainchain ancestors

    Against a mainchain node that answers from its own chain of blocks,
    [request_ancestor_infos] ends: it asks for batches back to a known block,
    stores them oldest first in one transaction, and then knows the requested
    block and everything below it.  The loop needs no more turns than the block
    is high. *)

From stdpp Require Import base numbers list strings gmap relations.
From S2P Require Import Prelude Float64 StateErrors Transactions TwoWayPeg Bodies Archive ArchiveStore.
From S2P Require Import ArchiveFacts ArchiveStoreFacts ArchiveInvalidation ArchiveReach ArchiveLinks.
From S2P Require Import Addresses Proto MainTask MainTaskFacts.

(** What the task relies on from its client: an answer is not empty and each
    info is of the parent of the one before. *)
Class InfoSource (get_infos : MainBlockHash → Z → result ProtoError (option (list (BlockHeaderInfo * BlockInfo)))) : Prop :=
  source_linked h n l : get_infos h n = Ok (Some l) → l ≠ [] ∧ linked (map fst l).

(** The client of the mainchain node checks it. *)
#[export] Instance client_source {TC : TextCodecs} {CC : ConsensusCodecs} {MS : MainchainService} :
  InfoSource get_block_infos.
Proof. intros h n l. apply get_block_infos_linked. Qed.

Section Fetch.
Context {AE : ArchiveEnv} {BH : BodyHashes}.
Implicit Types (a : Archive) (T : gmap MainBlockHash (BlockHeaderInfo * BlockInfo)).

(** The blocks the mainchain node has. *)
Definition tree_ok T : Prop := ∀ h i b, T !! h = Some (i, b) →
  mh_block_hash i = h ∧ h ≠ all_zeros ∧ 0 ≤ mh_height i < U32_MAX ∧
  if decide (mh_prev_block_hash i = all_zeros) then mh_height i = 0
  else ∃ j c, T !! mh_prev_block_hash i = Some (j, c) ∧ mh_height i = mh_height j + 1.

(** It answers for the block asked for, from its blocks. *)
Record serves T (get_infos : MainBlockHash → Z → result ProtoError (option (list (BlockHeaderInfo * BlockInfo)))) : Prop := {
  sv_absent h n : T !! h = None → get_infos h n = Ok None;
  sv_answer h n x : T !! h = Some x → ∃ l, get_infos h n = Ok (Some l) ∧ head l = Some x ∧
    ∀ y, y ∈ l → T !! mh_block_hash y.1 = Some y
}.

(** The archive holds blocks of the mainchain node, with their heights and
    their contents. *)
Record agrees T a : Prop := {
  ag_header h i : main_header_infos a !! h = Some i → ∃ b, T !! h = Some (i, b);
  ag_height h i : main_header_infos a !! h = Some i → main_block_hash_to_height a !! h = Some (mh_height i);
  ag_blocks : infos_known a
}.

Section Source.
Context T (HT : tree_ok T) get_infos `{Hsrc : !InfoSource get_infos} (Hserve : serves T get_infos).

Lemma at_known_spec a h : at_known a h = true ↔ h = all_zeros ∨ known_main a h.
Proof. unfold at_known, knows_main, known_main. by rewrite orb_true_iff, !bool_decide_eq_true. Qed.

(** Along linked blocks the heights fall. *)
Lemma linked_height (l : list (BlockHeaderInfo * BlockInfo)) x y :
  linked (map fst l) → (∀ z, z ∈ l → T !! mh_block_hash z.1 = Some z) → head l = Some x → last l = Some y →
  mh_height y.1 ≤ mh_height x.1.
Proof.
  revert x. induction l as [|z l IH]; intros x Hl Hin Hx Hy; [done|]. injection Hx as ->.
  destruct l as [|w l]; [by injection Hy as ->|]. rewrite last_cons_cons in Hy.
  transitivity (mh_height w.1); [apply (IH w); [by eapply linked_tail|intros; apply Hin; by right|done|done]|].
  assert (mh_block_hash w.1 = mh_prev_block_hash x.1) as Hw by (by apply (Hl 0%nat)).
  pose proof (Hin x ltac:(by left)) as Hx. pose proof (Hin w ltac:(right; by left)) as Hw'.
  destruct x as [i b], w as [j c]. cbn [fst] in *. destruct (HT _ _ _ Hx) as (_ & _ & _ & Hp).
  destruct (HT _ _ _ Hw') as (_ & Hz & _). rewrite Hw in Hz, Hw'. rewrite decide_False in Hp by done.
  destruct Hp as (j' & c' & Hj & Hh). simplify_eq. lia.
Qed.

(** The infos of a fetch: linked, of the node, from [h] back to a block whose
    parent is known. *)
Record fetched a h (l : list (BlockHeaderInfo * BlockInfo)) : Prop := {
  ft_linked : linked (map fst l);
  ft_served y : y ∈ l → T !! mh_block_hash y.1 = Some y;
  ft_head : ∃ x, head l = Some x ∧ mh_block_hash x.1 = h;
  ft_last : ∃ y, last l = Some y ∧ at_known a (mh_prev_block_hash y.1) = true
}.

Lemma fetch_loop a (fuel : nat) h current i b infos p :
  T !! current = Some (i, b) → mh_height i < Z.of_nat fuel →
  linked (map fst infos) → (∀ y, y ∈ infos → T !! mh_block_hash y.1 = Some y) →
  match last infos with
  | Some y => mh_prev_block_hash y.1 = current ∧ ∃ x, head infos = Some x ∧ mh_block_hash x.1 = h
  | None => current = h
  end →
  ∃ l p', fetch_infos get_infos fuel a current infos p = (Ok (Some l), p') ∧ fetched a h l.
Proof.
  revert current i b infos p. induction fuel as [|fuel IH]; intros current i b infos p Hc Hh Hl Hin Hlast.
  { destruct (HT _ _ _ Hc) as (_ & _ & ? & _). lia. }
  cbn [fetch_infos]. destruct (sv_answer _ _ Hserve current (BATCH_REQUEST_SIZE - 1) _ Hc) as (l & Hg & Hhd & Hserved).
  rewrite Hg. destruct (Hsrc _ _ _ Hg) as [Hne Hll].
  destruct (last l) as [[j c]|] eqn:El; [|by apply last_None in El].
  assert (linked (map fst (infos ++ l))) as Hall.
  { rewrite map_app. apply linked_app; [done..|]. intros x y Hx Hy.
    change (map fst) with (fmap (M:=list) (@fst BlockHeaderInfo BlockInfo)) in *. rewrite fmap_last in Hx.
    destruct (last infos) as [z|]; [|done]. injection Hx as <-. destruct Hlast as [<- _].
    destruct l as [|w l]; [done|]. injection Hhd as ->. injection Hy as <-. by destruct (HT _ _ _ Hc) as [? _]. }
  assert (∀ y, y ∈ infos ++ l → T !! mh_block_hash y.1 = Some y) as Hin'.
  { intros y [?|?]%elem_of_app; auto. }
  assert (last (infos ++ l) = Some (j, c)) as Hlast' by (by rewrite last_app, El).
  assert (∃ x, head (infos ++ l) = Some x ∧ mh_block_hash x.1 = h) as Hhead.
  { destruct infos as [|z infos].
    - simpl in *. exists (i, b). split; [done|]. destruct (HT _ _ _ Hc) as [? _]. cbn [fst]; congruence.
    - destruct (last (z :: infos)) eqn:E; [|by apply last_None in E]. destruct Hlast as [_ Hx]. exact Hx. }
  pose proof (Hserved (j, c) (last_Some_elem_of _ _ El)) as Hj. cbn [fst] in Hj.
  destruct (at_known a (mh_prev_block_hash j)) eqn:Ek.
  { eexists _, _. split; [reflexivity|]. split; [done..|]. by exists (j, c). }
  assert (mh_prev_block_hash j ≠ all_zeros) as Hnz.
  { intros Hz. assert (at_known a (mh_prev_block_hash j) = true) by (apply at_known_spec; by left). congruence. }
  destruct (HT _ _ _ Hj) as (_ & _ & _ & Hp). rewrite decide_False in Hp by done.
  destruct Hp as (j' & c' & Hj' & Hh'). pose proof (linked_height l (i, b) (j, c) Hll Hserved Hhd El) as Hle.
  cbn [fst] in Hle. apply (IH _ j' c'); [done|lia|done|done|]. by rewrite Hlast'.
Qed.

(** ** Storing *)

Record stored_in a a' : Prop := {
  st_steps : rtc archive_step a a';
  st_tips : side_tips a' = side_tips a;
  st_known h : known_main a h → known_main a' h
}.
#[local] Instance stored_in_preorder : PreOrder stored_in.
Proof.
  split; [split; done || reflexivity|]. intros a b c [S1 T1 K1] [S2 T2 K2]. split; [by etrans|congruence|auto].
Qed.

(** What the tables of a well-formed archive are after storing one block. *)
Lemma store_one a i b :
  reachable a → agrees T a → T !! mh_block_hash i = Some (i, b) → at_known a (mh_prev_block_hash i) = true →
  ∃ a1 a2, put_main_header_info a i = Ok a1 ∧ put_main_block_info a1 (mh_block_hash i) b = Ok a2 ∧
    stored_in a a2 ∧ agrees T a2 ∧ known_main a2 (mh_block_hash i).
Proof.
  intros Hr Hag Hi Hk%at_known_spec. pose proof (reachable_ok a Hr) as [_ Hm]. pose proof (reachable_links a Hr) as Hl.
  destruct (HT _ _ _ Hi) as (_ & Hz & Hrange & Hp).
  assert (main_storable a i) as Hst.
  { split_and!; [|done|].
    - destruct (main_header_infos a !! mh_block_hash i) as [i'|] eqn:E; [|by left]. right.
      destruct (ag_header _ _ Hag _ _ E) as [b' Hb']. congruence.
    - intros n Hn. destruct Hk as [Hk|[j Hj]].
      + apply (mc_info a Hm) in Hn as [j Hj]. destruct (mc_height a Hm _ _ Hj) as (_ & ? & _). done.
      + pose proof (ag_height _ _ Hag _ _ Hj). destruct (ag_header _ _ Hag _ _ Hj) as [c Hc].
        destruct (HT _ _ _ Hc) as (_ & _ & ? & _). assert (n = mh_height j) as -> by congruence. lia. }
  destruct (put_main_header_succeeds a i Hm Hl Hst Hk) as [a1 H1]. exists a1.
  assert (archive_step a a1) as S1 by (by eapply step_main_header).
  pose proof (put_main_header_info_ok a i a1 Hm Hst H1) as Hm1. pose proof (put_main_header_links_ok a i a1 H1 Hl) as Hl1.
  destruct (put_main_header_info_inv a i a1) as (height & work & l & a0 & Hent & G1 & G2 & _ & _ & E1 & E2 & _ & _); [|done|].
  { intros n Hn. destruct Hst as (_ & _ & Hmax). specialize (Hmax n Hn). apply height_is_main in Hn.
    destruct (io_range _ (mc_index a Hm) _ n Hn). lia. }
  rewrite G1 in E1. rewrite G2 in E2.
  assert (height = mh_height i) as ->.
  { unfold new_main_entry in Hent. case_bool_decide as Hpz; [rewrite decide_True in Hp by done; simplify_eq; done|].
    rewrite decide_False in Hp by done. destruct Hp as (j & c & Hj & Hh). destruct Hk as [?|[j' Hj']]; [done|].
    destruct (ag_header _ _ Hag _ _ Hj') as [c' Hc']. assert (j' = j) as -> by congruence.
    rewrite (ag_height _ _ Hag _ _ Hj') in Hent. destruct (total_work a !! _); [|discriminate]. cbn in Hent. congruence. }
  assert (main_block_infos a1 = main_block_infos a ∧ side_tips a1 = side_tips a) as [E3 E4].
  { revert H1. unfold put_main_header_info, link_main_header. destruct (bail_if _ _); [|discriminate].
    cbn [mbind result_bind]. destruct (if bool_decide _ then _ else _); [|discriminate].
    cbn [mbind result_bind]. destruct (if negb _ then _ else _); [|discriminate].
    cbn [mbind result_bind]. destruct (get_main_successors _ _); [|discriminate].
    cbn [mbind result_bind]. destruct (build_ancestors _ _ _ _); [|discriminate]. by intros [= <-]. }
  destruct (put_main_block_succeeds a1 (mh_block_hash i) i b Hm1 Hl1) as [a2 H2].
  { by rewrite E2, lookup_insert_eq. }
  { destruct Hk as [?|Hk]; [by left|]. right. rewrite E3. by apply (ag_blocks _ _ Hag). }
  exists a2. destruct (put_main_block_links a1 _ b a2 H2) as (_ & F2 & F3 & F4 & _).
  destruct (put_main_block_info_same a1 _ b a2 H2) as [_ (F5 & _)].
  assert (∀ h, known_main a2 h ↔ h = mh_block_hash i ∨ known_main a h) as Hkn.
  { intros h. unfold known_main. rewrite F2, E2, lookup_insert_is_Some.
    destruct (decide (mh_block_hash i = h)) as [E|]; naive_solver. }
  split_and!; [done|done| | |by apply Hkn; left].
  - split; [|congruence|by intros; apply Hkn; right].
    eapply rtc_l; [exact S1|]. eapply rtc_l; [by eapply step_main_info|done].
  - split.
    + intros h x. rewrite F2, E2. intros [[<- <-]|[_ Hx]]%lookup_insert_Some; [eauto|by apply (ag_header _ _ Hag)].
    + intros h x. rewrite F2, F5, E2, E1. intros [[<- <-]|[Hne Hx]]%lookup_insert_Some; [by rewrite lookup_insert_eq|].
      rewrite lookup_insert_ne by done. by apply (ag_height _ _ Hag).
    + intros h [->|Hh]%Hkn; rewrite F3, E3; [by rewrite lookup_insert_eq|].
      apply lookup_insert_is_Some'. right. by apply (ag_blocks _ _ Hag).
Qed.

Lemma store_all a p (l : list (BlockHeaderInfo * BlockInfo)) h :
  reachable a → agrees T a → fetched a h l →
  ∃ a' p', store_infos a p (rev l) = (Ok a', p') ∧ stored_in a a' ∧ agrees T a' ∧
    ∀ y, y ∈ l → known_main a' (mh_block_hash y.1).
Proof.
  intros Hr Hag [Hll Hserved _ (z & Hz & Hk)]. revert a p z Hr Hag Hll Hserved Hz Hk.
  induction l as [|y l IH] using rev_ind; intros a p z Hr Hag Hll Hserved Hz Hk.
  { exists a, p. split_and!; [done|reflexivity|done|]. intros y Hy. by apply not_elem_of_nil in Hy. }
  rewrite last_snoc in Hz. injection Hz as ->. rewrite rev_app_distr. destruct z as [i b]. cbn [rev app store_infos fst] in *.
  assert (T !! mh_block_hash i = Some (i, b)) as Hi by (apply (Hserved (i, b)), elem_of_app; right; by left).
  destruct (store_one a i b Hr Hag Hi Hk) as (a1 & a2 & H1 & H2 & Hst & Hag2 & Hkn).
  rewrite H1. cbn [mbind result_bind]. rewrite H2.
  destruct l as [|w l _] using rev_ind.
  { exists a2, (wrote_headers p 1). split_and!; [done..|]. intros y [[]%not_elem_of_nil|Hy]%elem_of_app.
    apply list_elem_of_singleton in Hy as ->. done. }
  destruct (IH a2 (wrote_headers p 1) w) as (a' & p' & Hs & Hst' & Hag' & Hin).
  - unfold reachable in *. etrans; [exact Hr|apply Hst].
  - done.
  - intros j x y Hx Hy. apply (Hll j); rewrite map_app; by apply lookup_app_l_Some.
  - intros y Hy. apply Hserved, elem_of_app. by left.
  - by rewrite last_snoc.
  - apply at_known_spec. right. replace (mh_prev_block_hash w.1) with (mh_block_hash i); [done|].
    rewrite !map_app in Hll. cbn [map fst] in Hll. rewrite <- app_assoc in Hll. cbn [app] in Hll.
    apply (Hll (length (map fst l)) w.1 i); [by rewrite list_lookup_middle|].
    rewrite lookup_app_r by lia. by replace (S (length (map fst l)) - length (map fst l))%nat with 1%nat by lia.
  - exists a', p'. split_and!; [done|by etrans|done|]. intros y [Hy|Hy]%elem_of_app; [by apply Hin|].
    apply list_elem_of_singleton in Hy as ->. by apply Hst'.
Qed.

Lemma request_ok a p h i b (fuel : nat) :
  reachable a → agrees T a → T !! h = Some (i, b) → mh_height i < Z.of_nat fuel →
  ∃ a' p', request_ancestor_infos get_infos fuel a p h = (Ok true, a', p') ∧
    stored_in a a' ∧ agrees T a' ∧ known_main a' h.
Proof.
  intros Hr Hag Hi Hh. unfold request_ancestor_infos. destruct (at_known a h) eqn:Ek.
  { apply at_known_spec in Ek as [->|Hk]; [by destruct (HT _ _ _ Hi) as (_ & ? & _)|]. by exists a, p. }
  destruct (fetch_loop a fuel h h i b [] p) as (l & p1 & Hf & Hfet); [done|done|..|done|].
  { intros j x y Hx. by destruct j. }
  { intros y Hy. by apply not_elem_of_nil in Hy. }
  rewrite Hf. set (p2 := start_writing _ _). destruct (store_all a p2 l h Hr Hag Hfet) as (a' & p' & Hs & Hst & Hag' & Hin).
  rewrite Hs. exists a', p'. split_and!; [done..|]. destruct Hfet as [_ _ (x & Hx & <-) _]. apply Hin.
  destruct l; [done|]. injection Hx as ->. by left.
Qed.

End Source.

(** C17: a request for the ancestors of a block the mainchain node has ends
    within as many batches as the block is high, and then the archive knows the
    block, holds only blocks of the node with their heights and contents, keeps
    what it knew and its tips, and is still reachable; for a block the node does
    not have the answer is that it is not available, and nothing is stored. *)
Theorem ancestors_fetched T get_infos `{!InfoSource get_infos} a p h (fuel : nat) :
  tree_ok T → serves T get_infos → reachable a → agrees T a →
  (∀ i b, T !! h = Some (i, b) → mh_height i < Z.of_nat fuel) → (0 < fuel)%nat →
  ∃ available a' p', request_ancestor_infos get_infos fuel a p h = (Ok available, a', p') ∧
    stored_in a a' ∧ agrees T a' ∧
    if available then at_known a' h = true else T !! h = None ∧ a' = a.
Proof.
  intros HT Hserve Hr Hag Hfuel Hpos. destruct (T !! h) as [[i b]|] eqn:E.
  - destruct (request_ok T HT get_infos Hserve a p h i b fuel Hr Hag E (Hfuel _ _ eq_refl)) as (a' & p' & Hq & Hst & Hag' & Hk).
    exists true, a', p'. split_and!; [done..|]. apply at_known_spec. by right.
  - unfold request_ancestor_infos. destruct (at_known a h) eqn:Ek.
    + exists true, a, p. by split_and!.
    + destruct fuel as [|fuel]; [lia|]. cbn [fetch_infos]. rewrite (sv_absent _ _ Hserve) by done.
      exists false, a, p. by split_and!.
Qed.

End Fetch.
