(* ===== verification/Peer.v ===== *)
(** * Connections to peers

    Model of src/lib/net/peer: the messages (message.rs), the queue of requests
    with its removal of duplicates (request_queue.rs), and the connection task
    (task.rs): what a peer's heartbeat leads to, the answers to a peer's
    requests, and the messages from the other tasks.  Streams and their timing
    are the sequence of mailbox items. *)

From stdpp Require Import base numbers list strings gmap.
From S2P Require Import Prelude Float64 SafeMath MarketMath StateErrors DecisionTypes Markets Transactions.
From S2P Require Import TwoWayPeg Bodies Archive ArchiveStore Voting MarketsDb TxPow Authorization StateModel.
From S2P Require Import Validation.

Abbreviation PeerStateId := bytes (only parsing).

(** ** Messages *)

Inductive Network : Type := Regtest | Signet | Forknet | Betanet.

Definition network_identifier (network : Network) : Z :=
  match network with Regtest => 0 | Signet => 1 | Forknet => 2 | Betanet => 4 end.
(** The last byte of the prefix takes the network identifier. *)
Definition magic_bytes (network : Network) : bytes :=
  [130; 143; 10; Z.lor 0 (network_identifier network)].

Record Version : Type := { v_major : Z; v_minor : Z; v_patch : Z }.
Record TipInfo : Type := { tp_block_height : Z; tp_tip : Tip; tp_total_work : Z }.
Record PeerState : Type := { ps_tip_info : option TipInfo; ps_version : Version }.

Record GetBlockRequest : Type := {
  gbr_block_hash : BlockHash;
  gbr_descendant_tip : option Tip;
  gbr_ancestor : option BlockHash;
  gbr_peer_state_id : option PeerStateId
}.
Record GetHeadersRequest : Type := {
  ghr_start : gset BlockHash;
  ghr_end : BlockHash;
  ghr_height : option Z;
  ghr_peer_state_id : option PeerStateId
}.
Inductive PeerRequest : Type :=
| GetBlock (r : GetBlockRequest)
| GetHeaders (r : GetHeadersRequest)
| PushTransaction (transaction : AuthorizedTransaction).

Inductive ResponseMessage : Type :=
| RespBlock (header : Header) (body : Body)
| RespHeaders (headers : list Header)
| RespNoBlock (block_hash : BlockHash)
| RespNoHeader (block_hash : BlockHash)
| TransactionAccepted (txid : Txid)
| TransactionRejected (txid : Txid).

Inductive RequestMessage : Type :=
| MsgHeartbeat (s : PeerState)
| MsgRequest (r : PeerRequest).

(** The bytes to read of a response; the height must be known. *)
Definition headers_response_limit (r : GetHeadersRequest) : option Z :=
  height ← ghr_height r; Some ((height + 1) * 2048).
Definition read_response_limit (r : PeerRequest) : option Z :=
  match r with
  | GetBlock _ => Some (10 * 1024 * 1024)
  | GetHeaders r => headers_response_limit r
  | PushTransaction _ => Some 256
  end.
Definition message_response_limit (m : RequestMessage) : option (option Z) :=
  match m with MsgHeartbeat _ => None | MsgRequest r => Some (read_response_limit r) end.

(** Seconds to wait for a response of at most [limit] bytes. *)
Definition MIN_READ_RESPONSE_TIMEOUT : Z := 5.
Definition response_read_timeout (limit : Z) : Z := MIN_READ_RESPONSE_TIMEOUT + limit / (64 * 1024).

Definition request_cost (r : PeerRequest) : Z :=
  match r with GetBlock _ => 1000 | GetHeaders _ => 10000 | PushTransaction _ => 10 end.
Definition REQUEST_QUOTA : Z := 50000.

(** What is sent of a request: the requester's own fields are left out. *)
Definition wire_request (r : PeerRequest) : PeerRequest :=
  match r with
  | GetBlock r => GetBlock {| gbr_block_hash := gbr_block_hash r; gbr_descendant_tip := None; gbr_ancestor := None;
                              gbr_peer_state_id := None |}
  | GetHeaders r => GetHeaders {| ghr_start := ghr_start r; ghr_end := ghr_end r; ghr_height := None;
                                  ghr_peer_state_id := None |}
  | PushTransaction t => PushTransaction t
  end.

(** The hash of a request and of a peer state, of what is serialised of them. *)
Class PeerHashes : Type := {
  request_hash : PeerRequest → bytes;
  request_hash_wire r : request_hash (wire_request r) = request_hash r;
  peer_state_hash : PeerState → PeerStateId
}.

(** ** The queue of requests *)

Record RequestQueue : Type := { rq_hashes : gset bytes; rq_sent : list PeerRequest }.
Definition RequestQueue_new : RequestQueue := {| rq_hashes := ∅; rq_sent := [] |}.

Section Peer.
Context {AM : BitcoinAmount} {BH : BodyHashes} {AE : ArchiveEnv} {PW : PowHashes} {VE : ValidationEnv} {PH : PeerHashes}.
Implicit Types (a : Archive) (q : RequestQueue).

(** A request is sent once: a second one with the same hash is ignored. *)
Definition send_request q (r : PeerRequest) : bool * RequestQueue :=
  if bool_decide (request_hash r ∈ rq_hashes q) then (false, q)
  else (true, {| rq_hashes := {[request_hash r]} ∪ rq_hashes q; rq_sent := rq_sent q ++ [r] |}).

(** ** What a peer's tip leads to *)

Inductive BanReason : Type :=
| BmmVerificationFailed (tip : Tip)
| IncorrectTotalWork (tip : Tip) (total_work : Z).

(** [TaskPanic] stands for the height that must be known for a tip. *)
Inductive TaskError : Type :=
| TaskArchive (e : ArchiveError)
| PeerBan (reason : BanReason)
| TaskPanic.

Definition of_task {A} (r : result ArchiveError A) : result TaskError A := map_err TaskArchive r.

Inductive PeerInfo : Type :=
| InfoError
| NeedMainchainAncestors (main_hash : MainBlockHash) (peer_state_id : PeerStateId)
| NewTipReady (tip : Tip)
| NewTransaction (t : AuthorizedTransaction)
| InfoResponse (response : ResponseMessage) (request : PeerRequest).

(** The tip to compare with the peer's: the block, its best mainchain block and
    the work there. *)
Definition own_tip_info a (s : State) : result TaskError (option TipInfo) :=
  match s_tip s with
  | None => Ok None
  | Some tip =>
      height ← ok_or (s_height s) TaskPanic;
      main ← of_task (get_best_main_verification a tip);
      work ← of_task (get_total_work a main);
      Ok (Some {| tp_tip := {| tip_block_hash := tip; tip_main_block_hash := main |};
                  tp_block_height := height; tp_total_work := work |})
  end.

(** Whether the peer's tip is in the archive's current mainchain. *)
Definition peer_tip_on_mainchain a (peer : TipInfo) : result ArchiveError bool :=
  match main_header_infos a !! tip_main_block_hash (tp_tip peer) with
  | None => Ok false
  | Some _ =>
      match tip_info (mainchain_tip (side_tips a)) with
      | None => Ok false
      | Some info => is_main_descendant a (tip_main_block_hash (tp_tip peer)) (mh_block_hash info)
      end
  end.

(** The headers up to the peer's tip, after what [tip] and its ancestors have. *)
Definition headers_request (start : gset BlockHash) (peer : TipInfo) (id : PeerStateId) : PeerRequest :=
  GetHeaders {| ghr_start := start; ghr_end := tip_block_hash (tp_tip peer);
                ghr_height := Some (tp_block_height peer); ghr_peer_state_id := Some id |}.

(** The peer's tip is better: true if its headers are known, or else they are
    requested. *)
Definition headers_or_request a q (tip : TipInfo) (peer : TipInfo) (id : PeerStateId)
  : result ArchiveError (bool * RequestQueue) :=
  match try_get_header a (tip_block_hash (tp_tip peer)) with
  | Some _ => Ok (true, q)
  | None =>
      l ← get_block_locator a (tip_block_hash (tp_tip tip));
      Ok (false, (send_request q (headers_request (list_to_set l) peer id)).2)
  end.

Definition some_fst (r : bool * RequestQueue) : option bool * RequestQueue := (Some r.1, r.2).

(** What the connection does with a better tip of the peer. *)
Abbreviation TipCheck := (result ArchiveError (option bool * RequestQueue)) (only parsing).
Definition peer_is_better a q (tip peer : TipInfo) (id : PeerStateId) : TipCheck :=
  r ← headers_or_request a q tip peer id; Ok (some_fst r).

(** No tip of one's own. *)
Definition check_without_tip a q (peer : TipInfo) (id : PeerStateId) : TipCheck :=
  match try_get_header a (tip_block_hash (tp_tip peer)) with
  | None => Ok (Some false, (send_request q (headers_request ∅ peer id)).2)
  | Some _ => Ok (Some true, q)
  end.

(** The same height, more work for the peer: better unless in one lineage. *)
Definition check_more_work a q (tip peer : TipInfo) (id : PeerStateId) : TipCheck :=
  shared ← shared_mainchain_lineage a (tip_main_block_hash (tp_tip tip)) (tip_main_block_hash (tp_tip peer));
  if (shared : bool) then Ok (None, q) else peer_is_better a q tip peer id.

(** The same height, less work for the peer: better only in one lineage. *)
Definition check_less_work a q (tip peer : TipInfo) (id : PeerStateId) : TipCheck :=
  shared ← shared_mainchain_lineage a (tip_main_block_hash (tp_tip tip)) (tip_main_block_hash (tp_tip peer));
  if negb shared then Ok (None, q) else peer_is_better a q tip peer id.

(** More work and lower for the peer: the own ancestor before the common
    mainchain ancestor decides. *)
Definition check_more_work_lower a q (tip peer : TipInfo) (id : PeerStateId) : TipCheck :=
  main_ancestor ← last_common_main_ancestor a (tip_main_block_hash (tp_tip tip)) (tip_main_block_hash (tp_tip peer));
  height ← ancestor_height_before a main_ancestor (tip_block_hash (tp_tip tip));
  match option_cmp Z.compare height (Some (tp_block_height peer)) with
  | Lt => peer_is_better a q tip peer id
  | _ => Ok (None, q)
  end.

(** Less work and higher for the peer: its ancestor before the common mainchain
    ancestor decides, so its headers come first. *)
Definition check_less_work_higher a q (tip peer : TipInfo) (id : PeerStateId) : TipCheck :=
  r ← headers_or_request a q tip peer id;
  if negb r.1 then Ok (some_fst r) else
  main_ancestor ← last_common_main_ancestor a (tip_main_block_hash (tp_tip tip)) (tip_main_block_hash (tp_tip peer));
  height ← ancestor_height_before a main_ancestor (tip_block_hash (tp_tip peer));
  Ok (match option_cmp Z.compare height (Some (tp_block_height tip)) with Lt => None | _ => Some true end, q).

(** The same work and height. *)
Definition check_level a q (tip peer : TipInfo) (id : PeerStateId) : TipCheck :=
  let h := tip_block_hash (tp_tip tip) in
  let peer_h := tip_block_hash (tp_tip peer) in
  if bool_decide (peer_h = h) then Ok (None, q) else
  r ← headers_or_request a q tip peer id;
  if negb r.1 then Ok (some_fst r) else
  main_ancestor ← last_common_main_ancestor a (tip_main_block_hash (tp_tip tip)) (tip_main_block_hash (tp_tip peer));
  main_ancestor_height ← get_main_height a main_ancestor;
  anc ← ancestor_before a main_ancestor main_ancestor_height h;
  peer_anc ← ancestor_before a main_ancestor main_ancestor_height peer_h;
  Ok (match option_cmp Z.compare (snd <$> anc) (snd <$> peer_anc),
            option_cmp Z.compare (fst <$> anc) (fst <$> peer_anc) with
      | (Lt | Eq), Eq | _, Gt => None
      | Gt, Eq | _, Lt => Some true
      end, q).

(** [Some true]: the peer's tip is better and its headers are known;
    [Some false]: better, and its headers were requested; [None]: not better. *)
Definition check_peer_tip_and_request_headers a q (tip : option TipInfo) (peer : TipInfo) (id : PeerStateId) : TipCheck :=
  on_main ← peer_tip_on_mainchain a peer;
  if negb on_main then Ok (None, q) else
  match tip with
  | None => check_without_tip a q peer id
  | Some tip =>
      match tp_total_work tip ?= tp_total_work peer, tp_block_height tip ?= tp_block_height peer with
      | (Lt | Eq), Lt => peer_is_better a q tip peer id
      | (Eq | Gt), Gt => Ok (None, q)
      | Lt, Eq => check_more_work a q tip peer id
      | Gt, Eq => check_less_work a q tip peer id
      | Lt, Gt => check_more_work_lower a q tip peer id
      | Gt, Lt => check_less_work_higher a q tip peer id
      | Eq, Eq => check_level a q tip peer id
      end
  end.

(** The mainchain side of the check of a peer's tip: the infos to send and
    whether to go on. *)
Definition check_claimed_work a (peer : TipInfo) (id : PeerStateId) : result TaskError (option PeerInfo) :=
  let main := tip_main_block_hash (tp_tip peer) in
  match main_header_infos a !! main with
  | None => Ok (Some (NeedMainchainAncestors main id))
  | Some _ =>
      work ← of_task (get_total_work a main);
      if negb (tp_total_work peer =? work) then Err (PeerBan (IncorrectTotalWork (tp_tip peer) (tp_total_work peer))) else
      block ← of_task (get_main_block_info a main);
      if negb (bool_decide (bmm_commitment block = Some (tip_block_hash (tp_tip peer))))
      then Err (PeerBan (BmmVerificationFailed (tp_tip peer))) else Ok None
  end.

Definition MAX_BLOCK_REQUESTS : nat := 100.

(** [iter_missing_bodies(..).take(n)]: the first of the missing bodies.  The
    iterator is lazy; in a well-formed archive the items after these do not fail
    either. *)
Definition take_missing_bodies a (h : BlockHash) (start_height : Z) (n : nat) : result ArchiveError (list BlockHash) :=
  l ← iter_missing_bodies a h start_height; Ok (take n l).

Definition body_request (tip : Tip) (id : PeerStateId) (ancestor : option BlockHash) (h : BlockHash) : PeerRequest :=
  GetBlock {| gbr_block_hash := h; gbr_descendant_tip := Some tip; gbr_ancestor := ancestor;
              gbr_peer_state_id := Some id |}.
Definition send_requests q (l : list PeerRequest) : RequestQueue := foldl (fun q r => (send_request q r).2) q l.

(** The bodies the peer's tip needs, or the report that it is ready. *)
Definition request_bodies a q (tip : option TipInfo) (peer : TipInfo) (id : PeerStateId)
  : result ArchiveError (RequestQueue * list PeerInfo) :=
  let peer_h := tip_block_hash (tp_tip peer) in
  common ← match tip with
           | Some tip => last_common_ancestor a (tip_block_hash (tp_tip tip)) peer_h
           | None => Ok None
           end;
  start_height ← match common with Some h => get_height a h | None => Ok 0 end;
  missing ← take_missing_bodies a peer_h start_height MAX_BLOCK_REQUESTS;
  match missing with
  | [] => Ok (q, [NewTipReady (tp_tip peer)])
  | _ => Ok (send_requests q (map (body_request (tp_tip peer) id common) missing), [])
  end.

Definition handle_peer_state a (s : State) q (peer_state : PeerState)
  : result TaskError (RequestQueue * list PeerInfo) :=
  match ps_tip_info peer_state with
  | None => Ok (q, [])
  | Some peer =>
      let id := peer_state_hash peer_state in
      tip ← own_tip_info a s;
      need ← check_claimed_work a peer id;
      match need with
      | Some info => Ok (q, [info])
      | None =>
          '(better, q) ← of_task (check_peer_tip_and_request_headers a q tip peer id);
          match better with
          | None | Some false => Ok (q, [])
          | Some true =>
              match try_get_bmm_result a (tip_block_hash (tp_tip peer)) (tip_main_block_hash (tp_tip peer)) with
              | Some Verified => of_task (request_bodies a q tip peer id)
              | _ => Err (PeerBan (BmmVerificationFailed (tp_tip peer)))
              end
          end
      end
  end.

(** ** Answers to a peer *)

Definition handle_get_block a (h : BlockHash) : ResponseMessage :=
  match try_get_header a h, bodies a !! h with
  | Some header, Some body => RespBlock header body
  | _, _ => RespNoBlock h
  end.

(** The headers from [h] back to a block of [start], newest first. *)
Fixpoint headers_until (fuel : nat) a (start : gset BlockHash) (h : option BlockHash) : result ArchiveError (list Header) :=
  match fuel with
  | O => Err LoopBound
  | S fuel =>
      o ← ancestor_headers_next a h;
      match o with
      | None => Ok []
      | Some ((h, header), rest) =>
          if bool_decide (h ∈ start) then Ok [] else
          l ← headers_until fuel a start rest; Ok (header :: l)
      end
  end.

Definition handle_get_headers a (start : gset BlockHash) (last : BlockHash) : result ArchiveError ResponseMessage :=
  match try_get_header a last with
  | Some _ => l ← headers_until (S (S (size (headers a)))) a start (Some last); Ok (RespHeaders (rev l))
  | None => Ok (RespNoHeader last)
  end.

(** ** The connection *)

Inductive InternalMessage : Type :=
| BmmVerification (found : bool) (peer_state_id : PeerStateId)
| BmmVerificationError
| ForwardRequest (r : PeerRequest)
| MainchainAncestors (peer_state_id : PeerStateId)
| MainchainAncestorsError
| HeadersAvailable (peer_state_id : PeerStateId)
| BodiesAvailable (peer_state_id : PeerStateId).

Inductive ConnectionError : Type :=
| MissingPeerState (id : PeerStateId)
| ConnArchive (e : ArchiveError)
| ConnState (e : Error)
| BlockingTask (e : TaskError)
| MailboxFailed.

(** [pc_tasks] are the peer states queued for the blocking task. *)
Record PeerConn : Type := {
  pc_peer_state : option PeerStateId;
  pc_peer_states : gmap PeerStateId PeerState;
  pc_queue : RequestQueue;
  pc_tasks : list PeerState;
  pc_infos : list PeerInfo;
  pc_responses : list ResponseMessage;
  pc_heartbeats : list PeerState
}.
Definition PeerConn_new : PeerConn :=
  {| pc_peer_state := None; pc_peer_states := ∅; pc_queue := RequestQueue_new; pc_tasks := []; pc_infos := [];
     pc_responses := []; pc_heartbeats := [] |}.

Definition set_pc_queue (c : PeerConn) q : PeerConn :=
  {| pc_peer_state := pc_peer_state c; pc_peer_states := pc_peer_states c; pc_queue := q; pc_tasks := pc_tasks c;
     pc_infos := pc_infos c; pc_responses := pc_responses c; pc_heartbeats := pc_heartbeats c |}.
Definition add_pc_task (c : PeerConn) (s : PeerState) : PeerConn :=
  {| pc_peer_state := pc_peer_state c; pc_peer_states := pc_peer_states c; pc_queue := pc_queue c;
     pc_tasks := pc_tasks c ++ [s]; pc_infos := pc_infos c; pc_responses := pc_responses c;
     pc_heartbeats := pc_heartbeats c |}.
Definition add_pc_infos (c : PeerConn) (l : list PeerInfo) : PeerConn :=
  {| pc_peer_state := pc_peer_state c; pc_peer_states := pc_peer_states c; pc_queue := pc_queue c;
     pc_tasks := pc_tasks c; pc_infos := pc_infos c ++ l; pc_responses := pc_responses c;
     pc_heartbeats := pc_heartbeats c |}.
Definition add_pc_response (c : PeerConn) (r : ResponseMessage) : PeerConn :=
  {| pc_peer_state := pc_peer_state c; pc_peer_states := pc_peer_states c; pc_queue := pc_queue c;
     pc_tasks := pc_tasks c; pc_infos := pc_infos c; pc_responses := pc_responses c ++ [r];
     pc_heartbeats := pc_heartbeats c |}.
Definition add_pc_heartbeat (c : PeerConn) (s : PeerState) : PeerConn :=
  {| pc_peer_state := pc_peer_state c; pc_peer_states := pc_peer_states c; pc_queue := pc_queue c;
     pc_tasks := pc_tasks c; pc_infos := pc_infos c; pc_responses := pc_responses c;
     pc_heartbeats := pc_heartbeats c ++ [s] |}.

(** An invalid transaction is answered and ends the connection. *)
Definition handle_push_tx a (s : State) (c : PeerConn) (t : AuthorizedTransaction)
  : result ConnectionError unit * PeerConn :=
  let txid := tx_txid (at_transaction t) in
  match validate_transaction s a t with
  | Err e => (Err (ConnState e), add_pc_response c (TransactionRejected txid))
  | Ok _ => (Ok tt, add_pc_infos (add_pc_response c (TransactionAccepted txid)) [NewTransaction t])
  end.

(** A heartbeat is remembered; a new state of the peer is looked at. *)
Definition handle_heartbeat (c : PeerConn) (new_state : PeerState) : PeerConn :=
  let id := peer_state_hash new_state in
  let changed := negb (bool_decide (pc_peer_state c = Some id)) in
  let c := {| pc_peer_state := Some id; pc_peer_states := <[id := new_state]> (pc_peer_states c);
              pc_queue := pc_queue c; pc_tasks := pc_tasks c; pc_infos := pc_infos c;
              pc_responses := pc_responses c; pc_heartbeats := pc_heartbeats c |} in
  if changed then add_pc_task c new_state else c.

Definition handle_peer_request a (s : State) (c : PeerConn) (m : RequestMessage)
  : result ConnectionError unit * PeerConn :=
  match m with
  | MsgHeartbeat state => (Ok tt, handle_heartbeat c state)
  | MsgRequest (GetBlock r) => (Ok tt, add_pc_response c (handle_get_block a (gbr_block_hash r)))
  | MsgRequest (GetHeaders r) =>
      match handle_get_headers a (ghr_start r) (ghr_end r) with
      | Ok response => (Ok tt, add_pc_response c response)
      | Err e => (Err (ConnArchive e), c)
      end
  | MsgRequest (PushTransaction t) => handle_push_tx a s c t
  end.

(** Look again at a state the peer reported. *)
Definition queue_peer_state (c : PeerConn) (id : PeerStateId) : result ConnectionError unit * PeerConn :=
  match pc_peer_states c !! id with
  | None => (Err (MissingPeerState id), c)
  | Some state => (Ok tt, add_pc_task c state)
  end.

Definition handle_internal_message (c : PeerConn) (m : InternalMessage) : result ConnectionError unit * PeerConn :=
  match m with
  | ForwardRequest r => (Ok tt, set_pc_queue c (send_request (pc_queue c) r).2)
  | BmmVerification false _ => (Ok tt, c)
  | BmmVerification true id => queue_peer_state c id
  | BmmVerificationError | MainchainAncestorsError => (Ok tt, c)
  | MainchainAncestors id | HeadersAvailable id | BodiesAvailable id => queue_peer_state c id
  end.

Definition VERSION_of (v : Version) (tip : option TipInfo) : PeerState := {| ps_tip_info := tip; ps_version := v |}.

Definition handle_heartbeat_due a (s : State) (v : Version) (c : PeerConn) : result ConnectionError unit * PeerConn :=
  match own_tip_info a s with
  | Err (TaskArchive e) => (Err (ConnArchive e), c)
  | Err e => (Err (BlockingTask e), c)
  | Ok tip => (Ok tt, add_pc_heartbeat c (VERSION_of v tip))
  end.

(** A blocking task runs on its own; its error ends the connection. *)
Definition run_blocking_task a (s : State) (c : PeerConn) : result ConnectionError unit * PeerConn :=
  match pc_tasks c with
  | [] => (Ok tt, c)
  | state :: rest =>
      let c := {| pc_peer_state := pc_peer_state c; pc_peer_states := pc_peer_states c; pc_queue := pc_queue c;
                  pc_tasks := rest; pc_infos := pc_infos c; pc_responses := pc_responses c;
                  pc_heartbeats := pc_heartbeats c |} in
      match handle_peer_state a s (pc_queue c) state with
      | Err e => (Err (BlockingTask e), c)
      | Ok (q, infos) => (Ok tt, add_pc_infos (set_pc_queue c q) infos)
      end
  end.

Inductive MailItem : Type :=
| MailFailed
| MailInternal (m : InternalMessage)
| MailHeartbeat
| MailPeerRequest (m : RequestMessage)
| MailPeerResponse (request : PeerRequest) (response : option ResponseMessage)
| MailBlockingTask.

Definition peer_step a (s : State) (v : Version) (c : PeerConn) (item : MailItem) : result ConnectionError unit * PeerConn :=
  match item with
  | MailFailed => (Err MailboxFailed, c)
  | MailInternal m => handle_internal_message c m
  | MailHeartbeat => handle_heartbeat_due a s v c
  | MailPeerRequest m => handle_peer_request a s c m
  | MailPeerResponse request (Some response) => (Ok tt, add_pc_infos c [InfoResponse response request])
  | MailPeerResponse request None => (Ok tt, add_pc_infos c [InfoError])
  | MailBlockingTask => run_blocking_task a s c
  end.

(** The task over a sequence of items, each with the archive and state it sees. *)
Fixpoint run_peer (v : Version) (c : PeerConn) (items : list (Archive * State * MailItem))
  : result ConnectionError unit * PeerConn :=
  match items with
  | [] => (Ok tt, c)
  | (a, s, item) :: items =>
      match peer_step a s v c item with
      | (Err e, c) => (Err e, c)
      | (Ok _, c) => run_peer v c items
      end
  end.

End Peer.
