(* ===== verification/PeerFacts.v ===== *)
(** * What a connection does

    The comparison of a peer's tip agrees with the archive's choice between
    tips above height 0; a request is sent once on a connection; a peer that asks for headers
    gets the chain from the last block it has to the one it asked for. *)

From stdpp Require Import base numbers list strings gmap.
From S2P Require Import Prelude Float64 SafeMath MarketMath StateErrors DecisionTypes Markets Transactions.
From S2P Require Import TwoWayPeg Bodies Archive ArchiveStore ArchiveFacts ArchiveStoreFacts ArchiveInvalidation.
From S2P Require Import ArchiveReach ArchiveQueries Voting MarketsDb TxPow Authorization StateModel Validation Peer.

Section Facts.
Context {AM : BitcoinAmount} {BH : BodyHashes} {AE : ArchiveEnv} {PW : PowHashes} {VE : ValidationEnv} {PH : PeerHashes}.
Implicit Types (a : Archive) (q : RequestQueue).

(** ** The comparison of tips *)

(** A tip whose height and work are those of the archive. *)
Definition truthful a (i : TipInfo) : Prop :=
  get_height a (tip_block_hash (tp_tip i)) = Ok (tp_block_height i) ∧
  get_total_work a (tip_main_block_hash (tp_tip i)) = Ok (tp_total_work i).

(** Goes through the fallible steps of a computation known to succeed. *)
Ltac through_ok Hb :=
  repeat (match type of Hb with mbind _ ?m = Ok _ => destruct m; [|discriminate Hb] end; cbn [mbind result_bind] in * ).

(** C18: for a truthful tip of the current mainchain whose headers are known, when
    neither that tip nor the own one is at height 0, the connection finds the
    peer's tip better exactly when the archive chooses it over the own tip, and
    requests nothing. *)
Theorem peer_tip_check_agrees a q tip peer id r :
  truthful a tip → truthful a peer → 1 ≤ tp_block_height tip → 1 ≤ tp_block_height peer →
  is_Some (headers a !! tip_block_hash (tp_tip peer)) →
  peer_tip_on_mainchain a peer = Ok true → better_tip a (tp_tip tip) (tp_tip peer) = Ok r →
  check_peer_tip_and_request_headers a q (Some tip) peer id
  = Ok (if bool_decide (r = Some (tp_tip peer)) then Some true else None, q).
Proof.
  intros (Hh & Hw) (Hh' & Hw') Hpos Hpos' [hd Hhd] Hmain Hb.
  unfold check_peer_tip_and_request_headers, check_more_work, check_less_work, check_more_work_lower, check_less_work_higher,
    check_level, peer_is_better, headers_or_request, try_get_header. rewrite Hmain, Hhd.
  cbn [mbind result_bind negb some_fst fst snd].
  unfold better_tip in Hb. destruct (decide (tp_tip tip = tp_tip peer)) as [Heq|Hne].
  { rewrite (bool_decide_true (tp_tip tip = _)) in Hb by done. injection Hb as <-.
    rewrite (bool_decide_false (None = _)) by done. rewrite Heq in Hh, Hw.
    assert (tp_block_height peer = tp_block_height tip) as -> by congruence.
    assert (tp_total_work peer = tp_total_work tip) as -> by congruence.
    rewrite !Z.compare_refl. by rewrite bool_decide_true by congruence. }
  rewrite (bool_decide_false (tp_tip tip = _)) in Hb by done.
  rewrite Hh, Hh', Hw, Hw' in Hb. cbn [mbind result_bind] in Hb.
  rewrite (proj2 (Z.eqb_neq (tp_block_height tip) 0)), (proj2 (Z.eqb_neq (tp_block_height peer) 0)) in Hb by lia.
  cbn [andb] in Hb.
  assert (∀ x, bool_decide (Some (if x : bool then tp_tip tip else tp_tip peer) = Some (tp_tip peer)) = negb x) as Hx.
  { intros []; [apply bool_decide_eq_false|apply bool_decide_eq_true]; congruence. }
  destruct (tp_total_work tip ?= tp_total_work peer), (tp_block_height tip ?= tp_block_height peer).
  - destruct (decide (tip_block_hash (tp_tip peer) = tip_block_hash (tp_tip tip))) as [E|E].
    + rewrite (bool_decide_true (tip_block_hash (tp_tip peer) = _)) by done.
      rewrite (bool_decide_true (tip_block_hash (tp_tip tip) = _)) in Hb by done. injection Hb as <-.
      by rewrite (Hx true).
    + rewrite (bool_decide_false (tip_block_hash (tp_tip peer) = _)) by done.
      rewrite (bool_decide_false (tip_block_hash (tp_tip tip) = _)) in Hb by (intros E2; by apply E).
      through_ok Hb. injection Hb as <-.
      repeat destruct (option_cmp Z.compare _ _); first [by rewrite (Hx true)|by rewrite (Hx false)].
  - injection Hb as <-. by rewrite (Hx false).
  - injection Hb as <-. by rewrite (Hx true).
  - through_ok Hb. injection Hb as <-. rewrite Hx. by case_match.
  - injection Hb as <-. by rewrite (Hx false).
  - through_ok Hb. injection Hb as <-. destruct (option_cmp _ _ _); first [by rewrite (Hx true)|by rewrite (Hx false)].
  - through_ok Hb. injection Hb as <-. case_match; cbn [negb]; first [by rewrite (Hx true)|by rewrite (Hx false)].
  - through_ok Hb. injection Hb as <-. destruct (option_cmp _ _ _); first [by rewrite (Hx true)|by rewrite (Hx false)].
  - injection Hb as <-. by rewrite (Hx true).
Qed.

(** ** Requests are sent once *)

Definition queue_ok q : Prop :=
  NoDup (map request_hash (rq_sent q)) ∧ ∀ h, h ∈ rq_hashes q ↔ h ∈ map request_hash (rq_sent q).

Lemma send_request_ok q r : queue_ok q → queue_ok (send_request q r).2.
Proof.
  intros [Hn Hs]. unfold send_request. case_bool_decide as Hin; [done|]. split; cbn [rq_sent rq_hashes snd].
  - rewrite map_app. apply NoDup_app. split_and!; [done| |apply NoDup_singleton].
    intros h Hh Hr. apply list_elem_of_singleton in Hr as ->. by apply Hin, Hs.
  - intros h. rewrite map_app, elem_of_app, elem_of_union, Hs, elem_of_singleton. cbn [map].
    rewrite list_elem_of_singleton. tauto.
Qed.
Lemma send_requests_ok q l : queue_ok q → queue_ok (send_requests q l).
Proof.
  unfold send_requests. revert q. induction l as [|r l IH]; intros q Hq; [done|]. by apply IH, send_request_ok.
Qed.

Lemma headers_or_request_ok a q tip peer id b q' :
  queue_ok q → headers_or_request a q tip peer id = Ok (b, q') → queue_ok q'.
Proof.
  unfold headers_or_request. intros Hq. destruct (try_get_header _ _); [by intros [= <- <-]|].
  destruct (get_block_locator _ _); [|discriminate]. cbn [mbind result_bind]. intros [= <- <-]. by apply send_request_ok.
Qed.

Lemma check_peer_tip_ok a q tip peer id o q' :
  queue_ok q → check_peer_tip_and_request_headers a q tip peer id = Ok (o, q') → queue_ok q'.
Proof.
  intros Hq. unfold check_peer_tip_and_request_headers, check_more_work, check_less_work, check_more_work_lower,
    check_less_work_higher, check_level, check_without_tip, peer_is_better.
  destruct (peer_tip_on_mainchain a peer) as [[]|]; [|by intros [= <- <-]|discriminate]. cbn [mbind result_bind negb].
  destruct tip as [tip|].
  2: { destruct (try_get_header _ _); intros [= <- <-]; [done|by apply send_request_ok]. }
  pose proof (headers_or_request_ok a q tip peer id) as Hr. specialize (Hr) with (1 := Hq).
  destruct (headers_or_request a q tip peer id) as [[b q1]|];
    [specialize (Hr b q1 eq_refl)|clear Hr];
    destruct (tp_total_work tip ?= tp_total_work peer), (tp_block_height tip ?= tp_block_height peer);
    cbn [mbind result_bind some_fst fst snd] in *; intros Hc;
    repeat match goal with
    | Hc : (mbind _ ?m) = Ok _ |- _ => destruct m; [|discriminate Hc]; cbn [mbind result_bind some_fst fst snd] in Hc
    | Hc : (if ?x then _ else _) = Ok _ |- _ => destruct x
    | Hc : match ?x with Eq => _ | Lt => _ | Gt => _ end = Ok _ |- _ => destruct x
    end; try discriminate; unfold some_fst in *; simplify_eq; done.
Qed.

Lemma request_bodies_ok a q tip peer id q' infos :
  queue_ok q → request_bodies a q tip peer id = Ok (q', infos) → queue_ok q'.
Proof.
  intros Hq. unfold request_bodies. destruct (match tip with Some _ => _ | None => _ end) as [common|]; [|discriminate].
  cbn [mbind result_bind]. destruct (match common with Some _ => _ | None => _ end) as [start|]; [|discriminate].
  cbn [mbind result_bind]. destruct (take_missing_bodies _ _ _ _) as [[|h l]|]; [..|discriminate]; cbn [mbind result_bind];
    intros Hi; injection Hi; intros; subst; [done|by apply (send_requests_ok q (map _ (h :: l)))].
Qed.

Lemma handle_peer_state_ok a s q ps q' infos :
  queue_ok q → handle_peer_state a s q ps = Ok (q', infos) → queue_ok q'.
Proof.
  intros Hq. unfold handle_peer_state. destruct (ps_tip_info ps) as [peer|]; [|by intros [= <- <-]].
  destruct (own_tip_info a s) as [tip|]; [|discriminate]. cbn [mbind result_bind].
  destruct (check_claimed_work _ _ _) as [[info|]|]; [by intros [= <- <-]| |discriminate]. cbn [mbind result_bind].
  destruct (check_peer_tip_and_request_headers _ _ _ _ _) as [[better q1]|] eqn:E; [|discriminate].
  apply (check_peer_tip_ok _ _ _ _ _ _ _ Hq) in E. cbn [of_task map_err mbind result_bind].
  destruct better as [[]|]; [|by intros [= <- <-]..].
  destruct (try_get_bmm_result _ _ _) as [[]|]; try discriminate. intros H.
  destruct (request_bodies _ _ _ _ _) as [[q2 i2]|] eqn:Er; [|discriminate]. cbn [of_task map_err] in H.
  injection H as <- <-. by eapply request_bodies_ok.
Qed.

Lemma peer_step_ok a s v c item : queue_ok (pc_queue c) → queue_ok (pc_queue (peer_step a s v c item).2).
Proof.
  intros Hq. destruct item as [|m| |m|r [resp|]|]; cbn [peer_step]; try done.
  - destruct m; try done; cbn [handle_internal_message]; try (unfold queue_peer_state; by destruct (pc_peer_states c !! _)).
    + destruct found; [|done]. unfold queue_peer_state. by destruct (pc_peer_states c !! _).
    + by apply send_request_ok.
  - unfold handle_heartbeat_due. by destruct (own_tip_info a s) as [|[]].
  - destruct m as [st|[r|r|t]]; cbn [handle_peer_request].
    + unfold handle_heartbeat. by destruct (negb _).
    + done.
    + by destruct (handle_get_headers _ _ _).
    + unfold handle_push_tx. by destruct (validate_transaction s a t).
  - unfold run_blocking_task. destruct (pc_tasks c) as [|st rest]; [done|].
    destruct (handle_peer_state _ _ _ _) as [[q infos]|] eqn:E; [|done]. by eapply handle_peer_state_ok in E.
Qed.

Lemma run_peer_ok v c items : queue_ok (pc_queue c) → queue_ok (pc_queue (run_peer v c items).2).
Proof.
  revert c. induction items as [|[[a s] item] items IH]; intros c Hq; [done|]. cbn [run_peer].
  pose proof (peer_step_ok a s v c item Hq) as Hs. destruct (peer_step a s v c item) as [[u|e] c1]; [by apply IH|done].
Qed.

(** C31: on a connection, whatever happens on it and whatever the node stores or
    discards meanwhile, no request is sent twice: two requests of which the same
    is sent are one.  A body that was discarded is thus not asked for again. *)
Theorem requests_sent_once v items r c i j r1 r2 :
  run_peer v PeerConn_new items = (r, c) →
  rq_sent (pc_queue c) !! i = Some r1 → rq_sent (pc_queue c) !! j = Some r2 →
  wire_request r1 = wire_request r2 → i = j.
Proof.
  intros Hrun Hi Hj Hw. assert (queue_ok (pc_queue (run_peer v PeerConn_new items).2)) as [Hn _].
  { apply run_peer_ok. split; [constructor|]. intros h. cbn. set_solver. }
  rewrite Hrun in Hn. cbn [snd] in Hn. assert (request_hash r1 = request_hash r2) as Hh.
  { rewrite <- (request_hash_wire r1), <- (request_hash_wire r2). congruence. }
  eapply (NoDup_lookup _ i j (request_hash r1) Hn).
  - change (map request_hash) with (fmap (M:=list) request_hash). by rewrite list_lookup_fmap, Hi.
  - change (map request_hash) with (fmap (M:=list) request_hash). by rewrite list_lookup_fmap, Hj, Hh.
Qed.

(** ** Serving headers *)

(** The header at a height of a chain. *)
Definition header_at a (f : Z → bytes) (i : Z) : Header := (item_of a f i).2.

Lemma headers_until_chain a h n f start (fuel : nat) m j :
  side_chain_ok a → chain_at a h n f → -1 ≤ m ≤ j → j ≤ n → j - m < Z.of_nat fuel →
  (0 ≤ m → f m ∈ start) → (∀ i, m < i ≤ j → f i ∉ start) →
  headers_until fuel a start (if decide (j < 0) then None else Some (f j))
  = Ok (map (header_at a f) (rev (range (m + 1) (j + 1)))).
Proof.
  intros Ha Hc. revert j. induction fuel as [|fuel IH]; intros j Hm Hj Hf Hin Hout; [lia|].
  cbn [headers_until]. destruct (decide (j < 0)) as [Hneg|Hneg].
  { cbn [ancestor_headers_next mbind result_bind]. by rewrite range_empty by lia. }
  cbn [ancestor_headers_next]. destruct (chain_header a h n f j Ha Hc) as (hd & Hd & Hp); [lia|].
  rewrite Hd. cbn [mbind result_bind]. destruct (decide (m = j)) as [->|Hne].
  { rewrite bool_decide_true by (apply Hin; lia). by rewrite range_empty by lia. }
  rewrite bool_decide_false by (apply Hout; lia). rewrite Hp.
  replace (if decide (j = 0) then None else Some (f (j - 1))) with (if decide (j - 1 < 0) then None else Some (f (j - 1)))
    by (destruct (decide (j = 0)), (decide (j - 1 < 0)); try done; lia).
  rewrite IH by (lia || done || (intros; apply Hout; lia)). cbn [mbind result_bind]. f_equal.
  rewrite (range_snoc (m + 1) j), rev_app_distr by lia. simpl. replace (j - 1 + 1) with j by lia.
  f_equal. unfold header_at, item_of. by rewrite Hd.
Qed.

(** The last block of the chain that the asking side has. *)
Lemma last_shared (f : Z → bytes) (start : gset bytes) n : 0 ≤ n →
  ∃ m, -1 ≤ m ≤ n ∧ (0 ≤ m → f m ∈ start) ∧ ∀ i, m < i ≤ n → f i ∉ start.
Proof.
  intros Hn. pattern n. apply natlike_ind; [..|done].
  - destruct (decide (f 0 ∈ start)).
    + exists 0. split_and!; [lia|lia|done|lia].
    + exists (-1). split_and!; [lia|lia|lia|]. intros i Hi. by replace i with 0 by lia.
  - clear n Hn. intros n Hn (m & Hm & Hin & Hout). destruct (decide (f (Z.succ n) ∈ start)).
    + exists (Z.succ n). split_and!; [lia|lia|done|lia].
    + exists m. split_and!; [lia|lia|done|]. intros i Hi. destruct (decide (i = Z.succ n)) as [->|]; [done|]. apply Hout. lia.
Qed.

Lemma headers_served a h n f start :
  side_chain_ok a → chain_at a h n f →
  ∃ m, -1 ≤ m ≤ n ∧ (0 ≤ m → f m ∈ start) ∧ (∀ i, m < i ≤ n → f i ∉ start) ∧
    handle_get_headers a start h = Ok (RespHeaders (map (header_at a f) (range (m + 1) (n + 1)))).
Proof.
  intros Ha Hc. pose proof Hc as [Hh _]. destruct (io_range _ (sc_index a Ha) h n Hh) as [Hn _].
  destruct (last_shared f start n Hn) as (m & Hm & Hin & Hout). exists m. split_and!; [lia|lia|done|done|].
  pose proof (chain_top a h n f Ha Hc) as Htop. pose proof (chain_size a h n f Ha Hc) as Hsz.
  unfold handle_get_headers, try_get_header. apply height_is_side in Hh. destruct (sc_header a Ha h n Hh) as [hd Hd].
  rewrite Hd. pose proof (headers_until_chain a h n f start (S (S (size (headers a)))) m n Ha Hc) as Hu.
  rewrite decide_False, Htop in Hu by lia. rewrite Hu by (done || lia). cbn [mbind result_bind].
  by rewrite <- map_rev, rev_involutive.
Qed.

End Facts.
