(* ===== verification/Net.v ===== *)
(** * The table of peers

    Model of src/lib/net/mod.rs and of the addresses of src/lib/types/net.rs:
    which peers are connected and which are remembered, connecting to a resolved
    address, dialling the known peers again, and passing messages to a peer's
    connection.  The QUIC endpoint, name resolution and certificates come from
    other packages; connecting and resolving are parameters. *)

From stdpp Require Import base numbers list strings gmap.
From S2P Require Import Prelude Float64 SafeMath MarketMath StateErrors DecisionTypes Markets Transactions.
From S2P Require Import TwoWayPeg Bodies Archive ArchiveStore Peer.

(** An IP address is its bytes, a socket address an IP address and a port. *)
Abbreviation IpAddr := bytes (only parsing).
Abbreviation SocketAddr := (bytes * Z)%type (only parsing).

Definition is_unspecified (ip : IpAddr) : bool := forallb (fun b => b =? 0) ip.

(** ** Resolved addresses *)

(** The addresses of a domain in reverse order, so that the last is the first
    resolved one: [addrs_head] and then [addrs_tail]. *)
Inductive ResolvedSeedAddress : Type :=
| ResolvedDomain (domain : bytes) (port : Z) (addrs_head : IpAddr) (addrs_tail : list IpAddr)
| ResolvedStatic (addr : SocketAddr).

Definition resolved_port (r : ResolvedSeedAddress) : Z :=
  match r with ResolvedDomain _ port _ _ => port | ResolvedStatic addr => addr.2 end.
Definition first_ip_addr (r : ResolvedSeedAddress) : IpAddr :=
  match r with ResolvedDomain _ _ h t => default h (last t) | ResolvedStatic addr => addr.1 end.
Definition pop_first_ip_addr (r : ResolvedSeedAddress) : IpAddr * option ResolvedSeedAddress :=
  match r with
  | ResolvedDomain domain port h t =>
      match last t with
      | Some ip => (ip, Some (ResolvedDomain domain port h (removelast t)))
      | None => (h, None)
      end
  | ResolvedStatic addr => (addr.1, None)
  end.
Definition ip_addrs (r : ResolvedSeedAddress) : list IpAddr :=
  match r with ResolvedDomain _ _ h t => rev (h :: t) | ResolvedStatic addr => [addr.1] end.

(** ** Peers *)

Inductive PeerConnectionStatus : Type := Connecting | Connected.
#[export] Instance PeerConnectionStatus_eq_dec : EqDecision PeerConnectionStatus.
Proof. solve_decision. Defined.

(** The handle of a connection: its status, whether a message was received, and
    the messages pushed to it. *)
Record PeerHandle : Type := {
  ph_status : PeerConnectionStatus;
  ph_received : bool;
  ph_address : ResolvedSeedAddress;
  ph_messages : list InternalMessage
}.

Record Net : Type := { active_peers : gmap SocketAddr PeerHandle; known_peers : gset SocketAddr }.
Definition set_active (n : Net) m : Net := {| active_peers := m; known_peers := known_peers n |}.
Definition set_known (n : Net) s : Net := {| active_peers := active_peers n; known_peers := s |}.

Inductive NetError : Type :=
| AlreadyConnected (addr : SocketAddr)
| UnspecifiedPeerIP (ip : IpAddr)
| InvalidRemoteAddress (addr : SocketAddr)
| ConnectFailed
| AcceptFailed
| ServerEndpointClosed.

Definition add_active_peer (n : Net) (addr : SocketAddr) (h : PeerHandle) : result NetError Net :=
  match active_peers n !! addr with
  | Some _ => Err (AlreadyConnected addr)
  | None => Ok (set_active n (<[addr := h]> (active_peers n)))
  end.
Definition remove_active_peer (n : Net) (addr : SocketAddr) : Net := set_active n (delete addr (active_peers n)).
Definition forget_peer (n : Net) (addr : SocketAddr) : bool * Net :=
  (bool_decide (addr ∈ known_peers n), set_known n (known_peers n ∖ {[addr]})).

Definition add_message (m : InternalMessage) (h : PeerHandle) : PeerHandle :=
  {| ph_status := ph_status h; ph_received := ph_received h; ph_address := ph_address h;
     ph_messages := ph_messages h ++ [m] |}.
Definition push_internal_message (n : Net) (m : InternalMessage) (addr : SocketAddr) : bool * Net :=
  match active_peers n !! addr with
  | None => (false, n)
  | Some h => (true, set_active n (<[addr := add_message m h]> (active_peers n)))
  end.

(** To every connected peer that is not excluded. *)
Definition push_tx (n : Net) (exclude : gset SocketAddr) (t : AuthorizedTransaction) : Net :=
  set_active n (map_imap (fun addr h =>
    Some (if bool_decide (addr ∈ exclude) then h
          else match ph_status h with
               | Connecting => h
               | Connected => add_message (ForwardRequest (PushTransaction t)) h
               end)) (active_peers n)).

Definition is_active_peer (n : Net) (r : ResolvedSeedAddress) : bool :=
  existsb (fun ip => bool_decide (is_Some (active_peers n !! (ip, resolved_port r)))) (ip_addrs r).

(** The answer of the endpoint to a connection attempt. *)
Inductive ConnectResult : Type := ConnectStarted | ConnectInvalidAddress | ConnectError.

Section Connect.
Context (connect_to : SocketAddr → ConnectResult).

(** The first address already connected. *)
Definition connected_ip (n : Net) (r : ResolvedSeedAddress) : option IpAddr :=
  head (filter (fun ip => is_Some (active_peers n !! (ip, resolved_port r))) (ip_addrs r)).

(** The loop over the addresses; each turn drops one, so the number of
    addresses is enough. *)
Fixpoint connect_loop (fuel : nat) (r : ResolvedSeedAddress) : result NetError (SocketAddr * ResolvedSeedAddress) :=
  match fuel with
  | O => Err ConnectFailed
  | S fuel =>
      let addr := (first_ip_addr r, resolved_port r) in
      if is_unspecified addr.1 then Err (UnspecifiedPeerIP addr.1) else
      match connect_to addr with
      | ConnectStarted => Ok (addr, r)
      | ConnectInvalidAddress =>
          match pop_first_ip_addr r with
          | (_, Some next) => connect_loop fuel next
          | (_, None) => Err (InvalidRemoteAddress addr)
          end
      | ConnectError => Err ConnectFailed
      end
  end.

Lemma pop_shorter r ip next : pop_first_ip_addr r = (ip, Some next) → length (ip_addrs r) = S (length (ip_addrs next)).
Proof.
  destruct r as [d p h l|a]; cbn [pop_first_ip_addr]; [|done]. destruct (last l) as [x|] eqn:E; [|done].
  intros [= _ <-]. cbn [ip_addrs]. rewrite !length_rev. cbn [length]. f_equal.
  apply last_Some in E as [l' ->]. rewrite removelast_last, length_app. cbn. lia.
Qed.
(** More turns than addresses change nothing. *)
Lemma connect_loop_enough (fuel : nat) r :
  (length (ip_addrs r) ≤ fuel)%nat → connect_loop fuel r = connect_loop (length (ip_addrs r)) r.
Proof.
  revert r. induction fuel as [|fuel IH]; intros r Hf; [by replace (length (ip_addrs r)) with 0%nat by lia|].
  destruct (length (ip_addrs r)) as [|k] eqn:El; [destruct r; cbn [ip_addrs] in El; rewrite ?length_rev in El; discriminate|].
  cbn [connect_loop]. destruct (is_unspecified _); [done|]. destruct (connect_to _); [done| |done].
  destruct (pop_first_ip_addr r) as [ip [next|]] eqn:E; [|done]. apply pop_shorter in E.
  rewrite IH by lia. f_equal. lia.
Qed.

Definition connect_peer (n : Net) (r : ResolvedSeedAddress) : result NetError unit * Net :=
  match connected_ip n r with
  | Some ip => (Err (AlreadyConnected (ip, resolved_port r)), n)
  | None =>
      match connect_loop (length (ip_addrs r)) r with
      | Err e => (Err e, n)
      | Ok (addr, r) =>
          let n := match r with ResolvedStatic a => set_known n ({[a]} ∪ known_peers n) | _ => n end in
          match add_active_peer n addr {| ph_status := Connecting; ph_received := false; ph_address := r; ph_messages := [] |} with
          | Ok n => (Ok tt, n)
          | Err e => (Err e, n)
          end
      end
  end.

Definition dial_peer (n : Net) (r : ResolvedSeedAddress) : result NetError bool * Net :=
  if is_active_peer n r then (Ok false, n) else
  match connect_peer n r with
  | (Ok _, n) => (Ok true, n)
  | (Err e, n) => (Err e, n)
  end.

(** An error with one peer does not stop the others. *)
Fixpoint dial_all (n : Net) (l : list ResolvedSeedAddress) (dialed : Z) : Z * Net :=
  match l with
  | [] => (dialed, n)
  | r :: l =>
      match dial_peer n r with
      | (Ok true, n) => dial_all n l (dialed + 1)
      | (Ok false, n) | (Err _, n) => dial_all n l dialed
      end
  end.

(** The known addresses, then the seeds that resolve. *)
Definition dial_known_peers (addrs : list SocketAddr) (seeds : list (option ResolvedSeedAddress)) (n : Net) : Z * Net :=
  dial_all n (map ResolvedStatic addrs ++ omap id seeds) 0.

(** One turn of [redial_known_peers]: the next delay and flag, and whether to
    dial. *)
Definition redial_step (min_delay max_delay : Z) (n : Net) (delay : Z) (no_peers : bool) : Z * bool * bool :=
  if negb (bool_decide (active_peers n = ∅)) then (min_delay, false, false)
  else if negb no_peers then (delay, true, false)
  else (Z.min (2 * delay) max_delay, no_peers, true).

End Connect.

(** [accept_incoming] of a connection from [addr]; [closed] says whether it
    was already closed. *)
Definition accept_incoming (n : Net) (addr : SocketAddr) (closed : bool) : result NetError (option SocketAddr) * Net :=
  let duplicate := bool_decide (is_Some (active_peers n !! addr)) in
  if duplicate || closed then (Ok None, n) else
  let n := set_known n ({[addr]} ∪ known_peers n) in
  match add_active_peer n addr {| ph_status := Connected; ph_received := false; ph_address := ResolvedStatic addr; ph_messages := [] |} with
  | Ok n => (Ok (Some addr), n)
  | Err e => (Err e, n)
  end.
