(* ===== verification/NetTask.v ===== *)
(** * The network task

    Model of the task of src/lib/node/net_task.rs: the handler of a peer's
    response, which stores headers and bodies and tells when a tip is ready; the
    events and answers of the mainchain task; and the loop over the mailbox with
    its tables of bounded size.  What the task stores before an error stays
    stored, so an operation returns its result and the task. *)

From stdpp Require Import base numbers list strings gmap.
From S2P Require Import Prelude Float64 SafeMath MarketMath StateErrors DecisionTypes Markets Transactions.
From S2P Require Import TwoWayPeg Bodies Archive ArchiveStore Voting MarketsDb TxPow Authorization StateModel.
From S2P Require Import Validation BlockUpdate BlockConnect Mempool Node Addresses Proto MainTask Peer Net.

#[export] Instance Tip_countable : Countable Tip.
Proof.
  apply (inj_countable' (fun t => (tip_block_hash t, tip_main_block_hash t))
    (fun x => {| tip_block_hash := x.1; tip_main_block_hash := x.2 |})). by intros [].
Defined.

Abbreviation DescendantTips := (gmap BlockHash (gmap Tip (gset SocketAddr))) (only parsing).

(** The node, the peers, the tips that wait for a body, who asked the mainchain
    task for what, and the queues to the task itself and to the mainchain task. *)
Record NetTask : Type := {
  nt_node : Node;
  nt_net : Net;
  nt_descendant_tips : DescendantTips;
  nt_request_sources : gmap MainBlockHash (gset (SocketAddr * PeerStateId));
  nt_new_tips : list (Tip * option SocketAddr);
  nt_forward : list (MainBlockHash * SocketAddr * PeerStateId);
  nt_main_requests : list MainRequest;
  nt_reconnect : list ResolvedSeedAddress
}.

Definition set_nt_node (t : NetTask) n : NetTask :=
  {| nt_node := n; nt_net := nt_net t; nt_descendant_tips := nt_descendant_tips t;
     nt_request_sources := nt_request_sources t; nt_new_tips := nt_new_tips t; nt_forward := nt_forward t;
     nt_main_requests := nt_main_requests t; nt_reconnect := nt_reconnect t |}.
Definition set_nt_net (t : NetTask) n : NetTask :=
  {| nt_node := nt_node t; nt_net := n; nt_descendant_tips := nt_descendant_tips t;
     nt_request_sources := nt_request_sources t; nt_new_tips := nt_new_tips t; nt_forward := nt_forward t;
     nt_main_requests := nt_main_requests t; nt_reconnect := nt_reconnect t |}.
Definition set_nt_tips (t : NetTask) m : NetTask :=
  {| nt_node := nt_node t; nt_net := nt_net t; nt_descendant_tips := m;
     nt_request_sources := nt_request_sources t; nt_new_tips := nt_new_tips t; nt_forward := nt_forward t;
     nt_main_requests := nt_main_requests t; nt_reconnect := nt_reconnect t |}.
Definition set_nt_sources (t : NetTask) m : NetTask :=
  {| nt_node := nt_node t; nt_net := nt_net t; nt_descendant_tips := nt_descendant_tips t;
     nt_request_sources := m; nt_new_tips := nt_new_tips t; nt_forward := nt_forward t;
     nt_main_requests := nt_main_requests t; nt_reconnect := nt_reconnect t |}.
Definition push_new_tip (t : NetTask) (tip : Tip) (addr : option SocketAddr) : NetTask :=
  {| nt_node := nt_node t; nt_net := nt_net t; nt_descendant_tips := nt_descendant_tips t;
     nt_request_sources := nt_request_sources t; nt_new_tips := nt_new_tips t ++ [(tip, addr)];
     nt_forward := nt_forward t; nt_main_requests := nt_main_requests t; nt_reconnect := nt_reconnect t |}.
Definition push_forward (t : NetTask) (h : MainBlockHash) (addr : SocketAddr) (id : PeerStateId) : NetTask :=
  {| nt_node := nt_node t; nt_net := nt_net t; nt_descendant_tips := nt_descendant_tips t;
     nt_request_sources := nt_request_sources t; nt_new_tips := nt_new_tips t;
     nt_forward := nt_forward t ++ [(h, addr, id)]; nt_main_requests := nt_main_requests t;
     nt_reconnect := nt_reconnect t |}.
Definition push_main_request (t : NetTask) (r : MainRequest) : NetTask :=
  {| nt_node := nt_node t; nt_net := nt_net t; nt_descendant_tips := nt_descendant_tips t;
     nt_request_sources := nt_request_sources t; nt_new_tips := nt_new_tips t; nt_forward := nt_forward t;
     nt_main_requests := nt_main_requests t ++ [r]; nt_reconnect := nt_reconnect t |}.
Definition push_reconnect (t : NetTask) (r : ResolvedSeedAddress) : NetTask :=
  {| nt_node := nt_node t; nt_net := nt_net t; nt_descendant_tips := nt_descendant_tips t;
     nt_request_sources := nt_request_sources t; nt_new_tips := nt_new_tips t; nt_forward := nt_forward t;
     nt_main_requests := nt_main_requests t; nt_reconnect := nt_reconnect t ++ [r] |}.

(** Operations of the task: they may fail, and what they did stays. *)
Definition TaskM (A : Type) : Type := NetTask → result NodeError A * NetTask.
#[export] Instance TaskM_ret : MRet TaskM := fun A x t => (Ok x, t).
#[export] Instance TaskM_bind : MBind TaskM := fun A B f m t =>
  match m t with (Ok x, t) => f x t | (Err e, t) => (Err e, t) end.
Definition task_ask {A} (f : NetTask → A) : TaskM A := fun t => (Ok (f t), t).
Definition task_modify (f : NetTask → NetTask) : TaskM unit := fun t => (Ok tt, f t).
(** A read of the database, or a write transaction of the archive. *)
Definition task_read {A} (f : NetTask → result NodeError A) : TaskM A := fun t => (f t, t).
Definition task_archive (f : Archive → result ArchiveError Archive) : TaskM unit := fun t =>
  match f (n_archive (nt_node t)) with
  | Ok a => (Ok tt, set_nt_node t (set_n_archive (nt_node t) a))
  | Err e => (Err (NodeArchive e), t)
  end.

Definition MAX_DESCENDANT_TIPS : nat := N.to_nat 10000.
Definition MAX_PENDING_MAINCHAIN_REQUESTS : nat := N.to_nat 1000.

(** The order in which a [HashMap] of tips and a [HashSet] of peers are visited. *)
Class NetEnv : Type := {
  tips_iter : gmap Tip (gset SocketAddr) → list (Tip * gset SocketAddr);
  tips_iter_perm m : tips_iter m ≡ₚ map_to_list m;
  peers_iter : gset SocketAddr → list SocketAddr;
  peers_iter_perm s : peers_iter s ≡ₚ elements s;
  sources_iter : gset (SocketAddr * PeerStateId) → list (SocketAddr * PeerStateId);
  sources_iter_perm s : sources_iter s ≡ₚ elements s
}.

Section Task.
Context {AM : BitcoinAmount} {MT : MainchainTx} {BH : BodyHashes} {AE : ArchiveEnv} {PW : PowHashes}
  {VE : ValidationEnv} {BE : BlockEnv} {PH : PeerHashes} {NE : NetEnv}.
Implicit Types (t : NetTask) (addr : SocketAddr).

(** ** Responses *)

Definition remove_peer addr : TaskM unit := task_modify (fun t => set_nt_net t (remove_active_peer (nt_net t) addr)).
Definition push_message (m : InternalMessage) addr : TaskM unit :=
  task_modify (fun t => set_nt_net t (push_internal_message (nt_net t) m addr).2).

(** A tip waits for a body, with the peers that sent it. *)
Definition wait_for (h : BlockHash) (tip : Tip) (sources : gset SocketAddr) (m : DescendantTips) : DescendantTips :=
  let tips := default ∅ (m !! h) in
  <[h := <[tip := default ∅ (tips !! tip) ∪ sources]> tips]> m.
Definition add_waiting (h : BlockHash) (tip : Tip) (sources : gset SocketAddr) : TaskM unit :=
  task_modify (fun t =>
    if bool_decide (MAX_DESCENDANT_TIPS ≤ size (nt_descendant_tips t))%nat then t
    else set_nt_tips t (wait_for h tip sources (nt_descendant_tips t))).

(** The first missing body after a height. *)
Definition earliest_missing_body (a : Archive) (h : BlockHash) (height : option Z) : result ArchiveError (option BlockHash) :=
  l ← iter_missing_bodies a h (match height with Some n => n + 1 | None => 0 end); Ok (head l).

(** Tell the connection when the bodies it asked for are there. *)
Definition notify_bodies (r : GetBlockRequest) (descendant_tip : Tip) (id : PeerStateId) addr : TaskM unit :=
  missing ← task_read (fun t =>
    let a := n_archive (nt_node t) in
    of_archive (height ← match gbr_ancestor r with
                         | Some h => n ← get_height a h; Ok (Some n)
                         | None => Ok None
                         end;
                earliest_missing_body a (gbr_block_hash r) height));
  match missing with
  | Some h => add_waiting h descendant_tip {[addr]}
  | None => push_message (BodiesAvailable id) addr
  end.

(** [find_map] over the BMM results: the first verified mainchain block that is
    an ancestor of [main]. *)
Fixpoint verified_ancestor (a : Archive) (main : MainBlockHash) (l : list (MainBlockHash * BmmResult))
  : result ArchiveError (option MainBlockHash) :=
  match l with
  | [] => Ok None
  | (m, BmmFailed) :: l => verified_ancestor a main l
  | (m, Verified) :: l =>
      b ← is_main_descendant a m main;
      if (b : bool) then Ok (Some m) else verified_ancestor a main l
  end.

Definition verified_tip (a : Archive) (h : BlockHash) (descendant_tip : Tip) : result NodeError Tip :=
  o ← of_archive (verified_ancestor a (tip_main_block_hash descendant_tip) (results_iter (get_bmm_results a h)));
  main ← ok_or o (ReorgInvariant "no verified BMM ancestor for descendant tip");
  Ok {| tip_block_hash := h; tip_main_block_hash := main |}.

(** The body a tip that waited still lacks, after what it shares with [tip]. *)
Definition missing_of_waiting (a : Archive) (tip : option Tip) (descendant_tip : Tip)
  : result ArchiveError (option BlockHash) :=
  common_height ← match tip with
    | Some tip =>
        common ← last_common_ancestor a (tip_block_hash descendant_tip) (tip_block_hash tip);
        match common with Some h => n ← get_height a h; Ok (Some n) | None => Ok None end
    | None => Ok None
    end;
  earliest_missing_body a (tip_block_hash descendant_tip) common_height.

(** The tip at the parent of a missing body. *)
Definition parent_tip (a : Archive) (missing : BlockHash) : result ArchiveError (option Tip) :=
  header ← get_header a missing;
  match prev_side_hash header with
  | Some parent =>
      main ← get_best_main_verification a parent;
      Ok (Some {| tip_block_hash := parent; tip_main_block_hash := main |})
  | None => Ok None
  end.

Definition is_better (a : Archive) (tip : option Tip) (next : Tip) : result NodeError bool :=
  match tip with
  | Some tip => r ← of_archive (better_tip a tip next); Ok (bool_decide (r = Some next))
  | None => Ok true
  end.

Fixpoint task_iter {A} (f : A → TaskM unit) (l : list A) : TaskM unit :=
  match l with [] => mret tt | x :: l => _ ← f x; task_iter f l end.

(** One waiting tip: it goes on waiting for the next missing body, entered
    before the parent of that body is looked at, and the tip to apply next is
    reported for each of its peers. *)
Definition handle_waiting (tip : option Tip) (e : Tip * gset SocketAddr) : TaskM unit :=
  let '(descendant_tip, sources) := e in
  missing ← task_read (fun t => of_archive (missing_of_waiting (n_archive (nt_node t)) tip descendant_tip));
  next ← match missing with
         | Some h =>
             _ ← add_waiting h descendant_tip sources;
             task_read (fun t => of_archive (parent_tip (n_archive (nt_node t)) h))
         | None => mret (Some descendant_tip)
         end;
  match next with
  | None => mret tt
  | Some next_tip =>
      better ← task_read (fun t => is_better (n_archive (nt_node t)) tip next_tip);
      if negb better then mret tt else
      task_iter (fun addr => task_modify (fun t => push_new_tip t next_tip (Some addr))) (peers_iter sources)
  end.

(** A block's body arrived. *)
Definition handle_block_response addr (r : GetBlockRequest) (descendant_tip : Tip) (id : PeerStateId)
  (header : Header) (body : Body) : TaskM unit :=
  let h := gbr_block_hash r in
  if negb (bool_decide (header_hash header = h)) then remove_peer addr else
  _ ← task_archive (fun a => put_body a h body);
  _ ← notify_bodies r descendant_tip id addr;
  tip ← task_read (fun t => current_tip (nt_node t));
  block_tip ← task_read (fun t => verified_tip (n_archive (nt_node t)) h descendant_tip);
  _ ← (if bool_decide (prev_side_hash header = (tip_block_hash <$> tip))
       then task_modify (fun t => push_new_tip t block_tip (Some addr)) else mret tt);
  waiting ← task_ask (fun t => nt_descendant_tips t !! h);
  match waiting with
  | None => mret tt
  | Some tips =>
      _ ← task_modify (fun t => set_nt_tips t (delete h (nt_descendant_tips t)));
      task_iter (handle_waiting tip) (tips_iter tips)
  end.

(** Headers are sequential from [prev] and none is an invalidated block. *)
Fixpoint sequential_headers (a : Archive) (prev : option BlockHash) (l : list Header) : bool :=
  match l with
  | [] => true
  | header :: l =>
      bool_decide (prev_side_hash header = prev) && negb (invalidated_block a (header_hash header)) &&
      sequential_headers a (Some (header_hash header)) l
  end.

(** The checks of a list of headers: false drops the peer. *)
Definition check_headers (a : Archive) (r : GetHeadersRequest) (height : Z) (l : list Header) : result ArchiveError bool :=
  match last l, head l with
  | Some end_header, Some first =>
      if negb (bool_decide (header_hash end_header = ghr_end r)) then Ok false else
      let start_hash := prev_side_hash first in
      if match start_hash with Some h => negb (bool_decide (h ∈ ghr_start r)) | None => false end then Ok false else
      start_height ← match start_hash with Some h => n ← get_height a h; Ok (Some n) | None => Ok None end;
      let len := as_u32 (Z.of_nat (length l)) in
      let end_height := match start_height with Some n => as_u32 (n + len) | None => as_u32 (len - 1) end in
      if negb (end_height =? height) then Ok false else
      Ok (sequential_headers a start_hash l)
  | _, _ => Ok false
  end.

(** The new headers are stored in one transaction; a header without its parent
    ends the loop. *)
Fixpoint store_headers (a : Archive) (l : list Header) : result ArchiveError Archive :=
  match l with
  | [] => Ok a
  | header :: l =>
      match try_get_header a (header_hash header) with
      | Some _ => store_headers a l
      | None =>
          if match prev_side_hash header with
             | Some parent => bool_decide (try_get_header a parent = None)
             | None => false
             end
          then Ok a
          else a ← put_header a header; store_headers a l
      end
  end.

Definition handle_headers_response addr (r : GetHeadersRequest) (height : Z) (id : PeerStateId) (l : list Header)
  : TaskM unit :=
  valid ← task_read (fun t => of_archive (check_headers (n_archive (nt_node t)) r height l));
  if negb valid then remove_peer addr else
  _ ← task_archive (fun a => store_headers a l);
  push_message (HeadersAvailable id) addr.

Definition handle_response addr (resp : ResponseMessage) (req : PeerRequest) : TaskM unit :=
  match req, resp with
  | GetBlock r, RespBlock header body =>
      match gbr_descendant_tip r, gbr_peer_state_id r with
      | Some descendant_tip, Some id => handle_block_response addr r descendant_tip id header body
      | _, _ => remove_peer addr
      end
  | GetBlock r, RespNoBlock h =>
      if bool_decide (is_Some (gbr_descendant_tip r)) && bool_decide (is_Some (gbr_peer_state_id r)) &&
         bool_decide (gbr_block_hash r = h)
      then mret tt else remove_peer addr
  | GetHeaders r, RespHeaders l =>
      match ghr_height r, ghr_peer_state_id r with
      | Some height, Some id => handle_headers_response addr r height id l
      | _, _ => remove_peer addr
      end
  | GetHeaders r, RespNoHeader h => if bool_decide (ghr_end r = h) then mret tt else remove_peer addr
  | PushTransaction _, (TransactionAccepted _ | TransactionRejected _) => mret tt
  | _, _ => remove_peer addr
  end.

(** ** The mainchain task *)

Definition handle_mainchain_task_response (r : MainResponse) : TaskM unit :=
  let '(RespAncestorInfos h res) := r in
  sources ← task_ask (fun t => nt_request_sources t !! h);
  match sources with
  | None => mret tt
  | Some sources =>
      _ ← task_modify (fun t => set_nt_sources t (delete h (nt_request_sources t)));
      task_iter (fun e : SocketAddr * PeerStateId =>
        push_message (match res with Ok true => MainchainAncestors e.2 | _ => MainchainAncestorsError end) e.1)
        (sources_iter sources)
  end.

Definition handle_mainchain_task_event (e : TaskEvent) : TaskM unit :=
  match e with
  | TaskBlock _ => fun t => let '(r, n) := handle_mainchain_block_event (nt_node t) in (r, set_nt_node t n)
  | TaskResponse r => handle_mainchain_task_response r
  end.

(** ** The mailbox *)

(** A tip reported ready, by a peer or by the node itself: a block that turns
    out invalid drops the peer, a fatal error ends the task. *)
Definition handle_new_tip (new_tip : Tip) (addr : option SocketAddr) : TaskM bool := fun t =>
  let n := nt_node t in
  let a := n_archive n in
  match
    (if negb (bool_decide (is_Some (sidechain_tips (side_tips a) !! tip_block_hash new_tip))) then Ok false
     else of_archive (is_main_descendant a (tip_main_block_hash new_tip) (mainchain_tip_hash (mainchain_tip (side_tips a)))))
  with
  | Err e => (Err e, t)
  | Ok false => (Ok false, t)
  | Ok true =>
      let '(r, n) := reorg_to_tip n new_tip in
      let t := set_nt_node t n in
      match r with
      | Ok applied => (Ok applied, t)
      | Err e =>
          if is_fatal_reorg_error e then (Err e, t) else
          (Ok false, match addr with Some addr => set_nt_net t (remove_active_peer (nt_net t) addr) | None => t end)
      end
  end.

(** A request of a peer for mainchain ancestors, unless too many wait;
    [accepted] says whether the mainchain task took it. *)
Definition forward_main_request (h : MainBlockHash) addr (id : PeerStateId) (accepted : bool) : TaskM unit :=
  task_modify (fun t =>
    if bool_decide (MAX_PENDING_MAINCHAIN_REQUESTS ≤ size (nt_request_sources t))%nat then t else
    if negb accepted then t else
    let t := push_main_request t (ReqAncestorInfos h) in
    set_nt_sources t (<[h := default ∅ (nt_request_sources t !! h) ∪ {[(addr, id)]}]> (nt_request_sources t))).

(** A transaction a peer sent: into the pool and on to the other peers, or
    dropped. *)
Definition handle_new_transaction addr (tx : AuthorizedTransaction) : TaskM unit := fun t =>
  match put (n_mempool (nt_node t)) tx with
  | Ok p => (Ok tt, set_nt_net (set_nt_node t (set_n_mempool (nt_node t) p)) (push_tx (nt_net t) {[addr]} tx))
  | Err _ => (Ok tt, t)
  end.

(** What the task asks of a connection's error. *)
Inductive PeerError : Type :=
| HeartbeatTimeout
| OtherPeerError (retry_connection bad_magic : bool).

Definition handle_peer_error addr (e : PeerError) (resolved : ResolvedSeedAddress) : TaskM unit := fun t =>
  match e with
  | HeartbeatTimeout =>
      match active_peers (nt_net t) !! addr with
      | None => (Ok tt, t)
      | Some h =>
          let t := set_nt_net t (remove_active_peer (nt_net t) addr) in
          if ph_received h then (Ok tt, push_reconnect t resolved) else
          match pop_first_ip_addr resolved with
          | (_, Some next) => (Ok tt, push_reconnect t next)
          | (_, None) => (Ok tt, t)
          end
      end
  | OtherPeerError retry_connection bad_magic =>
      let t := set_nt_net t (remove_active_peer (nt_net t) addr) in
      let t := if bad_magic then set_nt_net t (forget_peer (nt_net t) addr).2 else t in
      if retry_connection then (Ok tt, push_reconnect t resolved)
      else if bad_magic then (Ok tt, t)
      else match pop_first_ip_addr resolved with
           | (_, Some next) => (Ok tt, push_reconnect t next)
           | (_, None) => (Ok tt, t)
           end
  end.

(** A connection is accepted by the stream of incoming ones, and known peers are
    dialled by a loop of their own; that loop's error ends the task, and so does
    the end of the stream of what the connections report. *)
Inductive NetMailItem : Type :=
| AcceptConnection (addr : SocketAddr) (closed : bool)
| AcceptConnectionError
| RedialKnownPeersError
| ForwardMainchainTaskRequest (h : MainBlockHash) (addr : SocketAddr) (id : PeerStateId) (accepted : bool)
| MainchainTaskEvent (e : TaskEvent)
| NewTipReadyItem (tip : Tip) (addr : option SocketAddr)
| PeerInfoClosed
| PeerClosed (addr : SocketAddr)
| PeerErrorItem (addr : SocketAddr) (e : PeerError) (resolved : ResolvedSeedAddress)
| PeerNeedsAncestors (addr : SocketAddr) (main_hash : MainBlockHash) (id : PeerStateId)
| PeerNewTip (addr : SocketAddr) (tip : Tip)
| PeerNewTransaction (addr : SocketAddr) (tx : AuthorizedTransaction)
| PeerResponded (addr : SocketAddr) (resp : ResponseMessage) (req : PeerRequest)
| ReconnectPeer (resolved : ResolvedSeedAddress) (connect_to : SocketAddr → ConnectResult).

Definition net_step (item : NetMailItem) : TaskM unit :=
  match item with
  | AcceptConnection addr closed => task_modify (fun t => set_nt_net t (accept_incoming (nt_net t) addr closed).2)
  | AcceptConnectionError => mret tt
  | RedialKnownPeersError => task_read (fun _ => Err NodeNet)
  | ForwardMainchainTaskRequest h addr id accepted => forward_main_request h addr id accepted
  | MainchainTaskEvent e => handle_mainchain_task_event e
  | NewTipReadyItem tip addr => _ ← handle_new_tip tip addr; mret tt
  | PeerInfoClosed => task_read (fun _ => Err NodeNet)
  | PeerClosed addr => remove_peer addr
  | PeerErrorItem addr e resolved => handle_peer_error addr e resolved
  | PeerNeedsAncestors addr h id => task_modify (fun t => push_forward t h addr id)
  | PeerNewTip addr tip => task_modify (fun t => push_new_tip t tip (Some addr))
  | PeerNewTransaction addr tx => handle_new_transaction addr tx
  | PeerResponded addr resp req => handle_response addr resp req
  | ReconnectPeer resolved connect_to => task_modify (fun t => set_nt_net t (connect_peer connect_to (nt_net t) resolved).2)
  end.

(** The loop: the first error ends the task. *)
Fixpoint run_net (items : list NetMailItem) : TaskM unit :=
  match items with [] => mret tt | item :: items => _ ← net_step item; run_net items end.

End Task.
