(* ===== verification/NetTaskFacts.v ===== *)
(** * What the network task keeps

    Relations that every operation of the task respects, composed along the
    handlers: the tables of the task stay within their bounds, and whatever peers
    send, the archive stays one its own operations produce: the node connects,
    disconnects and changes the chain only with headers it has. *)

From stdpp Require Import base numbers list strings gmap.
From S2P Require Import Prelude Float64 SafeMath MarketMath StateErrors DecisionTypes Markets Transactions.
From S2P Require Import TwoWayPeg Bodies Archive ArchiveStore ArchiveFacts ArchiveStoreFacts ArchiveInvalidation.
From S2P Require Import ArchiveReach ArchiveLinks ArchiveQueries Voting MarketsDb TxPow Authorization StateModel.
From S2P Require Import Validation BlockUpdate BlockConnect Mempool Node Addresses Proto MainTask Peer Net NetTask.

(** ** The node's use of the archive *)

Section Reach.
Context {AM : BitcoinAmount} {MT : MainchainTx} {BH : BodyHashes} {AE : ArchiveEnv} {PW : PowHashes}
  {VE : ValidationEnv} {BE : BlockEnv}.
Implicit Types (a : Archive) (n : Node) (b : Header * Body).

(** Operations that add no header. *)
Definition follows a a' : Prop := rtc archive_step a a' ∧ headers a' = headers a.

#[export] Instance follows_preorder : PreOrder follows.
Proof. split; [by split|]. intros a b c [H1 E1] [H2 E2]. split; [by etrans|congruence]. Qed.

Lemma follows_reachable a a' : follows a a' → reachable a → reachable a'.
Proof. intros [Hs _] Hr. unfold reachable. by etrans. Qed.

(** The block is in the archive under its hash. *)
Definition stored_block a b : Prop := headers a !! header_hash b.1 = Some b.1.

Lemma follows_stored a a' b : follows a a' → stored_block a b → stored_block a' b.
Proof. intros [_ E]. unfold stored_block. by rewrite E. Qed.

Lemma put_stored_header a hd a' :
  reachable a → headers a !! header_hash hd = Some hd → put_header a hd = Ok a' → follows a a'.
Proof.
  intros [Ha _]%reachable_ok Hd Hp. assert (storable a hd) as Hst.
  { split; [by right|]. intros p n Ep En. destruct (sc_height a Ha _ _ Hd) as [_ Hh]. rewrite Ep in Hh.
    destruct Hh as (m & Hm & Hm'). apply height_is_side in Hm'.
    destruct (io_range _ (sc_index a Ha) _ _ Hm') as [_ Hmax]. assert (m = n) by congruence. lia. }
  split; [by eapply rtc_once, step_header|].
  destruct (put_header_inv a hd a') as (height & l & pred & _ & _ & _ & _ & E & _).
  - intros p n Ep En. by eapply storable_range.
  - done.
  - rewrite E. cbn [headers with_successors with_headers]. by apply insert_id.
Qed.

Lemma connect_tip_follows n header body data n' :
  reachable (n_archive n) → stored_block (n_archive n) (header, body) → connect_tip_ n header body data = Ok n' →
  follows (n_archive n) (n_archive n').
Proof.
  unfold connect_tip_. intros Hr Hd H. destruct (of_state (prevalidate _ _ _ _)) as [pv|]; [|discriminate].
  cbn [mbind result_bind] in H. destruct (of_archive (get_best_main_verification _ _)) as [m|]; [|discriminate].
  cbn [mbind result_bind] in H. destruct (of_archive (get_main_header_info _ _)) as [info|]; [|discriminate].
  cbn [mbind result_bind] in H. destruct (of_state (connect_prevalidated _ _ _ _ _)) as [s|]; [|discriminate].
  cbn [mbind result_bind] in H. destruct (of_state (connect _ _)) as [p|]; [|discriminate].
  cbn [mbind result_bind n_archive set_n_peg set_n_state] in H.
  destruct (put_header (n_archive n) header) as [a1|] eqn:E1; [|discriminate].
  cbn [of_archive map_err mbind result_bind] in H. destruct (put_body a1 _ body) as [a2|] eqn:E2; [|discriminate].
  cbn [of_archive map_err mbind result_bind] in H. destruct (try_fold confirm_tx _ _) as [pool|]; [|discriminate].
  injection H as <-. cbn [n_archive set_n_mempool set_n_archive].
  pose proof (put_stored_header _ _ _ Hr Hd E1) as Hf. etrans; [exact Hf|].
  split; [by eapply rtc_once, step_body|]. by destruct (put_body_same _ _ _ _ E2) as [(_ & E & _) _].
Qed.

Lemma disconnect_tip_archive n n' : disconnect_tip_ n = Ok n' → n_archive n' = n_archive n.
Proof.
  unfold disconnect_tip_. intros H. destruct (of_state (ok_or (s_tip _) _)) as [tip|]; [|discriminate].
  cbn [mbind result_bind] in H. destruct (of_archive (get_header _ _)) as [hd|]; [|discriminate].
  cbn [mbind result_bind] in H. destruct (of_archive (get_body _ _)) as [body|]; [|discriminate].
  cbn [mbind result_bind] in H. destruct (of_state (ok_or (s_height _) _)) as [height|]; [|discriminate].
  cbn [mbind result_bind] in H. destruct (tip_peg_data _ _ _) as [data|]; [|discriminate].
  cbn [mbind result_bind] in H. destruct (of_state (disconnect _ _)) as [p|]; [|discriminate].
  cbn [mbind result_bind] in H. destruct (of_state (disconnect_tip _ _ _)) as [s|]; [|discriminate].
  cbn [mbind result_bind] in H. destruct (map_err _ _) as [ts|]; [|discriminate].
  cbn [mbind result_bind] in H. destruct (try_fold restore_tx _ _) as [pool|]; [|discriminate]. by injection H as <-.
Qed.

Lemma disconnect_times_archive (k : nat) n n' : disconnect_times k n = Ok n' → n_archive n' = n_archive n.
Proof.
  revert n. induction k as [|k IH]; intros n; cbn [disconnect_times]; [by intros [= ->]|].
  destruct (disconnect_tip_ n) as [n1|] eqn:E; [|discriminate]. cbn [mbind result_bind]. intros H.
  rewrite (IH _ H). by apply disconnect_tip_archive.
Qed.

Lemma leave_lost_archive (fuel : nat) n n' : leave_lost_tips fuel n = Ok n' → n_archive n' = n_archive n.
Proof.
  revert n. induction fuel as [|fuel IH]; intros n; cbn [leave_lost_tips]; (destruct (s_tip (n_state n)); [|by intros [= ->]]);
    (destruct (bool_decide _); [by intros [= ->]|]); [done|].
  destruct (disconnect_tip_ n) as [n1|] eqn:E; [|discriminate]. cbn [mbind result_bind]. intros H.
  rewrite (IH _ H). by apply disconnect_tip_archive.
Qed.

(** ** The blocks of a change of chain *)

Lemma block_at_stored a h b : side_chain_ok a → block_at a h = Ok b → stored_block a b.
Proof.
  intros Ha. unfold block_at, get_header, try_get_header. destruct (headers a !! h) as [hd|] eqn:E; [|discriminate].
  cbn [ok_or mbind result_bind]. destruct (get_body a h) as [body|]; [|discriminate]. cbn [mbind result_bind].
  intros [= <-]. unfold stored_block. cbn [fst]. by destruct (sc_height a Ha h hd E) as [-> _].
Qed.

Lemma blocks_until_stored (fuel : nat) a common h l :
  side_chain_ok a → blocks_until fuel a common h = Ok l → Forall (stored_block a) l.
Proof.
  intros Ha. revert h l. induction fuel as [|fuel IH]; intros h l; cbn [blocks_until]; [done|].
  destruct (ancestor_headers_next a h) as [[[[x hd] rest]|]|]; [..|discriminate]; cbn [mbind result_bind]; [|by intros [= <-]].
  destruct (bool_decide _); [by intros [= <-]|]. destruct (block_at a x) as [b|] eqn:E; [|discriminate].
  cbn [mbind result_bind]. destruct (blocks_until fuel a common rest) as [l'|] eqn:El; [|discriminate].
  cbn [mbind result_bind]. intros [= <-]. constructor; [by eapply block_at_stored|by eapply IH].
Qed.

Lemma blocks_to_apply_stored a common h l :
  side_chain_ok a → blocks_to_apply a common h = Ok l → Forall (stored_block a) l.
Proof.
  intros Ha. unfold blocks_to_apply. destruct (block_at a h) as [b|] eqn:E; [|discriminate]. cbn [mbind result_bind].
  destruct (match prev_side_hash b.1 with Some _ => _ | None => _ end) as [l'|] eqn:El; [|discriminate].
  cbn [mbind result_bind]. intros [= <-]. constructor; [by eapply block_at_stored|].
  destruct (prev_side_hash b.1); [by eapply blocks_until_stored|by injection El as <-].
Qed.

Lemma apply_one_follows tip n batch b n' batch' :
  reachable (n_archive n) → stored_block (n_archive n) b → apply_one tip (n, batch) b = Ok (n', batch') →
  follows (n_archive n) (n_archive n').
Proof.
  intros Hr Hb. unfold apply_one. destruct (fill_2wpd _ batch) as [data rest].
  destruct (connect_tip_ n b.1 b.2 data) as [n1|] eqn:E; cbn [map_err mbind result_bind]; [|discriminate].
  destruct (map_err _ _); cbn [mbind result_bind]; [|discriminate]. intros [= <- _].
  eapply connect_tip_follows; [done| |exact E]. by destruct b.
Qed.

Lemma apply_blocks_follows tip n batch l r :
  reachable (n_archive n) → Forall (stored_block (n_archive n)) l → try_fold (apply_one tip) (n, batch) l = Ok r →
  follows (n_archive n) (n_archive r.1).
Proof.
  intros Hr Hl. revert n batch Hr Hl. induction l as [|b l IH]; intros n batch Hr Hl; cbn [try_fold]; [by intros [= <-]|].
  apply Forall_cons in Hl as [Hb Hl]. destruct (apply_one tip (n, batch) b) as [[n1 batch1]|] eqn:E; [|discriminate].
  apply apply_one_follows in E; [|done..]. intros H. etrans; [exact E|]. eapply IH; [by eapply follows_reachable| |exact H].
  eapply Forall_impl; [exact Hl|]. intros x. by apply follows_stored.
Qed.

Lemma reorg_txn_follows n new_tip n' :
  reachable (n_archive n) → reorg_txn n new_tip = Ok (Some n') → follows (n_archive n) (n_archive n').
Proof.
  intros Hr. unfold reorg_txn. destruct (current_tip n) as [tip|]; [|discriminate]. cbn [map_err mbind result_bind].
  destruct (match tip with Some _ => _ | None => _ end) as [better|]; [|discriminate]. cbn [map_err mbind result_bind].
  destruct (negb better); [discriminate|]. destruct (common_ancestor_of n tip new_tip) as [common|]; [|discriminate].
  cbn [map_err mbind result_bind]. destruct (blocks_to_apply _ _ _) as [blocks|] eqn:Eb; [|discriminate].
  apply blocks_to_apply_stored in Eb; [|by apply reachable_ok]. cbn [of_archive map_err mbind result_bind].
  destruct (disconnect_count n common) as [count|]; [|discriminate]. cbn [map_err mbind result_bind].
  destruct (disconnect_times count n) as [n1|] eqn:E1; [|discriminate]. apply disconnect_times_archive in E1.
  cbn [map_err mbind result_bind]. destruct (bail_if _ _); [|discriminate]. cbn [map_err mbind result_bind].
  destruct (match blocks with [] => _ | _ => _ end) as [batch|]; [|discriminate]. cbn [map_err mbind result_bind].
  destruct (try_fold _ _ _) as [[n2 batch2]|] eqn:E2; [|discriminate]. cbn [mbind result_bind].
  destruct (bail_if _ _); [|discriminate]. cbn [map_err mbind result_bind]. intros [= <-].
  apply apply_blocks_follows in E2; cbn [fst] in *; rewrite E1 in *; [done|done|]. by apply Forall_rev.
Qed.

Lemma reorg_follows n new_tip r n' :
  reachable (n_archive n) → reorg_to_tip n new_tip = (r, n') → follows (n_archive n) (n_archive n').
Proof.
  intros Hr. unfold reorg_to_tip. destruct (reorg_txn n new_tip) as [[n1|]|[e [[hd body]|]]] eqn:E.
  - intros [= _ <-]. by eapply reorg_txn_follows.
  - by intros [= _ <-].
  - destruct (is_fatal_reorg_error e); [by intros [= _ <-]|].
    destruct (delete_body _ _ _) as [a|] eqn:Ed; intros [= _ <-]; [|done].
    split; [by eapply rtc_once, step_delete_body|]. by destruct (delete_body_same _ _ _ _ Ed) as [(_ & Eh & _) _].
  - by intros [= _ <-].
Qed.

Lemma mainchain_event_follows n r n' :
  reachable (n_archive n) → handle_mainchain_block_event n = (r, n') → follows (n_archive n) (n_archive n').
Proof.
  intros Hr. unfold handle_mainchain_block_event. destruct (leave_lost_tips _ n) as [n1|] eqn:E; [|by intros [= _ <-]].
  apply leave_lost_archive in E. destruct (best_side_tip _) as [[info h]|]; [|by intros [= _ <-]; rewrite E].
  destruct (reorg_to_tip n1 _) as [r1 n2] eqn:Er. intros [= _ <-]. rewrite <- E in *. by eapply reorg_follows.
Qed.

End Reach.

(** ** The task *)

Section Facts.
Context {AM : BitcoinAmount} {MT : MainchainTx} {BH : BodyHashes} {AE : ArchiveEnv} {PW : PowHashes}
  {VE : ValidationEnv} {BE : BlockEnv} {PH : PeerHashes} {NE : NetEnv}.
Implicit Types (t : NetTask) (addr : SocketAddr) (a : Archive).

(** ** Relations along an operation *)

(** The operation relates the task before it to the task after it, whether it
    fails or not. *)
Definition task_rel (R : relation NetTask) {A} (m : TaskM A) : Prop := ∀ t r t', m t = (r, t') → R t t'.

Section Rel.
Context (R : relation NetTask) `{!PreOrder R}.

Lemma rel_ret {A} (x : A) : task_rel R (mret x).
Proof. by intros t r t' [= _ <-]. Qed.
Lemma rel_ask {A} (f : NetTask → A) : task_rel R (task_ask f).
Proof. by intros t r t' [= _ <-]. Qed.
Lemma rel_read {A} (f : NetTask → result NodeError A) : task_rel R (task_read f).
Proof. by intros t r t' [= _ <-]. Qed.
Lemma rel_modify f : (∀ t, R t (f t)) → task_rel R (task_modify f).
Proof. intros Hf t r t' [= _ <-]. apply Hf. Qed.
Lemma rel_bind {A B} (m : TaskM A) (f : A → TaskM B) :
  task_rel R m → (∀ x, task_rel R (f x)) → task_rel R (mbind f m).
Proof.
  intros Hm Hf t r t' H. unfold mbind, TaskM_bind in H. destruct (m t) as [[x|e] t1] eqn:E.
  - etrans; [by eapply Hm|by eapply Hf].
  - injection H as _ <-. by eapply Hm.
Qed.
Lemma rel_iter {A} (f : A → TaskM unit) l : (∀ x, task_rel R (f x)) → task_rel R (task_iter f l).
Proof. intros Hf. induction l as [|x l IH]; [apply rel_ret|]. by apply rel_bind. Qed.
Lemma rel_if {A} (b : bool) (m m' : TaskM A) : task_rel R m → task_rel R m' → task_rel R (if b then m else m').
Proof. by destruct b. Qed.

(** What a relation must allow: the elementary changes of the handlers. *)
Class StepRel : Prop := {
  R_net t n : R t (set_nt_net t n);
  R_tip t tip o : R t (push_new_tip t tip o);
  R_wait h tip s : task_rel R (add_waiting h tip s);
  R_remove t h : R t (set_nt_tips t (delete h (nt_descendant_tips t)));
  R_sources t h : R t (set_nt_sources t (delete h (nt_request_sources t)));
  R_body h body : task_rel R (task_archive (fun a => put_body a h body));
  R_forward t h addr id : R t (push_forward t h addr id);
  R_ask h addr id accepted : task_rel R (forward_main_request h addr id accepted);
  R_reconnect t s : R t (push_reconnect t s);
  R_pool t p : R t (set_nt_node t (set_n_mempool (nt_node t) p));
  R_event : task_rel R (fun t => let '(r, n) := handle_mainchain_block_event (nt_node t) in (r, set_nt_node t n));
  R_reorg t tip : R t (set_nt_node t (reorg_to_tip (nt_node t) tip).2)
}.
Context `{!StepRel}.

Lemma rel_remove_peer addr : task_rel R (remove_peer addr).
Proof. apply rel_modify. intros t. apply R_net. Qed.
Lemma rel_push_message m addr : task_rel R (push_message m addr).
Proof. apply rel_modify. intros t. apply R_net. Qed.

Lemma rel_waiting tip e : task_rel R (handle_waiting tip e).
Proof.
  destruct e as [d sources]. apply rel_bind; [apply rel_read|]. intros missing. apply rel_bind.
  - destruct missing; [|apply rel_ret]. apply rel_bind; [apply R_wait|]. intros []. apply rel_read.
  - intros [next|]; [|apply rel_ret]. apply rel_bind; [apply rel_read|]. intros better. apply rel_if; [apply rel_ret|].
    apply rel_iter. intros addr. apply rel_modify. intros t. apply R_tip.
Qed.

Lemma rel_block_response addr r d id header body : task_rel R (handle_block_response addr r d id header body).
Proof.
  apply rel_if; [apply rel_remove_peer|]. apply rel_bind; [apply R_body|]. intros []. apply rel_bind.
  { apply rel_bind; [apply rel_read|]. intros [h|]; [apply R_wait|apply rel_push_message]. }
  intros []. apply rel_bind; [apply rel_read|]. intros tip. apply rel_bind; [apply rel_read|]. intros block_tip.
  apply rel_bind; [apply rel_if; [apply rel_modify; intros t; apply R_tip|apply rel_ret]|]. intros [].
  apply rel_bind; [apply rel_ask|]. intros [tips|]; [|apply rel_ret].
  apply rel_bind; [apply rel_modify; intros t; apply R_remove|]. intros []. apply rel_iter. apply rel_waiting.
Qed.

(** Every item but a list of headers; that one stores headers on its own. *)
Lemma rel_response addr resp req :
  (∀ r height id l, req = GetHeaders r → resp = RespHeaders l → task_rel R (handle_headers_response addr r height id l)) →
  task_rel R (handle_response addr resp req).
Proof.
  intros Hh. destruct req as [r|r|tx], resp; try apply rel_remove_peer; try apply rel_ret.
  - cbn [handle_response]. destruct (gbr_descendant_tip r), (gbr_peer_state_id r); try apply rel_remove_peer.
    apply rel_block_response.
  - apply rel_if; [apply rel_ret|apply rel_remove_peer].
  - cbn [handle_response]. destruct (ghr_height r), (ghr_peer_state_id r); try apply rel_remove_peer. by apply Hh.
  - apply rel_if; [apply rel_ret|apply rel_remove_peer].
Qed.

Lemma rel_main_event e : task_rel R (handle_mainchain_task_event e).
Proof.
  destruct e as [|[h res]]; [apply R_event|]. apply rel_bind; [apply rel_ask|]. intros [sources|]; [|apply rel_ret].
  apply rel_bind; [apply rel_modify; intros t; apply R_sources|]. intros []. apply rel_iter. intros x. apply rel_push_message.
Qed.

Lemma rel_new_tip tip (addr : option SocketAddr) : task_rel R (handle_new_tip tip addr).
Proof.
  intros t r t'. unfold handle_new_tip. destruct (if negb _ then _ else _) as [[]|]; [|by intros [= _ <-]..].
  pose proof (R_reorg t tip) as Hn. destruct (reorg_to_tip (nt_node t) tip) as [[applied|e] n]; cbn [snd] in Hn.
  - by intros [= _ <-].
  - destruct (is_fatal_reorg_error e); [by intros [= _ <-]|]. intros [= _ <-]. destruct addr; [|done].
    etrans; [exact Hn|apply R_net].
Qed.

Lemma rel_peer_error addr e resolved : task_rel R (handle_peer_error addr e resolved).
Proof.
  intros t r t'. destruct e as [|retry bad]; cbn [handle_peer_error].
  - destruct (active_peers (nt_net t) !! addr) as [h|]; [|by intros [= _ <-]]. destruct (ph_received h).
    + intros [= _ <-]. etrans; [apply R_net|apply R_reconnect].
    + destruct (pop_first_ip_addr resolved) as [ip [next|]]; intros [= _ <-]; [|apply R_net]. etrans; [apply R_net|apply R_reconnect].
  - assert (∀ t1 : NetTask, R (set_nt_net t (remove_active_peer (nt_net t) addr)) t1 → R t t1) as Hn.
    { intros t1 Ht1. etrans; [apply R_net|exact Ht1]. }
    intros Hrun. apply Hn. clear Hn. revert Hrun. generalize (set_nt_net t (remove_active_peer (nt_net t) addr)). clear t. intros t.
    set (t1 := if bad then _ else _). assert (R t t1) as Hb. { subst t1. destruct bad; [apply R_net|done]. }
    assert (∀ t2, R t1 t2 → R t t2) as Hc by (intros t2; by etrans).
    destruct retry; [intros [= _ <-]; apply Hc, R_reconnect|]. destruct bad; [by intros [= _ <-]|].
    destruct (pop_first_ip_addr resolved) as [ip [next|]]; intros [= _ <-]; [apply Hc, R_reconnect|done].
Qed.

Lemma rel_step item :
  (∀ addr r height id l, item = PeerResponded addr (RespHeaders l) (GetHeaders r) →
     task_rel R (handle_headers_response addr r height id l)) →
  task_rel R (net_step item).
Proof.
  intros Hh. destruct item; cbn [net_step].
  - apply rel_modify. intros t. apply R_net.
  - apply rel_ret.
  - apply rel_read.
  - apply R_ask.
  - apply rel_main_event.
  - apply rel_bind; [apply rel_new_tip|]. intros ?. apply rel_ret.
  - apply rel_read.
  - apply rel_remove_peer.
  - apply rel_peer_error.
  - apply rel_modify. intros t. apply R_forward.
  - apply rel_modify. intros t. apply R_tip.
  - intros t r t'. unfold handle_new_transaction. destruct (put _ tx) as [p|]; intros [= _ <-]; [|done].
    etrans; [apply R_pool|apply R_net].
  - apply rel_response. intros r height id l -> ->. by eapply Hh.
  - apply rel_modify. intros t. apply R_net.
Qed.

End Rel.
(** ** The tables of the task *)

Definition tables_bounded t : Prop :=
  (size (nt_descendant_tips t) ≤ MAX_DESCENDANT_TIPS)%nat ∧
  (size (nt_request_sources t) ≤ MAX_PENDING_MAINCHAIN_REQUESTS)%nat.
Definition keeps_bounds t t' : Prop := tables_bounded t → tables_bounded t'.

#[local] Instance keeps_bounds_preorder : PreOrder keeps_bounds.
Proof. split; [by intros t Ht|]. intros t1 t2 t3 H1 H2 Ht. by apply H2, H1. Qed.

Lemma size_insert_bounded {K A} `{Countable K} (m : gmap K A) k x (n : nat) :
  ¬ (n ≤ size m)%nat → (size (<[k := x]> m) ≤ n)%nat.
Proof. intros Hn. rewrite map_size_insert. destruct (m !! k); cbn; lia. Qed.
Lemma size_delete_bounded {K A} `{Countable K} (m : gmap K A) k (n : nat) :
  (size m ≤ n)%nat → (size (delete k m) ≤ n)%nat.
Proof. intros Hn. rewrite map_size_delete. destruct (m !! k); cbn; lia. Qed.

#[local] Instance keeps_bounds_steps : StepRel keeps_bounds.
Proof.
  split; try (intros; by intros [H1 H2]).
  - intros h tip s. apply rel_modify. intros t [H1 H2]. case_bool_decide as Hsz; [done|].
    split; [|exact H2]. by apply size_insert_bounded.
  - intros t h [H1 H2]. split; [|exact H2]. by apply size_delete_bounded.
  - intros t h [H1 H2]. split; [exact H1|]. by apply size_delete_bounded.
  - intros h body t r t'. unfold task_archive. by destruct (put_body _ h body); intros [= _ <-] [H1 H2].
  - intros h addr id accepted. apply rel_modify. intros t [H1 H2]. case_bool_decide as Hsz; [done|].
    destruct accepted; [|done]. split; [exact H1|]. by apply size_insert_bounded.
  - intros t r t'. destruct (handle_mainchain_block_event _) as [r1 n]. by intros [= _ <-] [H1 H2].
Qed.

Lemma headers_response_bounds addr r height id l : task_rel keeps_bounds (handle_headers_response addr r height id l).
Proof.
  apply (rel_bind _); [apply (rel_read _)|]. intros valid. apply rel_if; [apply (rel_remove_peer _)|].
  apply (rel_bind _); [|intros []; apply (rel_push_message _)].
  intros t res t'. unfold task_archive. by destruct (store_headers _ l); intros [= _ <-] [H1 H2].
Qed.

Lemma run_net_rel (R : relation NetTask) `{!PreOrder R} items : (∀ item, task_rel R (net_step item)) → task_rel R (run_net items).
Proof.
  intros Hs. induction items as [|item items IH]; [apply (rel_ret _)|]. by apply (rel_bind _).
Qed.

(** Started with empty tables, whatever its mailbox holds, the task never
    has more than the maximal number of bodies that tips wait for, nor more than
    the maximal number of pending requests to the mainchain task. *)
Theorem net_tables_bounded items t r t' :
  nt_descendant_tips t = ∅ → nt_request_sources t = ∅ → run_net items t = (r, t') →
  (size (nt_descendant_tips t') ≤ MAX_DESCENDANT_TIPS)%nat ∧
  (size (nt_request_sources t') ≤ MAX_PENDING_MAINCHAIN_REQUESTS)%nat.
Proof.
  intros E1 E2 Hrun. apply (run_net_rel keeps_bounds) in Hrun.
  - apply Hrun. split; rewrite ?E1, ?E2, map_size_empty; apply Nat.le_0_l.
  - intros item. apply (rel_step _). intros. apply headers_response_bounds.
Qed.

(** ** The archive *)

Notation task_archive_of t := (n_archive (nt_node t)) (only parsing).
Definition keeps_archive t t' : Prop :=
  reachable (task_archive_of t) → reachable (task_archive_of t') ∧ headers (task_archive_of t') = headers (task_archive_of t).

#[local] Instance keeps_archive_preorder : PreOrder keeps_archive.
Proof.
  split; unfold keeps_archive; [done|]. intros t1 t2 t3 H1 H2 Hr. destruct (H1 Hr) as [Hr2 E2].
  destruct (H2 Hr2) as [Hr3 E3]. split; [done|congruence].
Qed.

Lemma follows_keeps t n : (reachable (task_archive_of t) → follows (task_archive_of t) (n_archive n)) → keeps_archive t (set_nt_node t n).
Proof. intros Hf Hr. specialize (Hf Hr). split; [by eapply follows_reachable|]. by destruct Hf. Qed.

#[local] Instance keeps_archive_steps : StepRel keeps_archive.
Proof.
  split; try (by intros; intros Hr).
  - intros h tip s. apply rel_modify. intros t Hr. by case_bool_decide.
  - intros h body t r t'. unfold task_archive. destruct (put_body _ h body) as [a|] eqn:E; intros [= _ <-]; [|by intros Hr].
    apply follows_keeps. intros Hr. cbn [n_archive set_n_archive]. split; [by eapply rtc_once, step_body|].
    by destruct (put_body_same _ _ _ _ E) as [(_ & Eh & _) _].
  - intros h addr id accepted. apply rel_modify. intros t Hr. case_bool_decide; [done|]. by destruct accepted.
  - intros t r t'. destruct (handle_mainchain_block_event _) as [r1 n] eqn:E. intros [= _ <-]. apply follows_keeps.
    intros Hr. by eapply mainchain_event_follows.
  - intros t tip. apply follows_keeps. intros Hr. eapply reorg_follows; [exact Hr|apply surjective_pairing].
Qed.

(** A block is lower than the number of headers. *)
Lemma height_below_size a h n : side_chain_ok a → block_hash_to_height a !! h = Some n → n + 1 ≤ Z.of_nat (size (headers a)).
Proof.
  intros Ha Hn%height_is_side. destruct (chain_exists a h n Ha Hn) as [f Hf]. by apply (chain_size a h n f).
Qed.

Lemma new_header_storable a hd :
  side_chain_ok a → headers a !! header_hash hd = None → Z.of_nat (size (headers a)) ≤ U32_MAX → storable a hd.
Proof.
  intros Ha Hn Hsz. split; [by left|]. intros p n _ Hp. pose proof (height_below_size a p n Ha Hp). lia.
Qed.

Lemma put_header_headers a hd a' :
  side_chain_ok a → storable a hd → put_header a hd = Ok a' → headers a' = <[header_hash hd := hd]> (headers a).
Proof.
  intros Ha Hst Hp. destruct (put_header_inv a hd a') as (height & l & pred & _ & _ & _ & _ & E & _); [|done|exact E].
  intros p n Ep En. by eapply storable_range.
Qed.

Lemma store_headers_reachable l a a' :
  reachable a → Z.of_nat (size (headers a)) + Z.of_nat (length l) ≤ U32_MAX → store_headers a l = Ok a' →
  reachable a' ∧ (size (headers a') ≤ size (headers a) + length l)%nat.
Proof.
  revert a. induction l as [|hd l IH]; intros a Hr Hsz H; cbn [store_headers length] in *; [injection H as <-; split; [done|lia]|].
  unfold try_get_header in H. destruct (headers a !! header_hash hd) as [old|] eqn:E.
  { destruct (IH a Hr ltac:(lia) H) as [? ?]. split; [done|lia]. }
  destruct (match prev_side_hash hd with Some _ => _ | None => _ end); [injection H as <-; split; [done|lia]|].
  destruct (put_header a hd) as [a1|] eqn:Ep; [|discriminate]. cbn [mbind result_bind] in H.
  pose proof (reachable_ok a Hr) as [Ha _]. assert (storable a hd) as Hst by (apply new_header_storable; [done|done|lia]).
  assert (size (headers a1) ≤ S (size (headers a)))%nat.
  { rewrite (put_header_headers a hd a1 Ha Hst Ep), map_size_insert, E. cbn. lia. }
  destruct (IH a1) as [? ?]; [..|split; [done|lia]]; [|lia|done]. unfold reachable. etrans; [exact Hr|].
  by eapply rtc_once, step_header.
Qed.

Lemma headers_response_reachable addr r height id l t res t' :
  handle_headers_response addr r height id l t = (res, t') → reachable (task_archive_of t) →
  Z.of_nat (size (headers (task_archive_of t))) + Z.of_nat (length l) ≤ U32_MAX →
  reachable (task_archive_of t') ∧ (size (headers (task_archive_of t')) ≤ size (headers (task_archive_of t)) + length l)%nat.
Proof.
  unfold handle_headers_response, mbind, TaskM_bind. cbn [task_read]. intros H Hr Hsz.
  destruct (of_archive (check_headers _ _ _ _)) as [valid|]; [|injection H as _ <-; split; [done|lia]].
  destruct (negb valid); [injection H as _ <-; split; [done|cbn; lia]|]. unfold task_archive in H.
  destruct (store_headers _ l) as [a|] eqn:E; [|injection H as _ <-; split; [done|lia]].
  injection H as _ <-. by apply (store_headers_reachable l (task_archive_of t) a).
Qed.

(** The headers an item may add. *)
Definition headers_in (item : NetMailItem) : nat :=
  match item with PeerResponded _ (RespHeaders l) _ => length l | _ => 0%nat end.

Lemma net_step_reachable item t r t' :
  net_step item t = (r, t') → reachable (task_archive_of t) →
  Z.of_nat (size (headers (task_archive_of t))) + Z.of_nat (headers_in item) ≤ U32_MAX →
  reachable (task_archive_of t') ∧
  (size (headers (task_archive_of t')) ≤ size (headers (task_archive_of t)) + headers_in item)%nat.
Proof.
  intros H Hr Hsz. destruct (match item with PeerResponded _ (RespHeaders _) (GetHeaders _) => true | _ => false end) eqn:Ei.
  2: { apply (rel_step keeps_archive) in H; [|by intros addr q height id l ->]. destruct (H Hr) as [? ->]. split; [done|lia]. }
  destruct item as [| | | | | | | | | | | |addr [| hs | | | |] [|q|]|]; try discriminate Ei. cbn [net_step handle_response headers_in] in *.
  destruct (ghr_height q), (ghr_peer_state_id q); try by eapply headers_response_reachable.
  all: injection H as _ <-; split; [done|cbn; lia].
Qed.

Definition total_headers (items : list NetMailItem) : nat := sum_list (map headers_in items).

(** C9: whatever peers send and whatever is in the mailbox, with failures or
    not, the archive stays one that its operations produce, so both chains stay
    well formed; heights must fit in the [u32] they are stored in. *)
Theorem net_archive_reachable items t r t' :
  reachable (n_archive (nt_node t)) →
  Z.of_nat (size (headers (n_archive (nt_node t)))) + Z.of_nat (total_headers items) ≤ U32_MAX →
  run_net items t = (r, t') → reachable (n_archive (nt_node t')).
Proof.
  revert t. induction items as [|item items IH]; intros t Hr Hsz; [by intros [= _ <-]|].
  cbn [run_net]. unfold mbind, TaskM_bind. change (total_headers (item :: items)) with (headers_in item + total_headers items)%nat in Hsz.
  destruct (net_step item t) as [[u|e] t1] eqn:E; apply net_step_reachable in E as [Hr1 Hs1]; try done; try lia.
  - intros H. eapply IH; [..|exact H]; [done|lia].
  - by intros [= _ <-].
Qed.

End Facts.
