(* ===== verification/NetSync.v ===== *)
(** * Synchronising headers with a peer

    The answer of one node to a request for headers, stored by the node that
    asked: the chain up to the requested block arrives and the connection is told.
    A header that builds on a mainchain block the node does not know ends the
    network task instead. *)

From stdpp Require Import base numbers list strings gmap.
From S2P Require Import Prelude Float64 SafeMath MarketMath StateErrors DecisionTypes Markets Transactions.
From S2P Require Import TwoWayPeg Bodies Archive ArchiveStore ArchiveFacts ArchiveStoreFacts ArchiveInvalidation.
From S2P Require Import ArchiveReach ArchiveLinks ArchiveQueries Voting MarketsDb TxPow Authorization StateModel.
From S2P Require Import Validation BlockUpdate BlockConnect Mempool Node Addresses Proto MainTask Peer PeerFacts.
From S2P Require Import Net NetTask NetTaskFacts.

Section Sync.
Context {AM : BitcoinAmount} {MT : MainchainTx} {BH : BodyHashes} {AE : ArchiveEnv} {PW : PowHashes}
  {VE : ValidationEnv} {BE : BlockEnv} {PH : PeerHashes} {NE : NetEnv}.
Implicit Types (a b : Archive) (t : NetTask) (addr : SocketAddr).

(** A block hash stands for the same header in both archives. *)
Definition no_conflict a b : Prop :=
  ∀ x hd hd', headers a !! x = Some hd → headers b !! x = Some hd' → hd = hd'.

(** The mainchain block a header builds on is known, or it is the genesis. *)
Definition main_parent_known a (hd : Header) : Prop := prev_main_hash hd = all_zeros ∨ known_main a (prev_main_hash hd).

Lemma put_header_infos a hd a' : put_header a hd = Ok a' →
  main_block_infos a' = main_block_infos a ∧ invalid_blocks a' = invalid_blocks a.
Proof.
  unfold put_header, link_header. intros H.
  destruct (match prev_side_hash hd with None => _ | Some _ => _ end) as [height|]; [|discriminate].
  cbn [mbind result_bind] in H. destruct (get_successors _ _) as [pred|]; [|discriminate].
  cbn [mbind result_bind] in H. destruct (build_ancestors _ _ _ _) as [l|]; [|discriminate].
  cbn [mbind result_bind] in H. destruct (get_main_successors _ _) as [mains|]; [|discriminate].
  cbn [mbind result_bind] in H. destruct (try_fold _ _ _) as [results|]; [|discriminate]. by injection H as <-.
Qed.

(** ** The chain of the peer *)

Section Served.
Context (b : Archive) (h : bytes) (n : Z) (f : Z → bytes) (Hb : side_chain_ok b) (Hc : chain_at b h n f).
Notation hd i := (header_at b f i).

Lemma served_header i : 0 ≤ i ≤ n →
  headers b !! f i = Some (hd i) ∧ header_hash (hd i) = f i ∧
  prev_side_hash (hd i) = if decide (i = 0) then None else Some (f (i - 1)).
Proof.
  intros Hi. destruct (chain_header b h n f i Hb Hc Hi) as (x & Hx & Hp). unfold header_at, item_of. rewrite Hx. cbn [snd].
  unfold get_header, try_get_header in Hx. destruct (headers b !! f i) as [y|] eqn:E; [|discriminate].
  injection Hx as ->. split_and!; [done| |done]. by destruct (sc_height b Hb _ _ E).
Qed.

(** A block both have has its height there, and the blocks below it. *)
Lemma shared_upto_below a i j : side_chain_ok a → no_conflict a b → 0 ≤ i ≤ j → j ≤ n →
  is_Some (headers a !! f j) → headers a !! f i = Some (hd i).
Proof.
  intros Ha Hn Hi Hj Hs. assert (∀ k, 0 ≤ k → k ≤ j → headers a !! f (j - k) = Some (hd (j - k))) as Hk.
  2: { specialize (Hk (j - i)). replace (j - (j - i)) with i in Hk by lia. apply Hk; lia. }
  assert (∀ k, 0 ≤ k ≤ n → is_Some (headers a !! f k) → headers a !! f k = Some (hd k)) as Hsame.
  { intros k Hkn [x Hx]. destruct (served_header k Hkn) as [Hy _]. by rewrite Hx, (Hn _ _ _ Hx Hy). }
  intros k Hk0. pattern k. apply natlike_ind; [..|done].
  - intros _. rewrite Z.sub_0_r. apply Hsame; [lia|done].
  - clear k Hk0. intros k Hk0 IH Hkj. specialize (IH ltac:(lia)). apply Hsame; [lia|].
    destruct (sc_height a Ha _ _ IH) as [_ Hp]. destruct (served_header (j - k)) as (_ & _ & Ep); [lia|].
    rewrite Ep, decide_False in Hp by lia. destruct Hp as (m & Hm & _).
    replace (j - Z.succ k) with (j - k - 1) by lia. by eapply (sc_header a Ha).
Qed.

Lemma shared_height a i : side_chain_ok a → no_conflict a b → 0 ≤ i ≤ n → is_Some (headers a !! f i) →
  block_hash_to_height a !! f i = Some i.
Proof.
  intros Ha Hn Hi Hs. assert (∀ k, 0 ≤ k → k ≤ i → block_hash_to_height a !! f k = Some k) as Hk; [|by apply Hk; lia].
  intros k Hk0. pattern k. apply natlike_ind; [..|done].
  - intros _. assert (headers a !! f 0 = Some (hd 0)) as H0 by (apply (shared_upto_below a 0 i); [done|done|lia|lia|done]).
    destruct (sc_height a Ha _ _ H0) as [_ Hp]. destruct (served_header 0) as (_ & _ & Ep); [lia|]. by rewrite Ep in Hp.
  - clear k Hk0. intros k Hk0 IH Hki. specialize (IH ltac:(lia)).
    assert (headers a !! f (Z.succ k) = Some (hd (Z.succ k))) as H1 by (apply (shared_upto_below a (Z.succ k) i); [done|done|lia|lia|done]).
    destruct (sc_height a Ha _ _ H1) as [_ Hp]. destruct (served_header (Z.succ k)) as (_ & _ & Ep); [lia|].
    rewrite Ep, decide_False in Hp by lia. replace (Z.succ k - 1) with k in Hp by lia. destruct Hp as (m & Hm & Hm').
    rewrite Hm'. f_equal. assert (m = k) by congruence. lia.
Qed.

(** ** Storing it *)

Record can_store a : Prop := {
  cs_ok : archive_ok a;
  cs_links : links_ok a;
  cs_infos : infos_known a;
  cs_conflict : no_conflict a b;
  cs_main i : 0 ≤ i ≤ n → main_parent_known a (hd i)
}.

Lemma store_served_one a i :
  can_store a → 0 ≤ i ≤ n → n ≤ U32_MAX → (i = 0 ∨ is_Some (headers a !! f (i - 1))) → headers a !! f i = None →
  ∃ a', put_header a (hd i) = Ok a' ∧ can_store a' ∧ headers a' = <[f i := hd i]> (headers a).
Proof.
  intros [Hok Hl Hinf Hn Hm] Hi Hmax Hpar Hnew. pose proof Hok as [Ha _].
  destruct (served_header i Hi) as (Hbi & Hh & Hp).
  assert (new_height a (hd i) = Some i ∧ storable a (hd i)) as [Hnh Hst].
  { unfold new_height, storable. rewrite Hh, Hp. destruct (decide (i = 0)) as [->|Hne].
    - split; [done|]. split; [by left|done].
    - destruct Hpar as [?|Hpar]; [lia|]. rewrite (shared_height a (i - 1)) by (done || lia). split; [cbn; f_equal; lia|].
      split; [by left|]. intros p k [= <-]. rewrite (shared_height a (i - 1)) by (done || lia). intros [= <-]. lia. }
  pose proof (put_header_decided a (hd i) i Hok Hl Hinf Hst Hnh) as Hd.
  assert (is_Some (main_successors a !! prev_main_hash (hd i))) as [s Es] by (by apply (lk_succ a Hl), Hm).
  rewrite Es in Hd. destruct Hd as [a' Ha']. exists a'. split; [done|].
  pose proof (put_header_headers a _ a' Ha Hst Ha') as Eh. rewrite Hh in Eh. split; [|done].
  destruct (put_header_links a _ a' Ha') as (E1 & E2 & _). destruct (put_header_infos a _ a' Ha') as [E3 _]. split.
  - eapply archive_step_ok; [by apply (step_header a (hd i))|done].
  - by apply (put_header_links_ok a (hd i)).
  - intros x. unfold known_main. rewrite E2, E3. apply Hinf.
  - intros x y y'. rewrite Eh. intros [[<- <-]|[_ Hx]]%lookup_insert_Some Hy'; [congruence|by eapply Hn].
  - intros k Hk. unfold main_parent_known, known_main. rewrite E2. by apply Hm.
Qed.

Lemma store_served (k : nat) : ∀ a m, can_store a → n ≤ U32_MAX → -1 ≤ m → m + Z.of_nat k = n →
  (m = -1 ∨ is_Some (headers a !! f m)) →
  ∃ a', store_headers a (map (header_at b f) (range (m + 1) (n + 1))) = Ok a' ∧ can_store a' ∧
    headers a ⊆ headers a' ∧ (0 ≤ n → headers a' !! f n = Some (hd n)).
Proof.
  induction k as [|k IH]; intros a m Hs Hmax Hm Hk Hpar.
  - rewrite range_empty by lia. exists a. split_and!; [done..|]. intros Hn0. assert (m = n) as -> by lia.
    destruct Hpar as [?|Hpar]; [lia|]. apply (shared_upto_below a n n); [apply Hs|apply Hs|lia|lia|done].
  - rewrite range_cons by lia. cbn [map store_headers]. destruct (served_header (m + 1)) as (Hbi & Hh & Hp); [lia|].
    unfold try_get_header. rewrite Hh. destruct (headers a !! f (m + 1)) as [old|] eqn:E.
    { apply (IH a (m + 1)); [done|done|lia|lia|]. right. by rewrite E. }
    destruct (store_served_one a (m + 1)) as (a1 & H1 & Hs1 & Eh); [done|lia|done| |done|].
    { destruct Hpar as [->|Hpar]; [by left|right]. by replace (m + 1 - 1) with m by lia. }
    rewrite Hp. destruct (decide (m + 1 = 0)) as [Hz|Hz]; [|rewrite bool_decide_false].
    3: { destruct Hpar as [?|[y Hy]]; [lia|]. replace (m + 1 - 1) with m by lia. by rewrite Hy. }
    all: rewrite H1; cbn [mbind result_bind]; destruct (IH a1 (m + 1)) as (a' & Hst & Hs' & Hsub & Hlast);
      [done|done|lia|lia|right; rewrite Eh, lookup_insert_eq; eauto|].
    all: exists a'; split_and!; [done|done| |done]; etrans; [|exact Hsub]; rewrite Eh; by apply insert_subseteq.
Qed.

(** ** Checking it *)

Lemma sequential_served a (k : nat) : ∀ i, 0 ≤ i → i + Z.of_nat k = n + 1 →
  (∀ j, i ≤ j ≤ n → invalidated_block a (f j) = false) →
  sequential_headers a (if decide (i = 0) then None else Some (f (i - 1))) (map (header_at b f) (range i (n + 1))) = true.
Proof.
  induction k as [|k IH]; intros i Hi Hk Hv; [by rewrite range_empty by lia|].
  rewrite range_cons by lia. cbn [map sequential_headers]. destruct (served_header i) as (_ & Hh & Hp); [lia|].
  rewrite Hp, Hh, bool_decide_true, Hv by (done || lia). cbn [negb andb].
  specialize (IH (i + 1) ltac:(lia) ltac:(lia)). rewrite decide_False in IH by lia.
  replace (i + 1 - 1) with i in IH by lia. apply IH. intros j Hj. apply Hv. lia.
Qed.

Lemma check_served a r m :
  side_chain_ok a → no_conflict a b → n < U32_MAX → -1 ≤ m < n → ghr_end r = h →
  (0 ≤ m → f m ∈ ghr_start r ∧ is_Some (headers a !! f m)) → (∀ j, m < j ≤ n → invalidated_block a (f j) = false) →
  check_headers a r n (map (header_at b f) (range (m + 1) (n + 1))) = Ok true.
Proof.
  intros Ha Hn Hmax Hm He Hs Hv. unfold check_headers.
  assert (last (map (header_at b f) (range (m + 1) (n + 1))) = Some (hd n)) as ->.
  { rewrite range_snoc by lia. rewrite map_app. apply last_snoc. }
  assert (head (map (header_at b f) (range (m + 1) (n + 1))) = Some (hd (m + 1))) as -> by (by rewrite range_cons by lia).
  destruct (served_header n) as (_ & Hhn & _); [lia|]. destruct (served_header (m + 1)) as (_ & Hh & Hp); [lia|].
  pose proof (chain_top b h n f Hb Hc) as Htop. rewrite Hhn, Htop, He, bool_decide_true by done. cbn [negb].
  pose proof (sequential_served a (Z.to_nat (n - m)) (m + 1)) as Hseq. rewrite <- Hp in Hseq.
  rewrite Hseq by (lia || (intros; apply Hv; lia)). clear Hseq. rewrite length_map, range_length.
  replace (n + 1 - (m + 1)) with (n - m) by lia. rewrite Z2Nat.id by lia.
  assert (as_u32 (n - m) = if decide (m = -1) then n + 1 else n - m) as ->.
  { destruct (decide (m = -1)) as [->|]; unfold as_u32; rewrite wrap_unsigned_small by lia; lia. }
  rewrite Hp. destruct (decide (m + 1 = 0)) as [Hz|Hz].
  - rewrite decide_True by lia. cbn [mbind result_bind]. replace (n + 1 - 1) with n by lia.
    unfold as_u32. rewrite wrap_unsigned_small by lia. by rewrite Z.eqb_refl.
  - rewrite decide_False by lia. replace (m + 1 - 1) with m by lia. destruct (Hs ltac:(lia)) as [Hin Hk].
    rewrite bool_decide_true by done. cbn [negb]. unfold get_height, try_get_height.
    rewrite (shared_height a m) by (done || lia). cbn [ok_or mbind result_bind]. replace (m + (n - m)) with n by lia.
    unfold as_u32. rewrite wrap_unsigned_small by lia. by rewrite Z.eqb_refl.
Qed.

End Served.

(** ** The two nodes together *)

(** The blocks a request starts from: none, or the locator of a block. *)
Definition starts_from a (start : gset bytes) : Prop :=
  start = ∅ ∨ ∃ x l, get_block_locator a x = Ok l ∧ start = list_to_set l.

Lemma locator_known a x l y : side_chain_ok a → get_block_locator a x = Ok l → y ∈ l → is_Some (headers a !! y).
Proof.
  intros Ha H Hy. unfold get_block_locator, get_header, try_get_header in H.
  destruct (headers a !! x) as [hd|] eqn:Ex; [|discriminate]. cbn [ok_or mbind result_bind] in H.
  destruct (sc_height a Ha x hd Ex) as [_ Hp]. assert (∃ n, height_is (side_index a) x n) as [n Hn].
  { destruct (prev_side_hash hd) as [p|]; [destruct Hp as (k & _ & Hk); exists (k + 1)|exists 0]; by apply height_is_side. }
  destruct (io_ancestors _ (sc_index a Ha) x n Hn) as (l0 & Hl0 & Hall & Honly). cbn [ix_ancestors side_index] in Hl0.
  rewrite Hl0 in H. cbn [mbind result_bind] in H.
  assert (∀ z, z ∈ l0 → is_Some (headers a !! z)) as Hl.
  { intros z [i Hi]%list_elem_of_lookup. destruct (Hall i) as (w & Hw & Hnp); [by apply Honly; eauto|].
    assert (w = z) as -> by congruence. specialize (Honly i ltac:(eauto)).
    destruct (nth_parent_height _ (sc_index a Ha) (Z.to_nat (2 ^ (Z.of_nat i + 1))) x n Hn) as (w & Hw' & Hhw); [lia|].
    assert (w = z) as -> by congruence. apply height_is_side in Hhw. by eapply (sc_header a Ha). }
  destruct (prev_side_hash hd) as [p|]; injection H as <-; [|by apply Hl].
  rewrite rev_app_distr, rev_involutive in Hy. apply elem_of_cons in Hy as [->|Hy]; [|by apply Hl].
  destruct Hp as (k & Hk & _). by eapply (sc_header a Ha).
Qed.

Lemma start_known a start : side_chain_ok a → starts_from a start → ∀ x, x ∈ start → is_Some (headers a !! x).
Proof.
  intros Ha [->|(x & l & Hl & ->)] y Hy; [set_solver|]. apply elem_of_list_to_set in Hy. by eapply locator_known.
Qed.

(** The blocks up to [h] in [b] may be stored in [a]: they build on known
    mainchain blocks and none was invalidated. *)
Definition acceptable a b h : Prop :=
  ∀ x hd, ancestor_of (side_index b) x h → headers b !! x = Some hd →
    main_parent_known a hd ∧ invalidated_block a x = false.

(** C8: the answer of a node to a request for the headers up to its tip is
    accepted by the node that asked, with the request a connection sends: when
    that node knows the mainchain blocks the new headers build on and has
    invalidated none of them, it then has every header of the chain up to the
    peer's tip, that tip at its height, keeps what it had, and tells the
    connection, once, that the headers are there. *)
Theorem headers_synced t b addr p start peer id :
  let a := n_archive (nt_node t) in
  let h := tip_block_hash (tp_tip peer) in
  reachable a → infos_known a → reachable b → no_conflict a b → acceptable a b h →
  get_height b h = Ok (tp_block_height peer) → tp_block_height peer < U32_MAX → headers a !! h = None →
  starts_from a start → active_peers (nt_net t) !! addr = Some p →
  ∃ resp t', handle_get_headers b start h = Ok resp ∧
    handle_response addr resp (headers_request start peer id) t = (Ok tt, t') ∧
    let a' := n_archive (nt_node t') in
    archive_ok a' ∧ headers a ⊆ headers a' ∧ get_height a' h = Ok (tp_block_height peer) ∧
    (∀ x, ancestor_of (side_index b) x h → headers a' !! x = headers b !! x) ∧
    active_peers (nt_net t') = <[addr := add_message (HeadersAvailable id) p]> (active_peers (nt_net t)).
Proof.
  intros a h Hra Hinf Hrb Hnc Hacc Hh Hmax Hnew Hstart Hp. set (n := tp_block_height peer) in *.
  pose proof (reachable_ok a Hra) as [Ha Hma]. pose proof (start_known a start Ha Hstart) as Hst. pose proof (reachable_ok b Hrb) as [Hb _].
  change (height_is (side_index b) h n) in Hh. destruct (chain_exists b h n Hb Hh) as [f Hc].
  assert (∀ i, 0 ≤ i ≤ n → ancestor_of (side_index b) (f i) h) as Hanc.
  { intros i Hi. exists n, (Z.to_nat (n - i)). split_and!; [done|lia|]. by apply Hc. }
  destruct (headers_served b h n f start Hb Hc) as (m & Hm & Hin & Hout & Hresp).
  pose proof (chain_top b h n f Hb Hc) as Htop.
  assert (m ≠ n) as Hmn. { intros ->. destruct (Hst (f n)) as [? ?]; [apply Hin; destruct (io_range _ (sc_index b Hb) h n Hh); lia|]. congruence. }
  assert (0 ≤ m → is_Some (headers a !! f m)) as Hknown by (intros; by apply Hst, Hin).
  assert (can_store b n f a) as Hcs.
  { split; [done|by apply reachable_links|done|done|]. intros i Hi.
    destruct (served_header b h n f Hb Hc i Hi) as (Hbi & _ & _). by apply (Hacc (f i) _ (Hanc i Hi) Hbi). }
  destruct (store_served b h n f Hb Hc (Z.to_nat (n - m)) a m Hcs) as (a' & Hstore & Hcs' & Hsub & Hlast); [lia|lia|lia| |].
  { destruct (decide (m = -1)); [by left|right; apply Hknown; lia]. }
  assert (0 ≤ n) as Hn0 by lia. specialize (Hlast Hn0).
  exists (RespHeaders (map (header_at b f) (range (m + 1) (n + 1)))). eexists. split; [done|]. split.
  { cbn [handle_response headers_request ghr_height ghr_peer_state_id]. unfold handle_headers_response, mbind, TaskM_bind.
    cbn [task_read]. fold a. fold n. rewrite (check_served b h n f Hb Hc a _ m Ha Hnc); [| lia | lia | done | by intros; split; auto | ].
    2: { intros j Hj. destruct (served_header b h n f Hb Hc j ltac:(lia)) as (Hbj & _ & _). by apply (Hacc (f j) _ (Hanc j ltac:(lia)) Hbj). }
    cbn [of_archive map_err negb]. unfold task_archive. fold a. rewrite Hstore. unfold push_message, push_internal_message, task_modify.
    cbn [nt_net set_nt_node]. rewrite Hp. cbn [snd]. reflexivity. }
  cbn [nt_node set_nt_net set_nt_node n_archive set_n_archive nt_net active_peers set_active].
  split_and!; [apply Hcs'|done| | |done].
  - unfold get_height, try_get_height. rewrite <- Htop.
    rewrite (shared_height b h n f Hb Hc a' n) by (apply Hcs' || lia || eauto). done.
  - intros x (n' & k & Hn' & Hk & Hx). assert (n' = n) as -> by (by eapply height_is_fun).
    destruct Hc as [Hh' Hf]. destruct (Hf (n - Z.of_nat k)) as [Hx' _]; [lia|].
    replace (Z.to_nat (n - (n - Z.of_nat k))) with k in Hx' by lia. rewrite Hx in Hx'. injection Hx' as ->.
    destruct (served_header b h n f Hb (conj Hh' Hf) (n - Z.of_nat k) ltac:(lia)) as (-> & _ & _).
    apply (shared_upto_below b h n f Hb (conj Hh' Hf) a' _ n); [apply Hcs'|apply Hcs'|lia|lia|eauto].
Qed.

(** ** A header on an unknown mainchain block *)

(** C36: a list of headers that passes every check of the response, but whose
    first header is new and builds on a mainchain block that the node does not
    know, is an error that ends the network task; nothing is stored and the peer
    is not dropped. *)
Theorem unknown_main_parent_ends_task t addr r height id hd l items :
  let a := n_archive (nt_node t) in
  reachable a → infos_known a → Z.of_nat (size (headers a)) ≤ U32_MAX →
  ghr_height r = Some height → ghr_peer_state_id r = Some id →
  check_headers a r height (hd :: l) = Ok true → headers a !! header_hash hd = None →
  prev_main_hash hd ≠ all_zeros → main_header_infos a !! prev_main_hash hd = None →
  run_net (PeerResponded addr (RespHeaders (hd :: l)) (GetHeaders r) :: items) t
  = (Err (NodeArchive (NoMainBlockHash (prev_main_hash hd))), t).
Proof.
  intros a Hr Hinf Hsz Hhe Hid Hck Hnew Hnz Hno. pose proof (reachable_ok a Hr) as [Ha Hm]. pose proof (reachable_links a Hr) as Hl.
  assert (∃ n, new_height a hd = Some n ∧ match prev_side_hash hd with Some p => is_Some (headers a !! p) | None => True end)
    as (n & Hn & Hpar).
  { unfold check_headers in Hck. destruct (last (hd :: l)) as [e|] eqn:El; [|done]. cbn [head] in Hck.
    destruct (negb _); [done|]. destruct (match prev_side_hash hd with Some _ => _ | None => _ end) in Hck; [done|].
    unfold new_height. destruct (prev_side_hash hd) as [p|]; [|by exists 0]. unfold get_height, try_get_height in Hck.
    destruct (block_hash_to_height a !! p) as [k|] eqn:Ek; [|done]. exists (k + 1). split; [done|]. by eapply (sc_header a Ha). }
  pose proof (put_header_decided a hd n (conj Ha Hm) Hl Hinf (new_header_storable a hd Ha Hnew Hsz) Hn) as Hput.
  destruct (main_successors a !! prev_main_hash hd) as [s|] eqn:Es.
  { destruct (proj1 (lk_succ a Hl (prev_main_hash hd))) as [?|[? ?]]; [eauto|done|]. congruence. }
  cbn [run_net net_step handle_response]. rewrite Hhe, Hid. unfold handle_headers_response, mbind, TaskM_bind. cbn [task_read].
  fold a. rewrite Hck. cbn [of_archive map_err negb]. unfold task_archive. fold a. cbn [store_headers]. unfold try_get_header. rewrite Hnew.
  assert (match prev_side_hash hd with Some parent => bool_decide (headers a !! parent = None) | None => false end = false) as ->.
  { destruct (prev_side_hash hd) as [p|]; [|done]. apply bool_decide_eq_false. by destruct Hpar as [y ->]. }
  by rewrite Hput.
Qed.

End Sync.
