(* ===== verification/Submit.v ===== *)
(** * Mining and submitting a block

    Model of src/lib/miner.rs: the bid for a block on the mainchain, and waiting
    for the mainchain block that commits to it.

    Model of [submit_block] and [sync_to_tip] of src/lib/node/mod.rs and of
    [new_tip_ready_confirm] of src/lib/node/net_task.rs: where the miner's block,
    the mainchain task, the archive and the network task meet. *)

From stdpp Require Import base numbers list strings gmap.
From S2P Require Import Prelude Float64 SafeMath MarketMath StateErrors DecisionTypes Markets Transactions.
From S2P Require Import TwoWayPeg Bodies Archive ArchiveStore ArchiveFacts ArchiveStoreFacts ArchiveInvalidation ArchiveReach.
From S2P Require Import ArchiveTips ArchiveQueries Voting MarketsDb TxPow Authorization StateModel Validation BlockUpdate BlockConnect.
From S2P Require Import Mempool Node NodeFacts Addresses Proto MainTask.

(** ** Blind merged mining *)

(** [MinerPanic] stands for the failed [assert_eq!] on the merkle root. *)
Inductive MinerError : Type :=
| CusfMainchain (e : ProtoError)
| MerkleRootMismatch
| NoCusfMainchainMiningClient
| MinerPanic.

(** The block of the pending bid; the mining client is optional. *)
Record Miner : Type := { mn_mining_client : bool; mn_block : option (Header * Body) }.
Definition Miner_new (mining_client : bool) : Miner := {| mn_mining_client := mining_client; mn_block := None |}.
Definition set_mn_block (m : Miner) b : Miner := {| mn_mining_client := mn_mining_client m; mn_block := b |}.

Section Miner.
Context {TC : TextCodecs} {CC : ConsensusCodecs} {MS : MainchainService} {AM : BitcoinAmount} {BH : BodyHashes} {AE : ArchiveEnv}.
Implicit Types (m : Miner).

Definition of_proto {A} (r : result ProtoError A) : result MinerError A := map_err CusfMainchain r.

Definition generate m : result MinerError unit :=
  if negb (mn_mining_client m) then Err NoCusfMainchainMiningClient else
  address ← of_proto create_new_address;
  of_proto (generate_to_address 1 address).

(** The bid is made before the block is looked at. *)
Definition attempt_bmm m (amount height : Z) (header : Header) (body : Body) : result MinerError Txid * Miner :=
  match of_proto (create_bmm_critical_data_tx amount height (header_hash header) (prev_main_hash header)) with
  | Err e => (Err e, m)
  | Ok txid =>
      if negb (bool_decide (merkle_root header = compute_merkle_root (coinbase body) (transactions body)))
      then (Err MinerPanic, m)
      else (Ok txid, set_mn_block m (Some (header, body)))
  end.

(** The next event decides: a bid is for one mainchain block. *)
Definition confirm_bmm m : result MinerError (option (MainBlockHash * Header * Body)) * Miner :=
  match mn_block m with
  | None => (Ok None, m)
  | Some (header, body) =>
      match of_proto subscribe_events with
      | Err e => (Err e, m)
      | Ok (Err e :: _) => (Err (CusfMainchain e), m)
      | Ok (Ok (ConnectBlock info block) :: _) =>
          if bool_decide (bmm_commitment block = Some (header_hash header))
          then (Ok (Some (mh_block_hash info, header, body)), set_mn_block m None)
          else (Ok None, set_mn_block m None)
      | Ok (Ok (DisconnectBlock _) :: _) | Ok [] => (Ok None, set_mn_block m None)
      end
  end.

(** A block is confirmed only for the bid that was made for it, by a mainchain
    block that commits to it, with a body its header is about, and once. *)
Theorem confirmed_block_committed m amount height header body txid m1 main hd bd m2 :
  attempt_bmm m amount height header body = (Ok txid, m1) → confirm_bmm m1 = (Ok (Some (main, hd, bd)), m2) →
  hd = header ∧ bd = body ∧ merkle_root hd = compute_merkle_root (coinbase bd) (transactions bd) ∧
  (∃ info block rest, subscribe_events = Ok (Ok (ConnectBlock info block) :: rest) ∧
     mh_block_hash info = main ∧ bmm_commitment block = Some (header_hash header)) ∧
  confirm_bmm m2 = (Ok None, m2).
Proof.
  unfold attempt_bmm, confirm_bmm. destruct (of_proto _) as [x|]; [|discriminate]. case_bool_decide as Hr; [|discriminate].
  cbn [negb]. intros [= <- <-]. cbn [mn_block set_mn_block].
  destruct subscribe_events as [[|[[info block|h]|e] rest]|e] eqn:E; cbn [of_proto map_err]; try discriminate.
  case_bool_decide as Hb; [|discriminate]. intros [= <- <- <- <-]. split_and!; [done..| |done]. by exists info, block, rest.
Qed.

(** After an error of the stream the bid is still pending, and can be confirmed
    by a later event. *)
Theorem failed_stream_keeps_bid m m' e : confirm_bmm m = (Err e, m') → m' = m.
Proof.
  unfold confirm_bmm. destruct (mn_block m) as [[header body]|]; [|discriminate].
  destruct subscribe_events as [[|[[info block|h]|e'] rest]|e']; cbn [of_proto map_err]; try discriminate; try (by intros [= _ <-]).
  by case_bool_decide.
Qed.

End Miner.

(** ** Submission *)

(** Errors of a submission: of the node, of the mainchain task, of the network
    task that ended, and of the proposal of a bundle. *)
Inductive SubmitError : Type :=
| SubmitNode (e : NodeError)
| MainchainAncestors (e : ResponseError)
| ReceiveReorgResult
| ProposeBundle (e : ProtoError).

(** [get_pending_withdrawal_bundle]: the bundle and the height of its latest
    status. *)
Definition get_pending_withdrawal_bundle (p : PegState) : result Error (option (WithdrawalBundle * Z)) :=
  match pending_withdrawal_bundle p with
  | None => Ok None
  | Some m6id =>
      '(info, status) ← ok_or (withdrawal_bundles p !! m6id) (DatabaseError "pending withdrawal bundle unknown");
      match info with
      | Known bundle => Ok (Some (bundle, hs_height (rb_latest status)))
      | Unknown | UnknownConfirmed _ => Err (DatabaseError "pending withdrawal bundle is not known")
      end
  end.

Section Submit.
Context {AM : BitcoinAmount} {MT : MainchainTx} {BH : BodyHashes} {AE : ArchiveEnv} {PW : PowHashes}
  {VE : ValidationEnv} {BE : BlockEnv}.
Implicit Types (n : Node) (a : Archive).

(** [running] says whether the network task still takes messages. *)
Definition new_tip_ready_confirm (running : bool) n (new_tip : Tip) : result SubmitError bool * Node :=
  if negb running then (Ok false, n) else
  let '(r, n) := handle_new_tip_ready n new_tip in
  (map_err (fun _ => ReceiveReorgResult) r, n).

Definition sync_to_tip (running : bool) n (h : BlockHash) : result SubmitError bool * Node :=
  match get_best_main_verification (n_archive n) h with
  | Err e => (Err (SubmitNode (NodeArchive e)), n)
  | Ok main => new_tip_ready_confirm running n {| tip_block_hash := h; tip_main_block_hash := main |}
  end.

(** The header is committed only if its commitment is verified. *)
Definition store_verified_header a (main : MainBlockHash) (header : Header) : result ArchiveError (option Archive) :=
  a ← put_header a header;
  r ← get_bmm_result a (header_hash header) main;
  Ok (match r with Verified => Some a | BmmFailed => None end).

(** The bodies missing since the common ancestor with the tip. *)
Definition missing_since_tip n a (h : BlockHash) : result ArchiveError (list BlockHash) :=
  common ← match s_tip (n_state n) with
           | Some tip => last_common_ancestor a tip h
           | None => Ok None
           end;
  get_missing_bodies a h common.

Section Client.
(** The client of the mainchain node, and the block producer if it serves one. *)
Context (get_infos : MainBlockHash → Z → result ProtoError (option (list (BlockHeaderInfo * BlockInfo))))
  (propose : option (WithdrawalBundle → result ProtoError unit)).

(** After the block is the tip, a pending bundle is proposed. *)
Definition propose_pending n : result SubmitError bool :=
  bundle ← map_err (fun e => SubmitNode (NodeState e)) (get_pending_withdrawal_bundle (n_peg n));
  match bundle, propose with
  | Some (bundle, _), Some propose => _ ← map_err ProposeBundle (propose bundle); Ok true
  | _, _ => Ok true
  end.

Definition submit_block (fuel : nat) (running : bool) n (main : MainBlockHash) (header : Header) (body : Body)
  : result SubmitError bool * Node :=
  let h := header_hash header in
  if match prev_side_hash header with
     | Some parent => bool_decide (try_get_header (n_archive n) parent = None)
     | None => false
     end
  then (Ok false, n) else
  let '(res, a, _) := request_ancestor_infos get_infos fuel (n_archive n) set_idle main in
  let n := set_n_archive n a in
  match res with
  | Err e => (Err (MainchainAncestors e), n)
  | Ok false => (Ok false, n)
  | Ok true =>
      match store_verified_header a main header with
      | Err e => (Err (SubmitNode (NodeArchive e)), n)
      | Ok None => (Ok false, n)
      | Ok (Some a) =>
          let n := set_n_archive n a in
          match missing_since_tip n a h with
          | Err e => (Err (SubmitNode (NodeArchive e)), n)
          | Ok missing =>
              if negb (bool_decide (missing = []) || bool_decide (missing = [h])) then (Ok false, n) else
              match (if bool_decide (missing = [h]) then put_body a h body else Ok a) with
              | Err e => (Err (SubmitNode (NodeArchive e)), n)
              | Ok a =>
                  let n := set_n_archive n a in
                  match new_tip_ready_confirm running n {| tip_block_hash := h; tip_main_block_hash := main |} with
                  | (Err e, n) => (Err e, n)
                  | (Ok false, n) => (Ok false, n)
                  | (Ok true, n) => (propose_pending n, n)
                  end
              end
          end
      end
  end.

(** ** What a submission does *)

(** The state, the peg and the pool of a node. *)
Definition same_ledger n n' : Prop := n_state n' = n_state n ∧ n_peg n' = n_peg n ∧ n_mempool n' = n_mempool n.

Lemma reorg_ledger n new_tip r n' : reorg_to_tip n new_tip = (r, n') →
  if match r with Ok true => true | _ => false end then s_tip (n_state n') = Some (tip_block_hash new_tip) else same_ledger n n'.
Proof.
  unfold reorg_to_tip. pose proof (reorg_txn_commits n new_tip) as Hs.
  destruct (reorg_txn n new_tip) as [[m|]|[e [[header body]|]]]; try (intros [= <- <-]; by apply Hs || done).
  destruct (is_fatal_reorg_error e); [by intros [= <- <-]|].
  by destruct (delete_body _ _ _); intros [= <- <-].
Qed.

Lemma confirm_ledger running n new_tip r n' : new_tip_ready_confirm running n new_tip = (r, n') →
  match r with
  | Ok true => s_tip (n_state n') = Some (tip_block_hash new_tip) ∧
      is_Some (sidechain_tips (side_tips (n_archive n)) !! tip_block_hash new_tip)
  | Ok false | Err ReceiveReorgResult => same_ledger n n'
  | Err _ => False
  end.
Proof.
  unfold new_tip_ready_confirm, handle_new_tip_ready. destruct running; [|by intros [= <- <-]]. cbn [negb].
  case_bool_decide as Ht; cbn [negb]; [|by intros [= <- <-]].
  destruct (of_archive _) as [[]|]; [|by intros [= <- <-]..].
  pose proof (reorg_ledger n new_tip) as Hl. destruct (reorg_to_tip n new_tip) as [r1 n1]. specialize (Hl r1 n1 eq_refl).
  destruct r1 as [[]|e]; [by intros [= <- <-]..|]. by destruct (is_fatal_reorg_error e); intros [= <- <-].
Qed.

(** C3: a submission is all or nothing for the ledger.  When it is accepted the
    block is the tip, its parent was known and the mainchain block commits to it
    in an archive that knows the mainchain up to there; when it is refused, or
    fails before the block is the tip, state, peg and pool are as they were.  Only
    the proposal of a pending bundle can fail after the block became the tip. *)
Theorem submit_block_atomic (fuel : nat) running n main header body r n' :
  submit_block fuel running n main header body = (r, n') →
  if match r with Ok b => b | Err (ProposeBundle _) | Err (SubmitNode (NodeState _)) => true | Err _ => false end
  then s_tip (n_state n') = Some (header_hash header) ∧
    match prev_side_hash header with Some q => is_Some (headers (n_archive n) !! q) | None => True end ∧
    ∃ a1 p a2, request_ancestor_infos get_infos fuel (n_archive n) set_idle main = (Ok true, a1, p) ∧
      put_header a1 header = Ok a2 ∧ get_bmm_result a2 (header_hash header) main = Ok Verified
  else same_ledger n n'.
Proof.
  unfold submit_block. set (h := header_hash header).
  destruct (match prev_side_hash header with Some _ => _ | None => _ end) eqn:Ep; [by intros [= <- <-]|].
  assert (match prev_side_hash header with Some q => is_Some (headers (n_archive n) !! q) | None => True end) as Hpar.
  { destruct (prev_side_hash header) as [q|]; [|done]. apply bool_decide_eq_false in Ep. unfold try_get_header in Ep.
    by destruct (headers (n_archive n) !! q). }
  destruct (request_ancestor_infos _ _ _ _ _) as [[res a1] p] eqn:Er. destruct res as [[]|]; [|by intros [= <- <-]..].
  destruct (store_verified_header a1 main header) as [[a2|]|] eqn:Es; [|by intros [= <- <-]..].
  destruct (missing_since_tip _ a2 h) as [missing|]; [|by intros [= <- <-]].
  destruct (negb _); [by intros [= <- <-]|]. destruct (if bool_decide (missing = [h]) then _ else _) as [a3|]; [|by intros [= <- <-]].
  set (n3 := set_n_archive (set_n_archive (set_n_archive n a1) a2) a3).
  pose proof (confirm_ledger running n3 {| tip_block_hash := h; tip_main_block_hash := main |}) as Hc.
  destruct (new_tip_ready_confirm running n3 _) as [rc nc]. specialize (Hc rc nc eq_refl).
  assert (∃ a1' p' a2', (Ok true : result ResponseError bool, a1, p) = (Ok true, a1', p') ∧ put_header a1' header = Ok a2' ∧
    get_bmm_result a2' h main = Ok Verified) as Hv.
  { unfold store_verified_header in Es. destruct (put_header a1 header) as [x|] eqn:Ex; [|discriminate]. cbn [mbind result_bind] in Es.
    destruct (get_bmm_result x _ main) as [[]|] eqn:Eb; try discriminate. exists a1, p, x. by split_and!. }
  destruct rc as [[]|e].
  - intros [= <- <-]. destruct Hc as [Ht _]. cbn [tip_block_hash] in Ht. unfold propose_pending.
    destruct (get_pending_withdrawal_bundle (n_peg nc)) as [[[bundle height]|]|]; cbn [map_err mbind result_bind]; [|by split_and!..].
    destruct propose as [pr|]; [|by split_and!]. by destruct (pr bundle); cbn [map_err mbind result_bind]; split_and!.
  - by intros [= <- <-].
  - by intros [= <- <-]; destruct e.
Qed.

(** ** A child of the tip *)

Lemma child_missing a tip h hd k :
  side_chain_ok a → headers a !! h = Some hd → prev_side_hash hd = Some tip → block_hash_to_height a !! h = Some k → k < 2 ^ 31 →
  last_common_ancestor a tip h = Ok (Some tip) ∧
  get_missing_bodies a h (Some tip) = Ok (if bool_decide (bodies a !! h = None) then [h] else []).
Proof.
  intros Ha Hd Hp Hk Hmax. destruct (sc_height a Ha h hd Hd) as [_ Hh]. rewrite Hp in Hh. destruct Hh as (m & Hm & Hm').
  assert (k = m + 1) as -> by congruence. apply height_is_side in Hk as Hhk. apply height_is_side in Hm as Hhm.
  destruct (io_range _ (sc_index a Ha) tip m Hhm) as [Hm0 _].
  assert (ix_parent (side_index a) h = Ok tip) as Hpar.
  { cbn [ix_parent side_index]. unfold get_header, try_get_header. rewrite Hd. cbn [ok_or mbind result_bind]. by rewrite Hp. }
  assert (ancestor_of (side_index a) tip tip) as Hself by (exists m, 0%nat; split_and!; [done|lia|done]).
  assert (ancestor_of (side_index a) tip h) as Hanc.
  { exists (m + 1), 1%nat. split_and!; [done|lia|]. cbn [nth_parent]. by rewrite Hpar. }
  split.
  - destruct (last_common_ancestor_in_ok _ (sc_index a Ha) tip h m (m + 1) Hhm Hhk) as (o & Ho & Hspec); [lia|lia|].
    unfold last_common_ancestor. rewrite Ho. destruct o as [x|]; [|by destruct (Hspec tip)].
    destruct Hspec as (Hx & _ & Hall). do 2 f_equal. apply (ancestor_of_antisym _ (sc_index a Ha)); [done|by apply Hall].
  - unfold get_missing_bodies. cbn [ancestors_until]. unfold ancestor_headers_next, get_header, try_get_header.
    rewrite Hd. cbn [ok_or mbind result_bind]. rewrite bool_decide_false.
    2: { intros [= ->]. rewrite Hm in Hk. injection Hk. lia. }
    rewrite Hp. destruct (sc_header a Ha tip m Hm) as [hd' Hd']. rewrite Hd'. cbn [ok_or mbind result_bind].
    rewrite bool_decide_true by done. cbn [mbind result_bind].
    case_bool_decide as Hb; [rewrite filter_cons_True by done|rewrite filter_cons_False by done]; by rewrite filter_nil.
Qed.

(** A block that builds on the tip is never refused for missing bodies: once its
    commitment is verified its body is stored, unless it is there, and the network
    task is asked to move to it. *)
Theorem child_block_confirmed (fuel : nat) running n main header body a1 p a2 tip k :
  let h := header_hash header in
  s_tip (n_state n) = Some tip → prev_side_hash header = Some tip → is_Some (headers (n_archive n) !! tip) →
  request_ancestor_infos get_infos fuel (n_archive n) set_idle main = (Ok true, a1, p) →
  store_verified_header a1 main header = Ok (Some a2) → side_chain_ok a2 → headers a2 !! h = Some header →
  get_height a2 h = Ok k → k < 2 ^ 31 →
  submit_block fuel running n main header body =
  match (if contains_body a2 h then Ok a2 else put_body a2 h body) with
  | Err e => (Err (SubmitNode (NodeArchive e)), set_n_archive n a2)
  | Ok a3 =>
      match new_tip_ready_confirm running (set_n_archive n a3) {| tip_block_hash := h; tip_main_block_hash := main |} with
      | (Ok true, n') => (propose_pending n', n')
      | (r, n') => (r, n')
      end
  end.
Proof.
  intros h Ht Hp [hp Hpar] Hreq Hst Ha Hd Hk Hmax. apply height_is_side in Hk.
  destruct (child_missing a2 tip h header k Ha Hd Hp Hk Hmax) as [Hc Hm].
  unfold submit_block. rewrite Hp.
  rewrite (bool_decide_false (try_get_header (n_archive n) tip = None)) by (unfold try_get_header; by rewrite Hpar).
  rewrite Hreq, Hst. unfold missing_since_tip. cbn [n_state set_n_archive]. rewrite Ht. fold h. rewrite Hc.
  cbn [mbind result_bind]. rewrite Hm. unfold contains_body. destruct (bodies a2 !! h) as [bd|].
  - rewrite (bool_decide_false (Some bd = None)), (bool_decide_true (is_Some _)) by (done || eauto).
    rewrite (bool_decide_true (@nil bytes = [])), (bool_decide_false (@nil bytes = [h])) by done. cbn [negb orb].
    unfold set_n_archive. cbn [n_state n_peg n_mempool]. by destruct (new_tip_ready_confirm _ _ _) as [[[]|] ?].
  - rewrite (bool_decide_true (None = None)), (bool_decide_false (is_Some _)) by (done || by intros []).
    rewrite (bool_decide_false ([h] = [])), (bool_decide_true ([h] = [h])) by done. cbn [negb orb].
    destruct (put_body a2 h body) as [a3|]; [|done]. unfold set_n_archive. cbn [n_state n_peg n_mempool].
    by destruct (new_tip_ready_confirm _ _ _) as [[[]|] ?].
Qed.

End Client.
End Submit.
