(* ===== verification/BlockSamples.v ===== *)
(** * A block with trades, connected and disconnected

    One small chain on which the theorems about blocks are evaluated, with
    concrete functions for everything the model takes as a parameter. *)

From stdpp Require Import base numbers list strings gmap.
From S2P Require Import Prelude Float64 SafeMath MarketMath StateErrors DecisionTypes Periods Pricing DecisionsDb.
From S2P Require Import Markets MarketsFacts Transactions TransactionsFacts UtxoValue TwoWayPeg Bodies Archive.
From S2P Require Import ArchiveSamples Voting Oracle OracleSamples MarketsDb MarketsDbFacts SettlementFacts TxPow Authorization StateModel.
From S2P Require Import Validation.
From S2P Require Import BlockUpdate ValidationFacts Consolidation ConsolidationFacts ConsolidationUndo BlockConnect.
From S2P Require Import BlockFacts BlockSupply.

#[local] Existing Instance ArchiveSamples.toy_env.
#[local] Existing Instance ArchiveSamples.toy_body_hashes.
#[local] Existing Instance TxPow.toy_pow.

(** Keys are addresses, every signature is good. *)
#[local] Instance open_scheme : SignatureScheme := {|
  vk_of_sk sk := sk; address_hash vk := vk; seed_hash key input := key ++ input; sig_sign _ sk msg := sk ++ msg;
  sig_verify _ _ _ := true; batch_item_new _ _ _ := true; batch_verify _ _ := true; borsh_transaction _ := []
|}.
#[local] Instance toy_validation : ValidationEnv := {|
  validation_scheme := open_scheme; mac_key := []; body_size _ := 1000;
  compute_market_id _ _ _ _ := replicate 6 5
|}.

(** The cost of a trade is the change of the largest share count. *)
#[local] Instance toy_block : BlockEnv := {|
  sell_payout_hash id a t := replicate 32 (1 + 10 * sumZ (firstn 1 t));
  buy_change_hash id a t := replicate 32 (2 + 10 * sumZ (firstn 1 t));
  sell_input_change_hash a t := replicate 32 (3 + 10 * sumZ (firstn 1 t));
  share_payout_hash _ _ h q := replicate 32 (4 + 10 * q);
  generate_market_treasury_address _ := replicate 20 0;
  generate_market_author_fee_address _ := replicate 20 9;
  coinbase_txid _ := replicate 32 99;
  f64_exp _ := f64_one; f64_ln x := x; array_sum := f64_sum;
  block_algebra := dense_algebra; block_columns := listed_columns;
  market_iter V m := map_to_list m; market_iter_perm V m := Permutation_refl (map_to_list m);
  account_iter := map_to_list; account_iter_perm m := Permutation_refl (map_to_list m);
  outcome_iter := map_to_list; outcome_iter_perm m := Permutation_refl (map_to_list m)
|}.

(** ** The state before the block *)

Definition alice : Address := replicate 20 31.
Definition bob : Address := replicate 20 32.
Definition carol : Address := replicate 20 33.
Definition coin (n : Z) : OutPoint := OpRegular (replicate 32 n) 0.
Definition plain (a : Address) (v : Z) : FilledOutput := bitcoin_output a v.

(** Alice holds 4000 of the 4000 shares of the first outcome. *)
Definition traded_market : Market :=
  let m := set_liquidity_base (sample_market 0) 20000 in
  let m := run (update_shares m (4000 :: tail (m_shares m)) 3) m in
  run (map_err (fun _ => tt) (update_trading_volume m 0 4500)) m.
Definition markets0 : MarketsDatabase :=
  add_shares_to_account
    (set_market_funds_utxo (add_market empty_markets traded_market) sample_id false (coin 1)) alice sample_id 0 4000 3.
Definition tables0 : UtxoTables :=
  foldl (fun t (e : OutPoint * FilledOutput) => insert_utxo t e.1 e.2)
    {| utxos := ∅; utxos_by_address := ∅; stxos := ∅ |}
    [ (coin 1, {| out_address := replicate 20 0; out_content := FMarketFunds sample_id 24000 false; out_memo := [] |});
      (coin 2, plain alice 1500); (coin 3, plain bob 20000); (coin 4, plain carol 3000); (coin 5, plain bob 2000) ].
Definition chain0 : State :=
  {| s_tip := Some (side_hash 4); s_height := Some 4; s_mainchain_timestamp := Some 1000;
     s_genesis_timestamp := Some 10; s_reputation := ∅;
     s_decisions := {| period_decisions := ∅; decision_state_histories := ∅; period_pricing := ∅;
                       period_pricing_undo := ∅; config := config_testing 10 |};
     s_markets := markets0;
     s_voting := {| votes := ∅; ballots := ∅; decision_outcomes := ∅; period_stats := ∅ |};
     s_utxos := tables0; s_settlement_undo := ∅; s_consensus_undo := ∅; s_consolidation_undo := ∅;
     s_minting_undo := ∅; s_reputation_transfer_undo := ∅; s_skipped_tx_indices_undo := ∅ |}.

(** ** The block *)

Definition trade_tx (n : Z) (input : OutPoint) (outcome shares : Z) (trader : Address) (limit : Z) : Transaction :=
  {| tx_inputs := [input]; tx_outputs := []; tx_memo := replicate 32 n;
     tx_data := Some (Trade sample_id outcome shares trader limit None (side_hash 4)) |}.
Definition payment_tx : Transaction :=
  {| tx_inputs := [coin 4];
     tx_outputs := [ {| out_address := bob; out_content := CBitcoin 2900; out_memo := [] |} ];
     tx_memo := replicate 32 13; tx_data := None |}.

(** A sell by Alice, a buy by Bob, a payment by Carol, and a buy whose limit is
    too low, which is skipped. *)
Definition body1 : Body :=
  {| coinbase := {| cb_memo := [1]; cb_outputs := [ {| out_address := carol; out_content := CBitcoin 2100; out_memo := [] |} ] |};
     transactions := [trade_tx 11 (coin 2) 0 (-3000) alice 900; trade_tx 12 (coin 3) 1 5000 bob 20000; payment_tx;
                      trade_tx 14 (coin 5) 1 1000 bob 1001];
     authorizations := map (fun a => {| verifying_key := a; signature := [] |}) [alice; bob; carol; bob];
     actor_proofs := [None; None; None; None] |}.
Definition header1 : Header :=
  {| merkle_root := compute_merkle_root (coinbase body1) (transactions body1);
     prev_side_hash := Some (side_hash 4); prev_main_hash := main_hash 3 |}.

Definition connected : result Error State := apply_block chain0 sample header1 body1 1600.
Definition chain1 : State := run connected chain0.

Lemma is_ok_run {E A} (c : result E A) a : is_ok c = true → c = Ok (run c a).
Proof. by destruct c. Qed.

(** The block connects; every satoshi is accounted for. *)
Lemma chain1_connects : apply_block chain0 sample header1 body1 1600 = Ok chain1.
Proof. apply (is_ok_run connected). vm_compute. reflexivity. Qed.

Example chain1_funds :
  map (fun op => get_bitcoin_value <$> (utxos (s_utxos chain1) !! from_outpoint op))
    [OpMarketFunds sample_id 5 false; OpMarketFunds sample_id 5 true; coin 1; coin 2; coin 3; coin 5]
  = [Some 25000; Some 2000; None; None; None; Some 2000].
Proof. vm_compute. reflexivity. Qed.

#[local] Instance update_fits_dec u : base.Decision (update_fits u).
Proof. unfold update_fits. apply _. Defined.

Lemma chain0_pointers : pointers_ok (s_markets chain0).
Proof.
  assert (market_funds_utxos (s_markets chain0) = {[ (sample_id, false) := coin 1 ]}) as Hf
    by (vm_compute; reflexivity).
  intros id b p. rewrite Hf. intros [[= <- <-] <-]%lookup_singleton_Some. right. split; [done|]. by eexists _, _.
Qed.

Lemma body1_fits u : block_update chain0 sample header1 body1 1600 = Ok u → update_fits u.
Proof.
  intros Hu. assert (match block_update chain0 sample header1 body1 1600 with
                     | Ok u => bool_decide (update_fits u) | Err _ => true end = true) as Hb
    by (vm_compute; reflexivity).
  rewrite Hu in Hb. by apply bool_decide_eq_true in Hb.
Qed.

Lemma chain0_values : values_ok (s_utxos chain0).
Proof. apply (bool_decide_unpack _). vm_compute. exact I. Qed.

Lemma body1_amounts : body_amounts_ok body1.
Proof. split; repeat constructor; simpl; lia. Qed.

Lemma body1_fresh : fresh_outpoints header1 body1.
Proof. apply (bool_decide_unpack _). vm_compute. exact I. Qed.

Lemma chain1_settles_none : s_settlement_undo chain1 !! next_height chain0 = None.
Proof. vm_compute. reflexivity. Qed.

Lemma block_creates_no_value_witness :
  utxo_total (s_utxos chain1) ≤ utxo_total (s_utxos chain0).
Proof.
  exact (proj1 (block_creates_no_value chain0 sample header1 body1 1600 chain1 chain0_values chain0_pointers
    body1_amounts body1_fresh body1_fits chain1_connects chain1_settles_none)).
Defined.

(** *** The consolidation of the block *)

Definition sells1 : list PendingSellPayout :=
  [ {| sp_market := sample_id; sp_seller_address := alice; sp_payout := 2000; sp_fee_sats := 1000; sp_outcome := 0;
       sp_transaction_id := replicate 32 11 |} ].
Definition buys1 : list PendingBuySettlement :=
  [ {| bs_market_id := sample_id; bs_trader_address := bob; bs_input_value_sats := 20000; bs_lmsr_cost_sats := 4000;
       bs_market_fee_sats := 1000; bs_transaction_id := replicate 32 12; bs_is_amplify := false |} ].
Definition changes1 : list (Address * Z * bytes) := [ (alice, 500, replicate 32 11) ].
Definition consolidated : result Error (SettleState * option ConsolidationUndoData) :=
  consolidate_market_utxos 5 sells1 buys1 changes1 (settle_state chain0).
Definition no_undo : ConsolidationUndoData := {| cn_entries := []; cn_sell_input_change_utxos := [] |}.
Definition consolidated_state : SettleState := (run consolidated (settle_state chain0, None)).1.
Definition consolidated_undo : ConsolidationUndoData :=
  default no_undo (run consolidated (settle_state chain0, None)).2.

Lemma consolidated_ok : consolidated = Ok (consolidated_state, Some consolidated_undo).
Proof.
  assert (match consolidated with Ok (_, Some _) => true | _ => false end = true) as H by (vm_compute; reflexivity).
  unfold consolidated_state, consolidated_undo. by destruct consolidated as [[s [d|]]|].
Qed.

Lemma tables0_index : index_ok tables0.
Proof.
  unfold tables0. simpl. repeat (apply insert_index_ok; [|by split; [|vm_compute; split]|intros o; vm_compute; discriminate]).
  intros a op. split; [set_solver|]. intros (_ & o & Ho & _). done.
Qed.

Lemma funds_backed id :
  id ∈ markets_to_consolidate sells1 buys1 →
  length id = 6%nat ∧ backed_by (st_utxos (settle_state chain0)) (st_markets (settle_state chain0)) id.
Proof.
  intros Hid. assert (id = sample_id) as -> by (unfold markets_to_consolidate in Hid; set_solver).
  split; [done|]. intros b op Hop.
  assert (market_funds_utxos (st_markets (settle_state chain0)) = {[ (sample_id, false) := coin 1 ]}) as Hf
    by (vm_compute; reflexivity).
  rewrite Hf in Hop. apply lookup_singleton_Some in Hop as [[= <-] <-]. split.
  - split; [done|]. vm_compute. by split.
  - vm_compute. by eexists.
Qed.

Lemma consolidated_unused :
  unused (st_utxos (settle_state chain0))
    (flat_map created (cn_entries consolidated_undo) ++ cn_sell_input_change_utxos consolidated_undo).
Proof. split; apply (bool_decide_unpack _); vm_compute; exact I. Qed.

Lemma consolidation_roundtrip_witness :
  revert_consolidation consolidated_state consolidated_undo = settle_state chain0.
Proof.
  exact (consolidation_roundtrip (fun _ _ t => length_replicate 32 (1 + 10 * sumZ (firstn 1 t)))
    (fun _ _ t => length_replicate 32 (2 + 10 * sumZ (firstn 1 t)))
    (fun _ t => length_replicate 32 (3 + 10 * sumZ (firstn 1 t))) 5 sells1 buys1 changes1 (settle_state chain0)
    consolidated_state consolidated_undo ltac:(unfold is_u32; lia) tables0_index funds_backed consolidated_ok
    consolidated_unused).
Defined.

(** ** Disconnecting the block *)

Definition disconnected : result Error State := disconnect_tip chain1 header1 body1.
Definition chain2 : State := run disconnected chain1.

Definition volumes (s : State) : option (Z * list Z) :=
  (fun m => (m_total_volume_sats m, take 2 (m_outcome_volumes_sats m))) <$> get_market (s_markets s) sample_id.
Definition holdings (s : State) : list Z :=
  map (fun a => owned_shares (s_markets s) a.1 sample_id a.2) [(alice, 0); (bob, 1)].

(** The tip, the shares, the funds and the outputs are back, but the volume of
    the market is short by the fee of the sell: connecting added what the
    seller received, disconnecting took away what the treasury paid. *)
Example disconnect_volume :
  is_ok disconnected = true ∧
  (s_tip chain2, s_height chain2, holdings chain2, (m_shares <$> get_market (s_markets chain2) sample_id))
    = (s_tip chain0, s_height chain0, holdings chain0, (m_shares <$> get_market (s_markets chain0) sample_id)) ∧
  utxo_total (s_utxos chain2) = 50500 ∧
  volumes chain0 = Some (4500, [4500; 0]) ∧ volumes chain1 = Some (11500, [6500; 5000]) ∧
  volumes chain2 = Some (3500, [3500; 0]).
Proof. split_and!; vm_compute; reflexivity. Qed.

(** The timestamp of the disconnected block stays the current one. *)
Example disconnect_timestamp :
  s_height chain2 = s_height chain0 ∧ s_mainchain_timestamp chain0 = Some 1000 ∧
  s_mainchain_timestamp chain2 = Some 1600.
Proof. split_and!; vm_compute; reflexivity. Qed.

(** ** Prices inside the block *)

Definition update1 : StateUpdate := run (block_update chain0 sample header1 body1 1600) StateUpdate_new.
Definition running1 : list Z * f64 := run (running_market_state sample_id traded_market update1) ([], f64_zero).
Definition committed : result Error (State * option ConsolidationUndoData) := apply_all_changes update1 chain0 5.

Lemma running_state_committed_witness :
  running1.1 = [1000; 5000; 0; 0; 0; 0] ∧
  ∃ m, get_market (s_markets (run committed (chain0, None)).1) sample_id = Some m ∧
    m_shares m = running1.1 ∧ market_beta m = running1.2.
Proof.
  split; [vm_compute; reflexivity|].
  apply (running_state_committed update1 chain0 5 (run committed (chain0, None)).1 (run committed (chain0, None)).2
    sample_id traded_market running1.1 running1.2).
  - apply (bool_decide_unpack _). vm_compute. exact I.
  - vm_compute. reflexivity.
  - vm_compute. discriminate.
  - vm_compute. reflexivity.
  - rewrite <- surjective_pairing. apply is_ok_run. vm_compute. reflexivity.
  - rewrite <- surjective_pairing. apply (is_ok_run committed). vm_compute. reflexivity.
Defined.

(** ** Transfers and ballots *)

Definition transfer_tx (from to : Address) (amount : f64) : FilledTransaction :=
  {| transaction := {| tx_inputs := []; tx_outputs := []; tx_memo := []; tx_data := Some (TransferReputation from to amount) |};
     spent_utxos := []; actor_address := None |}.
Definition reputed : State := set_s_reputation chain0 {[ alice := f64_one ]}.
Definition transfers : list FilledTransaction := [transfer_tx alice bob f64_half; transfer_tx bob carol (f64_dec 25 2)].
Definition transferred : result Error State :=
  try_fold (fun s tx => apply_transfer_reputation s tx 5) reputed transfers.

Lemma transfers_roundtrip_witness : undo_reputation_transfers (run transferred reputed) 5 = reputed.
Proof.
  apply (transfers_roundtrip reputed 5 transfers (run transferred reputed)).
  - apply (bool_decide_unpack _). vm_compute. exact I.
  - vm_compute. reflexivity.
  - discriminate.
  - apply (is_ok_run transferred). vm_compute. reflexivity.
Defined.

Definition voting_history : list (DecisionState * Z * option f64) := [(Claimed, 1, None); (Voting, 4, None)].
Definition voting_state : State :=
  set_s_decisions reputed
    {| period_decisions := {[ period_index sample_binary := [sample_entry sample_binary; sample_entry sample_category] ]};
       decision_state_histories := {[ sample_binary := voting_history; sample_category := voting_history ]};
       period_pricing := ∅; period_pricing_undo := ∅; config := config_testing 10 |}.
Definition ballot_tx : FilledTransaction :=
  {| transaction := {| tx_inputs := [coin 2]; tx_outputs := []; tx_memo := [];
       tx_data := Some (SubmitBallot alice
         [ {| bi_decision_id_bytes := [128; 0; 7]; bi_vote_value := f64_one |};
           {| bi_decision_id_bytes := [128; 0; 9]; bi_vote_value := f64_of_Z 2 |} ] (voting_period sample_binary)) |};
     spent_utxos := [plain alice 1500]; actor_address := None |}.
Definition balloted : result Error StateUpdate := apply_submit_ballot voting_state ballot_tx StateUpdate_new 5.

Definition alice_ballot : SubmitBallotView :=
  default {| sb_voter := []; sb_votes := []; sb_voting_period := 0 |} (submit_ballot ballot_tx).

Lemma ballot_recorded_witness :
  map v_value (up_vote_submissions (run balloted StateUpdate_new)) = [VBinary true; VCategorical 2] ∧
  ∃ vs, up_vote_submissions (run balloted StateUpdate_new) = up_vote_submissions StateUpdate_new ++ vs ∧
    Forall2 (item_vote voting_state alice) (sb_votes alice_ballot) vs ∧ NoDup (map v_decision_id vs) ∧
    revert_submit_ballot (set_s_voting voting_state (foldl put_vote (s_voting voting_state) vs)) ballot_tx = Ok voting_state.
Proof.
  split; [vm_compute; reflexivity|].
  apply (ballot_recorded voting_state ballot_tx StateUpdate_new 5 (run balloted StateUpdate_new) alice_ballot).
  - reflexivity.
  - repeat constructor.
  - vm_compute. reflexivity.
  - apply (is_ok_run balloted). vm_compute. reflexivity.
Defined.

(** Two inputs of a block on the same outpoint, and a block without. *)
Example double_spend_found :
  map has_double_spend
    [ [ballot_tx; transfer_tx alice bob f64_half]; [ballot_tx; ballot_tx] ] = [false; true].
Proof. vm_compute. reflexivity. Qed.

(** ** The clock of claims inside a market creation *)

(** A production chain whose blocks are in its twenty-fifth period. *)
Definition late_chain : State :=
  set_s_genesis_timestamp
    (set_s_mainchain_timestamp
       (set_s_decisions chain0
          {| period_decisions := ∅; decision_state_histories := ∅; period_pricing := ∅; period_pricing_undo := ∅;
             config := config_production |}) (Some (1000 + 24 * quantity config_production)))
    (Some 1000).
Definition period_id (p : Z) : DecisionId := run (DecisionId_new false p 0) sample_binary.
Definition custom_claim (p : Z) : ClaimDecisionPayload :=
  let id := period_id p in
  {| cdp_decision_type := Binary;
     cdp_decisions := [ {| dce_decision_id_bytes := [byte0 id; byte1 id; byte2 id]; dce_header := "Rain?";
                           dce_description := ""; dce_option_0_label := None; dce_option_1_label := None;
                           dce_option_labels := None; dce_tags := None |} ] |}.

(** A claim is checked against the chain's clock when it stands alone, and
    against no clock at all inside a market creation: one of the current period
    passes alone and is refused with a market, one of a settled period the other
    way round. *)
Example claim_clock :
  map (fun p => (is_ok (validate_claim_payload late_chain (custom_claim p) alice (Some 5)),
                 is_ok (add_pending_payload late_chain alice (Some 5) (∅, 0) (custom_claim p)))) [25; 3]
  = [(true, false); (false, true)].
Proof. vm_compute. reflexivity. Qed.
