(* ===== verification/WalletSamples.v ===== *)
(** * A sample wallet and a sample pool

    The theorems about the wallet and the pool on concrete ones, with a signature
    scheme whose signatures depend on the key and the message. *)

From stdpp Require Import base numbers list strings gmap relations sorting.
From S2P Require Import Prelude Float64 SafeMath MarketMath StateErrors DecisionTypes Markets MarketsFacts Transactions.
From S2P Require Import TransactionsFacts TwoWayPeg Bodies Archive ArchiveSamples TxPow Authorization StateModel.
From S2P Require Import Validation BlockUpdate Dimensions Wallet WalletFacts Mempool MempoolFacts BlockSamples.

#[local] Existing Instance ArchiveSamples.toy_body_hashes.
#[local] Existing Instance TxPow.toy_pow.
#[local] Existing Instance BlockSamples.toy_block.

#[local] Instance keyed_validation : ValidationEnv := {|
  validation_scheme := Authorization.toy_scheme; mac_key := [1]; body_size _ := 1000;
  compute_market_id _ _ _ _ := replicate 6 5
|}.

(** ** The wallet *)

Definition by_value (e : OutPoint * Output) : Z := - output_bitcoin_value e.2.

Lemma sorted_by_value l i j (a b : OutPoint * Output) :
  sort_by_key by_value l !! i = Some a → sort_by_key by_value l !! j = Some b → (i ≤ j)%nat →
  output_bitcoin_value b.2 ≤ output_bitcoin_value a.2.
Proof.
  intros Ha Hb Hij. pose proof (sort_by_sorted (key_cmp by_value) l) as Hs.
  assert (by_value a ≤ by_value b); [|unfold by_value in *; lia].
  unfold sort_by_key in *. remember (sort_by (key_cmp by_value) l) as k0 eqn:Hk0. clear Hk0.
  revert i j Ha Hb Hij. induction Hs as [|x k Hs IH Hx]; intros [|i] [|j] Ha Hb Hij; simplify_eq/=; try lia.
  - apply list_elem_of_lookup_2 in Hb. rewrite Forall_forall in Hx. specialize (Hx b Hb). unfold le_cmp, key_cmp in Hx. by apply Z.compare_le_iff.
  - apply (IH i j); [done|done|lia].
Qed.

(** Keys are the seed with the branch and the index; a wallet of seed [7]. *)
#[local] Instance toy_wallet_env : WalletEnv := {|
  derive_key seed branch i := if i <? 2 ^ 31 then Some (seed ++ [branch; i]) else None;
  epk_of_secret s := 99 :: s; ecies_decrypt _ c := Some c; seed_of_mnemonic _ := Some [7];
  coin_sort := sort_by_key by_value; coin_sort_perm l := sort_by_perm (key_cmp by_value) l;
  coin_sort_sorted := sorted_by_value;
  coin_iter := map_to_list; coin_iter_perm m := Permutation_refl (map_to_list m);
  wallet_hex_decode _ := None
|}.

Definition my_address (i : Z) : Address := [i; 0; 7].
Definition my_coin_list : list (OutPoint * FilledOutput) :=
  [ (coin 61, plain (my_address 0) 500); (coin 62, plain (my_address 1) 900); (coin 63, plain (my_address 0) 700);
    (coin 64, plain (my_address 1) 0) ].
Definition my_coins : gmap OutPoint FilledOutput := list_to_map my_coin_list.
Definition my_ops : list WalletOp :=
  [WNewAddress; WSetMnemonic "abandon"; WNewAddress; WNewAddress; WNewEncryptionKey; WNewVerifyingKey; WPutUtxos my_coins].
Definition my_wallet : Wallet := foldl (fun w op => wallet_run op w) Wallet_new my_ops.

Lemma my_wallet_reachable : rtc wallet_step Wallet_new my_wallet.
Proof.
  unfold my_wallet. generalize Wallet_new as w. induction my_ops as [|op l IH]; intros w; simpl; [apply rtc_refl|].
  eapply rtc_l; [by exists op|]. apply IH.
Qed.

Lemma wallet_keys_found_witness :
  get_tx_signing_key_for_addr my_wallet (my_address 1) = Ok [7; 0; 1] ∧
  (∀ a, match get_tx_signing_key_for_addr my_wallet a with
        | Ok sk => a = get_address (vk_of_sk sk)
        | Err e => e = AddressDoesNotExist a ∧ a ∉ get_addresses my_wallet
        end).
Proof.
  split; [vm_compute; reflexivity|]. exact (proj1 (wallet_keys_found my_wallet my_wallet_reachable)).
Defined.

(** A wallet whose seed is overwritten keeps the encryption keys of the old one:
    the look-up then derives a secret of another key, and the assertion fails. *)
Example overwritten_seed_panics :
  (get_encryption_secret_for_epk my_wallet [99; 7; 1; 0],
   get_encryption_secret_for_epk (overwrite_seed [8] my_wallet).2 [99; 7; 1; 0])
  = (Ok [7; 1; 0], Err (WalletPanicked "secret of another key")).
Proof. vm_compute. reflexivity. Qed.

Lemma select_bitcoins_spec_witness :
  (match select_bitcoins my_wallet 1250 with Ok (total, m) => (total, size m) | Err _ => (0, 0%nat) end) = (1600, 2%nat) ∧
  selection_ok (spendable_coins my_wallet) 1250 (select_bitcoins my_wallet 1250).
Proof.
  split; [vm_compute; reflexivity|].
  apply (select_bitcoins_spec my_wallet 1250); [vm_compute; discriminate|lia].
Defined.

Definition my_state : State :=
  set_s_utxos chain0 (foldl (fun t (e : OutPoint * FilledOutput) => insert_utxo t e.1 e.2) tables0 (map_to_list my_coins)).

#[local] Instance FilledContent_dec : EqDecision FilledContent.
Proof. assert (EqDecision WithdrawalContent) by solve_decision. solve_decision. Defined.
#[local] Instance FilledOutput_dec : EqDecision FilledOutput.
Proof. solve_decision. Defined.
#[local] Instance owned_dec w a : base.Decision (owned w a).
Proof. unfold owned. apply _. Defined.

Lemma my_wallet_follows : wallet_follows my_state my_wallet.
Proof.
  split_and!.
  - intros a i Hi. assert (w_address_to_index my_wallet = list_to_map [(my_address 0, 0); (my_address 1, 1)]) as Hm
      by (vm_compute; reflexivity).
    rewrite Hm in Hi. simpl in Hi. apply lookup_insert_Some in Hi as [[<- <-]|[_ Hi]]; [by eexists|].
    apply lookup_insert_Some in Hi as [[<- <-]|[_ Hi]]; [by eexists|]. done.
  - assert (map_Forall (fun _ f => owned my_wallet (out_address f)) (w_utxos my_wallet)) as H
      by (apply (bool_decide_unpack _); vm_compute; exact I).
    exact H.
  - assert (map_Forall (fun o f => utxos (s_utxos my_state) !! from_outpoint o = Some f) (w_utxos my_wallet)) as H
      by (apply (bool_decide_unpack _); vm_compute; exact I).
    exact H.
  - by eexists.
  - vm_compute. discriminate.
Qed.

Definition my_payment : list Output := [Output_new [40] (CBitcoin 1200)].

Lemma transfer_accepted_witness :
  ∃ tx w' t change, create_transfer_to my_payment 50 my_wallet = (Ok tx, w') ∧
    tx_outputs tx = my_payment ++ change ∧ Forall (fun o => owned w' (out_address o)) change ∧
    wallet_authorize w' 3 tx = Ok t ∧ at_transaction t = tx ∧ validate_transaction my_state sample t = Ok 50.
Proof.
  exact (transfer_accepted (fun seed l _ => eq_refl) (fun vk sig msg _ => eq_refl)
    (fun draw sk msg => bool_decide_eq_true_2 _ eq_refl) my_state sample my_wallet 3 my_payment 50 my_wallet_follows
    ltac:(repeat constructor; unfold output_bitcoin_value; simpl; lia) ltac:(lia)
    ltac:(vm_compute; split; [reflexivity|discriminate])).
Defined.

(** ** The pool *)

Definition pool_tx (id : Z) (inputs : list OutPoint) (data : option TransactionData) : AuthorizedTransaction :=
  {| at_transaction := {| tx_inputs := inputs; tx_outputs := [Output_new [id] (CBitcoin 5); Output_new [40] (CBitcoin 6)];
                          tx_memo := [id]; tx_data := data |};
     at_authorizations := [ {| verifying_key := [7; 0; 1]; signature := [] |} ]; at_actor_proof := None |}.

(** A parent, its child, a claim with a child of its own, and a trade. *)
Definition pool_txs : list AuthorizedTransaction :=
  [ pool_tx 1 [coin 61] None; pool_tx 2 [OpRegular [1] 0; coin 62] None;
    pool_tx 3 [coin 63] (Some (ClaimDecision (custom_claim 30))); pool_tx 4 [OpRegular [3] 1] None;
    pool_tx 5 [coin 65] (Some (Trade (replicate 6 5) 0 10 [40] 100 None [])) ].
Definition my_pool : MemPool := foldl add_tx MemPool_new pool_txs.

Lemma my_pool_reachable : rtc (pool_step spending) MemPool_new my_pool.
Proof. apply add_all_steps. vm_compute. reflexivity. Qed.

Definition txids (p : MemPool) : list Txid := map fst (map_to_list (mp_transactions p)).

Lemma mempool_invariant_witness :
  length (txids my_pool) = 5%nat ∧ pool_ok my_pool.
Proof. split; [vm_compute; reflexivity|]. exact (proj1 (proj2 (mempool_invariant my_pool) my_pool_reachable)). Defined.

Lemma mempool_delete_exact_witness :
  (txids <$> delete_tx my_pool [1]) = Some [[3]; [5]; [4]] ∧
  ∃ q, delete_tx my_pool [1] = Some q ∧ pool_core q ∧ (pool_ok my_pool → pool_ok q) ∧
    (∀ id t, mp_transactions q !! id = Some t ↔ mp_transactions my_pool !! id = Some t ∧ ¬ rtc (depends my_pool) [1] id).
Proof.
  split; [vm_compute; reflexivity|].
  exact (mempool_delete_exact my_pool [1] (spending_any _ _ my_pool_reachable)).
Defined.

(** A trade without inputs is taken twice: the order of trades then lists it
    twice, and deleting it leaves one entry behind. *)
Definition inputless_trade : AuthorizedTransaction := pool_tx 6 [] (Some (Trade (replicate 6 5) 0 10 [40] 100 None [])).
Definition inputless_pool : MemPool := add_tx (add_tx MemPool_new inputless_trade) inputless_trade.
Example inputless_put_twice :
  is_ok (put (add_tx MemPool_new inputless_trade) inputless_trade) = true ∧
  size (mp_transactions inputless_pool) = 1%nat ∧
  map snd (map_to_list (mp_trade_insertion_order inputless_pool)) = [[6]; [6]] ∧
  (fun q => (size (mp_transactions q), size (mp_trade_insertion_order q))) <$> delete_tx inputless_pool [6]
    = Some (0%nat, 1%nat).
Proof. split_and!; vm_compute; reflexivity. Qed.

(** A rival of the pending claim is confirmed. *)
Definition rival_claim : Transaction := at_transaction (pool_tx 9 [coin 66] (Some (ClaimDecision (custom_claim 30)))).

Lemma mempool_evict_exact_witness :
  (match evict_decision_claim_conflicts my_pool rival_claim with Some (q, ev) => Some (txids q, ev) | None => None end)
    = Some ([[5]; [1]; [2]], [[3]]) ∧
  ∃ q evicted, evict_decision_claim_conflicts my_pool rival_claim = Some (q, evicted) ∧ pool_ok q ∧
    (∀ id t d, mp_transactions q !! id = Some t → d ∈ get_claimed_decision_ids rival_claim →
               d ∈ get_claimed_decision_ids (at_transaction t) → id = tx_txid rival_claim) ∧
    (∀ z, z ∈ evicted → ∃ t d, mp_transactions my_pool !! z = Some t ∧ z ≠ tx_txid rival_claim ∧
               d ∈ get_claimed_decision_ids rival_claim ∧ d ∈ get_claimed_decision_ids (at_transaction t)) ∧
    mp_transactions q ⊆ mp_transactions my_pool ∧
    (∀ id t, mp_transactions my_pool !! id = Some t → mp_transactions q !! id = None →
             ∃ z, z ∈ evicted ∧ rtc (depends my_pool) z id).
Proof. split; [vm_compute; reflexivity|]. exact (mempool_evict_exact my_pool rival_claim my_pool_reachable). Defined.

(** The numbers of trades are keys in little-endian order: number 256 comes
    before number 1. *)
Example trade_order_wraps :
  map fst (db_iter u64_key_cmp (list_to_map (M := gmap Z Txid) (map (fun n => (n, [n])) [1; 2; 255; 256; 257])))
  = [256; 1; 257; 2; 255].
Proof. vm_compute. reflexivity. Qed.
