(* ===== verification/NodeSamples.v ===== *)
(** * A sample node

    A node at its second block with a payment pending, on which the theorems
    about the node are evaluated. *)

From stdpp Require Import base numbers list strings gmap relations.
From S2P Require Import Prelude Float64 SafeMath MarketMath StateErrors DecisionTypes Markets MarketsFacts Transactions.
From S2P Require Import TransactionsFacts TwoWayPeg TwoWayPegSamples Bodies Archive ArchiveStore ArchiveSamples Voting.
From S2P Require Import MarketsDb MarketsDbFacts SettlementFacts TxPow Authorization StateModel Validation BlockUpdate BlockConnect.
From S2P Require Import Mempool MempoolFacts Wallet BlockSamples Node NodeTxs NodeFacts.

#[local] Existing Instance TwoWayPegSamples.toy_mainchain.
#[local] Existing Instance ArchiveSamples.toy_env.
#[local] Existing Instance ArchiveSamples.toy_body_hashes.
#[local] Existing Instance TxPow.toy_pow.
#[local] Existing Instance BlockSamples.toy_validation.
#[local] Existing Instance BlockSamples.toy_block.

(** ** A block on top of two *)

Definition main_at (n : Z) : BlockHeaderInfo :=
  {| mh_block_hash := main_hash n; mh_prev_block_hash := if n =? 0 then all_zeros else main_hash (n - 1);
     mh_height := n; mh_work := 5; mh_timestamp := 1000 + 100 * n |}.

Definition body2 : Body :=
  {| coinbase := {| cb_memo := [2]; cb_outputs := [Output_new bob (CBitcoin 100)] |}; transactions := [payment_tx];
     authorizations := [ {| verifying_key := carol; signature := [] |} ]; actor_proofs := [None] |}.
Definition header2 : Header :=
  {| merkle_root := compute_merkle_root (coinbase body2) (transactions body2); prev_side_hash := Some (side_hash 1);
     prev_main_hash := main_hash 2 |}.

(** Each side block is committed to by the mainchain block after the one it
    names. *)
Definition committing (e : bytes * option bytes) : bytes * BlockInfo :=
  (e.1, {| bmm_commitment := e.2; bi_events := [] |}).
Definition node_archive : Archive :=
  let a := foldl store_main Archive_new (map main_at [0; 1; 2; 3; 4]) in
  let a := foldl store_info a (map committing
             [(main_hash 0, None); (main_hash 1, Some (side_hash 0)); (main_hash 2, Some (side_hash 1));
              (main_hash 3, Some (header_hash header2)); (main_hash 4, None)]) in
  let a := foldl store_side a [side_header 0 None 0; side_header 1 (Some 0) 1; header2] in
  run (put_body a (header_hash header2) body2) a.

Definition no_peg : PegState :=
  {| pg_height := None; pg_tables := {| utxos := ∅; utxos_by_address := ∅; stxos := ∅ |};
     pending_withdrawal_bundle := None; latest_failed_withdrawal_bundle := None; withdrawal_bundles := ∅;
     block_index_events := ∅; deposit_blocks := ∅; withdrawal_bundle_event_blocks := ∅ |}.

Definition node_at (p : MemPool) : Node :=
  {| n_archive := node_archive; n_state := set_s_height (set_s_tip chain0 (Some (side_hash 1))) (Some 1);
     n_peg := no_peg; n_mempool := p |}.

(** A rival of the payment, and a trade. *)
Definition signed (tx : Transaction) (a : Address) : AuthorizedTransaction :=
  {| at_transaction := tx; at_authorizations := [ {| verifying_key := a; signature := [] |} ]; at_actor_proof := None |}.
Definition rival_tx : Transaction :=
  {| tx_inputs := [coin 4]; tx_outputs := [Output_new alice (CBitcoin 2800)]; tx_memo := replicate 32 77; tx_data := None |}.
Definition rival_pool : MemPool := foldl add_tx MemPool_new [signed rival_tx carol].
Definition node0 : Node := node_at rival_pool.
Definition node1 : Node := run (connect_tip_ node0 header2 body2 []) node0.

Lemma node1_connects : connect_tip_ node0 header2 body2 [] = Ok node1.
Proof. apply is_ok_run. vm_compute. reflexivity. Qed.

Lemma rival_pool_ok : pool_ok rival_pool.
Proof. apply reachable_pool_ok, add_all_steps. vm_compute. reflexivity. Qed.

Lemma absent_no_dependents p a b : mp_transactions p !! a = None → a ≠ b → ¬ rtc (depends p) a b.
Proof. intros Ha Hne Hr. apply rtc_inv in Hr as [?|(c & (ta & _ & _ & Hta & _) & _)]; congruence. Qed.

Lemma rival_blocks_disconnect_witness :
  mp_transactions (n_mempool node1) !! replicate 32 77 = Some (signed rival_tx carol) ∧
  ∀ n'', disconnect_tip_ node1 ≠ Ok n''.
Proof.
  apply (rival_blocks_disconnect node0 header2 body2 [] node1 [signed payment_tx carol] (signed payment_tx carol)
    (coin 4) (replicate 32 77) (signed rival_tx carol)).
  - exact rival_pool_ok.
  - exact node1_connects.
  - reflexivity.
  - repeat constructor.
  - apply list_elem_of_here.
  - apply list_elem_of_here.
  - vm_compute. reflexivity.
  - apply list_elem_of_here.
  - intros tx ->%list_elem_of_singleton. apply absent_no_dependents; [vm_compute; reflexivity|discriminate].
Defined.

(** ** Moving to the block *)

Definition new_tip : Tip := {| tip_block_hash := header_hash header2; tip_main_block_hash := main_hash 3 |}.

Lemma reorg_atomic_witness :
  (reorg_to_tip node0 new_tip).1 = Ok true ∧
  s_tip (n_state (reorg_to_tip node0 new_tip).2) = Some (header_hash header2).
Proof.
  assert ((reorg_to_tip node0 new_tip).1 = Ok true) as Hr by (vm_compute; reflexivity). split; [exact Hr|].
  pose proof (reorg_atomic node0 new_tip _ _ (surjective_pairing (reorg_to_tip node0 new_tip))) as [H _].
  rewrite Hr in H. exact (proj1 H).
Defined.

(** The same block over a state in which the coin it spends is not there: the
    state refuses it, the body is discarded, and nothing else changes. *)
Definition poor_node : Node :=
  set_n_state node0 (set_s_utxos (n_state node0) {| utxos := ∅; utxos_by_address := ∅; stxos := ∅ |}).
Example refused_body_discarded :
  is_ok (reorg_to_tip poor_node new_tip).1 = false ∧
  is_ok (get_body (n_archive poor_node) (header_hash header2)) = true ∧
  is_ok (get_body (n_archive (reorg_to_tip poor_node new_tip).2) (header_hash header2)) = false ∧
  n_state (reorg_to_tip poor_node new_tip).2 = n_state poor_node.
Proof. split_and!; vm_compute; reflexivity. Qed.

(** ** Choosing transactions *)

Definition pending : list AuthorizedTransaction :=
  [ signed payment_tx carol; signed (trade_tx 12 (coin 3) 1 5000 bob 20000) bob;
    signed {| tx_inputs := [coin 90]; tx_outputs := []; tx_memo := replicate 32 91; tx_data := None |} bob ].
Definition busy_pool : MemPool := foldl add_tx MemPool_new pending.
Definition busy_node : Node := node_at busy_pool.
Definition chosen (n : Node) : list AuthorizedFilled * Z * Node := run (get_transactions n 10) ([], 0, n).

Lemma busy_pool_ok : pool_ok (n_mempool busy_node).
Proof. apply reachable_pool_ok, add_all_steps. vm_compute. reflexivity. Qed.

(** The payment and the trade are chosen; the transaction whose input is unknown
    leaves the pool. *)
Lemma template_sound_witness :
  (map (fun f => at_txid (unfill f)) (chosen busy_node).1.1, (chosen busy_node).1.2,
   size (mp_transactions (n_mempool (chosen busy_node).2)))
    = ([replicate 32 13; replicate 32 12], 1100, 2%nat) ∧
  validate_fees (chosen busy_node).1.2 (map af_transaction (chosen busy_node).1.1) ∅ = Ok tt.
Proof.
  split; [vm_compute; reflexivity|].
  destruct (template_sound busy_node 10 (chosen busy_node).1.1 (chosen busy_node).1.2 (chosen busy_node).2 busy_pool_ok)
    as (_ & _ & _ & _ & _ & _ & _ & H).
  - rewrite <- !surjective_pairing. apply is_ok_run. vm_compute. reflexivity.
  - apply H. vm_compute. reflexivity.
Defined.

(** ** Blocks the choice makes that do not connect *)

(** The market's creator deposits 4000 of a coin of 9000. *)
Definition deposit_tx : Transaction :=
  {| tx_inputs := [coin 71]; tx_outputs := []; tx_memo := replicate 32 71;
     tx_data := Some (AmplifyBeta sample_id 4000 (replicate 20 3)) |}.
Definition deposit_pool : MemPool := foldl add_tx MemPool_new [signed deposit_tx (replicate 20 3); signed payment_tx carol].
Definition deposit_node : Node :=
  let n := node_at deposit_pool in
  set_n_state n (set_s_utxos (n_state n) (insert_utxo (s_utxos (n_state n)) (coin 71) (plain (replicate 20 3) 9000))).

Lemma ok_unit {E} (c : result E unit) : is_ok c = true → c = Ok tt.
Proof. by destruct c as [[]|]. Qed.

Lemma deposit_pool_ok : pool_ok (n_mempool deposit_node).
Proof. apply reachable_pool_ok, add_all_steps. vm_compute. reflexivity. Qed.

Lemma deposit_template_rejected_witness :
  (chosen deposit_node).1.2 = 9100 ∧
  ∀ s height r, connect_transactions s height (chosen deposit_node).1.2 (map af_transaction (chosen deposit_node).1.1) ≠ Ok r.
Proof.
  split; [vm_compute; reflexivity|].
  apply (deposit_template_rejected deposit_node 10 (chosen deposit_node).1.1 (chosen deposit_node).1.2
    (chosen deposit_node).2 deposit_pool_ok).
  - rewrite <- !surjective_pairing. apply is_ok_run. vm_compute. reflexivity.
  - assert (Forall (fun f => amplifies f = false ∨ validate_amplify_beta (n_state deposit_node)
                                                     (with_actor (af_transaction f) None) = Ok tt ∧
                     (ab_amount <$> amplify_beta (af_transaction f)) = Some 4000) (chosen deposit_node).1.1) as H.
    { assert (forallb (fun f => negb (amplifies f) ||
                (is_ok (validate_amplify_beta (n_state deposit_node) (with_actor (af_transaction f) None)) &&
                 bool_decide ((ab_amount <$> amplify_beta (af_transaction f)) = Some 4000))) (chosen deposit_node).1.1 = true)
        as Hb by (vm_compute; reflexivity).
      rewrite Forall_forall. intros f Hf%list_elem_of_In.
      rewrite forallb_forall in Hb. specialize (Hb f Hf). apply orb_true_iff in Hb as [Hb|[Hb Hc]%andb_true_iff].
      - left. by apply negb_true_iff.
      - right. apply bool_decide_eq_true in Hc. split; [exact (ok_unit _ Hb)|exact Hc]. }
    intros f Hf Ha. rewrite Forall_forall in H. destruct (H f Hf) as [Hn|[Hv Hm]]; [congruence|].
    destruct (amplify_beta (af_transaction f)) as [a|] eqn:Ea; [|done]. exists None, a. simpl in Hm.
    injection Hm as Hm. split; [exact Ea|]. split; [unfold is_u64; lia|exact Hv].
  - vm_compute. reflexivity.
Defined.

(** Bob buys for 2000 with a limit of 2500: within the limit, but not with the
    miner's fee of 1000. *)
Definition tight_tx : AuthorizedTransaction := signed (trade_tx 72 (coin 3) 1 5000 bob 2500) bob.
Definition tight_node : Node := node_at (add_tx MemPool_new tight_tx).
Definition tight_filled : FilledTransaction :=
  {| transaction := at_transaction tight_tx; spent_utxos := [plain bob 20000]; actor_address := None |}.
Definition tight_chosen : AuthorizedFilled :=
  {| af_transaction := tight_filled; af_authorizations := at_authorizations tight_tx; af_actor_proof := None |}.
Definition tight_view : TradeView :=
  {| tv_market_id := sample_id; tv_outcome_index := 1; tv_shares := 5000; tv_trader := bob; tv_limit_sats := 2500;
     tv_tx_pow_nonce := None; tv_prev_block_hash := side_hash 4 |}.
Definition tight_shares : list Z := [4000; 5000; 0; 0; 0; 0].
Definition tight_base : f64 :=
  run (Trading.calculate_update_cost f64_exp f64_ln (m_shares traded_market) tight_shares (market_beta traded_market)) f64_zero.
Definition tight_cost : Trading.BuyCost :=
  run (Trading.calculate_buy_cost tight_base (m_trading_fee traded_market))
    {| Trading.base_cost_sats := 0; Trading.buy_trading_fee_sats := 0; Trading.total_cost_sats := 0 |}.

Lemma tight_buy_rejected_witness :
  get_transactions tight_node 10 = Ok ([tight_chosen], 1000, tight_node) ∧
  connect_transactions (n_state tight_node) 2 1000 [tight_filled] = Err NotEnoughFees.
Proof.
  destruct (tight_buy_rejected tight_node 10 tight_tx tight_chosen tight_view traded_market tight_shares tight_base
    tight_cost 20000 2) as (H1 & _ & H2); [..|split; [exact H1|exact H2]].
  - vm_compute. reflexivity.
  - vm_compute. reflexivity.
  - reflexivity.
  - reflexivity.
  - vm_compute. reflexivity.
  - reflexivity.
  - vm_compute. split; discriminate.
  - vm_compute. reflexivity.
  - repeat constructor; lia.
  - vm_compute. reflexivity.
  - apply is_ok_run. vm_compute. reflexivity.
  - apply is_ok_run. vm_compute. reflexivity.
  - vm_compute. split; discriminate.
  - vm_compute. split; [reflexivity|discriminate].
  - vm_compute. discriminate.
Defined.

(** ** The peg data of the tip *)

(** The block at height 1 applied a bundle event of mainchain block 1 and a
    deposit of mainchain block 2; the tip at height 2 applied block 3, in which
    nothing happened. *)
Definition paid_in : Deposit := {| dep_txid := replicate 32 81; dep_vout := 0; dep_output := plain alice 700 |}.
Definition peg_archive : Archive :=
  foldl store_info (foldl store_main Archive_new (map main_at [0; 1; 2; 3]))
    [ (main_hash 0, {| bmm_commitment := None; bi_events := [] |});
      (main_hash 1, {| bmm_commitment := None;
                       bi_events := [EvWithdrawalBundle {| we_m6id := [82]; we_status := EvSubmitted |}] |});
      (main_hash 2, {| bmm_commitment := None; bi_events := [EvDeposit paid_in] |});
      (main_hash 3, {| bmm_commitment := None; bi_events := [] |}) ].
Definition peg_tip : Header := {| merkle_root := [83]; prev_side_hash := Some (side_hash 1); prev_main_hash := main_hash 3 |}.
Definition peg_node : Node :=
  {| n_archive := peg_archive;
     n_state := set_s_utxos (set_s_height chain0 (Some 2)) (insert_utxo tables0 (deposit_outpoint paid_in) (dep_output paid_in));
     n_peg := set_event_blocks (set_deposit_blocks no_peg {[ 0 := (main_hash 2, 1) ]}) {[ 0 := (main_hash 1, 1) ]};
     n_mempool := MemPool_new |}.

(** Of two blocks applied at the same height the earlier one is taken as the
    start, so the deposit of the block below is counted to the tip, and undoing
    the tip fails on it. *)
Example peg_data_of_earlier_block :
  tip_peg_data peg_node 2 peg_tip = Ok [(main_hash 2, [EvDeposit paid_in])] ∧
  match disconnect (peg_view peg_node) [(main_hash 2, [EvDeposit paid_in])] with
  | Err e => e = DatabaseError "event block height mismatch"
  | Ok _ => False
  end ∧
  is_ok (disconnect (peg_view peg_node) []) = true.
Proof. split_and!; vm_compute; reflexivity. Qed.

(** ** Two sells of the same shares *)

(** Alice holds 4000 shares and offers 3000 of them twice.  Each sell is checked
    against the confirmed holding, so both are chosen; connecting the block fails
    on the second. *)
Definition sell (id : Z) (input : OutPoint) (value : Z) : FilledTransaction :=
  {| transaction := trade_tx id input 0 (-3000) alice 0; spent_utxos := [plain alice value]; actor_address := None |}.
Definition two_sells : list FilledTransaction := [sell 84 (coin 2) 1500; sell 85 (coin 86) 1500].

Example sold_twice :
  match (a ← check_trade_slippage node0 (sell 84 (coin 2) 1500) ∅;
         b ← check_trade_slippage node0 (sell 85 (coin 86) 1500) a.2;
         Ok (a.1, b.1)) with
  | Ok r => r = (true, true)
  | Err _ => False
  end ∧
  match connect_transactions (n_state node0) 2 2000 two_sells with
  | Err e => e = InvalidTransaction "Trade would result in negative market shares"
  | Ok _ => False
  end ∧
  is_ok (try_fold (apply_tx 2) (n_state node0, StateUpdate_new, ∅) (enumerate 0 [sell 84 (coin 2) 1500])) = true.
Proof. split_and!; vm_compute; reflexivity. Qed.
