(* ===== verification/NetSamples.v ===== *)
(** * A sample mainchain node and two sample nodes

    Codecs with the laws asked of them, the sample archive followed along a fork
    of its mainchain, a mainchain node that answers from a table of blocks, a
    node with the first two side blocks and a peer that has all of them: the
    theorems on deposits, on the two tasks, on connections and on submission
    instantiated there. *)

From stdpp Require Import base numbers list strings gmap countable.
From S2P Require Import Prelude Float64 SafeMath MarketMath StateErrors DecisionTypes Markets Transactions.
From S2P Require Import TransactionsFacts TwoWayPeg TwoWayPegSamples Bodies Archive ArchiveStore ArchiveFacts ArchiveStoreFacts.
From S2P Require Import ArchiveInvalidation ArchiveReach ArchiveLinks ArchiveQueries ArchiveTips Voting MarketsDb TxPow.
From S2P Require Import Authorization StateModel Validation BlockUpdate BlockConnect Mempool BlockSamples Node NodeSamples.
From S2P Require Import Addresses Proto MainTask MainTaskFacts MainFetch Peer PeerFacts Net NetTask NetTaskFacts NetSync Submit.
From S2P Require Import ArchiveSamples.

#[local] Existing Instance TwoWayPegSamples.toy_mainchain.
#[local] Existing Instance ArchiveSamples.toy_env.
#[local] Existing Instance ArchiveSamples.toy_body_hashes.
#[local] Existing Instance TxPow.toy_pow.
#[local] Existing Instance BlockSamples.toy_validation.
#[local] Existing Instance BlockSamples.toy_block.

(** ** Codecs *)

(** A byte in unary between zeros stands for base 58. *)
Definition unary (b : bytes) : bytes := concat (map (fun z => replicate (encode_nat z) 49 ++ [48]) b).
Fixpoint read_unary (n : nat) (s : bytes) : option bytes :=
  match s with
  | [] => if (n =? 0)%nat then Some [] else None
  | c :: s => if c =? 49 then read_unary (S n) s
              else if c =? 48 then z ← decode_nat n; l ← read_unary 0 s; Some (z :: l) else None
  end.
Lemma read_unary_ones (k n : nat) s : read_unary n (replicate k 49 ++ s) = read_unary (k + n) s.
Proof. revert n. induction k as [|k IH]; intros n; [done|]. simpl. rewrite IH. f_equal. lia. Qed.
Lemma read_unary_ok b : read_unary 0 (unary b) = Some b.
Proof.
  induction b as [|z b IH]; [done|]. unfold unary. cbn [map concat]. rewrite <- app_assoc, read_unary_ones, Nat.add_0_r.
  cbn [app read_unary]. rewrite decode_encode_nat. cbn [mbind option_bind]. by fold (unary b); rewrite IH.
Qed.
Lemma unary_chars b : Forall (fun c => 48 ≤ c ≤ 57 ∨ 65 ≤ c ≤ 90 ∨ 97 ≤ c ≤ 122) (unary b).
Proof.
  induction b as [|z b IH]; [constructor|]. unfold unary. cbn [map concat]. apply Forall_app. split; [|exact IH].
  apply Forall_app. split; [apply Forall_replicate; lia|]. constructor; [lia|constructor].
Qed.

Definition digit (d : Z) : Z := if d <? 10 then 48 + d else 87 + d.
Definition undigit (c : Z) : option Z :=
  if (48 <=? c) && (c <=? 57) then Some (c - 48) else if (97 <=? c) && (c <=? 102) then Some (c - 87) else None.
Definition hex_text (b : bytes) : bytes := concat (map (fun z => [digit (z mod 256 / 16); digit (z mod 16)]) b).
Fixpoint read_hex (s : bytes) : option bytes :=
  match s with
  | [] => Some []
  | c :: d :: s => x ← undigit c; y ← undigit d; l ← read_hex s; Some (16 * x + y :: l)
  | [_] => None
  end.
Lemma undigit_digit d : 0 ≤ d < 16 → undigit (digit d) = Some d.
Proof.
  intros Hd. unfold undigit, digit. destruct (Z.ltb_spec d 10).
  - rewrite (proj2 (Z.leb_le 48 _)), (proj2 (Z.leb_le _ 57)) by lia. cbn [andb]. f_equal. lia.
  - rewrite (proj2 (Z.leb_gt _ 57)) by lia. rewrite andb_false_r.
    rewrite (proj2 (Z.leb_le 97 _)), (proj2 (Z.leb_le _ 102)) by lia. cbn [andb]. f_equal. lia.
Qed.
Lemma of_to_hex b : Forall is_u8 b → read_hex (hex_text b) = Some b.
Proof.
  induction 1 as [|z b Hz Hb IH]; [done|]. unfold hex_text. cbn [map concat app read_hex]. unfold is_u8 in Hz.
  pose proof (Z.mod_pos_bound z 16 ltac:(lia)). pose proof (Z.mod_pos_bound z 256 ltac:(lia)).
  rewrite !undigit_digit by first [lia|split; [apply Z.div_pos; lia|apply Z.div_lt_upper_bound; lia]].
  cbn [mbind option_bind]. fold (hex_text b). rewrite IH. cbn [mbind option_bind]. do 2 f_equal.
  rewrite (Z.mod_small z 256) by lia. symmetry. apply Z.div_mod. lia.
Qed.
Lemma digit_chars d : 0 ≤ d < 16 → 48 ≤ digit d ≤ 57 ∨ 97 ≤ digit d ≤ 102.
Proof. intros Hd. unfold digit. destruct (Z.ltb_spec d 10); lia. Qed.
Lemma to_hex_digits b : Forall (fun c => 48 ≤ c ≤ 57 ∨ 97 ≤ c ≤ 102) (hex_text b).
Proof.
  induction b as [|z b IH]; [constructor|]. unfold hex_text. cbn [map concat app].
  pose proof (Z.mod_pos_bound z 16 ltac:(lia)). pose proof (Z.mod_pos_bound z 256 ltac:(lia)).
  constructor; [apply digit_chars; split; [apply Z.div_pos; lia|apply Z.div_lt_upper_bound; lia]|].
  constructor; [by apply digit_chars|exact IH].
Qed.
Lemma to_hex_app b c : hex_text (b ++ c) = hex_text b ++ hex_text c.
Proof. unfold hex_text. by rewrite map_app, concat_app. Qed.
Lemma to_hex_length b : length (hex_text b) = (2 * length b)%nat.
Proof. induction b as [|z b IH]; [done|]. unfold hex_text in *. cbn [map concat app length]. rewrite IH. lia. Qed.

#[local] Instance toy_text : TextCodecs := {|
  base58_encode := unary; base58_decode := read_unary 0; base58_roundtrip := read_unary_ok; base58_chars := unary_chars;
  hex_encode := hex_text; hex_decode := read_hex; hex_roundtrip := of_to_hex; hex_app := to_hex_app; hex_length := to_hex_length;
  hex_digits := to_hex_digits; sha256 b := resize 32 0 (171 :: b); sha256_length b := length_resize (171 :: b) 32 0
|}.
#[local] Instance toy_consensus : ConsensusCodecs := {|
  serialize_hash h := h; serialize_hash_u8 h Hh := Hh; deserialize_hash := Some; hash_roundtrip h _ := eq_refl;
  serialize_hash_hex h := h; deserialize_hash_hex := Some; hash_hex_roundtrip h _ := eq_refl;
  work_from_le_bytes b := match b with w :: _ => w | [] => 0 end
|}.

Definition payee : Address := replicate 20 1.
Definition paying (b : bytes) : GDepositOutput :=
  {| gd_address := Some (Hex_encode b); gd_value_sats := Some 500 |}.
Lemma deposit_credited_witness :
  decode_deposit_output (paying (format_for_deposit payee))
  = Ok {| out_address := payee; out_content := FBitcoin 500; out_memo := [] |}.
Proof.
  pose proof (deposit_credited (paying (format_for_deposit payee))) as H. cbn [paying gd_address gd_value_sats] in H.
  cbn [mbind option_bind Hex_encode hx_hex] in H.
  rewrite (hex_roundtrip (format_for_deposit payee)) in H by (apply (bool_decide_unpack _); vm_compute; exact I).
  destruct H as (a & H1 & H2 & _). rewrite H1, (H2 payee eq_refl (or_introl eq_refl)). reflexivity.
Defined.
Lemma deposit_address_roundtrip_witness : from_deposit_address (format_for_deposit payee) = Ok payee.
Proof. apply (deposit_address_roundtrip payee). reflexivity. Defined.

(** A checksum of one digit is accepted. *)
Example one_digit_checksum :
  from_deposit_address (deposit_prefix ++ as_base58 payee ++ text "_a") = Ok payee.
Proof. vm_compute. reflexivity. Qed.

(** ** Following a fork *)

(** The archive with its mainchain tip moved to block 3. *)
Definition synced (a : Archive) (h : MainBlockHash) : Archive :=
  with_side_tips a (side_tips (run (sync_side_tips_to_tip a h) (a, [])).1).
Definition at3 : Archive := synced sample (main_hash 3).

Lemma synced_reachable a h : reachable a → reachable (synced a h).
Proof. intros Hr. eapply reachable_step; [exact Hr|apply step_tips]. Qed.

Lemma one_genesis_test a : map_Forall (fun x n => n = 0 → x = main_hash 0) (main_block_hash_to_height a) → one_genesis a.
Proof. intros Hall x y Hx Hy. by rewrite (Hall x 0 Hx eq_refl), (Hall y 0 Hy eq_refl). Qed.

(** Finite tables decide what is asked of every entry. *)
Definition followable_test (a : Archive) : Prop :=
  match tip_info (mainchain_tip (side_tips a)) with
  | Some i => main_header_infos a !! mh_block_hash i = Some i
  | None => True
  end ∧
  map_Forall (fun h i => main_block_hash_to_height a !! h = Some (mh_height i) ∧ is_Some (main_block_infos a !! h))
    (main_header_infos a) ∧
  map_Forall (fun _ n => n < 2 ^ 31) (main_block_hash_to_height a) ∧ bodies a = ∅.
#[local] Instance BlockHeaderInfo_eq_dec : EqDecision BlockHeaderInfo.
Proof. solve_decision. Defined.
#[local] Instance followable_test_dec a : base.Decision (followable_test a).
Proof. unfold followable_test. destruct (tip_info _); apply _. Defined.
Lemma followable_of_test a : followable_test a → followable a.
Proof.
  intros (Ht & Hi & Hh & Hb). split; [done|..].
  - intros h i Hl. by apply (Hi h i).
  - intros h [i Hl]. by apply (Hi h i).
  - intros c. rewrite Hb, lookup_empty. by intros [].
  - intros h b c _ _. rewrite Hb, lookup_empty. by intros [].
  - intros h n Hl. by apply (Hh h n).
Qed.

Lemma not_main_ancestor a x h nx n :
  reachable a → get_main_height a x = Ok nx → get_main_height a h = Ok n → is_main_descendant a x h = Ok false →
  ¬ ancestor_of (main_index a) x h.
Proof.
  intros [_ Hm]%reachable_ok Hx Hh Hd Hanc.
  destruct (is_descendant_in_ok (main_index a) (mc_index a Hm) x h nx n Hx Hh) as (b & Hb & Hbt).
  change (is_main_descendant a x h) with (is_descendant_in (main_index a) x h) in Hd.
  rewrite Hd in Hb. injection Hb as <-. by apply Hbt in Hanc.
Qed.

Lemma sync_moves_tip_witness :
  ∃ a' events, sync_side_tips_to_tip at3 (main_hash 4) = Ok (a', events) ∧ moved at3 (main_hash 4) a' events.
Proof.
  apply (sync_moves_tip at3 (main_hash 4) 3).
  - apply synced_reachable, sample_reachable.
  - apply one_genesis_test, (bool_decide_unpack _). vm_compute. exact I.
  - apply followable_of_test, (bool_decide_unpack _). vm_compute. exact I.
  - vm_compute. reflexivity.
  - intros h _ _ b c Hb Hc. exfalso.
    assert (map_Forall (fun _ b => bmm_commitment b = None) (main_block_infos at3)) as Hall.
    { apply (bool_decide_unpack _). vm_compute. exact I. }
    pose proof (Hall h b Hb). congruence.
Defined.
Example sync_events :
  (run (sync_side_tips_to_tip at3 (main_hash 4)) (at3, [])).2
  = [DisconnectBlock (main_hash 3); ConnectBlock (main_info 4 2 3 7) {| bmm_commitment := None; bi_events := [] |}].
Proof. vm_compute. reflexivity. Qed.

(** Block 3 commits to a block whose body never came. *)
Definition stuck : Archive :=
  synced (store_info sample (main_hash 3, {| bmm_commitment := Some (side_hash 9); bi_events := [] |})) (main_hash 3).
Definition stuck_task : MainTask :=
  {| mt_archive := stuck; mt_progress := set_idle; mt_events := []; mt_replies := [] |}.
Lemma stuck_reachable : reachable stuck.
Proof. apply synced_reachable, store_info_reachable, sample_reachable. Qed.

Lemma unconnected_commitment_stops_task_witness :
  run_once (fun _ _ => Ok None) 1 stuck_task (main_hash 4) []
  = (Err (SyncSideTipsToTip (main_hash 4) (SideTipsErr (MissingSidechainTip (side_hash 9)))), set_mt stuck_task stuck set_idle).
Proof.
  apply (unconnected_commitment_stops_task (fun _ _ => Ok None) 1 stuck_task (main_hash 4) 3 (main_info 3 2 3 5)
           {| bmm_commitment := Some (side_hash 9); bi_events := [] |} (side_hash 9) []).
  - exact stuck_reachable.
  - apply one_genesis_test, (bool_decide_unpack _). vm_compute. exact I.
  - apply followable_of_test, (bool_decide_unpack _). vm_compute. exact I.
  - vm_compute. reflexivity.
  - vm_compute. reflexivity.
  - apply (not_main_ancestor stuck (main_hash 3) (main_hash 4) 3 3); [exact stuck_reachable|vm_compute; reflexivity..].
  - vm_compute. reflexivity.
  - reflexivity.
  - vm_compute. reflexivity.
Defined.

(** ** Fetching from a table of blocks *)

Definition no_commitment : BlockInfo := {| bmm_commitment := None; bi_events := [] |}.
Definition table : gmap MainBlockHash (BlockHeaderInfo * BlockInfo) :=
  <[main_hash 0 := (main_info 0 (-1) 0 5, no_commitment)]> {[main_hash 1 := (main_info 1 0 1 5, no_commitment)]}.
Definition from_table (h : MainBlockHash) (n : Z) : result ProtoError (option (list (BlockHeaderInfo * BlockInfo))) :=
  Ok ((fun x => [x]) <$> table !! h).

#[local] Instance from_table_source : InfoSource from_table.
Proof.
  intros h n l. unfold from_table. destruct (table !! h) as [x|]; [|discriminate]. intros [= <-]. split; [done|].
  intros i x' y Hi Hy. by destruct i.
Qed.

Lemma table_cases h x : table !! h = Some x →
  (h = main_hash 0 ∧ x = (main_info 0 (-1) 0 5, no_commitment)) ∨ (h = main_hash 1 ∧ x = (main_info 1 0 1 5, no_commitment)).
Proof. unfold table. intros [[<- <-]|[_ [<- <-]%lookup_singleton_Some]]%lookup_insert_Some; [by left|by right]. Qed.

Lemma table_ok : tree_ok table.
Proof.
  intros h i b [[-> [= -> ->]]|[-> [= -> ->]]]%table_cases; split_and!; try done.
  exists (main_info 0 (-1) 0 5), no_commitment. done.
Qed.
Lemma table_serves : serves table from_table.
Proof.
  split; intros h n.
  - intros E. unfold from_table. by rewrite E.
  - intros x E. exists [x]. unfold from_table. rewrite E. split_and!; [done..|].
    intros y ->%list_elem_of_singleton. by destruct (table_cases h x E) as [[-> ->]|[-> ->]].
Qed.

Lemma ancestors_fetched_witness :
  ∃ available a' p', request_ancestor_infos from_table 2 Archive_new set_idle (main_hash 1) = (Ok available, a', p') ∧
    stored_in Archive_new a' ∧ agrees table a' ∧
    if available then at_known a' (main_hash 1) = true else table !! main_hash 1 = None ∧ a' = Archive_new.
Proof.
  apply (ancestors_fetched table from_table Archive_new set_idle (main_hash 1) 2).
  - exact table_ok.
  - exact table_serves.
  - apply rtc_refl.
  - split; [intros h i E; cbn in E; by rewrite lookup_empty in E..|]. intros h [i E]. cbn in E. by rewrite lookup_empty in E.
  - intros i b E. destruct (table_cases _ _ E) as [[? [= -> ->]]|[? [= -> ->]]]; cbn; lia.
  - lia.
Defined.

#[local] Instance toy_peer_hashes : PeerHashes.
Proof.
  refine {|
    request_hash r := match r with
      | GetBlock r => 0 :: gbr_block_hash r
      | GetHeaders r => 1 :: ghr_end r ++ concat (elements (ghr_start r))
      | PushTransaction t => 2 :: tx_txid (at_transaction t)
      end;
    peer_state_hash s := match ps_tip_info s with
      | Some i => tip_block_hash (tp_tip i) ++ tip_main_block_hash (tp_tip i) ++ [tp_block_height i; tp_total_work i]
      | None => []
      end
  |}.
  by intros [].
Defined.
#[local] Instance toy_net_env : NetEnv := {|
  tips_iter m := map_to_list m; tips_iter_perm m := Permutation_refl (map_to_list m);
  peers_iter s := elements s; peers_iter_perm s := Permutation_refl (elements s);
  sources_iter s := elements s; sources_iter_perm s := Permutation_refl (elements s)
|}.

(** ** The connection *)

Definition peer_tip (side main height work : Z) : TipInfo :=
  {| tp_block_height := height; tp_tip := tip_at side main; tp_total_work := work |}.

Lemma peer_tip_check_agrees_witness :
  check_peer_tip_and_request_headers at3 RequestQueue_new (Some (peer_tip 3 3 3 20)) (peer_tip 5 2 3 15) []
  = Ok (if bool_decide (Some (tip_at 5 2) = Some (tip_at 5 2)) then Some true else None, RequestQueue_new).
Proof.
  apply (peer_tip_check_agrees at3 RequestQueue_new (peer_tip 3 3 3 20) (peer_tip 5 2 3 15) [] (Some (tip_at 5 2))).
  - split; vm_compute; reflexivity.
  - split; vm_compute; reflexivity.
  - cbn. lia.
  - cbn. lia.
  - exists (side_header 5 (Some 2) 2). vm_compute. reflexivity.
  - vm_compute. reflexivity.
  - vm_compute. reflexivity.
Defined.

(** Two first blocks, at height 0: the archive chooses neither, the connection
    takes the peer's for better. *)
Definition two_roots : Archive := synced (store_side sample (side_header 6 None 1)) (main_hash 3).
Example first_blocks_disagree :
  truthful two_roots (peer_tip 6 3 0 20) ∧ truthful two_roots (peer_tip 0 3 0 20) ∧
  better_tip two_roots (tip_at 6 3) (tip_at 0 3) = Ok None ∧
  check_peer_tip_and_request_headers two_roots RequestQueue_new (Some (peer_tip 6 3 0 20)) (peer_tip 0 3 0 20) []
    = Ok (Some true, RequestQueue_new).
Proof. repeat split; vm_compute; reflexivity. Qed.

Definition ask_for (h : bytes) : PeerRequest :=
  GetBlock {| gbr_block_hash := h; gbr_descendant_tip := None; gbr_ancestor := None; gbr_peer_state_id := None |}.
Definition version0 : Version := {| v_major := 0; v_minor := 1; v_patch := 0 |}.
Definition twice : list (Archive * State * MailItem) :=
  replicate 2 (sample, chain0, MailInternal (ForwardRequest (ask_for (side_hash 4)))).
Example sent_once : rq_sent (pc_queue (run_peer version0 PeerConn_new twice).2) = [ask_for (side_hash 4)].
Proof. vm_compute. reflexivity. Qed.

(** Two entries with one request on the wire are at one position. *)
Lemma requests_sent_once_witness :
  rq_sent (pc_queue (run_peer version0 PeerConn_new twice).2) !! 0%nat = Some (ask_for (side_hash 4)) ∧ 0%nat = 0%nat.
Proof.
  split; [vm_compute; reflexivity|].
  apply (requests_sent_once version0 twice (run_peer version0 PeerConn_new twice).1 (run_peer version0 PeerConn_new twice).2
           0 0 (ask_for (side_hash 4)) (ask_for (side_hash 4)));
    [apply surjective_pairing|vm_compute; reflexivity|vm_compute; reflexivity|reflexivity].
Defined.

(** ** The network task *)

Definition client : Archive := foldl store_side sample_main (take 2 sample_sides).
Lemma client_reachable : reachable client.
Proof.
  apply foldl_reachable; [apply store_side_reachable|]. unfold sample_main.
  apply foldl_reachable; [apply store_info_reachable|]. apply foldl_reachable; [apply store_main_reachable|]. apply rtc_refl.
Qed.

Definition peer_addr : SocketAddr := ([10; 0; 0; 1], 4013).
Definition peer_handle : PeerHandle :=
  {| ph_status := Connected; ph_received := true; ph_address := ResolvedStatic peer_addr; ph_messages := [] |}.
Definition task_with (a : Archive) : NetTask :=
  {| nt_node := set_n_archive (node_at MemPool_new) a;
     nt_net := {| active_peers := {[peer_addr := peer_handle]}; known_peers := ∅ |};
     nt_descendant_tips := ∅; nt_request_sources := ∅; nt_new_tips := []; nt_forward := []; nt_main_requests := [];
     nt_reconnect := [] |}.

#[local] Instance Header_eq_dec : EqDecision Header.
Proof. solve_decision. Defined.

Lemma client_infos : infos_known client.
Proof.
  assert (map_Forall (fun h _ => is_Some (main_block_infos client !! h)) (main_header_infos client)) as Hall.
  { apply (bool_decide_unpack _). vm_compute. exact I. }
  intros h [i Hi]. by apply (Hall h i).
Qed.
Lemma client_no_conflict : no_conflict client sample.
Proof.
  assert (map_Forall (fun h hd => headers sample !! h = Some hd) (headers client)) as Hall.
  { apply (bool_decide_unpack _). vm_compute. exact I. }
  intros x hd hd' Hx Hx'. pose proof (Hall x hd Hx). congruence.
Qed.
Lemma client_accepts h : acceptable client sample h.
Proof.
  assert (map_Forall (fun x hd => (prev_main_hash hd = all_zeros ∨ is_Some (main_header_infos client !! prev_main_hash hd)) ∧
    invalidated_block client x = false) (headers sample)) as Hall.
  { apply (bool_decide_unpack _). vm_compute. exact I. }
  intros x hd _ Hx. by apply (Hall x hd).
Qed.

(** The headers after the first block of the client. *)
Definition locator : gset bytes := list_to_set [side_hash 0].
Definition header_answer : list Header :=
  [side_header 1 (Some 0) 1; side_header 2 (Some 1) 1; side_header 3 (Some 2) 2; side_header 4 (Some 3) 3].
Example answer_of_peer : handle_get_headers sample locator (side_hash 4) = Ok (RespHeaders header_answer).
Proof. vm_compute. reflexivity. Qed.

Definition asking : NetTask := task_with client.
Definition served : TipInfo := peer_tip 4 3 4 20.
Lemma headers_synced_witness :
  let a := n_archive (nt_node asking) in
  let h := tip_block_hash (tp_tip served) in
  ∃ resp t', handle_get_headers sample locator h = Ok resp ∧
    handle_response peer_addr resp (headers_request locator served [7]) asking = (Ok tt, t') ∧
    let a' := n_archive (nt_node t') in
    archive_ok a' ∧ headers a ⊆ headers a' ∧ get_height a' h = Ok (tp_block_height served) ∧
    (∀ x, ancestor_of (side_index sample) x h → headers a' !! x = headers sample !! x) ∧
    active_peers (nt_net t') = <[peer_addr := add_message (HeadersAvailable [7]) peer_handle]> (active_peers (nt_net asking)).
Proof.
  apply (headers_synced asking sample peer_addr peer_handle locator served [7]).
  - exact client_reachable.
  - exact client_infos.
  - exact sample_reachable.
  - exact client_no_conflict.
  - apply client_accepts.
  - vm_compute. reflexivity.
  - vm_compute. reflexivity.
  - vm_compute. reflexivity.
  - right. exists (side_hash 1), [side_hash 0]. split; [vm_compute; reflexivity|reflexivity].
  - vm_compute. reflexivity.
Defined.

Definition sync_items : list NetMailItem :=
  [ForwardMainchainTaskRequest (main_hash 9) peer_addr [7] true;
   PeerResponded peer_addr (RespHeaders header_answer) (headers_request locator (peer_tip 4 3 4 20) [7])].

Lemma net_archive_reachable_witness : reachable (n_archive (nt_node (run_net sync_items (task_with client)).2)).
Proof.
  apply (net_archive_reachable sync_items (task_with client) (run_net sync_items (task_with client)).1
           (run_net sync_items (task_with client)).2).
  - exact client_reachable.
  - apply Z.leb_le. vm_compute. reflexivity.
  - apply surjective_pairing.
Defined.
Example headers_stored : size (headers (n_archive (nt_node (run_net sync_items (task_with client)).2))) = 5%nat.
Proof. vm_compute. reflexivity. Qed.

Lemma net_tables_bounded_witness :
  let t' := (run_net sync_items (task_with client)).2 in
  size (nt_request_sources t') = 1%nat ∧
  (size (nt_descendant_tips t') ≤ MAX_DESCENDANT_TIPS)%nat ∧ (size (nt_request_sources t') ≤ MAX_PENDING_MAINCHAIN_REQUESTS)%nat.
Proof.
  split; [vm_compute; reflexivity|].
  apply (net_tables_bounded sync_items (task_with client) (run_net sync_items (task_with client)).1
           (run_net sync_items (task_with client)).2); [reflexivity|reflexivity|apply surjective_pairing].
Defined.

(** A header on a mainchain block nobody told of, at the height asked for. *)
Definition stray : Header := {| merkle_root := side_hash 8; prev_side_hash := Some (side_hash 0); prev_main_hash := main_hash 99 |}.
Definition stray_request : GetHeadersRequest :=
  {| ghr_start := locator; ghr_end := side_hash 8; ghr_height := Some 1; ghr_peer_state_id := Some [7] |}.

Lemma unknown_main_parent_ends_task_witness :
  run_net [PeerResponded peer_addr (RespHeaders [stray]) (GetHeaders stray_request)] (task_with client)
  = (Err (NodeArchive (NoMainBlockHash (main_hash 99))), task_with client).
Proof.
  apply (unknown_main_parent_ends_task (task_with client) peer_addr stray_request 1 [7] stray [] []).
  - exact client_reachable.
  - exact client_infos.
  - apply Z.leb_le. vm_compute. reflexivity.
  - reflexivity.
  - reflexivity.
  - vm_compute. reflexivity.
  - vm_compute. reflexivity.
  - discriminate.
  - vm_compute. reflexivity.
Defined.

(** ** A submission *)

(** The sample node with its side tips connected along the mainchain. *)
Definition tips_to4 : SideTips :=
  run (try_fold (fun st e => connect_mainchain_tip st (NodeSamples.main_at e.1) e.2) SideTips_create
         [(0, None); (1, Some (side_hash 0, side_header 0 None 0)); (2, Some (side_hash 1, side_header 1 (Some 0) 1));
          (3, Some (header_hash header2, header2)); (4, None)]) SideTips_create.
Definition mining_node : Node := set_n_archive node0 (with_side_tips node_archive tips_to4).
Definition no_infos (_ : MainBlockHash) (_ : Z) : result ProtoError (option (list (BlockHeaderInfo * BlockInfo))) := Ok None.
Abbreviation submitted := (submit_block no_infos None 1 true mining_node (main_hash 3) header2 body2).

Lemma submit_block_atomic_witness :
  submitted.1 = Ok true ∧ s_tip (n_state submitted.2) = Some (header_hash header2).
Proof.
  assert (submitted.1 = Ok true) as Hr by (vm_compute; reflexivity). split; [exact Hr|].
  pose proof (submit_block_atomic no_infos None 1 true mining_node (main_hash 3) header2 body2 _ _ (surjective_pairing submitted)) as H.
  rewrite Hr in H. exact (proj1 H).
Defined.
